(* ===== verification/_CoqProject ===== *)
-Q . S2P
Prelude.v
Regex.v
GoStrings.v
Sha256.v
GoJson.v
CanonicalJson.v
K8s.v
ApiTypes.v
DataOperation.v
DataStatus.v
Receipts.v
Operations.v
GoNet.v
GoNetip.v
GameDefinition.v
KubeObjects.v
KubePlan.v
KubeApi.v
TraceLogic.v
WorkerInput.v
OperationDigest.v
KubeDestroy.v
OperationFence.v
WorkerPods.v
KubeBackup.v
DestroyController.v
DestroySafety.v
DestroySchema.v
ServerStatus.v
RuntimeDrain.v
ServerController.v
KubeRestore.v
ServerSpec.v
ServerSafety.v
ServerSamples.v
SourceClaims.v
BackupController.v
BackupSafety.v
BackupSamples.v
RestoreStatus.v
RestoreSource.v
RestoreVolumes.v
RestoreCandidates.v
RestoreWorker.v
RestoreController.v
RestoreMachine.v
RestoreEvidence.v
RestoreParts.v
RestorePhases.v
RestoreActivation.v
RestoreSafety.v
RestoreHistory.v
RestoreSamples.v
OperationStatus.v
OperationPlanning.v
OperationServer.v
OperationData.v
OperationController.v
OperationMachine.v
OperationParts.v
OperationSafety.v
OperationHistory.v
