(* ===== verification/Prelude.v ===== *)
(** * Arcadectl: a verification development

    Arcadectl runs game servers on Kubernetes and guards the worlds they save.
    A [GameServer] asks for a server; [GameBackup], [GameRestore] and
    [GameDestroy] ask for one operation on a retained world; an
    [ArcadeOperation] is the receipt of a request admitted through the API.
    Controllers reconcile these resources against the API server.  What may
    not go wrong is the world: it must not be written by two programs, copied
    while it changes, served from the wrong claims, or deleted by accident.
    This library models the code that decides those things and proves what it
    decides.

    ** How the parts interact

    The planner turns a server and its certified game adapter into data claims
    and runtime objects.  The server controller converges them.  A data
    operation takes the world away from it with a Lease named after the
    world's identity (the fence): the server controller reads the fence before
    it writes a claim or starts anything, and lets a fenced server run only
    when the Lease says so for exactly its generation.  The data controllers
    check every status they write with the data-operation contract, build a
    worker with a narrow authority, let it run only as built, and record what
    it attests.  Names of Leases, Jobs, artifacts and receipts are SHA-256
    digests of the identity they stand for.

    ** Files and sources

    Foundations.
    - [Prelude]: Go errors ([result]), machine integers ([int32], [int64]),
      boolean notations, the tactics [ok_inv] and [bool_prop], shared lemmas.
    - [Regex], [GoStrings], [Sha256], [GoJson], [GoNet], [GoNetip]: the parts
      of Go's standard library the sources call, executable.
    - [K8s]: the name validation of apimachinery, as a class with its laws and
      an instance.
    - [KubeApi]: controllers as programs.  [prog] is a finite tree of API
      requests; [steps p es a] says that [p] may return [a] after the requests
      and answers [es], whatever the server answers; [run] evaluates a program
      against a concrete environment.
    - [TraceLogic]: proof rules for the writes of a program ([writes_ok]), and
      the class [Grows] of evidence that more events cannot take away.

    Data.
    - [ApiTypes]: [api/v1alpha1/{gameserver,operation,destroy,arcadeoperation}_types.go],
      one record per struct with the source's field names.
    - [KubeObjects]: the Kubernetes objects the sources read and write.

    Components.
    - [DataOperation], [DataStatus]: [internal/platform/data/operation.go], the
      phase machine and the status contracts.
    - [CanonicalJson]: [internal/canonicaljson/json.go].
    - [Receipts], [Operations], [OperationDigest]: [internal/receiptid],
      [internal/operations/contract.go].
    - [GameDefinition]: [internal/platform/game], [internal/catalog].
    - [KubePlan]: [internal/platform/kube/plan.go].
    - [WorkerInput]: [restoreworker.ValidateInput] of [internal/restoreworker/worker.go]
      and [ValidateBackupWorkerInput] of [internal/platform/data/backup_manifest.go].
    - [KubeDestroy], [KubeBackup], [KubeRestore]:
      [internal/platform/kube/{destroy,backup,restore}.go].
    - [OperationFence]: the Lease predicates of [internal/platform/kube/{backup,restore}.go]
      and the receipts of [internal/controller/arcadeoperation_{controller,server}.go].
    - [WorkerPods]: [data_selection.go], [worker_pod_annotations.go] and the
      helpers of [gamebackup_controller.go] the data controllers share
      (this and what follows: [internal/controller]).
    - [ServerStatus], [RuntimeDrain], [ServerController]: [status.go],
      [gameserver_runtime_drain.go], [gameserver_controller.go] and
      [clearColdBackupMarkers] of [cold_backup_marker.go].
    - [DestroyController]: [gamedestroy_controller.go].
    - [OperationStatus] (failures, the error type and the receipt's status),
      [OperationPlanning] (what a receipt freezes), [OperationServer] (the
      receipt's Lease, journaled steps and creations), [OperationData] (native
      backups, restores and destroys, and their mirrors) and
      [OperationController] (the pass):
      [arcadeoperation_{controller,server,data}.go].
    - [SourceClaims], [BackupController]: [gamebackup_controller.go] and
      [markLeaveStoppedBackup] of [cold_backup_marker.go]; [SourceClaims] has
      the mount and attachment check that the restore controller shares.
    - [RestoreStatus] (the status, its setters and writes), [RestoreSource] (the
      two resolutions of the target), [RestoreCandidates] (the new claims),
      [RestoreWorker] (input, authority, Job, Pod and report) and
      [RestoreController] (Leases, settlement, the phases and the pass):
      [gamerestore_controller.go]; [RestoreVolumes]: [restore_volume.go].

    Theorems about executions.
    - [ServerSafety], [DestroySafety], [BackupSafety]: for each controller an
      abstract machine of one pass and the safety properties it implies.
      [ServerSpec]: what the server controller's checks mean in terms of the
      fields of the objects observed.
    - The same for the restore controller, in steps: [RestoreMachine] (the
      machine, over the evidence a pass has read), [RestoreEvidence] (what each
      check has read when it passes), [RestoreParts], [RestorePhases],
      [RestoreActivation] (every write of every part is one of the machine's),
      [RestoreSafety] (the properties) and [RestoreHistory] (any number of
      passes, and a rollback that cannot finish).
    - [DestroySchema]: the rules of the destroy resource on its status and
      updates, and histories.
    - For receipts: [OperationMachine] (the machine), [OperationParts] (every
      write of every part is one of the machine's), [OperationSafety] (the
      properties of a pass) and [OperationHistory] (any number of passes: the
      journal, and the rules of the resource on its status).
    - [ServerSamples], [BackupSamples], [RestoreSamples]: concrete clusters, evaluated, at which
      those theorems are instantiated.

    A definition carries the name of the Go function it translates; the parts
    of a long function have names of their own and are composed as the
    function composes them.  Every API call, clock reading and random draw is
    a [request], in the source's order; every early return is one here.

    ** What the theorems show

    - Refinement.  [Reconcile_refines] (destroy), [Server_Reconcile_refines],
      [Backup_Reconcile_refines], [Restore_Reconcile_refines] and
      [operation_pass_refines] (receipts): every write of every pass is one the
      abstract machine allows for what was read earlier in that pass.
      [ValidateTransition_refines], [ValidateRequest_exact]: the phase machine
      and request admission, against independent specifications.
    - The server controller never deletes a claim, writes only unfenced
      worlds, clears the cold markers before it starts, keeps one writer, and
      reports Ready, Stopped and endpoints only when they are.
    - A destroy deletes only the exact claims it previewed, cold and fenced,
      each journaled before it is deleted, and in every history its statuses
      satisfy the resource's cross-field rules and the rules on their fields.
    - A backup changes nothing of the world it saves, fences only a cold world,
      lets only the worker it built run, records only what that worker
      attested, moves the server's intent by exactly one generation each way
      under a Lease the server controller accepts, and succeeds only when
      all of that is so.
    - A restore never changes the world it replaces: it creates claims of its
      own over a cold fenced server, lets only the worker it built write on
      them, and selects them only once that worker's report was accepted and
      both worlds were found exact on distinct volumes.  It moves the server as
      its journal says, under Leases the server controller accepts.  A restore
      recorded as successful serves what was verified, and one recorded as
      failed or cancelled left the previous world; in every history the
      recorded verification belongs to the recorded worlds.  Two defects are
      proved: the reasons of a held restore never reach its status, and the
      rollback of a server that no restore served before cannot finish.
    - A receipt patches a server only as journaled, from the generation and
      to the specification the journal names; deletes one only to end its own
      decommission; creates only objects marked as its own; confirms only the
      preview its command names, with that preview's challenge; cleans up only
      after itself once it ended; and never touches a claim, a volume or a
      Secret.  In every history its journal is a prefix of its action's steps
      over the frozen plan.
    - A status accepted by the data-operation contract carries the evidence
      its phase claims; plans keep claims exact and expose only player ports;
      a validated adapter cannot shadow its mounts; a worker input cannot
      alias a candidate with the previous world; canonical numbers agree
      exactly when their values do.

    The theorems quantify over all answers of the API server, so they hold
    under concurrent clients, stale reads and failing calls.  They bound what
    a pass may write in terms of what it read; they do not claim that what was
    read is still true when the write arrives.  Where the sources guard
    against that (UID and revision preconditions, generations), the theorems
    mention the precondition.

    ** Termination, fuel and bounds

    A [prog] is a finite tree, so a pass terminates by construction: the
    sources loop only over lists.  Two decoders of JSON use fuel, twice the
    length of the input and one more: a step that calls itself consumes a byte,
    and [canonicalBounded_terminates] shows that the canonical decoder never
    runs out ([decodeAny] of [GameDefinition] follows the same recursion).
    Integers are [Z] with [int32] and [int64] where Go wraps.

    ** Parameters

    Code outside the repository is an argument: [RegexpEngine] (compiling an
    adapter's own version pattern), [NameValidation], [JsonSchema],
    [TimeText] and [QuantityText] (the text of a [metav1.Time] and of a
    [resource.Quantity]), [StatusConditions] and [FindConditions] (apimachinery's
    condition helpers), [ResultDecoder] and [BackupDecoders] (strict decoding of
    a worker's termination message).  Where a theorem needs a law of such a
    parameter it is a hypothesis, and its witness has a concrete instance.

    ** Not modelled

    - Processes and networks: the workers around restic, the authorizers, the
      image resolver, the HTTP API and its authentication, the command line
      client, executables.  What the controllers ask of them and accept from
      them is modelled.
    - The installer ([internal/install*]), which manages the platform and no
      game world.
    - The CEL rules of resources other than GameDestroy and ArcadeOperation,
      generated deep copies (the identity on values), manifests and scripts. *)

From stdpp Require Import base tactics list strings gmap numbers.

(** ** Go errors and fallible functions

    A Go [error] built by [errors.New] or [fmt.Errorf] is its format string
    together with the values substituted into it.  [ErrorsNew m] is an error
    without arguments. *)

Record error := Errorf { err_format : string; err_args : list string }.
Definition ErrorsNew (m : string) : error := Errorf m [].

#[export] Instance error_eq_dec : EqDecision error.
Proof. solve_decision. Defined.

(** The result of a Go function returning [(A, error)] or, at [unit], just
    [error]. *)
Inductive result (A : Type) : Type :=
| Ok (a : A)
| Err (e : error).
Arguments Ok {A} _.
Arguments Err {A} _.

#[export] Instance result_eq_dec `{EqDecision A} : EqDecision (result A).
Proof. solve_decision. Defined.

#[export] Instance result_ret : MRet result := @Ok.
#[export] Instance result_bind : MBind result := fun A B f r =>
  match r with Ok a => f a | Err e => Err e end.
#[export] Instance result_fmap : FMap result := fun A B f r =>
  match r with Ok a => Ok (f a) | Err e => Err e end.

(** [fail m] is [return errors.New(m)]. *)
Definition fail {A} (m : string) : result A := Err (ErrorsNew m).
Definition failf {A} (m : string) (args : list string) : result A := Err (Errorf m args).

(** [if err := f(); err != nil { return errors.New(m) }]: the cause is dropped. *)
Definition or_fail {A} (r : result A) (m : string) : result A :=
  match r with Ok a => Ok a | Err _ => fail m end.

Definition is_ok {A} (r : result A) : bool :=
  match r with Ok _ => true | Err _ => false end.

(** [for _, x := range l { ... }] whose body may return early with an error. *)
Fixpoint for_each {A} (body : A -> result unit) (l : list A) : result unit :=
  match l with
  | [] => Ok tt
  | x :: rest => match body x with Ok _ => for_each body rest | Err e => Err e end
  end.

(** The same loop when the body also updates local variables. *)
Fixpoint for_state {A S} (body : S -> A -> result S) (s : S) (l : list A) : result S :=
  match l with
  | [] => Ok s
  | x :: rest => match body s x with Ok s' => for_state body s' rest | Err e => Err e end
  end.

Declare Scope go_scope.
Delimit Scope go_scope with go.
Open Scope go_scope.

(** Go's [==] and [!=] on comparable values. *)
Notation "a == b" := (bool_decide (a = b)) (at level 70, no associativity) : go_scope.
Notation "a != b" := (negb (bool_decide (a = b))) (at level 70, no associativity) : go_scope.

(** ** Machine integers: Go's conversions wrap to the signed range. *)

Definition wrap_signed (bits x : Z) : Z :=
  ((x + 2 ^ (bits - 1)) `mod` 2 ^ bits - 2 ^ (bits - 1))%Z.
Definition int32 (x : Z) : Z := wrap_signed 32 x.
Definition int64 (x : Z) : Z := wrap_signed 64 x.
Definition min_int64 : Z := (- 2 ^ 63)%Z.
Definition max_int64 : Z := (2 ^ 63 - 1)%Z.
Definition in_int32 (x : Z) : Prop := (- 2 ^ 31 <= x < 2 ^ 31)%Z.
Definition in_int64 (x : Z) : Prop := (- 2 ^ 63 <= x < 2 ^ 63)%Z.

(** [len(l)] as the Go [int] (64-bit) it is. *)
Definition len {A} (l : list A) : Z := Z.of_nat (length l).

Lemma wrap_signed_small bits x :
  (0 < bits)%Z -> (- 2 ^ (bits - 1) <= x < 2 ^ (bits - 1))%Z -> wrap_signed bits x = x.
Proof.
  intros Hb Hx. unfold wrap_signed.
  assert (2 ^ bits = 2 * 2 ^ (bits - 1))%Z as Hp.
  { rewrite <- Z.pow_succ_r by lia. f_equal. lia. }
  rewrite Z.mod_small; lia.
Qed.

Lemma int32_small x : in_int32 x -> int32 x = x.
Proof. intros. apply wrap_signed_small; [lia | exact H]. Qed.

Lemma int64_small x : in_int64 x -> int64 x = x.
Proof. intros. apply wrap_signed_small; [lia | exact H]. Qed.

Lemma wrap_signed_range bits x :
  (0 < bits)%Z -> (- 2 ^ (bits - 1) <= wrap_signed bits x < 2 ^ (bits - 1))%Z.
Proof.
  intros Hb. unfold wrap_signed.
  assert (2 ^ bits = 2 * 2 ^ (bits - 1))%Z as Hp.
  { rewrite <- Z.pow_succ_r by lia. f_equal. lia. }
  pose proof (Z.mod_pos_bound (x + 2 ^ (bits - 1)) (2 ^ bits)). lia.
Qed.

Lemma int64_range x : in_int64 (int64 x).
Proof. apply (wrap_signed_range 64). lia. Qed.

(** ** Results: inversion lemmas *)

Lemma bind_ok {A B} (r : result A) (f : A -> result B) b :
  (r ≫= f) = Ok b <-> exists a, r = Ok a /\ f a = Ok b.
Proof. destruct r as [x|e]; cbn; [|naive_solver]. split; [eauto | intros (?&[=->]&?); done]. Qed.

Lemma or_fail_ok {A} (r : result A) m a : or_fail r m = Ok a <-> r = Ok a.
Proof. destruct r; cbn; naive_solver. Qed.

Lemma is_ok_true {A} (r : result A) : is_ok r = true <-> exists a, r = Ok a.
Proof. destruct r; cbn; naive_solver. Qed.

Lemma is_ok_unit (r : result unit) : is_ok r = true <-> r = Ok tt.
Proof. destruct r as [[]|]; cbn; naive_solver. Qed.

Lemma for_each_ok {A} (body : A -> result unit) l :
  for_each body l = Ok tt <-> forall x, x ∈ l -> body x = Ok tt.
Proof.
  induction l as [|x l IH]; cbn.
  - split; [intros _ x Hx; inversion Hx | done].
  - destruct (body x) as [[]|e] eqn:E.
    + rewrite IH. setoid_rewrite elem_of_cons. naive_solver.
    + split; [done|]. intros H. rewrite (H x) in E; [done | by left].
Qed.

Lemma for_each_err {A} (body : A -> result unit) l e :
  for_each body l = Err e -> exists x, x ∈ l /\ body x = Err e.
Proof.
  induction l as [|x l IH]; cbn; [done|].
  destruct (body x) as [[]|e'] eqn:E; intros H.
  - destruct (IH H) as (y & ? & ?). exists y. split; [by right | done].
  - injection H as ->. exists x. split; [by left | done].
Qed.

(** ** Automation

    [ok_inv] opens a hypothesis saying that guarded, sequenced Go code
    returned without an error; [bool_prop] turns the boolean guards it
    exposes into propositions. *)

Lemma negb_bool_decide_true (P : Prop) `{Decision P} : negb (bool_decide P) = true <-> ~ P.
Proof. rewrite negb_true_iff, bool_decide_eq_false. done. Qed.
Lemma negb_bool_decide_false (P : Prop) `{Decision P} : negb (bool_decide P) = false <-> P.
Proof. rewrite negb_false_iff, bool_decide_eq_true. done. Qed.

Create Rewrite HintDb go_bool.
#[export] Hint Rewrite orb_false_iff orb_true_iff andb_true_iff andb_false_iff
  @negb_bool_decide_true @negb_bool_decide_false negb_true_iff negb_false_iff
  @bool_decide_eq_true @bool_decide_eq_false
  Z.ltb_lt Z.ltb_ge Z.leb_le Z.leb_gt Z.eqb_eq Z.eqb_neq : go_bool.

Ltac bool_prop := autorewrite with go_bool in *; destruct_and?; simplify_eq.

(** Comparisons between constants are decided by evaluation. *)
Ltac eval_bools :=
  repeat match goal with
  | H : context [@bool_decide ?P ?D] |- _ =>
      let v := eval vm_compute in (@bool_decide P D) in
      match v with true => idtac | false => idtac end;
      change (@bool_decide P D) with v in H
  | |- context [@bool_decide ?P ?D] =>
      let v := eval vm_compute in (@bool_decide P D) in
      match v with true => idtac | false => idtac end;
      change (@bool_decide P D) with v
  end; cbn [negb andb orb] in *.

Ltac ok_inv_step :=
  match goal with
  | H : Err _ = Ok _ |- _ => discriminate H
  | H : fail _ = Ok _ |- _ => discriminate H
  | H : failf _ _ = Ok _ |- _ => discriminate H
  | H : Ok _ = Err _ |- _ => discriminate H
  | H : Ok _ = Ok _ |- _ => injection H as H
  | H : (_ ≫= _) = Ok _ |- _ =>
      let x := fresh "x" in let E := fresh "Hrun" in
      apply bind_ok in H; destruct H as (x & E & H)
  | H : or_fail _ _ = Ok _ |- _ => apply or_fail_ok in H
  | H : (if ?b then _ else _) = Ok _ |- _ => let E := fresh "Hguard" in destruct b eqn:E
  | H : match ?r with Ok _ => _ | Err _ => _ end = Ok _ |- _ =>
      let E := fresh "Hrun" in destruct r eqn:E
  | H : match ?o with Some _ => _ | None => _ end = Ok _ |- _ =>
      let E := fresh "Hopt" in destruct o eqn:E
  end.
Ltac ok_inv := repeat (ok_inv_step; try discriminate).

(** A check of an optional value. *)
Definition optionally {A} (f : A -> bool) (x : option A) : bool := match x with Some a => f a | None => true end.

(** ** Lists shared by the components *)

Lemma NoDup_fmap_length_eq {A B} (f : A -> B) (l k : list A) :
  NoDup (f <$> l) -> length l = length k -> (forall x, x ∈ l -> f x ∈ f <$> k) ->
  Permutation (f <$> l) (f <$> k).
Proof.
  intros Hnd Hlen Hsub.
  apply submseteq_length_Permutation.
  - apply NoDup_submseteq; [done|]. intros y. rewrite !list_elem_of_fmap.
    intros (x & -> & Hx). by apply list_elem_of_fmap, Hsub.
  - by rewrite !length_fmap, Hlen.
Qed.

Definition string_ltb (a b : string) : bool :=
  match String.compare a b with Lt => true | _ => false end.

(** A Go string is a sequence of bytes; [chars] and [unchars] convert between
    the two views of it. *)
Abbreviation chars := String.list_ascii_of_string.
Abbreviation unchars := String.string_of_list_ascii.

Lemma chars_unchars l : chars (unchars l) = l.
Proof. apply String.list_ascii_of_string_of_list_ascii. Qed.
Lemma unchars_chars s : unchars (chars s) = s.
Proof. apply String.string_of_list_ascii_of_string. Qed.
Lemma chars_app s t : chars (s +:+ t) = chars s ++ chars t.
Proof. induction s as [|c s IH]; [done|]. change (c :: chars (s +:+ t) = c :: chars s ++ chars t). by f_equal. Qed.
Lemma unchars_app l k : unchars (l ++ k) = unchars l +:+ unchars k.
Proof. induction l as [|c l IH]; [done|]. change (String c (unchars (l ++ k)) = String c (unchars l +:+ unchars k)). by f_equal. Qed.
Lemma chars_inj s t : chars s = chars t -> s = t.
Proof. intros H. by rewrite <- (unchars_chars s), H, unchars_chars. Qed.
Lemma length_chars s : length (chars s) = String.length s.
Proof. induction s; cbn; auto. Qed.

(** [len(s)] of a string counts its bytes. *)
Definition slen (s : string) : Z := Z.of_nat (String.length s).
