(* ===== verification/Regex.v ===== *)
(** * Go regular expressions (the subset the sources use)

    The packages under [internal/] validate identifiers with anchored
    [regexp.MustCompile] patterns over ASCII character classes.  A pattern is
    a value of [regex]; [MatchString] decides a match of the whole text by
    Brzozowski derivatives, and [MatchString_lang] shows that it decides
    membership in the denoted language.  The patterns themselves are defined
    next to the code that uses them. *)

From Stdlib Require Import Ascii.
From stdpp Require Import base tactics list strings numbers.
From S2P Require Import Prelude.
(** ** Syntax and language *)

Inductive regex :=
| Empty                                   (* matches nothing *)
| Eps                                     (* the empty text *)
| Cls (c : ascii -> bool)                 (* one character of a class *)
| Cat (r1 r2 : regex)
| Alt (r1 r2 : regex)
| Star (r : regex).

Inductive lang : regex -> list ascii -> Prop :=
| lang_eps : lang Eps []
| lang_cls (f : ascii -> bool) c : f c = true -> lang (Cls f) [c]
| lang_cat r1 r2 s1 s2 : lang r1 s1 -> lang r2 s2 -> lang (Cat r1 r2) (s1 ++ s2)
| lang_alt_l r1 r2 s : lang r1 s -> lang (Alt r1 r2) s
| lang_alt_r r1 r2 s : lang r2 s -> lang (Alt r1 r2) s
| lang_star_nil r : lang (Star r) []
| lang_star_cons r c s1 s2 :
    lang r (c :: s1) -> lang (Star r) s2 -> lang (Star r) (c :: s1 ++ s2).

(** ** Derived forms: [r?], [r+], [r{n}], [r{0,n}], literals *)

Definition Opt (r : regex) : regex := Alt Eps r.
Definition Plus (r : regex) : regex := Cat r (Star r).
Fixpoint Times (n : nat) (r : regex) : regex :=
  match n with 0 => Eps | S n' => Cat r (Times n' r) end.
Fixpoint UpTo (n : nat) (r : regex) : regex :=
  match n with 0 => Eps | S n' => Opt (Cat r (UpTo n' r)) end.
Definition Lit1 (c : ascii) : regex := Cls (fun d => Ascii.eqb c d).
Fixpoint Lit (s : string) : regex :=
  match s with EmptyString => Eps | String c s' => Cat (Lit1 c) (Lit s') end.

(** ** Matching *)

Fixpoint nullable (r : regex) : bool :=
  match r with
  | Empty | Cls _ => false
  | Eps | Star _ => true
  | Cat r1 r2 => nullable r1 && nullable r2
  | Alt r1 r2 => nullable r1 || nullable r2
  end.

Definition cat' (r1 r2 : regex) : regex :=
  match r1 with Empty => Empty | Eps => r2 | _ => Cat r1 r2 end.
Definition alt' (r1 r2 : regex) : regex :=
  match r1, r2 with Empty, _ => r2 | _, Empty => r1 | _, _ => Alt r1 r2 end.

Fixpoint deriv (c : ascii) (r : regex) : regex :=
  match r with
  | Empty | Eps => Empty
  | Cls f => if f c then Eps else Empty
  | Cat r1 r2 =>
      if nullable r1 then alt' (cat' (deriv c r1) r2) (deriv c r2)
      else cat' (deriv c r1) r2
  | Alt r1 r2 => alt' (deriv c r1) (deriv c r2)
  | Star r' => cat' (deriv c r') (Star r')
  end.

Fixpoint re_match (r : regex) (s : list ascii) : bool :=
  match s with [] => nullable r | c :: s' => re_match (deriv c r) s' end.

Definition MatchString (r : regex) (s : string) : bool :=
  re_match r (chars s).

(** ** Correctness *)

#[local] Hint Constructors lang : core.

Lemma lang_cat_inv r1 r2 s :
  lang (Cat r1 r2) s -> exists s1 s2, s = s1 ++ s2 /\ lang r1 s1 /\ lang r2 s2.
Proof. inversion 1; subst; eauto 6. Qed.

Lemma lang_alt_inv r1 r2 s : lang (Alt r1 r2) s <-> lang r1 s \/ lang r2 s.
Proof. split; [inversion 1; auto | intros [?|?]; auto]. Qed.

Lemma nullable_lang r : nullable r = true <-> lang r [].
Proof.
  induction r; cbn; split; intros H; try done; try (inversion H; fail); auto.
  - apply andb_true_iff in H as [??]. apply (lang_cat _ _ [] []); naive_solver.
  - apply lang_cat_inv in H as (s1 & s2 & E & ? & ?).
    symmetry in E. apply app_eq_nil in E as [-> ->]. apply andb_true_iff; naive_solver.
  - apply orb_true_iff in H as [?|?]; [apply lang_alt_l | apply lang_alt_r]; naive_solver.
  - apply lang_alt_inv in H. apply orb_true_iff. naive_solver.
Qed.

Lemma cat'_lang r1 r2 s : lang (cat' r1 r2) s <-> lang (Cat r1 r2) s.
Proof.
  destruct r1; cbn; try done; split; intros H.
  - inversion H.
  - apply lang_cat_inv in H as (?&?&_&H&_). inversion H.
  - by apply (lang_cat _ _ [] s).
  - apply lang_cat_inv in H as (?&?&->&H&?). by inversion H.
Qed.

Lemma alt'_lang r1 r2 s : lang (alt' r1 r2) s <-> lang (Alt r1 r2) s.
Proof.
  assert (~ lang Empty s) as HE by (inversion 1).
  destruct r1, r2; cbn; rewrite ?lang_alt_inv; tauto.
Qed.

Lemma deriv_lang c r s : lang (deriv c r) s <-> lang r (c :: s).
Proof.
  revert s. induction r as [| |f|r1 IH1 r2 IH2|r1 IH1 r2 IH2|r IH]; intros s; cbn.
  - split; inversion 1.
  - split; inversion 1.
  - destruct (f c) eqn:E; split; inversion 1; subst; auto. congruence.
  - assert (lang (cat' (deriv c r1) r2) s <->
            exists s1 s2, s = s1 ++ s2 /\ lang r1 (c :: s1) /\ lang r2 s2) as Hc.
    { rewrite cat'_lang. split.
      - intros (s1&s2&->&?&?)%lang_cat_inv. exists s1, s2. by rewrite <- IH1.
      - intros (s1&s2&->&?&?). apply lang_cat; [by apply IH1 | done]. }
    assert (lang (Cat r1 r2) (c :: s) <->
            (exists s1 s2, s = s1 ++ s2 /\ lang r1 (c :: s1) /\ lang r2 s2) \/
            (nullable r1 = true /\ lang r2 (c :: s))) as Hd.
    { split.
      - intros (s1&s2&E&?&?)%lang_cat_inv. destruct s1 as [|d s1]; cbn in E.
        + right. split; [by apply nullable_lang | congruence].
        + left. injection E as -> ->. eauto 6.
      - intros [(s1&s2&->&?&?)|[Hn ?]].
        + by apply (lang_cat _ _ (c :: s1) s2).
        + apply (lang_cat _ _ [] (c :: s)); [by apply nullable_lang | done]. }
    rewrite Hd. destruct (nullable r1) eqn:E.
    + rewrite alt'_lang, lang_alt_inv, Hc, IH2. naive_solver.
    + rewrite Hc. naive_solver.
  - rewrite alt'_lang, !lang_alt_inv, IH1, IH2. done.
  - rewrite cat'_lang. split.
    + intros (s1&s2&->&?&?)%lang_cat_inv. apply lang_star_cons; [by apply IH | done].
    + intros H. inversion H; subst. apply lang_cat; [by apply IH | done].
Qed.

Lemma re_match_lang r s : re_match r s = true <-> lang r s.
Proof.
  revert r. induction s as [|c s IH]; intros r; cbn.
  - apply nullable_lang.
  - rewrite IH. apply deriv_lang.
Qed.

Lemma MatchString_lang r s : MatchString r s = true <-> lang r (chars s).
Proof. apply re_match_lang. Qed.

(** ** What a match says about the characters and the length of the text *)

(** Every character class of [r] is included in [P]. *)
Fixpoint re_chars (P : ascii -> Prop) (r : regex) : Prop :=
  match r with
  | Empty | Eps => True
  | Cls f => forall c, f c = true -> P c
  | Cat r1 r2 | Alt r1 r2 => re_chars P r1 /\ re_chars P r2
  | Star r' => re_chars P r'
  end.

Lemma lang_chars P r s : re_chars P r -> lang r s -> Forall P s.
Proof.
  intros HP H. induction H; cbn in HP; rewrite ?Forall_app in *; auto; try naive_solver.
  rewrite app_comm_cons, Forall_app. split; [apply IHlang1 | apply IHlang2]; auto.
Qed.

Lemma MatchString_chars P r s :
  re_chars P r -> MatchString r s = true -> Forall P (chars s).
Proof. intros ? ?%MatchString_lang. by eapply lang_chars. Qed.

Lemma re_chars_times P n r : re_chars P r -> re_chars P (Times n r).
Proof. induction n; cbn; auto. Qed.

Lemma re_chars_upto P n r : re_chars P r -> re_chars P (UpTo n r).
Proof. induction n; cbn; auto. Qed.

Lemma lang_class_times f n s :
  lang (Times n (Cls f)) s <-> length s = n /\ Forall (fun c => f c = true) s.
Proof.
  revert s. induction n as [|n IH]; intros s; cbn.
  - split; [inversion 1; auto | intros [E _]; destruct s; [auto | done]].
  - split.
    + intros (s1&s2&->&H1&H2)%lang_cat_inv. inversion H1; subst.
      apply IH in H2 as [<- ?]. split; [done | by constructor].
    + intros [E HF]. destruct s as [|c s]; [done|]. inversion HF; subst.
      apply (lang_cat _ _ [c] s); [auto | apply IH; auto].
Qed.

Lemma lang_class_upto f n s :
  lang (UpTo n (Cls f)) s <-> length s <= n /\ Forall (fun c => f c = true) s.
Proof.
  revert s. induction n as [|n IH]; intros s; cbn.
  - split; [inversion 1; auto | intros [E _]; destruct s; [auto | cbn in E; lia]].
  - unfold Opt. rewrite lang_alt_inv. split.
    + intros [H|(s1&s2&->&H1&H2)%lang_cat_inv].
      * inversion H; subst. cbn. split; [lia | constructor].
      * inversion H1; subst. apply IH in H2 as [? ?]. cbn. split; [lia | by constructor].
    + intros [E HF]. destruct s as [|c s]; [auto|]. right. inversion HF; subst. cbn in E.
      apply (lang_cat _ _ [c] s); [auto | apply IH; split; [lia | done]].
Qed.

Lemma lang_class_star f s : lang (Star (Cls f)) s <-> Forall (fun c => f c = true) s.
Proof.
  split.
  - intros H. apply (lang_chars _ (Star (Cls f))); [cbn; auto | done].
  - induction 1 as [|c s Hc _ IH]; [auto|].
    apply (lang_star_cons (Cls f) c [] s); auto.
Qed.

Lemma lang_class_range f m n s :
  lang (Cat (Times m (Cls f)) (UpTo n (Cls f))) s <->
  m <= length s <= m + n /\ Forall (fun c => f c = true) s.
Proof.
  split.
  - intros (s1&s2&->&H1&H2)%lang_cat_inv.
    apply lang_class_times in H1 as [<- ?]. apply lang_class_upto in H2 as [? ?].
    rewrite length_app, Forall_app. split; [lia | done].
  - intros [Hl HF]. rewrite <- (take_drop m s) in HF |- *. rewrite Forall_app in HF.
    destruct HF. apply lang_cat.
    + apply lang_class_times. split; [rewrite length_take; lia | done].
    + apply lang_class_upto. split; [rewrite length_drop; lia | done].
Qed.

Lemma lang_lit1 c s : lang (Lit1 c) s <-> s = [c].
Proof.
  split; [inversion 1; subst | intros ->; constructor; apply Ascii.eqb_refl].
  apply Ascii.eqb_eq in H1. by subst.
Qed.

Lemma lang_lit w s : lang (Lit w) s <-> s = chars w.
Proof.
  revert s. induction w as [|c w IH]; intros s; cbn.
  - split; [by inversion 1 | intros ->; auto].
  - split.
    + intros (s1&s2&->&H1%lang_lit1&H2%IH)%lang_cat_inv. by subst.
    + intros ->. apply (lang_cat _ _ [c]); [by apply lang_lit1 | by apply IH].
Qed.
