(* ===== verification/GoStrings.v ===== *)
(** * Go's [strings], [strconv], [path] and [bytes] functions

    The functions of the Go standard library the sources call on strings,
    over byte sequences.  Their names are Go's. *)

From Stdlib Require Import Ascii DecimalString Sorted.
From Stdlib Require DecimalZ DecimalPos OrderedTypeEx.
From stdpp Require Import base tactics list strings numbers.
From S2P Require Import Prelude.
Open Scope string_scope.
Open Scope list_scope.

(** ** Prefixes, suffixes, cutting and splitting *)

Fixpoint strip_prefix (p s : list ascii) : option (list ascii) :=
  match p, s with
  | [], _ => Some s
  | c :: p', d :: s' => if Ascii.eqb c d then strip_prefix p' s' else None
  | _ :: _, [] => None
  end.

Definition HasPrefix (s p : string) : bool :=
  match strip_prefix (chars p) (chars s) with Some _ => true | None => false end.
Definition TrimPrefix (s p : string) : string :=
  match strip_prefix (chars p) (chars s) with Some r => unchars r | None => s end.
Definition HasSuffix (s p : string) : bool :=
  match strip_prefix (rev (chars p)) (rev (chars s)) with Some _ => true | None => false end.
Definition TrimSuffix (s p : string) : string :=
  match strip_prefix (rev (chars p)) (rev (chars s)) with
  | Some r => unchars (rev r) | None => s end.

(** The text before and after the first occurrence of [sep]. *)
Fixpoint cut_at (sep s : list ascii) : option (list ascii * list ascii) :=
  match strip_prefix sep s with
  | Some rest => Some ([], rest)
  | None =>
      match s with
      | [] => None
      | c :: s' => match cut_at sep s' with Some (b, a) => Some (c :: b, a) | None => None end
      end
  end.

(** [strings.Cut]: [(before, after, found)]. *)
Definition Cut (s sep : string) : string * string * bool :=
  match cut_at (chars sep) (chars s) with
  | Some (b, a) => (unchars b, unchars a, true)
  | None => (s, "", false)
  end.
Definition Contains (s sub : string) : bool :=
  match cut_at (chars sub) (chars s) with Some _ => true | None => false end.
Definition ContainsAny (s set : string) : bool :=
  existsb (fun c => existsb (Ascii.eqb c) (chars set)) (chars s).

(** [strings.Split] at a one-byte separator, and [strings.Join]. *)
Fixpoint split_chars (sep : ascii) (s : list ascii) : list (list ascii) :=
  match s with
  | [] => [[]]
  | c :: s' =>
      if Ascii.eqb c sep then [] :: split_chars sep s'
      else match split_chars sep s' with
           | h :: t => (c :: h) :: t
           | [] => [[c]]
           end
  end.
Definition Split (s : string) (sep : ascii) : list string :=
  unchars <$> split_chars sep (chars s).

Fixpoint join_chars (sep : list ascii) (l : list (list ascii)) : list ascii :=
  match l with
  | [] => []
  | [x] => x
  | x :: rest => x ++ sep ++ join_chars sep rest
  end.
Definition Join (l : list string) (sep : string) : string :=
  unchars (join_chars (chars sep) (chars <$> l)).

(** ** Trimming *)

Fixpoint trim_left (cut : ascii -> bool) (s : list ascii) : list ascii :=
  match s with c :: s' => if cut c then trim_left cut s' else s | [] => [] end.
Definition TrimLeft (s : string) (c : ascii) : string :=
  unchars (trim_left (Ascii.eqb c) (chars s)).
Definition TrimRight (s : string) (c : ascii) : string :=
  unchars (rev (trim_left (Ascii.eqb c) (rev (chars s)))).

Definition byte (n : nat) : ascii := ascii_of_nat n.
Definition bytes (l : list nat) : list ascii := byte <$> l.

(** The UTF-8 encodings of the code points [unicode.IsSpace] accepts. *)
Definition space_encodings : list (list ascii) :=
  [bytes [9]; bytes [10]; bytes [11]; bytes [12]; bytes [13]; bytes [32];
   bytes [194; 133]; bytes [194; 160]; bytes [225; 154; 128]]
  ++ ((fun n => bytes [226; 128; n]) <$> [128; 129; 130; 131; 132; 133; 134; 135; 136; 137;
                                           138; 168; 169; 175])
  ++ [bytes [226; 129; 159]; bytes [227; 128; 128]].

Fixpoint strip_one (ws : list (list ascii)) (s : list ascii) : option (list ascii) :=
  match ws with
  | [] => None
  | w :: ws' => match strip_prefix w s with Some r => Some r | None => strip_one ws' s end
  end.
Fixpoint strip_all (fuel : nat) (ws : list (list ascii)) (s : list ascii) : list ascii :=
  match fuel with
  | 0 => s
  | S f => match strip_one ws s with Some r => strip_all f ws r | None => s end
  end.

(** [strings.TrimSpace]; every stripped encoding is non-empty, so the length
    of the text bounds the number of iterations. *)
Definition TrimSpace (s : string) : string :=
  let l := chars s in
  let left := strip_all (length l) space_encodings l in
  unchars (rev (strip_all (length l) ((fun w => rev w) <$> space_encodings) (rev left))).

(** ** Case and repetition *)

Definition lower_ascii (c : ascii) : ascii :=
  let n := nat_of_ascii c in if ((65 <=? n) && (n <=? 90))%nat then byte (n + 32) else c.
(** [strings.ToLower] on ASCII text. *)
Definition ToLower (s : string) : string := unchars (lower_ascii <$> chars s).
Definition Repeat (c : ascii) (n : Z) : string := unchars (replicate (Z.to_nat n) c).

(** ** [strconv] in base ten *)

Definition FormatInt (z : Z) : string := NilZero.string_of_int (Z.to_int z).

(** The digits after the sign; [strconv] rejects an empty digit sequence. *)
Definition parse_digits (s : string) : option Z :=
  match s with
  | EmptyString => None
  | _ => match NilEmpty.uint_of_string s with Some d => Some (Z.of_uint d) | None => None end
  end.
(** [strconv.ParseInt(s, 10, bits)] ([Atoi] is [bits = 64]): an optional sign,
    then decimal digits in range. *)
Definition ParseInt (bits : Z) (s : string) : option Z :=
  let signed z := if ((- 2 ^ (bits - 1) <=? z) && (z <? 2 ^ (bits - 1)))%Z then Some z else None in
  match s with
  | String "+" r => z ← parse_digits r; signed z
  | String "-" r => z ← parse_digits r; signed (- z)%Z
  | _ => z ← parse_digits s; signed z
  end.
Definition ParseUint (bits : Z) (s : string) : option Z :=
  z ← parse_digits s; if (z <? 2 ^ bits)%Z then Some z else None.

(** ** [path.Clean] *)

(** One path element: [""] and ["."] vanish, [".."] removes the element
    before it, except at the root (dropped) or at the start of a relative
    path (kept). *)
Definition clean_step (rooted : bool) (out : list (list ascii)) (el : list ascii) :
    list (list ascii) :=
  let dotdot := chars ".." in
  if bool_decide (el = []) || bool_decide (el = chars ".") then out
  else if bool_decide (el = dotdot) then
    match out with
    | [] => if rooted then [] else [dotdot]
    | top :: rest => if bool_decide (top = dotdot) then dotdot :: out else rest
    end
  else el :: out.

Definition Clean (p : string) : string :=
  let rooted := HasPrefix p "/" in
  let els := rev (fold_left (clean_step rooted) (split_chars "/" (chars p)) []) in
  let body := join_chars (chars "/") els in
  if rooted then unchars ("/"%char :: body)
  else match body with [] => "." | _ => unchars body end.

(** ** Lemmas *)

Lemma strip_prefix_Some p s r : strip_prefix p s = Some r <-> s = p ++ r.
Proof.
  revert s. induction p as [|c p IH]; intros [|d s]; cbn; try (split; congruence).
  destruct (Ascii.eqb_spec c d) as [->|Hne].
  - rewrite IH. split; congruence.
  - split; congruence.
Qed.

Lemma HasPrefix_spec s p : HasPrefix s p = true <-> exists r, s = p +:+ r.
Proof.
  unfold HasPrefix. split.
  - destruct (strip_prefix _ _) as [r|] eqn:E; [|done]. intros _.
    apply strip_prefix_Some in E. exists (unchars r). apply chars_inj.
    by rewrite chars_app, chars_unchars.
  - intros [r ->]. rewrite chars_app.
    destruct (strip_prefix (chars p) _) eqn:E; [done|].
    by rewrite (proj2 (strip_prefix_Some _ _ (chars r)) eq_refl) in E.
Qed.

Lemma TrimPrefix_app p r : TrimPrefix (p +:+ r) p = r.
Proof.
  unfold TrimPrefix. rewrite chars_app, (proj2 (strip_prefix_Some _ _ (chars r)) eq_refl).
  apply unchars_chars.
Qed.

(** Text without the separator is a single field, and fields joined by the
    separator split back. *)
Lemma split_chars_none sep s : sep ∉ s -> split_chars sep s = [s].
Proof.
  induction s as [|c s IH]; cbn; [done|]. intros Hn.
  rewrite not_elem_of_cons in Hn. destruct Hn as [Hc Hs]. rewrite (IH Hs).
  destruct (Ascii.eqb_spec c sep); [congruence | done].
Qed.

Lemma split_chars_app sep s t :
  sep ∉ s -> split_chars sep (s ++ sep :: t) = s :: split_chars sep t.
Proof.
  induction s as [|c s IH]; cbn; intros Hn.
  - by rewrite Ascii.eqb_refl.
  - rewrite not_elem_of_cons in Hn. destruct Hn as [Hc Hs].
    destruct (Ascii.eqb_spec c sep); [congruence|]. by rewrite (IH Hs).
Qed.

Lemma split_chars_join sep s : join_chars [sep] (split_chars sep s) = s.
Proof.
  induction s as [|c s IH]; cbn; [done|].
  destruct (split_chars sep s) as [|h t] eqn:E.
  - destruct s; cbn in E; [done|]. by destruct (Ascii.eqb _ _), (split_chars _ _).
  - destruct (Ascii.eqb_spec c sep) as [->|Hne]; [cbn; by f_equal|].
    destruct t; cbn in *; by f_equal.
Qed.

Lemma Split_Join s sep : Join (Split s sep) (String sep "") = s.
Proof.
  unfold Join, Split. rewrite <- list_fmap_compose.
  rewrite (list_fmap_ext _ id) by (intros; apply chars_unchars).
  rewrite list_fmap_id. cbn. by rewrite split_chars_join, unchars_chars.
Qed.

Lemma parse_digits_FormatInt z : (0 <= z)%Z -> parse_digits (FormatInt z) = Some z.
Proof.
  intros Hz. destruct z as [|p|p]; [done | | lia].
  unfold FormatInt. cbn [Z.to_int NilZero.string_of_int].
  pose proof (DecimalPos.Unsigned.to_uint_nonnil p) as Hn.
  pose proof (NilEmpty.usu (Pos.to_uint p)) as Hu.
  pose proof (DecimalZ.of_to (Zpos p)) as Hz'. cbn [Z.to_int Z.of_int] in Hz'.
  destruct (Pos.to_uint p) eqn:E; [done | ..];
    cbn [NilZero.string_of_uint]; unfold parse_digits; rewrite <- E in *;
    rewrite Hu, Hz'; rewrite E; done.
Qed.

Lemma ParseInt_digits bits s z :
  parse_digits s = Some z -> (0 <= z < 2 ^ (bits - 1))%Z -> ParseInt bits s = Some z.
Proof.
  intros Hp Hz. unfold ParseInt.
  assert ((- 2 ^ (bits - 1) <=? z)%Z && (z <? 2 ^ (bits - 1))%Z = true) as Hr by lia.
  destruct s as [|c s]; [done|].
  assert (c <> "+"%char /\ c <> "-"%char) as [H1 H2].
  { split; intros ->; cbn in Hp; by destruct (NilEmpty.uint_of_string s). }
  destruct c as [[] [] [] [] [] [] [] []]; try congruence; rewrite Hp; cbn; by rewrite Hr.
Qed.

Lemma ParseInt_range bits s z :
  ParseInt bits s = Some z -> (- 2 ^ (bits - 1) <= z < 2 ^ (bits - 1))%Z.
Proof.
  assert (forall o : option Z, (y ← o; if ((- 2 ^ (bits - 1) <=? y) && (y <? 2 ^ (bits - 1)))%Z
    then Some y else None) = Some z -> (- 2 ^ (bits - 1) <= z < 2 ^ (bits - 1))%Z) as Hs.
  { intros [y|]; cbn; [|done]. destruct (_ && _)%bool eqn:E; [|done]. intros [= <-]. lia. }
  unfold ParseInt. intros H. destruct s as [|c s]; [done|].
  destruct c as [[] [] [] [] [] [] [] []]; try by apply Hs in H.
  all: destruct (parse_digits s) as [y|]; [|done]; by apply (Hs (Some (- y)%Z)) in H.
Qed.

Lemma ParseInt_FormatInt z : (0 <= z < 2 ^ 63)%Z -> ParseInt 64 (FormatInt z) = Some z.
Proof. intros. apply ParseInt_digits; [apply parse_digits_FormatInt; lia | lia]. Qed.

(** Decimal text has no separator of an identifier. *)
Lemma string_of_uint_digits d :
  Forall (fun c => 48 <= nat_of_ascii c <= 57) (chars (NilEmpty.string_of_uint d)).
Proof.
  induction d as [|d IH|d IH|d IH|d IH|d IH|d IH|d IH|d IH|d IH|d IH];
    [by apply Forall_nil | ..];
    (apply Forall_cons; [vm_compute; lia | exact IH]).
Qed.

Lemma FormatInt_digits z :
  (0 <= z)%Z -> Forall (fun c => 48 <= nat_of_ascii c <= 57) (chars (FormatInt z)).
Proof.
  intros Hz. destruct z as [|p|p]; [vm_compute; repeat constructor; lia | | lia].
  unfold FormatInt. cbn [Z.to_int NilZero.string_of_int].
  pose proof (string_of_uint_digits (Pos.to_uint p)) as H.
  pose proof (DecimalPos.Unsigned.to_uint_nonnil p).
  by destruct (Pos.to_uint p).
Qed.

(** Decimal text is no longer than binary text, which bounds it crudely. *)
Lemma nb_digits_double d :
  (Decimal.nb_digits (Decimal.Little.double d) <= S (Decimal.nb_digits d) /\
   Decimal.nb_digits (Decimal.Little.succ_double d) <= S (Decimal.nb_digits d))%nat.
Proof. induction d; cbn; lia. Qed.

Lemma nb_digits_pos p : (Decimal.nb_digits (Pos.to_uint p) <= Pos.size_nat p)%nat.
Proof.
  unfold Pos.to_uint. rewrite DecimalFacts.nb_digits_rev.
  induction p as [p IH|p IH|]; cbn; [| |lia];
    pose proof (nb_digits_double (Pos.to_little_uint p)); lia.
Qed.

Lemma length_string_of_uint d :
  String.length (NilEmpty.string_of_uint d) = Decimal.nb_digits d.
Proof. induction d; cbn; congruence. Qed.

Lemma size_nat_pow2 p n : (Z.pos p < 2 ^ Z.of_nat n)%Z -> (Pos.size_nat p <= n)%nat.
Proof.
  revert n. induction p as [p IH|p IH|]; intros [|n] H; cbn [Pos.size_nat]; try (cbn in H; lia);
    rewrite Nat2Z.inj_succ, Z.pow_succ_r in H by lia;
    first [specialize (IH n); lia | lia].
Qed.

Lemma slen_FormatInt z : (0 <= z < 2 ^ 63)%Z -> (1 <= slen (FormatInt z) <= 63)%Z.
Proof.
  intros Hz. destruct z as [|p|p]; [vm_compute; done | | lia].
  unfold FormatInt, slen. cbn [Z.to_int NilZero.string_of_int].
  pose proof (nb_digits_pos p). pose proof (size_nat_pow2 p 63 (proj2 Hz)).
  pose proof (DecimalPos.Unsigned.to_uint_nonnil p).
  pose proof (length_string_of_uint (Pos.to_uint p)).
  destruct (Pos.to_uint p); [done|..]; cbn [NilZero.string_of_uint] in *; cbn in *; lia.
Qed.

Lemma FormatInt_inj a b : FormatInt a = FormatInt b -> a = b.
Proof.
  intros E. apply (f_equal NilZero.int_of_string) in E. unfold FormatInt in E.
  assert (forall z, NilZero.int_of_string (NilZero.string_of_int (Z.to_int z)) = Some (Z.to_int z)) as H.
  { intros [|p|p]; [done|..]; apply NilZero.isi; try done;
      intros [=Hn]; by apply (DecimalPos.Unsigned.to_uint_nonnil p). }
  rewrite !H in E. injection E as E. by rewrite <- (DecimalZ.of_to a), E, DecimalZ.of_to.
Qed.

(** Cutting at a one-byte separator. *)
Lemma cut_at_app sep l r : sep ∉ l -> cut_at [sep] (l ++ sep :: r) = Some (l, r).
Proof.
  induction l as [|c l IH]; intros H; cbn; [by rewrite Ascii.eqb_refl|].
  rewrite not_elem_of_cons in H. destruct (Ascii.eqb_spec sep c); [naive_solver|].
  by rewrite IH by naive_solver.
Qed.
Lemma cut_at_none sep l : sep ∉ l -> cut_at [sep] l = None.
Proof.
  induction l as [|c l IH]; intros H; cbn; [done|].
  rewrite not_elem_of_cons in H. destruct (Ascii.eqb_spec sep c); [naive_solver|].
  by rewrite IH by naive_solver.
Qed.

(** Trimming splits off a run of the trimmed byte. *)
Lemma trim_left_spec c l : exists n, l = replicate n c ++ trim_left (Ascii.eqb c) l /\
  match trim_left (Ascii.eqb c) l with d :: _ => d <> c | [] => True end.
Proof.
  induction l as [|d l (n & E & H)]; [by exists 0%nat|]. cbn [trim_left].
  destruct (Ascii.eqb_spec c d) as [<-|Hne].
  - exists (S n). split; [cbn; by f_equal | done].
  - exists 0%nat. by split.
Qed.
Lemma trim_right_spec c l : exists n,
  l = rev (trim_left (Ascii.eqb c) (rev l)) ++ replicate n c /\
  match list.last (rev (trim_left (Ascii.eqb c) (rev l))) with Some d => d <> c | None => True end.
Proof.
  destruct (trim_left_spec c (rev l)) as (n & E & H). exists n. split.
  - rewrite <- (rev_involutive l) at 1. rewrite E at 1. rewrite rev_app_distr. f_equal.
    clear. induction n as [|n IH]; [done|]. cbn. rewrite IH. symmetry. apply replicate_cons_app.
  - destruct (trim_left _ _) as [|d r]; [done|]. cbn. by rewrite last_snoc.
Qed.

(** ** Sorting by a string key

    [sort.Slice] and [encoding/json]'s ordering of map keys: ascending by
    bytes.  Wherever the sources sort, the keys are distinct, so every sorting
    algorithm gives the same list. *)

Lemma string_ltb_lt a b : string_ltb a b = true <-> OrderedTypeEx.String_as_OT.lt a b.
Proof.
  rewrite <- OrderedTypeEx.String_as_OT.cmp_lt. unfold string_ltb, OrderedTypeEx.String_as_OT.cmp.
  by destruct (String.compare a b).
Qed.
Lemma string_ltb_trans a b c : string_ltb a b = true -> string_ltb b c = true -> string_ltb a c = true.
Proof. rewrite !string_ltb_lt. apply OrderedTypeEx.String_as_OT.lt_trans. Qed.
Lemma string_ltb_asym a b : string_ltb a b = true -> string_ltb b a = false.
Proof.
  unfold string_ltb. rewrite (String.compare_antisym b a). by destruct (String.compare a b).
Qed.
Lemma string_ltb_total a b : a <> b -> string_ltb a b = false -> string_ltb b a = true.
Proof.
  unfold string_ltb. rewrite (String.compare_antisym b a). intros Hn.
  destruct (String.compare a b) eqn:E; try done. by apply String.compare_eq_iff in E.
Qed.
Lemma string_ltb_irrefl a : string_ltb a a = false.
Proof. destruct (string_ltb a a) eqn:E; [|done]. by rewrite (string_ltb_asym a a E) in E. Qed.

Section SortBy.
Context {A : Type} (key : A -> string).

Fixpoint insert_by (a : A) (l : list A) : list A :=
  match l with
  | [] => [a]
  | x :: r => if string_ltb (key a) (key x) then a :: l else x :: insert_by a r
  end.
Definition sort_by (l : list A) : list A := foldr insert_by [] l.

Lemma insert_by_perm a l : insert_by a l ≡ₚ a :: l.
Proof.
  induction l as [|x l IH]; [done|]. cbn. destruct (string_ltb _ _); [done|].
  rewrite IH. constructor.
Qed.
Lemma sort_by_perm l : sort_by l ≡ₚ l.
Proof. induction l as [|a l IH]; [done|]. cbn. by rewrite insert_by_perm, IH. Qed.

Lemma insert_by_comm a b l : key a <> key b ->
  insert_by a (insert_by b l) = insert_by b (insert_by a l).
Proof.
  intros Hab. induction l as [|x l IH]; cbn.
  - destruct (string_ltb (key a) (key b)) eqn:E; [by rewrite (string_ltb_asym _ _ E)|].
    by rewrite (string_ltb_total _ _ Hab E).
  - destruct (string_ltb (key a) (key x)) eqn:Ea, (string_ltb (key b) (key x)) eqn:Eb; cbn;
      rewrite ?Ea, ?Eb.
    + destruct (string_ltb (key a) (key b)) eqn:E; [by rewrite (string_ltb_asym _ _ E)|].
      by rewrite (string_ltb_total _ _ Hab E).
    + destruct (string_ltb (key b) (key a)) eqn:E; [|done].
      by rewrite (string_ltb_trans _ _ _ E Ea) in Eb.
    + destruct (string_ltb (key a) (key b)) eqn:E; [|done].
      by rewrite (string_ltb_trans _ _ _ E Eb) in Ea.
    + by rewrite IH.
Qed.

Lemma sort_by_unique l k : NoDup (key <$> l) -> l ≡ₚ k -> sort_by l = sort_by k.
Proof.
  intros Hnd Hp. induction Hp as [|x l k _ IH|x y l|l k j H1 IH1 H2 IH2]; [done| | |].
  - rewrite fmap_cons in Hnd. apply list.NoDup_cons in Hnd as [_ Hnd]. cbn.
    change (insert_by x (sort_by l) = insert_by x (sort_by k)). by rewrite IH.
  - rewrite !fmap_cons in Hnd. apply list.NoDup_cons in Hnd as [Hx _]. apply insert_by_comm.
    intros E. apply Hx. rewrite E. left.
  - rewrite IH1, IH2 by (done || by rewrite <- H1). done.
Qed.

Lemma sort_by_idem l : NoDup (key <$> l) -> sort_by (sort_by l) = sort_by l.
Proof. intros Hnd. symmetry. apply sort_by_unique; [done|]. symmetry. apply sort_by_perm. Qed.
End SortBy.

(** ** Splitting and joining in general *)

Lemma split_chars_nonempty sep s : split_chars sep s <> [].
Proof. destruct s as [|c s]; cbn; [done|]. destruct (Ascii.eqb c sep), (split_chars sep s); done. Qed.

Lemma split_chars_app_gen sep s t :
  split_chars sep (s ++ sep :: t) = split_chars sep s ++ split_chars sep t.
Proof.
  induction s as [|c s IH]; cbn [app split_chars]; [by rewrite Ascii.eqb_refl|].
  rewrite IH. destruct (Ascii.eqb c sep); [done|].
  pose proof (split_chars_nonempty sep s). by destruct (split_chars sep s).
Qed.

Lemma join_chars_app sep l k : l <> [] -> k <> [] ->
  join_chars [sep] (l ++ k) = join_chars [sep] l ++ sep :: join_chars [sep] k.
Proof.
  intros Hl Hk. induction l as [|x l IH]; [done|]. destruct l as [|y l].
  - cbn. by destruct k.
  - change (x ++ [sep] ++ join_chars [sep] ((y :: l) ++ k) =
      (x ++ [sep] ++ join_chars [sep] (y :: l)) ++ sep :: join_chars [sep] k).
    rewrite IH by done. by rewrite <- !app_assoc.
Qed.

Lemma split_chars_inj sep s t : split_chars sep s = split_chars sep t -> s = t.
Proof. intros E. by rewrite <- (split_chars_join sep s), E, split_chars_join. Qed.

(** Insertion sort produces an ordered list. *)
Section SortedBy.
Context {A : Type} (key : A -> string).

Definition key_le (a b : A) : Prop := string_ltb (key b) (key a) = false.

Lemma insert_by_sorted a l : Sorted key_le l -> Sorted key_le (insert_by key a l).
Proof.
  induction 1 as [|x l Hs IH Hd]; cbn; [by repeat constructor|].
  destruct (string_ltb (key a) (key x)) eqn:E.
  - constructor; [by constructor|]. constructor. unfold key_le. by apply string_ltb_asym.
  - constructor; [done|]. destruct l as [|y l]; cbn; [by constructor|].
    destruct (string_ltb (key a) (key y)); constructor; [done|]. by inversion Hd.
Qed.

Lemma sort_by_sorted l : Sorted key_le (sort_by key l).
Proof. induction l as [|a l IH]; [constructor|]. by apply insert_by_sorted. Qed.
End SortedBy.

(** ** Cleaned paths do not end in a slash *)

Lemma split_chars_no_sep sep s : Forall (fun x => sep ∉ x) (split_chars sep s).
Proof.
  induction s as [|c s IH]; cbn; [repeat constructor; by apply not_elem_of_nil|].
  destruct (Ascii.eqb_spec c sep); [constructor; [by apply not_elem_of_nil | done]|].
  destruct (split_chars sep s) as [|h t]; inversion IH; subst; constructor; try done.
  - rewrite list_elem_of_singleton. congruence.
  - rewrite elem_of_cons. naive_solver.
Qed.

Definition path_element (x : list ascii) : Prop := x <> [] /\ "/"%char ∉ x.

Lemma clean_step_elements rooted out el : Forall path_element out -> "/"%char ∉ el ->
  Forall path_element (clean_step rooted out el).
Proof.
  intros HF Hel. unfold clean_step.
  assert (path_element (chars "..")) as Hdd by (split; [done | by apply (bool_decide_unpack _)]).
  destruct (bool_decide (el = []) || bool_decide (el = chars ".")) eqn:E; [done|].
  apply orb_false_iff in E as [E _]. rewrite bool_decide_eq_false in E.
  case_bool_decide; [|by constructor].
  destruct out as [|top rest]; [destruct rooted; [done | by constructor]|].
  case_bool_decide; [by constructor|]. by inversion HF.
Qed.

Lemma clean_fold_elements rooted els out : Forall path_element out ->
  Forall (fun x => "/"%char ∉ x) els -> Forall path_element (fold_left (clean_step rooted) els out).
Proof.
  revert out. induction els as [|el els IH]; intros out Hout HF; [done|].
  inversion HF; subst. cbn. apply IH; [by apply clean_step_elements | done].
Qed.

Lemma join_last els : Forall path_element els -> els <> [] ->
  exists l c, join_chars (chars "/") els = l ++ [c] /\ c <> "/"%char.
Proof.
  induction 1 as [|x els [Hx Hs] HF IH]; [done|]. intros _.
  assert (exists l c, x = l ++ [c] /\ c <> "/"%char) as (l & c & Ex & Hc).
  { destruct (exists_last Hx) as (l & c & ->). exists l, c. split; [done|]. intros ->.
    apply Hs, elem_of_app. right. by left. }
  destruct els as [|y els]; [cbn; eauto|].
  destruct IH as (l' & c' & E & Hc'); [done|]. exists (x ++ "/"%char :: l'), c'. split; [|done].
  change (join_chars (chars "/") (x :: y :: els)) with (x ++ chars "/" ++ join_chars (chars "/") (y :: els)).
  rewrite E, <- app_assoc. done.
Qed.

Lemma TrimSuffix_last s l c d : chars s = l ++ [c] -> c <> d -> TrimSuffix s (String d "") = s.
Proof.
  intros E Hc. unfold TrimSuffix. rewrite E, rev_app_distr. cbn.
  by destruct (Ascii.eqb_spec d c) as [->|].
Qed.

Lemma Clean_no_slash p : Clean p <> "/" -> TrimSuffix (Clean p) "/" = Clean p.
Proof.
  unfold Clean. set (els := rev (fold_left _ _ _)). intros Hn.
  assert (Forall path_element els) as HF.
  { apply List.Forall_rev, clean_fold_elements; [done | apply split_chars_no_sep]. }
  destruct els as [|x els'] eqn:Ee; [by destruct (HasPrefix p "/")|].
  destruct (join_last _ HF) as (l & c & E & Hc); [done|]. rewrite <- Ee in *. clearbody els.
  destruct (HasPrefix p "/").
  - apply (TrimSuffix_last _ ("/"%char :: l) c); [|done]. rewrite chars_unchars. cbn [chars] in *.
    by rewrite E.
  - rewrite E in *. destruct (l ++ [c]) as [|a r] eqn:El; [by destruct l|].
    apply (TrimSuffix_last _ l c); [|done]. by rewrite chars_unchars.
Qed.
