(* ===== verification/Sha256.v ===== *)
(** * Digests and encodings: [crypto/sha256], [encoding/hex], [encoding/base32]

    Every durable identity of the program (artifact, claim, lease, receipt
    and child names) is a SHA-256 digest printed in hexadecimal or base32.
    The hash is implemented as FIPS 180-4 writes it, so identities evaluate;
    the encodings come with their round trips, which is what makes a printed
    name as good as the digest behind it. *)

From Stdlib Require Import Ascii NArith.
From stdpp Require Import base tactics list strings numbers.
From S2P Require Import Prelude GoStrings.
Open Scope N_scope.
Open Scope list_scope.

(** ** SHA-256 *)

Definition w32 (x : N) : N := N.land x 0xffffffff.
Definition add32 (x y : N) : N := w32 (x + y).
Definition rotr (n x : N) : N := N.lor (N.shiftr x n) (w32 (N.shiftl x (32 - n))).
Definition not32 (x : N) : N := N.lxor x 0xffffffff.

Definition Ch (x y z : N) : N := N.lxor (N.land x y) (N.land (not32 x) z).
Definition Maj (x y z : N) : N := N.lxor (N.lxor (N.land x y) (N.land x z)) (N.land y z).
Definition Sigma0 (x : N) : N := N.lxor (N.lxor (rotr 2 x) (rotr 13 x)) (rotr 22 x).
Definition Sigma1 (x : N) : N := N.lxor (N.lxor (rotr 6 x) (rotr 11 x)) (rotr 25 x).
Definition sigma0 (x : N) : N := N.lxor (N.lxor (rotr 7 x) (rotr 18 x)) (N.shiftr x 3).
Definition sigma1 (x : N) : N := N.lxor (N.lxor (rotr 17 x) (rotr 19 x)) (N.shiftr x 10).

(** The round constants are the first 32 bits of the fractional parts of the
    cube roots of the first 64 primes, the initial state those of the square
    roots of the first eight. *)
Definition is_prime (n : N) : bool :=
  forallb (fun d => negb (n mod d =? 0)) (N.of_nat <$> seq 2 (N.to_nat (N.sqrt n) - 1)).
Definition primes : list N := List.filter is_prime (N.of_nat <$> seq 2 310).
Definition cube_root (n : N) : N :=
  fold_left (fun r b => let t := r + 2 ^ b in if t * t * t <=? n then t else r)
    (rev (N.of_nat <$> seq 0 36)) 0.
Definition K256 : list N :=
  Eval vm_compute in ((fun q => w32 (cube_root (q * 2 ^ 96))) <$> primes).
Definition IV256 : list N :=
  Eval vm_compute in ((fun q => w32 (N.sqrt (q * 2 ^ 64))) <$> firstn 8 primes).

(** The eight working variables. *)
Record hstate := HState { ha : N; hb : N; hc : N; hd : N; he : N; hf : N; hg : N; hh : N }.

Definition H0_256 : hstate :=
  let iv i := nth i IV256 0 in
  HState (iv 0%nat) (iv 1%nat) (iv 2%nat) (iv 3%nat) (iv 4%nat) (iv 5%nat) (iv 6%nat) (iv 7%nat).

Definition round (s : hstate) (kw : N * N) : hstate :=
  let t1 := add32 (add32 (add32 (add32 (hh s) (Sigma1 (he s))) (Ch (he s) (hf s) (hg s))) kw.1) kw.2 in
  let t2 := add32 (Sigma0 (ha s)) (Maj (ha s) (hb s) (hc s)) in
  HState (add32 t1 t2) (ha s) (hb s) (hc s) (add32 (hd s) t1) (he s) (hf s) (hg s).

(** The message schedule, most recent word first. *)
Fixpoint schedule (n : nat) (rw : list N) : list N :=
  match n with
  | O => rw
  | S n' =>
      let w i := nth i rw 0 in
      schedule n' (add32 (add32 (sigma1 (w 1%nat)) (w 6%nat))
                         (add32 (sigma0 (w 14%nat)) (w 15%nat)) :: rw)
  end.

Definition byte_val (c : ascii) : N := N_of_ascii c.

Fixpoint words_be (l : list ascii) : list N :=
  match l with
  | a :: b :: c :: d :: rest =>
      N.lor (N.lor (N.shiftl (byte_val a) 24) (N.shiftl (byte_val b) 16))
            (N.lor (N.shiftl (byte_val c) 8) (byte_val d)) :: words_be rest
  | _ => []
  end.

Definition compress (s : hstate) (block : list ascii) : hstate :=
  let w := rev (schedule 48 (rev (words_be block))) in
  let s' := fold_left round (combine K256 w) s in
  HState (add32 (ha s) (ha s')) (add32 (hb s) (hb s')) (add32 (hc s) (hc s'))
         (add32 (hd s) (hd s')) (add32 (he s) (he s')) (add32 (hf s) (hf s'))
         (add32 (hg s) (hg s')) (add32 (hh s) (hh s')).

Definition byte_of (x : N) : ascii := ascii_of_N (N.land x 255).
Definition bytes_be (n : nat) (x : N) : list ascii :=
  (fun i => byte_of (N.shiftr x (8 * N.of_nat i))) <$> rev (seq 0 n).

Definition pad (m : list ascii) : list ascii :=
  let n := length m in
  m ++ byte_of 128 :: replicate ((119 - n mod 64) mod 64)%nat (byte_of 0)
    ++ bytes_be 8 (8 * N.of_nat n).

Fixpoint blocks (fuel : nat) (s : hstate) (l : list ascii) : hstate :=
  match fuel with
  | O => s
  | S f => match l with [] => s | _ => blocks f (compress s (firstn 64 l)) (skipn 64 l) end
  end.

(** [sha256.Sum256]: 32 bytes.  The padded length bounds the block count. *)
Definition Sum256 (m : list ascii) : list ascii :=
  let p := pad m in
  let s := blocks (length p) H0_256 p in
  flat_map (bytes_be 4) [ha s; hb s; hc s; hd s; he s; hf s; hg s; hh s].

(** ** Hexadecimal *)

Definition hex_digit (n : N) : ascii :=
  if n <? 10 then ascii_of_N (48 + n) else ascii_of_N (87 + n).
Definition hex_value (c : ascii) : option N :=
  let n := N_of_ascii c in
  if (48 <=? n) && (n <=? 57) then Some (n - 48)
  else if (97 <=? n) && (n <=? 102) then Some (n - 87)
  else if (65 <=? n) && (n <=? 70) then Some (n - 55)
  else None.

Definition hex_byte (c : ascii) : list ascii :=
  [hex_digit (N.div (N_of_ascii c) 16); hex_digit (N.modulo (N_of_ascii c) 16)].

(** [hex.EncodeToString] and [hex.DecodeString]. *)
Definition hex_chars (l : list ascii) : list ascii := flat_map hex_byte l.
Definition EncodeToString (l : list ascii) : string := unchars (hex_chars l).

Fixpoint hex_decode (l : list ascii) : option (list ascii) :=
  match l with
  | [] => Some []
  | a :: b :: rest =>
      x ← hex_value a; y ← hex_value b; r ← hex_decode rest;
      Some (ascii_of_N (16 * x + y) :: r)
  | [_] => None
  end.
Definition DecodeString (s : string) : option (list ascii) := hex_decode (chars s).

Definition is_hex (c : ascii) : bool :=
  let n := N_of_ascii c in ((48 <=? n) && (n <=? 57)) || ((97 <=? n) && (n <=? 102)).

(** ** Base32 (standard alphabet, no padding) *)

Definition bits_of_byte (c : ascii) : list bool :=
  match c with Ascii b0 b1 b2 b3 b4 b5 b6 b7 => [b7; b6; b5; b4; b3; b2; b1; b0] end.

Definition quintet_value (q : list bool) : N :=
  fold_left (fun acc (b : bool) => 2 * acc + (if b then 1 else 0)) q 0.
Definition base32_digit (n : N) : ascii :=
  if n <? 26 then ascii_of_N (65 + n) else ascii_of_N (24 + n).

(** Groups of five bits, the last one filled with zeros on the right. *)
Fixpoint quintets (fuel : nat) (l : list bool) : list (list bool) :=
  match fuel with
  | O => []
  | S f =>
      match l with
      | [] => []
      | _ => (firstn 5 l ++ replicate (5 - length (firstn 5 l)) false) :: quintets f (skipn 5 l)
      end
  end.
Definition base32_chars (l : list ascii) : list ascii :=
  let bs := flat_map bits_of_byte l in
  (fun q => base32_digit (quintet_value q)) <$> quintets (length bs) bs.

(** ** Known answers *)

Example Sum256_abc :
  EncodeToString (Sum256 (chars "abc"))
  = "ba7816bf8f01cfea414140de5dae2223b00361a396177a9cb410ff61f20015ad"%string.
Proof. vm_compute. reflexivity. Qed.

Example Sum256_two_blocks :
  EncodeToString (Sum256 (chars "abcdbcdecdefdefgefghfghighijhijkijkljklmklmnlmnomnopnopq"))
  = "248d6a61d20638b8e5c026930c3e6039a33ce45964ff2167f6ecedd419db06c1"%string.
Proof. vm_compute. reflexivity. Qed.

Example base32_foobar : unchars (base32_chars (chars "fooba")) = "MZXW6YTB"%string /\
  unchars (base32_chars (chars "foob")) = "MZXW6YQ"%string.
Proof. vm_compute. split; reflexivity. Qed.

(** ** Shape of a digest *)

Lemma length_bytes_be n x : length (bytes_be n x) = n.
Proof. unfold bytes_be. rewrite length_fmap, length_rev, length_seq. reflexivity. Qed.

Lemma length_Sum256 m : length (Sum256 m) = 32%nat.
Proof.
  unfold Sum256. cbn [flat_map]. rewrite !length_app, !length_bytes_be. cbn [length]. lia.
Qed.

(** ** Hexadecimal round trip *)

(** A decidable property of bytes is checked on all of them. *)
Lemma byte_forall (P : ascii -> bool) :
  forallb P (ascii_of_nat <$> seq 0 256) = true -> forall c, P c = true.
Proof.
  intros H c. rewrite forallb_forall in H. apply H.
  apply list_elem_of_In, list_elem_of_fmap. exists (nat_of_ascii c).
  split; [by rewrite ascii_nat_embedding|].
  apply elem_of_seq. pose proof (nat_ascii_bounded c). lia.
Qed.

Lemma hex_byte_spec c :
  hex_decode (hex_byte c) = Some [c] /\ Forall (fun d => is_hex d = true) (hex_byte c).
Proof.
  assert (forall c, (bool_decide (hex_decode (hex_byte c) = Some [c])
    && forallb is_hex (hex_byte c))%bool = true) as H
    by (apply byte_forall; vm_compute; reflexivity).
  specialize (H c). apply andb_true_iff in H as [H1 H2]. split; [by apply bool_decide_eq_true in H1|].
  apply List.Forall_forall. by apply forallb_forall.
Qed.

Lemma hex_decode_cons a b x l r :
  hex_decode [a; b] = Some [x] -> hex_decode l = Some r -> hex_decode (a :: b :: l) = Some (x :: r).
Proof.
  cbn. intros E H. destruct (hex_value a); [|done]. destruct (hex_value b); [|done]. cbn in *.
  rewrite H. cbn. congruence.
Qed.

Lemma hex_decode_app c l r :
  hex_decode l = Some r -> hex_decode (hex_byte c ++ l) = Some (c :: r).
Proof. apply hex_decode_cons, hex_byte_spec. Qed.

Lemma hex_decode_chars l : hex_decode (hex_chars l) = Some l.
Proof. induction l as [|c l IH]; [done|]. by apply (hex_decode_app c). Qed.

Lemma DecodeString_EncodeToString l : DecodeString (EncodeToString l) = Some l.
Proof. unfold DecodeString, EncodeToString. by rewrite chars_unchars, hex_decode_chars. Qed.

Lemma EncodeToString_inj l k : EncodeToString l = EncodeToString k -> l = k.
Proof.
  intros H. pose proof (DecodeString_EncodeToString l) as Hl.
  rewrite H, DecodeString_EncodeToString in Hl. by injection Hl.
Qed.

Lemma hex_chars_is_hex l : Forall (fun d => is_hex d = true) (hex_chars l).
Proof.
  induction l as [|c l IH]; [constructor|]. cbn [hex_chars flat_map].
  apply Forall_app. split; [apply hex_byte_spec | apply IH].
Qed.

Lemma length_hex_chars l : length (hex_chars l) = (2 * length l)%nat.
Proof.
  induction l as [|c l IH]; [done|].
  change (length (hex_byte c ++ hex_chars l) = (2 * S (length l))%nat).
  rewrite length_app, IH. cbn [length hex_byte]. lia.
Qed.

(** Decoding hexadecimal text of the canonical (lower case) alphabet and
    printing it again returns the text. *)
Lemma hex_value_lower c x :
  is_hex c = true -> hex_value c = Some x -> hex_digit x = c /\ x < 16.
Proof.
  intros Hc Hx.
  assert (forall c, (negb (is_hex c) ||
    match hex_value c with Some x => bool_decide (hex_digit x = c) && (x <? 16) | None => true end
    )%bool = true) as H by (apply byte_forall; vm_compute; reflexivity).
  specialize (H c). rewrite Hc, Hx in H. cbn in H. apply andb_true_iff in H as [H1 H2].
  split; [by apply bool_decide_eq_true in H1 | by apply N.ltb_lt].
Qed.

Lemma hex_byte_of_nibbles x y :
  x < 16 -> y < 16 -> hex_byte (ascii_of_N (16 * x + y)) = [hex_digit x; hex_digit y].
Proof.
  intros Hx Hy. unfold hex_byte. rewrite N_ascii_embedding by lia.
  replace ((16 * x + y) / 16) with x by (apply N.div_unique with y; lia).
  replace ((16 * x + y) mod 16) with y by (apply N.mod_unique with x; lia). done.
Qed.

Lemma hex_chars_decode n : forall l r, length l = n ->
  Forall (fun d => is_hex d = true) l -> hex_decode l = Some r -> hex_chars r = l.
Proof.
  induction (Nat.lt_wf_0 n) as [n _ IH]. intros [|a [|b l]] r Hn HF Hd; cbn in Hd; try done.
  - by injection Hd as <-.
  - inversion HF as [|? ? Ha HF1]; subst. inversion HF1 as [|? ? Hb HF2]; subst.
    destruct (hex_value a) as [x|] eqn:Ex; [|done].
    destruct (hex_value b) as [y|] eqn:Ey; [|done]. cbn in Hd.
    destruct (hex_decode l) as [r'|] eqn:El; [|done]. cbn in Hd. injection Hd as <-.
    destruct (hex_value_lower _ _ Ha Ex) as [? ?], (hex_value_lower _ _ Hb Ey) as [? ?].
    change (hex_byte (ascii_of_N (16 * x + y)) ++ hex_chars r' = a :: b :: l).
    rewrite hex_byte_of_nibbles by done. cbn. rewrite (IH (length l) ltac:(cbn; lia) l r'); auto.
    congruence.
Qed.

(** ** Base32 is injective on inputs of one length, also in lower case *)

Definition bits5 (n : N) : list bool :=
  [N.testbit n 4; N.testbit n 3; N.testbit n 2; N.testbit n 1; N.testbit n 0].
Definition base32_value_lower (c : ascii) : N :=
  let n := N_of_ascii c in if 97 <=? n then n - 97 else n - 24.
Definition is_base32_lower (c : ascii) : bool :=
  let n := N_of_ascii c in ((97 <=? n) && (n <=? 122)) || ((50 <=? n) && (n <=? 55)).

Lemma quintet_digit q :
  length q = 5%nat ->
  bits5 (base32_value_lower (lower_ascii (base32_digit (quintet_value q)))) = q /\
  is_base32_lower (lower_ascii (base32_digit (quintet_value q))) = true.
Proof.
  destruct q as [|b0 [|b1 [|b2 [|b3 [|b4 [|]]]]]]; try done. intros _.
  destruct b0, b1, b2, b3, b4; split; reflexivity.
Qed.

Lemma quintets_spec fuel : forall l, (length l <= fuel)%nat ->
  Forall (fun q => length q = 5%nat) (quintets fuel l) /\
  exists z, concat (quintets fuel l) = l ++ replicate z false.
Proof.
  induction fuel as [|f IH]; intros l Hl.
  - destruct l; [|cbn in Hl; lia]. split; [constructor | by exists O].
  - destruct l as [|b l']; [split; [constructor | by exists O]|].
    cbn [quintets]. set (l := b :: l') in *.
    assert (length (skipn 5 l) <= f)%nat as Hs.
    { rewrite length_skipn. subst l. cbn [length] in *. lia. }
    destruct (IH _ Hs) as (HF & z & Hz). split.
    + constructor; [|done]. rewrite length_app, length_replicate, length_firstn. lia.
    + cbn [concat]. rewrite Hz. destruct (decide (length l <= 5)%nat) as [Hle|Hgt].
      * rewrite skipn_all2 by lia. rewrite firstn_all2 by lia.
        exists (5 - length l + z)%nat. cbn [app].
        by rewrite <- app_assoc, replicate_add.
      * rewrite length_firstn. replace (5 - min 5 (length l))%nat with O by lia.
        cbn [replicate]. rewrite app_nil_r. exists z. by rewrite app_assoc, firstn_skipn.
Qed.

Lemma length_flat_bits l : length (flat_map bits_of_byte l) = (8 * length l)%nat.
Proof. induction l as [|[] l IH]; cbn in *; lia. Qed.

Lemma flat_bits_inj l k : flat_map bits_of_byte l = flat_map bits_of_byte k -> l = k.
Proof.
  revert k. induction l as [|[] l IH]; intros [|[] k]; cbn; try done.
  intros [= <- <- <- <- <- <- <- <- Hr]. f_equal. by apply IH.
Qed.

Definition base32_lower (l : list ascii) : list ascii := lower_ascii <$> base32_chars l.

Lemma base32_lower_bits l :
  let bs := flat_map bits_of_byte l in
  (fun c => bits5 (base32_value_lower c)) <$> base32_lower l = quintets (length bs) bs.
Proof.
  intros bs. unfold base32_lower, base32_chars. fold bs.
  destruct (quintets_spec (length bs) bs) as [HF _]; [done|].
  rewrite <- !list_fmap_compose. induction HF as [|q qs Hq _ IH]; [done|].
  cbn [fmap list_fmap]. f_equal; [by apply quintet_digit | apply IH].
Qed.

Lemma base32_lower_inj l k :
  length l = length k -> base32_lower l = base32_lower k -> l = k.
Proof.
  intros Hlen H. apply flat_bits_inj.
  pose proof (base32_lower_bits l) as Hl. pose proof (base32_lower_bits k) as Hk.
  cbn zeta in *. rewrite H, Hk in Hl. clear H Hk.
  destruct (quintets_spec _ (flat_map bits_of_byte l) (Nat.le_refl _)) as (_ & z & Hz).
  destruct (quintets_spec _ (flat_map bits_of_byte k) (Nat.le_refl _)) as (_ & z' & Hz').
  rewrite <- Hl in Hz. rewrite Hz in Hz'.
  apply app_inj_1 in Hz' as [? _]; [done|]. by rewrite !length_flat_bits, Hlen.
Qed.

Lemma base32_lower_alphabet l : Forall (fun c => is_base32_lower c = true) (base32_lower l).
Proof.
  unfold base32_lower, base32_chars.
  destruct (quintets_spec _ (flat_map bits_of_byte l) (Nat.le_refl _)) as [HF _].
  induction HF as [|q qs Hq _ IH]; [constructor|]. constructor; [by apply quintet_digit | apply IH].
Qed.

Lemma length_quintets fuel : forall l, (length l <= fuel)%nat ->
  length (quintets fuel l) = ((length l + 4) / 5)%nat.
Proof.
  induction fuel as [|f IH]; intros l Hl.
  - by destruct l; [|cbn in Hl; lia].
  - destruct l as [|b l']; [done|]. cbn [quintets length]. set (l := b :: l') in *.
    rewrite IH; [|rewrite length_skipn; subst l; cbn [length] in *; lia].
    rewrite length_skipn. change (S (length l')) with (length l).
    assert (1 <= length l)%nat by (subst l; cbn; lia).
    destruct (decide (length l <= 5)%nat).
    + replace (length l - 5)%nat with O by lia.
      change (1%nat = ((length l + 4) / 5)%nat). apply (Nat.div_unique _ 5 1 (length l - 1)); lia.
    + replace (length l + 4)%nat with (length l - 5 + 4 + 1 * 5)%nat by lia.
      rewrite Nat.div_add by lia. lia.
Qed.

Lemma length_base32_lower l : length (base32_lower l) = ((8 * length l + 4) / 5)%nat.
Proof.
  unfold base32_lower, base32_chars. rewrite !length_fmap, length_quintets by done.
  by rewrite length_flat_bits.
Qed.

(** Proofs treat the hash as a black box; closed terms still evaluate with
    [vm_compute]. *)
#[global] Opaque Sum256.
