(* ===== verification/GoJson.v ===== *)
(** * Go's [unicode/utf8] and [encoding/json]

    The parts of the Go standard library that [internal/canonicaljson] runs
    on: UTF-8 validity, the streaming [json.Decoder] in [UseNumber] mode (its
    token state machine and its scanner) and the string encoding of
    [json.Marshal].  Everything is over byte sequences. *)

From Stdlib Require Import Ascii.
From stdpp Require Import base tactics list strings numbers.
From S2P Require Import Prelude GoStrings.
Open Scope string_scope.
Open Scope list_scope.

(** ** UTF-8 *)

Definition code (c : ascii) : N := N_of_ascii c.
Definition between (lo hi : N) (c : ascii) : bool := ((lo <=? code c) && (code c <=? hi))%N.
Definition continuation : ascii -> bool := between 128 191.

(** The well-formed sequences of two, three and four bytes. *)
Definition rune2 (a b : ascii) : bool := between 194 223 a && continuation b.
Definition rune3 (a b c : ascii) : bool :=
  ((between 224 224 a && between 160 191 b) || (between 225 236 a && continuation b) ||
   (between 237 237 a && between 128 159 b) || (between 238 239 a && continuation b)) &&
  continuation c.
Definition rune4 (a b c d : ascii) : bool :=
  ((between 240 240 a && between 144 191 b) || (between 241 243 a && continuation b) ||
   (between 244 244 a && between 128 143 b)) && continuation c && continuation d.
Definition is_ascii (c : ascii) : bool := (code c <? 128)%N.

(** [utf8.Valid] *)
Fixpoint utf8_Valid (s : list ascii) : bool :=
  match s with
  | [] => true
  | a :: r =>
      if is_ascii a then utf8_Valid r
      else match r with
      | b :: r2 =>
          if rune2 a b then utf8_Valid r2
          else match r2 with
          | c :: r3 =>
              if rune3 a b c then utf8_Valid r3
              else match r3 with
              | d :: r4 => rune4 a b c d && utf8_Valid r4
              | [] => false
              end
          | [] => false
          end
      | [] => false
      end
  end.

Definition chr (n : N) : ascii := ascii_of_N n.
(** [utf8.AppendRune]; surrogates and out-of-range code points become U+FFFD. *)
Definition encode_rune (r : N) : list ascii :=
  if (r <? 128)%N then [chr r]
  else if (r <? 2048)%N then [chr (192 + r / 64); chr (128 + r `mod` 64)]%N
  else
    let r := if ((55296 <=? r) && (r <=? 57343) || (1114111 <? r))%N then 65533%N else r in
    if (r <? 65536)%N then
      [chr (224 + r / 4096); chr (128 + (r / 64) `mod` 64); chr (128 + r `mod` 64)]%N
    else
      [chr (240 + r / 262144); chr (128 + (r / 4096) `mod` 64);
       chr (128 + (r / 64) `mod` 64); chr (128 + r `mod` 64)]%N.

(** ** String literals *)

Definition dquote : ascii := chr 34.
Definition backslash : ascii := chr 92.

Definition hex_digit (c : ascii) : option N :=
  if between 48 57 c then Some (code c - 48)%N
  else if between 97 102 c then Some (code c - 87)%N
  else if between 65 70 c then Some (code c - 55)%N
  else None.
Definition hex4 (a b c d : ascii) : option N :=
  x ← hex_digit a; y ← hex_digit b; z ← hex_digit c; w ← hex_digit d;
  Some (((x * 16 + y) * 16 + z) * 16 + w)%N.

Definition simple_escape (e : ascii) : option ascii :=
  if Ascii.eqb e dquote || Ascii.eqb e backslash || Ascii.eqb e "/" then Some e
  else if Ascii.eqb e "b" then Some (chr 8)
  else if Ascii.eqb e "f" then Some (chr 12)
  else if Ascii.eqb e "n" then Some (chr 10)
  else if Ascii.eqb e "r" then Some (chr 13)
  else if Ascii.eqb e "t" then Some (chr 9)
  else None.

Definition high_surrogate (u : N) : bool := ((55296 <=? u) && (u <? 56320))%N.
Definition low_surrogate (u : N) : bool := ((56320 <=? u) && (u <? 57344))%N.
Definition surrogate_pair (u v : N) : N := ((u - 55296) * 1024 + (v - 56320) + 65536)%N.
(** The low half of a surrogate pair, when the text goes on with one. *)
Definition low_half (s : list ascii) : option (N * list ascii) :=
  match s with
  | e :: x :: a :: b :: c :: d :: rest =>
      if Ascii.eqb e backslash && Ascii.eqb x "u" then
        match hex4 a b c d with
        | Some v => if low_surrogate v then Some (v, rest) else None
        | None => None
        end
      else None
  | _ => None
  end.

Definition push (p : list ascii) (r : option (list ascii * list ascii)) :
    option (list ascii * list ascii) :=
  match r with Some (s, rest) => Some (p ++ s, rest) | None => None end.

(** The text of a string literal after its opening quote: the decoded bytes
    and what follows the closing quote.  An unpaired surrogate decodes to
    U+FFFD; bytes of multi-byte sequences are copied (the input was checked to
    be valid UTF-8 before decoding starts). *)
Fixpoint scan_string (s : list ascii) : option (list ascii * list ascii) :=
  match s with
  | [] => None
  | c :: r =>
      if Ascii.eqb c dquote then Some ([], r)
      else if Ascii.eqb c backslash then
        match r with
        | [] => None
        | e :: r1 =>
            match simple_escape e with
            | Some b => push [b] (scan_string r1)
            | None =>
                if Ascii.eqb e "u" then
                  match r1 with
                  | h1 :: h2 :: h3 :: h4 :: r2 =>
                      match hex4 h1 h2 h3 h4 with
                      | None => None
                      | Some u =>
                          if high_surrogate u then
                            match r2 with
                            | _ :: _ :: _ :: _ :: _ :: _ :: r3 =>
                                match low_half r2 with
                                | Some (v, _) =>
                                    push (encode_rune (surrogate_pair u v)) (scan_string r3)
                                | None => push (encode_rune 65533) (scan_string r2)
                                end
                            | _ => push (encode_rune 65533) (scan_string r2)
                            end
                          else push (encode_rune u) (scan_string r2)
                      end
                  | _ => None
                  end
                else None
            end
        end
      else if (code c <? 32)%N then None
      else push [c] (scan_string r)
  end.

(** ** Number literals *)

(** A number in the JSON grammar, by its parts. *)
Record numlit := MkNumlit {
  nl_neg : bool;
  nl_whole : list ascii;
  nl_frac : option (list ascii);
  nl_exp : option (ascii * list ascii * list ascii) }.

Definition spell (l : numlit) : list ascii :=
  (if nl_neg l then ["-"%char] else []) ++ nl_whole l ++
  (match nl_frac l with Some f => "."%char :: f | None => [] end) ++
  (match nl_exp l with Some (e, sign, ds) => e :: sign ++ ds | None => [] end).

Definition digit (c : ascii) : bool := between 48 57 c.
Fixpoint span_digits (s : list ascii) : list ascii * list ascii :=
  match s with
  | c :: r => if digit c then let '(ds, rest) := span_digits r in (c :: ds, rest) else ([], s)
  | [] => ([], [])
  end.
Definition digits1 (s : list ascii) : option (list ascii * list ascii) :=
  match span_digits s with ([], _) => None | r => Some r end.

Definition scan_whole (s : list ascii) : option (list ascii * list ascii) :=
  match s with
  | c :: r => if Ascii.eqb c "0" then Some ([c], r) else digits1 s
  | [] => None
  end.
Definition scan_frac (s : list ascii) : option (option (list ascii) * list ascii) :=
  match s with
  | c :: r =>
      if Ascii.eqb c "." then '(ds, rest) ← digits1 r; Some (Some ds, rest) else Some (None, s)
  | [] => Some (None, s)
  end.
Definition scan_exp (s : list ascii) :
    option (option (ascii * list ascii * list ascii) * list ascii) :=
  match s with
  | e :: r =>
      if Ascii.eqb e "e" || Ascii.eqb e "E" then
        match r with
        | g :: r' =>
            if Ascii.eqb g "+" || Ascii.eqb g "-" then
              '(ds, rest) ← digits1 r'; Some (Some (e, [g], ds), rest)
            else '(ds, rest) ← digits1 r; Some (Some (e, [], ds), rest)
        | [] => None
        end
      else Some (None, s)
  | [] => Some (None, s)
  end.
Definition scan_number (s : list ascii) : option (numlit * list ascii) :=
  let '(neg, s1) := match s with
                    | c :: r => if Ascii.eqb c "-" then (true, r) else (false, s)
                    | [] => (false, s) end in
  '(whole, s2) ← scan_whole s1;
  '(frac, s3) ← scan_frac s2;
  '(ex, s4) ← scan_exp s3;
  Some (MkNumlit neg whole frac ex, s4).

(** [json.isValidNumber] *)
Definition isValidNumber (s : list ascii) : bool :=
  match scan_number s with Some (_, []) => true | _ => false end.

(** ** The token stream of a decoder *)

Inductive tokenState :=
| tokenTopValue | tokenArrayStart | tokenArrayValue | tokenArrayComma
| tokenObjectStart | tokenObjectKey | tokenObjectColon | tokenObjectValue | tokenObjectComma.

Record Decoder := MkDecoder {
  d_rest : list ascii;
  d_state : tokenState;
  d_stack : list tokenState }.
Definition NewDecoder (input : list ascii) : Decoder := MkDecoder input tokenTopValue [].

Inductive Token :=
| Delim (c : ascii) | Number (text : list ascii) | Str (s : list ascii) | Bool (b : bool) | Null.
Inductive token_result := Tok (t : Token) (d : Decoder) | TokEOF | TokErr.

Definition tokenValueAllowed (st : tokenState) : bool :=
  match st with
  | tokenTopValue | tokenArrayStart | tokenArrayValue | tokenObjectValue => true
  | _ => false
  end.
Definition tokenValueEnd (st : tokenState) : tokenState :=
  match st with
  | tokenArrayStart | tokenArrayValue => tokenArrayComma
  | tokenObjectValue => tokenObjectComma
  | _ => st
  end.
Definition closes_array (st : tokenState) : bool :=
  match st with tokenArrayStart | tokenArrayComma => true | _ => false end.
Definition closes_object (st : tokenState) : bool :=
  match st with tokenObjectStart | tokenObjectComma => true | _ => false end.
Definition wants_key (st : tokenState) : bool :=
  match st with tokenObjectStart | tokenObjectKey => true | _ => false end.

Definition is_space (c : ascii) : bool :=
  Ascii.eqb c " " || Ascii.eqb c (chr 9) || Ascii.eqb c (chr 13) || Ascii.eqb c (chr 10).

(** [dec.Decode(&x)] at a scalar that starts with [c]. *)
Definition scan_scalar (c : ascii) (r : list ascii) : option (Token * list ascii) :=
  if Ascii.eqb c dquote then '(s, rest) ← scan_string r; Some (Str s, rest)
  else if Ascii.eqb c "t" then rest ← strip_prefix (chars "rue") r; Some (Bool true, rest)
  else if Ascii.eqb c "f" then rest ← strip_prefix (chars "alse") r; Some (Bool false, rest)
  else if Ascii.eqb c "n" then rest ← strip_prefix (chars "ull") r; Some (Null, rest)
  else '(l, rest) ← scan_number (c :: r); Some (Number (spell l), rest).

Definition open_scope (c : ascii) (inner : tokenState) (r : list ascii) (st : tokenState)
    (stack : list tokenState) : token_result :=
  if tokenValueAllowed st then Tok (Delim c) (MkDecoder r inner (st :: stack)) else TokErr.
Definition close_scope (c : ascii) (ok : bool) (r : list ascii) (stack : list tokenState) :
    token_result :=
  if ok then
    match stack with
    | top :: rest => Tok (Delim c) (MkDecoder r (tokenValueEnd top) rest)
    | [] => TokErr
    end
  else TokErr.

(** [dec.Token()]: one token; separators are consumed on the way to it. *)
Fixpoint token (s : list ascii) (st : tokenState) (stack : list tokenState) : token_result :=
  match s with
  | [] => TokEOF
  | c :: r =>
      if is_space c then token r st stack
      else if Ascii.eqb c "[" then open_scope c tokenArrayStart r st stack
      else if Ascii.eqb c "]" then close_scope c (closes_array st) r stack
      else if Ascii.eqb c "{" then open_scope c tokenObjectStart r st stack
      else if Ascii.eqb c "}" then close_scope c (closes_object st) r stack
      else if Ascii.eqb c ":" then
        match st with tokenObjectColon => token r tokenObjectValue stack | _ => TokErr end
      else if Ascii.eqb c "," then
        match st with
        | tokenArrayComma => token r tokenArrayValue stack
        | tokenObjectComma => token r tokenObjectKey stack
        | _ => TokErr
        end
      else if Ascii.eqb c dquote && wants_key st then
        match scan_string r with
        | Some (k, rest) => Tok (Str k) (MkDecoder rest tokenObjectColon stack)
        | None => TokErr
        end
      else if tokenValueAllowed st then
        match scan_scalar c r with
        | Some (t, rest) => Tok t (MkDecoder rest (tokenValueEnd st) stack)
        | None => TokErr
        end
      else TokErr
  end.
Definition decoder_Token (d : Decoder) : token_result := token (d_rest d) (d_state d) (d_stack d).

(** [dec.More()] *)
Fixpoint more (s : list ascii) : bool :=
  match s with
  | [] => false
  | c :: r => if is_space c then more r else negb (Ascii.eqb c "]" || Ascii.eqb c "}")
  end.
Definition decoder_More (d : Decoder) : bool := more (d_rest d).

(** ** [json.Marshal] of a string *)

Definition lower_hex (n : N) : ascii := if (n <? 10)%N then chr (48 + n) else chr (87 + n).
Definition u00 (c : ascii) : list ascii :=
  [backslash; "u"; "0"; "0"; lower_hex (code c / 16); lower_hex (code c `mod` 16)]%char.
Definition escape_ascii (c : ascii) : list ascii :=
  let n := code c in
  if Ascii.eqb c backslash || Ascii.eqb c dquote then [backslash; c]
  else if (n =? 8)%N then [backslash; "b"%char]
  else if (n =? 12)%N then [backslash; "f"%char]
  else if (n =? 10)%N then [backslash; "n"%char]
  else if (n =? 13)%N then [backslash; "r"%char]
  else if (n =? 9)%N then [backslash; "t"%char]
  else if ((n <? 32) || (n =? 60) || (n =? 62) || (n =? 38))%N then u00 c
  else [c].
(** U+2028 and U+2029 are escaped, every other three-byte rune is copied. *)
Definition escape3 (a b c : ascii) : list ascii :=
  if ((code a =? 226) && (code b =? 128) && ((code c =? 168) || (code c =? 169)))%N
  then chars "\u202" ++ [lower_hex (code c - 160)] else [a; b; c].
Definition replacement_escape : list ascii := chars "\ufffd".

Fixpoint escape_string (s : list ascii) : list ascii :=
  match s with
  | [] => []
  | a :: r =>
      if is_ascii a then escape_ascii a ++ escape_string r
      else match r with
      | b :: r2 =>
          if rune2 a b then a :: b :: escape_string r2
          else match r2 with
          | c :: r3 =>
              if rune3 a b c then escape3 a b c ++ escape_string r3
              else match r3 with
              | d :: r4 =>
                  if rune4 a b c d then a :: b :: c :: d :: escape_string r4
                  else replacement_escape ++ escape_string r
              | [] => replacement_escape ++ escape_string r
              end
          | [] => replacement_escape ++ escape_string r
          end
      | [] => replacement_escape
      end
  end.
Definition marshal_string (s : list ascii) : list ascii := dquote :: escape_string s ++ [dquote].

(** ** Lemmas: every token consumes input *)

Lemma push_Some p r s rest :
  push p r = Some (s, rest) -> exists s', r = Some (s', rest) /\ s = p ++ s'.
Proof. destruct r as [[s' ?]|]; cbn; [|done]. intros [= <- ->]. eauto. Qed.

(** One way of consuming a literal's text: a first chunk, then the rest. *)
Lemma scan_string_step c r s rest :
  scan_string (c :: r) = Some (s, rest) ->
  (s = [] /\ rest = r) \/
  (exists r' p s', scan_string r' = Some (s', rest) /\ s = p ++ s' /\ length r' <= length r)%nat.
Proof.
  cbn [scan_string]. intros H.
  repeat match goal with
  | H : None = Some _ |- _ => discriminate H
  | H : push _ _ = Some _ |- _ =>
      apply push_Some in H as (s' & H & ->); right; do 3 eexists; split; [exact H|];
      split; [done|]; cbn; lia
  | H : (if ?b then _ else _) = Some _ |- _ => destruct b
  | H : match ?x with _ => _ end = Some _ |- _ => destruct x
  end.
  injection H as <- <-. by left.
Qed.

Lemma scan_string_consumes s x rest :
  scan_string s = Some (x, rest) -> (length rest < length s)%nat.
Proof.
  remember (length s) as n eqn:E. revert s x E. induction n as [n IH] using lt_wf_ind.
  intros [|c r] x -> H; [done|].
  apply scan_string_step in H as [[_ ->] | (r' & p & s' & H & _ & Hl)]; cbn; [lia|].
  eapply IH in H; [| |done]; cbn; lia.
Qed.

Lemma span_digits_spec s ds rest : span_digits s = (ds, rest) ->
  s = ds ++ rest /\ Forall (fun c => digit c = true) ds /\
  match rest with c :: _ => digit c = false | [] => True end.
Proof.
  revert ds rest. induction s as [|c s IH]; cbn; intros ds rest H.
  - by injection H as <- <-.
  - destruct (digit c) eqn:E.
    + destruct (span_digits s) as [d r]. injection H as <- <-.
      destruct (IH _ _ eq_refl) as (-> & ? & ?). by repeat constructor.
    + by injection H as <- <-.
Qed.

Lemma digits1_spec s ds rest : digits1 s = Some (ds, rest) ->
  s = ds ++ rest /\ Forall (fun c => digit c = true) ds /\ ds <> [].
Proof.
  unfold digits1. destruct (span_digits s) as [d r] eqn:E.
  apply span_digits_spec in E as (-> & ? & _). destruct d; [done|]. by intros [= <- <-].
Qed.

(** The parts of a scanned number, in the shape the grammar gives them. *)
Record well_formed_number (l : numlit) : Prop := {
  wf_whole_digits : Forall (fun c => digit c = true) (nl_whole l);
  wf_whole : nl_whole l <> [];
  wf_frac : forall f, nl_frac l = Some f -> Forall (fun c => digit c = true) f /\ f <> [];
  wf_exp : forall e sign ds, nl_exp l = Some (e, sign, ds) ->
    (e = "e"%char \/ e = "E"%char) /\ (sign = [] \/ sign = ["+"%char] \/ sign = ["-"%char]) /\
    Forall (fun c => digit c = true) ds /\ ds <> [] }.

Lemma scan_whole_spec s w rest : scan_whole s = Some (w, rest) ->
  s = w ++ rest /\ Forall (fun c => digit c = true) w /\ w <> [].
Proof.
  destruct s as [|c r]; cbn; [done|]. destruct (Ascii.eqb_spec c "0") as [->|_].
  - intros [= <- <-]. by repeat constructor.
  - apply digits1_spec.
Qed.

Lemma scan_frac_spec s f rest : scan_frac s = Some (f, rest) ->
  s = match f with Some f => "."%char :: f | None => [] end ++ rest /\
  forall g, f = Some g -> Forall (fun c => digit c = true) g /\ g <> [].
Proof.
  destruct s as [|c r]; cbn; [by intros [= <- <-]|].
  destruct (Ascii.eqb_spec c ".") as [->|_]; [|by intros [= <- <-]].
  destruct (digits1 r) as [[ds r']|] eqn:E; cbn; [|done]. intros [= <- <-].
  apply digits1_spec in E as (-> & ? & ?). split; [done|]. by intros ? [= <-].
Qed.

Lemma scan_exp_spec s x rest : scan_exp s = Some (x, rest) ->
  s = match x with Some (e, sign, ds) => e :: sign ++ ds | None => [] end ++ rest /\
  forall e sign ds, x = Some (e, sign, ds) ->
    (e = "e"%char \/ e = "E"%char) /\ (sign = [] \/ sign = ["+"%char] \/ sign = ["-"%char]) /\
    Forall (fun c => digit c = true) ds /\ ds <> [].
Proof.
  destruct s as [|c r]; cbn; [by intros [= <- <-]|].
  destruct (Ascii.eqb_spec c "e") as [->|He]; [|destruct (Ascii.eqb_spec c "E") as [->|HE]];
    cbn; [| |by intros [= <- <-]];
    (destruct r as [|g r']; [done|];
     destruct (Ascii.eqb_spec g "+") as [->|?]; [|destruct (Ascii.eqb_spec g "-") as [->|?]]; cbn;
     destruct (digits1 _) as [[ds r2]|] eqn:E; cbn; try done; intros [= <- <-];
     apply digits1_spec in E as (E & ? & ?); rewrite E;
     (split; [done|]); intros ??? [= <- <- <-]; auto 10).
Qed.

Lemma scan_number_spec s l rest :
  scan_number s = Some (l, rest) -> s = spell l ++ rest /\ well_formed_number l.
Proof.
  unfold scan_number. intros H.
  assert (exists (neg : bool) s1, s = (if neg then ["-"%char] else []) ++ s1 /\
    ('(whole, s2) ← scan_whole s1; '(frac, s3) ← scan_frac s2; '(ex, s4) ← scan_exp s3;
     Some (MkNumlit neg whole frac ex, s4)) = Some (l, rest)) as (neg & s1 & -> & H').
  { destruct s as [|c r]; [by exists false, []|].
    destruct (Ascii.eqb_spec c "-") as [->|_]; [by exists true, r | by exists false, (c :: r)]. }
  clear H. destruct (scan_whole s1) as [[w s2]|] eqn:E1; [|done].
  destruct (scan_frac s2) as [[f s3]|] eqn:E2; [|by cbn in H'; rewrite E2 in H'].
  destruct (scan_exp s3) as [[x s4]|] eqn:E3; [|by cbn in H'; rewrite E2 in H'; cbn in H'; rewrite E3 in H'].
  cbn in H'. rewrite E2 in H'. cbn in H'. rewrite E3 in H'. cbn in H'. injection H' as <- <-.
  apply scan_whole_spec in E1 as (-> & ? & ?). apply scan_frac_spec in E2 as (-> & ?).
  apply scan_exp_spec in E3 as (-> & ?). split; [|by split].
  unfold spell. cbn. by rewrite <- !app_assoc.
Qed.

Lemma strip_prefix_length p s r : strip_prefix p s = Some r -> (length r <= length s)%nat.
Proof. intros ->%strip_prefix_Some. rewrite length_app. lia. Qed.

Lemma scan_scalar_consumes c r t rest :
  scan_scalar c r = Some (t, rest) -> (length rest <= length r)%nat.
Proof.
  unfold scan_scalar. intros H.
  repeat match type of H with (if ?b then _ else _) = _ => destruct b end.
  - destruct (scan_string r) as [[? ?]|] eqn:E; cbn in H; simplify_eq.
    apply scan_string_consumes in E. lia.
  - destruct (strip_prefix _ r) eqn:E; cbn in H; simplify_eq. by eapply strip_prefix_length.
  - destruct (strip_prefix _ r) eqn:E; cbn in H; simplify_eq. by eapply strip_prefix_length.
  - destruct (strip_prefix _ r) eqn:E; cbn in H; simplify_eq. by eapply strip_prefix_length.
  - destruct (scan_number _) as [[l ?]|] eqn:E; cbn in H; simplify_eq.
    apply scan_number_spec in E as (E & [_ Hw _ _]). apply (f_equal length) in E.
    rewrite length_app in E. unfold spell in E. rewrite !length_app in E.
    destruct (nl_whole l); [done|]. cbn in *. lia.
Qed.

Lemma token_consumes s st stack t d :
  token s st stack = Tok t d -> (length (d_rest d) < length s)%nat.
Proof.
  revert st. induction s as [|c r IH]; intros st; cbn [token]; [done|]. intros H.
  unfold open_scope, close_scope in H.
  repeat match type of H with
  | (if ?b then _ else _) = _ => destruct b
  | match ?b with _ => _ end = _ => let E := fresh "E" in destruct b eqn:E
  end; simplify_eq; cbn [d_rest length]; try (by apply IH in H; lia); try lia.
  - apply scan_string_consumes in E. lia.
  - apply scan_scalar_consumes in E. lia.
Qed.

(** A number token is a well-formed number's text. *)
Lemma token_number s st stack text d :
  token s st stack = Tok (Number text) d -> exists l, well_formed_number l /\ text = spell l.
Proof.
  revert st. induction s as [|c r IH]; intros st; cbn [token]; [done|]. intros H.
  unfold open_scope, close_scope in H.
  repeat match type of H with
  | (if ?b then _ else _) = _ => destruct b
  | match ?b with _ => _ end = _ => let E := fresh "E" in destruct b eqn:E
  end; simplify_eq; eauto. unfold scan_scalar in E.
  repeat match type of E with (if ?b then _ else _) = _ => destruct b end;
    try (by destruct (strip_prefix _ _); cbn in E).
  - by destruct (scan_string _) as [[]|]; cbn in E.
  - destruct (scan_number _) as [[nl ?]|] eqn:En; cbn in E; simplify_eq.
    apply scan_number_spec in En as [_ ?]. eauto.
Qed.
