(* ===== verification/CanonicalJson.v ===== *)
(** * Bounded exact JSON canonicalisation ([internal/canonicaljson])

    [CanonicalJSON] decodes one JSON value from a token stream, rejecting
    duplicate keys, deep nesting and anything whose canonical form would not
    fit the byte limit, and prints it with sorted keys and exact numbers.  Its
    output is hashed into request digests, so what matters is that equal
    values get equal text and that the running budget really is the size of
    the text to come. *)

From Stdlib Require Import Ascii QArith Qpower DecimalString.
From stdpp Require Import base tactics list sets strings numbers.
From S2P Require Import Prelude GoStrings GoJson.
Open Scope string_scope.
Open Scope list_scope.

(** ** Definitions *)

Definition ErrInvalidJSON : error := ErrorsNew "invalid bounded JSON".
Definition MaxBytes : Z := 65536.
Definition MaxEvidenceBytes : Z := (32 * 1024 * 1024)%Z.

(** The dynamic values the decoder builds; an object is the map's entries in
    insertion order (duplicates are refused). *)
Inductive value :=
| VNull | VBool (b : bool) | VNumber (text : list ascii) | VString (s : list ascii)
| VArray (l : list value) | VObject (members : list (list ascii * value)).

(** [canonicalNumber] on the text of a JSON number. *)
Definition canonicalNumber (number : string) : result string :=
  if (slen number >? 128)%Z then Err ErrInvalidJSON
  else
    let negative := HasPrefix number "-" in
    let number := if negative then TrimPrefix number "-" else number in
    let '(mantissa, exponentText, hasExponent) := Cut (ToLower number) "e" in
    exponent ← (if hasExponent then
                  match ParseInt 64 exponentText with
                  | Some parsed =>
                      if ((parsed <? -4096) || (parsed >? 4096))%Z then Err ErrInvalidJSON
                      else Ok parsed
                  | None => Err ErrInvalidJSON
                  end
                else Ok 0%Z);
    let '(whole, fraction, _) := Cut mantissa "." in
    let coefficient := TrimLeft (whole +:+ fraction) "0" in
    if coefficient == "" then Ok "0"
    else
      let trimmed := TrimRight coefficient "0" in
      let exponent := (exponent - slen fraction + (slen coefficient - slen trimmed))%Z in
      let coefficient := if negative then "-" +:+ trimmed else trimmed in
      Ok (if (exponent >? 0)%Z then coefficient +:+ Repeat "0" exponent
          else if (exponent <? 0)%Z then coefficient +:+ "e" +:+ FormatInt exponent
          else coefficient).

Definition spend (budget size : Z) : option Z :=
  if ((size <? 0) || (budget <? size))%Z then None else Some (budget - size)%Z.
Definition spendString (budget : Z) (s : list ascii) : option Z :=
  spend budget (len (marshal_string s)).

(** The outcome of the recursive decoder; every failure is [ErrInvalid]. *)
Inductive outcome (A : Type) := OutOfFuel | Fail | Done (a : A) (d : Decoder) (budget : Z).
Arguments OutOfFuel {A}. Arguments Fail {A}. Arguments Done {A} _ _ _.

Definition done_if {A} (o : option Z) (a : A) (d : Decoder) : outcome A :=
  match o with Some b => Done a d b | None => Fail end.
(** The closing delimiter after the last element. *)
Definition expect_end {A} (c : ascii) (a : A) (d : Decoder) (budget : Z) : outcome A :=
  match decoder_Token d with
  | Tok (Delim e) d' => if Ascii.eqb e c then Done a d' budget else Fail
  | _ => Fail
  end.

Fixpoint decodeValue (fuel : nat) (d : Decoder) (depth budget : Z) : outcome value :=
  match fuel with
  | O => OutOfFuel
  | S fuel =>
      if (depth >? 32)%Z then Fail
      else
        match decoder_Token d with
        | TokEOF | TokErr => Fail
        | Tok (Delim c) d =>
            if Ascii.eqb c "{" then
              match spend budget 2 with
              | None => Fail
              | Some budget =>
                  match decodeMembers fuel d depth budget [] with
                  | Done object d budget => expect_end "}" (VObject object) d budget
                  | Fail => Fail | OutOfFuel => OutOfFuel
                  end
              end
            else if Ascii.eqb c "[" then
              match spend budget 2 with
              | None => Fail
              | Some budget =>
                  match decodeElements fuel d depth budget [] with
                  | Done array d budget => expect_end "]" (VArray array) d budget
                  | Fail => Fail | OutOfFuel => OutOfFuel
                  end
              end
            else Fail
        | Tok (Number text) d =>
            match canonicalNumber (unchars text) with
            | Ok number => done_if (spend budget (slen number)) (VNumber (chars number)) d
            | Err _ => Fail
            end
        | Tok (Str s) d => done_if (spendString budget s) (VString s) d
        | Tok (Bool b) d => done_if (spend budget (if b then 4 else 5)) (VBool b) d
        | Tok Null d => done_if (spend budget 4) VNull d
        end
  end
(** [for decoder.More()] over the members of an object. *)
with decodeMembers (fuel : nat) (d : Decoder) (depth budget : Z)
    (object : list (list ascii * value)) : outcome (list (list ascii * value)) :=
  match fuel with
  | O => OutOfFuel
  | S fuel =>
      if decoder_More d then
        match decoder_Token d with
        | Tok (Str name) d =>
            if bool_decide (name ∈ object.*1) then Fail
            else
              match (b ← spendString budget name; b ← spend b 1;
                     if (len object != 0%Z) then spend b 1 else Some b) with
              | None => Fail
              | Some budget =>
                  match decodeValue fuel d (depth + 1) budget with
                  | Done child d budget =>
                      decodeMembers fuel d depth budget (object ++ [(name, child)])
                  | Fail => Fail | OutOfFuel => OutOfFuel
                  end
              end
        | _ => Fail
        end
      else Done object d budget
  end
(** [for decoder.More()] over the elements of an array. *)
with decodeElements (fuel : nat) (d : Decoder) (depth budget : Z) (array : list value) :
    outcome (list value) :=
  match fuel with
  | O => OutOfFuel
  | S fuel =>
      if decoder_More d then
        match (if (len array != 0%Z) then spend budget 1 else Some budget) with
        | None => Fail
        | Some budget =>
            match decodeValue fuel d (depth + 1) budget with
            | Done child d budget => decodeElements fuel d depth budget (array ++ [child])
            | Fail => Fail | OutOfFuel => OutOfFuel
            end
        end
      else Done array d budget
  end.

(** [json.Marshal] of a decoded value: members sorted by key. *)
Definition sort_members : list (list ascii * list ascii) -> list (list ascii * list ascii) :=
  sort_by (fun m => unchars m.1).
Definition member_text (m : list ascii * list ascii) : list ascii :=
  marshal_string m.1 ++ ":"%char :: m.2.

Fixpoint marshal (v : value) : list ascii :=
  match v with
  | VNull => chars "null"
  | VBool true => chars "true"
  | VBool false => chars "false"
  | VNumber text => text
  | VString s => marshal_string s
  | VArray l => "["%char :: join_chars (chars ",") (map marshal l) ++ ["]"%char]
  | VObject ms =>
      "{"%char ::
      join_chars (chars ",") (map member_text (sort_members (map (fun m => (m.1, marshal m.2)) ms)))
      ++ ["}"%char]
  end.
(** [Marshal] refuses a [json.Number] that is not a number. *)
Fixpoint marshalable (v : value) : bool :=
  match v with
  | VNumber text => isValidNumber text
  | VArray l => forallb marshalable l
  | VObject ms => forallb (fun m => marshalable m.2) ms
  | _ => true
  end.
Definition json_Marshal (v : value) : result (list ascii) :=
  if marshalable v then Ok (marshal v) else Err (ErrorsNew "json: invalid number literal").

(** Two nested calls consume at least a byte, so this much fuel is enough
    ([canonicalBounded_terminates]). *)
Definition decode_fuel (input : list ascii) : nat := S (2 * length input).

Definition canonicalBounded (input : list ascii) (limit : Z) : result (list ascii) :=
  if (len input == 0%Z) || (len input >? limit)%Z || negb (utf8_Valid input)
  then Err ErrInvalidJSON
  else
    match decodeValue (decode_fuel input) (NewDecoder input) 0 limit with
    | Done v d _ =>
        match decoder_Token d with
        | TokEOF =>
            match json_Marshal v with
            | Ok output => if (len output >? limit)%Z then Err ErrInvalidJSON else Ok output
            | Err _ => Err ErrInvalidJSON
            end
        | _ => Err ErrInvalidJSON
        end
    | _ => Err ErrInvalidJSON
    end.
Definition CanonicalJSON (input : list ascii) : result (list ascii) :=
  canonicalBounded input MaxBytes.
Definition CanonicalEvidenceJSON (input : list ascii) : result (list ascii) :=
  canonicalBounded input MaxEvidenceBytes.

(** ** Examples (from the source's tests) *)

Definition show_result (r : result (list ascii)) : result string :=
  match r with Ok l => Ok (unchars l) | Err e => Err e end.
Definition q (s : string) : string := String dquote (s +:+ String dquote "").
Definition spelling_a : string :=
  "{" +:+ q "z" +:+ ":-0.0, " +:+ q "a" +:+ ":9007199254740993," +:+ q "n" +:+ ":20}".
Definition spelling_b : string :=
  "{" +:+ q "n" +:+ ":2e1," +:+ q "a" +:+ ":9007199254740993," +:+ q "z" +:+ ":0} ".
Definition spelling_canonical : string :=
  "{" +:+ q "a" +:+ ":9007199254740993," +:+ q "n" +:+ ":20," +:+ q "z" +:+ ":0}".

Example CanonicalJSON_spellings :
  show_result (CanonicalJSON (chars spelling_a)) = Ok spelling_canonical /\
  show_result (CanonicalJSON (chars spelling_b)) = Ok spelling_canonical.
Proof. vm_compute. done. Qed.
Example CanonicalJSON_duplicate_escaped :
  CanonicalJSON (chars ("{" +:+ q "a" +:+ ":1," +:+ q "\u0061" +:+ ":2}")) = Err ErrInvalidJSON.
Proof. vm_compute. done. Qed.
Example CanonicalJSON_trailing : CanonicalJSON (chars "{}{}") = Err ErrInvalidJSON.
Proof. vm_compute. done. Qed.
Example CanonicalJSON_exponent : CanonicalJSON (chars "1e4097") = Err ErrInvalidJSON.
Proof. vm_compute. done. Qed.
Example CanonicalJSON_tokens :
  show_result (CanonicalJSON (chars ("[1,[true , null],{},-1.50e-3," +:+ q "<\u00e9" +:+ "]"))) =
  Ok ("[1,[true,null],{},-15e-4," +:+ q ("\u003c" +:+ unchars (encode_rune 233)) +:+ "]").
Proof. vm_compute. done. Qed.
Example CanonicalJSON_commas :
  (fun s => CanonicalJSON (chars s)) <$> ["[1,]"; "[1 2]"; "[,1]"; "{,}"; "[1}"; "01"; "1."; "-"] =
  replicate 8 (Err ErrInvalidJSON).
Proof. vm_compute. done. Qed.

(** ** Numbers *)

(** The denotation of digits, of a decimal and of a JSON number. *)
Definition digit_value (c : ascii) : Z := (Z.of_N (code c) - 48)%Z.
Definition horner (acc : Z) (l : list ascii) : Z :=
  fold_left (fun a c => 10 * a + digit_value c)%Z l acc.
Definition decimal (coefficient exponent : Z) : Q :=
  (inject_Z coefficient * inject_Z 10 ^ exponent)%Q.
Definition exponent_value (l : numlit) : Z :=
  match nl_exp l with
  | Some (_, sign, ds) =>
      if bool_decide (sign = ["-"%char]) then (- horner 0 ds)%Z else horner 0 ds
  | None => 0%Z
  end.
Definition fraction (l : numlit) : list ascii :=
  match nl_frac l with Some f => f | None => [] end.
Definition number_value (l : numlit) : Q :=
  decimal ((if nl_neg l then -1 else 1) * horner 0 (nl_whole l ++ fraction l))
    (exponent_value l - len (fraction l)).

Lemma digit_cases c : digit c = true ->
  c ∈ ["0"; "1"; "2"; "3"; "4"; "5"; "6"; "7"; "8"; "9"]%char.
Proof.
  assert (forall c, (negb (digit c) || bool_decide (c ∈ chars "0123456789"))%bool = true) as H
    by (intros [[] [] [] [] [] [] [] []]; vm_compute; reflexivity).
  intros E. specialize (H c). rewrite E in H. by apply bool_decide_eq_true in H.
Qed.

Lemma digit_value_range c : digit c = true -> (0 <= digit_value c <= 9)%Z.
Proof.
  unfold digit, between, digit_value. intros [H1 H2]%andb_true_iff.
  apply N.leb_le in H1, H2. lia.
Qed.

Lemma horner_cons acc c l : horner acc (c :: l) = horner (10 * acc + digit_value c) l.
Proof. done. Qed.
Lemma horner_app acc l k : horner acc (l ++ k) = horner (horner acc l) k.
Proof. apply fold_left_app. Qed.

Lemma horner_zeros acc n : horner acc (replicate n "0"%char) = (acc * 10 ^ Z.of_nat n)%Z.
Proof.
  revert acc. induction n as [|n IH]; intros acc; [cbn; lia|].
  change (horner (10 * acc + 0) (replicate n "0"%char) = (acc * 10 ^ Z.of_nat (S n))%Z).
  rewrite IH, Nat2Z.inj_succ, Z.pow_succ_r by lia. ring.
Qed.

(** Text of the standard library's decimals denotes what [horner] says. *)
Lemma of_uint_horner s : Forall (fun c => digit c = true) (chars s) ->
  exists d, NilEmpty.uint_of_string s = Some d /\
    (forall acc, Z.pos (Pos.of_uint_acc d acc) = horner (Z.pos acc) (chars s)) /\
    Z.of_uint d = horner 0 (chars s).
Proof.
  induction s as [|c s IH]; intros H; [by exists Decimal.Nil|].
  inversion H as [|? ? Hc Hs]; subst. destruct (IH Hs) as (d & Hd & Hacc & H0).
  apply digit_cases in Hc. cbn [NilEmpty.uint_of_string]. rewrite Hd.
  repeat (apply elem_of_cons in Hc as [-> | Hc]); [.. | by apply not_elem_of_nil in Hc];
    cbn [uint_of_char]; eexists; (split; [reflexivity|]);
    (split; [intros acc; cbn [Pos.of_uint_acc chars]; rewrite Hacc, horner_cons; f_equal;
             unfold digit_value; cbn [code]; vm_compute (Z.of_N _); lia|]).
  1: exact H0.
  all: unfold Z.of_uint, Pos.of_uint; cbn [Z.of_N chars]; rewrite Hacc; done.
Qed.

Lemma parse_digits_horner s : s <> "" -> Forall (fun c => digit c = true) (chars s) ->
  parse_digits s = Some (horner 0 (chars s)).
Proof.
  intros Hn H. destruct (of_uint_horner s H) as (d & Hd & _ & H0).
  unfold parse_digits. destruct s; [done|]. by rewrite Hd, H0.
Qed.

Lemma digits_exclude c l : digit c = false -> Forall (fun c => digit c = true) l -> c ∉ l.
Proof. intros Hc HF Hin. rewrite list.Forall_forall in HF. apply HF in Hin. congruence. Qed.

Lemma lower_digits l : Forall (fun c => digit c = true) l -> lower_ascii <$> l = l.
Proof.
  induction 1 as [|c l Hc _ IH]; [done|]. rewrite fmap_cons, IH. f_equal.
  apply digit_cases in Hc.
  repeat (apply elem_of_cons in Hc as [-> | Hc]); [done.. | by apply not_elem_of_nil in Hc].
Qed.

Lemma ParseInt_sign sign ds z :
  sign = [] \/ sign = ["+"%char] \/ sign = ["-"%char] ->
  Forall (fun c => digit c = true) ds -> ds <> [] ->
  ParseInt 64 (unchars (sign ++ ds)) = Some z ->
  z = if bool_decide (sign = ["-"%char]) then (- horner 0 ds)%Z else horner 0 ds.
Proof.
  intros Hs Hd Hn.
  assert (parse_digits (unchars ds) = Some (horner 0 ds)) as Hp.
  { rewrite <- (chars_unchars ds) at 2. apply parse_digits_horner; [|by rewrite chars_unchars].
    by destruct ds. }
  assert (forall y, (if ((- 2 ^ (64 - 1) <=? y) && (y <? 2 ^ (64 - 1)))%Z then Some y else None)
    = Some z -> z = y) as Hr by (intros y; destruct (_ && _)%bool; congruence).
  destruct Hs as [-> | [-> | ->]]; cbn [app unchars]; unfold ParseInt.
  - destruct ds as [|c ds]; [done|]. inversion Hd as [|? ? Hc _]; subst. apply digit_cases in Hc.
    cbn [unchars] in *. repeat (apply elem_of_cons in Hc as [-> | Hc]);
      [.. | by apply not_elem_of_nil in Hc]; rewrite Hp; apply Hr.
  - rewrite Hp. apply Hr.
  - rewrite Hp. apply Hr.
Qed.

(** What [canonicalNumber] makes of a number, by its parts. *)
Definition zero_run : ascii := "0"%char.
Definition significant (l : numlit) : list ascii :=
  trim_left (Ascii.eqb zero_run) (nl_whole l ++ fraction l).
Definition core (l : numlit) : list ascii :=
  rev (trim_left (Ascii.eqb zero_run) (rev (significant l))).
Definition core_exponent (l : numlit) : Z :=
  (exponent_value l - len (fraction l) + (len (significant l) - len (core l)))%Z.
Definition number_text (neg : bool) (c : list ascii) (x : Z) : list ascii :=
  (if neg then ["-"%char] else []) ++ c ++
  (if (x >? 0)%Z then replicate (Z.to_nat x) zero_run
   else if (x <? 0)%Z then "e"%char :: chars (FormatInt x) else []).
Definition canonical_text (l : numlit) : list ascii :=
  if bool_decide (significant l = []) then [zero_run]
  else number_text (nl_neg l) (core l) (core_exponent l).

(** The text after the sign. *)
Definition unsigned_text (l : numlit) : list ascii :=
  nl_whole l ++ (match nl_frac l with Some f => "."%char :: f | None => [] end) ++
  (match nl_exp l with Some (e, sign, ds) => e :: sign ++ ds | None => [] end).

Lemma spell_sign l : well_formed_number l ->
  HasPrefix (unchars (spell l)) "-" = nl_neg l /\
  (if nl_neg l then TrimPrefix (unchars (spell l)) "-" else unchars (spell l)) =
    unchars (unsigned_text l).
Proof.
  intros [Hw Hn _ _]. unfold HasPrefix, TrimPrefix, spell, unsigned_text. rewrite chars_unchars.
  destruct (nl_neg l); [done|]. split; [|done].
  destruct (nl_whole l) as [|c w]; [done|]. inversion Hw as [|? ? Hc _]; subst.
  cbn [app chars strip_prefix]. by destruct (Ascii.eqb_spec "-" c) as [<-|].
Qed.

Lemma mantissa_text l : well_formed_number l ->
  Cut (unchars (nl_whole l ++ match nl_frac l with Some f => "."%char :: f | None => [] end)) "." =
    (unchars (nl_whole l), unchars (fraction l), bool_decide (nl_frac l <> None)).
Proof.
  intros [Hw _ Hf _]. unfold Cut, fraction. rewrite chars_unchars.
  pose proof (digits_exclude "." _ eq_refl Hw) as Hd. destruct (nl_frac l) as [f|].
  - cbn [chars]. rewrite (cut_at_app "." _ _ Hd). done.
  - rewrite app_nil_r. cbn [chars]. rewrite (cut_at_none "." _ Hd). done.
Qed.

Lemma exponent_cut l : well_formed_number l ->
  Cut (ToLower (unchars (unsigned_text l))) "e" =
    (unchars (nl_whole l ++ match nl_frac l with Some f => "."%char :: f | None => [] end),
     match nl_exp l with Some (_, sign, ds) => unchars (sign ++ ds) | None => "" end,
     bool_decide (nl_exp l <> None)).
Proof.
  intros [Hw _ Hf He]. unfold Cut, ToLower, unsigned_text. rewrite !chars_unchars.
  assert (forall f, nl_frac l = Some f -> Forall (fun c => digit c = true) f) as Hf'
    by (intros f E; by apply Hf).
  set (m := match nl_frac l with Some f => "."%char :: f | None => [] end).
  assert (lower_ascii <$> nl_whole l ++ m = nl_whole l ++ m /\ "e"%char ∉ nl_whole l ++ m) as [Hl Hm].
  { rewrite fmap_app, not_elem_of_app, (lower_digits _ Hw). subst m.
    pose proof (digits_exclude "e" _ eq_refl Hw). destruct (nl_frac l) as [f|]; [|set_solver].
    rewrite fmap_cons, (lower_digits f) by auto.
    pose proof (digits_exclude "e" _ eq_refl (Hf' f eq_refl)). split; [done|]. set_solver. }
  rewrite app_assoc, fmap_app, Hl.
  destruct (nl_exp l) as [[[e sign] ds]|] eqn:Ee.
  - destruct (He _ _ _ eq_refl) as (Hee & Hs & Hds & _).
    assert (lower_ascii e = "e"%char) as Ele by (by destruct Hee as [-> | ->]).
    rewrite fmap_cons, Ele, fmap_app, (lower_digits ds) by done.
    assert (lower_ascii <$> sign = sign) as -> by (by destruct Hs as [-> | [-> | ->]]).
    cbn [chars]. rewrite (cut_at_app "e" _ _ Hm). done.
  - rewrite fmap_nil, app_nil_r. cbn [chars]. rewrite (cut_at_none "e" _ Hm). done.
Qed.

Lemma unchars_nil l : unchars l = "" <-> l = [].
Proof. by destruct l. Qed.
Lemma slen_unchars l : slen (unchars l) = len l.
Proof. unfold slen, len. by rewrite <- length_chars, chars_unchars. Qed.

Lemma canonicalNumber_spell l c : well_formed_number l ->
  canonicalNumber (unchars (spell l)) = Ok c -> c = unchars (canonical_text l).
Proof.
  intros Hwf H. unfold canonicalNumber in H. ok_inv_step; [done|].
  destruct (spell_sign l Hwf) as [E1 E2]. rewrite E1, E2 in H. rewrite (exponent_cut l Hwf) in H.
  apply bind_ok in H as (x & Hx & H). rewrite (mantissa_text l Hwf) in H.
  assert (x = exponent_value l) as ->.
  { clear H. unfold exponent_value. destruct (nl_exp l) as [[[e sign] ds]|] eqn:Ee;
      [rewrite bool_decide_eq_true_2 in Hx by done | by injection Hx as <-].
    ok_inv. subst. destruct (wf_exp _ Hwf _ _ _ Ee) as (_ & ? & ? & ?). by eapply ParseInt_sign. }
  clear Hx. cbv zeta in H. unfold TrimLeft, TrimRight in H.
  rewrite chars_app, !chars_unchars in H. rewrite (bool_decide_ext _ (significant l = [])) in H
    by apply unchars_nil.
  unfold canonical_text. destruct (bool_decide_reflect (significant l = [])) as [E|E]; [by injection H as <-|].
  rewrite !slen_unchars in H. injection H as <-.
  change (trim_left (Ascii.eqb "0") (nl_whole l ++ fraction l)) with (significant l).
  change (rev (trim_left (Ascii.eqb "0") (rev (significant l)))) with (core l).
  change (exponent_value l - len (fraction l) + (len (significant l) - len (core l)))%Z
    with (core_exponent l).
  unfold number_text. apply chars_inj. rewrite chars_unchars.
  destruct (nl_neg l), (core_exponent l >? 0)%Z, (core_exponent l <? 0)%Z;
    unfold Repeat; rewrite ?chars_app, ?chars_unchars, ?app_nil_r, ?app_nil_l, <- ?app_assoc; done.
Qed.

Lemma horner_acc acc l : horner acc l = (acc * 10 ^ len l + horner 0 l)%Z.
Proof.
  revert acc. induction l as [|c l IH]; intros acc.
  { change (acc = acc * 1 + 0)%Z. lia. }
  rewrite !horner_cons, IH, (IH (10 * 0 + _)%Z). unfold len. cbn [length].
  rewrite Nat2Z.inj_succ, Z.pow_succ_r by lia. ring.
Qed.

Lemma horner_range l : Forall (fun c => digit c = true) l -> (0 <= horner 0 l < 10 ^ len l)%Z.
Proof.
  induction 1 as [|c l Hc _ IH]; [done|]. rewrite horner_cons, horner_acc.
  apply digit_value_range in Hc. unfold len in *. cbn [length].
  rewrite Nat2Z.inj_succ, Z.pow_succ_r by lia. nia.
Qed.

Lemma digit_value_inj c d : digit_value c = digit_value d -> c = d.
Proof.
  unfold digit_value, code. intros H. rewrite <- (ascii_N_embedding c), <- (ascii_N_embedding d).
  f_equal. lia.
Qed.

Lemma horner_inj_length l k :
  Forall (fun c => digit c = true) l -> Forall (fun c => digit c = true) k ->
  length l = length k -> horner 0 l = horner 0 k -> l = k.
Proof.
  intros Hl. revert k. induction Hl as [|c l Hc Hl IH]; intros [|d k] Hk Hlen E; try done.
  inversion Hk as [|? ? Hd Hk']; subst. rewrite !horner_cons, !(horner_acc (10 * 0 + _)) in E.
  injection Hlen as Hlen. unfold len in E. rewrite Hlen in E.
  pose proof (horner_range l Hl) as Rl. pose proof (horner_range k Hk') as Rk.
  unfold len in Rl, Rk. rewrite Hlen in Rl. apply digit_value_range in Hc, Hd.
  assert (digit_value c = digit_value d) as Ev by nia.
  f_equal; [by apply digit_value_inj|]. apply IH; [done..|]. rewrite Ev in E. lia.
Qed.

Lemma digit_nonzero c : digit c = true -> c <> "0"%char -> (1 <= digit_value c <= 9)%Z.
Proof.
  intros Hd Hn. pose proof (digit_value_range c Hd).
  assert (digit_value c <> digit_value "0") by (intros E; by apply digit_value_inj in E).
  change (digit_value "0") with 0%Z in *. lia.
Qed.

(** Canonical coefficients: digits with no zero at either end. *)
Record coefficient (l : list ascii) : Prop := {
  cf_digits : Forall (fun c => digit c = true) l;
  cf_head : match head l with Some d => d <> "0"%char | None => False end;
  cf_last : match list.last l with Some d => d <> "0"%char | None => False end }.

Lemma coefficient_low l : coefficient l -> (10 ^ (len l - 1) <= horner 0 l)%Z.
Proof.
  intros [Hd Hh _]. destruct l as [|c l]; [done|]. cbn in Hh.
  inversion Hd as [|? ? Hc Hl]; subst. apply digit_nonzero in Hc; [|done].
  rewrite horner_cons, horner_acc. pose proof (horner_range l Hl). unfold len in *. cbn [length].
  replace (Z.of_nat (S (length l)) - 1)%Z with (Z.of_nat (length l)) by lia. nia.
Qed.

Lemma coefficient_mod l : coefficient l -> (horner 0 l `mod` 10 <> 0)%Z.
Proof.
  intros [Hd _ Hl]. destruct (list.last l) as [d|] eqn:E; [|done].
  apply last_Some in E as [k ->]. rewrite horner_app. cbn.
  apply Forall_app in Hd as [_ Hd]. inversion Hd as [|? ? Hd' _]; subst.
  apply digit_nonzero in Hd'; [|done].
  rewrite Z.add_comm, Z.mul_comm, Z.mod_add, Z.mod_small by lia. lia.
Qed.

Lemma coefficient_inj l k : coefficient l -> coefficient k -> horner 0 l = horner 0 k -> l = k.
Proof.
  intros Hl Hk E. pose proof (coefficient_low _ Hl). pose proof (coefficient_low _ Hk).
  pose proof (horner_range _ (cf_digits _ Hl)). pose proof (horner_range _ (cf_digits _ Hk)).
  apply horner_inj_length; [apply Hl | apply Hk | | done].
  assert (~ (len l < len k) /\ ~ (len k < len l))%Z; [|unfold len in *; lia].
  split; intros Hlt.
  - assert (10 ^ len l <= 10 ^ (len k - 1))%Z by (apply Z.pow_le_mono_r; lia). lia.
  - assert (10 ^ len k <= 10 ^ (len l - 1))%Z by (apply Z.pow_le_mono_r; lia). lia.
Qed.

(** Decimals *)
Lemma ten_nonzero : ~ (inject_Z 10 == 0)%Q.
Proof. done. Qed.

Lemma decimal_shift c m x : (0 <= m)%Z -> (decimal (c * 10 ^ m) x == decimal c (x + m))%Q.
Proof.
  intros Hm. unfold decimal. rewrite inject_Z_mult, (Zpower_Qpower 10 m Hm).
  rewrite Qpower_plus by exact ten_nonzero. ring.
Qed.

Lemma decimal_cancel a b x : (decimal a x == decimal b x)%Q -> a = b.
Proof.
  unfold decimal. intros E. apply Qmult_inj_r in E; [by apply inject_Z_injective|].
  by apply Qpower_not_0.
Qed.

Lemma decimal_inj_le a b x y : (x <= y)%Z -> (a `mod` 10 <> 0)%Z ->
  (decimal a x == decimal b y)%Q -> a = b /\ x = y.
Proof.
  intros Hle Ha E.
  replace y with (x + (y - x))%Z in E by lia. rewrite <- decimal_shift in E by lia.
  apply decimal_cancel in E. destruct (decide (x = y)) as [->|Hne].
  - split; [|done]. rewrite E, Z.sub_diag. lia.
  - exfalso. apply Ha. rewrite E. replace (y - x)%Z with (Z.succ (y - x - 1)) by lia.
    rewrite Z.pow_succ_r, Z.mul_comm, <- Z.mul_assoc, Z.mul_comm by lia. apply Z.mod_mul. lia.
Qed.

Lemma decimal_inj a b x y : (a `mod` 10 <> 0)%Z -> (b `mod` 10 <> 0)%Z ->
  (decimal a x == decimal b y)%Q -> a = b /\ x = y.
Proof.
  intros Ha Hb E. destruct (Z.le_ge_cases x y) as [H|H]; [by apply decimal_inj_le|].
  destruct (decimal_inj_le b a y x) as [-> ->]; [done..|by symmetry|done].
Qed.

Lemma number_digits l : well_formed_number l ->
  Forall (fun c => digit c = true) (nl_whole l ++ fraction l).
Proof.
  intros [Hw _ Hf _]. apply Forall_app. split; [done|]. unfold fraction.
  destruct (nl_frac l) as [f|]; [by apply Hf | done].
Qed.

(** Trimming zeros keeps the denotation and leaves a canonical coefficient. *)
Lemma core_spec l : well_formed_number l -> significant l <> [] ->
  coefficient (core l) /\ (0 <= len (significant l) - len (core l))%Z /\
  horner 0 (nl_whole l ++ fraction l) =
    (horner 0 (core l) * 10 ^ (len (significant l) - len (core l)))%Z.
Proof.
  intros Hwf Hs. pose proof (number_digits l Hwf) as HF.
  destruct (trim_left_spec zero_run (nl_whole l ++ fraction l)) as (n & E & Hh).
  fold (significant l) in E, Hh.
  destruct (trim_right_spec zero_run (significant l)) as (m & E' & Hl). fold (core l) in E', Hl.
  assert (len (significant l) - len (core l) = Z.of_nat m)%Z as Hm.
  { unfold len. rewrite E' at 1. rewrite length_app, length_replicate. lia. }
  rewrite E in HF. apply Forall_app in HF as [_ HF]. rewrite E' in HF.
  apply Forall_app in HF as [HF _]. split; [|split].
  - split; [done|..].
    + rewrite E' in Hh. destruct (core l) as [|c k]; [|done]. by destruct m.
    + destruct (list.last (core l)) eqn:El; [done|]. apply last_None in El.
      rewrite El in E'. rewrite E' in Hh, Hs. by destruct m.
  - lia.
  - rewrite Hm, E, horner_app, horner_zeros, Z.mul_0_l, E', horner_app at 1. apply horner_zeros.
Qed.

Lemma significant_nil l : significant l = [] -> horner 0 (nl_whole l ++ fraction l) = 0%Z.
Proof.
  intros E. destruct (trim_left_spec zero_run (nl_whole l ++ fraction l)) as (n & E' & _).
  fold (significant l) in E'. rewrite E', E, app_nil_r, horner_zeros. lia.
Qed.

Definition signed (neg : bool) (z : Z) : Z := ((if neg then -1 else 1) * z)%Z.

Lemma number_value_core l : well_formed_number l -> significant l <> [] ->
  (number_value l == decimal (signed (nl_neg l) (horner 0 (core l))) (core_exponent l))%Q.
Proof.
  intros Hwf Hs. destruct (core_spec l Hwf Hs) as (_ & Hm & E).
  unfold number_value, core_exponent, signed. rewrite E, Z.mul_assoc. by apply decimal_shift.
Qed.

Lemma signed_mod neg z : (z `mod` 10 <> 0)%Z -> (signed neg z `mod` 10 <> 0)%Z.
Proof.
  unfold signed. intros H. destruct neg; [|by rewrite Z.mul_1_l].
  intros E. apply H. replace z with (- (-1 * z))%Z by lia. by rewrite Z.mod_opp_l_z.
Qed.

Lemma signed_inj n1 n2 z1 z2 : (0 < z1)%Z -> (0 < z2)%Z ->
  signed n1 z1 = signed n2 z2 -> n1 = n2 /\ z1 = z2.
Proof. unfold signed. destruct n1, n2; intros; split; (done || lia). Qed.

Lemma coefficient_pos l : coefficient l -> (0 < horner 0 l)%Z.
Proof.
  intros H. pose proof (coefficient_low l H). pose proof (horner_range l (cf_digits l H)).
  pose proof (coefficient_mod l H). assert (horner 0 l <> 0)%Z by (intros E; by rewrite E in *). lia.
Qed.

(** The digits up to the first ["e"] of a number text, and what follows. *)
Lemma tail_digits x : (0 <= x)%Z ->
  number_text false [] x = replicate (Z.to_nat x) zero_run.
Proof.
  intros Hx. unfold number_text. cbn [app]. destruct (Z.gtb_spec x 0); [done|].
  destruct (Z.ltb_spec x 0); [lia|]. by replace x with 0%Z by lia.
Qed.

Lemma number_text_split neg c x : number_text neg c x =
  (if neg then ["-"%char] else []) ++ c ++ number_text false [] x.
Proof. done. Qed.

Lemma number_text_neg_exp x : (x < 0)%Z -> number_text false [] x = "e"%char :: chars (FormatInt x).
Proof.
  intros Hx. unfold number_text. cbn [app]. destruct (Z.gtb_spec x 0); [lia|].
  by destruct (Z.ltb_spec x 0); [|lia].
Qed.

(** Digits followed by zeros determine both when the digits end in a nonzero. *)
Lemma app_zeros_inj l k n m : coefficient l -> coefficient k ->
  l ++ replicate n zero_run = k ++ replicate m zero_run -> l = k /\ n = m.
Proof.
  intros Hl Hk E.
  assert (decimal (horner 0 l) (Z.of_nat n) == decimal (horner 0 k) (Z.of_nat m))%Q as Ed.
  { apply (f_equal (horner 0)) in E. rewrite !horner_app, !horner_zeros in E.
    rewrite <- (Z.add_0_l (Z.of_nat n)), <- (Z.add_0_l (Z.of_nat m)).
    rewrite <- !decimal_shift, E by lia. reflexivity. }
  apply decimal_inj in Ed as [E1 E2]; [|by apply coefficient_mod..].
  split; [by apply coefficient_inj | lia].
Qed.

Lemma number_text_inj n1 c1 x1 n2 c2 x2 : coefficient c1 -> coefficient c2 ->
  number_text n1 c1 x1 = number_text n2 c2 x2 -> n1 = n2 /\ c1 = c2 /\ x1 = x2.
Proof.
  intros H1 H2 E. rewrite (number_text_split n1), (number_text_split n2) in E.
  assert (forall c, coefficient c -> exists d k, c = d :: k /\ d <> "-"%char) as Hd.
  { intros [|d k] [HF Hh _]; [done|]. exists d, k. split; [done|]. intros ->.
    by inversion HF. }
  destruct (Hd _ H1) as (d1 & k1 & E1 & Hm1). destruct (Hd _ H2) as (d2 & k2 & E2 & Hm2).
  assert (n1 = n2 /\ c1 ++ number_text false [] x1 = c2 ++ number_text false [] x2) as [-> Et].
  { clear Hd. subst c1 c2. destruct n1, n2; cbn [app] in *; split; congruence. }
  split; [done|]. clear E E1 E2 Hd.
  pose proof (digits_exclude "e" _ eq_refl (cf_digits _ H1)) as Hx1.
  pose proof (digits_exclude "e" _ eq_refl (cf_digits _ H2)) as Hx2.
  assert (forall n, "e"%char ∉ replicate n zero_run) as Hz
    by (intros n [? _]%elem_of_replicate; done).
  destruct (Z.lt_ge_cases x1 0) as [L1|L1], (Z.lt_ge_cases x2 0) as [L2|L2].
  - rewrite !number_text_neg_exp in Et by done.
    pose proof (cut_at_app _ _ (chars (FormatInt x1)) Hx1) as C1.
    rewrite Et, (cut_at_app _ _ _ Hx2) in C1. injection C1 as -> C1.
    split; [done|]. symmetry. by apply FormatInt_inj, chars_inj.
  - exfalso. rewrite number_text_neg_exp, tail_digits in Et by done.
    assert ("e"%char ∈ c2 ++ replicate (Z.to_nat x2) zero_run) as Hin
      by (rewrite <- Et; apply elem_of_app; right; left). apply elem_of_app in Hin as [?|?]; [done | by eapply Hz].
  - exfalso. rewrite (number_text_neg_exp x2), tail_digits in Et by done.
    assert ("e"%char ∈ c1 ++ replicate (Z.to_nat x1) zero_run) as Hin
      by (rewrite Et; apply elem_of_app; right; left). apply elem_of_app in Hin as [?|?]; [done | by eapply Hz].
  - rewrite !tail_digits in Et by done. apply app_zeros_inj in Et as [-> ?]; [|done..].
    split; [done | lia].
Qed.

Lemma number_value_zero l : significant l = [] -> (number_value l == 0)%Q.
Proof.
  intros E. unfold number_value. rewrite (significant_nil l E), Z.mul_0_r. unfold decimal.
  change (inject_Z 0) with 0%Q. ring.
Qed.

Lemma number_value_nonzero l :
  well_formed_number l -> significant l <> [] -> ~ (number_value l == 0)%Q.
Proof.
  intros Hwf Hs E. rewrite (number_value_core l Hwf Hs) in E.
  assert (0 == decimal 0 (core_exponent l))%Q as E0
    by (unfold decimal; change (inject_Z 0) with 0%Q; ring).
  rewrite E0 in E. apply decimal_cancel in E.
  destruct (core_spec l Hwf Hs) as (Hc & _ & _). apply coefficient_mod, (signed_mod (nl_neg l)) in Hc.
  by rewrite E in Hc.
Qed.

Lemma number_text_not_zero neg c x : coefficient c -> number_text neg c x <> [zero_run].
Proof.
  intros [_ Hh _]. rewrite number_text_split. destruct neg, c; try done.
  cbn in *. unfold zero_run. congruence.
Qed.

Lemma canonical_text_exact l1 l2 : well_formed_number l1 -> well_formed_number l2 ->
  canonical_text l1 = canonical_text l2 <-> (number_value l1 == number_value l2)%Q.
Proof.
  intros W1 W2. unfold canonical_text.
  destruct (bool_decide_reflect (significant l1 = [])) as [S1|S1],
    (bool_decide_reflect (significant l2 = [])) as [S2|S2].
  - by rewrite !number_value_zero.
  - rewrite (number_value_zero l1 S1). destruct (core_spec l2 W2 S2) as (C2 & _ & _). split.
    + intros E. symmetry in E. by apply number_text_not_zero in E.
    + intros E. symmetry in E. by apply number_value_nonzero in E.
  - rewrite (number_value_zero l2 S2). destruct (core_spec l1 W1 S1) as (C1 & _ & _). split.
    + intros E. by apply number_text_not_zero in E.
    + intros E. by apply number_value_nonzero in E.
  - rewrite !number_value_core by done.
    destruct (core_spec l1 W1 S1) as (C1 & _ & _), (core_spec l2 W2 S2) as (C2 & _ & _). split.
    + intros (-> & -> & ->)%number_text_inj; [reflexivity | done..].
    + intros E. apply decimal_inj in E as [E ->]; [|by apply signed_mod, coefficient_mod..].
      apply signed_inj in E as [-> E]; [|by apply coefficient_pos..].
      by apply coefficient_inj in E as ->.
Qed.

(** C38: number canonicalisation is exact.  Two accepted spellings of JSON
    numbers get the same canonical text if and only if they denote the same
    rational number: nothing is rounded and every value has one text. *)
Theorem canonicalNumber_exact l1 l2 c1 c2
  (W1 : well_formed_number l1) (W2 : well_formed_number l2)
  (H1 : canonicalNumber (unchars (spell l1)) = Ok c1)
  (H2 : canonicalNumber (unchars (spell l2)) = Ok c2) :
  c1 = c2 <-> (number_value l1 == number_value l2)%Q.
Proof.
  apply canonicalNumber_spell in H1 as ->; [|done]. apply canonicalNumber_spell in H2 as ->; [|done].
  rewrite <- canonical_text_exact by done. split; [|congruence].
  intros E. by rewrite <- (chars_unchars (canonical_text l1)), E, chars_unchars.
Qed.

Definition numlit_of (s : string) : numlit :=
  match scan_number (chars s) with Some (l, _) => l | None => MkNumlit false [] None None end.

Lemma canonicalNumber_exact_witness :
  canonicalNumber "20.50e-1" = Ok "205e-2" /\
  ("205e-2" = "205e-2" <-> (number_value (numlit_of "20.50e-1") == number_value (numlit_of "0.205E+1"))%Q).
Proof.
  split; [vm_compute; reflexivity|].
  apply canonicalNumber_exact.
  - apply (scan_number_spec (chars "20.50e-1") _ []). vm_compute. reflexivity.
  - apply (scan_number_spec (chars "0.205E+1") _ []). vm_compute. reflexivity.
  - vm_compute. reflexivity.
  - vm_compute. reflexivity.
Defined.

(** *** Canonical numbers are numbers *)

Lemma span_digits_app ds rest : Forall (fun c => digit c = true) ds ->
  match rest with c :: _ => digit c = false | [] => True end ->
  span_digits (ds ++ rest) = (ds, rest).
Proof.
  intros HF Hr. induction HF as [|c ds Hc _ IH]; cbn.
  - destruct rest; cbn; [done|]. by rewrite Hr.
  - by rewrite Hc, IH.
Qed.

Lemma digits1_app ds rest : Forall (fun c => digit c = true) ds -> ds <> [] ->
  match rest with c :: _ => digit c = false | [] => True end ->
  digits1 (ds ++ rest) = Some (ds, rest).
Proof.
  intros HF Hn Hr. unfold digits1. rewrite span_digits_app by done. by destruct ds.
Qed.

Lemma scan_sign (neg : bool) (s : list ascii) c r : s = c :: r -> c <> "-"%char ->
  match (if neg then ["-"%char] else []) ++ s with
  | c :: r => if Ascii.eqb c "-" then (true, r)
              else (false, (if neg then ["-"%char] else []) ++ s)
  | [] => (false, (if neg then ["-"%char] else []) ++ s)
  end = (neg, s).
Proof. intros -> Hc. destruct neg; [done|]. cbn. by destruct (Ascii.eqb_spec c "-"). Qed.

Lemma FormatInt_negative x : (x < 0)%Z -> exists ds : list ascii, chars (FormatInt x) = "-"%char :: ds /\
  Forall (fun c => digit c = true) ds /\ ds <> [].
Proof.
  intros Hx. destruct x as [|p|p]; [lia..|]. exists (chars (FormatInt (Z.pos p))). split; [done|].
  pose proof (FormatInt_digits (Z.pos p) ltac:(lia)) as HF. split.
  - eapply Forall_impl; [|exact HF]. intros c Hc. unfold digit, between, code, nat_of_ascii in *.
    apply andb_true_iff. split; apply N.leb_le; lia.
  - intros E. pose proof (parse_digits_FormatInt (Z.pos p) ltac:(lia)) as Hp.
    by destruct (FormatInt (Z.pos p)).
Qed.

Lemma coefficient_zeros_digits c n : coefficient c ->
  Forall (fun c => digit c = true) (c ++ replicate n zero_run).
Proof. intros [H _ _]. apply Forall_app. split; [done | by apply Forall_replicate]. Qed.

(** Scanning a number text: the sign, a whole part without leading zero and
    either nothing or a negative exponent. *)
Lemma number_text_valid neg c x : coefficient c -> isValidNumber (number_text neg c x) = true.
Proof.
  intros Hc. pose proof (cf_head _ Hc) as Hh. destruct c as [|d k]; [done|]. cbn in Hh.
  assert (digit d = true) as Hd by (by pose proof (cf_digits _ Hc) as HF; inversion HF).
  assert (exists (w t : list ascii), number_text neg (d :: k) x = (if neg then ["-"%char] else []) ++ (d :: w) ++ t /\
    Forall (fun c => digit c = true) (d :: w) /\
    (t = [] \/ exists ds : list ascii, t = "e"%char :: "-"%char :: ds /\
      Forall (fun c => digit c = true) ds /\ ds <> [])) as (w & t & -> & HF & Ht).
  { rewrite number_text_split. destruct (Z.lt_ge_cases x 0) as [L|L].
    - rewrite number_text_neg_exp by done. exists k. eexists. split; [reflexivity|].
      split; [apply Hc|]. right. destruct (FormatInt_negative x L) as (ds & -> & ? & ?). eauto.
    - rewrite tail_digits by done. exists (k ++ replicate (Z.to_nat x) zero_run), [].
      rewrite app_nil_r. split; [done|]. split; [|by left].
      by apply (coefficient_zeros_digits (d :: k)). }
  unfold isValidNumber, scan_number.
  rewrite (scan_sign neg _ d (w ++ t)) by (done || by intros ->).
  assert (scan_whole ((d :: w) ++ t) = Some (d :: w, t)) as ->.
  { cbn [app scan_whole]. destruct (Ascii.eqb_spec d "0"); [done|].
    apply (digits1_app (d :: w)); [done..|]. by destruct Ht as [-> | (ds & -> & _)]. }
  destruct Ht as [-> | (ds & -> & Hds & Hn)]; [done|]. cbn.
  rewrite <- (app_nil_r ds), digits1_app by done. done.
Qed.

Lemma canonical_text_valid l : well_formed_number l -> isValidNumber (canonical_text l) = true.
Proof.
  intros Hwf. unfold canonical_text. destruct (bool_decide_reflect (significant l = [])) as [|S]; [done|].
  apply number_text_valid. by destruct (core_spec l Hwf S).
Qed.

(** *** The budget is the size of the output *)

Definition weight (l : list (list ascii)) : nat := sum_list (map (fun x => S (length x)) l).

Lemma length_join c l : length (join_chars [c] l) = pred (weight l).
Proof.
  induction l as [|x l IH]; [done|]. unfold weight in *. cbn [map sum_list].
  destruct l as [|y l]; [cbn; lia|].
  change (join_chars [c] (x :: y :: l)) with (x ++ [c] ++ join_chars [c] (y :: l)).
  rewrite !length_app, IH. cbn. lia.
Qed.

Lemma weight_perm l k : l ≡ₚ k -> weight l = weight k.
Proof. unfold weight. induction 1; cbn in *; lia. Qed.

Lemma weight_sort l : weight (map member_text (sort_members l)) = weight (map member_text l).
Proof. apply weight_perm, Permutation_map, sort_by_perm. Qed.

(** The bytes an object's members and an array's elements take. *)
Definition members_size (ms : list (list ascii * value)) : Z :=
  Z.pred (Z.max 1 (Z.of_nat (weight (map member_text (map (fun m => (m.1, marshal m.2)) ms))))).
Definition elements_size (l : list value) : Z :=
  Z.pred (Z.max 1 (Z.of_nat (weight (map marshal l)))).

Lemma marshal_object_size ms : len (marshal (VObject ms)) = (2 + members_size ms)%Z.
Proof.
  unfold len, members_size. cbn [marshal length chars]. rewrite length_app, length_join, weight_sort.
  cbn [length]. lia.
Qed.
Lemma marshal_array_size l : len (marshal (VArray l)) = (2 + elements_size l)%Z.
Proof.
  unfold len, elements_size. cbn [marshal length chars]. rewrite length_app, length_join. cbn [length]. lia.
Qed.

Definition comma {A} (l : list A) : Z := if (len l != 0%Z) then 1 else 0.


Lemma weight_app l k : weight (l ++ k) = (weight l + weight k)%nat.
Proof. unfold weight. induction l; cbn in *; lia. Qed.

Lemma elements_size_snoc l v :
  elements_size (l ++ [v]) = (elements_size l + len (marshal v) + comma l)%Z.
Proof.
  unfold elements_size, comma, len. rewrite map_app, weight_app. destruct l as [|w l].
  - rewrite bool_decide_eq_true_2 by done. unfold weight. cbn. lia.
  - rewrite bool_decide_eq_false_2 by (cbn; lia). unfold weight. cbn. lia.
Qed.

Lemma members_size_snoc ms k v : members_size (ms ++ [(k, v)]) =
  (members_size ms + len (marshal_string k) + 1 + len (marshal v) + comma ms)%Z.
Proof.
  unfold members_size, comma, len, member_text. rewrite !map_app, weight_app.
  cbn [map fst snd]. destruct ms as [|w ms].
  - rewrite bool_decide_eq_true_2 by done. unfold weight. cbn -[marshal_string]. rewrite length_app. cbn [length]. lia.
  - rewrite bool_decide_eq_false_2 by (cbn; lia). unfold weight. cbn -[marshal_string].
    rewrite !length_app. cbn [length]. lia.
Qed.

Lemma spend_Some b n b' : spend b n = Some b' -> (0 <= n)%Z /\ (0 <= b')%Z /\ b = (b' + n)%Z.
Proof. unfold spend. destruct (_ || _)%bool eqn:E; [done|]. intros [= <-]. lia. Qed.

Lemma done_if_Done {A} o (a a' : A) d d' b :
  done_if o a d = Done a' d' b -> o = Some b /\ a' = a /\ d' = d.
Proof. destruct o; [|done]. by intros [= -> -> ->]. Qed.

Lemma expect_end_Done {A} c (a a' : A) d d' b b' : expect_end c a d b = Done a' d' b' ->
  a' = a /\ b' = b /\ (length (d_rest d') < length (d_rest d))%nat.
Proof.
  unfold expect_end, decoder_Token. destruct (token _ _ _) as [[] d2| |] eqn:E; try done.
  destruct (Ascii.eqb _ _); [|done]. intros [= -> -> ->]. by apply token_consumes in E.
Qed.

(** What a successful decoding step establishes: the bytes spent are the bytes
    of the new text, the value can be printed, input was consumed. *)
Definition rest_len (d : Decoder) : nat := length (d_rest d).
Definition value_step (d : Decoder) (b : Z) (v : value) (d' : Decoder) (b' : Z) : Prop :=
  (0 <= b')%Z /\ b = (b' + len (marshal v))%Z /\ marshalable v = true /\ (rest_len d' < rest_len d)%nat.

Lemma decoder_Token_consumes d t d' :
  decoder_Token d = Tok t d' -> (rest_len d' < rest_len d)%nat.
Proof. apply token_consumes. Qed.

Definition decodes_values (f : nat) : Prop := forall d k b v d' b',
  decodeValue f d k b = Done v d' b' -> value_step d b v d' b'.
Definition decodes_members (f : nat) : Prop := forall d k b o o' d' b',
  decodeMembers f d k b o = Done o' d' b' ->
  (0 <= b)%Z -> forallb (fun m => marshalable m.2) o = true ->
  (0 <= b')%Z /\ (b - b' = members_size o' - members_size o)%Z /\
  forallb (fun m => marshalable m.2) o' = true /\ (rest_len d' <= rest_len d)%nat.
Definition decodes_elements (f : nat) : Prop := forall d k b o o' d' b',
  decodeElements f d k b o = Done o' d' b' ->
  (0 <= b)%Z -> forallb marshalable o = true ->
  (0 <= b')%Z /\ (b - b' = elements_size o' - elements_size o)%Z /\
  forallb marshalable o' = true /\ (rest_len d' <= rest_len d)%nat.

(** The scalars. *)
Lemma scalar_step o b v d0 d v' d' b' :
  done_if o v d = Done v' d' b' -> (rest_len d < rest_len d0)%nat ->
  o = spend b (len (marshal v)) -> marshalable v = true -> value_step d0 b v' d' b'.
Proof.
  intros (H & -> & ->)%done_if_Done Hl -> Hm. apply spend_Some in H as (? & ? & ?). by split.
Qed.

Lemma decodes_values_S f : decodes_members f -> decodes_elements f -> decodes_values (S f).
Proof.
  intros HM HE d k b v d' b' H. cbn [decodeValue] in H.
  destruct (k >? 32)%Z; [done|]. destruct (decoder_Token d) as [t d1| |] eqn:Et; try done.
  pose proof (decoder_Token_consumes _ _ _ Et) as Hl. destruct t as [c|text|s|bo|].
  - destruct (Ascii.eqb c "{"); [|destruct (Ascii.eqb c "["); [|done]];
      destruct (spend b 2) as [b1|] eqn:Eb; try done; apply spend_Some in Eb as (_ & Hb & ->).
    + destruct (decodeMembers _ _ _ _ _) as [| |o d2 b2] eqn:EM; try done.
      apply expect_end_Done in H as (-> & -> & Hl2). destruct (HM _ _ _ _ _ _ _ EM Hb eq_refl) as (? & E & ? & ?).
      unfold value_step, rest_len in *. rewrite marshal_object_size. change (members_size []) with 0%Z in E.
      repeat split; (done || lia).
    + destruct (decodeElements _ _ _ _ _) as [| |o d2 b2] eqn:EM; try done.
      apply expect_end_Done in H as (-> & -> & Hl2). destruct (HE _ _ _ _ _ _ _ EM Hb eq_refl) as (? & E & ? & ?).
      unfold value_step, rest_len in *. rewrite marshal_array_size. change (elements_size []) with 0%Z in E.
      repeat split; (done || lia).
  - destruct (token_number _ _ _ _ _ Et) as (l & Hwf & ->).
    destruct (canonicalNumber _) as [n|] eqn:En; [|done].
    apply canonicalNumber_spell in En as ->; [|done]. rewrite chars_unchars, slen_unchars in H.
    eapply scalar_step; [exact H | done | done | by apply canonical_text_valid].
  - eapply scalar_step; [exact H | done..].
  - eapply scalar_step; [exact H | done | by destruct bo | done].
  - eapply scalar_step; [exact H | done..].
Qed.

Lemma decodes_members_S f : decodes_values f -> decodes_members f -> decodes_members (S f).
Proof.
  intros HV HM d k b o o' d' b' H Hb Ho. cbn [decodeMembers] in H.
  destruct (decoder_More d); [|injection H as -> -> ->; repeat split; (done || lia)].
  destruct (decoder_Token d) as [[] d1| |] eqn:Et; try done.
  apply decoder_Token_consumes in Et. case_bool_decide; [done|].
  destruct (spendString b s) as [b1|] eqn:E1; [|done]. apply spend_Some in E1 as (? & ? & ->).
  cbn [mbind option_bind] in H. destruct (spend b1 1) as [b2|] eqn:E2; [|done].
  apply spend_Some in E2 as (_ & ? & ->). cbn [mbind option_bind] in H.
  assert (exists b3, (if (len o != 0%Z) then spend b2 1 else Some b2) = Some b3 /\
    (0 <= b3)%Z /\ b2 = (b3 + comma o)%Z) as (b3 & E3 & Hb3 & ->).
  { unfold comma. destruct (_ != _); [|eauto with lia].
    destruct (spend b2 1) as [b3|] eqn:E3; [|done]. apply spend_Some in E3 as (_ & ? & ->). eauto. }
  rewrite E3 in H. destruct (decodeValue _ _ _ _) as [| |v d2 b4] eqn:EV; try done.
  apply HV in EV as (? & -> & Hm & ?). edestruct HM as (? & E & ? & ?); [exact H | done | by rewrite forallb_app; cbn; rewrite Ho, Hm|].
  rewrite members_size_snoc in E. unfold rest_len in *. repeat split; (done || lia).
Qed.

Lemma decodes_elements_S f : decodes_values f -> decodes_elements f -> decodes_elements (S f).
Proof.
  intros HV HE d k b o o' d' b' H Hb Ho. cbn [decodeElements] in H.
  destruct (decoder_More d); [|injection H as -> -> ->; repeat split; (done || lia)].
  assert (exists b3, (if (len o != 0%Z) then spend b 1 else Some b) = Some b3 /\
    (0 <= b3)%Z /\ b = (b3 + comma o)%Z) as (b3 & E3 & Hb3 & ->).
  { unfold comma. destruct (_ != _); [|eauto with lia].
    destruct (spend b 1) as [b3|] eqn:E3; [|done]. apply spend_Some in E3 as (_ & ? & ->). eauto. }
  rewrite E3 in H. destruct (decodeValue _ _ _ _) as [| |v d2 b4] eqn:EV; try done.
  apply HV in EV as (? & -> & Hm & ?). edestruct HE as (? & E & ? & ?); [exact H | done | by rewrite forallb_app; cbn; rewrite Ho, Hm|].
  rewrite elements_size_snoc in E. unfold rest_len in *. repeat split; (done || lia).
Qed.

Lemma decode_steps f : decodes_values f /\ decodes_members f /\ decodes_elements f.
Proof.
  induction f as [|f (HV & HM & HE)]; [by repeat split|].
  auto using decodes_values_S, decodes_members_S, decodes_elements_S.
Qed.

(** *** Termination: a byte of input is enough fuel for a step *)

Lemma expect_end_fuel {A} c (a : A) d b : expect_end c a d b <> OutOfFuel.
Proof. unfold expect_end. destruct (decoder_Token d) as [[]| |]; try done. by destruct (Ascii.eqb _ _). Qed.
Lemma done_if_fuel {A} o (a : A) d : done_if o a d <> OutOfFuel.
Proof. by destruct o. Qed.

Definition enough_fuel (f : nat) : Prop :=
  (forall d k b, (2 * rest_len d < f)%nat -> decodeValue f d k b <> OutOfFuel) /\
  (forall d k b o, (S (2 * rest_len d) < f)%nat -> decodeMembers f d k b o <> OutOfFuel) /\
  (forall d k b o, (S (2 * rest_len d) < f)%nat -> decodeElements f d k b o <> OutOfFuel).

Lemma enough_fuel_values f : enough_fuel f ->
  forall d k b, (2 * rest_len d < S f)%nat -> decodeValue (S f) d k b <> OutOfFuel.
Proof.
  intros (_ & HM & HE) d k b Hf. cbn [decodeValue]. destruct (k >? 32)%Z; [done|].
  destruct (decoder_Token d) as [t d1| |] eqn:Et; try done. apply decoder_Token_consumes in Et.
  destruct t as [c|text|s|bo|]; try apply done_if_fuel; [|by destruct (canonicalNumber _) as [n|]; [apply done_if_fuel|]].
  destruct (Ascii.eqb c "{"); [|destruct (Ascii.eqb c "["); [|done]]; destruct (spend b 2) as [b1|]; try done.
  - specialize (HM d1 k b1 [] ltac:(lia)). destruct (decodeMembers _ _ _ _ _); try done. apply expect_end_fuel.
  - specialize (HE d1 k b1 [] ltac:(lia)). destruct (decodeElements _ _ _ _ _); try done. apply expect_end_fuel.
Qed.

Lemma enough_fuel_members f : enough_fuel f ->
  forall d k b o, (S (2 * rest_len d) < S f)%nat -> decodeMembers (S f) d k b o <> OutOfFuel.
Proof.
  intros (HV & HM & _) d k b o Hf. cbn [decodeMembers]. destruct (decoder_More d); [|done].
  destruct (decoder_Token d) as [[] d1| |] eqn:Et; try done. apply decoder_Token_consumes in Et.
  case_bool_decide; [done|]. destruct (_ ≫= _) as [b1|]; [|done].
  specialize (HV d1 (k + 1)%Z b1 ltac:(lia)).
  destruct (decodeValue _ _ _ _) as [| |v d2 b2] eqn:EV; try done.
  apply decode_steps in EV as (_ & _ & _ & ?). apply HM. lia.
Qed.

Lemma enough_fuel_elements f : enough_fuel f ->
  forall d k b o, (S (2 * rest_len d) < S f)%nat -> decodeElements (S f) d k b o <> OutOfFuel.
Proof.
  intros (HV & _ & HE) d k b o Hf. cbn [decodeElements]. destruct (decoder_More d) eqn:Em; [|done].
  destruct (if (len o != 0%Z) then spend b 1 else Some b) as [b1|]; [|done].
  specialize (HV d (k + 1)%Z b1 ltac:(lia)).
  destruct (decodeValue f d (k + 1) b1) as [| |v d2 b2] eqn:EV; try done.
  apply decode_steps in EV as (_ & _ & _ & ?). apply HE. lia.
Qed.

Lemma fuel_is_enough f : enough_fuel f.
Proof.
  induction f as [|f IH]; [repeat split; intros; lia|].
  split; [|split]; auto using enough_fuel_values, enough_fuel_members, enough_fuel_elements.
Qed.

(** C39: the decoder always finishes: the fuel the model gives it is never
    exhausted, whatever the input and the limit, so every rejection below is
    one the code makes. *)
Theorem canonicalBounded_terminates input limit :
  decodeValue (decode_fuel input) (NewDecoder input) 0 limit <> OutOfFuel.
Proof. apply fuel_is_enough. unfold rest_len, decode_fuel. cbn. lia. Qed.

(** The budget charged while decoding is exactly the size of the canonical
    text: what was spent is the length of the printed value, printing cannot
    fail, and so the size check after printing never rejects. *)
Theorem decodeValue_budget fuel d depth budget v d' left
  (H : decodeValue fuel d depth budget = Done v d' left) :
  json_Marshal v = Ok (marshal v) /\ len (marshal v) = (budget - left)%Z /\ (0 <= left)%Z.
Proof.
  apply decode_steps in H as (? & ? & Hm & _). unfold json_Marshal. rewrite Hm. split; [done|]. lia.
Qed.

Definition sample_value : value :=
  VArray [VNumber (chars "20"); VObject [(chars "b", VNull); (chars "a", VBool true)]].
Definition sample_input : list ascii :=
  chars ("[2e1, {" +:+ q "b" +:+ ":null," +:+ q "a" +:+ ":true}]").

Lemma decodeValue_budget_witness :
  exists d', decodeValue (decode_fuel sample_input) (NewDecoder sample_input) 0 100 =
    Done sample_value d' 76 /\
  json_Marshal sample_value = Ok (marshal sample_value) /\
  len (marshal sample_value) = (100 - 76)%Z /\ (0 <= 76)%Z.
Proof.
  eexists. split; [vm_compute; reflexivity|].
  eapply (decodeValue_budget (decode_fuel sample_input) (NewDecoder sample_input) 0).
  vm_compute. reflexivity.
Defined.
