(* ===== verification/K8s.v ===== *)
(** * Kubernetes name validation, as an interface

    The controllers and the admission API check names with
    [k8s.io/apimachinery/pkg/util/validation], which is not part of the
    repository.  [NameValidation] is what they call; [NameValidationLaws] is
    what its documentation promises (RFC 1123 labels and subdomains).  Clients
    are proved against the interface; [rfc1123] implements it for concrete
    evaluation. *)

From Stdlib Require Import Ascii.
From stdpp Require Import base tactics list strings numbers.
From S2P Require Import Prelude GoStrings Regex.
Open Scope string_scope.
Open Scope list_scope.

(** ** The RFC 1123 grammars *)

Definition is_lower_alnum (c : ascii) : bool :=
  let n := nat_of_ascii c in
  ((97 <=? n) && (n <=? 122))%nat || ((48 <=? n) && (n <=? 57))%nat.
Definition is_label_char (c : ascii) : bool := is_lower_alnum c || Ascii.eqb c "-".
(** A DNS-1123 label: [^[a-z0-9](?:[-a-z0-9]{0,61}[a-z0-9])?$]. *)
Definition dns_label : regex :=
  Cat (Cls is_lower_alnum) (Opt (Cat (UpTo 61 (Cls is_label_char)) (Cls is_lower_alnum))).
(** A part of a subdomain is a label of any length. *)
Definition dns_part : regex :=
  Cat (Cls is_lower_alnum) (Opt (Cat (Star (Cls is_label_char)) (Cls is_lower_alnum))).
Definition dns_subdomain : regex := Cat dns_part (Star (Cat (Lit ".") dns_part)).

Lemma dns_label_intro a l b :
  is_lower_alnum a = true -> is_lower_alnum b = true -> (length l <= 61)%nat ->
  Forall (fun c => is_label_char c = true) l -> lang dns_label (a :: l ++ [b]).
Proof.
  intros Ha Hb Hl HF. apply (lang_cat _ _ [a]); [by constructor|]. apply lang_alt_r.
  apply lang_cat; [by apply lang_class_upto | by constructor].
Qed.

Lemma dns_label_chars s :
  MatchString dns_label s = true -> Forall (fun c => is_label_char c = true) (chars s).
Proof.
  apply MatchString_chars. unfold dns_label. cbn [re_chars Opt].
  assert (forall c, is_lower_alnum c = true -> is_label_char c = true) as H
    by (intros c Hc; unfold is_label_char; by rewrite Hc).
  repeat split; try apply re_chars_upto; cbn; auto.
Qed.

Lemma dns_label_nonempty s : MatchString dns_label s = true -> s <> "".
Proof. by intros H ->. Qed.

(** ** The interface *)

Class NameValidation := {
  IsDNS1123Label : string -> list string;
  IsDNS1123Subdomain : string -> list string }.

Class NameValidationLaws `{NameValidation} : Prop := {
  label_law s : IsDNS1123Label s = [] <-> MatchString dns_label s = true;
  subdomain_law s :
    IsDNS1123Subdomain s = [] <-> MatchString dns_subdomain s = true /\ (slen s <= 253)%Z }.

(** [len(validation.IsDNS1123Label(s)) == 0] *)
Definition is_label `{NameValidation} (s : string) : bool := (len (IsDNS1123Label s) =? 0)%Z.
Definition is_subdomain `{NameValidation} (s : string) : bool := (len (IsDNS1123Subdomain s) =? 0)%Z.

Lemma len_nil {A} (l : list A) : (len l =? 0)%Z = true <-> l = [].
Proof. unfold len. destruct l; cbn; split; (done || lia || intros H; discriminate H). Qed.

Lemma is_label_iff `{NameValidationLaws} s : is_label s = true <-> MatchString dns_label s = true.
Proof. unfold is_label. rewrite len_nil. apply label_law. Qed.
Lemma is_subdomain_iff `{NameValidationLaws} s :
  is_subdomain s = true <-> MatchString dns_subdomain s = true /\ (slen s <= 253)%Z.
Proof. unfold is_subdomain. rewrite len_nil. apply subdomain_law. Qed.

(** ** A concrete validator *)

Definition rfc1123 : NameValidation := {|
  IsDNS1123Label s := if MatchString dns_label s then [] else ["invalid label"];
  IsDNS1123Subdomain s :=
    if MatchString dns_subdomain s && (slen s <=? 253)%Z then [] else ["invalid subdomain"] |}.

Lemma rfc1123_laws : @NameValidationLaws rfc1123.
Proof.
  split; intros s; cbn.
  - by destruct (MatchString dns_label s).
  - destruct (MatchString dns_subdomain s), (Z.leb_spec (slen s) 253); cbn; naive_solver lia.
Qed.
