(* ===== verification/ApiTypes.v ===== *)
(** * The custom resources ([api/v1alpha1])

    One record per Go struct and one inductive type per string enumeration,
    with the source's constructors.  A Go enumeration is an open string type:
    [...Unset] is the empty string and [...Other s] any value outside the
    declared constants, so code with a [default] branch is modelled on it too.

    Conventions: [*T] is [option T]; [metav1.Time] is a number of nanoseconds
    since Go's zero time, which is [0]; an object's maps are [gmap]s, a nil map
    reading like an empty one; [resource.Quantity] is an integral number of
    nano-units, the finest granularity a Quantity has. *)

From stdpp Require Import base tactics list strings gmap numbers.
From S2P Require Import Prelude.
(** ** Kubernetes metadata the API types embed *)

Abbreviation Time := Z.
Definition IsZero (t : Time) : bool := bool_decide (t = 0%Z).
Abbreviation Quantity := Z.
Abbreviation StringMap := (gmap string string).

(** [m[k]] on a [map[string]string]: the zero value when absent. *)
Definition mget (m : StringMap) (k : string) : string := default ""%string (m !! k).

Inductive ConditionStatus := ConditionTrue | ConditionFalse | ConditionUnknown | ConditionStatusOther (s : string).

Record Condition := MkCondition {
  cond_Type : string;
  cond_Status : ConditionStatus;
  cond_ObservedGeneration : Z;
  cond_LastTransitionTime : Time;
  cond_Reason : string;
  cond_Message : string }.

Record OwnerReference := MkOwnerReference {
  own_APIVersion : string;
  own_Kind : string;
  own_Name : string;
  own_UID : string;
  own_Controller : option bool;
  own_BlockOwnerDeletion : option bool }.

Record ObjectMeta := MkObjectMeta {
  om_Name : string;
  om_Namespace : string;
  om_UID : string;
  om_Generation : Z;
  om_ResourceVersion : string;
  om_CreationTimestamp : Time;
  om_DeletionTimestamp : option Time;
  om_Finalizers : list string;
  om_Labels : StringMap;
  om_Annotations : StringMap;
  om_OwnerReferences : list OwnerReference }.

(** [!obj.DeletionTimestamp.IsZero()]: a nil timestamp is zero. *)
Definition deleting (m : ObjectMeta) : bool :=
  match om_DeletionTimestamp m with Some t => negb (IsZero t) | None => false end.

(** ** GameServer *)

Inductive DesiredState :=
| DesiredStateRunning | DesiredStateStopped | DesiredStateUnset | DesiredStateOther (s : string).

Inductive GameServerPhase :=
| PhasePending | PhaseStarting | PhaseReady | PhaseStopping | PhaseStopped | PhaseFailed
| PhaseUnset | PhaseOther (s : string).

(** The namespace of a reference is a rejection sentinel: the containing
    object's namespace is always meant. *)
Record ExactLocalReference := MkRef {
  ref_Namespace : option string;
  ref_Name : string;
  ref_UID : string }.

Record RetainedDataClaimReference := MkClaimRef {
  rdc_Path : string;
  rdc_ClaimRef : ExactLocalReference }.

Record RetainedDataReference := MkDataRef {
  rdr_Identity : string;
  rdr_Claims : list RetainedDataClaimReference }.

Record ComputeSpec := MkCompute {
  CPURequest : Quantity;
  CPULimit : Quantity;
  MemoryRequest : Quantity;
  MemoryLimit : Quantity }.

Record StorageSpec := MkStorage {
  st_Size : Quantity;
  st_StorageClassName : option string;
  st_Reattach : option RetainedDataReference }.

Record GameServerSpec := MkGameServerSpec {
  gs_Game : string;
  gs_ImageDigest : string;
  gs_DesiredState : DesiredState;
  gs_Compute : ComputeSpec;
  gs_Storage : StorageSpec;
  gs_Settings : string (* the raw bytes of a RawExtension *) }.

Record ObservedEndpoint := MkObservedEndpoint {
  oe_Name : string;
  oe_Protocol : string;
  oe_Address : string;
  oe_Port : Z }.

Record GameServerStatus := MkGameServerStatus {
  gss_ObservedGeneration : Z;
  gss_ActiveData : option RetainedDataReference;
  gss_ObservedData : option RetainedDataReference;
  gss_Phase : GameServerPhase;
  gss_Conditions : list Condition;
  gss_Endpoints : list ObservedEndpoint }.

Record GameServer := MkGameServer {
  gs_meta : ObjectMeta;
  gs_Spec : GameServerSpec;
  gs_Status : GameServerStatus }.

(** ** Backup and restore operations *)

Inductive DataOperationPhase :=
| DataPhasePending | DataPhaseBlocked | DataPhasePreparing | DataPhaseRunning
| DataPhaseVerifying | DataPhaseActivating | DataPhaseRollingBack | DataPhaseCancelling
| DataPhaseCancelled | DataPhaseSucceeded | DataPhaseFailed
| DataPhaseUnset | DataPhaseOther (s : string).

Inductive RestartPolicy :=
| RestartLeaveStopped | RestartRestorePreviousState | RestartOther (s : string).

Inductive VerificationResult :=
| VerificationPending | VerificationVerified | VerificationFailed | VerificationOther (s : string).

Record ExactGameServerReference := MkGSRef {
  gsr_ref : ExactLocalReference;
  gsr_Generation : Z;
  gsr_DesiredState : DesiredState }.

Record ExactSecretReference := MkSecretRef {
  sec_ref : ExactLocalReference;
  sec_ResourceVersion : string }.

Record ColdDataFence := MkFence {
  fence_GameServer : ExactGameServerReference;
  fence_EstablishedAt : Time }.

Record RuntimeDisposition := MkDisposition {
  rt_GameServer : ExactGameServerReference;
  rt_Phase : GameServerPhase;
  rt_CompletedAt : Time }.

Record DataOperationRequest := MkDataRequest {
  dor_InlineCredentials : option unit;
  dor_RepositorySecretRef : ExactSecretReference;
  dor_RestartPolicy : RestartPolicy;
  dor_CancelRequested : bool }.

Record GameBackupSpec := MkGameBackupSpec {
  gbs_Request : DataOperationRequest;
  gbs_Source : ExactGameServerReference;
  gbs_SourceData : option RetainedDataReference;
  gbs_RetentionPolicy : string }.

Record GameRestoreSpec := MkGameRestoreSpec {
  grs_Request : DataOperationRequest;
  grs_BackupRef : ExactLocalReference;
  grs_Target : ExactGameServerReference;
  grs_TargetData : option RetainedDataReference }.

Record DataPathIdentity := MkPath {
  dp_Name : string;
  dp_MountPath : string;
  dp_ClaimRef : ExactLocalReference }.

Record DataSourceSnapshot := MkSource {
  src_GameServer : ExactGameServerReference;
  src_Game : string;
  src_ImageDigest : string;
  src_SettingsDigest : string;
  src_Paths : list DataPathIdentity }.

Record ArtifactVerification := MkVerification {
  av_Result : VerificationResult;
  av_VerifiedAt : option Time }.

Record ArtifactProvenance := MkProvenance {
  ap_BackupRef : ExactLocalReference;
  ap_RepositorySecretRef : ExactSecretReference }.

Record CandidateDataVerification := MkCandidateVerification {
  cv_Result : VerificationResult;
  cv_ManifestDigest : string;
  cv_PathCount : Z;
  cv_VerifiedAt : Time }.

Record BackupArtifact := MkArtifact {
  art_Provenance : ArtifactProvenance;
  art_ID : string;
  art_FormatVersion : string;
  art_ManifestDigest : string;
  art_SizeBytes : Z;
  art_PathCount : Z;
  art_CreatedAt : Time;
  art_Verification : ArtifactVerification }.

Record DataOperationStatus := MkDataStatus {
  ds_ObservedGeneration : Z;
  ds_Phase : DataOperationPhase;
  ds_Attempts : Z;
  ds_StartedAt : option Time;
  ds_CompletedAt : option Time;
  ds_Conditions : list Condition;
  ds_Source : option DataSourceSnapshot;
  ds_Fence : option ColdDataFence;
  ds_Artifact : option BackupArtifact;
  ds_Runtime : option RuntimeDisposition }.

Record RestoreRuntimeJournal := MkJournal {
  rj_PreviousRecoveryGeneration : Z;
  rj_CandidateStartGeneration : Z;
  rj_RollbackStopGeneration : Z;
  rj_RollbackRestartGeneration : Z }.

Record GameRestoreStatus := MkGameRestoreStatus {
  rs_DataOperationStatus : DataOperationStatus;
  rs_PopulateAttempts : Z;
  rs_PopulateRetryPending : bool;
  rs_PopulateJobUID : string;
  rs_PreviousDataIdentity : string;
  rs_PreflightVerifiedAt : option Time;
  rs_RuntimeJournal : option RestoreRuntimeJournal;
  rs_ActivationStartedAt : option Time;
  rs_CandidateVerification : option CandidateDataVerification;
  rs_CandidateData : list DataPathIdentity;
  rs_ActiveData : list DataPathIdentity;
  rs_PreviousData : list DataPathIdentity }.

Record GameBackup := MkGameBackup {
  gb_meta : ObjectMeta;
  gb_Spec : GameBackupSpec;
  gb_Status : DataOperationStatus }.

Record GameRestore := MkGameRestore {
  gr_meta : ObjectMeta;
  gr_Spec : GameRestoreSpec;
  gr_Status : GameRestoreStatus }.

(** ** GameDestroy *)

Inductive GameDestroyMode :=
| DestroyModeVerifiedBackup | DestroyModeUnsafeNoBackup | DestroyModeOther (s : string).

Inductive GameDestroyPhase :=
| DestroyPhasePending | DestroyPhasePreview | DestroyPhaseVerifying | DestroyPhaseDeleting
| DestroyPhaseSucceeded | DestroyPhaseFailed | DestroyPhaseCancelled
| DestroyPhaseUnset | DestroyPhaseOther (s : string).

Record GameDestroyTarget := MkDestroyTarget {
  dt_GameServer : ExactLocalReference;
  dt_Game : string;
  dt_Data : RetainedDataReference }.

Record GameDestroySpec := MkGameDestroySpec {
  gd_Target : GameDestroyTarget;
  gd_Mode : GameDestroyMode;
  gd_BackupRef : option ExactLocalReference;
  gd_RepositorySecretRef : option ExactSecretReference;
  gd_UnsafeReason : string;
  gd_ConfirmationChallenge : string;
  gd_CancelRequested : bool }.

Record GameDestroyPreview := MkDestroyPreview {
  pv_Challenge : string;
  pv_ExpiresAt : Time;
  pv_RestoreGuidance : string }.

Record GameDestroyVerification := MkDestroyVerification {
  dv_BackupRef : ExactLocalReference;
  dv_RepositorySecretRef : ExactSecretReference;
  dv_ArtifactID : string;
  dv_ManifestDigest : string;
  dv_PathCount : Z;
  dv_VerifiedAt : Time;
  dv_ColdAt : Time }.

Record GameDestroyClaimDeletion := MkClaimDeletion {
  cd_Path : string;
  cd_ClaimRef : ExactLocalReference;
  cd_RequestedAt : Time;
  cd_ObservedDeletedAt : option Time }.

Record GameDestroyStatus := MkGameDestroyStatus {
  gds_ObservedGeneration : Z;
  gds_Phase : GameDestroyPhase;
  gds_StartedAt : option Time;
  gds_CompletedAt : option Time;
  gds_Conditions : list Condition;
  gds_Preview : option GameDestroyPreview;
  gds_Verification : option GameDestroyVerification;
  gds_DeletionJournal : list GameDestroyClaimDeletion }.

Record GameDestroy := MkGameDestroy {
  gd_meta : ObjectMeta;
  gd_Spec : GameDestroySpec;
  gd_Status : GameDestroyStatus }.

(** ** ArcadeOperation receipts: the frozen request *)

Inductive ArcadeOperationAction :=
| OperationServerCreate | OperationServerConfigure | OperationServerStart | OperationServerStop
| OperationServerRestart | OperationServerUpdate | OperationWorldBackup | OperationWorldRestore
| OperationServerDecommission | OperationWorldDestroyPreview | OperationWorldDestroyConfirm
| OperationWorldDestroyCancel | OperationActionOther (s : string).

Record OperationImageResolution := MkResolution {
  ir_Repository : string;
  ir_Tag : string;
  ir_Digest : string;
  ir_ResolvedAt : Time;
  ir_ResolverVersion : string }.

Record OperationImageInput := MkImageInput {
  ii_Digest : string;
  ii_Version : string;
  ii_Resolution : OperationImageResolution }.

Record OperationRetainedWorldSelector := MkRetainedSelector {
  rw_DecommissionOperationRef : ExactLocalReference;
  rw_SnapshotDigest : string }.

Record OperationServerIntent := MkServerIntent {
  si_Game : string;
  si_ImageDigest : string;
  si_DesiredState : DesiredState;
  si_Compute : ComputeSpec;
  si_Storage : StorageSpec;
  si_SettingsJSON : string }.

Record OperationCreateInput := MkCreateInput {
  ci_Game : string;
  ci_DesiredState : DesiredState;
  ci_Compute : ComputeSpec;
  ci_Storage : StorageSpec;
  ci_SettingsJSON : string;
  ci_RetainedWorld : option OperationRetainedWorldSelector }.

Record OperationConfigureInput := MkConfigureInput {
  cf_Compute : option ComputeSpec;
  cf_Storage : option StorageSpec;
  cf_SettingsJSON : option string }.

Record OperationBackupInput := MkBackupInput {
  bi_RepositorySecretName : string;
  bi_RestartPolicy : RestartPolicy }.

Record OperationRestoreInput := MkRestoreInput {
  ri_BackupRef : ExactLocalReference;
  ri_RestartPolicy : RestartPolicy }.

Record OperationDestroyInput := MkDestroyInput {
  di_BackupRef : ExactLocalReference;
  di_RetainedWorld : option OperationRetainedWorldSelector }.

Record OperationDestroyCommand := MkDestroyCommand {
  dc_ParentOperationRef : ExactLocalReference;
  dc_DestroyRef : ExactLocalReference;
  dc_Challenge : string }.

Record OperationRequest := MkOperationRequest {
  rq_Precondition : string;
  rq_ServerName : string;
  rq_Target : option ExactGameServerReference;
  rq_Create : option OperationCreateInput;
  rq_Configure : option OperationConfigureInput;
  rq_Image : option OperationImageInput;
  rq_Backup : option OperationBackupInput;
  rq_Restore : option OperationRestoreInput;
  rq_Destroy : option OperationDestroyInput;
  rq_DestroyCommand : option OperationDestroyCommand }.

(** ** ArcadeOperation: the receipt and its journal *)

Inductive ArcadeOperationPhase :=
| OperationPhaseAccepted | OperationPhasePlanning | OperationPhaseRunning
| OperationPhaseAwaitingConfirmation | OperationPhaseVerifying | OperationPhaseDeleting
| OperationPhaseSucceeded | OperationPhaseFailed | OperationPhaseCancelled
| OperationPhaseUnset | OperationPhaseOther (s : string).

Record OperationAdmission := MkAdmission {
  ad_PrincipalID : string;
  ad_CredentialID : string;
  ad_RequestID : string;
  ad_AdmittedAt : Time;
  ad_CredentialExpiresAt : Time }.

Record ArcadeOperationSpec := MkOperationSpec {
  aos_Version : string;
  aos_Action : ArcadeOperationAction;
  aos_Admission : OperationAdmission;
  aos_KeyDigest : string;
  aos_RequestDigest : string;
  aos_Request : OperationRequest }.

Record OperationPlan := MkOperationPlan {
  op_Server : option ExactGameServerReference;
  op_ServerIntent : option OperationServerIntent;
  op_Data : option RetainedDataReference;
  op_RepositorySecretRef : option ExactSecretReference;
  op_BackupRef : option ExactLocalReference;
  op_DestroyRef : option ExactLocalReference }.

Record OperationChildReference := MkChildReference {
  och_Kind : string;
  och_ref : ExactLocalReference;
  och_Generation : Z }.

Record OperationServerTransition := MkTransition {
  ost_Step : string;
  ost_FromGeneration : Z;
  ost_ToGeneration : Z;
  ost_DesiredState : DesiredState;
  ost_SpecDigest : string;
  ost_RequestedAt : Time }.

Record OperationRetainedWorld := MkRetainedWorld {
  orw_Target : GameDestroyTarget;
  orw_SnapshotDigest : string }.

Record OperationFailure := MkOperationFailure {
  of_Code : string;
  of_Retryable : bool;
  of_Message : string;
  of_SuggestedAction : string }.

Record ArcadeOperationStatus := MkOperationStatus {
  aost_ObservedGeneration : Z;
  aost_Phase : ArcadeOperationPhase;
  aost_StartedAt : option Time;
  aost_CompletedAt : option Time;
  aost_Plan : option OperationPlan;
  aost_Child : option OperationChildReference;
  aost_Transitions : list OperationServerTransition;
  aost_RetainedWorld : option OperationRetainedWorld;
  aost_DestroyPreview : option GameDestroyPreview;
  aost_Failure : option OperationFailure;
  aost_Conditions : list Condition }.

Record ArcadeOperation := MkArcadeOperation {
  ao_meta : ObjectMeta;
  ao_Spec : ArcadeOperationSpec;
  ao_Status : ArcadeOperationStatus }.

(** ** Decidable equality *)

#[export] Instance ConditionStatus_eq_dec : EqDecision ConditionStatus.
Proof. solve_decision. Defined.
#[export] Instance Condition_eq_dec : EqDecision Condition.
Proof. solve_decision. Defined.
#[export] Instance OwnerReference_eq_dec : EqDecision OwnerReference.
Proof. solve_decision. Defined.
#[export] Instance DesiredState_eq_dec : EqDecision DesiredState.
Proof. solve_decision. Defined.
#[export] Instance GameServerPhase_eq_dec : EqDecision GameServerPhase.
Proof. solve_decision. Defined.
#[export] Instance ExactLocalReference_eq_dec : EqDecision ExactLocalReference.
Proof. solve_decision. Defined.
#[export] Instance RetainedDataClaimReference_eq_dec : EqDecision RetainedDataClaimReference.
Proof. solve_decision. Defined.
#[export] Instance RetainedDataReference_eq_dec : EqDecision RetainedDataReference.
Proof. solve_decision. Defined.
#[export] Instance DataOperationPhase_eq_dec : EqDecision DataOperationPhase.
Proof. solve_decision. Defined.
#[export] Instance RestartPolicy_eq_dec : EqDecision RestartPolicy.
Proof. solve_decision. Defined.
#[export] Instance VerificationResult_eq_dec : EqDecision VerificationResult.
Proof. solve_decision. Defined.
#[export] Instance ExactGameServerReference_eq_dec : EqDecision ExactGameServerReference.
Proof. solve_decision. Defined.
#[export] Instance ExactSecretReference_eq_dec : EqDecision ExactSecretReference.
Proof. solve_decision. Defined.
#[export] Instance DataPathIdentity_eq_dec : EqDecision DataPathIdentity.
Proof. solve_decision. Defined.
#[export] Instance ColdDataFence_eq_dec : EqDecision ColdDataFence.
Proof. solve_decision. Defined.
#[export] Instance RuntimeDisposition_eq_dec : EqDecision RuntimeDisposition.
Proof. solve_decision. Defined.
#[export] Instance DataSourceSnapshot_eq_dec : EqDecision DataSourceSnapshot.
Proof. solve_decision. Defined.
#[export] Instance ArtifactVerification_eq_dec : EqDecision ArtifactVerification.
Proof. solve_decision. Defined.
#[export] Instance ArtifactProvenance_eq_dec : EqDecision ArtifactProvenance.
Proof. solve_decision. Defined.
#[export] Instance BackupArtifact_eq_dec : EqDecision BackupArtifact.
Proof. solve_decision. Defined.
#[export] Instance DataOperationStatus_eq_dec : EqDecision DataOperationStatus.
Proof. solve_decision. Defined.
#[export] Instance RestoreRuntimeJournal_eq_dec : EqDecision RestoreRuntimeJournal.
Proof. solve_decision. Defined.
#[export] Instance CandidateDataVerification_eq_dec : EqDecision CandidateDataVerification.
Proof. solve_decision. Defined.
#[export] Instance GameRestoreStatus_eq_dec : EqDecision GameRestoreStatus.
Proof. solve_decision. Defined.
#[export] Instance GameDestroyMode_eq_dec : EqDecision GameDestroyMode.
Proof. solve_decision. Defined.
#[export] Instance GameDestroyPhase_eq_dec : EqDecision GameDestroyPhase.
Proof. solve_decision. Defined.
#[export] Instance GameDestroyTarget_eq_dec : EqDecision GameDestroyTarget.
Proof. solve_decision. Defined.
#[export] Instance GameDestroyPreview_eq_dec : EqDecision GameDestroyPreview.
Proof. solve_decision. Defined.
#[export] Instance GameDestroyVerification_eq_dec : EqDecision GameDestroyVerification.
Proof. solve_decision. Defined.
#[export] Instance GameDestroyClaimDeletion_eq_dec : EqDecision GameDestroyClaimDeletion.
Proof. solve_decision. Defined.
#[export] Instance ObjectMeta_eq_dec : EqDecision ObjectMeta.
Proof. solve_decision. Defined.
#[export] Instance DataOperationRequest_eq_dec : EqDecision DataOperationRequest.
Proof. solve_decision. Defined.
#[export] Instance GameBackupSpec_eq_dec : EqDecision GameBackupSpec.
Proof. solve_decision. Defined.
#[export] Instance GameRestoreSpec_eq_dec : EqDecision GameRestoreSpec.
Proof. solve_decision. Defined.
#[export] Instance GameDestroySpec_eq_dec : EqDecision GameDestroySpec.
Proof. solve_decision. Defined.
#[export] Instance ComputeSpec_eq_dec : EqDecision ComputeSpec.
Proof. solve_decision. Defined.
#[export] Instance StorageSpec_eq_dec : EqDecision StorageSpec.
Proof. solve_decision. Defined.
#[export] Instance GameServerSpec_eq_dec : EqDecision GameServerSpec.
Proof. solve_decision. Defined.
#[export] Instance OperationServerIntent_eq_dec : EqDecision OperationServerIntent.
Proof. solve_decision. Defined.
#[export] Instance OperationPlan_eq_dec : EqDecision OperationPlan.
Proof. solve_decision. Defined.
#[export] Instance OperationChildReference_eq_dec : EqDecision OperationChildReference.
Proof. solve_decision. Defined.
#[export] Instance OperationServerTransition_eq_dec : EqDecision OperationServerTransition.
Proof. solve_decision. Defined.
#[export] Instance OperationRetainedWorld_eq_dec : EqDecision OperationRetainedWorld.
Proof. solve_decision. Defined.
#[export] Instance OperationFailure_eq_dec : EqDecision OperationFailure.
Proof. solve_decision. Defined.
#[export] Instance ArcadeOperationAction_eq_dec : EqDecision ArcadeOperationAction.
Proof. solve_decision. Defined.

(** ** Field access through embedded structs *)

Definition gb_Name (b : GameBackup) : string := om_Name (gb_meta b).
Definition gb_UID (b : GameBackup) : string := om_UID (gb_meta b).
Definition gb_Generation (b : GameBackup) : Z := om_Generation (gb_meta b).
Definition gr_UID (r : GameRestore) : string := om_UID (gr_meta r).
Definition gr_Generation (r : GameRestore) : Z := om_Generation (gr_meta r).
Definition gsr_Name (r : ExactGameServerReference) : string := ref_Name (gsr_ref r).
Definition gsr_UID (r : ExactGameServerReference) : string := ref_UID (gsr_ref r).

(** ** Condition reasons the code branches on *)

Definition ReasonInvalidReference := "InvalidReference"%string.
Definition ReasonIdentityMismatch := "IdentityMismatch"%string.
Definition ReasonSecretUnavailable := "SecretUnavailable"%string.
Definition ReasonColdStopPending := "ColdStopPending"%string.
Definition ReasonStorageUnavailable := "StorageUnavailable"%string.
Definition ReasonOperationConflict := "OperationConflict"%string.
Definition ReasonWorkerRetrying := "WorkerRetrying"%string.
Definition ReasonWorkerFailed := "WorkerFailed"%string.
Definition ReasonVerificationFailed := "VerificationFailed"%string.
Definition ConditionOperationComplete := "Complete"%string.
Definition ConditionOperationAccepted := "Accepted"%string.
Definition ConditionSourceReady := "SourceReady"%string.
Definition ConditionTargetReady := "TargetReady"%string.
Definition ConditionArtifactReady := "ArtifactReady"%string.
Definition ConditionVerified := "Verified"%string.
Definition ReasonOperationAccepted := "Accepted"%string.
Definition ReasonOperationCancelled := "Cancelled"%string.
Definition ReasonOperationCompleted := "Completed"%string.

(** ** Printed forms, for error messages *)

Definition DataPhase_string (p : DataOperationPhase) : string :=
  match p with
  | DataPhasePending => "Pending" | DataPhaseBlocked => "Blocked"
  | DataPhasePreparing => "Preparing" | DataPhaseRunning => "Running"
  | DataPhaseVerifying => "Verifying" | DataPhaseActivating => "Activating"
  | DataPhaseRollingBack => "RollingBack" | DataPhaseCancelling => "Cancelling"
  | DataPhaseCancelled => "Cancelled" | DataPhaseSucceeded => "Succeeded"
  | DataPhaseFailed => "Failed" | DataPhaseUnset => "" | DataPhaseOther s => s
  end%string.

Definition DesiredState_string (d : DesiredState) : string :=
  match d with
  | DesiredStateRunning => "Running" | DesiredStateStopped => "Stopped"
  | DesiredStateUnset => "" | DesiredStateOther s => s
  end%string.
#[export] Instance ArcadeOperationPhase_eq_dec : EqDecision ArcadeOperationPhase.
Proof. solve_decision. Defined.
#[export] Instance ObservedEndpoint_eq_dec : EqDecision ObservedEndpoint.
Proof. solve_decision. Defined.
#[export] Instance GameServerStatus_eq_dec : EqDecision GameServerStatus.
Proof. solve_decision. Defined.
