(* ===== verification/DataOperation.v ===== *)
(** * Durable backup and restore operations ([internal/platform/data/operation.go])

    The pure safety rules every status write of the backup and restore
    controllers is checked against: deterministic identities, the phase state
    machine, and the invariants that span request and observed status. *)

From Stdlib Require Import Ascii.
From stdpp Require Import base tactics list strings gmap numbers.
From S2P Require Import Prelude GoStrings Sha256 Regex ApiTypes.
Open Scope string_scope.
Open Scope list_scope.

(** ** Definitions *)

Inductive OperationKind := BackupOperation | RestoreOperation | OperationKindOther (s : string).

#[export] Instance OperationKind_eq_dec : EqDecision OperationKind.
Proof. solve_decision. Defined.

Definition OperationKind_string (k : OperationKind) : string :=
  match k with BackupOperation => "backup" | RestoreOperation => "restore" | OperationKindOther s => s end.

(** *** Deterministic identities *)

Definition restoreLabel (operationUID discriminator : string) : result string :=
  if operationUID == "" then fail "operation UID is required"
  else
    let digest := Sum256 (chars ("arcadectl/restore/" +:+ operationUID +:+ "/" +:+ discriminator)) in
    Ok ("restore-" +:+ EncodeToString (take 24 digest)).

Definition deterministicID (kind operationUID discriminator : string) : result string :=
  if operationUID == "" then fail "operation UID is required"
  else
    let digest := Sum256 (chars ("arcadectl/" +:+ kind +:+ "/" +:+ operationUID +:+ "/" +:+ discriminator)) in
    Ok (kind +:+ "-" +:+ EncodeToString digest).

Definition ArtifactID (operationUID : string) : result string :=
  deterministicID "backup" operationUID "".

Definition RestoreCandidateID (operationUID pathName : string) : result string :=
  if pathName == "" then fail "persistent path name is required"
  else restoreLabel operationUID ("claim/" +:+ pathName).

Definition RestoreDataIdentity (operationUID : string) : result string :=
  restoreLabel operationUID "data".

(** *** The phase state machine *)

Definition restoreOnlyPhase (phase : DataOperationPhase) : bool :=
  (phase == DataPhaseActivating) || (phase == DataPhaseRollingBack).

Definition validPhase (phase : DataOperationPhase) (allowEmpty : bool) : bool :=
  match phase with
  | DataPhaseUnset => allowEmpty
  | DataPhasePending | DataPhaseBlocked | DataPhasePreparing | DataPhaseRunning
  | DataPhaseVerifying | DataPhaseActivating | DataPhaseRollingBack | DataPhaseCancelling
  | DataPhaseCancelled | DataPhaseSucceeded | DataPhaseFailed => true
  | DataPhaseOther _ => false
  end.

Definition terminal (phase : DataOperationPhase) : bool :=
  (phase == DataPhaseCancelled) || (phase == DataPhaseSucceeded) || (phase == DataPhaseFailed).

Definition allowed (kind : OperationKind) (current next : DataOperationPhase) : bool :=
  if (current == DataPhaseUnset) && (next == DataPhaseCancelling) then true
  else if next == DataPhaseFailed then
    (current != DataPhaseUnset) && negb ((kind == RestoreOperation) && (current == DataPhaseActivating))
  else if next == DataPhaseCancelling then
    (current != DataPhaseUnset) && (current != DataPhaseRollingBack) &&
    negb ((kind == RestoreOperation) && (current == DataPhaseActivating))
  else if current == DataPhaseCancelling then next == DataPhaseCancelled
  else if current == DataPhaseBlocked then next == DataPhasePreparing
  else
    match current with
    | DataPhaseUnset => next == DataPhasePending
    | DataPhasePending => (next == DataPhasePreparing) || (next == DataPhaseBlocked)
    | DataPhasePreparing =>
        (next == DataPhaseRunning) || (next == DataPhaseBlocked) ||
        ((kind == BackupOperation) && (next == DataPhaseVerifying))
    | DataPhaseRunning => next == DataPhaseVerifying
    | DataPhaseVerifying =>
        if kind == BackupOperation then next == DataPhaseSucceeded else next == DataPhaseActivating
    | DataPhaseActivating =>
        (kind == RestoreOperation) && ((next == DataPhaseSucceeded) || (next == DataPhaseRollingBack))
    | DataPhaseRollingBack => false
    | _ => false
    end.

Definition ValidateTransition (kind : OperationKind) (current next : DataOperationPhase)
    (verified : bool) : result unit :=
  let args := [DataPhase_string current; DataPhase_string next] in
  if (kind != BackupOperation) && (kind != RestoreOperation) then
    failf "unsupported data operation kind %q" [OperationKind_string kind]
  else if negb (validPhase current true) || negb (validPhase next false) then
    failf "unsupported data operation phase transition %q -> %q" args
  else if (kind == BackupOperation) && (restoreOnlyPhase current || restoreOnlyPhase next) then
    failf "backup operation cannot use restore-only phase %q -> %q" args
  else if (next == DataPhaseSucceeded) && negb verified then
    fail "operation cannot succeed before verification"
  else if (kind == RestoreOperation) && (next == DataPhaseActivating) && negb verified then
    fail "restore cannot activate before candidate verification"
  else if current == next then Ok tt
  else if terminal current then failf "terminal phase %s cannot transition to %s" args
  else if (kind == RestoreOperation) && (current == DataPhaseRollingBack) &&
          ((next == DataPhaseFailed) || (next == DataPhaseCancelled)) then
    if negb verified then
      fail "restore rollback cannot become terminal before rollback verification"
    else Ok tt
  else if negb (allowed kind current next) then
    failf "invalid %s phase transition %s -> %s" (OperationKind_string kind :: args)
  else Ok tt.

(** *** Helpers on references, paths and conditions *)

Definition sameGameServer (left right : ExactGameServerReference) : bool :=
  (gsr_Name left == gsr_Name right) && (gsr_UID left == gsr_UID right) &&
  (gsr_Generation left == gsr_Generation right) && (gsr_DesiredState left == gsr_DesiredState right).

Definition sameLocal (left right : ExactLocalReference) : bool :=
  (ref_Namespace left == None) && (ref_Namespace right == None) &&
  (ref_Name left == ref_Name right) && (ref_UID left == ref_UID right).

Definition sameSecret (left right : ExactSecretReference) : bool :=
  sameLocal (sec_ref left) (sec_ref right) &&
  (sec_ResourceVersion left == sec_ResourceVersion right).

Fixpoint pathByName (paths : list DataPathIdentity) (name : string) : option DataPathIdentity :=
  match paths with
  | [] => None
  | path :: rest => if dp_Name path == name then Some path else pathByName rest name
  end.

Definition claimName (p : DataPathIdentity) : string := ref_Name (dp_ClaimRef p).
Definition claimUID (p : DataPathIdentity) : string := ref_UID (dp_ClaimRef p).

(** The pairwise aliasing loop of [completePathSet]. *)
Fixpoint aliasFree (label : string) (observed : list DataPathIdentity) : result unit :=
  match observed with
  | [] => Ok tt
  | path :: rest =>
      for_each (fun other =>
        if (claimName path == claimName other) || (claimUID path == claimUID other) then
          failf "%s data paths %q and %q alias a claim identity" [label; dp_Name path; dp_Name other]
        else Ok tt) rest ;;
      aliasFree label rest
  end.

Definition completePathSet (source observed : list DataPathIdentity) (label : string) : result unit :=
  if (len source == 0%Z) || (len observed != len source) then
    failf "%s data does not cover every source path" [label]
  else
    for_each (fun sourcePath =>
      let missing := failf "%s data path %q is missing or incompatible" [label; dp_Name sourcePath] in
      match pathByName observed (dp_Name sourcePath) with
      | None => missing
      | Some path =>
          if (dp_MountPath path != dp_MountPath sourcePath) || (claimName path == "") ||
             (claimUID path == "")
          then missing else Ok tt
      end) source ;;
    aliasFree label observed.

Definition distinctClaims (candidate previous : list DataPathIdentity) : result unit :=
  for_each (fun candidatePath =>
    for_each (fun previousPath =>
      if (claimName candidatePath == claimName previousPath) ||
         (claimUID candidatePath == claimUID previousPath) then
        failf "candidate path %q aliases previous path %q" [dp_Name candidatePath; dp_Name previousPath]
      else Ok tt) previous) candidate.

Definition actionableReasons : list string :=
  [ReasonInvalidReference; ReasonIdentityMismatch; ReasonSecretUnavailable;
   ReasonStorageUnavailable; ReasonColdStopPending; ReasonOperationConflict;
   ReasonWorkerRetrying; ReasonWorkerFailed; ReasonVerificationFailed].

Definition hasActionableCondition (conditions : list Condition) (generation : Z) : bool :=
  existsb (fun condition =>
    if (cond_ObservedGeneration condition != generation) ||
       (cond_Status condition == ConditionTrue) ||
       (TrimSpace (cond_Message condition) == "") then false
    else existsb (fun reason => cond_Reason condition == reason) actionableReasons) conditions.

Definition verifiedArtifact (artifact : option BackupArtifact) : bool :=
  match artifact with
  | None => false
  | Some a =>
      (av_Result (art_Verification a) == VerificationVerified) &&
      bool_decide (is_Some (av_VerifiedAt (art_Verification a)))
  end.

Definition validateRuntimeDisposition (policy : RestartPolicy) (subject : ExactGameServerReference)
    (fence : ColdDataFence) (disposition : option RuntimeDisposition) : result unit :=
  match disposition with
  | None => fail "terminal fenced operation requires a runtime disposition"
  | Some disposition =>
      let fenceGeneration := gsr_Generation (fence_GameServer fence) in
      let '(wantState, wantPhase, wantGeneration) :=
        if policy == RestartRestorePreviousState then
          if gsr_DesiredState subject == DesiredStateRunning
          then (gsr_DesiredState subject, PhaseReady, int64 (fenceGeneration + 1))
          else (gsr_DesiredState subject, PhaseStopped, fenceGeneration)
        else (DesiredStateStopped, PhaseStopped, fenceGeneration) in
      let observed := rt_GameServer disposition in
      if (gsr_Name observed != gsr_Name subject) || (gsr_UID observed != gsr_UID subject) ||
         (gsr_DesiredState observed != wantState) || (gsr_Generation observed != wantGeneration) ||
         (rt_Phase disposition != wantPhase) then
        fail "runtime disposition does not satisfy the requested restart policy"
      else Ok tt
  end.

(** *** Status validation *)

Definition isSome {A} (o : option A) : bool := match o with Some _ => true | None => false end.

Definition validateFence (subject : ExactGameServerReference) (fence : option ColdDataFence) :
    result unit :=
  match fence with
  | None => Ok tt
  | Some f =>
      let fenced := fence_GameServer f in
      let expectedGeneration :=
        if gsr_DesiredState subject == DesiredStateRunning
        then int64 (gsr_Generation subject + 1) else gsr_Generation subject in
      if (gsr_Name fenced != gsr_Name subject) || (gsr_UID fenced != gsr_UID subject) ||
         (gsr_DesiredState fenced != DesiredStateStopped) ||
         (gsr_Generation fenced != expectedGeneration) then
        fail "cold data fence does not identify a stopped generation of the requested GameServer"
      else Ok tt
  end.

Definition validateCommonStatus (kind : OperationKind) (request : DataOperationRequest)
    (subject : ExactGameServerReference) (status : DataOperationStatus)
    (operationGeneration : Z) : result unit :=
  let phase := ds_Phase status in
  if negb (validPhase phase false) then
    failf "status has unsupported or empty phase %q" [DataPhase_string phase]
  else if (kind == BackupOperation) && restoreOnlyPhase phase then
    failf "backup status cannot use restore-only phase %q" [DataPhase_string phase]
  else if (ds_ObservedGeneration status != operationGeneration) || (operationGeneration <? 1)%Z then
    fail "status observedGeneration must equal the current operation generation"
  else if dor_CancelRequested request && (phase != DataPhaseCancelling) &&
          (phase != DataPhaseCancelled) && (phase != DataPhaseFailed) &&
          negb ((kind == RestoreOperation) && (phase == DataPhaseRollingBack)) then
    fail "cancelRequested blocks further operation progress"
  else if ((phase == DataPhaseBlocked) || (phase == DataPhaseFailed)) &&
          negb (hasActionableCondition (ds_Conditions status) (ds_ObservedGeneration status)) then
    failf "%s status requires a current actionable condition" [DataPhase_string phase]
  else
    validateFence subject (ds_Fence status) ;;
    if ((phase == DataPhaseRunning) || (phase == DataPhaseVerifying) ||
        (phase == DataPhaseActivating) || (phase == DataPhaseRollingBack) ||
        (phase == DataPhaseSucceeded)) && negb (isSome (ds_Fence status)) then
      fail "data work requires an immutable cold data fence"
    else if match ds_Source status, ds_Artifact status with
            | Some source, Some artifact => art_PathCount artifact != int32 (len (src_Paths source))
            | _, _ => false
            end then
      fail "artifact path count does not match the resolved source manifest"
    else if (phase == DataPhaseSucceeded) &&
            (negb (isSome (ds_Source status)) || negb (verifiedArtifact (ds_Artifact status))) then
      fail "succeeded operation requires a verified artifact and source manifest"
    else if (phase == DataPhaseSucceeded) && negb (isSome (ds_CompletedAt status)) then
      fail "succeeded operation requires completedAt"
    else
      match ds_Fence status with
      | Some fence =>
          if (kind == BackupOperation) && terminal phase then
            validateRuntimeDisposition (dor_RestartPolicy request) subject fence (ds_Runtime status)
          else Ok tt
      | None => Ok tt
      end.

Definition ValidateBackupStatus (operation : option GameBackup) : result unit :=
  match operation with
  | None => fail "GameBackup is required"
  | Some op =>
      let status := gb_Status op in
      let spec := gb_Spec op in
      validateCommonStatus BackupOperation (gbs_Request spec) (gbs_Source spec) status
        (gb_Generation op) ;;
      if match ds_Source status with
         | Some source => negb (sameGameServer (src_GameServer source) (gbs_Source spec))
         | None => false
         end then
        fail "backup source snapshot does not match the requested GameServer identity"
      else
        match ds_Artifact status with
        | None => Ok tt
        | Some artifact =>
            let idMismatch := fail "backup artifact ID is not derived from the GameBackup UID" in
            match ArtifactID (gb_UID op) with
            | Err _ => idMismatch
            | Ok expectedID =>
                if art_ID artifact != expectedID then idMismatch
                else
                  let provenance := art_Provenance artifact in
                  if (ref_Name (ap_BackupRef provenance) != gb_Name op) ||
                     (ref_UID (ap_BackupRef provenance) != gb_UID op) ||
                     negb (sameSecret (ap_RepositorySecretRef provenance)
                                      (dor_RepositorySecretRef (gbs_Request spec))) then
                    fail "backup artifact provenance does not match the operation and repository"
                  else Ok tt
            end
        end
  end.

(** The checks on a restore's journal of operation-owned generations. *)
Definition validateRuntimeJournal (status : GameRestoreStatus) : result unit :=
  let common := rs_DataOperationStatus status in
  match rs_RuntimeJournal status with
  | None => Ok tt
  | Some journal =>
      match ds_Fence common with
      | None => fail "restore runtime intent requires a cold data fence"
      | Some f =>
          let fence := gsr_Generation (fence_GameServer f) in
          let recovery := rj_PreviousRecoveryGeneration journal in
          let start := rj_CandidateStartGeneration journal in
          let stop := rj_RollbackStopGeneration journal in
          let restart := rj_RollbackRestartGeneration journal in
          let activated := isSome (rs_ActivationStartedAt status) in
          if ((recovery <? 0) || (start <? 0) || (stop <? 0) || (restart <? 0))%Z then
            fail "restore runtime intent generation is invalid"
          else if (recovery != 0%Z) &&
                  ((recovery != int64 (fence + 1)) || (start != 0%Z) || (stop != 0%Z) ||
                   (restart != 0%Z) || activated) then
            fail "previous-world recovery intent conflicts with activation"
          else if (start != 0%Z) && ((start != int64 (fence + 1)) || negb activated) then
            fail "candidate start intent is not the exact first post-fence generation"
          else if (stop != 0%Z) && ((start == 0%Z) || (stop != int64 (fence + 2))) then
            fail "rollback stop intent is not after candidate start"
          else
            let want := if stop != 0%Z then int64 (fence + 3) else int64 (fence + 1) in
            if (restart != 0%Z) && (negb activated || (restart != want)) then
              fail "rollback restart intent is not the exact post-fence generation"
            else Ok tt
      end
  end.

Definition validateRestoreRuntimeStatus (operation : GameRestore) : result unit :=
  let status := gr_Status operation in
  let common := rs_DataOperationStatus status in
  let phase := ds_Phase common in
  let target := grs_Target (gr_Spec operation) in
  let policy := dor_RestartPolicy (grs_Request (gr_Spec operation)) in
  validateRuntimeJournal status ;;
  match ds_Fence common with
  | None => Ok tt
  | Some fence =>
      if negb (terminal phase) then Ok tt
      else if (policy != RestartRestorePreviousState) ||
              (gsr_DesiredState target != DesiredStateRunning) then
        validateRuntimeDisposition policy target fence (ds_Runtime common)
      else
        match ds_Runtime common with
        | None => fail "terminal fenced restore requires a runtime disposition"
        | Some runtime =>
            let activated := isSome (rs_ActivationStartedAt status) in
            let rolledBack := (phase == DataPhaseFailed) || (phase == DataPhaseCancelled) in
            let wantGeneration :=
              match rs_RuntimeJournal status with
              | None => 0%Z
              | Some journal =>
                  if (phase == DataPhaseSucceeded) && activated then rj_CandidateStartGeneration journal
                  else if activated && rolledBack then rj_RollbackRestartGeneration journal
                  else if negb activated && rolledBack then rj_PreviousRecoveryGeneration journal
                  else 0%Z
              end in
            let observed := rt_GameServer runtime in
            if (wantGeneration == 0%Z) || (gsr_Generation observed != wantGeneration) ||
               (gsr_Name observed != gsr_Name target) || (gsr_UID observed != gsr_UID target) ||
               (gsr_DesiredState observed != DesiredStateRunning) ||
               (rt_Phase runtime != PhaseReady) then
              fail "restore runtime disposition does not match its durable generation intent"
            else Ok tt
        end
  end.

(** The part of [ValidateRestoreStatus] that runs once activation has begun:
    complete candidate and previous sets, isolation, deterministic claim
    names, and the data a terminal phase leaves active. *)
Definition validateActivation (operation : GameRestore) : result unit :=
  let status := gr_Status operation in
  let common := rs_DataOperationStatus status in
  let phase := ds_Phase common in
  match ds_Source common with
  | None => fail "restore activation requires a resolved source manifest"
  | Some source =>
      let paths := src_Paths source in
      completePathSet paths (rs_CandidateData status) "candidate" ;;
      if match rs_CandidateVerification status, ds_Artifact common with
         | Some verification, Some artifact =>
             (cv_Result verification != VerificationVerified) ||
             (cv_ManifestDigest verification != art_ManifestDigest artifact) ||
             (cv_PathCount verification != int32 (len paths))
         | _, _ => true
         end then
        fail "restore activation requires verified candidate contents matching the artifact manifest"
      else
        completePathSet paths (rs_PreviousData status) "previous" ;;
        distinctClaims (rs_CandidateData status) (rs_PreviousData status) ;;
        for_each (fun candidate =>
          let bad := failf "candidate path %q does not use its deterministic restore identity"
                           [dp_Name candidate] in
          match RestoreCandidateID (gr_UID operation) (dp_Name candidate) with
          | Err _ => bad
          | Ok expectedName => if claimName candidate != expectedName then bad else Ok tt
          end) (rs_CandidateData status) ;;
        if (phase == DataPhaseFailed) || (phase == DataPhaseCancelled) then
          or_fail (completePathSet paths (rs_ActiveData status) "active")
            "terminal restore after activation requires complete rollback data" ;;
          for_each (fun previous =>
            let bad := failf "active path %q does not identify its verified rollback claim"
                             [dp_Name previous] in
            match pathByName (rs_ActiveData status) (dp_Name previous) with
            | None => bad
            | Some active =>
                if (dp_MountPath active != dp_MountPath previous) ||
                   (claimName active != claimName previous) || (claimUID active != claimUID previous)
                then bad else Ok tt
            end) (rs_PreviousData status)
        else if phase != DataPhaseSucceeded then Ok tt
        else
          completePathSet paths (rs_ActiveData status) "active" ;;
          for_each (fun candidate =>
            let bad := failf "active path %q does not identify its verified candidate claim"
                             [dp_Name candidate] in
            match pathByName (rs_ActiveData status) (dp_Name candidate) with
            | None => bad
            | Some active =>
                if (claimName active != claimName candidate) || (claimUID active != claimUID candidate)
                then bad else Ok tt
            end) (rs_CandidateData status)
  end.

Definition ValidateRestoreStatus (operation : option GameRestore) : result unit :=
  match operation with
  | None => fail "GameRestore is required"
  | Some op =>
      let status := gr_Status op in
      let common := rs_DataOperationStatus status in
      let phase := ds_Phase common in
      let spec := gr_Spec op in
      let attempts := rs_PopulateAttempts status in
      if ((attempts <? 0) || (attempts >? 3))%Z ||
         (rs_PopulateRetryPending status && ((attempts == 0%Z) || (phase != DataPhaseRunning))) then
        fail "restore candidate execution attempts or retry intent are invalid"
      else if (rs_PopulateJobUID status != "") && (attempts == 0%Z) then
        fail "restore candidate Job identity requires a durable attempt"
      else
        validateCommonStatus RestoreOperation (grs_Request spec) (grs_Target spec) common
          (gr_Generation op) ;;
        validateRestoreRuntimeStatus op ;;
        if isSome (rs_PreflightVerifiedAt status) &&
           (negb (isSome (ds_Source common)) || negb (verifiedArtifact (ds_Artifact common))) then
          fail "restore repository preflight requires a verified source artifact"
        else if match ds_Artifact common with
                | None => false
                | Some artifact =>
                    match ArtifactID (ref_UID (grs_BackupRef spec)) with
                    | Err _ => true
                    | Ok expectedID =>
                        (art_ID artifact != expectedID) ||
                        negb (sameLocal (ap_BackupRef (art_Provenance artifact)) (grs_BackupRef spec)) ||
                        negb (sameSecret (ap_RepositorySecretRef (art_Provenance artifact))
                                         (dor_RepositorySecretRef (grs_Request spec)))
                    end
                end then
          fail "restore artifact provenance does not match the exact backup and repository"
        else
          let activationPhase := (phase == DataPhaseActivating) || (phase == DataPhaseRollingBack) ||
                                 (phase == DataPhaseSucceeded) in
          let activated := isSome (rs_ActivationStartedAt status) in
          if activationPhase && negb activated then
            fail "restore activation requires durable activation history"
          else if negb activationPhase && negb activated then Ok tt
          else validateActivation op
  end.

(** ** The abstract state machine

    [PhaseStep kind current next verified] is the contract of the phase
    field, one constructor per kind of move. *)

Inductive PhaseStep : OperationKind -> DataOperationPhase -> DataOperationPhase -> bool -> Prop :=
| step_accept k v : PhaseStep k DataPhaseUnset DataPhasePending v
| step_prepare k v : PhaseStep k DataPhasePending DataPhasePreparing v
| step_block_pending k v : PhaseStep k DataPhasePending DataPhaseBlocked v
| step_block_preparing k v : PhaseStep k DataPhasePreparing DataPhaseBlocked v
| step_unblock k v : PhaseStep k DataPhaseBlocked DataPhasePreparing v
| step_run k v : PhaseStep k DataPhasePreparing DataPhaseRunning v
| step_verify k v : PhaseStep k DataPhaseRunning DataPhaseVerifying v
| step_adopt v : PhaseStep BackupOperation DataPhasePreparing DataPhaseVerifying v
| step_backup_done : PhaseStep BackupOperation DataPhaseVerifying DataPhaseSucceeded true
| step_activate : PhaseStep RestoreOperation DataPhaseVerifying DataPhaseActivating true
| step_restore_done : PhaseStep RestoreOperation DataPhaseActivating DataPhaseSucceeded true
| step_roll_back v : PhaseStep RestoreOperation DataPhaseActivating DataPhaseRollingBack v
| step_rolled_back_failed : PhaseStep RestoreOperation DataPhaseRollingBack DataPhaseFailed true
| step_rolled_back_cancelled : PhaseStep RestoreOperation DataPhaseRollingBack DataPhaseCancelled true
| step_fail k p v :
    p ∈ [DataPhasePending; DataPhaseBlocked; DataPhasePreparing; DataPhaseRunning;
         DataPhaseVerifying; DataPhaseCancelling] -> PhaseStep k p DataPhaseFailed v
| step_cancel k p v :
    p ∈ [DataPhaseUnset; DataPhasePending; DataPhaseBlocked; DataPhasePreparing;
         DataPhaseRunning; DataPhaseVerifying] -> PhaseStep k p DataPhaseCancelling v
| step_cancelled k v : PhaseStep k DataPhaseCancelling DataPhaseCancelled v
| step_stay k p v :
    p ∈ [DataPhasePending; DataPhaseBlocked; DataPhasePreparing; DataPhaseRunning;
         DataPhaseVerifying; DataPhaseCancelling; DataPhaseCancelled; DataPhaseFailed] ->
    PhaseStep k p p v
| step_stay_succeeded k : PhaseStep k DataPhaseSucceeded DataPhaseSucceeded true
| step_stay_activating : PhaseStep RestoreOperation DataPhaseActivating DataPhaseActivating true
| step_stay_rolling v : PhaseStep RestoreOperation DataPhaseRollingBack DataPhaseRollingBack v.

#[local] Hint Constructors PhaseStep : phase.

Definition accepts (kind : OperationKind) (current next : DataOperationPhase) (verified : bool) : Prop :=
  ValidateTransition kind current next verified = Ok tt.

Definition dataKind (k : OperationKind) : bool :=
  match k with BackupOperation | RestoreOperation => true | OperationKindOther _ => false end.

(** The executable table agrees with the abstract one on every pair of
    phases; the unknown phases are rejected whatever their text. *)
Lemma accepts_PhaseStep k p q v :
  dataKind k = true -> accepts k p q v -> PhaseStep k p q v.
Proof.
  intros Hk H. unfold accepts in H.
  destruct k; [| |done]; destruct p, q, v; vm_compute in H; try discriminate H;
    solve [constructor; try (set_solver) | apply step_fail; set_solver | apply step_cancel; set_solver
          | apply step_stay; set_solver | eauto with phase].
Qed.

Lemma PhaseStep_accepts k p q v :
  dataKind k = true -> PhaseStep k p q v -> accepts k p q v.
Proof.
  intros Hk H. unfold accepts.
  destruct k as [| |]; [| |done]; inversion H; subst;
    repeat match goal with
    | Hin : _ ∈ _ :: _ |- _ => apply elem_of_cons in Hin as [->|Hin]
    | Hin : _ ∈ [] |- _ => by apply not_elem_of_nil in Hin
    end; try (destruct v); reflexivity.
Qed.

(** ** Histories

    A history is a sequence of accepted status writes: the phase written and
    whether verification evidence was presented with it. *)

Inductive history (k : OperationKind) :
    list (DataOperationPhase * bool) -> DataOperationPhase -> DataOperationPhase -> Prop :=
| history_nil p : history k [] p p
| history_snoc tr p q r v :
    history k tr p q -> accepts k q r v -> history k (tr ++ [(r, v)]) p r.

(** A history that ends in a phase it did not start in entered that phase
    from another one. *)
Lemma history_entry k tr p r :
  history k tr p r -> p <> r ->
  exists t1 q v t2, tr = t1 ++ (r, v) :: t2 /\ history k t1 p q /\ q <> r /\ accepts k q r v.
Proof.
  induction 1 as [|tr p q r v Hh IH Ha]; [done|]. intros Hne.
  destruct (decide (q = r)) as [->|Hqr].
  - destruct (IH Hne) as (t1 & q' & v' & t2 & -> & ? & ? & ?).
    exists t1, q', v', (t2 ++ [(r, v)]). by rewrite <- app_assoc.
  - by exists tr, q, v, [].
Qed.

Ltac entry_source H :=
  apply accepts_PhaseStep in H; [|done]; inversion H; subst;
  repeat match goal with
  | Hin : _ ∈ _ :: _ |- _ => apply elem_of_cons in Hin as [?|Hin]
  | Hin : _ ∈ [] |- _ => by apply not_elem_of_nil in Hin
  end; simplify_eq.

Lemma history_into_succeeded_restore t p :
  history RestoreOperation t p DataPhaseSucceeded -> p <> DataPhaseSucceeded ->
  exists t1 t2, t = t1 ++ (DataPhaseSucceeded, true) :: t2 /\
    history RestoreOperation t1 p DataPhaseActivating.
Proof.
  intros Hh Hne. destruct (history_entry _ _ _ _ Hh Hne) as (t1 & q & v & t2 & -> & ? & ? & Ha).
  entry_source Ha; eauto.
Qed.

Lemma history_into_activating t p :
  history RestoreOperation t p DataPhaseActivating -> p <> DataPhaseActivating ->
  exists t1 t2, t = t1 ++ (DataPhaseActivating, true) :: t2 /\
    history RestoreOperation t1 p DataPhaseVerifying.
Proof.
  intros Hh Hne. destruct (history_entry _ _ _ _ Hh Hne) as (t1 & q & v & t2 & -> & ? & ? & Ha).
  entry_source Ha; eauto.
Qed.

Lemma history_into_verifying_restore t p :
  history RestoreOperation t p DataPhaseVerifying -> p <> DataPhaseVerifying ->
  exists t1 v t2, t = t1 ++ (DataPhaseVerifying, v) :: t2 /\
    history RestoreOperation t1 p DataPhaseRunning.
Proof.
  intros Hh Hne. destruct (history_entry _ _ _ _ Hh Hne) as (t1 & q & v & t2 & -> & ? & ? & Ha).
  entry_source Ha; eauto.
Qed.

Lemma history_terminal k t p q : dataKind k = true ->
  history k t p q -> terminal p = true -> q = p.
Proof.
  intros Hk. induction 1 as [|t p q r v Hh IH Ha]; [done|]. intros Ht. rewrite (IH Ht) in Ha.
  apply accepts_PhaseStep in Ha; [|done].
  destruct p; vm_compute in Ht; try discriminate Ht; inversion Ha; subst; try done;
    repeat match goal with
    | Hin : _ ∈ _ :: _ |- _ => apply elem_of_cons in Hin as [?|Hin]
    | Hin : _ ∈ [] |- _ => by apply not_elem_of_nil in Hin
    end; simplify_eq; done.
Qed.

Lemma history_app k t1 t2 p q r : history k t1 p q -> history k t2 q r -> history k (t1 ++ t2) p r.
Proof.
  intros H1 H2. induction H2 as [|t2 q r' r v H2 IH Ha]; [by rewrite app_nil_r|].
  rewrite app_assoc. by apply history_snoc with r'; [apply IH|].
Qed.

Lemma history_one k p q v : accepts k p q v -> history k [(q, v)] p q.
Proof. intros. by apply (history_snoc k [] p p q v); [constructor|]. Qed.

(** Replaying a list of status writes decides whether it is a history. *)
Fixpoint replay (k : OperationKind) (t : list (DataOperationPhase * bool)) (p : DataOperationPhase) :
    option DataOperationPhase :=
  match t with
  | [] => Some p
  | (q, v) :: t' => if is_ok (ValidateTransition k p q v) then replay k t' q else None
  end.

Lemma replay_history k t p q : replay k t p = Some q -> history k t p q.
Proof.
  revert p. induction t as [|[r v] t IH]; cbn; intros p H; [injection H as ->; constructor|].
  destruct (is_ok _) eqn:E; [|done]. apply is_ok_unit in E.
  change ((r, v) :: t) with ([(r, v)] ++ t).
  apply history_app with r; [by apply history_one | by apply IH].
Qed.

(** Phases of a history are always supported ones. *)
Lemma accepts_valid k p q v : accepts k p q v -> validPhase q false = true.
Proof.
  unfold accepts, ValidateTransition. intros H. ok_inv; bool_prop; done.
Qed.

(** ** Theorems: the state machine *)

(** C32: [ValidateTransition] accepts exactly the moves of the abstract state
    machine [PhaseStep], for the two operation kinds and no other kind. *)
Theorem ValidateTransition_refines k p q v :
  ValidateTransition k p q v = Ok tt <-> dataKind k = true /\ PhaseStep k p q v.
Proof.
  split.
  - intros H. assert (dataKind k = true) as Hk by (destruct k; [done | done | discriminate H]).
    split; [done | by apply accepts_PhaseStep].
  - intros [Hk H]. by apply PhaseStep_accepts.
Qed.

(** A restore that reports success has, in this order, run a worker,
    entered verification, activated its candidate with verification evidence,
    and succeeded with verification evidence. *)
Theorem restore_success_history t
  (H : history RestoreOperation t DataPhaseUnset DataPhaseSucceeded) :
  exists t1 v1 t2 v2 t3 t4 t5,
    t = t1 ++ (DataPhaseRunning, v1) :: t2 ++ (DataPhaseVerifying, v2) :: t3 ++
        (DataPhaseActivating, true) :: t4 ++ (DataPhaseSucceeded, true) :: t5.
Proof.
  destruct (history_into_succeeded_restore _ _ H) as (a & t5 & -> & Ha); [done|].
  destruct (history_into_activating _ _ Ha) as (b & t4 & -> & Hb); [done|].
  destruct (history_into_verifying_restore _ _ Hb) as (c & v2 & t3 & -> & Hc); [done|].
  destruct (history_entry _ _ _ _ Hc) as (t1 & q & v1 & t2 & -> & _); [done|].
  exists t1, v1, t2, v2, t3, t4, t5. by repeat progress (rewrite <- ?app_assoc; cbn [app]).
Qed.

Definition sample_restore_history : list (DataOperationPhase * bool) :=
  [(DataPhasePending, false); (DataPhasePreparing, false); (DataPhaseRunning, false);
   (DataPhaseVerifying, false); (DataPhaseActivating, true); (DataPhaseSucceeded, true)].

Lemma restore_success_history_witness :
  exists t1 v1 t2 v2 t3 t4 t5, sample_restore_history =
    t1 ++ (DataPhaseRunning, v1) :: t2 ++ (DataPhaseVerifying, v2) :: t3 ++
        (DataPhaseActivating, true) :: t4 ++ (DataPhaseSucceeded, true) :: t5.
Proof. apply (restore_success_history sample_restore_history). apply replay_history. reflexivity. Defined.

(** Once a restore has entered activation it stays in activation,
    rollback or a terminal phase, and it can only fail or be cancelled after
    entering rollback and presenting rollback verification. *)
Theorem restore_activation_is_settled t q
  (H : history RestoreOperation t DataPhaseActivating q) :
  q ∈ [DataPhaseActivating; DataPhaseRollingBack; DataPhaseSucceeded; DataPhaseFailed;
       DataPhaseCancelled] /\
  (q = DataPhaseFailed \/ q = DataPhaseCancelled ->
   exists t1 t2, t = t1 ++ (q, true) :: t2 /\
     history RestoreOperation t1 DataPhaseActivating DataPhaseRollingBack).
Proof.
  remember DataPhaseActivating as p eqn:Hp.
  induction H as [|t p q r v Hh IH Ha]; subst; [split; [set_solver | intros [?|?]; done]|].
  destruct (IH eq_refl) as [Hq Hrb].
  repeat (apply elem_of_cons in Hq as [->|Hq]); [..|by apply not_elem_of_nil in Hq];
    entry_source Ha; (split; [set_solver|]); intros [?|?]; simplify_eq;
    try (exists t, []; done);
    match goal with
    | Hrb : _ \/ _ -> exists _ _, _ |- _ =>
        destruct Hrb as (t1 & t2 & -> & ?); [auto|]; eexists t1, (t2 ++ _);
        by rewrite <- app_assoc
    end.
Qed.

Lemma restore_activation_is_settled_witness :
  let t := [(DataPhaseRollingBack, false); (DataPhaseFailed, true)] in
  history RestoreOperation t DataPhaseActivating DataPhaseFailed /\
  exists t1 t2, t = t1 ++ (DataPhaseFailed, true) :: t2 /\
     history RestoreOperation t1 DataPhaseActivating DataPhaseRollingBack.
Proof.
  intros t.
  assert (history RestoreOperation t DataPhaseActivating DataPhaseFailed) as H.
  { apply replay_history. reflexivity. }
  split; [exact H|]. apply (restore_activation_is_settled t DataPhaseFailed H). by left.
Defined.

Lemma finish_from k p : dataKind k = true -> p = DataPhaseUnset \/ validPhase p false = true ->
  (k = BackupOperation -> restoreOnlyPhase p = false) ->
  exists t q, history k t p q /\ terminal q = true.
Proof.
  intros Hk Hp Hr.
  destruct (terminal p) eqn:Ht; [exists [], p; split; [constructor | done]|].
  assert (restoreOnlyPhase p = true \/ accepts k p DataPhaseCancelling true \/
          p = DataPhaseCancelling) as [Ho|[Hc| ->]].
  { destruct k; [| |done]; destruct p, Hp; try discriminate; try done; auto;
      right; left; reflexivity. }
  - destruct k; [| |done]; [by rewrite Hr in Ho|].
    destruct p; try discriminate Ho.
    + exists [(DataPhaseSucceeded, true)], DataPhaseSucceeded. split; [by apply history_one | done].
    + exists [(DataPhaseFailed, true)], DataPhaseFailed. split; [by apply history_one | done].
  - exists ([(DataPhaseCancelling, true)] ++ [(DataPhaseCancelled, true)]), DataPhaseCancelled.
    split; [|done]. apply history_app with DataPhaseCancelling; apply history_one; [done|].
    by destruct k.
  - exists [(DataPhaseCancelled, true)], DataPhaseCancelled. split; [|done].
    apply history_one. by destruct k.
Qed.

(** C35: no accepted history strands an operation: from every phase it can
    reach, some further accepted history ends in a terminal phase. *)
Theorem operation_can_finish k t p (Hk : dataKind k = true)
  (H : history k t DataPhaseUnset p) :
  exists t' q, history k t' p q /\ terminal q = true.
Proof.
  inversion H as [|t' p' q r v Hh Ha]; subst; [by apply finish_from; auto|].
  apply finish_from; [done | right; by eapply accepts_valid |].
  intros ->. apply accepts_PhaseStep in Ha; [|done].
  inversion Ha; subst;
    repeat match goal with
    | Hin : _ ∈ _ :: _ |- _ => apply elem_of_cons in Hin as [->|Hin]
    | Hin : _ ∈ [] |- _ => by apply not_elem_of_nil in Hin
    end; done.
Qed.

Lemma operation_can_finish_witness :
  exists t' q, history RestoreOperation t' DataPhaseSucceeded q /\ terminal q = true.
Proof.
  apply (operation_can_finish RestoreOperation sample_restore_history); [reflexivity|].
  apply replay_history. reflexivity.
Defined.

(** A terminal phase is final: no accepted history leaves it. *)
Theorem terminal_is_final k t p q (Hk : dataKind k = true) (Ht : terminal p = true)
  (H : history k t p q) : q = p.
Proof. by eapply history_terminal. Qed.

Lemma terminal_is_final_witness :
  history BackupOperation [(DataPhaseFailed, false)] DataPhaseFailed DataPhaseFailed /\
  DataPhaseFailed = DataPhaseFailed.
Proof.
  assert (history BackupOperation [(DataPhaseFailed, false)] DataPhaseFailed DataPhaseFailed) as H
    by (apply history_one; reflexivity).
  split; [exact H|].
  exact (terminal_is_final BackupOperation [(DataPhaseFailed, false)] DataPhaseFailed DataPhaseFailed
    eq_refl eq_refl H).
Defined.
