(* ===== verification/DataStatus.v ===== *)
(** * What an accepted backup or restore status guarantees

    Theorems about [ValidateBackupStatus] and [ValidateRestoreStatus] of
    [DataOperation]: the controllers run them on the complete candidate
    status before every status write, so what acceptance implies holds of
    every durable status. *)

From Stdlib Require Import Ascii.
From stdpp Require Import base tactics list strings gmap numbers.
From S2P Require Import Prelude GoStrings Sha256 Regex ApiTypes K8s DataOperation.
Open Scope string_scope.
Open Scope list_scope.

(** ** Path sets *)

Lemma pathByName_Some paths name p :
  pathByName paths name = Some p -> p ∈ paths /\ dp_Name p = name.
Proof.
  induction paths as [|q paths IH]; cbn; [done|]. case_bool_decide.
  - intros [= ->]. split; [by left | done].
  - intros [? ?]%IH. split; [by right | done].
Qed.

Lemma pathByName_unique paths p :
  NoDup (dp_Name <$> paths) -> p ∈ paths -> pathByName paths (dp_Name p) = Some p.
Proof.
  induction paths as [|q paths IH]; cbn; [intros _ H; inversion H|].
  rewrite list.NoDup_cons. intros [Hq Hnd] Hp. apply elem_of_cons in Hp as [->|Hp].
  - by rewrite bool_decide_eq_true_2.
  - rewrite bool_decide_eq_false_2; [by apply IH|]. intros E. apply Hq. rewrite E.
    by apply list_elem_of_fmap_2.
Qed.

Lemma aliasFree_NoDup label observed :
  aliasFree label observed = Ok tt ->
  NoDup (claimName <$> observed) /\ NoDup (claimUID <$> observed).
Proof.
  induction observed as [|p rest IH]; cbn [aliasFree]; [split; constructor|]. intros H. ok_inv.
  destruct x. rewrite for_each_ok in Hrun. destruct (IH H) as [? ?].
  split; cbn; apply list.NoDup_cons; (split; [|done]); rewrite list_elem_of_fmap; intros (q & E & Hq);
    specialize (Hrun q Hq); ok_inv; bool_prop; done.
Qed.

(** Every requirement of [completePathSet], as a proposition. *)
Record CompletePathSet (source observed : list DataPathIdentity) : Prop := {
  cps_length : length observed = length source;
  cps_nonempty : source <> [];
  cps_match : forall s, s ∈ source -> exists p,
    pathByName observed (dp_Name s) = Some p /\ dp_MountPath p = dp_MountPath s /\
    claimName p <> "" /\ claimUID p <> "";
  cps_names : NoDup (claimName <$> observed);
  cps_uids : NoDup (claimUID <$> observed) }.

Lemma completePathSet_ok source observed label :
  completePathSet source observed label = Ok tt -> CompletePathSet source observed.
Proof.
  unfold completePathSet. intros H. ok_inv. destruct x. bool_prop.
  rewrite for_each_ok in Hrun. destruct (aliasFree_NoDup _ _ H). unfold len in *.
  split; try done; [lia | intros ->; done |].
  intros s Hs. specialize (Hrun s Hs). destruct (pathByName _ _) as [p|]; [|discriminate].
  ok_inv. bool_prop. eauto.
Qed.

(** An observed path set accepted for a source manifest with distinct
    path names covers it exactly: the path names are the manifest's, each with
    the manifest's mount path, and no two paths share a claim name or UID. *)
Theorem completePathSet_exact source observed label
  (Hnd : NoDup (dp_Name <$> source)) (H : completePathSet source observed label = Ok tt) :
  Permutation (dp_Name <$> source) (dp_Name <$> observed) /\
  (forall p, p ∈ observed -> exists s, s ∈ source /\ dp_Name s = dp_Name p /\
                             dp_MountPath s = dp_MountPath p) /\
  NoDup (claimName <$> observed) /\ NoDup (claimUID <$> observed).
Proof.
  apply completePathSet_ok in H. destruct H as [Hlen _ Hm Hn Hu].
  assert (Permutation (dp_Name <$> source) (dp_Name <$> observed)) as HP.
  { apply NoDup_fmap_length_eq; [done | done |]. intros s (p & [Hp E]%pathByName_Some & _)%Hm.
    rewrite <- E. by apply list_elem_of_fmap_2. }
  repeat split; try done. intros p Hp.
  assert (dp_Name p ∈ dp_Name <$> source) as Hin by (rewrite HP; by apply list_elem_of_fmap_2).
  apply list_elem_of_fmap in Hin as (s & Es & Hs). exists s. split; [done|]. split; [done|].
  destruct (Hm s Hs) as (p' & Hp' & E & _).
  rewrite <- Es, (pathByName_unique observed) in Hp'; [congruence | by rewrite <- HP | done].
Qed.

Definition sample_ref (n u : string) : ExactLocalReference := MkRef None n u.
Definition sample_world : DataPathIdentity := MkPath "world" "/data/world" (sample_ref "pvc-a" "uid-a").
Definition sample_mods : DataPathIdentity := MkPath "mods" "/data/mods" (sample_ref "pvc-b" "uid-b").

Lemma completePathSet_exact_witness :
  Permutation (dp_Name <$> [sample_world; sample_mods]) (dp_Name <$> [sample_mods; sample_world]).
Proof.
  refine (proj1 (completePathSet_exact [sample_world; sample_mods] [sample_mods; sample_world]
    "active" _ eq_refl)).
  apply (bool_decide_unpack _). vm_compute. exact I.
Defined.

Lemma distinctClaims_ok candidate previous :
  distinctClaims candidate previous = Ok tt ->
  forall c p, c ∈ candidate -> p ∈ previous -> claimName c <> claimName p /\ claimUID c <> claimUID p.
Proof.
  unfold distinctClaims. rewrite for_each_ok. intros H c p Hc Hp.
  specialize (H c Hc). rewrite for_each_ok in H. specialize (H p Hp). ok_inv. bool_prop. done.
Qed.

(** ** Backups *)

(** What a GameServer must be found in after an operation, given the restart
    policy and the requested (pre-operation) server reference. *)
Definition RestartHonoured (policy : RestartPolicy) (subject : ExactGameServerReference)
    (fence : ColdDataFence) (rt : RuntimeDisposition) : Prop :=
  gsr_Name (rt_GameServer rt) = gsr_Name subject /\
  gsr_UID (rt_GameServer rt) = gsr_UID subject /\
  if (policy == RestartRestorePreviousState) && (gsr_DesiredState subject == DesiredStateRunning)
  then gsr_DesiredState (rt_GameServer rt) = DesiredStateRunning /\ rt_Phase rt = PhaseReady /\
       gsr_Generation (rt_GameServer rt) = int64 (gsr_Generation (fence_GameServer fence) + 1)
  else rt_Phase rt = PhaseStopped /\
       gsr_Generation (rt_GameServer rt) = gsr_Generation (fence_GameServer fence) /\
       gsr_DesiredState (rt_GameServer rt) =
         (if policy == RestartRestorePreviousState then gsr_DesiredState subject
          else DesiredStateStopped).

Lemma validateRuntimeDisposition_ok policy subject fence d :
  validateRuntimeDisposition policy subject fence d = Ok tt ->
  exists rt, d = Some rt /\ RestartHonoured policy subject fence rt.
Proof.
  unfold validateRuntimeDisposition, RestartHonoured. destruct d as [rt|]; [|done]. intros H.
  exists rt. split; [done|].
  destruct (policy == RestartRestorePreviousState) eqn:Ep;
    [destruct (gsr_DesiredState subject == DesiredStateRunning) eqn:Es|];
    ok_inv; cbn [andb]; bool_prop; repeat split; congruence.
Qed.

(** The cold fence: the requested server, stopped, at the requested
    generation or, when the operation had to stop it, at the next one. *)
Definition FenceExact (subject : ExactGameServerReference) (f : ColdDataFence) : Prop :=
  gsr_Name (fence_GameServer f) = gsr_Name subject /\
  gsr_UID (fence_GameServer f) = gsr_UID subject /\
  gsr_DesiredState (fence_GameServer f) = DesiredStateStopped /\
  gsr_Generation (fence_GameServer f) =
    if gsr_DesiredState subject == DesiredStateRunning
    then int64 (gsr_Generation subject + 1) else gsr_Generation subject.

Lemma validateFence_ok subject f :
  validateFence subject (Some f) = Ok tt -> FenceExact subject f.
Proof. cbn. intros H. ok_inv. bool_prop. done. Qed.

Lemma verifiedArtifact_true a : verifiedArtifact a = true ->
  exists art, a = Some art /\ av_Result (art_Verification art) = VerificationVerified /\
    is_Some (av_VerifiedAt (art_Verification art)).
Proof. destruct a as [art|]; cbn; [|done]. intros H. bool_prop. eauto. Qed.

Lemma isSome_true {A} (o : option A) : isSome o = true <-> exists a, o = Some a.
Proof. destruct o; cbn; split; try done; eauto. by intros [? ?]. Qed.

Lemma sameLocal_ok l r : sameLocal l r = true ->
  l = r /\ ref_Namespace r = None.
Proof. unfold sameLocal. intros H. bool_prop. destruct l, r; cbn in *; by subst. Qed.

Lemma sameSecret_ok l r : sameSecret l r = true -> l = r /\ ref_Namespace (sec_ref r) = None.
Proof.
  unfold sameSecret. intros [[E ?]%sameLocal_ok F]%andb_true_iff. bool_prop.
  destruct l, r; cbn in *; by subst.
Qed.

(** The evidence common to every succeeded operation. *)
Record SucceededCommon (kind : OperationKind) (request : DataOperationRequest)
    (subject : ExactGameServerReference) (status : DataOperationStatus) (generation : Z) : Prop := {
  sc_generation : ds_ObservedGeneration status = generation /\ (1 <= generation)%Z;
  sc_not_cancelled : dor_CancelRequested request = false;
  sc_fence : exists f, ds_Fence status = Some f /\ FenceExact subject f;
  sc_artifact : exists source artifact,
    ds_Source status = Some source /\ ds_Artifact status = Some artifact /\
    av_Result (art_Verification artifact) = VerificationVerified /\
    is_Some (av_VerifiedAt (art_Verification artifact)) /\
    art_PathCount artifact = int32 (len (src_Paths source));
  sc_completed : is_Some (ds_CompletedAt status) }.

Lemma validateCommonStatus_succeeded kind request subject status generation :
  validateCommonStatus kind request subject status generation = Ok tt ->
  ds_Phase status = DataPhaseSucceeded ->
  SucceededCommon kind request subject status generation /\
  (kind = BackupOperation -> forall f, ds_Fence status = Some f ->
   validateRuntimeDisposition (dor_RestartPolicy request) subject f (ds_Runtime status) = Ok tt).
Proof.
  unfold validateCommonStatus. intros H Hp. rewrite Hp in H. eval_bools.
  do 4 (ok_inv_step; [done|]). ok_inv_step. destruct x.
  do 4 (ok_inv_step; [done|]). eval_bools.
  destruct (ds_Fence status) as [f|] eqn:Ef; [|done].
  split.
  - split.
    + bool_prop. lia.
    + destruct (dor_CancelRequested request); [|done]. destruct (kind == RestoreOperation); discriminate.
    + exists f. split; [done | by apply validateFence_ok].
    + apply orb_false_iff in Hguard5 as [Hs Ha]. rewrite negb_false_iff in Hs, Ha.
      destruct (ds_Source status) as [source|]; [|done].
      destruct (verifiedArtifact_true (ds_Artifact status)) as (art & Ea & ? & ?); [done|].
      rewrite Ea in *. exists source, art. bool_prop. done.
    + by destruct (ds_CompletedAt status).
  - intros -> g [= <-]. done.
Qed.

Lemma sameGameServer_ok l r : sameGameServer l r = true ->
  gsr_Name l = gsr_Name r /\ gsr_UID l = gsr_UID r /\ gsr_Generation l = gsr_Generation r /\
  gsr_DesiredState l = gsr_DesiredState r.
Proof. unfold sameGameServer. intros H. bool_prop. done. Qed.

(** A backup status accepted in phase Succeeded carries complete
    evidence: a verified artifact whose ID is derived from the operation's own
    UID and whose provenance is this operation and its repository Secret, a
    source snapshot of exactly the requested server, a stopped cold fence at
    the expected generation, and a runtime observed as the restart policy asks. *)
Theorem ValidateBackupStatus_succeeded op
  (H : ValidateBackupStatus (Some op) = Ok tt) (Hp : ds_Phase (gb_Status op) = DataPhaseSucceeded) :
  let request := gbs_Request (gb_Spec op) in
  exists source artifact fence rt,
    ds_Source (gb_Status op) = Some source /\
    sameGameServer (src_GameServer source) (gbs_Source (gb_Spec op)) = true /\
    ds_Artifact (gb_Status op) = Some artifact /\
    av_Result (art_Verification artifact) = VerificationVerified /\
    is_Some (av_VerifiedAt (art_Verification artifact)) /\
    ArtifactID (gb_UID op) = Ok (art_ID artifact) /\
    ref_Name (ap_BackupRef (art_Provenance artifact)) = gb_Name op /\
    ref_UID (ap_BackupRef (art_Provenance artifact)) = gb_UID op /\
    ap_RepositorySecretRef (art_Provenance artifact) = dor_RepositorySecretRef request /\
    art_PathCount artifact = int32 (len (src_Paths source)) /\
    ds_Fence (gb_Status op) = Some fence /\ FenceExact (gbs_Source (gb_Spec op)) fence /\
    ds_Runtime (gb_Status op) = Some rt /\
    RestartHonoured (dor_RestartPolicy request) (gbs_Source (gb_Spec op)) fence rt /\
    dor_CancelRequested request = false /\ is_Some (ds_CompletedAt (gb_Status op)).
Proof.
  intros request. cbn [ValidateBackupStatus] in H. ok_inv_step. destruct x.
  destruct (validateCommonStatus_succeeded _ _ _ _ _ Hrun Hp) as [[_ Hnc Hf Ha Hc] Hd].
  destruct Hf as (f & Ef & Hfe), Ha as (source & artifact & Es & Ea & Hv & Hva & Hcount).
  destruct (validateRuntimeDisposition_ok _ _ _ _ (Hd eq_refl f Ef)) as (rt & Ert & Hrt).
  rewrite Es, Ea in H. ok_inv. bool_prop.
  match goal with Hs : sameSecret _ _ = true |- _ => apply sameSecret_ok in Hs as [Hs _] end.
  exists source, artifact, f, rt. repeat split; try done; try congruence; apply Hfe || apply Hrt.
Qed.

Definition sample_gs (gen : Z) (d : DesiredState) : ExactGameServerReference :=
  MkGSRef (sample_ref "factory" "server-uid") gen d.
Definition sample_secret : ExactSecretReference := MkSecretRef (sample_ref "repo" "secret-uid") "41".
Definition sample_meta (name uid : string) (gen : Z) : ObjectMeta :=
  MkObjectMeta name "arcade" uid gen "100" 1 None [] ∅ ∅ [].
Definition sample_request (p : RestartPolicy) : DataOperationRequest :=
  MkDataRequest None sample_secret p false.
Definition sample_artifact (backupName backupUID : string) : BackupArtifact :=
  MkArtifact (MkProvenance (sample_ref backupName backupUID) sample_secret)
    match ArtifactID backupUID with Ok i => i | Err _ => "" end
    "arcadectl.backup/v2" "sha256:aa" 4096 2 5 (MkVerification VerificationVerified (Some 6%Z)).
Definition sample_source : DataSourceSnapshot :=
  MkSource (sample_gs 3 DesiredStateRunning) "factorio" "sha256:img" "sha256:set"
    [sample_world; sample_mods].
Definition sample_backup : GameBackup :=
  MkGameBackup (sample_meta "nightly" "backup-uid" 1)
    (MkGameBackupSpec (sample_request RestartRestorePreviousState) (sample_gs 3 DesiredStateRunning)
       None "Retain")
    (MkDataStatus 1 DataPhaseSucceeded 1 (Some 2%Z) (Some 9%Z) [] (Some sample_source)
       (Some (MkFence (sample_gs 4 DesiredStateStopped) 3))
       (Some (sample_artifact "nightly" "backup-uid"))
       (Some (MkDisposition (sample_gs 5 DesiredStateRunning) PhaseReady 8))).

Lemma ValidateBackupStatus_succeeded_witness :
  exists source artifact fence rt,
    ds_Source (gb_Status sample_backup) = Some source /\
    ds_Artifact (gb_Status sample_backup) = Some artifact /\
    ArtifactID (gb_UID sample_backup) = Ok (art_ID artifact) /\
    ds_Fence (gb_Status sample_backup) = Some fence /\ ds_Runtime (gb_Status sample_backup) = Some rt.
Proof.
  destruct (ValidateBackupStatus_succeeded sample_backup) as (s & a & f & rt & ? & ? & ? & ? & ? & ?
    & ? & ? & ? & ? & ? & ? & ? & ? & ? & ?); [vm_compute; reflexivity | reflexivity |].
  exists s, a, f, rt. repeat split; assumption.
Defined.

(** ** Restores *)

(** What [validateActivation] establishes in every phase after activation. *)
Record ActivationEvidence (op : GameRestore) (source : DataSourceSnapshot) : Prop := {
  ae_source : ds_Source (rs_DataOperationStatus (gr_Status op)) = Some source;
  ae_candidate : CompletePathSet (src_Paths source) (rs_CandidateData (gr_Status op));
  ae_previous : CompletePathSet (src_Paths source) (rs_PreviousData (gr_Status op));
  ae_disjoint : forall c p, c ∈ rs_CandidateData (gr_Status op) -> p ∈ rs_PreviousData (gr_Status op) ->
    claimName c <> claimName p /\ claimUID c <> claimUID p;
  ae_names : forall c, c ∈ rs_CandidateData (gr_Status op) ->
    RestoreCandidateID (gr_UID op) (dp_Name c) = Ok (claimName c);
  ae_verified : exists cv artifact,
    rs_CandidateVerification (gr_Status op) = Some cv /\
    ds_Artifact (rs_DataOperationStatus (gr_Status op)) = Some artifact /\
    cv_Result cv = VerificationVerified /\ cv_ManifestDigest cv = art_ManifestDigest artifact /\
    cv_PathCount cv = int32 (len (src_Paths source)) }.

Lemma validateActivation_ok op : validateActivation op = Ok tt ->
  exists source, ActivationEvidence op source.
Proof.
  unfold validateActivation. intros H. destruct (ds_Source _) as [source|] eqn:Es; [|done].
  exists source.
  do 2 ok_inv_step; [done|]. do 3 ok_inv_step.
  destruct x, x0, x1, x2. apply completePathSet_ok in Hrun, Hrun0.
  rewrite for_each_ok in Hrun2. clear H.
  destruct (rs_CandidateVerification _) as [cv|] eqn:Ecv; [|done].
  destruct (ds_Artifact _) as [art|] eqn:Ea; [|done].
  split; try done.
  - by apply distinctClaims_ok.
  - intros c Hc. specialize (Hrun2 c Hc). ok_inv. by bool_prop.
  - exists cv, art. bool_prop. done.
Qed.

(** Every accepted restore whose activation history is recorded, or which is
    in a phase that requires it, passed [validateActivation]. *)
Lemma ValidateRestoreStatus_activation op :
  ValidateRestoreStatus (Some op) = Ok tt ->
  isSome (rs_ActivationStartedAt (gr_Status op)) = true \/
  ds_Phase (rs_DataOperationStatus (gr_Status op)) = DataPhaseSucceeded ->
  isSome (rs_ActivationStartedAt (gr_Status op)) = true /\ validateActivation op = Ok tt.
Proof.
  cbn [ValidateRestoreStatus]. intros H Hact.
  do 2 (ok_inv_step; [done|]). do 2 ok_inv_step. do 3 (ok_inv_step; [done|]).
  destruct (isSome (rs_ActivationStartedAt _)) eqn:Ea.
  - split; [done|]. rewrite andb_false_r in H. done.
  - destruct Hact as [?|Hp]; [done|]. rewrite Hp in *. by eval_bools.
Qed.

(** An accepted successful restore serves, for every path of the source
    manifest, exactly the verified candidate claim, under the claim name
    derived from the restore's UID; that claim is not any claim of the
    previous world, and the complete previous world is still recorded. *)
Theorem ValidateRestoreStatus_succeeded op
  (H : ValidateRestoreStatus (Some op) = Ok tt)
  (Hp : ds_Phase (rs_DataOperationStatus (gr_Status op)) = DataPhaseSucceeded) :
  let st := gr_Status op in
  exists source, ActivationEvidence op source /\
    isSome (rs_ActivationStartedAt st) = true /\
    CompletePathSet (src_Paths source) (rs_ActiveData st) /\
    (forall c, c ∈ rs_CandidateData st -> exists a,
       pathByName (rs_ActiveData st) (dp_Name c) = Some a /\
       RestoreCandidateID (gr_UID op) (dp_Name c) = Ok (claimName a) /\ claimUID a = claimUID c /\
       forall p, p ∈ rs_PreviousData st -> claimName a <> claimName p /\ claimUID a <> claimUID p).
Proof.
  intros st. destruct (ValidateRestoreStatus_activation op H (or_intror Hp)) as [Hact Hv].
  pose proof (validateActivation_ok op Hv) as [source He]. exists source.
  unfold validateActivation in Hv. rewrite (ae_source _ _ He), Hp in Hv. eval_bools.
  do 2 ok_inv_step; [done|]. do 4 ok_inv_step. destruct x, x0, x1, x2, x3.
  apply completePathSet_ok in Hrun3. rewrite for_each_ok in Hv. do 3 (split; [done|]).
  intros c Hc. specialize (Hv c Hc). cbn beta zeta in Hv. fold st in Hv |- *.
  destruct (pathByName _ _) as [a|] eqn:Ea; [|done]. exists a. split; [done|].
  ok_inv. bool_prop.
  match goal with E1 : claimName a = _, E2 : claimUID a = _ |- _ => rewrite E1, E2 end.
  split; [by apply (ae_names _ _ He)|]. split; [done|]. intros p. by apply (ae_disjoint _ _ He).
Qed.

Definition sample_candidate (name mount uid : string) : DataPathIdentity :=
  MkPath name mount
    (sample_ref match RestoreCandidateID "restore-uid" name with Ok n => n | Err _ => "" end uid).
Definition sample_candidates : list DataPathIdentity :=
  [sample_candidate "world" "/data/world" "cand-a"; sample_candidate "mods" "/data/mods" "cand-b"].
Definition sample_restore (phase : DataOperationPhase) (conditions : list Condition)
    (journal : RestoreRuntimeJournal) (gen : Z) (active : list DataPathIdentity) : GameRestore :=
  MkGameRestore (sample_meta "rollback" "restore-uid" 1)
    (MkGameRestoreSpec (sample_request RestartRestorePreviousState) (sample_ref "nightly" "backup-uid")
       (sample_gs 7 DesiredStateRunning) None)
    (MkGameRestoreStatus
       (MkDataStatus 1 phase 1 (Some 2%Z) (Some 9%Z) conditions (Some sample_source)
          (Some (MkFence (sample_gs 8 DesiredStateStopped) 3))
          (Some (sample_artifact "nightly" "backup-uid"))
          (Some (MkDisposition (sample_gs gen DesiredStateRunning) PhaseReady 8)))
       1 false "job-uid" "data-x" (Some 2%Z) (Some journal) (Some 5%Z)
       (Some (MkCandidateVerification VerificationVerified "sha256:aa" 2 5))
       sample_candidates active [sample_world; sample_mods]).
Definition sample_restore_ok : GameRestore :=
  sample_restore DataPhaseSucceeded [] (MkJournal 0 9 0 0) 9 sample_candidates.
Definition sample_restore_rolled_back : GameRestore :=
  sample_restore DataPhaseFailed
    [MkCondition "Complete" ConditionFalse 1 9 ReasonWorkerFailed "inspect the restore worker"]
    (MkJournal 0 9 10 11) 11 [sample_world; sample_mods].

Lemma ValidateRestoreStatus_succeeded_witness :
  exists source, ActivationEvidence sample_restore_ok source /\
    CompletePathSet (src_Paths source) (rs_ActiveData (gr_Status sample_restore_ok)).
Proof.
  destruct (ValidateRestoreStatus_succeeded sample_restore_ok) as (s & ? & ? & ? & _);
    [vm_compute; reflexivity | reflexivity | by exists s].
Defined.

(** An accepted restore that failed or was cancelled after activation
    serves exactly the complete previous world: every previous path is active
    at its own mount path on its own claim, and none of the candidate's. *)
Theorem ValidateRestoreStatus_rolled_back op
  (H : ValidateRestoreStatus (Some op) = Ok tt)
  (Hact : isSome (rs_ActivationStartedAt (gr_Status op)) = true)
  (Hp : ds_Phase (rs_DataOperationStatus (gr_Status op)) = DataPhaseFailed \/
        ds_Phase (rs_DataOperationStatus (gr_Status op)) = DataPhaseCancelled) :
  let st := gr_Status op in
  exists source, ActivationEvidence op source /\
    CompletePathSet (src_Paths source) (rs_ActiveData st) /\
    (forall p, p ∈ rs_PreviousData st -> exists a,
       pathByName (rs_ActiveData st) (dp_Name p) = Some a /\
       dp_MountPath a = dp_MountPath p /\ claimName a = claimName p /\ claimUID a = claimUID p /\
       forall c, c ∈ rs_CandidateData st -> claimName a <> claimName c /\ claimUID a <> claimUID c).
Proof.
  intros st. destruct (ValidateRestoreStatus_activation op H (or_introl Hact)) as [_ Hv].
  pose proof (validateActivation_ok op Hv) as [source He]. exists source.
  unfold validateActivation in Hv. rewrite (ae_source _ _ He) in Hv.
  do 2 ok_inv_step; [done|]. do 3 ok_inv_step. destruct x, x0, x1, x2.
  replace ((_ == DataPhaseFailed) || (_ == DataPhaseCancelled)) with true in Hv
    by (destruct Hp as [-> | ->]; done).
  do 2 ok_inv_step. destruct x. apply completePathSet_ok in Hrun3. rewrite for_each_ok in Hv.
  do 2 (split; [done|]).
  intros p Hpin. specialize (Hv p Hpin). cbn beta zeta in Hv. fold st in Hv |- *.
  destruct (pathByName _ _) as [a|] eqn:Ea; [|done]. exists a. split; [done|].
  ok_inv. bool_prop. repeat split; try done; intros E;
    destruct (ae_disjoint _ _ He c p); auto; congruence.
Qed.

Lemma ValidateRestoreStatus_rolled_back_witness :
  exists source, ActivationEvidence sample_restore_rolled_back source /\
    CompletePathSet (src_Paths source) (rs_ActiveData (gr_Status sample_restore_rolled_back)).
Proof.
  destruct (ValidateRestoreStatus_rolled_back sample_restore_rolled_back) as (s & ? & ? & _);
    [vm_compute; reflexivity | reflexivity | by left | by exists s].
Defined.

Lemma ValidateRestoreStatus_runtime op :
  ValidateRestoreStatus (Some op) = Ok tt ->
  validateCommonStatus RestoreOperation (grs_Request (gr_Spec op)) (grs_Target (gr_Spec op))
    (rs_DataOperationStatus (gr_Status op)) (gr_Generation op) = Ok tt /\
  validateRestoreRuntimeStatus op = Ok tt.
Proof.
  cbn [ValidateRestoreStatus]. intros H.
  do 2 (ok_inv_step; [done|]). do 2 ok_inv_step. by destruct x, x0.
Qed.

(** The generation a rolled-back or completed restore leaves a restarted
    server at, relative to the cold fence. *)
Definition restart_offset (status : GameRestoreStatus) : Z :=
  match rs_RuntimeJournal status with
  | Some j =>
      if isSome (rs_ActivationStartedAt status) &&
         (ds_Phase (rs_DataOperationStatus status) != DataPhaseSucceeded) &&
         (rj_RollbackStopGeneration j != 0%Z)
      then 3 else 1
  | None => 1
  end.

Lemma validateRuntimeJournal_ok st j f :
  validateRuntimeJournal st = Ok tt -> rs_RuntimeJournal st = Some j ->
  ds_Fence (rs_DataOperationStatus st) = Some f ->
  let fence := gsr_Generation (fence_GameServer f) in
  (rj_PreviousRecoveryGeneration j = 0 \/ rj_PreviousRecoveryGeneration j = int64 (fence + 1))%Z /\
  (rj_CandidateStartGeneration j = 0 \/ rj_CandidateStartGeneration j = int64 (fence + 1))%Z /\
  (rj_RollbackRestartGeneration j = 0 \/ rj_RollbackRestartGeneration j =
     if rj_RollbackStopGeneration j != 0%Z then int64 (fence + 3) else int64 (fence + 1))%Z.
Proof.
  unfold validateRuntimeJournal. intros H Ej Ef. rewrite Ej, Ef in H. ok_inv. bool_prop.
  intuition (subst; auto; congruence).
Qed.

(** C36: when a restore was asked to restore the runtime of a server that was
    running, an accepted terminal status records that server Ready, Running
    and at exactly the first generation after the cold fence, or the third
    when a started candidate was stopped and rolled back: no other write to
    the server's spec happened in between. *)
Theorem restore_final_generation op fence
  (H : ValidateRestoreStatus (Some op) = Ok tt)
  (Hterm : terminal (ds_Phase (rs_DataOperationStatus (gr_Status op))) = true)
  (Hf : ds_Fence (rs_DataOperationStatus (gr_Status op)) = Some fence)
  (Hpol : dor_RestartPolicy (grs_Request (gr_Spec op)) = RestartRestorePreviousState)
  (Hrun : gsr_DesiredState (grs_Target (gr_Spec op)) = DesiredStateRunning)
  (Hrange : (0 <= gsr_Generation (fence_GameServer fence) < 2 ^ 63 - 3)%Z) :
  exists rt, ds_Runtime (rs_DataOperationStatus (gr_Status op)) = Some rt /\
    gsr_Name (rt_GameServer rt) = gsr_Name (grs_Target (gr_Spec op)) /\
    gsr_UID (rt_GameServer rt) = gsr_UID (grs_Target (gr_Spec op)) /\
    gsr_DesiredState (rt_GameServer rt) = DesiredStateRunning /\ rt_Phase rt = PhaseReady /\
    gsr_Generation (rt_GameServer rt) =
      (gsr_Generation (fence_GameServer fence) + restart_offset (gr_Status op))%Z.
Proof.
  apply ValidateRestoreStatus_runtime in H as [_ H]. unfold validateRestoreRuntimeStatus in H.
  ok_inv_step. destruct x. rewrite Hf, Hterm, Hpol, Hrun in H. eval_bools.
  destruct (ds_Runtime _) as [rt|]; [|done]. exists rt. split; [done|].
  ok_inv_step; [done|]. clear H. bool_prop. do 4 (split; [done|]).
  match goal with E : gsr_Generation _ = _ |- _ => rewrite E; clear E end.
  match goal with E : _ <> 0%Z |- _ => revert E end.
  unfold restart_offset. destruct (rs_RuntimeJournal _) as [j|] eqn:Ej; [|done].
  destruct (validateRuntimeJournal_ok _ j fence Hrun0 Ej Hf) as (Hg1 & Hg2 & Hg3).
  rewrite !int64_small in * by (unfold in_int64; lia).
  destruct (ds_Phase _); try discriminate Hterm; eval_bools;
    destruct (isSome (rs_ActivationStartedAt _)); cbn [andb negb];
    try (destruct (_ != 0%Z)); intros; lia.
Qed.

Lemma restore_final_generation_witness :
  exists rt, ds_Runtime (rs_DataOperationStatus (gr_Status sample_restore_rolled_back)) = Some rt /\
    gsr_Generation (rt_GameServer rt) = 11%Z.
Proof.
  destruct (restore_final_generation sample_restore_rolled_back
    (MkFence (sample_gs 8 DesiredStateStopped) 3)) as (rt & E & _ & _ & _ & _ & G);
    try reflexivity; [vm_compute; split; congruence|].
  exists rt. split; [exact E | exact G].
Defined.

(** ** Identities *)

Lemma is_hex_label c : is_hex c = true -> is_lower_alnum c = true /\ is_label_char c = true.
Proof.
  assert (forall c, (negb (is_hex c) || (is_lower_alnum c && is_label_char c))%bool = true) as H
    by (apply byte_forall; vm_compute; reflexivity).
  intros E. specialize (H c). rewrite E in H. cbn in H. by apply andb_true_iff in H.
Qed.

Lemma hex_label_text prefix l a :
  chars prefix = a :: tail (chars prefix) -> is_lower_alnum a = true ->
  Forall (fun c => is_label_char c = true) (tail (chars prefix)) ->
  (0 < length l)%nat -> (length (chars prefix) + 2 * length l <= 63)%nat ->
  MatchString dns_label (prefix +:+ EncodeToString l) = true.
Proof.
  intros Hp Ha HF Hl Hlen. apply MatchString_lang.
  rewrite chars_app. unfold EncodeToString. rewrite chars_unchars.
  pose proof (hex_chars_is_hex l) as HH. pose proof (length_hex_chars l) as HL.
  destruct (exists_last (l := hex_chars l)) as (h & b & Eh).
  { intros E. rewrite E in HL. cbn in HL. lia. }
  rewrite Eh in *. rewrite Hp in *. cbn [app tail] in *. rewrite Forall_app in HH.
  destruct HH as [Hh Hb]. inversion Hb as [|? ? Hb' _]; subst. rewrite length_app in HL.
  cbn [length] in HL, Hlen. rewrite app_assoc. apply dns_label_intro; [done | | |].
  - exact (proj1 (is_hex_label b Hb')).
  - rewrite length_app. lia.
  - apply Forall_app. split; [done|]. eapply Forall_impl; [|exact Hh].
    intros c Hc. exact (proj2 (is_hex_label c Hc)).
Qed.

(** Claim names and data identities allocated by a restore are DNS
    labels of at most 63 characters, whatever the operation UID and path. *)
Theorem restore_identities_are_labels uid path id
  (H : RestoreCandidateID uid path = Ok id \/ RestoreDataIdentity uid = Ok id) :
  MatchString dns_label id = true /\ (slen id <= 63)%Z.
Proof.
  assert (exists l, id = "restore-" +:+ EncodeToString (take 24 (Sum256 l))) as [l ->].
  { destruct H as [H|H]; unfold RestoreCandidateID, RestoreDataIdentity, restoreLabel in H;
      ok_inv; subst; eauto. }
  assert (length (take 24 (Sum256 l)) = 24%nat) as Hl by (rewrite length_take, length_Sum256; lia).
  split.
  - apply (hex_label_text _ _ "r"); rewrite ?Hl; [done | done | | lia | cbn; lia].
    vm_compute. repeat constructor.
  - unfold slen. rewrite <- length_chars, chars_app. unfold EncodeToString.
    rewrite chars_unchars, length_app, length_hex_chars, Hl. cbn. lia.
Qed.

Lemma restore_identities_are_labels_witness :
  exists id, RestoreCandidateID "restore-uid" "world" = Ok id /\ MatchString dns_label id = true.
Proof.
  eexists. split; [vm_compute; reflexivity|].
  refine (proj1 (restore_identities_are_labels "restore-uid" "world" _ (or_introl _))).
  vm_compute. reflexivity.
Defined.

(** The hashed text of a candidate identity. *)
Definition candidate_preimage (uid path : string) : list ascii :=
  chars ("arcadectl/restore/" +:+ uid +:+ "/" +:+ "claim/" +:+ path).

Lemma split_first_slash (u1 u2 r1 r2 : list ascii) :
  "/"%char ∉ u1 -> "/"%char ∉ u2 -> u1 ++ "/"%char :: r1 = u2 ++ "/"%char :: r2 -> u1 = u2 /\ r1 = r2.
Proof.
  revert u2. induction u1 as [|c u1 IH]; intros [|d u2] H1 H2 E; cbn in E; simplify_eq; try done.
  - exfalso. apply H2. by left.
  - exfalso. apply H1. by left.
  - destruct (IH u2) as [-> ->]; set_solver.
Qed.

Lemma candidate_preimage_inj u1 p1 u2 p2 :
  "/"%char ∉ chars u1 -> "/"%char ∉ chars u2 ->
  candidate_preimage u1 p1 = candidate_preimage u2 p2 -> u1 = u2 /\ p1 = p2.
Proof.
  unfold candidate_preimage. rewrite !chars_app. intros H1 H2 E.
  apply app_inv_head in E. cbn [chars app] in E.
  apply split_first_slash in E as [E1 E2]; [|done|done].
  injection E2 as E2. split; by apply chars_inj.
Qed.

(** Two restore claims get the same name only if they are the same path
    of the same operation, or two different hashed texts collide on the first
    24 bytes of SHA-256.  (Kubernetes UIDs contain no slash.) *)
Theorem restore_claim_names_distinct u1 p1 u2 p2 id
  (Hu1 : "/"%char ∉ chars u1) (Hu2 : "/"%char ∉ chars u2)
  (H1 : RestoreCandidateID u1 p1 = Ok id) (H2 : RestoreCandidateID u2 p2 = Ok id) :
  (u1 = u2 /\ p1 = p2) \/
  (candidate_preimage u1 p1 <> candidate_preimage u2 p2 /\
   take 24 (Sum256 (candidate_preimage u1 p1)) = take 24 (Sum256 (candidate_preimage u2 p2))).
Proof.
  destruct (decide (candidate_preimage u1 p1 = candidate_preimage u2 p2)) as [E|E].
  - left. by apply candidate_preimage_inj.
  - right. split; [done|].
    unfold RestoreCandidateID, restoreLabel in H1, H2. ok_inv.
    rewrite <- H2 in H1. apply EncodeToString_inj. apply chars_inj.
    apply (f_equal chars) in H1. rewrite !(chars_app "restore-") in H1. by apply app_inv_head in H1.
Qed.

Lemma restore_claim_names_distinct_witness :
  exists id, RestoreCandidateID "u" "world" = Ok id /\
  (("u" = "u" /\ "world" = "world") \/
   (candidate_preimage "u" "world" <> candidate_preimage "u" "world" /\
    take 24 (Sum256 (candidate_preimage "u" "world")) = take 24 (Sum256 (candidate_preimage "u" "world")))).
Proof.
  eexists. split; [vm_compute; reflexivity|].
  eapply restore_claim_names_distinct;
    [apply (bool_decide_unpack _); vm_compute; exact I
    | apply (bool_decide_unpack _); vm_compute; exact I
    | vm_compute; reflexivity | vm_compute; reflexivity].
Defined.
