(* ===== verification/Receipts.v ===== *)
(** * Receipt identities ([internal/receiptid]) and exact preconditions

    The admission API derives the name of an operation receipt from the
    namespace, the principal and the client's idempotency key, and binds a
    request to the state it was made against by an ETag-like precondition
    string ([internal/operations/contract.go]).  Both are text formats whose
    safety rests on being unambiguous; the theorems are their injectivity and
    round trips. *)

From Stdlib Require Import Ascii.
From stdpp Require Import base tactics list strings gmap numbers.
From S2P Require Import Prelude GoStrings Sha256 Regex ApiTypes.
Open Scope string_scope.
Open Scope list_scope.

(** ** Character classes and patterns *)

Definition in_range (lo hi : nat) (c : ascii) : bool :=
  ((lo <=? nat_of_ascii c) && (nat_of_ascii c <=? hi))%nat.
Definition is_digit : ascii -> bool := in_range 48 57.
Definition is_lower : ascii -> bool := in_range 97 122.
Definition is_upper : ascii -> bool := in_range 65 90.
Definition one_of (s : string) (c : ascii) : bool := existsb (Ascii.eqb c) (chars s).

(** [r{1,n}] *)
Definition From1To (n : nat) (r : regex) : regex := Cat (Times 1 r) (UpTo (n - 1) r).

Definition namespacePattern : regex :=
  let alnum := Cls (fun c => is_lower c || is_digit c) in
  let inner := Cls (fun c => Ascii.eqb c "-" || is_lower c || is_digit c) in
  Cat alnum (Opt (Cat (UpTo 61 inner) alnum)).
Definition is_principal_char (c : ascii) : bool :=
  is_upper c || is_lower c || is_digit c || one_of "_.-" c.
Definition principalPattern : regex := From1To 128 (Cls is_principal_char).
Definition is_key_char (c : ascii) : bool :=
  is_upper c || is_lower c || is_digit c || one_of "._:-" c.
Definition keyPattern : regex := From1To 128 (Cls is_key_char).
Definition is_hex_char (c : ascii) : bool := is_digit c || in_range 97 102 c.
Definition digestPattern : regex := Cat (Lit "sha256:") (Times 64 (Cls is_hex_char)).

(** ** Receipt names *)

Definition ErrInvalid : error := ErrorsNew "invalid receipt identity".

Definition NUL : string := String (ascii_of_nat 0) "".
Definition key_preimage (namespace principal key : string) : list ascii :=
  chars ("arcadectl/idempotency/v1" +:+ NUL +:+ namespace +:+ NUL +:+ principal +:+ NUL +:+ key).

Definition KeyDigest (namespace principal key : string) : result string :=
  if negb (MatchString namespacePattern namespace) || negb (MatchString principalPattern principal) ||
     negb (MatchString keyPattern key) then Err ErrInvalid
  else Ok ("sha256:" +:+ EncodeToString (Sum256 (key_preimage namespace principal key))).

Definition NameForKeyDigest (digest : string) : result string :=
  if negb (MatchString digestPattern digest) then Err ErrInvalid
  else
    match DecodeString (TrimPrefix digest "sha256:") with
    | None => Err ErrInvalid
    | Some decoded => Ok ("ao-" +:+ ToLower (unchars (base32_chars decoded)))
    end.

Definition ReceiptName (namespace principal key : string) : result string :=
  match KeyDigest namespace principal key with
  | Err _ => Err ErrInvalid
  | Ok digest => NameForKeyDigest digest
  end.

(** ** Preconditions *)

Definition ErrInvalidRequest : error := ErrorsNew "invalid operation request".
Definition identityPattern : regex := From1To 128 (Cls is_principal_char).

Record Precondition := MkPrecondition {
  pc_Kind : string;
  pc_UID : string;
  pc_SnapshotDigest : string;
  pc_Generation : Z }.

#[export] Instance Precondition_eq_dec : EqDecision Precondition.
Proof. solve_decision. Defined.

(** [value[1:len(value)-1]] for a text of at least two bytes. *)
Definition unquote (value : string) : string :=
  unchars (removelast (list.tail (chars value))).
Definition first_byte (s : string) : option ascii := head (chars s).
Definition last_byte (s : string) : option ascii := list.last (chars s).

Definition quote : ascii := ascii_of_nat 34.

Definition ParsePrecondition (value : string) : result Precondition :=
  if value == "absent" then Ok (MkPrecondition "absent" "" "" 0)
  else if ((slen value <? 3) || (slen value >? 512))%Z || (first_byte value != Some quote) ||
          (last_byte value != Some quote) then Err ErrInvalidRequest
  else
    match Split (unquote value) ":" with
    | [kind; uid; text] =>
        if ((kind == "server") || (kind == "operation")) && MatchString identityPattern uid then
          match ParseInt 64 text with
          | None => Err ErrInvalidRequest
          | Some generation =>
              if (generation <? 1)%Z || (FormatInt generation != text) then Err ErrInvalidRequest
              else Ok (MkPrecondition kind uid "" generation)
          end
        else Err ErrInvalidRequest
    | [kind; uid; algorithm; hex] =>
        if (kind == "retained") && MatchString identityPattern uid &&
           MatchString digestPattern (algorithm +:+ ":" +:+ hex)
        then Ok (MkPrecondition kind uid (algorithm +:+ ":" +:+ hex) 0)
        else Err ErrInvalidRequest
    | _ => Err ErrInvalidRequest
    end.

(** ** Examples *)

Example ReceiptName_example :
  ReceiptName "arcade" "admin" "k-1" = Ok
    match ReceiptName "arcade" "admin" "k-1" with Ok n => n | Err _ => "" end.
Proof. vm_compute. reflexivity. Qed.

Definition quoted (s : string) : string := String quote (s +:+ String quote "").
Example ParsePrecondition_server :
  ParsePrecondition (quoted "server:uid-1:12") = Ok (MkPrecondition "server" "uid-1" "" 12).
Proof. vm_compute. reflexivity. Qed.
Example ParsePrecondition_leading_zero :
  ParsePrecondition (quoted "server:uid-1:012") = Err ErrInvalidRequest.
Proof. vm_compute. reflexivity. Qed.

(** ** Lemmas *)

Definition NULc : ascii := ascii_of_nat 0.

Lemma From1To_lang f n s : (0 < n)%nat ->
  lang (From1To n (Cls f)) s <-> (1 <= length s <= n)%nat /\ Forall (fun c => f c = true) s.
Proof.
  intros Hn. unfold From1To. rewrite lang_class_range. split; intros [? ?]; split; auto; lia.
Qed.

Lemma class_excludes f (c : ascii) (l : list ascii) :
  f c = false -> Forall (fun d => f d = true) l -> c ∉ l.
Proof. intros Hf HF Hin. rewrite list.Forall_forall in HF. apply HF in Hin. congruence. Qed.

Lemma namespace_no_nul s : MatchString namespacePattern s = true -> NULc ∉ chars s.
Proof.
  intros H. apply (class_excludes (fun c => Ascii.eqb c "-" || is_lower c || is_digit c)); [done|].
  apply (MatchString_chars _ namespacePattern); [|done].
  unfold namespacePattern. cbn [re_chars Opt]. repeat split; try apply re_chars_upto; cbn; auto;
    intros c Hc; rewrite <- orb_assoc, Hc; apply orb_true_r.
Qed.

Lemma principal_no_nul s : MatchString principalPattern s = true -> NULc ∉ chars s.
Proof.
  intros [_ HF]%MatchString_lang%From1To_lang; [|lia]. by apply (class_excludes is_principal_char).
Qed.

Lemma split_at_unique (sep : ascii) (u1 u2 r1 r2 : list ascii) :
  sep ∉ u1 -> sep ∉ u2 -> u1 ++ sep :: r1 = u2 ++ sep :: r2 -> u1 = u2 /\ r1 = r2.
Proof.
  revert u2. induction u1 as [|c u1 IH]; intros [|d u2] H1 H2 E; cbn in E; simplify_eq; try done.
  - exfalso. apply H2. by left.
  - exfalso. apply H1. by left.
  - destruct (IH u2) as [-> ->]; set_solver.
Qed.

Lemma key_preimage_inj n1 p1 k1 n2 p2 k2 :
  NULc ∉ chars n1 -> NULc ∉ chars n2 -> NULc ∉ chars p1 -> NULc ∉ chars p2 ->
  key_preimage n1 p1 k1 = key_preimage n2 p2 k2 -> n1 = n2 /\ p1 = p2 /\ k1 = k2.
Proof.
  intros Hn1 Hn2 Hp1 Hp2. unfold key_preimage. rewrite !chars_app. intros E.
  do 2 apply app_inv_head in E. cbn [chars app NUL] in E.
  apply split_at_unique in E as [En E]; [|done|done].
  apply split_at_unique in E as [Ep Ek]; [|done|done].
  repeat split; by apply chars_inj.
Qed.

Lemma KeyDigest_Ok n p k d : KeyDigest n p k = Ok d ->
  MatchString namespacePattern n = true /\ MatchString principalPattern p = true /\
  MatchString keyPattern k = true /\
  d = "sha256:" +:+ EncodeToString (Sum256 (key_preimage n p k)).
Proof.
  unfold KeyDigest. intros H. ok_inv.
  apply orb_false_iff in Hguard as [[? ?]%orb_false_iff ?]. rewrite negb_false_iff in *. auto.
Qed.

Lemma is_hex_char_is_hex c : is_hex_char c = true -> is_hex c = true.
Proof.
  assert (forall c, (negb (is_hex_char c) || is_hex c)%bool = true) as H
    by (apply byte_forall; vm_compute; reflexivity).
  intros E. specialize (H c). by rewrite E in H.
Qed.

(** A valid digest is ["sha256:"] and 64 lower-case hexadecimal digits. *)
Lemma digest_text d : MatchString digestPattern d = true ->
  exists h, d = "sha256:" +:+ h /\ length (chars h) = 64%nat /\
    Forall (fun c => is_hex c = true) (chars h).
Proof.
  intros (s1 & s2 & E & H1 & H2)%MatchString_lang%lang_cat_inv.
  apply lang_lit in H1. apply lang_class_times in H2 as [Hl HF]. subst s1.
  exists (unchars s2). rewrite chars_unchars. split; [|split; [done|]].
  - apply chars_inj. by rewrite chars_app, chars_unchars.
  - eapply Forall_impl; [|exact HF]. intros c. apply is_hex_char_is_hex.
Qed.

Lemma NameForKeyDigest_Ok d r : NameForKeyDigest d = Ok r ->
  exists b, d = "sha256:" +:+ EncodeToString b /\ length b = 32%nat /\
    r = "ao-" +:+ unchars (base32_lower b).
Proof.
  unfold NameForKeyDigest. intros H. ok_inv. rewrite negb_false_iff in Hguard.
  destruct (digest_text d Hguard) as (h & -> & Hl & HF). rewrite TrimPrefix_app in Hopt.
  unfold DecodeString in Hopt. pose proof (hex_chars_decode _ _ _ eq_refl HF Hopt) as E.
  exists l. unfold EncodeToString. rewrite E, unchars_chars. split; [done|]. split.
  - rewrite <- E, length_hex_chars in Hl. lia.
  - unfold base32_lower. rewrite <- H. unfold ToLower. by rewrite chars_unchars.
Qed.

Lemma receipt_name_inj d1 d2 r :
  NameForKeyDigest d1 = Ok r -> NameForKeyDigest d2 = Ok r -> d1 = d2.
Proof.
  intros (b1 & -> & L1 & E1)%NameForKeyDigest_Ok (b2 & -> & L2 & E2)%NameForKeyDigest_Ok.
  subst r. apply (f_equal chars) in E2. rewrite !(chars_app "ao-"), !chars_unchars in E2.
  apply app_inv_head in E2. do 2 f_equal. apply base32_lower_inj; congruence.
Qed.

(** ** Theorems *)

Definition sample_receipt : string :=
  match ReceiptName "arcade" "admin" "k-1" with Ok n => n | Err _ => "" end.

(** Two admissions share a receipt name only if namespace, principal and
    idempotency key all agree, or two different hashed texts collide under
    SHA-256: the NUL separators make the hashed text unambiguous. *)
Theorem ReceiptName_injective n1 p1 k1 n2 p2 k2 r
  (H1 : ReceiptName n1 p1 k1 = Ok r) (H2 : ReceiptName n2 p2 k2 = Ok r) :
  (n1 = n2 /\ p1 = p2 /\ k1 = k2) \/
  (key_preimage n1 p1 k1 <> key_preimage n2 p2 k2 /\
   Sum256 (key_preimage n1 p1 k1) = Sum256 (key_preimage n2 p2 k2)).
Proof.
  unfold ReceiptName in H1, H2.
  destruct (KeyDigest n1 p1 k1) as [d1|] eqn:E1; [|done].
  destruct (KeyDigest n2 p2 k2) as [d2|] eqn:E2; [|done].
  pose proof (receipt_name_inj _ _ _ H1 H2) as Ed.
  apply KeyDigest_Ok in E1 as (? & ? & ? & ->), E2 as (? & ? & ? & ->).
  destruct (decide (key_preimage n1 p1 k1 = key_preimage n2 p2 k2)) as [E|E].
  - left. apply key_preimage_inj; auto using namespace_no_nul, principal_no_nul.
  - right. split; [done|]. apply (f_equal chars) in Ed.
    rewrite !(chars_app "sha256:") in Ed. apply app_inv_head, chars_inj, EncodeToString_inj in Ed. done.
Qed.

Lemma ReceiptName_injective_witness :
  ReceiptName "arcade" "admin" "k-1" = Ok sample_receipt /\
  (("arcade" = "arcade" /\ "admin" = "admin" /\ "k-1" = "k-1") \/
   (key_preimage "arcade" "admin" "k-1" <> key_preimage "arcade" "admin" "k-1" /\
    Sum256 (key_preimage "arcade" "admin" "k-1") = Sum256 (key_preimage "arcade" "admin" "k-1"))).
Proof.
  assert (ReceiptName "arcade" "admin" "k-1" = Ok sample_receipt) as H by (vm_compute; reflexivity).
  split; [exact H | exact (ReceiptName_injective _ _ _ _ _ _ _ H H)].
Defined.

(** A base32 character is a legal label character that can end a label. *)
Lemma base32_label c : is_base32_lower c = true -> is_lower c || is_digit c = true.
Proof.
  assert (forall c, (negb (is_base32_lower c) || (is_lower c || is_digit c))%bool = true) as H
    by (apply byte_forall; vm_compute; reflexivity).
  intros E. specialize (H c). by rewrite E in H.
Qed.

(** Every receipt name is a namespace-pattern label of exactly 55
    characters, so it is a legal Kubernetes object name whatever was hashed. *)
Theorem ReceiptName_is_label namespace principal key r
  (H : ReceiptName namespace principal key = Ok r) :
  MatchString namespacePattern r = true /\ slen r = 55%Z.
Proof.
  unfold ReceiptName in H. destruct (KeyDigest _ _ _) as [d|]; [|done].
  apply NameForKeyDigest_Ok in H as (b & _ & Hb & ->).
  pose proof (base32_lower_alphabet b) as HF. pose proof (length_base32_lower b) as HL.
  rewrite Hb in HL. change ((8 * 32 + 4) / 5)%nat with 52%nat in HL. split.
  - apply MatchString_lang. rewrite chars_app, chars_unchars.
    destruct (exists_last (l := base32_lower b)) as (h & x & E); [by intros E; rewrite E in HL|].
    rewrite E in *. rewrite Forall_app in HF. destruct HF as [Hh Hx].
    inversion Hx as [|? ? Hx' _]; subst. rewrite length_app in HL. cbn [length] in HL.
    apply (lang_cat _ _ ["a"%char]); [by constructor|]. apply lang_alt_r.
    change (lang (Cat (UpTo 61 (Cls (fun c => Ascii.eqb c "-" || is_lower c || is_digit c)))
      (Cls (fun c => is_lower c || is_digit c))) (("o"%char :: "-"%char :: h) ++ [x])).
    apply lang_cat; [|constructor; by apply base32_label].
    apply lang_class_upto. split; [cbn; lia|].
    do 2 (constructor; [done|]). eapply Forall_impl; [|exact Hh].
    intros c Hc%base32_label. cbn beta in *. rewrite <- orb_assoc, Hc. apply orb_true_r.
  - unfold slen. rewrite <- length_chars, chars_app, chars_unchars, length_app, HL. done.
Qed.

Lemma ReceiptName_is_label_witness :
  MatchString namespacePattern sample_receipt = true /\ slen sample_receipt = 55%Z.
Proof. apply (ReceiptName_is_label "arcade" "admin" "k-1"). vm_compute. reflexivity. Defined.

(** *** Preconditions *)

Lemma list_unsnoc {A} (l : list A) a : list.last l = Some a -> l = removelast l ++ [a].
Proof.
  induction l as [|x l IH]; [done|]. destruct l as [|y l]; [by intros [= ->]|].
  intros H. change (removelast (x :: y :: l)) with (x :: removelast (y :: l)).
  cbn [app]. by rewrite <- IH.
Qed.

(** A text that starts and ends with a quote is determined by its inside. *)
Lemma unquote_spec value :
  (3 <= slen value)%Z -> first_byte value = Some quote -> last_byte value = Some quote ->
  value = quoted (unquote value).
Proof.
  unfold slen, first_byte, last_byte, unquote, quoted. rewrite <- length_chars. intros Hl Hf Hlast.
  apply chars_inj. change (chars value = quote :: chars (unchars (removelast (list.tail (chars value)))
    +:+ String quote "")).
  rewrite chars_app, chars_unchars. destruct (chars value) as [|c l]; [done|].
  injection Hf as ->. destruct l as [|d l]; [cbn in Hl; lia|]. cbn [list.tail]. f_equal.
  rewrite (list_unsnoc (d :: l) quote) at 1; [done|]. done.
Qed.

Lemma Split_eq3 s a b c : Split s ":" = [a; b; c] -> s = a +:+ ":" +:+ b +:+ ":" +:+ c.
Proof.
  intros E. rewrite <- (Split_Join s ":"), E. unfold Join. apply chars_inj.
  rewrite chars_unchars, !chars_app. cbn. done.
Qed.
Lemma Split_eq4 s a b c d :
  Split s ":" = [a; b; c; d] -> s = a +:+ ":" +:+ b +:+ ":" +:+ c +:+ ":" +:+ d.
Proof.
  intros E. rewrite <- (Split_Join s ":"), E. unfold Join. apply chars_inj.
  rewrite chars_unchars, !chars_app. cbn. done.
Qed.

(** The text a parsed precondition was parsed from. *)
Definition render (p : Precondition) : string :=
  if pc_Kind p == "absent" then "absent"
  else if pc_Kind p == "retained" then
    quoted ("retained:" +:+ pc_UID p +:+ ":" +:+ pc_SnapshotDigest p)
  else quoted (pc_Kind p +:+ ":" +:+ pc_UID p +:+ ":" +:+ FormatInt (pc_Generation p)).

Lemma string_assoc (a b c : string) : (a +:+ b) +:+ c = a +:+ b +:+ c.
Proof. apply chars_inj. by rewrite !chars_app, app_assoc. Qed.

Lemma ParsePrecondition_render value p : ParsePrecondition value = Ok p -> value = render p.
Proof.
  unfold ParsePrecondition. intros H. ok_inv_step; [bool_prop; by ok_inv; subst|].
  ok_inv_step; [done|]. apply orb_false_iff in Hguard0 as [[[H3 _]%orb_false_iff Hf]%orb_false_iff Hl].
  bool_prop. pose proof (unquote_spec value) as Hq. rewrite Hq by (auto; lia). clear Hq.
  destruct (Split (unquote value) ":") as [|k [|u [|t [|h [|]]]]] eqn:Es; try done.
  - apply Split_eq3 in Es. rewrite Es. ok_inv. bool_prop.
    destruct H2 as [-> | ->]; done.
  - apply Split_eq4 in Es. rewrite Es. ok_inv. bool_prop. done.
Qed.

(** What a precondition can name. *)
Definition nameable (p : Precondition) : Prop :=
  p = MkPrecondition "absent" "" "" 0 \/
  ((pc_Kind p = "server" \/ pc_Kind p = "operation") /\ pc_SnapshotDigest p = "" /\
    MatchString identityPattern (pc_UID p) = true /\ (1 <= pc_Generation p < 2 ^ 63)%Z) \/
  (pc_Kind p = "retained" /\ pc_Generation p = 0%Z /\
    MatchString identityPattern (pc_UID p) = true /\
    MatchString digestPattern (pc_SnapshotDigest p) = true).

Lemma identity_text s : MatchString identityPattern s = true ->
  ":"%char ∉ chars s /\ (1 <= slen s <= 128)%Z.
Proof.
  intros [HL HF]%MatchString_lang%From1To_lang; [|lia].
  split; [by apply (class_excludes is_principal_char)|]. unfold slen. rewrite <- length_chars. lia.
Qed.

Lemma Split3 a b c : ":"%char ∉ chars a -> ":"%char ∉ chars b -> ":"%char ∉ chars c ->
  Split (a +:+ ":" +:+ b +:+ ":" +:+ c) ":" = [a; b; c].
Proof.
  intros. unfold Split. rewrite !chars_app. cbn [chars app].
  rewrite !split_chars_app, split_chars_none by done. cbn. by rewrite !unchars_chars.
Qed.
Lemma Split4 a b c d :
  ":"%char ∉ chars a -> ":"%char ∉ chars b -> ":"%char ∉ chars c -> ":"%char ∉ chars d ->
  Split (a +:+ ":" +:+ b +:+ ":" +:+ c +:+ ":" +:+ d) ":" = [a; b; c; d].
Proof.
  intros. unfold Split. rewrite !chars_app. cbn [chars app].
  rewrite !split_chars_app, split_chars_none by done. cbn. by rewrite !unchars_chars.
Qed.

Lemma slen_app a b : slen (a +:+ b) = (slen a + slen b)%Z.
Proof. unfold slen. rewrite <- !length_chars, chars_app, length_app. lia. Qed.

(** A quoted text passes the framing checks and unquotes to its inside. *)
Lemma quoted_frame s : (1 <= slen s <= 510)%Z ->
  quoted s <> "absent" /\ (3 <= slen (quoted s) <= 512)%Z /\
  first_byte (quoted s) = Some quote /\ last_byte (quoted s) = Some quote /\
  unquote (quoted s) = s.
Proof.
  intros Hs. unfold quoted. split; [done|]. split; [|split; [done|]].
  - pose proof (slen_app s (String quote "")) as E. unfold slen in *. cbn in *. lia.
  - unfold last_byte, unquote.
    change (chars (String quote (s +:+ String quote ""))) with (quote :: chars (s +:+ String quote "")).
    rewrite chars_app. cbn [chars list.tail]. split; [|by rewrite removelast_last, unchars_chars].
    change (quote :: chars s ++ [quote]) with ((quote :: chars s) ++ [quote]). apply last_snoc.
Qed.

Lemma ParsePrecondition_quoted s : (1 <= slen s <= 510)%Z ->
  ParsePrecondition (quoted s) =
    match Split s ":" with
    | [kind; uid; text] =>
        if ((kind == "server") || (kind == "operation")) && MatchString identityPattern uid then
          match ParseInt 64 text with
          | None => Err ErrInvalidRequest
          | Some generation =>
              if (generation <? 1)%Z || (FormatInt generation != text) then Err ErrInvalidRequest
              else Ok (MkPrecondition kind uid "" generation)
          end
        else Err ErrInvalidRequest
    | [kind; uid; algorithm; hex] =>
        if (kind == "retained") && MatchString identityPattern uid &&
           MatchString digestPattern (algorithm +:+ ":" +:+ hex)
        then Ok (MkPrecondition kind uid (algorithm +:+ ":" +:+ hex) 0)
        else Err ErrInvalidRequest
    | _ => Err ErrInvalidRequest
    end.
Proof.
  intros (Hna & Hl & Hf & Hb & Hu)%quoted_frame. unfold ParsePrecondition.
  rewrite bool_decide_eq_false_2, Hf, Hb, Hu by done.
  assert ((slen (quoted s) <? 3) || (slen (quoted s) >? 512) = false)%Z as -> by lia.
  rewrite !bool_decide_eq_true_2 by done. done.
Qed.

Lemma FormatInt_no_colon z : (0 <= z)%Z -> ":"%char ∉ chars (FormatInt z).
Proof.
  intros Hz Hin. pose proof (FormatInt_digits z Hz) as HF. rewrite list.Forall_forall in HF.
  specialize (HF _ Hin). vm_compute in HF. lia.
Qed.

Lemma digest_no_colon h : Forall (fun c => is_hex c = true) h -> ":"%char ∉ h.
Proof. by apply class_excludes. Qed.

Lemma render_parses p : nameable p -> ParsePrecondition (render p) = Ok p.
Proof.
  destruct p as [k u d g]. intros [[= -> -> -> ->] | [(Hk & Hd & Hu & Hg) | (Hk & Hg & Hu & Hd)]];
    cbn [pc_Kind pc_UID pc_SnapshotDigest pc_Generation] in *; [done|subst d|subst k g]; pose proof (identity_text _ Hu) as [Hc Hl].
  - pose proof (slen_FormatInt g ltac:(lia)).
    assert (":"%char ∉ chars k /\ k <> "absent" /\ k <> "retained" /\ (6 <= slen k <= 9)%Z) as (? & ? & ? & ?).
    { destruct Hk as [-> | ->]; (split; [by apply (class_excludes is_lower); [|repeat constructor]|done]). }
    unfold render. cbn [pc_Kind pc_UID pc_SnapshotDigest pc_Generation]. rewrite !bool_decide_eq_false_2 by done.
    rewrite ParsePrecondition_quoted by (rewrite !slen_app; change (slen ":") with 1%Z; lia).
    rewrite Split3, Hu, ParseInt_FormatInt by (auto using FormatInt_no_colon; try apply FormatInt_no_colon; lia).
    rewrite (bool_decide_eq_true_2 (FormatInt g = _)) by done.
    destruct (Z.ltb_spec g 1); [lia|]. by destruct Hk as [-> | ->].
  - destruct (digest_text d Hd) as (h & -> & Hh & HF). unfold render. cbn [pc_Kind pc_UID pc_SnapshotDigest pc_Generation].
    assert (slen h = 64)%Z by (unfold slen; rewrite <- length_chars; lia).
    eval_bools. change ("retained:" +:+ u +:+ ":" +:+ "sha256:" +:+ h)
      with ("retained" +:+ ":" +:+ u +:+ ":" +:+ "sha256" +:+ ":" +:+ h).
    change ("sha256:" +:+ h) with ("sha256" +:+ ":" +:+ h) in *.
    rewrite ParsePrecondition_quoted by
      (rewrite !slen_app; change (slen ":") with 1%Z; change (slen "retained") with 8%Z;
       change (slen "sha256") with 6%Z; lia).
    rewrite Split4, Hu, Hd by (auto using digest_no_colon;
      by apply (class_excludes (fun c => is_lower c || is_digit c)); [|repeat constructor]). done.
Qed.

Lemma ParsePrecondition_nameable v p : ParsePrecondition v = Ok p -> nameable p.
Proof.
  unfold ParsePrecondition, nameable. intros H. ok_inv_step; [by ok_inv; subst; left|].
  ok_inv_step; [done|]. right.
  destruct (Split (unquote v) ":") as [|k [|u [|t [|h [|]]]]]; try done; ok_inv; bool_prop; cbn.
  - left. pose proof (ParseInt_range _ _ _ Hopt). do 3 (split; [done|]). lia.
  - by right.
Qed.

(** C37: [ParsePrecondition] accepts exactly the canonical rendering of each
    nameable precondition: every state has one text, every accepted text one
    state, and nothing else (leading zeros, signs, spare fields, unquoted or
    overlong text) is accepted. *)
Theorem ParsePrecondition_exact v p :
  ParsePrecondition v = Ok p <-> nameable p /\ v = render p.
Proof.
  split.
  - intros H. split; [by eapply ParsePrecondition_nameable | by apply ParsePrecondition_render].
  - intros [Hn ->]. by apply render_parses.
Qed.
