(* ===== verification/Operations.v ===== *)
(** * Admission of typed operations ([internal/operations/contract.go])

    The authenticated API and the translating controller share this contract:
    [ValidateRequest] decides which frozen requests may become a receipt, and
    the digests name a request's server specification and a retained world.
    The theorems give [ValidateRequest] an independent specification, one rule
    per action, and show what the digests depend on. *)

From Stdlib Require Import Ascii.
From stdpp Require Import base tactics list strings gmap numbers sorting.
From S2P Require Import Prelude GoStrings Sha256 Regex GoJson CanonicalJson K8s ApiTypes Receipts.
Open Scope string_scope.
Open Scope list_scope.

(** ** Definitions *)

(** [CanonicalJSON] of this package: the same text, its own error. *)
Definition operations_CanonicalJSON (input : string) : result string :=
  match CanonicalJSON (chars input) with
  | Ok output => Ok (unchars output)
  | Err _ => Err ErrInvalidRequest
  end.

Definition hashBytes (value : list ascii) : string := "sha256:" +:+ EncodeToString (Sum256 value).

Definition operations_KeyDigest (namespace principal key : string) : result string :=
  match KeyDigest namespace principal key with Ok d => Ok d | Err _ => Err ErrInvalidRequest end.
Definition operations_NameForKeyDigest (digest : string) : result string :=
  match NameForKeyDigest digest with Ok n => Ok n | Err _ => Err ErrInvalidRequest end.
Definition operations_ReceiptName (namespace principal key : string) : result string :=
  digest ← operations_KeyDigest namespace principal key; operations_NameForKeyDigest digest.

Definition child_prefix (kind : string) : string :=
  if kind == "GameServer" then "server" else if kind == "GameBackup" then "backup"
  else if kind == "GameRestore" then "restore" else if kind == "GameDestroy" then "destroy" else "".
Definition child_preimage (receiptUID kind : string) : list ascii :=
  chars ("arcadectl/child/v1" +:+ NUL +:+ receiptUID +:+ NUL +:+ kind).
Definition ChildName (receiptUID kind : string) : string :=
  let prefix := child_prefix kind in
  if (prefix == "") || (receiptUID == "") then ""
  else prefix +:+ "-" +:+ EncodeToString (take 20 (Sum256 (child_preimage receiptUID kind))).

Definition ServerIntent (spec : GameServerSpec) : result OperationServerIntent :=
  settings ← operations_CanonicalJSON (gs_Settings spec);
  Ok (MkServerIntent (gs_Game spec) (gs_ImageDigest spec) (gs_DesiredState spec)
        (gs_Compute spec) (gs_Storage spec) settings).

Definition ServerSpec (intent : OperationServerIntent) : result GameServerSpec :=
  settings ← operations_CanonicalJSON (si_SettingsJSON intent);
  Ok (MkGameServerSpec (si_Game intent) (si_ImageDigest intent) (si_DesiredState intent)
        (si_Compute intent) (si_Storage intent) settings).

Definition validRestart (value : RestartPolicy) : bool :=
  (value == RestartLeaveStopped) || (value == RestartRestorePreviousState).

(** [json.Marshal] of the structs a target is made of: fields in declaration
    order, an absent namespace omitted. *)
Definition field (name : string) (text : list ascii) : list ascii :=
  marshal_string (chars name) ++ ":"%char :: text.
Definition object_text (fields : list (list ascii)) : list ascii :=
  "{"%char :: join_chars (chars ",") fields ++ ["}"%char].
Definition string_text (s : string) : list ascii := marshal_string (chars s).
Definition ref_text (r : ExactLocalReference) : list ascii :=
  object_text ((match ref_Namespace r with
                | Some n => [field "namespace" (string_text n)] | None => [] end) ++
               [field "name" (string_text (ref_Name r)); field "uid" (string_text (ref_UID r))]).
Definition claim_text (c : RetainedDataClaimReference) : list ascii :=
  object_text [field "path" (string_text (rdc_Path c)); field "claimRef" (ref_text (rdc_ClaimRef c))].
Definition data_text (d : RetainedDataReference) : list ascii :=
  object_text [field "identity" (string_text (rdr_Identity d));
               field "claims" ("["%char :: join_chars (chars ",") (claim_text <$> rdr_Claims d)
                               ++ ["]"%char])].
Definition target_text (t : GameDestroyTarget) : list ascii :=
  object_text [field "gameServer" (ref_text (dt_GameServer t));
               field "game" (string_text (dt_Game t)); field "data" (data_text (dt_Data t))].

(** [sort.Slice] by path. *)
Definition sort_claims : list RetainedDataClaimReference -> list RetainedDataClaimReference :=
  sort_by rdc_Path.

Section Validation.
Context `{NameValidation}.

Definition validReference (ref : ExactLocalReference) : bool :=
  (ref_Namespace ref == None) && is_subdomain (ref_Name ref) &&
  MatchString identityPattern (ref_UID ref).

Definition validRetainedSelector (selector : OperationRetainedWorldSelector) : bool :=
  validReference (rw_DecommissionOperationRef selector) &&
  MatchString digestPattern (rw_SnapshotDigest selector).

(** The loop over the claims with its three sets of seen names. *)
Definition claim_step (seen : list string * list string * list string)
    (c : RetainedDataClaimReference) : result (list string * list string * list string) :=
  let '(paths, names, uids) := seen in
  let name := ref_Name (rdc_ClaimRef c) in
  let uid := ref_UID (rdc_ClaimRef c) in
  if negb (is_label (rdc_Path c)) || negb (validReference (rdc_ClaimRef c)) ||
     bool_decide (rdc_Path c ∈ paths) || bool_decide (name ∈ names) || bool_decide (uid ∈ uids)
  then Err ErrInvalidRequest
  else Ok (rdc_Path c :: paths, name :: names, uid :: uids).

Definition RetainedSnapshotDigest (target : GameDestroyTarget) : result string :=
  let claims := rdr_Claims (dt_Data target) in
  if negb (validReference (dt_GameServer target)) || (dt_Game target == "") ||
     (len claims == 0%Z) || (len claims >? 16)%Z || negb (is_label (rdr_Identity (dt_Data target)))
  then Err ErrInvalidRequest
  else
    _ ← for_state claim_step ([], [], []) claims;
    Ok (hashBytes (target_text (MkDestroyTarget (dt_GameServer target) (dt_Game target)
         (MkDataRef (rdr_Identity (dt_Data target)) (sort_claims claims))))).

Definition present {A} (o : option A) : bool := match o with Some _ => true | None => false end.
Definition payloads (request : OperationRequest) : Z :=
  len (filter (fun b => b = true)
    [present (rq_Create request); present (rq_Configure request); present (rq_Backup request);
     present (rq_Restore request); present (rq_Destroy request);
     present (rq_DestroyCommand request)]).

Definition definite (d : DesiredState) : bool :=
  (d == DesiredStateRunning) || (d == DesiredStateStopped).

Definition invalid (bad : bool) : result unit := if bad then Err ErrInvalidRequest else Ok tt.

Definition validateTarget (precondition : Precondition) (request : OperationRequest) : result unit :=
  match rq_Target request with
  | None => Ok tt
  | Some target =>
      invalid ((pc_Kind precondition != "server") || negb (validReference (gsr_ref target)) ||
        (gsr_Name target != rq_ServerName request) || (gsr_UID target != pc_UID precondition) ||
        (gsr_Generation target != pc_Generation precondition) ||
        negb (definite (gsr_DesiredState target)))
  end.

Definition validateImage (request : OperationRequest) : result unit :=
  match rq_Image request with
  | None => Ok tt
  | Some image =>
      let r := ii_Resolution image in
      _ ← invalid (Bool.eqb (ii_Digest image == "") (ii_Version image == "") ||
            negb (MatchString digestPattern (ir_Digest r)) || (ir_Repository r == "") ||
            (slen (ir_Repository r) >? 256)%Z || IsZero (ir_ResolvedAt r));
      _ ← invalid ((ii_Digest image != "") &&
            (negb (MatchString digestPattern (ii_Digest image)) || (ii_Digest image != ir_Digest r) ||
             (ir_ResolverVersion r != "digest-v1") || (ir_Tag r != "")));
      invalid ((ii_Version image != "") &&
            ((slen (ii_Version image) >? 64)%Z || (ir_ResolverVersion r != "registry-v1") ||
             (ir_Tag r == "")))
  end.

Definition challengePattern : regex :=
  Plus (Cls (fun c => is_upper c || is_lower c || is_digit c || one_of "_-" c)).

(** The [switch action]. *)
Definition validateAction (action : ArcadeOperationAction) (precondition : Precondition)
    (request : OperationRequest) : result unit :=
  let live := present (rq_Target request) in
  let count := payloads request in
  match action with
  | OperationServerCreate =>
      match rq_Create request with
      | None => Err ErrInvalidRequest
      | Some input =>
          _ ← invalid ((count != 1%Z) || negb (present (rq_Image request)) || live ||
                (rq_ServerName request == "") || (pc_Kind precondition != "absent"));
          _ ← invalid ((ci_Game input == "") || negb (is_label (ci_Game input)) ||
                negb (definite (ci_DesiredState input)));
          _ ← operations_CanonicalJSON (ci_SettingsJSON input);
          match ci_RetainedWorld input with
          | Some selector => invalid (negb (validRetainedSelector selector))
          | None => Ok tt
          end
      end
  | OperationServerConfigure =>
      match rq_Configure request with
      | None => Err ErrInvalidRequest
      | Some input =>
          _ ← invalid ((count != 1%Z) || negb live);
          _ ← invalid (negb (present (cf_Compute input)) && negb (present (cf_Storage input)) &&
                negb (present (cf_SettingsJSON input)));
          match cf_SettingsJSON input with
          | Some settings => _ ← operations_CanonicalJSON settings; Ok tt
          | None => Ok tt
          end
      end
  | OperationServerStart | OperationServerStop | OperationServerRestart
  | OperationServerDecommission => invalid ((count != 0%Z) || negb live)
  | OperationServerUpdate => invalid ((count != 0%Z) || negb live || negb (present (rq_Image request)))
  | OperationWorldBackup =>
      match rq_Backup request with
      | None => Err ErrInvalidRequest
      | Some input =>
          invalid ((count != 1%Z) || negb live || negb (is_subdomain (bi_RepositorySecretName input)) ||
            negb (validRestart (bi_RestartPolicy input)))
      end
  | OperationWorldRestore =>
      match rq_Restore request with
      | None => Err ErrInvalidRequest
      | Some input =>
          invalid ((count != 1%Z) || negb live || negb (validReference (ri_BackupRef input)) ||
            negb (validRestart (ri_RestartPolicy input)))
      end
  | OperationWorldDestroyPreview =>
      match rq_Destroy request with
      | None => Err ErrInvalidRequest
      | Some input =>
          _ ← invalid ((count != 1%Z) || negb (validReference (di_BackupRef input)));
          match di_RetainedWorld input with
          | Some selector =>
              invalid (live || (rq_ServerName request != "") || negb (validRetainedSelector selector) ||
                (pc_Kind precondition != "retained") ||
                (ref_UID (rw_DecommissionOperationRef selector) != pc_UID precondition) ||
                (rw_SnapshotDigest selector != pc_SnapshotDigest precondition))
          | None => invalid (negb live)
          end
      end
  | OperationWorldDestroyConfirm | OperationWorldDestroyCancel =>
      match rq_DestroyCommand request with
      | None => Err ErrInvalidRequest
      | Some command =>
          _ ← invalid ((count != 1%Z) || live || (rq_ServerName request != "") ||
                (pc_Kind precondition != "operation") ||
                negb (validReference (dc_ParentOperationRef command)) ||
                (ref_UID (dc_ParentOperationRef command) != pc_UID precondition) ||
                negb (validReference (dc_DestroyRef command)));
          if action == OperationWorldDestroyConfirm then
            invalid ((slen (dc_Challenge command) <? 16)%Z || (slen (dc_Challenge command) >? 128)%Z ||
              negb (MatchString challengePattern (dc_Challenge command)))
          else invalid (dc_Challenge command != "")
      end
  | OperationActionOther _ => Err ErrInvalidRequest
  end.

Definition ValidateRequest (action : ArcadeOperationAction) (request : OperationRequest) : result unit :=
  match ParsePrecondition (rq_Precondition request) with
  | Err _ => Err ErrInvalidRequest
  | Ok precondition =>
      _ ← validateTarget precondition request;
      _ ← invalid ((rq_ServerName request != "") && negb (is_label (rq_ServerName request)));
      _ ← invalid (match rq_Create request with
                   | Some input => present (st_Reattach (ci_Storage input)) | None => false end);
      _ ← invalid (match rq_Configure request with
                   | Some input => match cf_Storage input with
                                   | Some storage => present (st_Reattach storage) | None => false end
                   | None => false end);
      _ ← validateImage request;
      _ ← invalid (present (rq_Image request) && (action != OperationServerCreate) &&
            (action != OperationServerUpdate));
      validateAction action precondition request
  end.
End Validation.

(** ** Specification of admission *)

Inductive Payload :=
| PNone | PCreate (i : OperationCreateInput) | PConfigure (i : OperationConfigureInput)
| PBackup (i : OperationBackupInput) | PRestore (i : OperationRestoreInput)
| PDestroy (i : OperationDestroyInput) | PCommand (c : OperationDestroyCommand).

(** The request carries this payload and no other. *)
Definition carries (r : OperationRequest) (p : Payload) : Prop :=
  rq_Create r = (match p with PCreate i => Some i | _ => None end) /\
  rq_Configure r = (match p with PConfigure i => Some i | _ => None end) /\
  rq_Backup r = (match p with PBackup i => Some i | _ => None end) /\
  rq_Restore r = (match p with PRestore i => Some i | _ => None end) /\
  rq_Destroy r = (match p with PDestroy i => Some i | _ => None end) /\
  rq_DestroyCommand r = (match p with PCommand c => Some c | _ => None end).

Definition settings_ok (s : string) : Prop := exists c, operations_CanonicalJSON s = Ok c.

(** An image is pinned either by the digest the client named or by the digest
    its version resolved to, never by both. *)
Definition image_pinned (i : OperationImageInput) : Prop :=
  let r := ii_Resolution i in
  MatchString digestPattern (ir_Digest r) = true /\ ir_Repository r <> "" /\
  (slen (ir_Repository r) <= 256)%Z /\ ir_ResolvedAt r <> 0%Z /\
  ((ii_Version i = "" /\ ii_Digest i = ir_Digest r /\ ir_ResolverVersion r = "digest-v1" /\
    ir_Tag r = "") \/
   (ii_Digest i = "" /\ ii_Version i <> "" /\ (slen (ii_Version i) <= 64)%Z /\
    ir_ResolverVersion r = "registry-v1" /\ ir_Tag r <> "")).

Section Specification.
Context `{NameValidation}.

(** The target a live request is bound to is the one its precondition names. *)
Definition bound_to (p : Precondition) (r : OperationRequest) (t : ExactGameServerReference) : Prop :=
  pc_Kind p = "server" /\ validReference (gsr_ref t) = true /\ gsr_Name t = rq_ServerName r /\
  gsr_UID t = pc_UID p /\ gsr_Generation t = pc_Generation p /\ definite (gsr_DesiredState t) = true.

Definition retained_by (p : Precondition) (s : OperationRetainedWorldSelector) : Prop :=
  validRetainedSelector s = true /\ pc_Kind p = "retained" /\
  ref_UID (rw_DecommissionOperationRef s) = pc_UID p /\ rw_SnapshotDigest s = pc_SnapshotDigest p.

Definition commands (p : Precondition) (c : OperationDestroyCommand) : Prop :=
  pc_Kind p = "operation" /\ validReference (dc_ParentOperationRef c) = true /\
  ref_UID (dc_ParentOperationRef c) = pc_UID p /\ validReference (dc_DestroyRef c) = true.

(** One rule per action. *)
Inductive Permitted (p : Precondition) (r : OperationRequest) : ArcadeOperationAction -> Prop :=
| permit_create i image :
    carries r (PCreate i) -> rq_Target r = None -> rq_Image r = Some image ->
    rq_ServerName r <> "" -> pc_Kind p = "absent" -> ci_Game i <> "" -> is_label (ci_Game i) = true ->
    definite (ci_DesiredState i) = true -> settings_ok (ci_SettingsJSON i) ->
    (forall s, ci_RetainedWorld i = Some s -> validRetainedSelector s = true) ->
    st_Reattach (ci_Storage i) = None ->
    Permitted p r OperationServerCreate
| permit_configure i t :
    carries r (PConfigure i) -> rq_Target r = Some t -> rq_Image r = None ->
    (cf_Compute i, cf_Storage i, cf_SettingsJSON i) <> (None, None, None) ->
    (forall s, cf_SettingsJSON i = Some s -> settings_ok s) ->
    (forall s, cf_Storage i = Some s -> st_Reattach s = None) ->
    Permitted p r OperationServerConfigure
| permit_lifecycle a t :
    a ∈ [OperationServerStart; OperationServerStop; OperationServerRestart;
         OperationServerDecommission] ->
    carries r PNone -> rq_Target r = Some t -> rq_Image r = None -> Permitted p r a
| permit_update t image :
    carries r PNone -> rq_Target r = Some t -> rq_Image r = Some image ->
    Permitted p r OperationServerUpdate
| permit_backup i t :
    carries r (PBackup i) -> rq_Target r = Some t -> rq_Image r = None ->
    is_subdomain (bi_RepositorySecretName i) = true -> validRestart (bi_RestartPolicy i) = true ->
    Permitted p r OperationWorldBackup
| permit_restore i t :
    carries r (PRestore i) -> rq_Target r = Some t -> rq_Image r = None ->
    validReference (ri_BackupRef i) = true -> validRestart (ri_RestartPolicy i) = true ->
    Permitted p r OperationWorldRestore
| permit_destroy_live i t :
    carries r (PDestroy i) -> rq_Target r = Some t -> rq_Image r = None ->
    validReference (di_BackupRef i) = true -> di_RetainedWorld i = None ->
    Permitted p r OperationWorldDestroyPreview
| permit_destroy_retained i s :
    carries r (PDestroy i) -> rq_Target r = None -> rq_Image r = None ->
    validReference (di_BackupRef i) = true -> di_RetainedWorld i = Some s ->
    rq_ServerName r = "" -> retained_by p s -> Permitted p r OperationWorldDestroyPreview
| permit_confirm c :
    carries r (PCommand c) -> rq_Target r = None -> rq_Image r = None -> rq_ServerName r = "" ->
    commands p c -> (16 <= slen (dc_Challenge c) <= 128)%Z ->
    MatchString challengePattern (dc_Challenge c) = true ->
    Permitted p r OperationWorldDestroyConfirm
| permit_cancel c :
    carries r (PCommand c) -> rq_Target r = None -> rq_Image r = None -> rq_ServerName r = "" ->
    commands p c -> dc_Challenge c = "" -> Permitted p r OperationWorldDestroyCancel.

Definition Admissible (a : ArcadeOperationAction) (r : OperationRequest) : Prop :=
  exists p, ParsePrecondition (rq_Precondition r) = Ok p /\
    (forall t, rq_Target r = Some t -> bound_to p r t) /\
    (rq_ServerName r <> "" -> is_label (rq_ServerName r) = true) /\
    (forall i, rq_Image r = Some i -> image_pinned i) /\
    Permitted p r a.
End Specification.

(** ** Lemmas *)

Lemma invalid_ok b u : invalid b = Ok u <-> b = false.
Proof. destruct u, b; cbn; naive_solver. Qed.

Lemma bind_unit_ok {A} (m : result A) (k : result unit) u :
  (_ ← m; k) = Ok u <-> (exists a, m = Ok a) /\ k = Ok u.
Proof. destruct m; cbn; naive_solver. Qed.

Lemma invalid_ex b : (exists u, invalid b = Ok u) <-> b = false.
Proof. destruct b; cbn; naive_solver. Qed.

Lemma present_true {A} (o : option A) : present o = true <-> exists a, o = Some a.
Proof. destruct o; cbn; naive_solver. Qed.
Lemma present_false {A} (o : option A) : present o = false <-> o = None.
Proof. destruct o; cbn; naive_solver. Qed.

Create Rewrite HintDb request.
#[export] Hint Rewrite @invalid_ex @invalid_ok @bind_unit_ok @present_true @present_false
  Z.gtb_ltb : request.
Ltac request := autorewrite with request go_bool in *.

Lemma carries_payloads r p : carries r p -> payloads r = if p is PNone then 0%Z else 1%Z.
Proof. unfold carries, payloads. intros (-> & -> & -> & -> & -> & ->). by destruct p. Qed.

(** A payload count together with the payload at hand is a unique payload. *)
Lemma payloads_carries r :
  (payloads r = 0%Z -> carries r PNone) /\
  (forall i, payloads r = 1%Z -> rq_Create r = Some i -> carries r (PCreate i)) /\
  (forall i, payloads r = 1%Z -> rq_Configure r = Some i -> carries r (PConfigure i)) /\
  (forall i, payloads r = 1%Z -> rq_Backup r = Some i -> carries r (PBackup i)) /\
  (forall i, payloads r = 1%Z -> rq_Restore r = Some i -> carries r (PRestore i)) /\
  (forall i, payloads r = 1%Z -> rq_Destroy r = Some i -> carries r (PDestroy i)) /\
  (forall c, payloads r = 1%Z -> rq_DestroyCommand r = Some c -> carries r (PCommand c)).
Proof.
  unfold carries, payloads.
  destruct (rq_Create r), (rq_Configure r), (rq_Backup r), (rq_Restore r), (rq_Destroy r),
    (rq_DestroyCommand r); vm_compute (len _); naive_solver.
Qed.

Section Admission.
Context `{NameValidation}.

Lemma validateTarget_ok p r u : validateTarget p r = Ok u <-> forall t, rq_Target r = Some t -> bound_to p r t.
Proof.
  unfold validateTarget, bound_to. destruct u, (rq_Target r) as [t|]; [|naive_solver].
  request. split.
  - intros Hb ? [= <-]. by destruct_and!.
  - intros Hb. specialize (Hb t eq_refl). by destruct_and!.
Qed.

Lemma digest_nonempty : MatchString digestPattern "" = false.
Proof. vm_compute. done. Qed.

Lemma validateImage_ok r u : validateImage r = Ok u <-> forall i, rq_Image r = Some i -> image_pinned i.
Proof.
  unfold validateImage, image_pinned. destruct u, (rq_Image r) as [i|]; [|naive_solver].
  request. unfold IsZero. set (res := ii_Resolution i).
  assert (Bool.eqb (ii_Digest i == "") (ii_Version i == "") = false <->
    (ii_Digest i = "" /\ ii_Version i <> "") \/ (ii_Digest i <> "" /\ ii_Version i = "")) as ->.
  { repeat case_bool_decide; cbn; naive_solver. }
  request. pose proof digest_nonempty as Hne. split.
  - intros Hall ? [= <-]. fold res. destruct_and!. naive_solver.
  - intros Hi. specialize (Hi i eq_refl). fold res in Hi. destruct Hi as (? & ? & ? & ? & [Hd|Hv]).
    + destruct Hd as (-> & Hd & ? & ?). assert (ii_Digest i <> "") by (intros E; congruence).
      naive_solver congruence.
    + naive_solver.
Qed.

(** What the guards before the switch say about images and reattachment. *)
Definition side_conditions (a : ArcadeOperationAction) (r : OperationRequest) : Prop :=
  (forall i, rq_Create r = Some i -> st_Reattach (ci_Storage i) = None) /\
  (forall i s, rq_Configure r = Some i -> cf_Storage i = Some s -> st_Reattach s = None) /\
  (rq_Image r = None \/ a = OperationServerCreate \/ a = OperationServerUpdate).

Lemma side_image a r : side_conditions a r -> a <> OperationServerCreate -> a <> OperationServerUpdate ->
  rq_Image r = None.
Proof. intros (_ & _ & [?|[?|?]]); done. Qed.

Lemma permitted_create p r : validateAction OperationServerCreate p r = Ok tt ->
  side_conditions OperationServerCreate r -> Permitted p r OperationServerCreate.
Proof.
  intros Ha (Hc & _ & _). pose proof (payloads_carries r) as (_ & PC & _). cbn [validateAction] in Ha.
  destruct (rq_Create r) as [i|] eqn:E; [|done]. clear E.
  request. destruct_and!. destruct (rq_Image r) as [image|] eqn:Ei; [|naive_solver].
  eapply permit_create; eauto. intros s Es. rewrite Es in *. by request.
Qed.

Lemma permitted_configure p r : validateAction OperationServerConfigure p r = Ok tt ->
  side_conditions OperationServerConfigure r -> Permitted p r OperationServerConfigure.
Proof.
  intros Ha HS. pose proof (side_image _ _ HS) as Hi. destruct HS as (_ & Hf & _).
  pose proof (payloads_carries r) as (_ & _ & PF & _). cbn [validateAction] in Ha.
  destruct (rq_Configure r) as [i|] eqn:E; [|done]. clear E.
  request. destruct_and!. destruct (rq_Target r) as [t|] eqn:Et; [|naive_solver].
  eapply permit_configure; eauto.
  - intros [= E1 E2 E3]. rewrite E1, E2, E3 in *. naive_solver.
  - intros s Es. rewrite Es in *. request. by destruct_and!.
Qed.

Lemma permitted_empty a p r :
  a ∈ [OperationServerStart; OperationServerStop; OperationServerRestart; OperationServerDecommission;
       OperationServerUpdate] ->
  validateAction a p r = Ok tt -> side_conditions a r -> Permitted p r a.
Proof.
  intros Hin Ha HS. pose proof (side_image _ _ HS) as Hi.
  pose proof (payloads_carries r) as (P0 & _).
  assert (payloads r = 0%Z /\ (exists t, rq_Target r = Some t) /\
    (a = OperationServerUpdate -> exists i, rq_Image r = Some i)) as (Hp & [t Et] & Hu).
  { repeat (apply elem_of_cons in Hin as [-> | Hin]); [.. | by apply not_elem_of_nil in Hin];
      cbn [validateAction] in Ha; request; destruct_and!; naive_solver. }
  destruct (decide (a = OperationServerUpdate)) as [->|Hn].
  - destruct Hu as [i Ei]; [done|]. eapply permit_update; eauto.
  - eapply permit_lifecycle; eauto.
    + repeat (apply elem_of_cons in Hin as [-> | Hin]); try done; set_solver.
    + apply Hi; [|done]. intros ->. repeat (apply elem_of_cons in Hin as [[=] | Hin]).
      by apply not_elem_of_nil in Hin.
Qed.

Lemma permitted_data a p r : a = OperationWorldBackup \/ a = OperationWorldRestore ->
  validateAction a p r = Ok tt -> side_conditions a r -> Permitted p r a.
Proof.
  intros Hor Ha HS. assert (rq_Image r = None) as Hi by (apply (side_image _ _ HS); naive_solver).
  pose proof (payloads_carries r) as (_ & _ & _ & PB & PR & _).
  destruct Hor as [-> | ->]; cbn [validateAction] in Ha.
  - destruct (rq_Backup r) as [i|] eqn:E; [|done]. request. destruct_and!.
    destruct (rq_Target r) as [t|] eqn:Et; [|naive_solver]. eapply permit_backup; eauto.
  - destruct (rq_Restore r) as [i|] eqn:E; [|done]. request. destruct_and!.
    destruct (rq_Target r) as [t|] eqn:Et; [|naive_solver]. eapply permit_restore; eauto.
Qed.

Lemma permitted_preview p r : validateAction OperationWorldDestroyPreview p r = Ok tt ->
  side_conditions OperationWorldDestroyPreview r -> Permitted p r OperationWorldDestroyPreview.
Proof.
  intros Ha HS. assert (rq_Image r = None) as Hi by (by apply (side_image _ _ HS)).
  pose proof (payloads_carries r) as (_ & _ & _ & _ & _ & PD & _). cbn [validateAction] in Ha.
  destruct (rq_Destroy r) as [i|] eqn:E; [|done]. request. destruct_and!.
  destruct (di_RetainedWorld i) as [s|] eqn:Es; request; destruct_and?.
  - eapply permit_destroy_retained; eauto. by split.
  - destruct (rq_Target r) as [t|] eqn:Et; [|naive_solver]. eapply permit_destroy_live; eauto.
Qed.

Lemma permitted_command a p r : a = OperationWorldDestroyConfirm \/ a = OperationWorldDestroyCancel ->
  validateAction a p r = Ok tt -> side_conditions a r -> Permitted p r a.
Proof.
  intros Hor Ha HS. assert (rq_Image r = None) as Hi by (apply (side_image _ _ HS); naive_solver).
  pose proof (payloads_carries r) as (_ & _ & _ & _ & _ & _ & PX).
  destruct Hor as [-> | ->]; cbn [validateAction] in Ha;
    (destruct (rq_DestroyCommand r) as [c|] eqn:E; [|done]); request; destruct_and!; eval_bools; request.
  - destruct_and!. eapply permit_confirm; eauto. by split.
  - eapply permit_cancel; eauto. by split.
Qed.

Lemma permitted_sound a p r : validateAction a p r = Ok tt -> side_conditions a r -> Permitted p r a.
Proof.
  destruct a; try (solve [auto using permitted_create, permitted_configure, permitted_preview]);
    try (apply permitted_empty; set_solver); try (solve [apply permitted_data; auto]);
    try (solve [apply permitted_command; auto]). done.
Qed.

Lemma permitted_side a p r : Permitted p r a -> side_conditions a r.
Proof.
  unfold side_conditions, carries. intros Hp.
  inversion Hp; subst; repeat match goal with Hc : carries _ _ |- _ => destruct Hc as (?&?&?&?&?&?) end;
    split_and!; intros; simplify_eq; eauto.
Qed.

Lemma permitted_complete a p r : Permitted p r a -> validateAction a p r = Ok tt.
Proof.
  intros Hp. inversion Hp; subst; cbn [validateAction];
    match goal with Hc : carries _ _ |- _ =>
      pose proof (carries_payloads _ _ Hc) as Hcount; destruct Hc as (?&?&?&?&?&?) end.
  all: repeat match goal with E : rq_Create _ = _ |- _ => rewrite E; clear E
    | E : rq_Configure _ = _ |- _ => rewrite E; clear E
    | E : rq_Backup _ = _ |- _ => rewrite E; clear E | E : rq_Restore _ = _ |- _ => rewrite E; clear E
    | E : rq_Destroy _ = _ |- _ => rewrite E; clear E
    | E : rq_DestroyCommand _ = _ |- _ => rewrite E; clear E
    | E : rq_Target _ = _ |- _ => rewrite E; clear E | E : rq_Image _ = _ |- _ => rewrite E; clear E
    | E : rq_ServerName _ = _ |- _ => rewrite E; clear E end.
  all: rewrite ?Hcount; cbn [present].
  all: unfold retained_by, commands, settings_ok in *; destruct_and?.
  all: request; split_and?; eauto; try lia.
  - destruct (ci_RetainedWorld i) as [s|]; [request; auto | done].
  - destruct (cf_Compute i), (cf_Storage i), (cf_SettingsJSON i); naive_solver.
  - destruct (cf_SettingsJSON i) as [s|]; [request; split; eauto | done].
  - match goal with E : a ∈ _, Et : rq_Target r = _ |- _ => rename E into Hin; rename Et into Ht end.
    repeat (apply elem_of_cons in Hin as [-> | Hin]); [.. | by apply not_elem_of_nil in Hin];
      cbn [validateAction]; rewrite Hcount, Ht; done.
  - match goal with E : di_RetainedWorld i = _ |- _ => rewrite E end. done.
  - match goal with E : di_RetainedWorld i = _ |- _ => rewrite E end. by request.
  - eval_bools. by request.
  - eval_bools. by request.
Qed.

Lemma side_conditions_iff a r (Q R : Prop) :
  (match rq_Create r with
   | Some input => present (st_Reattach (ci_Storage input)) | None => false end = false /\
   match rq_Configure r with
   | Some input => match cf_Storage input with
                   | Some storage => present (st_Reattach storage) | None => false end
   | None => false end = false /\
   Q /\ ((rq_Image r = None \/ a = OperationServerCreate) \/ a = OperationServerUpdate) /\ R) <->
  side_conditions a r /\ Q /\ R.
Proof.
  unfold side_conditions.
  destruct (rq_Create r) as [[? ? ? [? ? []] ? ?]|], (rq_Configure r) as [[? [[? ? []]|] ?]|]; cbn;
    naive_solver.
Qed.

(** C33: [ValidateRequest] accepts a frozen request exactly when it is
    admissible: its precondition parses, a live target is the one the
    precondition names, the image is pinned by exactly one of digest and
    version, and the action's own rule holds: the one payload it needs and
    no other, no image outside create and update, no inline reattachment,
    and for the destroy commands the exact parent and challenge. *)
Theorem ValidateRequest_exact action request :
  ValidateRequest action request = Ok tt <-> Admissible action request.
Proof.
  unfold ValidateRequest, Admissible.
  destruct (ParsePrecondition (rq_Precondition request)) as [p|]; [|naive_solver].
  request. rewrite side_conditions_iff.
  assert ((exists u, validateTarget p request = Ok u) <->
    forall t, rq_Target request = Some t -> bound_to p request t) as ->
    by (split; [intros [u Hu]; by apply (validateTarget_ok p request u)
               | intros Hu; exists tt; by apply validateTarget_ok]).
  assert ((exists u, validateImage request = Ok u) <->
    forall i, rq_Image request = Some i -> image_pinned i) as ->
    by (split; [intros [u Hu]; by apply (validateImage_ok request u)
               | intros Hu; exists tt; by apply validateImage_ok]).
  split.
  - intros (Ht & Hn & HS & Hi & Ha). exists p. split_and!; try done; [naive_solver|].
    by apply permitted_sound.
  - intros (? & [= <-] & Ht & Hn & Hi & Hp). split_and!; try done.
    + destruct (decide (rq_ServerName request = "")); auto.
    + by eapply permitted_side.
    + by apply permitted_complete.
Qed.
End Admission.

(** ** Retained worlds and child names *)

Section Digests.
Context `{NameValidation}.

Definition claim_name (c : RetainedDataClaimReference) : string := ref_Name (rdc_ClaimRef c).
Definition claim_uid (c : RetainedDataClaimReference) : string := ref_UID (rdc_ClaimRef c).
Definition claim_valid (c : RetainedDataClaimReference) : Prop :=
  is_label (rdc_Path c) = true /\ validReference (rdc_ClaimRef c) = true.
Definition unseen (f : RetainedDataClaimReference -> string) (seen : list string)
    (l : list RetainedDataClaimReference) : Prop :=
  NoDup (f <$> l) /\ forall c, c ∈ l -> f c ∉ seen.

Lemma unseen_cons f seen c l :
  unseen f seen (c :: l) <-> f c ∉ seen /\ unseen f (f c :: seen) l.
Proof.
  unfold unseen. rewrite fmap_cons, list.NoDup_cons, list_elem_of_fmap. setoid_rewrite elem_of_cons.
  split.
  - intros [[Hn Hd] Hs]. split_and!; eauto. intros x Hx [E|E]; [apply Hn; eauto | by eapply Hs; eauto].
  - intros [Hc [Hd Hs]]. split_and!; [|done|].
    + intros (x & E & Hx). apply (Hs x Hx). by left.
    + intros x [-> | Hx]; [done|]. intros Hin. apply (Hs x Hx). by right.
Qed.

Lemma claim_step_ok paths names uids c s : claim_step (paths, names, uids) c = Ok s <->
  claim_valid c /\ rdc_Path c ∉ paths /\ claim_name c ∉ names /\ claim_uid c ∉ uids /\
  s = (rdc_Path c :: paths, claim_name c :: names, claim_uid c :: uids).
Proof.
  unfold claim_step, claim_valid, claim_name, claim_uid.
  destruct (is_label _), (validReference _); cbn; [|naive_solver..].
  repeat case_bool_decide; cbn; naive_solver.
Qed.

Lemma claim_loop_ok l paths names uids :
  (exists s, for_state claim_step (paths, names, uids) l = Ok s) <->
  Forall claim_valid l /\ unseen rdc_Path paths l /\ unseen claim_name names l /\
  unseen claim_uid uids l.
Proof.
  revert paths names uids. induction l as [|c l IH]; intros paths names uids.
  - cbn. unfold unseen. split; [|eauto]. intros _. split; [done|].
    split_and!; try (by apply NoDup_nil_2); intros c Hc; by apply not_elem_of_nil in Hc.
  - rewrite !unseen_cons, Forall_cons. cbn [for_state].
    destruct (claim_step (paths, names, uids) c) as [s|e] eqn:E.
    + apply claim_step_ok in E as (? & ? & ? & ? & ->). rewrite IH. naive_solver.
    + split; [naive_solver|]. intros ([Hv _] & [? _] & [? _] & [? _]).
      assert (claim_step (paths, names, uids) c =
        Ok (rdc_Path c :: paths, claim_name c :: names, claim_uid c :: uids)) as E'
        by (by apply claim_step_ok). congruence.
Qed.

Lemma unseen_perm f seen l k : l ≡ₚ k -> unseen f seen l -> unseen f seen k.
Proof. unfold unseen. intros Hp. by setoid_rewrite Hp. Qed.

Lemma claim_loop_perm l k : l ≡ₚ k ->
  is_ok (for_state claim_step ([], [], []) l) = is_ok (for_state claim_step ([], [], []) k).
Proof.
  intros Hp. assert (forall l k, l ≡ₚ k -> is_ok (for_state claim_step ([], [], []) l) = true ->
    is_ok (for_state claim_step ([], [], []) k) = true) as Hone.
  { clear l k Hp. intros l k Hp. rewrite !is_ok_true, !claim_loop_ok.
    intros (Hv & Hs). split; [by rewrite <- Hp|]. destruct_and!. split_and!; by eapply unseen_perm. }
  pose proof (Hone _ _ Hp). symmetry in Hp. pose proof (Hone _ _ Hp).
  destruct (is_ok (for_state _ _ l)), (is_ok (for_state _ _ k)); naive_solver.
Qed.

Lemma claim_loop_err l e : for_state claim_step ([], [], []) l = Err e -> e = ErrInvalidRequest.
Proof.
  generalize (@nil string, @nil string, @nil string).
  induction l as [|c l IH]; intros [[paths names] uids]; cbn [for_state]; [done|].
  destruct (claim_step _ c) as [s|e'] eqn:E; [apply IH|].
  unfold claim_step in E. destruct (_ || _)%bool; congruence.
Qed.

(** The snapshot digest of a retained world does not depend on the order
    in which its claims are listed: the code sorts them by path, and refuses
    duplicated paths, names and UIDs in either order. *)
Theorem RetainedSnapshotDigest_order gs game identity claims claims'
  (Hp : claims ≡ₚ claims') :
  RetainedSnapshotDigest (MkDestroyTarget gs game (MkDataRef identity claims)) =
  RetainedSnapshotDigest (MkDestroyTarget gs game (MkDataRef identity claims')).
Proof.
  unfold RetainedSnapshotDigest. cbn [dt_GameServer dt_Game dt_Data rdr_Claims rdr_Identity].
  assert (len claims = len claims') as -> by (unfold len; by rewrite (Permutation_length Hp)).
  destruct (_ || _)%bool; [done|]. pose proof (claim_loop_perm _ _ Hp) as Hok.
  destruct (for_state _ _ claims) as [s|e] eqn:E, (for_state _ _ claims') as [s'|e'] eqn:E';
    [| discriminate Hok | discriminate Hok |].
  - assert (unseen rdc_Path [] claims) as [Hnd _] by (by eapply claim_loop_ok, ex_intro).
    cbn [mbind result_bind]. unfold sort_claims. rewrite (sort_by_unique _ claims claims' Hnd Hp).
    reflexivity.
  - apply claim_loop_err in E, E'. rewrite E, E'. cbn [mbind result_bind]. reflexivity.
Qed.

End Digests.

Definition claim_a : RetainedDataClaimReference := MkClaimRef "world" (MkRef None "pvc-a" "uid-a").
Definition claim_b : RetainedDataClaimReference := MkClaimRef "config" (MkRef None "pvc-b" "uid-b").

Lemma RetainedSnapshotDigest_order_witness :
  @RetainedSnapshotDigest rfc1123 (MkDestroyTarget (MkRef None "server" "uid") "game"
    (MkDataRef "world-1" [claim_a; claim_b])) =
  @RetainedSnapshotDigest rfc1123 (MkDestroyTarget (MkRef None "server" "uid") "game"
    (MkDataRef "world-1" [claim_b; claim_a])) /\
  is_ok (@RetainedSnapshotDigest rfc1123 (MkDestroyTarget (MkRef None "server" "uid") "game"
    (MkDataRef "world-1" [claim_a; claim_b]))) = true.
Proof.
  split; [|vm_compute; reflexivity].
  apply (@RetainedSnapshotDigest_order rfc1123). apply perm_swap.
Defined.

Lemma child_prefix_kind kind : child_prefix kind <> "" ->
  kind ∈ ["GameServer"; "GameBackup"; "GameRestore"; "GameDestroy"].
Proof. unfold child_prefix. repeat case_bool_decide; subst; set_solver. Qed.

Lemma ChildName_nonempty uid kind : ChildName uid kind <> "" ->
  kind ∈ ["GameServer"; "GameBackup"; "GameRestore"; "GameDestroy"] /\ uid <> "" /\
  ChildName uid kind =
    child_prefix kind +:+ "-" +:+ EncodeToString (take 20 (Sum256 (child_preimage uid kind))).
Proof.
  unfold ChildName. destruct (_ || _)%bool eqn:E; [done|]. intros _.
  apply orb_false_iff in E as [E1 E2]. rewrite bool_decide_eq_false in E1, E2.
  split; [by apply child_prefix_kind | done].
Qed.

(** The kind is visible in the prefix of the name. *)
Lemma child_prefix_visible k1 k2 t1 t2 :
  k1 ∈ ["GameServer"; "GameBackup"; "GameRestore"; "GameDestroy"] ->
  k2 ∈ ["GameServer"; "GameBackup"; "GameRestore"; "GameDestroy"] ->
  child_prefix k1 +:+ "-" +:+ t1 = child_prefix k2 +:+ "-" +:+ t2 -> k1 = k2 /\ t1 = t2.
Proof.
  intros H1 H2.
  repeat (apply elem_of_cons in H1 as [-> | H1]); [.. | by apply not_elem_of_nil in H1];
    (repeat (apply elem_of_cons in H2 as [-> | H2]); [.. | by apply not_elem_of_nil in H2]);
    intros E; (discriminate E || (split; [reflexivity|]; by injection E)).
Qed.

Lemma child_preimage_inj u1 u2 kind : child_preimage u1 kind = child_preimage u2 kind -> u1 = u2.
Proof.
  unfold child_preimage. rewrite !chars_app. intros E.
  do 2 apply app_inv_head in E. apply app_inv_tail in E. by apply chars_inj.
Qed.


(** A receipt's children have distinct names: two non-empty child names
    agree only for the same kind and the same receipt UID, or when two
    different UIDs collide in the first 160 bits of SHA-256. *)
Theorem ChildName_injective u1 k1 u2 k2
  (Hn : ChildName u1 k1 <> "") (E : ChildName u1 k1 = ChildName u2 k2) :
  k1 = k2 /\ (u1 = u2 \/ (child_preimage u1 k1 <> child_preimage u2 k2 /\
    take 20 (Sum256 (child_preimage u1 k1)) = take 20 (Sum256 (child_preimage u2 k2)))).
Proof.
  assert (ChildName u2 k2 <> "") as Hn2 by (by rewrite <- E).
  destruct (ChildName_nonempty _ _ Hn) as (Hk1 & _ & E1).
  destruct (ChildName_nonempty _ _ Hn2) as (Hk2 & _ & E2).
  rewrite E1, E2 in E. apply child_prefix_visible in E as [-> E]; [|exact Hk1|exact Hk2].
  split; [reflexivity|]. apply EncodeToString_inj in E.
  destruct (decide (u1 = u2)) as [->|Hu]; [left; reflexivity|].
  right. split; [|exact E]. intros Hp. by apply child_preimage_inj in Hp.
Qed.

Lemma ChildName_injective_witness :
  ChildName "uid-1" "GameBackup" <> "" /\
  ("GameBackup" = "GameBackup" /\ ("uid-1" = "uid-1" \/ (child_preimage "uid-1" "GameBackup" <> child_preimage "uid-1" "GameBackup" /\
    take 20 (Sum256 (child_preimage "uid-1" "GameBackup")) =
    take 20 (Sum256 (child_preimage "uid-1" "GameBackup"))))).
Proof.
  assert (ChildName "uid-1" "GameBackup" <> "") as Hn by (vm_compute; discriminate).
  split; [exact Hn | exact (ChildName_injective "uid-1" "GameBackup" "uid-1" "GameBackup" Hn eq_refl)].
Defined.
