(* ===== verification/GoNet.v ===== *)
(** * Go's [net.ParseIP] and [net.SplitHostPort]

    Only whether a text is an IP address matters to the sources, so [ParseIP]
    is its acceptance condition.  The IPv6 reader follows the standard
    library's loop: groups of up to four hexadecimal digits, one ellipsis, an
    optional trailing IPv4 address, sixteen bytes in all. *)

From Stdlib Require Import Ascii.
From stdpp Require Import base tactics list strings numbers.
From S2P Require Import Prelude GoStrings GoJson.
Open Scope string_scope.
Open Scope list_scope.

(** ** [net.ParseIP] *)

(** A decimal field of an IPv4 address: one to three digits, no leading zero,
    at most 255. *)
Definition ipv4_field (s : list ascii) : bool :=
  forallb digit s && (1 <=? length s)%nat && (length s <=? 3)%nat &&
  negb ((2 <=? length s)%nat && match s with c :: _ => Ascii.eqb c "0" | [] => false end) &&
  match parse_digits (unchars s) with Some z => (z <=? 255)%Z | None => false end.
Definition parseIPv4 (s : list ascii) : bool :=
  let fields := split_chars "." s in (length fields =? 4)%nat && forallb ipv4_field fields.

Definition is_hex_digit (c : ascii) : bool :=
  match hex_digit c with Some _ => true | None => false end.
Fixpoint span_hex (s : list ascii) : nat * list ascii :=
  match s with
  | c :: r => if is_hex_digit c then let '(n, rest) := span_hex r in (S n, rest) else (0%nat, s)
  | [] => (0%nat, [])
  end.

(** The end of the text: all sixteen bytes, or fewer with an ellipsis. *)
Definition ipv6_end (i : nat) (ellipsis : bool) : bool :=
  if (i <? 16)%nat then ellipsis else negb ellipsis.

(** The loop at byte [i] of the address; eight groups at most, so eight steps. *)
Fixpoint ipv6_groups (steps : nat) (i : nat) (ellipsis : bool) (s : list ascii) : bool :=
  match steps with
  | O => match s with [] => ipv6_end i ellipsis | _ => false end
  | S steps =>
      let '(n, rest) := span_hex s in
      if ((n =? 0) || (4 <? n))%nat then false
      else
        match rest with
        | [] => ipv6_end (i + 2) ellipsis
        | c :: r =>
            if Ascii.eqb c "." then
              (ellipsis || (i =? 12)%nat) && (i + 4 <=? 16)%nat && parseIPv4 s &&
              ipv6_end (i + 4) ellipsis
            else if Ascii.eqb c ":" then
              match r with
              | [] => false
              | d :: r' =>
                  if Ascii.eqb d ":" then
                    if ellipsis then false
                    else match r' with
                         | [] => ipv6_end (i + 2) true
                         | _ => ipv6_groups steps (i + 2) true r'
                         end
                  else ipv6_groups steps (i + 2) ellipsis r
              end
            else false
        end
  end.
Definition parseIPv6 (s : list ascii) : bool :=
  match strip_prefix (chars "::") s with
  | Some [] => true
  | Some rest => ipv6_groups 8 0 true rest
  | None => ipv6_groups 8 0 false s
  end.

(** The first ['.'], [':'] or ['%'] decides the family; a zone is refused. *)
Fixpoint ip_family (s : list ascii) : option ascii :=
  match s with
  | [] => None
  | c :: r =>
      if Ascii.eqb c "." || Ascii.eqb c ":" || Ascii.eqb c "%" then Some c else ip_family r
  end.
(** [net.ParseIP(s) != nil] *)
Definition ParseIP (s : string) : bool :=
  match ip_family (chars s) with
  | Some c => if Ascii.eqb c "." then parseIPv4 (chars s)
              else if Ascii.eqb c ":" then parseIPv6 (chars s) else false
  | None => false
  end.

(** ** [net.SplitHostPort] *)

(** The text before and after the last colon. *)
Fixpoint cut_last (sep : ascii) (s : list ascii) : option (list ascii * list ascii) :=
  match s with
  | [] => None
  | c :: r =>
      match cut_last sep r with
      | Some (b, a) => Some (c :: b, a)
      | None => if Ascii.eqb c sep then Some ([], r) else None
      end
  end.
Definition has (c : ascii) (s : list ascii) : bool := existsb (Ascii.eqb c) s.

Definition SplitHostPort (hostport : string) : option (string * string) :=
  match cut_last ":" (chars hostport) with
  | None => None
  | Some (before, port) =>
      match chars hostport with
      | c :: inside =>
          if Ascii.eqb c "[" then
            (* the first [']'] must be just before the last colon *)
            match cut_at (chars "]") inside with
            | Some (host, after) =>
                if bool_decide (after = ":"%char :: port) && negb (has ":" port)
                   && negb (has "[" inside) && negb (has "]" after)
                then Some (unchars host, unchars port) else None
            | None => None
            end
          else if has ":" before || has "[" (chars hostport) || has "]" (chars hostport) then None
          else Some (unchars before, unchars port)
      | [] => None
      end
  end.

Example ParseIP_examples :
  ParseIP <$> ["10.0.0.1"; "10.0.0.01"; "10.0.0"; "::1"; "::"; "1::2::3"; "fe80::1%eth0";
               "1:2:3:4:5:6:7:8"; "1:2:3:4:5:6:7"; "::ffff:1.2.3.4"; "1:2:3:4:5:6:1.2.3.4";
               "1:2:3:4:5:6:7::"; "1:2:3:4:5:6:7:8::"; "12345::"] =
  [true; false; false; true; true; false; false; true; false; true; true; true; false; false].
Proof. vm_compute. reflexivity. Qed.
Example SplitHostPort_examples :
  SplitHostPort <$> ["host:80"; "[::1]:80"; "a:b:80"; "[::1]"; "host"; "[a]x:80"] =
  [Some ("host", "80"); Some ("::1", "80"); None; None; None; None].
Proof. vm_compute. reflexivity. Qed.
