(* ===== verification/GoNetip.v ===== *)
(** * Go's [netip.Addr]

    [ParseAddr], [IsGlobalUnicast], [Unmap] and [String] of [net/netip], as the
    player endpoints use them.  An IPv6 address is its eight 16-bit groups with
    its zone. *)

From Stdlib Require Import Ascii.
From stdpp Require Import base tactics list strings numbers.
From S2P Require Import Prelude GoStrings GoJson GoNet.
Open Scope string_scope.
Open Scope list_scope.
Open Scope Z_scope.

Inductive Addr := Addr4 (fields : list Z) | Addr6 (groups : list Z) (zone : string).
#[export] Instance Addr_eq_dec : EqDecision Addr.
Proof. solve_decision. Defined.

(** ** [ParseAddr] *)

Definition ipv4_value (s : list ascii) : option Z := if ipv4_field s then parse_digits (unchars s) else None.
Definition ipv4_fields (s : list ascii) : option (list Z) :=
  let fields := split_chars "." s in
  if (length fields =? 4)%nat then mapM ipv4_value fields else None.

Definition hex_value (s : list ascii) : Z :=
  fold_left (fun acc c => acc * 16 + match hex_digit c with Some d => Z.of_N d | None => 0 end) s 0.

(** The groups read so far, and how many came before the ellipsis; at the end
    the ellipsis stands for the missing ones. *)
Definition ipv6_expand (groups : list Z) (ellipsis : option nat) : option (list Z) :=
  if (length groups <? 8)%nat then
    match ellipsis with
    | None => None
    | Some n => Some (take n groups ++ replicate (8 - length groups) 0 ++ drop n groups)
    end
  else match ellipsis with None => Some groups | Some _ => None end.

(** The loop with [steps] groups left to read. *)
Fixpoint ipv6_loop (steps : nat) (groups : list Z) (ellipsis : option nat) (s : list ascii) : option (list Z) :=
  match steps with
  | O => match s with [] => ipv6_expand groups ellipsis | _ => None end
  | S steps =>
      let '(n, rest) := span_hex s in
      if ((n =? 0) || (4 <? n))%nat then None
      else
        let groups' := groups ++ [hex_value (take n s)] in
        match rest with
        | [] => ipv6_expand groups' ellipsis
        | c :: r =>
            if Ascii.eqb c "." then
              if negb (bool_decide (is_Some ellipsis)) && negb (length groups =? 6)%nat then None
              else if (6 <? length groups)%nat then None
              else match ipv4_fields s with
                   | Some [a; b; c; d] => ipv6_expand (groups ++ [a * 256 + b; c * 256 + d]) ellipsis
                   | _ => None
                   end
            else if Ascii.eqb c ":" then
              match r with
              | [] => None
              | d :: r' =>
                  if Ascii.eqb d ":" then
                    if bool_decide (is_Some ellipsis) then None
                    else match r' with
                         | [] => ipv6_expand groups' (Some (length groups'))
                         | _ => ipv6_loop steps groups' (Some (length groups')) r'
                         end
                  else ipv6_loop steps groups' ellipsis r
              end
            else None
        end
  end.
Definition ipv6_parse (s : list ascii) : option (list Z) :=
  match strip_prefix (chars "::") s with
  | Some [] => Some (replicate 8 0)
  | Some rest => ipv6_loop 8 [] (Some 0%nat) rest
  | None => ipv6_loop 8 [] None s
  end.

Definition ParseAddr (s : string) : option Addr :=
  match ip_family (chars s) with
  | Some c =>
      if Ascii.eqb c "." then Addr4 <$> ipv4_fields (chars s)
      else if Ascii.eqb c ":" then
        match cut_at (chars "%") (chars s) with
        | None => (fun g => Addr6 g "") <$> ipv6_parse (chars s)
        | Some (_, []) => None
        | Some (before, zone) => (fun g => Addr6 g (unchars zone)) <$> ipv6_parse before
        end
      else None
  | None => None
  end.

(** ** Classification *)

Definition Unmap (a : Addr) : Addr :=
  match a with
  | Addr6 [0; 0; 0; 0; 0; 65535; g; h] _ => Addr4 [g / 256; g mod 256; h / 256; h mod 256]
  | a => a
  end.
Definition first (a : Addr) : Z := match a with Addr4 (x :: _) | Addr6 (x :: _) _ => x | _ => 0 end.
Definition IsLoopback (a : Addr) : bool :=
  match Unmap a with
  | Addr4 _ as a => first a =? 127
  | Addr6 groups _ => bool_decide (groups = replicate 7 0 ++ [1])
  end.
Definition IsMulticast (a : Addr) : bool :=
  match Unmap a with
  | Addr4 _ as a => Z.land (first a) 240 =? 224
  | Addr6 _ _ as a => Z.shiftr (first a) 8 =? 255
  end.
Definition IsLinkLocalUnicast (a : Addr) : bool :=
  match Unmap a with
  | Addr4 (x :: y :: _) => (x =? 169) && (y =? 254)
  | Addr4 _ => false
  | Addr6 _ _ as a => Z.land (first a) 65472 =? 65152
  end.
Definition IsGlobalUnicast (a : Addr) : bool :=
  let a := Unmap a in
  negb (bool_decide (a = Addr4 [0; 0; 0; 0])) && negb (bool_decide (a = Addr4 [255; 255; 255; 255])) &&
  negb (bool_decide (a = Addr6 (replicate 8 0) "")) && negb (IsLoopback a) && negb (IsMulticast a) &&
  negb (IsLinkLocalUnicast a).

(** ** [String] *)

Definition hex_char (d : Z) : ascii := ascii_of_N (Z.to_N (if d <? 10 then 48 + d else 87 + d)).
Fixpoint strip_zeros (l : list Z) : list Z :=
  match l with [] | [_] => l | x :: r => if x =? 0 then strip_zeros r else l end.
Definition group_text (g : Z) : list ascii :=
  hex_char <$> strip_zeros [g / 4096; (g / 256) mod 16; (g / 16) mod 16; g mod 16].

Fixpoint zero_run (l : list Z) : nat := match l with 0 :: r => S (zero_run r) | _ => 0%nat end.
(** The first longest run of at least two zero groups, as start and length. *)
Fixpoint longest_run (i : nat) (l : list Z) (best : nat * nat) : nat * nat :=
  match l with
  | [] => best
  | _ :: r =>
      let n := zero_run l in
      longest_run (S i) r (if (2 <=? n)%nat && (best.2 <? n)%nat then (i, n) else best)
  end.
Definition groups_text (l : list Z) : list ascii := join_chars (chars ":") (group_text <$> l).
Definition ipv6_text (groups : list Z) : list ascii :=
  let '(start, n) := longest_run 0 groups (0%nat, 0%nat) in
  if (n =? 0)%nat then groups_text groups
  else groups_text (take start groups) ++ chars "::" ++ groups_text (drop (start + n) groups).
Definition Addr_String (a : Addr) : string :=
  match a with
  | Addr4 fields => unchars (join_chars (chars ".") ((fun f => chars (FormatInt f)) <$> fields))
  | Addr6 [0; 0; 0; 0; 0; 65535; g; h] zone =>
      "::ffff:" +:+ unchars (join_chars (chars ".") ((fun f => chars (FormatInt f)) <$> [g / 256; g mod 256; h / 256; h mod 256]))
      +:+ (if decide (zone = "") then "" else "%" +:+ zone)
  | Addr6 groups zone => unchars (ipv6_text groups) +:+ (if decide (zone = "") then "" else "%" +:+ zone)
  end.

Example ParseAddr_String_examples :
  (fun s => Addr_String <$> ParseAddr s) <$>
    ["10.0.0.1"; "10.0.0.01"; "2001:DB8:0:0:1:0:0:1"; "2001:db8::1%eth0"; "::ffff:1.2.3.4"; "1:2:3:4:5:6:7:8::"; "::"; "fe80::%"; "1::"] =
    [Some "10.0.0.1"; None; Some "2001:db8::1:0:0:1"; Some "2001:db8::1%eth0"; Some "::ffff:1.2.3.4"; None; Some "::"; None; Some "1::"].
Proof. vm_compute. reflexivity. Qed.
Example IsGlobalUnicast_examples :
  (fun s => IsGlobalUnicast <$> ParseAddr s) <$>
    ["10.0.0.1"; "127.0.0.1"; "::ffff:127.0.0.1"; "224.0.0.1"; "169.254.1.1"; "0.0.0.0"; "fe80::1"; "ff02::1"; "::1"; "2001:db8::1"] =
    Some <$> [true; false; false; false; false; false; false; false; false; true].
Proof. vm_compute. reflexivity. Qed.
