(* ===== verification/GameDefinition.v ===== *)
(** * Game adapters ([internal/platform/game]) and the catalog ([internal/catalog])

    A game adapter is a constrained, curated value: the platform validates it
    once and then derives images, mounts and rendered configuration from it.
    The theorems show what validation buys: mounts that cannot shadow each
    other, readiness probes that cannot leak private ports, rendered files
    that are exactly the declared ones, and digests that determine them. *)

From Stdlib Require Import Ascii Sorted.
From stdpp Require Import base tactics list sets strings gmap numbers.
From S2P Require Import Prelude GoStrings Sha256 Regex GoJson CanonicalJson GoNet K8s Receipts.
Open Scope string_scope.
Open Scope list_scope.

(** ** Data *)

Inductive Protocol := ProtocolTCP | ProtocolUDP | ProtocolOther (s : string).
Inductive EndpointScope := ScopePlayer | ScopeAdmin | ScopeInternal | ScopeOther (s : string).
Inductive ReadinessMode :=
| ReadinessTCP | ReadinessPrivateExec | ReadinessUnset | ReadinessOther (s : string).

Record Endpoint := MkEndpoint {
  ep_Name : string;
  ep_Protocol : Protocol;
  ep_ContainerPort : Z;
  ep_Scope : EndpointScope }.

Record PersistentPath := MkPersistentPath { pp_Name : string; pp_MountPath : string }.
Record ConfigurationTarget := MkTarget { ct_Name : string; ct_MountPath : string }.
Record ConfigurationFile := MkFile {
  cfg_Name : string;
  cfg_MountPath : string;
  cfg_Contents : list ascii }.
Record RuntimeIdentity := MkIdentity { UserID : Z; GroupID : Z; FSGroup : Z }.
Record Capabilities := MkCapabilities { ColdBackup : bool; Restore : bool; GracefulShutdown : bool }.
Record VersionPolicy := MkVersionPolicy { vp_Pattern : string; vp_TagPrefix : string }.

(** A renderer is a pure function of the raw settings. *)
Definition SettingsRenderer : Type := string -> result (gmap string (list ascii)).

Record GameDefinition := MkDefinition {
  def_ID : string;
  def_DisplayName : string;
  def_ImageRepository : string;
  def_VersionPolicy : option VersionPolicy;
  def_Endpoints : list Endpoint;
  def_PersistentPaths : list PersistentPath;
  def_ReadinessEndpoint : string;
  def_ReadinessMode : ReadinessMode;
  def_SettingsSchema : string;
  def_ConfigurationTargets : list ConfigurationTarget;
  def_RenderSettings : option SettingsRenderer;
  def_RuntimeIdentity : RuntimeIdentity;
  def_Capabilities : Capabilities }.

#[export] Instance Protocol_eq_dec : EqDecision Protocol.
Proof. solve_decision. Defined.
#[export] Instance EndpointScope_eq_dec : EqDecision EndpointScope.
Proof. solve_decision. Defined.
#[export] Instance ReadinessMode_eq_dec : EqDecision ReadinessMode.
Proof. solve_decision. Defined.

Definition Protocol_string (p : Protocol) : string :=
  match p with ProtocolTCP => "TCP" | ProtocolUDP => "UDP" | ProtocolOther s => s end.
Definition Scope_string (p : EndpointScope) : string :=
  match p with
  | ScopePlayer => "player" | ScopeAdmin => "admin" | ScopeInternal => "internal" | ScopeOther s => s
  end.
Definition Mode_string (m : ReadinessMode) : string :=
  match m with
  | ReadinessTCP => "TCP" | ReadinessPrivateExec => "PrivateExec" | ReadinessUnset => ""
  | ReadinessOther s => s
  end.

(** ** Patterns *)

Definition alnum : regex := Cls (fun c => is_lower c || is_digit c).
Definition alnum_dash : regex := Cls (fun c => Ascii.eqb c "-" || is_lower c || is_digit c).
Definition idPattern : regex := Cat alnum (Opt (Cat (UpTo 61 alnum_dash) alnum)).
Definition namePattern : regex := Cat (Cls is_lower) (Opt (Cat (UpTo 61 alnum_dash) alnum)).
Definition hostLabel : regex := Cat alnum (Opt (Cat (UpTo 61 alnum_dash) alnum)).
Definition nameComponent : regex :=
  let separator := Alt (Cls (one_of "._")) (Alt (Lit "__") (Plus (Lit "-"))) in
  Cat (Plus alnum) (Star (Cat separator (Plus alnum))).
Definition repositoryNamePattern : regex := Cat nameComponent (Star (Cat (Lit "/") nameComponent)).
Definition is_word_char (c : ascii) : bool := is_upper c || is_lower c || is_digit c.
Definition versionTokenPattern : regex :=
  Cat (Cls is_word_char) (Star (Cls (fun c => is_word_char c || one_of "._-" c))).
Definition tagPattern : regex :=
  Cat (Cls (fun c => is_word_char c || one_of "_" c))
      (UpTo 127 (Cls (fun c => is_word_char c || one_of "._-" c))).

Definition platformMountRoot : string := "/arcadectl".
Definition maxVersionLength : Z := 64.
Definition maxVersionPattern : Z := 256.
Definition maxTagPrefix : Z := 64.
Definition MaxRenderedSettingsBytes : Z := (64 * 1024)%Z.

(** ** Validation of the parts *)

Definition validateRuntimeIdentity (identity : RuntimeIdentity) : result unit :=
  let maxLinuxID := (2 ^ 31 - 2)%Z in
  if ((UserID identity <=? 0) || (UserID identity >? maxLinuxID))%Z then
    fail "runtime user ID must be a positive Linux ID"
  else if ((GroupID identity <=? 0) || (GroupID identity >? maxLinuxID))%Z then
    fail "runtime group ID must be a positive Linux ID"
  else if ((FSGroup identity <=? 0) || (FSGroup identity >? maxLinuxID))%Z then
    fail "runtime filesystem group ID must be a positive Linux ID"
  else Ok tt.

Definition control_set : string :=
  unchars [chr 9; chr 13; chr 10; "@"%char; "?"%char; "#"%char; backslash].

(** The registry host and its optional port. *)
Definition registryHost (hostPort : string) : result string :=
  if Contains hostPort ":" then
    match SplitHostPort hostPort with
    | None => fail "image repository registry port is invalid"
    | Some (host, port) =>
        if host == "" then fail "image repository registry port is invalid"
        else match ParseUint 16 port with
             | None => fail "image repository registry port is invalid"
             | Some value =>
                 if value == 0%Z then fail "image repository registry port is invalid" else Ok host
             end
    end
  else Ok hostPort.

Definition validateRepository (repository : string) : result unit :=
  if (repository == "") || (TrimSpace repository != repository) then
    fail "image repository is required and cannot contain surrounding whitespace"
  else if Contains repository "@" then fail "image repository must not contain a digest"
  else if (slen repository >? 255)%Z || ContainsAny repository control_set ||
          Contains repository "://" then
    fail "image repository must be a bounded registry host and repository name without a scheme, tag, or digest"
  else
    let '(hostPort, name, found) := Cut repository "/" in
    if negb found || (hostPort == "") || negb (MatchString repositoryNamePattern name) then
      fail "image repository must contain a valid registry host and lowercase repository name"
    else
      host ← registryHost hostPort;
      if ParseIP host then Ok tt
      else for_each (fun label =>
             if MatchString hostLabel label then Ok tt
             else fail "image repository registry host is invalid") (Split host ".").

(** [regexp.Compile] of an adapter's own expression: [None] is a syntax error,
    [Some f] the compiled matcher. *)
Class RegexpEngine := Compile : string -> option (string -> bool).

Section Versions.
Context `{RegexpEngine}.

Definition compileVersionPattern (pattern : string) : result (string -> bool) :=
  if (slen pattern <? 2)%Z || (slen pattern >? maxVersionPattern)%Z || negb (HasPrefix pattern "^") ||
     negb (HasSuffix pattern "$")
  then fail "version pattern is not bounded and anchored"
  else match Compile ("^(?:" +:+ unquote pattern +:+ ")$") with
       | Some compiled => Ok compiled
       | None => fail "error parsing regexp"
       end.

Definition validateVersionPolicy (policy : option VersionPolicy) : result unit :=
  match policy with
  | None => Ok tt
  | Some policy =>
      match compileVersionPattern (vp_Pattern policy) with
      | Err _ => fail "version policy pattern must be a bounded anchored regular expression"
      | Ok compiled =>
          if compiled "" then
            fail "version policy pattern must be a valid non-empty anchored regular expression"
          else if (slen (vp_TagPrefix policy) >? maxTagPrefix)%Z ||
                  ((vp_TagPrefix policy != "") && negb (MatchString tagPattern (vp_TagPrefix policy)))
          then fail "version policy tag prefix must use bounded OCI tag characters"
          else Ok tt
      end
  end.

Definition ResolveVersionTag (definition : GameDefinition) (version : string) : result string :=
  match validateRepository (def_ImageRepository definition) with
  | Err _ => fail "image version repository is invalid"
  | Ok _ =>
      match validateVersionPolicy (def_VersionPolicy definition), def_VersionPolicy definition with
      | Ok _, Some policy =>
          if (slen version == 0%Z) || (slen version >? maxVersionLength)%Z ||
             negb (MatchString versionTokenPattern version)
          then fail "image version must be a bounded version token"
          else match compileVersionPattern (vp_Pattern policy) with
               | Ok compiled =>
                   if compiled version then
                     let tag := vp_TagPrefix policy +:+ version in
                     if MatchString tagPattern tag then Ok tag
                     else fail "resolved image tag is invalid"
                   else fail "image version does not satisfy the adapter policy"
               | Err _ => fail "image version does not satisfy the adapter policy"
               end
      | _, _ => fail "image version selection is not supported by this adapter"
      end
  end.
End Versions.

(** The endpoint loop: the names seen so far and whether a player endpoint is
    among them. *)
Definition endpoint_step (s : gmap string Endpoint * bool) (endpoint : Endpoint) :
    result (gmap string Endpoint * bool) :=
  let '(names, hasPlayerEndpoint) := s in
  let name := ep_Name endpoint in
  if negb (MatchString namePattern name) then
    failf "endpoint %q must have a lowercase DNS-label name" [name]
  else if bool_decide (is_Some (names !! name)) then failf "endpoint name %q is duplicated" [name]
  else if (ep_Protocol endpoint != ProtocolTCP) && (ep_Protocol endpoint != ProtocolUDP) then
    failf "endpoint %q has unsupported protocol %q" [name; Protocol_string (ep_Protocol endpoint)]
  else if ep_ContainerPort endpoint == 0%Z then failf "endpoint %q has an invalid zero port" [name]
  else match ep_Scope endpoint with
       | ScopePlayer => Ok (<[name := endpoint]> names, true)
       | ScopeAdmin | ScopeInternal => Ok (<[name := endpoint]> names, hasPlayerEndpoint)
       | ScopeOther scope => failf "endpoint %q has unsupported scope %q" [name; scope]
       end.

Definition validateReadiness (names : gmap string Endpoint) (readiness : string)
    (readinessMode : ReadinessMode) : result unit :=
  if readiness == "" then
    if readinessMode != ReadinessUnset then fail "readiness mode requires a readiness endpoint"
    else Ok tt
  else match names !! readiness with
       | None => failf "readiness endpoint %q is not defined" [readiness]
       | Some endpoint =>
           if ep_Protocol endpoint != ProtocolTCP then
             failf "readiness endpoint %q must use TCP" [readiness]
           else match readinessMode with
                | ReadinessTCP =>
                    if ep_Scope endpoint != ScopePlayer then
                      failf "readiness endpoint %q must be player-scoped so administrator and internal ports cannot appear in probe Events" [readiness]
                    else Ok tt
                | ReadinessPrivateExec =>
                    if ep_Scope endpoint == ScopePlayer then
                      failf "private-exec readiness endpoint %q must be administrator or internal scoped" [readiness]
                    else Ok tt
                | ReadinessUnset => failf "readiness endpoint %q requires an explicit readiness mode" [readiness]
                | ReadinessOther mode => failf "unsupported readiness mode %q" [mode]
                end
       end.

Definition validateEndpoints (endpoints : list Endpoint) (readiness : string)
    (readinessMode : ReadinessMode) : result unit :=
  if len endpoints == 0%Z then fail "at least one endpoint is required"
  else
    '(names, hasPlayerEndpoint) ← for_state endpoint_step (∅, false) endpoints;
    if negb hasPlayerEndpoint then fail "at least one player endpoint is required"
    else validateReadiness names readiness readinessMode.

Definition pathsOverlap (left right : string) : bool :=
  (left == right) || HasPrefix left (right +:+ "/") || HasPrefix right (left +:+ "/").

(** [strings.HasPrefix(p, "/")], clean and not the root. *)
Definition cleanMount (mount : string) : bool :=
  HasPrefix mount "/" && (Clean mount == mount) && (mount != "/").

Definition persistent_step (s : list string * list string) (p : PersistentPath) :
    result (list string * list string) :=
  let '(names, mounts) := s in
  if negb (MatchString namePattern (pp_Name p)) then
    failf "persistent path %q must have a lowercase DNS-label name" [pp_Name p]
  else if bool_decide (pp_Name p ∈ names) then failf "persistent path name %q is duplicated" [pp_Name p]
  else if negb (cleanMount (pp_MountPath p)) then
    failf "persistent path %q must be a clean absolute non-root path" [pp_Name p]
  else if pathsOverlap platformMountRoot (pp_MountPath p) then
    failf "persistent path %q overlaps the reserved platform mount root %q" [pp_Name p; platformMountRoot]
  else
    _ ← for_each (fun mount =>
          if pathsOverlap mount (pp_MountPath p)
          then failf "persistent mount %q overlaps %q" [pp_MountPath p; mount] else Ok tt) mounts;
    Ok (pp_Name p :: names, mounts ++ [pp_MountPath p]).

Definition validatePersistentPaths (paths : list PersistentPath) : result unit :=
  _ ← for_state persistent_step ([], []) paths; Ok tt.

Definition nestedBelowPersistentPath (mount : string) (persistentPaths : list PersistentPath) : bool :=
  existsb (fun p => HasPrefix mount (TrimSuffix (pp_MountPath p) "/" +:+ "/")) persistentPaths.

Section Targets.
Context `{NameValidation}.

Definition target_step (persistentPaths : list PersistentPath) (s : list string * list string)
    (target : ConfigurationTarget) : result (list string * list string) :=
  let '(names, mounts) := s in
  let name := ct_Name target in
  let mount := ct_MountPath target in
  if negb (is_label name) then
    failf "configuration target name %q is invalid: %s" [name; Join (IsDNS1123Label name) "; "]
  else if bool_decide (name ∈ names) then failf "configuration target name %q is duplicated" [name]
  else if negb (cleanMount mount) then
    failf "configuration target %q must have a clean absolute non-root mount path" [name]
  else
    _ ← for_each (fun other =>
          if pathsOverlap other mount
          then failf "configuration mount %q overlaps %q" [mount; other] else Ok tt) mounts;
    _ ← for_each (fun p =>
          if mount == pp_MountPath p
          then failf "configuration mount %q overlaps persistent mount %q" [mount; pp_MountPath p]
          else Ok tt) persistentPaths;
    if negb (nestedBelowPersistentPath mount persistentPaths) then
      failf "configuration mount %q must be nested below a persistent path" [mount]
    else Ok (name :: names, mounts ++ [mount]).

Definition validateConfigurationTargets (targets : list ConfigurationTarget)
    (persistentPaths : list PersistentPath) : result unit :=
  if len targets == 0%Z then fail "at least one configuration target is required"
  else _ ← for_state (target_step persistentPaths) ([], []) targets; Ok tt.
End Targets.

(** ** The settings schema *)

(** [json.Unmarshal] into an [any]: one value and nothing after it.  A number
    that does not fit a [float64] is an error; a repeated key keeps its last
    value.  Nested calls consume input, so the fuel is never the limit. *)
Definition float64_overflow (text : list ascii) : bool :=
  match scan_number text with
  | Some (l, _) =>
      let c := horner 0 (nl_whole l ++ fraction l) in
      let x := (exponent_value l - len (fraction l))%Z in
      let bound := (2 ^ 1024 - 2 ^ 970)%Z in
      if (c =? 0)%Z then false
      else if (x >? 400)%Z then true
      else if (x <? 0)%Z then
        if (x + len (nl_whole l ++ fraction l) <? 300)%Z then false
        else (bound * 10 ^ (- x) <=? c)%Z
      else (bound <=? c * 10 ^ x)%Z
  | None => true
  end.

Fixpoint set_member (k : list ascii) (v : value) (ms : list (list ascii * value)) :=
  match ms with
  | [] => [(k, v)]
  | (k', v') :: rest => if bool_decide (k = k') then (k, v) :: rest else (k', v') :: set_member k v rest
  end.

Fixpoint decodeAny (fuel : nat) (d : Decoder) : option (value * Decoder) :=
  match fuel with
  | O => None
  | S fuel =>
      match decoder_Token d with
      | Tok (Delim c) d =>
          if Ascii.eqb c "{" then
            '(ms, d) ← decodeAnyMembers fuel d [];
            match decoder_Token d with Tok _ d => Some (VObject ms, d) | _ => None end
          else if Ascii.eqb c "[" then
            '(l, d) ← decodeAnyElements fuel d [];
            match decoder_Token d with Tok _ d => Some (VArray l, d) | _ => None end
          else None
      | Tok (Number text) d => if float64_overflow text then None else Some (VNumber text, d)
      | Tok (Str s) d => Some (VString s, d)
      | Tok (Bool b) d => Some (VBool b, d)
      | Tok Null d => Some (VNull, d)
      | _ => None
      end
  end
with decodeAnyMembers (fuel : nat) (d : Decoder) (ms : list (list ascii * value)) :
    option (list (list ascii * value) * Decoder) :=
  match fuel with
  | O => None
  | S fuel =>
      if decoder_More d then
        match decoder_Token d with
        | Tok (Str k) d =>
            '(v, d) ← decodeAny fuel d; decodeAnyMembers fuel d (set_member k v ms)
        | _ => None
        end
      else Some (ms, d)
  end
with decodeAnyElements (fuel : nat) (d : Decoder) (l : list value) : option (list value * Decoder) :=
  match fuel with
  | O => None
  | S fuel =>
      if decoder_More d then
        '(v, d) ← decodeAny fuel d; decodeAnyElements fuel d (l ++ [v])
      else Some (l, d)
  end.

Definition json_Unmarshal (input : list ascii) : option value :=
  '(v, d) ← decodeAny (decode_fuel input) (NewDecoder input);
  match decoder_Token d with TokEOF => Some v | _ => None end.

Definition forbidden_keyword (key : list ascii) : bool :=
  bool_decide (unchars key ∈ ["$ref"; "$dynamicRef"; "$id"; "$schema"]).

(** The walk stops at the first forbidden keyword it meets; Go visits the
    members of an object in an unspecified order, here in the order read, so
    only the keyword named in the error depends on it. *)
Fixpoint rejectSchemaReferences (v : value) : result unit :=
  match v with
  | VObject ms =>
      (fix members ms := match ms with
       | [] => Ok tt
       | (key, child) :: rest =>
           if forbidden_keyword key then
             failf "settings schema keyword %q is not allowed" [unchars key]
           else match rejectSchemaReferences child with
                | Ok _ => members rest
                | Err e => Err e
                end
       end) ms
  | VArray l =>
      (fix elements l := match l with
       | [] => Ok tt
       | child :: rest =>
           match rejectSchemaReferences child with Ok _ => elements rest | Err e => Err e end
       end) l
  | _ => Ok tt
  end.

Fixpoint lookup_member (k : list ascii) (ms : list (list ascii * value)) : option value :=
  match ms with
  | [] => None
  | (k', v) :: rest => if bool_decide (k = k') then Some v else lookup_member k rest
  end.

Definition validateSettingsSchema (schema : string) : result unit :=
  if (slen schema >? 64 * 1024)%Z then fail "settings schema exceeds the 64 KiB limit"
  else if slen schema == 0%Z then fail "settings schema is required"
  else
    match json_Unmarshal (chars schema) with
    | None => fail "settings schema must be valid JSON: %w"
    | Some (VObject ms as document) =>
        match lookup_member (chars "type") ms with
        | Some (VString t) =>
            if unchars t == "object" then rejectSchemaReferences document
            else fail "settings schema must describe an object"
        | _ => fail "settings schema must describe an object"
        end
    | Some _ => fail "settings schema must be a JSON object"
    end.

(** ** The whole definition *)

Section Definitions.
Context `{RegexpEngine} `{NameValidation}.

Definition Validate (d : GameDefinition) : result unit :=
  if negb (MatchString idPattern (def_ID d)) then fail "game id must be a lowercase DNS label"
  else if TrimSpace (def_DisplayName d) == "" then fail "display name is required"
  else
    _ ← validateRepository (def_ImageRepository d);
    _ ← validateVersionPolicy (def_VersionPolicy d);
    _ ← validateEndpoints (def_Endpoints d) (def_ReadinessEndpoint d) (def_ReadinessMode d);
    _ ← validatePersistentPaths (def_PersistentPaths d);
    _ ← validateRuntimeIdentity (def_RuntimeIdentity d);
    if (ColdBackup (def_Capabilities d) || Restore (def_Capabilities d)) &&
       (len (def_PersistentPaths d) == 0%Z)
    then fail "backup and restore capabilities require persistent paths"
    else if Restore (def_Capabilities d) && negb (ColdBackup (def_Capabilities d)) then
      fail "restore capability requires cold backup capability"
    else
      _ ← validateSettingsSchema (def_SettingsSchema d);
      _ ← validateConfigurationTargets (def_ConfigurationTargets d) (def_PersistentPaths d);
      match def_RenderSettings d with
      | None => fail "settings renderer is required"
      | Some _ => Ok tt
      end.
End Definitions.

Definition ResolvedImage (repository digest : string) : result string :=
  _ ← validateRepository repository;
  if negb (MatchString digestPattern digest) then fail "image digest must be a lowercase sha256 digest"
  else Ok (repository +:+ "@" +:+ digest).

(** ** Rendering *)

Definition pair_step (rendered : gmap string (list ascii)) (s : list ConfigurationFile * Z)
    (target : ConfigurationTarget) : result (list ConfigurationFile * Z) :=
  let '(files, totalBytes) := s in
  let name := ct_Name target in
  match rendered !! name with
  | None => failf "settings renderer omitted declared target %q" [name]
  | Some contents =>
      if len contents == 0%Z then failf "configuration file %q is empty" [name]
      else if negb (utf8_Valid contents) || has (chr 0) contents then
        failf "configuration file %q must contain non-NUL UTF-8 text" [name]
      else
        let totalBytes := (totalBytes + len contents)%Z in
        if (totalBytes >? MaxRenderedSettingsBytes)%Z then
          failf "rendered configuration exceeds the %d byte limit" [FormatInt MaxRenderedSettingsBytes]
        else Ok (files ++ [MkFile name (ct_MountPath target) contents], totalBytes)
  end.

Definition pairRenderedFiles (targets : list ConfigurationTarget) (rendered : gmap string (list ascii)) :
    result (list ConfigurationFile) :=
  if Z.of_nat (size rendered) != len targets then
    fail "settings renderer output does not match declared configuration targets"
  else '(files, _) ← for_state (pair_step rendered) ([], 0%Z) targets; Ok files.

Definition RenderSettingsFiles (d : GameDefinition) (settings : string) :
    result (list ConfigurationFile) :=
  match def_RenderSettings d with
  | None => fail "settings renderer is required"
  | Some render =>
      match render settings with
      | Err _ => fail "render settings: %w"
      | Ok rendered =>
          files ← pairRenderedFiles (def_ConfigurationTargets d) rendered;
          Ok (sort_by cfg_Name files)
      end
  end.

(** What one file adds to the hash: ["%d:%s:%d:%s:%d:"] and the contents. *)
Definition file_text (f : ConfigurationFile) : list ascii :=
  chars (FormatInt (slen (cfg_Name f)) +:+ ":" +:+ cfg_Name f +:+ ":" +:+
         FormatInt (slen (cfg_MountPath f)) +:+ ":" +:+ cfg_MountPath f +:+ ":" +:+
         FormatInt (len (cfg_Contents f)) +:+ ":") ++ cfg_Contents f.
Definition files_text (files : list ConfigurationFile) : list ascii := concat (file_text <$> files).
Definition SettingsDigest (d : GameDefinition) (settings : string) : result string :=
  files ← RenderSettingsFiles d settings;
  Ok ("sha256:" +:+ EncodeToString (Sum256 (files_text files))).

(** ** The catalog *)

(** [Clone] copies every slice, so a definition is a value here; the catalog
    is the map from identifiers to definitions. *)
Abbreviation Catalog := (gmap string GameDefinition).

Section CatalogOperations.
Context `{RegexpEngine} `{NameValidation}.


Definition catalog_step (c : Catalog) (definition : GameDefinition) : result Catalog :=
  match Validate definition with
  | Err e => failf "validate game %q: %w" [def_ID definition; err_format e]
  | Ok _ =>
      if bool_decide (is_Some (c !! def_ID definition)) then
        failf "game id %q is duplicated" [def_ID definition]
      else Ok (<[def_ID definition := definition]> c)
  end.
Definition catalog_New (definitions : list GameDefinition) : result Catalog :=
  for_state catalog_step ∅ definitions.

Definition catalog_Get (c : Catalog) (id : string) : result GameDefinition :=
  match c !! id with Some definition => Ok definition | None => fail "game is not installed" end.

Definition catalog_List (c : Catalog) : list GameDefinition :=
  omap (fun id => c !! id) (sort_by id (elements (dom c))).
End CatalogOperations.

(** ** Mounts *)

(** The components of a path; a path overlaps another exactly when one's
    components are a prefix of the other's. *)
Definition components (p : string) : list (list ascii) := split_chars "/" (chars p).

Lemma HasPrefix_components p r :
  HasPrefix r (p +:+ "/") = true <-> exists k, k <> [] /\ components r = components p ++ k.
Proof.
  rewrite HasPrefix_spec. unfold components. split.
  - intros [t ->]. exists (split_chars "/" (chars t)). split; [apply split_chars_nonempty|].
    rewrite !chars_app, <- app_assoc. cbn [chars app]. apply split_chars_app_gen.
  - intros (k & Hk & E). exists (unchars (join_chars (chars "/") k)). apply chars_inj.
    rewrite !chars_app, chars_unchars, <- app_assoc, <- (split_chars_join "/" (chars r)), E.
    cbn [chars app]. rewrite join_chars_app by (done || apply split_chars_nonempty).
    by rewrite split_chars_join.
Qed.

Lemma pathsOverlap_components p r : pathsOverlap p r = true <->
  components p `prefix_of` components r \/ components r `prefix_of` components p.
Proof.
  unfold pathsOverlap. rewrite !orb_true_iff, bool_decide_eq_true, !HasPrefix_components. split.
  - intros [[-> | (k & _ & ->)] | (k & _ & ->)]; [by left| |].
    + right. by apply prefix_app_r.
    + left. by apply prefix_app_r.
  - intros [[k E] | [k E]].
    + destruct k as [|x k]; [left; left | right; by exists (x :: k)].
      rewrite app_nil_r in E. unfold components in E. by apply split_chars_inj, chars_inj in E.
    + destruct k as [|x k]; [left; left | left; right; by exists (x :: k)].
      rewrite app_nil_r in E. unfold components in E. by apply split_chars_inj, chars_inj in E.
Qed.

Lemma pathsOverlap_sym p r : pathsOverlap p r = pathsOverlap r p.
Proof. apply eq_bool_prop_intro. rewrite !Is_true_true, !pathsOverlap_components. tauto. Qed.

Definition disjoint_mounts (l : list string) : Prop := forall i j a b,
  i <> j -> l !! i = Some a -> l !! j = Some b -> pathsOverlap a b = false.

Lemma disjoint_mounts_snoc l m : disjoint_mounts l -> (forall a, a ∈ l -> pathsOverlap a m = false) ->
  disjoint_mounts (l ++ [m]).
Proof.
  intros Hd Hm i j a b Hij Hi Hj.
  apply lookup_app_Some in Hi as [Hi | [Hi Hi']], Hj as [Hj | [Hj Hj']].
  - by eapply Hd.
  - apply list_lookup_singleton_Some in Hj' as [_ <-]. by eapply Hm, list_elem_of_lookup_2.
  - apply list_lookup_singleton_Some in Hi' as [_ <-]. rewrite pathsOverlap_sym.
    by eapply Hm, list_elem_of_lookup_2.
  - apply list_lookup_singleton_Some in Hi' as [? _], Hj' as [? _]. lia.
Qed.

Lemma overlap_loop_ok (f : string -> error) m l :
  for_each (fun a => if pathsOverlap a m then Err (f a) else Ok tt) l = Ok tt <->
  forall a, a ∈ l -> pathsOverlap a m = false.
Proof. rewrite for_each_ok. split; intros Ha a Hin; specialize (Ha a Hin); by destruct (pathsOverlap a m). Qed.

Lemma persistent_step_ok names mounts p s : persistent_step (names, mounts) p = Ok s ->
  MatchString namePattern (pp_Name p) = true /\ pp_Name p ∉ names /\ cleanMount (pp_MountPath p) = true /\
  pathsOverlap platformMountRoot (pp_MountPath p) = false /\
  (forall a, a ∈ mounts -> pathsOverlap a (pp_MountPath p) = false) /\
  s = (pp_Name p :: names, mounts ++ [pp_MountPath p]).
Proof.
  unfold persistent_step. intros Hs. ok_inv. destruct x. unfold failf in Hrun.
  rewrite (overlap_loop_ok
    (fun mount => Errorf "persistent mount %q overlaps %q" [pp_MountPath p; mount])) in Hrun.
  rewrite negb_false_iff in *. bool_prop. auto 10.
Qed.

Lemma persistent_loop_ok l names mounts s : for_state persistent_step (names, mounts) l = Ok s ->
  disjoint_mounts mounts -> NoDup names ->
  disjoint_mounts (mounts ++ (pp_MountPath <$> l)) /\ NoDup (reverse (pp_Name <$> l) ++ names) /\
  Forall (fun p => MatchString namePattern (pp_Name p) = true /\ cleanMount (pp_MountPath p) = true /\
    pathsOverlap platformMountRoot (pp_MountPath p) = false) l.
Proof.
  revert names mounts. induction l as [|p l IH]; intros names mounts; cbn [for_state fmap list_fmap].
  - intros _ Hd Hn. by rewrite app_nil_r.
  - destruct (persistent_step _ p) as [[n m]|] eqn:E; [|done].
    apply persistent_step_ok in E as (? & ? & ? & ? & ? & [= -> ->]). intros Hs Hd Hn.
    apply IH in Hs as (Hd' & Hn' & HF);
      [|by apply disjoint_mounts_snoc | by apply list.NoDup_cons].
    rewrite <- app_assoc in Hd'. rewrite reverse_cons, <- app_assoc. split_and!; [done..|]. by constructor.
Qed.

Lemma validatePersistentPaths_ok paths : validatePersistentPaths paths = Ok tt ->
  disjoint_mounts (pp_MountPath <$> paths) /\ NoDup (pp_Name <$> paths) /\
  Forall (fun p => MatchString namePattern (pp_Name p) = true /\ cleanMount (pp_MountPath p) = true /\
    pathsOverlap platformMountRoot (pp_MountPath p) = false) paths.
Proof.
  unfold validatePersistentPaths. destruct (for_state _ _ paths) as [s|] eqn:E; [|done]. intros _.
  apply persistent_loop_ok in E as (Hd & Hn & HF); [|by intros ? ? ? ? _ ?|by apply NoDup_nil_2].
  rewrite app_nil_r, reverse_Permutation in Hn. by split_and!.
Qed.

(** Below a persistent path: its components are a proper prefix. *)
Definition below (mount : string) (p : PersistentPath) : Prop :=
  exists k, k <> [] /\ components mount = components (pp_MountPath p) ++ k.

Lemma cleanMount_no_slash m : cleanMount m = true -> TrimSuffix m "/" = m.
Proof.
  unfold cleanMount. rewrite !andb_true_iff. intros [[_ Hc] Hr].
  apply bool_decide_eq_true in Hc. rewrite negb_bool_decide_true in Hr.
  pose proof (Clean_no_slash m) as H. rewrite Hc in H. auto.
Qed.

Lemma nested_below mount paths :
  Forall (fun p => cleanMount (pp_MountPath p) = true) paths ->
  nestedBelowPersistentPath mount paths = true <-> exists p, p ∈ paths /\ below mount p.
Proof.
  intros HF. unfold nestedBelowPersistentPath, below. rewrite existsb_exists.
  setoid_rewrite <- list_elem_of_In. rewrite list.Forall_forall in HF.
  split; intros (p & Hin & Hp); exists p; (split; [done|]); specialize (HF p Hin).
  - rewrite cleanMount_no_slash in Hp by done. by apply HasPrefix_components.
  - rewrite cleanMount_no_slash by done. by apply HasPrefix_components.
Qed.

(** A mount is below at most one of disjoint mounts. *)
Lemma below_unique mount paths i j p q : disjoint_mounts (pp_MountPath <$> paths) ->
  paths !! i = Some p -> paths !! j = Some q -> below mount p -> below mount q -> i = j.
Proof.
  intros Hd Hi Hj (k & _ & Ek) (k' & _ & Ek'). destruct (decide (i = j)) as [|Hij]; [done|].
  exfalso. specialize (Hd i j (pp_MountPath p) (pp_MountPath q) Hij).
  rewrite !list_lookup_fmap, Hi, Hj in Hd. specialize (Hd eq_refl eq_refl).
  assert (pathsOverlap (pp_MountPath p) (pp_MountPath q) = true) as Ho; [|congruence].
  apply pathsOverlap_components. apply prefix_weak_total with (components mount).
  - rewrite Ek. by apply prefix_app_r.
  - rewrite Ek'. by apply prefix_app_r.
Qed.

Section Mounts.
Context `{NameValidation}.

Lemma target_step_ok paths names mounts t s : target_step paths (names, mounts) t = Ok s ->
  is_label (ct_Name t) = true /\ ct_Name t ∉ names /\ cleanMount (ct_MountPath t) = true /\
  (forall a, a ∈ mounts -> pathsOverlap a (ct_MountPath t) = false) /\
  nestedBelowPersistentPath (ct_MountPath t) paths = true /\
  s = (ct_Name t :: names, mounts ++ [ct_MountPath t]).
Proof.
  unfold target_step. intros Hs. ok_inv. destruct x, x0. unfold failf in Hrun.
  rewrite (overlap_loop_ok
    (fun other => Errorf "configuration mount %q overlaps %q" [ct_MountPath t; other])) in Hrun.
  rewrite negb_false_iff in *. bool_prop. auto 10.
Qed.

Lemma target_loop_ok paths l names mounts s :
  for_state (target_step paths) (names, mounts) l = Ok s -> disjoint_mounts mounts -> NoDup names ->
  disjoint_mounts (mounts ++ (ct_MountPath <$> l)) /\ NoDup (reverse (ct_Name <$> l) ++ names) /\
  Forall (fun t => is_label (ct_Name t) = true /\ cleanMount (ct_MountPath t) = true /\
    nestedBelowPersistentPath (ct_MountPath t) paths = true) l.
Proof.
  revert names mounts. induction l as [|t l IH]; intros names mounts; cbn [for_state fmap list_fmap].
  - intros _ Hd Hn. by rewrite app_nil_r.
  - destruct (target_step _ _ t) as [[n m]|] eqn:E; [|done].
    apply target_step_ok in E as (? & ? & ? & ? & ? & [= -> ->]). intros Hs Hd Hn.
    apply IH in Hs as (Hd' & Hn' & HF);
      [|by apply disjoint_mounts_snoc | by apply list.NoDup_cons].
    rewrite <- app_assoc in Hd'. rewrite reverse_cons, <- app_assoc. split_and!; [done..|]. by constructor.
Qed.

Lemma validateConfigurationTargets_ok targets paths :
  validateConfigurationTargets targets paths = Ok tt ->
  disjoint_mounts (ct_MountPath <$> targets) /\ NoDup (ct_Name <$> targets) /\
  Forall (fun t => is_label (ct_Name t) = true /\ cleanMount (ct_MountPath t) = true /\
    nestedBelowPersistentPath (ct_MountPath t) paths = true) targets.
Proof.
  unfold validateConfigurationTargets. case_bool_decide; [done|].
  destruct (for_state _ _ targets) as [s|] eqn:E; [|done]. intros _.
  apply target_loop_ok in E as (Hd & Hn & HF); [|by intros ? ? ? ? _ ?|by apply NoDup_nil_2].
  rewrite app_nil_r, reverse_Permutation in Hn. by split_and!.
Qed.

Context `{RegexpEngine}.

(** The parts of a validated definition. *)
Lemma Validate_parts d : Validate d = Ok tt ->
  MatchString idPattern (def_ID d) = true /\
  validateRepository (def_ImageRepository d) = Ok tt /\
  validateVersionPolicy (def_VersionPolicy d) = Ok tt /\
  validateEndpoints (def_Endpoints d) (def_ReadinessEndpoint d) (def_ReadinessMode d) = Ok tt /\
  validatePersistentPaths (def_PersistentPaths d) = Ok tt /\
  validateRuntimeIdentity (def_RuntimeIdentity d) = Ok tt /\
  validateConfigurationTargets (def_ConfigurationTargets d) (def_PersistentPaths d) = Ok tt /\
  exists render, def_RenderSettings d = Some render.
Proof.
  unfold Validate. intros Hv. ok_inv. repeat match goal with u : unit |- _ => destruct u end.
  rewrite negb_false_iff in *. split_and!; eauto.
Qed.

(** In a validated adapter no mount can shadow another.  Persistent mounts
    are clean, pairwise disjoint as component sequences and disjoint from the
    platform's own root; configuration mounts are pairwise disjoint and each
    lies strictly below exactly one persistent path. *)
Theorem Validate_mounts d (Hv : Validate d = Ok tt) :
  disjoint_mounts (platformMountRoot :: (pp_MountPath <$> def_PersistentPaths d)) /\
  disjoint_mounts (ct_MountPath <$> def_ConfigurationTargets d) /\
  (forall t, t ∈ def_ConfigurationTargets d ->
    exists i p, def_PersistentPaths d !! i = Some p /\ below (ct_MountPath t) p /\
      forall j q, def_PersistentPaths d !! j = Some q -> below (ct_MountPath t) q -> j = i).
Proof.
  apply Validate_parts in Hv as (_ & _ & _ & _ & Hp & _ & Ht & _).
  apply validatePersistentPaths_ok in Hp as (Hd & _ & HF).
  apply validateConfigurationTargets_ok in Ht as (Hdt & _ & HFt). split_and!; [|done|].
  - rewrite list.Forall_forall in HF.
    assert (forall a, a ∈ (pp_MountPath <$> def_PersistentPaths d) ->
      pathsOverlap platformMountRoot a = false) as Hroot.
    { intros a (p & -> & Hin)%list_elem_of_fmap. by apply HF. }
    intros [|i] [|j] a b Hij Hi Hj; [done|..]; cbn in *; simplify_eq.
    + by eapply Hroot, list_elem_of_lookup_2.
    + rewrite pathsOverlap_sym. by eapply Hroot, list_elem_of_lookup_2.
    + eapply Hd; [|done..]. congruence.
  - intros t Hin. rewrite list.Forall_forall in HFt. destruct (HFt t Hin) as (_ & _ & Hn).
    apply nested_below in Hn as (p & Hinp & Hb); [|eapply Forall_impl; [|exact HF]; naive_solver].
    apply list_elem_of_lookup in Hinp as [i Hi]. exists i, p. split_and!; [done..|].
    intros j q Hj Hq. by eapply below_unique.
Qed.
End Mounts.

(** ** Endpoints and readiness *)

Definition endpoint_ok (e : Endpoint) : Prop :=
  MatchString namePattern (ep_Name e) = true /\ (ep_Protocol e = ProtocolTCP \/ ep_Protocol e = ProtocolUDP) /\
  ep_ContainerPort e <> 0%Z /\ ep_Scope e ∈ [ScopePlayer; ScopeAdmin; ScopeInternal].

Definition is_player (e : Endpoint) : bool := ep_Scope e == ScopePlayer.

Lemma endpoint_step_ok names seen e s : endpoint_step (names, seen) e = Ok s ->
  endpoint_ok e /\ names !! ep_Name e = None /\ s = (<[ep_Name e := e]> names, seen || is_player e).
Proof.
  unfold endpoint_step, endpoint_ok, is_player. intros Hs. repeat (ok_inv_step; try discriminate).
  assert (names !! ep_Name e = None) as Hn.
  { rewrite bool_decide_eq_false in Hguard0. by apply eq_None_not_Some. }
  rewrite negb_false_iff in Hguard. rewrite bool_decide_eq_false in Hguard2.
  assert (ep_Protocol e = ProtocolTCP \/ ep_Protocol e = ProtocolUDP) as Hp by (by bool_prop).
  destruct (ep_Scope e) eqn:Es; [..|discriminate Hs]; injection Hs as <-; rewrite ?orb_true_r, ?orb_false_r;
    (split_and!; [done..| set_solver | done | done]).
Qed.

Lemma endpoint_loop_ok l names seen names' seen' :
  for_state endpoint_step (names, seen) l = Ok (names', seen') ->
  Forall endpoint_ok l /\ NoDup (ep_Name <$> l) /\ seen' = (seen || existsb is_player l) /\
  (forall e, e ∈ l -> names !! ep_Name e = None) /\
  forall n e, names' !! n = Some e <-> names !! n = Some e \/ (e ∈ l /\ ep_Name e = n).
Proof.
  revert names seen. induction l as [|e l IH]; intros names seen; cbn [for_state].
  - intros [= <- <-]. rewrite orb_false_r. split_and!; try done; [by apply NoDup_nil_2|..].
    + by intros e He%not_elem_of_nil.
    + intros n e. split; [by left|]. by intros [?|[He%not_elem_of_nil _]].
  - destruct (endpoint_step _ e) as [s|] eqn:E; [|done].
    apply endpoint_step_ok in E as (He & Hn & ->). intros Hl.
    apply IH in Hl as (HF & Hnd & -> & Hfresh & Hmap). cbn [existsb].
    assert (forall e', e' ∈ l -> ep_Name e' <> ep_Name e) as Hne.
    { intros e' Hin E. specialize (Hfresh e' Hin). rewrite E, lookup_insert_eq in Hfresh. done. }
    split_and!.
    + by constructor.
    + rewrite fmap_cons. apply list.NoDup_cons. split; [|done].
      intros (e' & Ee & Hin)%list_elem_of_fmap. by apply (Hne e').
    + by rewrite orb_assoc.
    + intros e' [-> | Hin]%elem_of_cons; [done|]. specialize (Hfresh e' Hin).
      by rewrite lookup_insert_ne in Hfresh by (intros E; by apply (Hne e')).
    + intros n e'. rewrite Hmap, elem_of_cons. destruct (decide (n = ep_Name e)) as [->|Hd].
      * rewrite lookup_insert_eq. split; [|naive_solver].
        intros [[= <-]|[Hin E]]; [by right; auto|]. by apply Hne in Hin.
      * rewrite lookup_insert_ne by done. naive_solver.
Qed.

Section Readiness.
Context `{RegexpEngine} `{NameValidation}.

Lemma validated_endpoints d : Validate d = Ok tt ->
  Forall endpoint_ok (def_Endpoints d) /\ NoDup (ep_Name <$> def_Endpoints d) /\
  (exists e, e ∈ def_Endpoints d /\ ep_Scope e = ScopePlayer) /\
  ((def_ReadinessEndpoint d = "" /\ def_ReadinessMode d = ReadinessUnset) \/
   exists e, e ∈ def_Endpoints d /\ ep_Name e = def_ReadinessEndpoint d /\ ep_Protocol e = ProtocolTCP /\
     ((def_ReadinessMode d = ReadinessTCP /\ ep_Scope e = ScopePlayer) \/
      (def_ReadinessMode d = ReadinessPrivateExec /\ ep_Scope e <> ScopePlayer))).
Proof.
  intros Hv. apply Validate_parts in Hv as (_ & _ & _ & He & _). unfold validateEndpoints in He.
  case_bool_decide; [done|]. apply bind_ok in He as ([names seen] & Hl & He).
  apply endpoint_loop_ok in Hl as (HF & Hnd & -> & _ & Hmap). split_and!; [done..| |].
  - destruct (existsb is_player (def_Endpoints d)) eqn:E; [|done].
    apply existsb_exists in E as (e & Hin & Hp). exists e. unfold is_player in Hp.
    apply bool_decide_eq_true in Hp. by apply list_elem_of_In in Hin.
  - destruct (negb _); [done|]. unfold validateReadiness in He. case_bool_decide; [left|right].
    + destruct (def_ReadinessMode d); by eval_bools || (by ok_inv; bool_prop).
    + destruct (names !! def_ReadinessEndpoint d) as [e|] eqn:Ee; [|done].
      apply Hmap in Ee as [[=] | [Hin En]]. exists e.
      destruct (def_ReadinessMode d); ok_inv; bool_prop; split_and!; auto.
Qed.

Lemma validated_readiness d : Validate d = Ok tt ->
  (def_ReadinessEndpoint d = "" /\ def_ReadinessMode d = ReadinessUnset) \/
  exists e, e ∈ def_Endpoints d /\ ep_Name e = def_ReadinessEndpoint d /\ ep_Protocol e = ProtocolTCP /\
    ((def_ReadinessMode d = ReadinessTCP /\ ep_Scope e = ScopePlayer) \/
     (def_ReadinessMode d = ReadinessPrivateExec /\ ep_Scope e <> ScopePlayer)).
Proof. by intros (_ & _ & _ & H1)%validated_endpoints. Qed.

(** A validated adapter exposes at least one player endpoint, every
    endpoint has a distinct name, a TCP or UDP protocol and a non-zero port,
    and the readiness probe is safe: a TCP probe targets a player endpoint and
    only the private helper is used for an administrator or internal one, so a
    private port never appears in a probe. *)
Theorem Validate_readiness d (Hv : Validate d = Ok tt) :
  Forall endpoint_ok (def_Endpoints d) /\ NoDup (ep_Name <$> def_Endpoints d) /\
  (exists e, e ∈ def_Endpoints d /\ ep_Scope e = ScopePlayer) /\
  ((def_ReadinessEndpoint d = "" /\ def_ReadinessMode d = ReadinessUnset) \/
   exists e, e ∈ def_Endpoints d /\ ep_Name e = def_ReadinessEndpoint d /\ ep_Protocol e = ProtocolTCP /\
     ((def_ReadinessMode d = ReadinessTCP /\ ep_Scope e = ScopePlayer) \/
      (def_ReadinessMode d = ReadinessPrivateExec /\ ep_Scope e <> ScopePlayer))).
Proof.
  by apply validated_endpoints.
Qed.
End Readiness.

(** ** Rendered configuration *)

Definition file_of (rendered : gmap string (list ascii)) (t : ConfigurationTarget) : ConfigurationFile :=
  MkFile (ct_Name t) (ct_MountPath t) (default [] (rendered !! ct_Name t)).
Definition total_size (files : list ConfigurationFile) : Z :=
  foldr (fun f n => len (cfg_Contents f) + n)%Z 0%Z files.
Definition file_ok (f : ConfigurationFile) : Prop :=
  cfg_Contents f <> [] /\ utf8_Valid (cfg_Contents f) = true /\ chr 0 ∉ cfg_Contents f.

Lemma has_false c s : has c s = false <-> c ∉ s.
Proof.
  unfold has. split.
  - intros E Hin. apply not_true_iff_false in E. apply E. apply existsb_exists. exists c.
    split; [by apply list_elem_of_In | apply Ascii.eqb_refl].
  - intros Hn. apply not_true_iff_false. intros (d & Hd & ->%Ascii.eqb_eq)%existsb_exists.
    by apply Hn, list_elem_of_In.
Qed.

Lemma total_size_perm a b : a ≡ₚ b -> total_size a = total_size b.
Proof. unfold total_size. induction 1; cbn [foldr] in *; lia. Qed.

Lemma pair_step_ok rendered files total t s : pair_step rendered (files, total) t = Ok s ->
  is_Some (rendered !! ct_Name t) /\ file_ok (file_of rendered t) /\
  s = (files ++ [file_of rendered t], total + len (cfg_Contents (file_of rendered t)))%Z /\
  (s.2 <= MaxRenderedSettingsBytes)%Z.
Proof.
  unfold pair_step, file_of, file_ok. intros Hs.
  destruct (rendered !! ct_Name t) as [contents|] eqn:E; [|done].
  change (default [] (Some contents)) with contents. cbn [cfg_Contents].
  ok_inv. rewrite orb_false_iff, negb_false_iff, has_false in Hguard0. destruct Hguard0 as [? ?].
  rewrite bool_decide_eq_false in Hguard. subst s. cbn [snd]. split_and!; try done; try lia.
  by intros ->.
Qed.

Lemma pair_loop_ok rendered targets files total s :
  for_state (pair_step rendered) (files, total) targets = Ok s ->
  (total <= MaxRenderedSettingsBytes)%Z ->
  Forall (fun t => is_Some (rendered !! ct_Name t)) targets /\
  Forall file_ok (file_of rendered <$> targets) /\ s.1 = files ++ (file_of rendered <$> targets) /\
  s.2 = (total + total_size (file_of rendered <$> targets))%Z /\ (s.2 <= MaxRenderedSettingsBytes)%Z.
Proof.
  revert files total. induction targets as [|t targets IH]; intros files total; cbn [for_state].
  - intros [= <-] Ht. cbn. rewrite app_nil_r. split_and!; (done || lia).
  - destruct (pair_step _ _ t) as [s1|] eqn:E; [|done].
    apply pair_step_ok in E as (? & ? & -> & Hle). intros Hl _. apply IH in Hl as (? & ? & -> & -> & ?); [|done].
    rewrite fmap_cons. unfold total_size in *. cbn [foldr snd].
    split_and!; [by constructor | by constructor | by rewrite <- app_assoc | lia | lia].
Qed.

Lemma pairRenderedFiles_ok targets rendered files : pairRenderedFiles targets rendered = Ok files ->
  Z.of_nat (size rendered) = len targets /\ Forall (fun t => is_Some (rendered !! ct_Name t)) targets /\
  files = file_of rendered <$> targets /\ Forall file_ok files /\
  (total_size files <= MaxRenderedSettingsBytes)%Z.
Proof.
  unfold pairRenderedFiles. intros Hp. ok_inv. destruct x as [fs total]. injection Hp as <-.
  apply pair_loop_ok in Hrun as (? & ? & E & ? & ?); [|done]. cbn in *. subst.
  rewrite negb_bool_decide_false in Hguard. by split_and!.
Qed.

(** Distinct names, each present, as many as there are entries: all entries. *)
Lemma size_dom_exact (rendered : gmap string (list ascii)) (names : list string) :
  NoDup names -> Forall (fun n => is_Some (rendered !! n)) names -> size rendered = length names ->
  forall n, is_Some (rendered !! n) <-> n ∈ names.
Proof.
  intros Hnd HF Hs n. rewrite list.Forall_forall in HF. split; [|by apply HF].
  intros Hn. rewrite <- elem_of_dom in Hn.
  assert (Permutation (elements (dom rendered)) names) as Hp.
  { symmetry. apply submseteq_length_Permutation.
    - apply NoDup_submseteq; [done|]. intros x Hx. apply elem_of_elements, elem_of_dom. by apply HF.
    - change (length (elements (dom rendered))) with (size (dom rendered)). rewrite size_dom. lia. }
  rewrite <- Hp. by apply elem_of_elements.
Qed.

Section Rendering.
Context `{RegexpEngine} `{NameValidation}.

(** What the renderer of a validated adapter produces is exactly the
    declared configuration: one non-empty NUL-free UTF-8 file per target, at
    the target's own mount path, in name order, within the size limit, and the
    renderer named no other file. *)
Theorem RenderSettingsFiles_exact d settings files
  (Hv : Validate d = Ok tt) (Hr : RenderSettingsFiles d settings = Ok files) :
  exists render rendered, def_RenderSettings d = Some render /\ render settings = Ok rendered /\
    files ≡ₚ (file_of rendered <$> def_ConfigurationTargets d) /\
    Sorted (key_le cfg_Name) files /\ Forall file_ok files /\
    (total_size files <= MaxRenderedSettingsBytes)%Z /\
    forall n, is_Some (rendered !! n) <-> n ∈ ct_Name <$> def_ConfigurationTargets d.
Proof.
  apply Validate_parts in Hv as (_ & _ & _ & _ & _ & _ & Ht & _).
  apply validateConfigurationTargets_ok in Ht as (_ & Hnd & _).
  unfold RenderSettingsFiles in Hr. destruct (def_RenderSettings d) as [render|]; [|done].
  destruct (render settings) as [rendered|] eqn:E; [|done]. apply bind_ok in Hr as (fs & Hp & [= <-]).
  apply pairRenderedFiles_ok in Hp as (Hsize & Hall & -> & Hok & Htot).
  pose proof (sort_by_perm cfg_Name (file_of rendered <$> def_ConfigurationTargets d)) as Hperm.
  exists render, rendered. split_and!; try done.
  - apply sort_by_sorted.
  - by rewrite Hperm.
  - by rewrite (total_size_perm _ _ Hperm).
  - apply size_dom_exact; [done| |unfold len in Hsize; rewrite length_fmap; lia].
    apply Forall_fmap. done.
Qed.
End Rendering.

(** ** The settings digest determines the files *)

(** A length, a colon, that many bytes: what follows is unambiguous. *)
Lemma sized_field_inj (a b r1 r2 : list ascii) :
  chars (FormatInt (len a)) ++ ":"%char :: a ++ r1 = chars (FormatInt (len b)) ++ ":"%char :: b ++ r2 ->
  a = b /\ r1 = r2.
Proof.
  intros E. apply split_at_unique in E as [En E];
    [|apply FormatInt_no_colon; unfold len; lia | apply FormatInt_no_colon; unfold len; lia].
  apply chars_inj, FormatInt_inj in En. apply app_inj_1 in E; [done|]. unfold len in En. lia.
Qed.

Lemma file_text_sized f rest : file_text f ++ rest =
  chars (FormatInt (len (chars (cfg_Name f)))) ++ ":"%char :: chars (cfg_Name f) ++ ":"%char ::
  chars (FormatInt (len (chars (cfg_MountPath f)))) ++ ":"%char :: chars (cfg_MountPath f) ++ ":"%char ::
  chars (FormatInt (len (cfg_Contents f))) ++ ":"%char :: cfg_Contents f ++ rest.
Proof.
  unfold file_text, slen, len. rewrite <- !length_chars, !chars_app. cbn [chars app].
  repeat (cbn [app]; rewrite <- app_assoc). cbn [app]. reflexivity.
Qed.

Lemma files_text_inj l k : files_text l = files_text k -> l = k.
Proof.
  revert k. induction l as [|f l IH]; intros [|g k]; unfold files_text; rewrite ?fmap_cons, ?fmap_nil;
    cbn [concat].
  - done.
  - rewrite file_text_sized. intros E. symmetry in E. by apply app_eq_nil in E as [_ ?].
  - rewrite file_text_sized. intros E. by apply app_eq_nil in E as [_ ?].
  - rewrite !file_text_sized. intros E.
    apply sized_field_inj in E as [E1 [= E]]. apply sized_field_inj in E as [E2 [= E]].
    apply sized_field_inj in E as [E3 E]. apply IH in E as ->. apply chars_inj in E1, E2.
    destruct f, g. cbn in *. by subst.
Qed.

(** The settings digest determines the rendered configuration: two settings
    with the same digest render to the same files, byte for byte, or exhibit a
    SHA-256 collision. *)
Theorem SettingsDigest_determines d1 s1 d2 s2 h
  (H1 : SettingsDigest d1 s1 = Ok h) (H2 : SettingsDigest d2 s2 = Ok h) :
  exists f1 f2, RenderSettingsFiles d1 s1 = Ok f1 /\ RenderSettingsFiles d2 s2 = Ok f2 /\
    (f1 = f2 \/ (files_text f1 <> files_text f2 /\ Sum256 (files_text f1) = Sum256 (files_text f2))).
Proof.
  unfold SettingsDigest in H1, H2. apply bind_ok in H1 as (f1 & E1 & [= H1]), H2 as (f2 & E2 & [= H2]).
  exists f1, f2. split_and!; [done..|]. rewrite <- H2 in H1.
  apply (f_equal chars) in H1. rewrite !(chars_app "sha256:") in H1.
  apply app_inv_head, chars_inj, EncodeToString_inj in H1.
  destruct (decide (files_text f1 = files_text f2)) as [E|E]; [|by right].
  left. by apply files_text_inj.
Qed.

(** ** Images *)

Lemma Contains_false s c : Contains s (String c "") = false -> c ∉ chars s.
Proof.
  unfold Contains. cbn [chars]. intros E Hin. apply list_elem_of_split in Hin as (a & b & Eab).
  assert (exists p, cut_at [c] (chars s) = Some p) as [p Ep]; [|by rewrite Ep in E].
  rewrite Eab. clear. induction a as [|x a IH]; cbn; [rewrite Ascii.eqb_refl; eauto|].
  destruct (Ascii.eqb c x); [eauto|]. destruct IH as [[u v] ->]. eauto.
Qed.

Lemma validateRepository_no_digest r : validateRepository r = Ok tt -> "@"%char ∉ chars r.
Proof. unfold validateRepository. intros H. repeat (ok_inv_step; try discriminate). by apply Contains_false. Qed.

(** An image reference names one repository and one digest: what
    [ResolvedImage] returns can be split back into exactly the arguments, so two
    references agree only for the same repository and the same content. *)
Theorem ResolvedImage_injective r1 d1 r2 d2 image
  (H1 : ResolvedImage r1 d1 = Ok image) (H2 : ResolvedImage r2 d2 = Ok image) :
  r1 = r2 /\ d1 = d2 /\ MatchString digestPattern d1 = true.
Proof.
  assert (forall r d, ResolvedImage r d = Ok image -> "@"%char ∉ chars r /\
    MatchString digestPattern d = true /\ image = r +:+ "@" +:+ d) as Hinv.
  { clear. intros r d H. unfold ResolvedImage in H. apply bind_ok in H as ([] & Hr & H).
    apply validateRepository_no_digest in Hr. destruct (MatchString digestPattern d); [|done].
    by injection H as <-. }
  apply Hinv in H1 as (N1 & M1 & ->), H2 as (N2 & _ & E). apply (f_equal chars) in E.
  rewrite !chars_app in E. cbn [chars app] in E. apply split_at_unique in E as [Er Ed]; [|done..].
  apply chars_inj in Er, Ed. by subst.
Qed.

(** ** The catalog *)

Section CatalogTheorems.
Context `{RegexpEngine} `{NameValidation}.

Lemma catalog_step_ok c d c' : catalog_step c d = Ok c' ->
  Validate d = Ok tt /\ c !! def_ID d = None /\ c' = <[def_ID d := d]> c.
Proof.
  unfold catalog_step. intros Hs. destruct (Validate d) as [[]|]; [|done]. ok_inv.
  rewrite bool_decide_eq_false in Hguard. apply eq_None_not_Some in Hguard. by subst.
Qed.

Lemma catalog_loop_ok l c c' : for_state catalog_step c l = Ok c' ->
  Forall (fun d => Validate d = Ok tt) l /\ NoDup (def_ID <$> l) /\
  (forall d, d ∈ l -> c !! def_ID d = None) /\
  forall id d, c' !! id = Some d <-> c !! id = Some d \/ (d ∈ l /\ def_ID d = id).
Proof.
  revert c. induction l as [|d l IH]; intros c; cbn [for_state].
  - intros [= <-]. split_and!; [done | by apply NoDup_nil_2 | |].
    + by intros e He%not_elem_of_nil.
    + intros n e. split; [by left|]. by intros [?|[He%not_elem_of_nil _]].
  - destruct (catalog_step c d) as [c1|] eqn:E; [|done].
    apply catalog_step_ok in E as (Hv & Hn & ->). intros Hl.
    apply IH in Hl as (HF & Hnd & Hfresh & Hmap).
    assert (forall e, e ∈ l -> def_ID e <> def_ID d) as Hne.
    { intros e Hin E. specialize (Hfresh e Hin). rewrite E, lookup_insert_eq in Hfresh. done. }
    split_and!.
    + by constructor.
    + rewrite fmap_cons. apply list.NoDup_cons. split; [|done].
      intros (e & Ee & Hin)%list_elem_of_fmap. by apply (Hne e).
    + intros e [-> | Hin]%elem_of_cons; [done|]. specialize (Hfresh e Hin).
      by rewrite lookup_insert_ne in Hfresh by (intros E; by apply (Hne e)).
    + intros n e. rewrite Hmap, elem_of_cons. destruct (decide (n = def_ID d)) as [->|Hd].
      * rewrite lookup_insert_eq. split; [|naive_solver].
        intros [[= <-]|[Hin E]]; [by right; auto|]. by apply Hne in Hin.
      * rewrite lookup_insert_ne by done. naive_solver.
Qed.

Lemma omap_lookup_perm (c : Catalog) l : NoDup (def_ID <$> l) ->
  (forall id d, c !! id = Some d <-> d ∈ l /\ def_ID d = id) ->
  omap (fun id => c !! id) (def_ID <$> l) = l.
Proof.
  intros Hnd Hmap. assert (forall k, k ⊆ l -> omap (fun id => c !! id) (def_ID <$> k) = k) as Hk.
  { induction k as [|d k IH]; intros Hsub; [done|]. cbn.
    assert (c !! def_ID d = Some d) as -> by (apply Hmap; split; [apply Hsub; left | done]).
    f_equal. apply IH. intros x Hx. apply Hsub. by right. }
  by apply Hk.
Qed.

(** A catalog is exactly its list of valid definitions: every one was
    validated, no identifier occurs twice, [Get] finds a definition under its
    own identifier and nothing else, and [List] is all of them. *)
Theorem catalog_New_exact definitions c (Hc : catalog_New definitions = Ok c) :
  Forall (fun d => Validate d = Ok tt) definitions /\ NoDup (def_ID <$> definitions) /\
  (forall id d, catalog_Get c id = Ok d <-> d ∈ definitions /\ def_ID d = id) /\
  catalog_List c ≡ₚ definitions.
Proof.
  apply catalog_loop_ok in Hc as (HF & Hnd & _ & Hmap).
  assert (forall id d, c !! id = Some d <-> d ∈ definitions /\ def_ID d = id) as Hget.
  { intros id d. rewrite Hmap, lookup_empty. naive_solver. }
  split_and!; [done..| |].
  - intros id d. rewrite <- Hget. unfold catalog_Get. destruct (c !! id); naive_solver.
  - unfold catalog_List. rewrite (sort_by_perm id (elements (dom c))).
    rewrite <- (omap_lookup_perm c definitions) by done. apply omap_Permutation.
    apply NoDup_Permutation; [apply NoDup_elements | done |].
    intros n. rewrite elem_of_elements, elem_of_dom, list_elem_of_fmap. split.
    + intros [d Hd]. apply Hget in Hd as [? <-]. eauto.
    + intros (d & -> & Hin). exists d. by apply Hget.
Qed.
End CatalogTheorems.

(** ** A concrete adapter *)

(** The shape of the certified Factorio adapter, with a renderer that writes a
    fixed file, and an expression engine for the expressions it uses. *)
Definition sample_version : regex :=
  let number := From1To 6 (Cls is_digit) in
  Cat number (Cat (Lit ".") (Cat number (Cat (Lit ".") number))).
Definition sample_engine : RegexpEngine := fun _ => Some (MatchString sample_version).

Definition sample_schema : string :=
  "{ " +:+ q "type" +:+ ": " +:+ q "object" +:+ ", " +:+ q "required" +:+ ": [" +:+ q "name" +:+ "]}".
Definition sample_render : SettingsRenderer :=
  fun raw => if raw == "" then fail "empty" else Ok {["server-settings" := chars raw]}.
Definition sample_definition : GameDefinition := {|
  def_ID := "factorio"; def_DisplayName := "Factorio";
  def_ImageRepository := "ghcr.io/gobha-me/arcadectl-factorio";
  def_VersionPolicy := Some (MkVersionPolicy "^[0-9]{1,6}\.[0-9]{1,6}\.[0-9]{1,6}$" "");
  def_Endpoints := [MkEndpoint "game" ProtocolUDP 34197 ScopePlayer;
                    MkEndpoint "rcon" ProtocolTCP 27015 ScopeAdmin];
  def_PersistentPaths := [MkPersistentPath "world" "/factorio"];
  def_ReadinessEndpoint := "rcon"; def_ReadinessMode := ReadinessPrivateExec;
  def_SettingsSchema := sample_schema;
  def_ConfigurationTargets := [MkTarget "server-settings" "/factorio/config/server-settings.json"];
  def_RenderSettings := Some sample_render;
  def_RuntimeIdentity := MkIdentity 845 845 845;
  def_Capabilities := MkCapabilities true true true |}.

Example sample_definition_valid : @Validate sample_engine rfc1123 sample_definition = Ok tt.
Proof. vm_compute. reflexivity. Qed.
Example sample_version_tag :
  @ResolveVersionTag sample_engine sample_definition "2.0.55" = Ok "2.0.55".
Proof. vm_compute. reflexivity. Qed.

Lemma Validate_mounts_witness :
  exists i p, def_PersistentPaths sample_definition !! i = Some p /\
    below "/factorio/config/server-settings.json" p.
Proof.
  destruct (@Validate_mounts rfc1123 sample_engine sample_definition) as (_ & _ & Ht);
    [vm_compute; reflexivity|].
  destruct (Ht (MkTarget "server-settings" "/factorio/config/server-settings.json")) as (i & p & Hi & Hb & _);
    [left|].
  exists i, p. split; [exact Hi | exact Hb].
Defined.

Lemma Validate_readiness_witness :
  exists e, e ∈ def_Endpoints sample_definition /\ ep_Scope e = ScopePlayer.
Proof.
  apply (@Validate_readiness sample_engine rfc1123 sample_definition). vm_compute. reflexivity.
Defined.

Lemma RenderSettingsFiles_exact_witness :
  exists render rendered, def_RenderSettings sample_definition = Some render /\
    render "{}" = Ok rendered /\
    [MkFile "server-settings" "/factorio/config/server-settings.json" (chars "{}")] ≡ₚ
      (file_of rendered <$> def_ConfigurationTargets sample_definition).
Proof.
  destruct (@RenderSettingsFiles_exact sample_engine rfc1123 sample_definition "{}"
    [MkFile "server-settings" "/factorio/config/server-settings.json" (chars "{}")])
    as (render & rendered & E1 & E2 & E3 & _); [vm_compute; reflexivity | vm_compute; reflexivity|].
  exists render, rendered. split; [exact E1|]. split; [exact E2 | exact E3].
Defined.

Definition sample_digest : string :=
  match SettingsDigest sample_definition "{}" with Ok h => h | Err _ => "" end.
Lemma SettingsDigest_determines_witness :
  exists f1 f2, RenderSettingsFiles sample_definition "{}" = Ok f1 /\
    RenderSettingsFiles sample_definition "{}" = Ok f2 /\
    (f1 = f2 \/ (files_text f1 <> files_text f2 /\ Sum256 (files_text f1) = Sum256 (files_text f2))).
Proof. apply (SettingsDigest_determines _ _ _ _ sample_digest); vm_compute; reflexivity. Defined.

Definition sample_image_digest : string :=
  "sha256:" +:+ EncodeToString (Sum256 (chars "image")).
Lemma ResolvedImage_injective_witness :
  "ghcr.io/gobha-me/arcadectl-factorio" = def_ImageRepository sample_definition /\
  sample_image_digest = sample_image_digest /\ MatchString digestPattern sample_image_digest = true.
Proof.
  apply (ResolvedImage_injective _ _ _ _
    ("ghcr.io/gobha-me/arcadectl-factorio" +:+ "@" +:+ sample_image_digest)); vm_compute; reflexivity.
Defined.

Lemma catalog_New_exact_witness :
  exists c, @catalog_New sample_engine rfc1123 [sample_definition] = Ok c /\
    catalog_List c ≡ₚ [sample_definition].
Proof.
  exists {["factorio" := sample_definition]}.
  assert (@catalog_New sample_engine rfc1123 [sample_definition] =
    Ok {["factorio" := sample_definition]}) as E by (vm_compute; reflexivity).
  split; [exact E|]. apply (@catalog_New_exact sample_engine rfc1123 _ _ E).
Defined.
