(* ===== verification/KubeObjects.v ===== *)
(** * The Kubernetes objects the platform reads and writes

    The fields of [corev1], [appsv1], [batchv1], [rbacv1], [storagev1] and
    [coordinationv1] objects that the repository sets or reads, under the
    source's names.  A field no code of the repository touches is not
    represented, except in the objects that are compared as a whole
    ([PodSpec], [Container], [JobSpec]): there [..._Rest] stands for every
    other field, empty when they all have their zero value, so that an
    equality of records is [Semantic.DeepEqual] of the objects (which does not
    tell nil slices and maps from empty ones). *)

From stdpp Require Import base tactics list strings gmap numbers.
From S2P Require Import Prelude ApiTypes.
Record TypeMeta := MkTypeMeta { APIVersion : string; Kind : string }.

Record PersistentVolumeClaim := MkPVC {
  pvc_TypeMeta : TypeMeta;
  pvc_meta : ObjectMeta;
  pvc_AccessModes : list string;
  pvc_StorageClassName : option string;
  pvc_StorageRequest : option Quantity;
  pvc_VolumeName : string;
  pvc_Phase : string;
  pvc_Capacity : option Quantity }.

Record ConfigMap := MkConfigMap {
  cm_TypeMeta : TypeMeta;
  cm_meta : ObjectMeta;
  cm_BinaryData : gmap string (list Ascii.ascii);
  cm_Data : StringMap;
  cm_Immutable : option bool }.

Record ContainerPort := MkContainerPort {
  port_Name : string;
  port_ContainerPort : Z;
  port_Protocol : string }.
Record VolumeMount := MkVolumeMount { vm_Name : string; vm_MountPath : string; vm_ReadOnly : bool }.
Inductive VolumeProjection :=
| ProjectServiceAccountToken (path : string) (expirationSeconds : option Z)
| ProjectConfigMap (name : string) (items : list (string * string)).
Inductive VolumeSource :=
| VolumePersistentVolumeClaim (claimName : string) (readOnly : bool)
| VolumeConfigMap (name : string) (defaultMode : option Z)
| VolumeEmptyDir (medium : string) (sizeLimit : option Quantity)
| VolumeProjected (defaultMode : option Z) (sources : list VolumeProjection)
| VolumeOther (rest : string).
Record Volume := MkVolume { vol_Name : string; vol_Source : VolumeSource }.
Inductive ProbeHandler := ProbeTCPSocket (port : string) | ProbeExec (command : list string).
Record ResourceRequirements := MkResources {
  res_Requests : gmap string Quantity;
  res_Limits : gmap string Quantity }.
Record SecurityContext := MkSecurityContext {
  AllowPrivilegeEscalation : option bool;
  ReadOnlyRootFilesystem : option bool;
  CapabilitiesDrop : list string }.
Record ObjectFieldSelector := MkFieldRef { fr_APIVersion : string; fr_FieldPath : string }.
Record EnvVar := MkEnvVar { env_Name : string; env_Value : string; env_FieldRef : option ObjectFieldSelector }.
Record Container := MkContainer {
  con_Name : string;
  con_Image : string;
  con_ImagePullPolicy : string;
  con_Command : list string;
  con_Args : list string;
  con_Ports : list ContainerPort;
  con_VolumeMounts : list VolumeMount;
  con_Resources : ResourceRequirements;
  con_SecurityContext : SecurityContext;
  con_ReadinessProbe : option ProbeHandler;
  con_Env : list EnvVar;
  con_TerminationMessagePath : string;
  con_TerminationMessagePolicy : string;
  con_VolumeDevices : list string;
  con_Rest : string }.
Record PodSecurityContext := MkPodSecurity {
  RunAsNonRoot : option bool;
  RunAsUser : option Z;
  RunAsGroup : option Z;
  pod_FSGroup : option Z;
  FSGroupChangePolicy : option string;
  SeccompProfile : option string;
  SupplementalGroups : list Z }.
Record Toleration := MkToleration {
  tol_Key : string;
  tol_Operator : string;
  tol_Value : string;
  tol_Effect : string;
  tol_TolerationSeconds : option Z }.
Record PodSpec := MkPodSpec {
  AutomountServiceAccountToken : option bool;
  pod_SecurityContext : PodSecurityContext;
  pod_InitContainers : list Container;
  pod_Containers : list Container;
  pod_Volumes : list Volume;
  pod_Hostname : string;
  pod_NodeName : string;
  pod_ServiceAccountName : string;
  pod_DeprecatedServiceAccount : string;
  pod_RestartPolicy : string;
  pod_SchedulingGates : list string;
  pod_DNSPolicy : string;
  pod_TerminationGracePeriodSeconds : option Z;
  pod_SchedulerName : string;
  pod_EnableServiceLinks : option bool;
  pod_Priority : option Z;
  pod_PreemptionPolicy : option string;
  pod_Tolerations : list Toleration;
  pod_EphemeralContainers : list Container;
  pod_Rest : string }.
Record DeploymentCondition := MkDeploymentCondition {
  dc_Type : string;
  dc_Status : ConditionStatus;
  dc_Reason : string }.
Record DeploymentStatus := MkDeploymentStatus {
  dps_ObservedGeneration : Z;
  dps_Replicas : Z;
  dps_UpdatedReplicas : Z;
  dps_ReadyReplicas : Z;
  dps_AvailableReplicas : Z;
  dps_UnavailableReplicas : Z;
  dps_Conditions : list DeploymentCondition }.
Record Deployment := MkDeployment {
  dep_TypeMeta : TypeMeta;
  dep_meta : ObjectMeta;
  dep_Replicas : option Z;
  dep_Strategy : string;
  dep_Selector : StringMap;
  dep_TemplateLabels : StringMap;
  dep_TemplateAnnotations : StringMap;
  dep_PodSpec : PodSpec;
  dep_Status : DeploymentStatus }.
(** A ReplicaSet is only inspected for the Pods it would create. *)
Record ReplicaSet := MkReplicaSet {
  rset_meta : ObjectMeta;
  rset_TemplateLabels : StringMap;
  rset_TemplateSpec : PodSpec }.

Record ServicePort := MkServicePort {
  sp_Name : string;
  sp_Protocol : string;
  sp_Port : Z;
  sp_TargetPort : string }.
Record PortStatus := MkPortStatus {
  ps_Port : Z;
  ps_Protocol : string;
  ps_Error : option string }.
Record LoadBalancerIngress := MkIngress {
  ing_IP : string;
  ing_Hostname : string;
  ing_Ports : list PortStatus }.
Record Service := MkService {
  svc_TypeMeta : TypeMeta;
  svc_meta : ObjectMeta;
  svc_Type : string;
  svc_Selector : StringMap;
  svc_Ports : list ServicePort;
  svc_Ingress : list LoadBalancerIngress }.

(** ** Workers: Pods, Jobs and the authority they run with *)

Record ContainerStatus := MkContainerStatus {
  cs_Name : string;
  cs_Terminated : option (Z * string) (* exit code, message *) }.
Record Pod := MkPod {
  pod_meta : ObjectMeta;
  pod_Spec : PodSpec;
  pod_Phase : string;
  pod_InitContainerStatuses : list ContainerStatus;
  pod_ContainerStatuses : list ContainerStatus }.

Record LabelSelector := MkSelector { MatchLabels : StringMap; MatchExpressions : list string }.
Record JobSpec := MkJobSpec {
  job_BackoffLimit : option Z;
  job_ActiveDeadlineSeconds : option Z;
  job_Parallelism : option Z;
  job_Completions : option Z;
  job_Suspend : option bool;
  job_ManualSelector : option bool;
  job_Selector : option LabelSelector;
  job_CompletionMode : option string;
  job_PodReplacementPolicy : option string;
  job_TemplateLabels : StringMap;
  job_TemplateAnnotations : StringMap;
  job_TemplateSpec : PodSpec;
  job_Rest : string }.
Record JobCondition := MkJobCondition {
  jc_Type : string;
  jc_Status : ConditionStatus;
  jc_LastTransitionTime : Time }.
Record Job := MkJob {
  job_meta : ObjectMeta;
  job_Spec : JobSpec;
  job_Conditions : list JobCondition;
  job_CompletionTime : option Time }.

Record ServiceAccount := MkServiceAccount {
  sa_meta : ObjectMeta;
  sa_AutomountServiceAccountToken : option bool }.
Record PolicyRule := MkRule {
  rule_APIGroups : list string;
  rule_Resources : list string;
  rule_ResourceNames : list string;
  rule_Verbs : list string }.
Record Role := MkRole { role_meta : ObjectMeta; role_Rules : list PolicyRule }.
Record Subject := MkSubject { sub_Kind : string; sub_Name : string; sub_Namespace : string }.
Record RoleRef := MkRoleRef { rr_APIGroup : string; rr_Kind : string; rr_Name : string }.
Record RoleBinding := MkRoleBinding {
  rb_meta : ObjectMeta;
  rb_Subjects : list Subject;
  rb_RoleRef : RoleRef }.
Record Lease := MkLease {
  ls_meta : ObjectMeta;
  ls_HolderIdentity : option string;
  ls_AcquireTime : option Time }.

(** ** Storage *)

Record PersistentVolume := MkPV {
  pvol_meta : ObjectMeta;
  pvol_ClaimRef : option (string * string * string) (* namespace, name, UID *);
  pvol_Phase : string;
  pvol_CSI : option (string * string) (* driver, volume handle *) }.
Record VolumeAttachment := MkAttachment {
  va_PersistentVolumeName : option string;
  va_Attached : bool }.

(** ** Decidable equality *)

#[export] Instance TypeMeta_eq_dec : EqDecision TypeMeta.
Proof. solve_decision. Defined.
#[export] Instance ContainerPort_eq_dec : EqDecision ContainerPort.
Proof. solve_decision. Defined.
#[export] Instance VolumeMount_eq_dec : EqDecision VolumeMount.
Proof. solve_decision. Defined.
#[export] Instance VolumeProjection_eq_dec : EqDecision VolumeProjection.
Proof. solve_decision. Defined.
#[export] Instance VolumeSource_eq_dec : EqDecision VolumeSource.
Proof. solve_decision. Defined.
#[export] Instance Volume_eq_dec : EqDecision Volume.
Proof. solve_decision. Defined.
#[export] Instance ProbeHandler_eq_dec : EqDecision ProbeHandler.
Proof. solve_decision. Defined.
#[export] Instance ResourceRequirements_eq_dec : EqDecision ResourceRequirements.
Proof. solve_decision. Defined.
#[export] Instance SecurityContext_eq_dec : EqDecision SecurityContext.
Proof. solve_decision. Defined.
#[export] Instance ObjectFieldSelector_eq_dec : EqDecision ObjectFieldSelector.
Proof. solve_decision. Defined.
#[export] Instance EnvVar_eq_dec : EqDecision EnvVar.
Proof. solve_decision. Defined.
#[export] Instance Container_eq_dec : EqDecision Container.
Proof. solve_decision. Defined.
#[export] Instance PodSecurityContext_eq_dec : EqDecision PodSecurityContext.
Proof. solve_decision. Defined.
#[export] Instance Toleration_eq_dec : EqDecision Toleration.
Proof. solve_decision. Defined.
#[export] Instance PodSpec_eq_dec : EqDecision PodSpec.
Proof. solve_decision. Defined.
#[export] Instance LabelSelector_eq_dec : EqDecision LabelSelector.
Proof. solve_decision. Defined.
#[export] Instance JobSpec_eq_dec : EqDecision JobSpec.
Proof. solve_decision. Defined.
#[export] Instance PolicyRule_eq_dec : EqDecision PolicyRule.
Proof. solve_decision. Defined.
#[export] Instance Subject_eq_dec : EqDecision Subject.
Proof. solve_decision. Defined.
#[export] Instance RoleRef_eq_dec : EqDecision RoleRef.
Proof. solve_decision. Defined.

(** ** Constructors of the common shapes *)

(** A new object's metadata: what the caller sets, the rest zero. *)
Definition new_meta (name namespace : string) (labels : StringMap) (owners : list OwnerReference) :
    ObjectMeta :=
  MkObjectMeta name namespace "" 0 "" 0 None [] labels ∅ owners.

Definition with_finalizers (m : ObjectMeta) (f : list string) : ObjectMeta :=
  MkObjectMeta (om_Name m) (om_Namespace m) (om_UID m) (om_Generation m) (om_ResourceVersion m)
    (om_CreationTimestamp m) (om_DeletionTimestamp m) f (om_Labels m) (om_Annotations m) (om_OwnerReferences m).
Definition with_annotations (m : ObjectMeta) (a : StringMap) : ObjectMeta :=
  MkObjectMeta (om_Name m) (om_Namespace m) (om_UID m) (om_Generation m) (om_ResourceVersion m)
    (om_CreationTimestamp m) (om_DeletionTimestamp m) (om_Finalizers m) (om_Labels m) a (om_OwnerReferences m).

(** [resource.MustParse("<n>m")] and [resource.MustParse("<n>Mi")]. *)
Definition milli (n : Z) : Quantity := (n * 10 ^ 6)%Z.
Definition Mi (n : Z) : Quantity := (n * 1024 * 1024 * 10 ^ 9)%Z.

(** A Pod template whose scheduling and DNS fields are left to the API server. *)
Definition template_pod (automount : option bool) (security : PodSecurityContext)
    (init containers : list Container) (volumes : list Volume)
    (hostname serviceAccount restartPolicy : string) (gates : list string) : PodSpec :=
  MkPodSpec automount security init containers volumes hostname "" serviceAccount "" restartPolicy gates
    "" None "" None None None [] [] "".

(** The status of an object that was not stored yet. *)
Definition no_status : DeploymentStatus := MkDeploymentStatus 0 0 0 0 0 0 [].
