(* ===== verification/KubePlan.v ===== *)
(** * The planner ([internal/platform/kube/plan.go])

    [Build] turns a GameServer and its adapter into the complete resource
    intent: data claims always, runtime objects only while running.  The
    theorems are the promises the rest of the platform relies on: stopping
    never touches data, claims are exactly the adapter's paths and never
    garbage-collected, only player ports are exposed, and every failure has a
    public category. *)

From Stdlib Require Import Ascii.
From stdpp Require Import base tactics list sets strings gmap numbers.
From S2P Require Import Prelude GoStrings Sha256 Regex GoJson GoNet K8s ApiTypes KubeObjects Receipts GameDefinition.
Open Scope string_scope.
Open Scope list_scope.

(** ** Names *)

Definition LabelManagedBy := "app.kubernetes.io/managed-by".
Definition LabelName := "app.kubernetes.io/name".
Definition LabelInstance := "app.kubernetes.io/instance".
Definition LabelGame := "arcade.gobha.me/game".
Definition LabelDataPolicy := "arcade.gobha.me/data-policy".
Definition LabelDataPath := "arcade.gobha.me/data-path".
Definition LabelDataIdentity := "arcade.gobha.me/data-identity".
Definition AnnotationColdBackupUID := "arcade.gobha.me/cold-backup-uid".
Definition AnnotationConfigurationHash := "arcade.gobha.me/configuration-sha256".
Definition ManagerName := "arcadectl".
Definition maxSettingsLen : Z := (64 * 1024)%Z.
Definition configurationVolumeName := "arcadectl-configuration".
Definition configurationSourcePath := "/arcadectl/configuration".
Definition privateReadinessPath := "/arcadectl/readiness".
Definition configurationMaterializer :=
  "busybox@sha256:9db7b59979c38555a39def84a31fb98b5296952f9e3afd4f6f11f05b07adfab0".
Definition GroupVersion := "arcade.gobha.me/v1alpha1".

(** ** Plans and errors *)

Record DataClaimPlan := MkClaimPlan {
  Desired : PersistentVolumeClaim;
  RequiredUID : string;
  ExternallySelected : bool }.

Record Plan := MkPlan {
  DataClaims : list DataClaimPlan;
  plan_DataIdentity : string;
  plan_Reattach : bool;
  Configuration : option ConfigMap;
  Workload : option Deployment;
  PlayerService : option Service }.

Inductive ValidationCategory :=
| ValidationIdentity | ValidationGame | ValidationImage | ValidationDesiredState
| ValidationCompute | ValidationStorage | ValidationSettings.

(** An error of the planner: a [ValidationError] or any other. *)
Inductive PlanError :=
| ValidationError (category : ValidationCategory) (cause : error)
| OtherError (e : error).

Definition planned (A : Type) : Type := PlanError + A.
Definition Planned {A} (a : A) : planned A := inr a.
#[export] Instance planned_bind : MBind planned := fun A B f r =>
  match r with inl e => inl e | inr a => f a end.
Definition refuse {A} (category : ValidationCategory) (e : error) : planned A :=
  inl (ValidationError category e).
(** [if err := f(); err != nil { return invalid(c, fmt.Errorf(m+": %w", err)) }] *)
Definition classify {A} (category : ValidationCategory) (wrap : error -> error) (r : result A) :
    planned A :=
  match r with Ok a => Planned a | Err e => refuse category (wrap e) end.
Definition wrapped (m : string) (e : error) : error := Errorf m (err_format e :: err_args e).

Fixpoint for_planned {A S} (body : S -> A -> planned S) (s : S) (l : list A) : planned S :=
  match l with
  | [] => Planned s
  | x :: rest => match body s x with inr s' => for_planned body s' rest | inl e => inl e end
  end.

(** ** The JSON-schema library *)

(** [github.com/santhosh-tekuri/jsonschema], as the planner calls it. *)
Class JsonSchema := {
  Document : Type; Compiler : Type; Schema : Type;
  UnmarshalJSON : string -> result Document;
  NewCompiler : Compiler;
  AddResource : Compiler -> string -> Document -> result Compiler;
  CompileSchema : Compiler -> string -> result Schema;
  SchemaValidate : Schema -> Document -> result unit }.

Definition wrap {A} (m : string) (r : result A) : result A :=
  match r with Ok a => Ok a | Err e => Err (wrapped m e) end.

Definition validateSettings `{JsonSchema} (schemaBytes settings : string) : result unit :=
  if slen settings == 0%Z then fail "settings are required"
  else if (slen settings >? maxSettingsLen)%Z then fail "settings exceed the 64 KiB limit"
  else
    schemaDocument ← wrap "decode settings schema: %w" (UnmarshalJSON schemaBytes);
    compiler ← wrap "load settings schema: %w"
                 (AddResource NewCompiler "arcadectl://adapter/settings.json" schemaDocument);
    schema ← wrap "compile settings schema: %w"
               (CompileSchema compiler "arcadectl://adapter/settings.json");
    instance ← wrap "settings must be valid JSON: %w" (UnmarshalJSON settings);
    wrap "settings do not satisfy adapter schema: %w" (SchemaValidate schema instance).

Definition validateCompute (compute : ComputeSpec) : result unit :=
  _ ← for_each (fun '(name, value) =>
        if (value <=? 0)%Z then failf "%s must be positive" [name] else Ok tt)
      [("CPU request", CPURequest compute); ("CPU limit", CPULimit compute);
       ("memory request", MemoryRequest compute); ("memory limit", MemoryLimit compute)];
  if (CPURequest compute >? CPULimit compute)%Z then fail "CPU request cannot exceed CPU limit"
  else if (MemoryRequest compute >? MemoryLimit compute)%Z then
    fail "memory request cannot exceed memory limit"
  else Ok tt.

Definition DataIdentity (serverUID : string) : result string :=
  if serverUID == "" then fail "game server UID is required for data identity"
  else Ok ("data-" +:+ EncodeToString (take 24 (Sum256 (chars ("arcadectl/data/" +:+ serverUID))))).

Definition server_Name (s : GameServer) : string := om_Name (gs_meta s).
Definition server_Namespace (s : GameServer) : string := om_Namespace (gs_meta s).
Definition server_UID (s : GameServer) : string := om_UID (gs_meta s).

Section Planner.
Context `{RegexpEngine} `{NameValidation} `{JsonSchema}.

Definition dataClaimName (serverName gameID pathName : string) : result string :=
  let name := serverName +:+ "-" +:+ gameID +:+ "-" +:+ pathName in
  if negb (is_subdomain name) then
    failf "data claim name %q is invalid: %s" [name; Join (IsDNS1123Subdomain name) "; "]
  else Ok name.

Definition validateIntent (server : GameServer) (definition : GameDefinition) : planned unit :=
  let spec := gs_Spec server in
  if negb (is_label (server_Name server)) then
    refuse ValidationIdentity
      (Errorf "invalid game server name: %s" [Join (IsDNS1123Label (server_Name server)) "; "])
  else if negb (is_label (server_Namespace server)) then
    refuse ValidationIdentity
      (Errorf "invalid game server namespace: %s" [Join (IsDNS1123Label (server_Namespace server)) "; "])
  else if server_UID server == "" then
    refuse ValidationIdentity (ErrorsNew "game server requires a Kubernetes UID")
  else
    _ ← classify ValidationGame (wrapped "invalid game definition: %w") (Validate definition);
    if gs_Game spec != def_ID definition then
      refuse ValidationGame (Errorf "game %q does not match adapter %q" [gs_Game spec; def_ID definition])
    else
      _ ← classify ValidationImage (wrapped "invalid image: %w")
            (ResolvedImage (def_ImageRepository definition) (gs_ImageDigest spec));
      if (gs_DesiredState spec != DesiredStateRunning) && (gs_DesiredState spec != DesiredStateStopped)
      then refuse ValidationDesiredState
             (Errorf "unsupported desired state %q" [DesiredState_string (gs_DesiredState spec)])
      else
        _ ← classify ValidationCompute (fun e => e) (validateCompute (gs_Compute spec));
        if (st_Size (gs_Storage spec) <=? 0)%Z then
          refuse ValidationStorage (ErrorsNew "storage size must be positive")
        else
          _ ← match st_StorageClassName (gs_Storage spec) with
              | Some className =>
                  if (className != "") && negb (is_subdomain className) then
                    refuse ValidationStorage
                      (Errorf "invalid storage class name: %s" [Join (IsDNS1123Subdomain className) "; "])
                  else Planned tt
              | None => Planned tt
              end;
          _ ← classify ValidationSettings (fun e => e)
                (validateSettings (def_SettingsSchema definition) (gs_Settings spec));
          for_planned (fun _ persistentPath =>
            if pp_Name persistentPath == configurationVolumeName then
              refuse ValidationGame
                (Errorf "persistent path name %q is reserved by the platform" [pp_Name persistentPath])
            else
              _ ← classify ValidationIdentity (fun e => e)
                    (dataClaimName (server_Name server) (def_ID definition) (pp_Name persistentPath));
              Planned tt) tt (def_PersistentPaths definition).

(** The selected data set: an active restore or rollback first, then an
    explicit reattachment, then what this controller observed before. *)
Definition selected_data (server : GameServer) : option RetainedDataReference :=
  match gss_ActiveData (gs_Status server) with
  | Some selection => Some selection
  | None =>
      match st_Reattach (gs_Storage (gs_Spec server)) with
      | Some selection => Some selection
      | None => gss_ObservedData (gs_Status server)
      end
  end.

Record selection_state := MkSelection {
  sel_claims : gmap string ExactLocalReference;
  sel_names : gmap string string;
  sel_uids : gmap string string }.

Definition selection_step (wantedPaths : list string) (s : selection_state)
    (claim : RetainedDataClaimReference) : planned selection_state :=
  let path := rdc_Path claim in
  let ref := rdc_ClaimRef claim in
  if negb (bool_decide (path ∈ wantedPaths)) then
    refuse ValidationStorage (Errorf "reattach path %q is not declared by the adapter" [path])
  else if bool_decide (is_Some (sel_claims s !! path)) then
    refuse ValidationStorage (Errorf "reattach path %q is duplicated" [path])
  else if (ref_Namespace ref != None) || (ref_Name ref == "") || (ref_UID ref == "") then
    refuse ValidationStorage
      (Errorf "reattach path %q requires an exact local claim name and UID" [path])
  else
    match sel_names s !! ref_Name ref, sel_uids s !! ref_UID ref with
    | Some other, _ =>
        refuse ValidationStorage (Errorf "reattach paths %q and %q reuse one claim name" [other; path])
    | None, Some other =>
        refuse ValidationStorage (Errorf "reattach paths %q and %q reuse one claim UID" [other; path])
    | None, None =>
        Planned (MkSelection (<[path := ref]> (sel_claims s)) (<[ref_Name ref := path]> (sel_names s))
                   (<[ref_UID ref := path]> (sel_uids s)))
    end.

Definition retainedDataSelection (server : GameServer) (definition : GameDefinition) :
    planned (string * gmap string ExactLocalReference) :=
  match selected_data server with
  | None =>
      match DataIdentity (server_UID server) with
      | Ok identity => Planned (identity, ∅)
      | Err e => inl (OtherError e)
      end
  | Some selection =>
      if rdr_Identity selection == "" then
        refuse ValidationStorage (ErrorsNew "selected data identity is required")
      else if negb (is_label (rdr_Identity selection)) then
        refuse ValidationStorage (ErrorsNew "selected data identity must be a DNS label")
      else if len (rdr_Claims selection) != len (def_PersistentPaths definition) then
        refuse ValidationStorage (ErrorsNew "reattach claims must cover every persistent path exactly")
      else
        s ← for_planned (selection_step (pp_Name <$> def_PersistentPaths definition))
              (MkSelection ∅ ∅ ∅) (rdr_Claims selection);
        Planned (rdr_Identity selection, sel_claims s)
  end.
End Planner.

(** ** The objects *)

Definition workloadLabels (server : GameServer) : StringMap :=
  <[LabelManagedBy := ManagerName]> (<[LabelName := "game-server"]>
  (<[LabelInstance := server_Name server]> (<[LabelGame := gs_Game (gs_Spec server)]> ∅))).

Definition buildDataClaim (server : GameServer) (definition : GameDefinition)
    (pathName name dataIdentity : string) : PersistentVolumeClaim :=
  let labels : StringMap :=
    <[LabelManagedBy := ManagerName]> (<[LabelName := "game-data"]>
    (<[LabelInstance := server_Name server]> (<[LabelGame := def_ID definition]>
    (<[LabelDataPolicy := "retain"]> (<[LabelDataPath := pathName]>
    (<[LabelDataIdentity := dataIdentity]> ∅)))))) in
  MkPVC (MkTypeMeta "v1" "PersistentVolumeClaim")
    (new_meta name (server_Namespace server) labels [])
    ["ReadWriteOnce"] (st_StorageClassName (gs_Storage (gs_Spec server)))
    (Some (st_Size (gs_Storage (gs_Spec server)))) "" "" None.

Definition controllerReference (server : GameServer) : OwnerReference :=
  MkOwnerReference GroupVersion "GameServer" (server_Name server) (server_UID server) (Some true) None.

Definition buildConfiguration (server : GameServer) (labels : StringMap)
    (files : list ConfigurationFile) : ConfigMap :=
  MkConfigMap (MkTypeMeta "v1" "ConfigMap")
    (new_meta (server_Name server +:+ "-configuration") (server_Namespace server)
       (<[LabelName := "game-configuration"]> labels) [controllerReference server])
    (fold_left (fun data file => <[cfg_Name file := cfg_Contents file]> data) files ∅) ∅ None.

Definition persistentRootForTarget (paths : list PersistentPath) (target : string) : string :=
  match find (fun p => HasPrefix target (pp_MountPath p +:+ "/")) paths with
  | Some p => pp_MountPath p
  | None => ""
  end.

Definition configurationHash (files : list ConfigurationFile) : string :=
  EncodeToString (Sum256 (files_text files)).

Definition player_endpoints (definition : GameDefinition) : list Endpoint :=
  filter (fun e => ep_Scope e = ScopePlayer) (def_Endpoints definition).

(** The script is an embedded asset. *)
Section Workload.
Variable materializeConfigurationScript : string.

Definition readinessProbe (definition : GameDefinition) : option ProbeHandler :=
  if def_ReadinessEndpoint definition != "" then
    match def_ReadinessMode definition with
    | ReadinessTCP => Some (ProbeTCPSocket (def_ReadinessEndpoint definition))
    | ReadinessPrivateExec => Some (ProbeExec [privateReadinessPath])
    | _ => None
    end
  else None.

Definition buildWorkload (server : GameServer) (definition : GameDefinition) (labels : StringMap)
    (image : string) (files : list ConfigurationFile) (configurationName : string)
    (claimNames : StringMap) : Deployment :=
  let compute := gs_Compute (gs_Spec server) in
  let containerPorts := (fun e => MkContainerPort (ep_Name e) (int32 (ep_ContainerPort e))
                           (Protocol_string (ep_Protocol e))) <$> player_endpoints definition in
  let volumeMounts := (fun p => MkVolumeMount (pp_Name p) (pp_MountPath p) false)
                        <$> def_PersistentPaths definition in
  let materializerMounts :=
    volumeMounts ++ [MkVolumeMount configurationVolumeName configurationSourcePath true] in
  let volumes :=
    ((fun p => MkVolume (pp_Name p) (VolumePersistentVolumeClaim (mget claimNames (pp_Name p)) false))
       <$> def_PersistentPaths definition) ++
    [MkVolume configurationVolumeName (VolumeConfigMap configurationName None)] in
  let container :=
    MkContainer "game" image "IfNotPresent" [] [] containerPorts volumeMounts
      (MkResources (<["cpu" := CPURequest compute]> (<["memory" := MemoryRequest compute]> ∅))
                   (<["cpu" := CPULimit compute]> (<["memory" := MemoryLimit compute]> ∅)))
      (MkSecurityContext (Some false) None ["ALL"]) (readinessProbe definition) [] "" "" [] "" in
  let materializerArgs :=
    [materializeConfigurationScript; "arcadectl-configuration-materializer"] ++
    concat ((fun f => [persistentRootForTarget (def_PersistentPaths definition) (cfg_MountPath f);
                       configurationSourcePath +:+ "/" +:+ cfg_Name f; cfg_MountPath f]) <$> files) in
  let materializer :=
    MkContainer "configuration-materializer" configurationMaterializer "IfNotPresent"
      ["/bin/sh"; "-ec"] materializerArgs [] materializerMounts (MkResources ∅ ∅)
      (MkSecurityContext (Some false) (Some true) ["ALL"]) None [] "" "" [] "" in
  let identity := def_RuntimeIdentity definition in
  MkDeployment (MkTypeMeta "apps/v1" "Deployment")
    (new_meta (server_Name server) (server_Namespace server) labels [controllerReference server])
    (Some 1%Z) "Recreate" labels labels
    (<[AnnotationConfigurationHash := configurationHash files]> ∅)
    (template_pod (Some false)
       (MkPodSecurity (Some true) (Some (UserID identity)) (Some (GroupID identity))
          (Some (FSGroup identity)) (Some "OnRootMismatch") (Some "RuntimeDefault") [])
       [materializer] [container] volumes "" "" "" [])
    no_status.

Definition buildPlayerService (server : GameServer) (definition : GameDefinition) (labels : StringMap) :
    Service :=
  MkService (MkTypeMeta "v1" "Service")
    (new_meta (server_Name server) (server_Namespace server) labels [controllerReference server])
    "LoadBalancer" labels
    ((fun e => MkServicePort (ep_Name e) (Protocol_string (ep_Protocol e)) (int32 (ep_ContainerPort e))
                 (ep_Name e)) <$> player_endpoints definition) [].

Context `{RegexpEngine} `{NameValidation} `{JsonSchema}.

Definition externally_selected (server : GameServer) : bool :=
  match st_Reattach (gs_Storage (gs_Spec server)), gss_ActiveData (gs_Status server) with
  | None, _ => false
  | Some _, None => true
  | Some reattach, Some active => rdr_Identity active == rdr_Identity reattach
  end.

(** The loop over the persistent paths: the claims and their names by path. *)
Definition claim_plan_step (server : GameServer) (definition : GameDefinition) (dataIdentity : string)
    (claimReferences : gmap string ExactLocalReference) (s : list DataClaimPlan * StringMap)
    (persistentPath : PersistentPath) : planned (list DataClaimPlan * StringMap) :=
  let '(claims, claimNames) := s in
  let path := pp_Name persistentPath in
  '(claimName, claimUID) ←
     match claimReferences !! path with
     | Some reference => Planned (ref_Name reference, ref_UID reference)
     | None => match dataClaimName (server_Name server) (def_ID definition) path with
               | Ok name => Planned (name, "")
               | Err e => inl (OtherError e)
               end
     end;
  Planned (claims ++ [MkClaimPlan (buildDataClaim server definition path claimName dataIdentity)
                        claimUID (externally_selected server)],
           <[path := claimName]> claimNames).

Definition Build (server : GameServer) (definition : GameDefinition) : planned Plan :=
  _ ← validateIntent server definition;
  '(dataIdentity, claimReferences) ← retainedDataSelection server definition;
  let labels := workloadLabels server in
  '(claims, claimNames) ← for_planned (claim_plan_step server definition dataIdentity claimReferences)
                            ([], ∅) (def_PersistentPaths definition);
  files ← classify ValidationSettings (wrapped "render configuration: %w")
            (RenderSettingsFiles definition (gs_Settings (gs_Spec server)));
  let reattach :=
    bool_decide (is_Some (gss_ActiveData (gs_Status server))) ||
    bool_decide (is_Some (st_Reattach (gs_Storage (gs_Spec server)))) ||
    bool_decide (is_Some (gss_ObservedData (gs_Status server))) in
  if gs_DesiredState (gs_Spec server) == DesiredStateStopped then
    Planned (MkPlan claims dataIdentity reattach None None None)
  else
    let configuration := buildConfiguration server labels files in
    image ← classify ValidationImage (wrapped "resolve image: %w")
              (ResolvedImage (def_ImageRepository definition) (gs_ImageDigest (gs_Spec server)));
    Planned (MkPlan claims dataIdentity reattach (Some configuration)
      (Some (buildWorkload server definition labels image files (om_Name (cm_meta configuration)) claimNames))
      (Some (buildPlayerService server definition labels))).
End Workload.

(** ** Lemmas on planned computations *)

Lemma planned_bind_inr {A B} (r : planned A) (f : A -> planned B) b :
  (r ≫= f) = inr b <-> exists a, r = inr a /\ f a = inr b.
Proof. destruct r; cbn; naive_solver. Qed.
Lemma planned_bind_inl {A B} (r : planned A) (f : A -> planned B) e :
  (r ≫= f) = inl e <-> r = inl e \/ exists a, r = inr a /\ f a = inl e.
Proof. destruct r; cbn; naive_solver. Qed.
Lemma classify_inr {A} c w (r : result A) a : classify c w r = inr a <-> r = Ok a.
Proof. destruct r; cbn; unfold Planned, refuse; naive_solver. Qed.

Ltac planned_step :=
  match goal with
  | H : Planned _ = inr _ |- _ => injection H as H
  | H : inr _ = inr _ |- _ => injection H as H
  | H : refuse _ _ = inr _ |- _ => discriminate H
  | H : inl _ = inr _ |- _ => discriminate H
  | H : classify _ _ _ = inr _ |- _ => apply classify_inr in H
  | H : (_ ≫= _) = inr _ |- _ =>
      let x := fresh "x" in let E := fresh "Hrun" in
      apply planned_bind_inr in H; destruct H as (x & E & H)
  | H : (if ?b then _ else _) = inr _ |- _ => let E := fresh "Hguard" in destruct b eqn:E
  end.
Ltac planned := repeat (planned_step; try discriminate).

(** A loop establishes what each step preserves. *)
Lemma for_planned_invariant {A S} (body : S -> A -> planned S) (I : list A -> S -> Prop) :
  (forall done x s s', I done s -> body s x = inr s' -> I (done ++ [x]) s') ->
  forall l done s s', I done s -> for_planned body s l = inr s' -> I (done ++ l) s'.
Proof.
  intros Hstep. induction l as [|x l IH]; intros d s s' Hi; cbn [for_planned].
  - intros [= <-]. by rewrite app_nil_r.
  - destruct (body s x) as [|s1] eqn:E; [done|]. intros Hl.
    apply (IH (d ++ [x])) in Hl; [by rewrite <- app_assoc in Hl | by eapply Hstep].
Qed.

(** ** Selection of retained data *)

Definition claim_path (c : DataClaimPlan) : string := mget (om_Labels (pvc_meta (Desired c))) LabelDataPath.
Definition claim_object (c : DataClaimPlan) : string := om_Name (pvc_meta (Desired c)).

Record selection_ok (wanted : list string) (done : list RetainedDataClaimReference) (s : selection_state) : Prop := {
  sok_exact : forall p r, sel_claims s !! p = Some r <-> MkClaimRef p r ∈ done;
  sok_names : forall p r, sel_claims s !! p = Some r -> sel_names s !! ref_Name r = Some p;
  sok_uids : forall p r, sel_claims s !! p = Some r -> sel_uids s !! ref_UID r = Some p;
  sok_complete : forall p r, sel_claims s !! p = Some r ->
    ref_Namespace r = None /\ ref_Name r <> "" /\ ref_UID r <> "";
  sok_wanted : forall p r, sel_claims s !! p = Some r -> p ∈ wanted;
  sok_paths : NoDup (rdc_Path <$> done) }.

Lemma selection_step_inr wanted s c s' : selection_step wanted s c = inr s' ->
  rdc_Path c ∈ wanted /\ sel_claims s !! rdc_Path c = None /\
  ref_Namespace (rdc_ClaimRef c) = None /\ ref_Name (rdc_ClaimRef c) <> "" /\ ref_UID (rdc_ClaimRef c) <> "" /\
  sel_names s !! ref_Name (rdc_ClaimRef c) = None /\ sel_uids s !! ref_UID (rdc_ClaimRef c) = None /\
  s' = MkSelection (<[rdc_Path c := rdc_ClaimRef c]> (sel_claims s))
         (<[ref_Name (rdc_ClaimRef c) := rdc_Path c]> (sel_names s))
         (<[ref_UID (rdc_ClaimRef c) := rdc_Path c]> (sel_uids s)).
Proof.
  unfold selection_step. intros H. planned_step; [done|]. planned_step; [done|]. planned_step; [done|].
  destruct (sel_names s !! _), (sel_uids s !! _); try done. injection H as <-.
  rewrite bool_decide_eq_false in Hguard0. apply eq_None_not_Some in Hguard0.
  rewrite negb_bool_decide_false in Hguard. rewrite !orb_false_iff in Hguard1.
  destruct Hguard1 as [[H1 H2] H3]. rewrite negb_bool_decide_false in H1.
  rewrite bool_decide_eq_false in H2, H3. by split_and!.
Qed.

Lemma selection_step_ok wanted d c s s' : selection_ok wanted d s -> selection_step wanted s c = inr s' ->
  selection_ok wanted (d ++ [c]) s'.
Proof.
  intros [Hex Hn Hu Hc Hw Hp] (Hin & Hfresh & Hns & Hname & Huid & Hnn & Hun & ->)%selection_step_inr.
  destruct c as [path ref]. cbn in *.
  split; cbn [sel_claims sel_names sel_uids].
  - intros p r. rewrite elem_of_app, list_elem_of_singleton, <- Hex, lookup_insert_Some. naive_solver.
  - intros p r [[-> ->] | [Hne E]]%lookup_insert_Some; [apply lookup_insert_eq|].
    pose proof (Hn _ _ E). rewrite lookup_insert_ne; [done | congruence].
  - intros p r [[-> ->] | [Hne E]]%lookup_insert_Some; [apply lookup_insert_eq|].
    pose proof (Hu _ _ E). rewrite lookup_insert_ne; [done | congruence].
  - intros p r [[-> ->] | [Hne E]]%lookup_insert_Some; eauto.
  - intros p r [[-> ->] | [Hne E]]%lookup_insert_Some; eauto.
  - rewrite fmap_app. apply list.NoDup_app. split_and!; [done | | apply NoDup_singleton].
    intros x (c' & Ex & Hc')%list_elem_of_fmap Hx%list_elem_of_singleton. destruct c' as [p r].
    cbn in *. apply Hex in Hc'. congruence.
Qed.

Section PlanTheorems.
Context `{RegexpEngine} `{NameValidation} `{JsonSchema}.

Lemma selection_empty_ok wanted : selection_ok wanted [] (MkSelection ∅ ∅ ∅).
Proof.
  split; cbn; try (intros p r E; by rewrite lookup_empty in E); [|by apply NoDup_nil_2].
  intros p r. rewrite lookup_empty. split; [done|]. by intros ?%not_elem_of_nil.
Qed.

(** A successful selection covers every path, with distinct claims. *)
Lemma retainedDataSelection_inr server d identity refs sel :
  retainedDataSelection server d = inr (identity, refs) -> selected_data server = Some sel ->
  NoDup (pp_Name <$> def_PersistentPaths d) ->
  identity = rdr_Identity sel /\ is_label identity = true /\
  (forall p, p ∈ def_PersistentPaths d -> exists r, refs !! pp_Name p = Some r) /\
  exists s, selection_ok (pp_Name <$> def_PersistentPaths d) (rdr_Claims sel) s /\ refs = sel_claims s.
Proof.
  unfold retainedDataSelection. intros Hret Hs Hnd. rewrite Hs in Hret. planned. subst.
  assert (selection_ok (pp_Name <$> def_PersistentPaths d) ([] ++ rdr_Claims sel) x) as Hok.
  { eapply for_planned_invariant; [|apply selection_empty_ok | exact Hrun].
    intros; by eapply selection_step_ok. }
  cbn [app] in Hok. rewrite negb_false_iff in Hguard0. split_and!; [done..| |by eauto].
  intros p Hp. rewrite negb_bool_decide_false in Hguard1.
  assert (Permutation (rdc_Path <$> rdr_Claims sel) (pp_Name <$> def_PersistentPaths d)) as Hperm.
  { apply submseteq_length_Permutation.
    - apply NoDup_submseteq; [apply Hok|]. intros y ([q r] & -> & Hq)%list_elem_of_fmap.
      apply Hok in Hq. by eapply sok_wanted.
    - rewrite !length_fmap. unfold len in Hguard1. lia. }
  assert (pp_Name p ∈ rdc_Path <$> rdr_Claims sel) as Hin
    by (rewrite Hperm; by apply list_elem_of_fmap_2).
  apply list_elem_of_fmap in Hin as ([q r] & E & Hq). cbn in E. exists r. rewrite E. by apply Hok.
Qed.

Lemma dataClaimName_Ok server game path name : dataClaimName server game path = Ok name ->
  name = server +:+ "-" +:+ game +:+ "-" +:+ path.
Proof. unfold dataClaimName. intros E. ok_inv. by subst. Qed.

Lemma dataClaimName_inj server game p q name :
  dataClaimName server game p = Ok name -> dataClaimName server game q = Ok name -> p = q.
Proof.
  intros E1%dataClaimName_Ok E2%dataClaimName_Ok. subst name. apply (f_equal chars) in E2.
  rewrite !chars_app in E2. do 4 apply app_inv_head in E2. by apply chars_inj.
Qed.

(** The name and the required UID of the claim of one path. *)
Definition claim_target (server : GameServer) (d : GameDefinition)
    (refs : gmap string ExactLocalReference) (path name uid : string) : Prop :=
  match refs !! path with
  | Some r => name = ref_Name r /\ uid = ref_UID r
  | None => dataClaimName (server_Name server) (def_ID d) path = Ok name /\ uid = ""
  end.

Record claims_ok (server : GameServer) (d : GameDefinition) (identity : string)
    (refs : gmap string ExactLocalReference) (done : list PersistentPath)
    (s : list DataClaimPlan * StringMap) : Prop := {
  cok_claims : Forall2 (fun p c => claim_target server d refs (pp_Name p) (claim_object c) (RequiredUID c) /\
    Desired c = buildDataClaim server d (pp_Name p) (claim_object c) identity) done s.1;
  cok_names : forall p, p ∈ done -> exists name uid,
    claim_target server d refs (pp_Name p) name uid /\ s.2 !! pp_Name p = Some name }.

Lemma claim_target_unique server d refs path n1 u1 n2 u2 :
  claim_target server d refs path n1 u1 -> claim_target server d refs path n2 u2 -> n1 = n2 /\ u1 = u2.
Proof. unfold claim_target. destruct (refs !! path); naive_solver congruence. Qed.

Lemma claim_plan_step_ok server d identity refs done p s s' :
  claims_ok server d identity refs done s -> claim_plan_step server d identity refs s p = inr s' ->
  claims_ok server d identity refs (done ++ [p]) s'.
Proof.
  intros [Hc Hn] Hs. destruct s as [claims names]. unfold claim_plan_step in Hs.
  apply planned_bind_inr in Hs as ([name uid] & Ht & [= <-]). cbn [fst snd] in *.
  assert (claim_target server d refs (pp_Name p) name uid) as Htarget.
  { unfold claim_target. destruct (refs !! pp_Name p); [by injection Ht as <- <-|].
    destruct (dataClaimName _ _ _); [by injection Ht as <- <- | done]. }
  split; cbn [fst snd].
  - apply Forall2_app; [done|]. constructor; [|constructor]. by split.
  - intros q [Hq | ->%list_elem_of_singleton]%elem_of_app.
    + destruct (Hn q Hq) as (n & u & Hu & E). exists n, u. split; [done|].
      destruct (decide (pp_Name q = pp_Name p)) as [Ep|Hne]; [|by rewrite lookup_insert_ne].
      rewrite Ep in *. rewrite lookup_insert_eq.
      by destruct (claim_target_unique _ _ _ _ _ _ _ _ Hu Htarget) as [-> _].
    + exists name, uid. split; [done | apply lookup_insert_eq].
Qed.

(** What a successful [Build] ran. *)
Lemma Build_inr script server d plan : Build script server d = inr plan ->
  exists identity refs claims names files,
    validateIntent server d = inr tt /\ retainedDataSelection server d = inr (identity, refs) /\
    claims_ok server d identity refs (def_PersistentPaths d) (claims, names) /\
    RenderSettingsFiles d (gs_Settings (gs_Spec server)) = Ok files /\
    DataClaims plan = claims /\ plan_DataIdentity plan = identity /\
    (if gs_DesiredState (gs_Spec server) == DesiredStateStopped
     then Configuration plan = None /\ Workload plan = None /\ PlayerService plan = None
     else exists image, ResolvedImage (def_ImageRepository d) (gs_ImageDigest (gs_Spec server)) = Ok image /\
       Workload plan = Some (buildWorkload script server d (workloadLabels server) image files
         (server_Name server +:+ "-configuration") names) /\
       PlayerService plan = Some (buildPlayerService server d (workloadLabels server)) /\
       Configuration plan = Some (buildConfiguration server (workloadLabels server) files)).
Proof.
  unfold Build. intros Hb. apply planned_bind_inr in Hb as ([] & Hv & Hb).
  apply planned_bind_inr in Hb as ([identity refs] & Hsel & Hb).
  apply planned_bind_inr in Hb as ([claims names] & Hc & Hb).
  apply planned_bind_inr in Hb as (files & Hf%classify_inr & Hb).
  exists identity, refs, claims, names, files.
  assert (claims_ok server d identity refs ([] ++ def_PersistentPaths d) (claims, names)) as Hok.
  { apply (for_planned_invariant (claim_plan_step server d identity refs)
      (claims_ok server d identity refs)) with ([], ∅); [| |exact Hc].
    - intros; by eapply claim_plan_step_ok.
    - split; [constructor|]. intros p Hp. by apply not_elem_of_nil in Hp. }
  destruct (gs_DesiredState (gs_Spec server) == DesiredStateStopped).
  - injection Hb as <-. by split_and!.
  - apply planned_bind_inr in Hb as (image & Hi%classify_inr & [= <-]). split_and!; try done.
    by exists image.
Qed.

Lemma validateIntent_valid server d : validateIntent server d = inr tt ->
  Validate d = Ok tt /\ server_UID server <> "" /\ gs_Game (gs_Spec server) = def_ID d /\
  (gs_DesiredState (gs_Spec server) = DesiredStateRunning \/
   gs_DesiredState (gs_Spec server) = DesiredStateStopped) /\
  (exists image, ResolvedImage (def_ImageRepository d) (gs_ImageDigest (gs_Spec server)) = Ok image).
Proof.
  unfold validateIntent. intros Hv.
  repeat (planned_step; try discriminate). destruct x. rewrite negb_bool_decide_false in Hguard2.
  rewrite bool_decide_eq_false in Hguard1. split_and!; eauto. bool_prop. done.
Qed.

Lemma Validate_path_names d : Validate d = Ok tt -> NoDup (pp_Name <$> def_PersistentPaths d).
Proof.
  intros (_ & _ & _ & _ & Hp & _)%Validate_parts. by apply validatePersistentPaths_ok in Hp as (_ & ? & _).
Qed.

(** Distinct paths get distinct claims. *)
Lemma claim_target_inj server d identity refs p q name u v :
  Validate d = Ok tt -> retainedDataSelection server d = inr (identity, refs) ->
  p ∈ def_PersistentPaths d -> q ∈ def_PersistentPaths d ->
  claim_target server d refs (pp_Name p) name u -> claim_target server d refs (pp_Name q) name v ->
  pp_Name p = pp_Name q.
Proof.
  intros Hv Hret Hp Hq Ht1 Ht2. unfold claim_target in *.
  destruct (selected_data server) as [sel|] eqn:Es.
  - destruct (retainedDataSelection_inr _ _ _ _ _ Hret Es (Validate_path_names _ Hv))
      as (_ & _ & Hall & s & Hok & ->).
    destruct (Hall p Hp) as [r Er], (Hall q Hq) as [r' Er']. rewrite Er, Er' in *.
    destruct Ht1 as [-> _], Ht2 as [En _]. apply (sok_names _ _ _ Hok) in Er, Er'. congruence.
  - unfold retainedDataSelection in Hret. rewrite Es in Hret.
    destruct (DataIdentity _); [|done]. injection Hret as <- <-. rewrite !lookup_empty in *.
    destruct Ht1 as [E1 _], Ht2 as [E2 _]. by eapply dataClaimName_inj.
Qed.

Lemma claim_path_built server d identity c path :
  Desired c = buildDataClaim server d path (claim_object c) identity -> claim_path c = path.
Proof. intros E. unfold claim_path. by rewrite E. Qed.

Lemma claims_paths server d identity refs paths claims names :
  claims_ok server d identity refs paths (claims, names) ->
  claim_path <$> claims = pp_Name <$> paths /\
  forall c, c ∈ claims -> exists p, p ∈ paths /\
    claim_target server d refs (pp_Name p) (claim_object c) (RequiredUID c) /\
    Desired c = buildDataClaim server d (pp_Name p) (claim_object c) identity.
Proof.
  intros [HF _]. cbn [fst] in HF. split.
  - induction HF as [|p c ps cs [_ E] HF IH]; [done|]. rewrite !fmap_cons, IH.
    by rewrite (claim_path_built _ _ _ _ _ E).
  - intros c Hc. apply list_elem_of_lookup in Hc as [i Hi].
    destruct (Forall2_lookup_r _ _ _ _ _ HF Hi) as (p & Hp & Ht & E). exists p.
    split; [by eapply list_elem_of_lookup_2 | done].
Qed.

Lemma claims_distinct server d identity refs claims names :
  Validate d = Ok tt -> retainedDataSelection server d = inr (identity, refs) ->
  claims_ok server d identity refs (def_PersistentPaths d) (claims, names) ->
  NoDup (claim_object <$> claims).
Proof.
  intros Hv Hret [HF _]. cbn [fst] in HF.
  apply NoDup_alt. intros i j name Hi Hj. rewrite list_lookup_fmap in Hi, Hj.
  destruct (claims !! i) as [c|] eqn:Ei, (claims !! j) as [c'|] eqn:Ej; try done.
  injection Hi as E1. injection Hj as E2.
  destruct (Forall2_lookup_r _ _ _ _ _ HF Ei) as (p & Hp & Ht & _).
  destruct (Forall2_lookup_r _ _ _ _ _ HF Ej) as (p' & Hp' & Ht' & _). rewrite E1 in Ht. rewrite E2 in Ht'.
  assert (pp_Name p = pp_Name p') as En
    by (eapply claim_target_inj; eauto using list_elem_of_lookup_2).
  pose proof (Validate_path_names _ Hv) as Hnd. rewrite NoDup_alt in Hnd.
  apply (Hnd i j (pp_Name p)); rewrite list_lookup_fmap; [by rewrite Hp | by rewrite Hp', En].
Qed.

(** C31: the data claims of a plan are exactly the adapter's persistent paths,
    in order, on pairwise distinct claims in the server's namespace that no
    owner reference can garbage-collect.  With a selected data set every claim
    is one of its claims and requires that claim's UID; without one every claim
    is the server's own and requires none. *)
Theorem Build_claims_exact script server d plan (Hb : Build script server d = inr plan) :
  claim_path <$> DataClaims plan = pp_Name <$> def_PersistentPaths d /\
  NoDup (claim_object <$> DataClaims plan) /\
  (forall c, c ∈ DataClaims plan ->
    om_OwnerReferences (pvc_meta (Desired c)) = [] /\
    om_Namespace (pvc_meta (Desired c)) = server_Namespace server /\
    mget (om_Labels (pvc_meta (Desired c))) LabelDataPolicy = "retain" /\
    mget (om_Labels (pvc_meta (Desired c))) LabelDataIdentity = plan_DataIdentity plan) /\
  match selected_data server with
  | None => forall c, c ∈ DataClaims plan -> RequiredUID c = ""
  | Some sel => plan_DataIdentity plan = rdr_Identity sel /\
      forall c, c ∈ DataClaims plan -> RequiredUID c <> "" /\
        MkClaimRef (claim_path c) (MkRef None (claim_object c) (RequiredUID c)) ∈ rdr_Claims sel
  end.
Proof.
  destruct (Build_inr _ _ _ _ Hb) as (identity & refs & claims & names & files & Hvi & Hret & Hok & _ &
    Hclaims & Hid & _). rewrite Hclaims, Hid.
  destruct (validateIntent_valid _ _ Hvi) as (Hv & _).
  destruct (claims_paths _ _ _ _ _ _ _ Hok) as [Hpaths Hall].
  split_and!; [done | by eapply claims_distinct | |].
  - intros c Hc. destruct (Hall c Hc) as (p & _ & _ & ->). by split_and!.
  - destruct (selected_data server) as [sel|] eqn:Es.
    + destruct (retainedDataSelection_inr _ _ _ _ _ Hret Es (Validate_path_names _ Hv))
        as (Eid & _ & Href & s & Hsel & Hs). split; [done|].
      intros c Hc. destruct (Hall c Hc) as (p & Hp & Ht & E). rewrite (claim_path_built _ _ _ _ _ E).
      destruct (Href p Hp) as [r Er]. unfold claim_target in Ht. rewrite Er in Ht.
      destruct Ht as [-> ->]. rewrite Hs in Er.
      destruct (sok_complete _ _ _ Hsel _ _ Er) as (Hns & _ & Hu). split; [done|].
      apply (sok_exact _ _ _ Hsel) in Er. destruct r. cbn in *. by subst.
    + intros c Hc. destruct (Hall c Hc) as (p & _ & Ht & _). unfold claim_target in Ht.
      unfold retainedDataSelection in Hret. rewrite Es in Hret.
      destruct (DataIdentity _); [|done]. injection Hret as <- <-. rewrite lookup_empty in Ht. naive_solver.
Qed.

(** The same server with another desired state. *)
Definition with_desired (server : GameServer) (state : DesiredState) : GameServer :=
  let spec := gs_Spec server in
  MkGameServer (gs_meta server)
    (MkGameServerSpec (gs_Game spec) (gs_ImageDigest spec) state (gs_Compute spec) (gs_Storage spec)
       (gs_Settings spec)) (gs_Status server).

Lemma validateIntent_stopped server d : validateIntent server d = inr tt ->
  validateIntent (with_desired server DesiredStateStopped) d = inr tt.
Proof.
  intros Hv. pose proof (validateIntent_valid _ _ Hv) as (_ & _ & _ & Hd & _).
  destruct server as [meta [game digest state compute storage settings] status].
  cbn in Hd. destruct Hd as [-> | ->]; exact Hv.
Qed.

(** Stopping a server never touches its data: whenever a server's plan can
    be built, the plan of the same server stopped can be too; it has the same
    data claims, identity and reattachment, and no runtime object at all. *)
Theorem Build_stop_keeps_data script server d plan (Hb : Build script server d = inr plan) :
  Build script (with_desired server DesiredStateStopped) d =
    inr (MkPlan (DataClaims plan) (plan_DataIdentity plan) (plan_Reattach plan) None None None).
Proof.
  unfold Build in *. apply planned_bind_inr in Hb as ([] & Hv & Hb).
  rewrite (validateIntent_stopped _ _ Hv). cbn [mbind planned_bind].
  apply planned_bind_inr in Hb as ([identity refs] & Hret & Hb).
  change (retainedDataSelection (with_desired server DesiredStateStopped) d)
    with (retainedDataSelection server d). rewrite Hret. cbn [mbind planned_bind].
  apply planned_bind_inr in Hb as ([claims names] & Hc & Hb).
  change (claim_plan_step (with_desired server DesiredStateStopped) d identity refs)
    with (claim_plan_step server d identity refs). rewrite Hc. cbn [mbind planned_bind].
  apply planned_bind_inr in Hb as (files & Hf & Hb).
  change (gs_Settings (gs_Spec (with_desired server DesiredStateStopped)))
    with (gs_Settings (gs_Spec server)). rewrite Hf. cbn [mbind planned_bind].
  rewrite bool_decide_eq_true_2 by done.
  destruct (gs_DesiredState (gs_Spec server) == DesiredStateStopped); [by injection Hb as <-|].
  apply planned_bind_inr in Hb as (image & _ & [= <-]). done.
Qed.

(** ** What the workload exposes *)

Definition exposed (d : GameDefinition) (e : Endpoint) : Prop :=
  e ∈ def_Endpoints d /\ ep_Scope e = ScopePlayer.

Lemma player_endpoints_exposed d e : e ∈ player_endpoints d <-> exposed d e.
Proof. unfold player_endpoints, exposed. rewrite list_elem_of_filter. tauto. Qed.

(** Container ports are [uint16] in the adapter, so the conversion keeps them. *)
Lemma port_int32 p : (0 <= p < 65536)%Z -> int32 p = p.
Proof. intros. apply int32_small. unfold in_int32. lia. Qed.

Lemma readinessProbe_player d n : Validate d = Ok tt -> readinessProbe d = Some (ProbeTCPSocket n) ->
  exists e, exposed d e /\ ep_Name e = n /\ ep_Protocol e = ProtocolTCP.
Proof.
  intros Hv Hp. apply validated_readiness in Hv as [[E _] | (e & Hin & En & Hproto & Hm)];
    unfold readinessProbe in Hp.
  - rewrite E in Hp. done.
  - destruct (def_ReadinessEndpoint d != ""); [|done].
    destruct Hm as [[Em Hs] | [Em _]]; rewrite Em in Hp; [|done]. injection Hp as <-.
    exists e. by split_and!.
Qed.

(** The volume of a path is backed by that path's claim. *)
Lemma volume_claim server d identity refs claims names p :
  claims_ok server d identity refs (def_PersistentPaths d) (claims, names) ->
  p ∈ def_PersistentPaths d ->
  exists c, c ∈ claims /\ claim_path c = pp_Name p /\ mget names (pp_Name p) = claim_object c.
Proof.
  intros [HF Hn] Hp. cbn [fst snd] in *. destruct (Hn p Hp) as (name & uid & Ht & E).
  apply list_elem_of_lookup in Hp as [i Hi]. destruct (Forall2_lookup_l _ _ _ _ _ HF Hi) as (c & Hc & Ht' & Ed).
  exists c. split; [by eapply list_elem_of_lookup_2|]. split; [by eapply claim_path_built|].
  unfold mget. rewrite E. by destruct (claim_target_unique _ _ _ _ _ _ _ _ Ht Ht') as [-> _].
Qed.

Lemma validated_identity d : Validate d = Ok tt -> (0 < UserID (def_RuntimeIdentity d))%Z.
Proof.
  intros (_ & _ & _ & _ & _ & Hr & _)%Validate_parts. unfold validateRuntimeIdentity in Hr.
  destruct (_ || _)%bool eqn:E; [done|]. apply orb_false_iff in E as [E _]. lia.
Qed.

(** A running server exposes nothing but its player endpoints: every
    container port, service port and TCP probe is a player endpoint's; every
    persistent volume is backed by the plan's claim for its own path; and the
    pod runs as a non-root user without a service-account token. *)
Theorem Build_exposure script server d plan w svc
  (Hb : Build script server d = inr plan) (Hw : Workload plan = Some w)
  (Hs : PlayerService plan = Some svc)
  (Hports : Forall (fun e => 0 <= ep_ContainerPort e < 65536)%Z (def_Endpoints d)) :
  let pod := dep_PodSpec w in
  (forall con port, con ∈ pod_InitContainers pod ++ pod_Containers pod -> port ∈ con_Ports con ->
    exists e, exposed d e /\ port_Name port = ep_Name e /\ port_ContainerPort port = ep_ContainerPort e) /\
  (forall port, port ∈ svc_Ports svc ->
    exists e, exposed d e /\ sp_TargetPort port = ep_Name e /\ sp_Port port = ep_ContainerPort e) /\
  (forall con n, con ∈ pod_InitContainers pod ++ pod_Containers pod ->
    con_ReadinessProbe con = Some (ProbeTCPSocket n) -> exists e, exposed d e /\ ep_Name e = n) /\
  (forall v n ro, v ∈ pod_Volumes pod -> vol_Source v = VolumePersistentVolumeClaim n ro ->
    exists c, c ∈ DataClaims plan /\ claim_path c = vol_Name v /\ claim_object c = n) /\
  RunAsNonRoot (pod_SecurityContext pod) = Some true /\
  AutomountServiceAccountToken pod = Some false /\
  exists u, RunAsUser (pod_SecurityContext pod) = Some u /\ (0 < u)%Z.
Proof.
  destruct (Build_inr _ _ _ _ Hb) as (identity & refs & claims & names & files & Hvi & _ & Hok & _ &
    Hclaims & _ & Hrun). destruct (validateIntent_valid _ _ Hvi) as (Hv & _).
  rewrite Hw, Hs in Hrun. destruct (_ == _); [naive_solver|].
  destruct Hrun as (image & _ & [= ->] & [= ->] & _). rewrite Hclaims. rewrite list.Forall_forall in Hports.
  assert (forall e, e ∈ player_endpoints d -> exposed d e /\ int32 (ep_ContainerPort e) = ep_ContainerPort e) as He.
  { intros e He%player_endpoints_exposed. split; [done|]. apply port_int32, Hports, He. }
  cbn [dep_PodSpec buildWorkload pod_InitContainers pod_Containers pod_Volumes pod_SecurityContext
       RunAsNonRoot RunAsUser AutomountServiceAccountToken svc_Ports buildPlayerService].
  split_and!; try done.
  - intros con port [-> %list_elem_of_singleton | ->%list_elem_of_singleton]%elem_of_app; cbn [con_Ports].
    + by intros ?%not_elem_of_nil.
    + intros (e & -> & Hin)%list_elem_of_fmap. exists e. destruct (He e Hin). by split_and!.
  - intros port (e & -> & Hin)%list_elem_of_fmap. exists e. destruct (He e Hin). by split_and!.
  - intros con n [->%list_elem_of_singleton | ->%list_elem_of_singleton]%elem_of_app; cbn [con_ReadinessProbe];
      [done|]. intros (e & ? & ? & _)%readinessProbe_player; eauto.
  - intros v n ro [(p & -> & Hp)%list_elem_of_fmap | ->%list_elem_of_singleton]%elem_of_app; [|done].
    cbn. intros [= <- _]. destruct (volume_claim _ _ _ _ _ _ _ Hok Hp) as (c & ? & ? & ->). eauto.
  - exists (UserID (def_RuntimeIdentity d)). split; [done | by apply validated_identity].
Qed.

(** ** Failures *)

(** Every failure carries a public category. *)
Definition classified {A} (r : planned A) : Prop :=
  match r with inl (OtherError _) => False | _ => True end.

Lemma classified_bind {A B} (r : planned A) (f : A -> planned B) :
  classified r -> (forall a, r = inr a -> classified (f a)) -> classified (r ≫= f).
Proof. destruct r as [[]|a]; cbn; intros; auto. Qed.
Lemma classified_classify {A} c w (r : result A) : classified (classify c w r).
Proof. by destruct r. Qed.
Lemma classified_loop {A S} (body : S -> A -> planned S) l s :
  (forall s x, x ∈ l -> classified (body s x)) -> classified (for_planned body s l).
Proof.
  revert s. induction l as [|x l IH]; intros s Hall; cbn; [done|].
  specialize (Hall s x) as Hx. destruct (body s x) as [[]|s'] eqn:E; cbn; try done.
  - apply Hx. by left.
  - apply IH. intros s1 y Hy. apply Hall. by right.
Qed.

Lemma validateIntent_classified server d : classified (validateIntent server d).
Proof.
  unfold validateIntent.
  repeat match goal with
  | |- classified (if ?b then _ else _) => destruct b
  | |- classified (refuse _ _) => exact I
  | |- classified (_ ≫= _) => apply classified_bind; [|intros ? _]
  | |- classified (classify _ _ _) => apply classified_classify
  | |- classified (match ?o with Some _ => _ | None => _ end) => destruct o
  | |- classified (Planned _) => exact I
  | |- classified (for_planned _ _ _) => apply classified_loop; intros ? ? _
  end.
Qed.

Lemma selection_step_classified wanted s c : classified (selection_step wanted s c).
Proof.
  unfold selection_step. repeat match goal with |- classified (if ?b then _ else _) => destruct b; [exact I|] end.
  by destruct (sel_names s !! ref_Name (rdc_ClaimRef c)), (sel_uids s !! ref_UID (rdc_ClaimRef c)).
Qed.

Lemma retainedDataSelection_classified server d : server_UID server <> "" ->
  classified (retainedDataSelection server d).
Proof.
  intros Hu. unfold retainedDataSelection. destruct (selected_data server) as [sel|].
  - repeat match goal with |- classified (if ?b then _ else _) => destruct b; [exact I|] end.
    apply classified_bind; [|done]. apply classified_loop. intros; apply selection_step_classified.
  - unfold DataIdentity. by rewrite bool_decide_eq_false_2.
Qed.

(** Validation has already checked the generated claim names. *)
Lemma validateIntent_names server d p : validateIntent server d = inr tt -> p ∈ def_PersistentPaths d ->
  exists name, dataClaimName (server_Name server) (def_ID d) (pp_Name p) = Ok name.
Proof.
  unfold validateIntent. intros Hv Hp. repeat (planned_step; try discriminate).
  clear -Hv Hp. induction (def_PersistentPaths d) as [|q l IH]; [by apply not_elem_of_nil in Hp|].
  cbn [for_planned] in Hv. destruct (pp_Name q == _); [done|].
  destruct (dataClaimName _ _ (pp_Name q)) as [n|] eqn:E; [|done]. cbn in Hv.
  apply elem_of_cons in Hp as [-> | Hp]; eauto.
Qed.

(** Every failure to plan is classified: [Build] never returns an error
    outside the public validation categories, because what its later steps
    could still refuse was already checked. *)
Theorem Build_errors_classified script server d e (Hb : Build script server d = inl e) :
  exists category cause, e = ValidationError category cause.
Proof.
  assert (classified (Build script server d)) as Hc.
  { unfold Build. apply classified_bind; [apply validateIntent_classified|]. intros [] Hv.
    apply classified_bind.
    { apply retainedDataSelection_classified. by destruct (validateIntent_valid _ _ Hv) as (_ & ? & _). }
    intros [identity refs] _. apply classified_bind.
    - apply classified_loop. intros [claims names] p Hp. unfold claim_plan_step.
      apply classified_bind; [|by intros [] _]. destruct (refs !! pp_Name p); [done|].
      by destruct (validateIntent_names _ _ p Hv Hp) as [n ->].
    - intros [claims names] _. apply classified_bind; [apply classified_classify|]. intros files _.
      destruct (_ == _); [done|]. apply classified_bind; [apply classified_classify | done]. }
  rewrite Hb in Hc. destruct e as [category cause|]; [eauto | done].
Qed.
End PlanTheorems.

(** ** A concrete plan *)

(** A schema library that accepts every document. *)
Definition sample_schemas : JsonSchema := {|
  Document := unit; Compiler := unit; Schema := unit;
  UnmarshalJSON _ := Ok tt; NewCompiler := tt; AddResource _ _ _ := Ok tt;
  CompileSchema _ _ := Ok tt; SchemaValidate _ _ := Ok tt |}.

Definition sample_meta : ObjectMeta :=
  MkObjectMeta "alpha" "arcade" "uid-alpha" 3 "77" 10 None [] ∅ ∅ [].
Definition sample_server (selection : option RetainedDataReference) : GameServer :=
  MkGameServer sample_meta
    (MkGameServerSpec "factorio" sample_image_digest DesiredStateRunning
       (MkCompute 1000000 2000000 1000 2000) (MkStorage 5000 None selection) "{}")
    (MkGameServerStatus 0 None None PhaseUnset [] []).
Definition sample_selection : RetainedDataReference :=
  MkDataRef "data-old" [MkClaimRef "world" (MkRef None "old-claim" "old-uid")].

Definition sample_plan (selection : option RetainedDataReference) : planned Plan :=
  @Build "script" sample_engine rfc1123 sample_schemas (sample_server selection) sample_definition.
Definition planned_or {A} (a : A) (r : planned A) : A := match r with inr x => x | inl _ => a end.
Definition empty_plan : Plan := MkPlan [] "" false None None None.
Definition sample_plan_value : Plan := planned_or empty_plan (sample_plan (Some sample_selection)).

Example sample_selected_names : claim_object <$> DataClaims sample_plan_value = ["old-claim"].
Proof. vm_compute. done. Qed.
Example sample_fresh_names :
  claim_object <$> DataClaims (planned_or empty_plan (sample_plan None)) = ["alpha-factorio-world"].
Proof. vm_compute. done. Qed.

Lemma Build_claims_exact_witness :
  claim_path <$> DataClaims sample_plan_value = ["world"] /\
  NoDup (claim_object <$> DataClaims sample_plan_value).
Proof.
  destruct (@Build_claims_exact sample_engine rfc1123 sample_schemas "script"
    (sample_server (Some sample_selection)) sample_definition sample_plan_value) as (H1 & H2 & _).
  - vm_compute. reflexivity.
  - split; [exact H1 | exact H2].
Defined.

Lemma Build_stop_keeps_data_witness :
  @Build "script" sample_engine rfc1123 sample_schemas
    (with_desired (sample_server (Some sample_selection)) DesiredStateStopped) sample_definition =
  inr (MkPlan (DataClaims sample_plan_value) (plan_DataIdentity sample_plan_value)
         (plan_Reattach sample_plan_value) None None None).
Proof. apply Build_stop_keeps_data. vm_compute. reflexivity. Defined.

Lemma Build_exposure_witness : exists w, Workload sample_plan_value = Some w /\
  RunAsNonRoot (pod_SecurityContext (dep_PodSpec w)) = Some true.
Proof.
  destruct (Workload sample_plan_value) as [w|] eqn:Ew; [|vm_compute in Ew; discriminate].
  destruct (PlayerService sample_plan_value) as [svc|] eqn:Es; [|vm_compute in Es; discriminate].
  exists w. split; [reflexivity|].
  apply (@Build_exposure sample_engine rfc1123 sample_schemas "script"
    (sample_server (Some sample_selection)) sample_definition sample_plan_value w svc).
  - vm_compute. reflexivity.
  - exact Ew.
  - exact Es.
  - cbn. repeat constructor; cbn; lia.
Defined.

Lemma Build_errors_classified_witness : exists e category cause,
  @Build "script" sample_engine rfc1123 sample_schemas
    (sample_server (Some (MkDataRef "data-old" []))) sample_definition = inl e /\
  e = ValidationError category cause.
Proof.
  destruct (@Build "script" sample_engine rfc1123 sample_schemas
    (sample_server (Some (MkDataRef "data-old" []))) sample_definition) as [e|] eqn:E;
    [|vm_compute in E; discriminate].
  destruct (@Build_errors_classified sample_engine rfc1123 sample_schemas _ _ _ _ E) as (c & cause & Hc).
  exists e, c, cause. split; [reflexivity | exact Hc].
Defined.
