(* ===== verification/KubeApi.v ===== *)
(** * Programs over the Kubernetes API

    A controller is a program that reads and writes API objects, asks the
    clock and draws random bytes.  [prog] is the type of such programs: a tree
    of [request]s, each continued with the response.  Nothing is assumed of
    the responses: [steps p es a] says that [p] can return [a] after the
    requests and responses [es], whatever the API server answered, so a
    theorem over all [steps] holds whatever other clients do between two calls
    and whichever calls fail.  A [prog] is a finite tree, so every controller
    written in it issues finitely many requests and returns.  [run] executes a
    program against a given environment. *)

From Stdlib Require Import Ascii.
From stdpp Require Import base tactics list strings gmap numbers.
From S2P Require Import Prelude ApiTypes KubeObjects.
(** ** Requests *)

Record NamespacedName := Key { key_Namespace : string; key_Name : string }.
#[export] Instance NamespacedName_eq_dec : EqDecision NamespacedName.
Proof. solve_decision. Defined.

(** An API error, as far as the controllers look: the reason of its status,
    by which [apierrors.IsNotFound] and [apierrors.IsAlreadyExists] tell. *)
Inductive apierr := NotFound | ApiError (reason : string).
Definition IsNotFound (e : apierr) : bool := match e with NotFound => true | _ => false end.
Definition IsAlreadyExists (e : apierr) : bool :=
  match e with ApiError reason => bool_decide (reason = "AlreadyExists"%string) | NotFound => false end.

(** The kinds of objects the controllers use, with the type that holds them.
    A Secret is read as [PartialObjectMetadata] only. *)
Inductive kind : Type -> Type :=
| KGameDestroy : kind GameDestroy
| KGameBackup : kind GameBackup
| KGameRestore : kind GameRestore
| KGameServer : kind GameServer
| KPersistentVolumeClaim : kind PersistentVolumeClaim
| KPersistentVolume : kind PersistentVolume
| KSecretMetadata : kind ObjectMeta
| KPod : kind Pod
| KVolumeAttachment : kind VolumeAttachment
| KLease : kind Lease
| KJob : kind Job
| KConfigMap : kind ConfigMap
| KServiceAccount : kind ServiceAccount
| KRole : kind Role
| KRoleBinding : kind RoleBinding
| KDeployment : kind Deployment
| KReplicaSet : kind ReplicaSet
| KService : kind Service
| KArcadeOperation : kind ArcadeOperation.

Definition attachment_meta : ObjectMeta := new_meta "" "" ∅ [].
(** [client.Object]'s metadata accessors. *)
Definition object_meta {A} (k : kind A) : A -> ObjectMeta :=
  match k with
  | KGameDestroy => gd_meta
  | KGameBackup => gb_meta
  | KGameRestore => gr_meta
  | KGameServer => gs_meta
  | KPersistentVolumeClaim => pvc_meta
  | KPersistentVolume => pvol_meta
  | KSecretMetadata => fun m => m
  | KPod => pod_meta
  | KVolumeAttachment => fun _ => attachment_meta
  | KLease => ls_meta
  | KJob => job_meta
  | KConfigMap => cm_meta
  | KServiceAccount => sa_meta
  | KRole => role_meta
  | KRoleBinding => rb_meta
  | KDeployment => dep_meta
  | KReplicaSet => rset_meta
  | KService => svc_meta
  | KArcadeOperation => ao_meta
  end.

(** [client.Client] reads through a cache; an [APIReader] does not. *)
Inductive Reader := CachedReader | UncachedReader.

Record DeleteOptions := MkDeleteOptions {
  pre_UID : option string;
  pre_ResourceVersion : option string;
  PropagationPolicy : option string }.

(** A list response: its items and whether the server left any out. *)
Record object_list (A : Type) := MkList {
  Items : list A;
  list_Continue : string;
  RemainingItemCount : option Z }.
Arguments MkList {A} _ _ _.
Arguments Items {A} _.
Arguments list_Continue {A} _.
Arguments RemainingItemCount {A} _.

(** One operation of a JSON patch, with the values the controllers send: a
    text, a map of strings, a server specification or a boolean. *)
Inductive patch_value :=
| PatchText (s : string) | PatchMap (m : StringMap) | PatchServerSpec (s : GameServerSpec) | PatchBool (b : bool).
Record operationJSONPatch := MkJSONPatch { jp_Op : string; jp_Path : string; jp_Value : patch_value }.

(** [Create] and [Apply] fill their argument with the object as stored, so
    their response holds it. *)
Inductive request : Type -> Type :=
| ApiGet {A} (k : kind A) (reader : Reader) (key : NamespacedName) : request (apierr + A)
| ApiList {A} (k : kind A) (reader : Reader) (namespace : option string) (labels : StringMap) :
    request (apierr + object_list A)
| ApiCreate {A} (k : kind A) (object : A) : request (apierr + A)
| ApiUpdate {A} (k : kind A) (object : A) : request (option apierr)
| ApiUpdateStatus {A} (k : kind A) (object : A) : request (option apierr)
| ApiApply {A} (k : kind A) (object : A) : request (apierr + A)
| ApiMergePatch {A} (k : kind A) (original updated : A) : request (option apierr)
| ApiDelete {A} (k : kind A) (object : A) (options : DeleteOptions) : request (option apierr)
| ClockNow : request Time
| RandRead (n : Z) : request (option (list ascii))
| ApiJSONPatch {A} (k : kind A) (object : A) (patches : list operationJSONPatch) : request (apierr + A).

Inductive event : Type :=
| Ev {R : Type} (q : request R) (r : R).

(** ** Programs *)

Inductive prog (A : Type) : Type :=
| Ret (a : A)
| Call {R : Type} (q : request R) (k : R -> prog A).
Arguments Ret {A} _.
Arguments Call {A R} _ _.

Fixpoint prog_bind {A B} (f : A -> prog B) (p : prog A) : prog B :=
  match p with Ret a => f a | Call q k => Call q (fun r => prog_bind f (k r)) end.
#[export] Instance prog_mret : MRet prog := @Ret.
#[export] Instance prog_mbind : MBind prog := @prog_bind.
Definition call {R} (q : request R) : prog R := Call q Ret.

(** [for _, x := range l { ... }] whose body may return from the function. *)
Fixpoint loop {A R} (body : A -> prog (option R)) (l : list A) : prog (option R) :=
  match l with
  | [] => Ret None
  | x :: rest => r ← body x; match r with Some v => Ret (Some v) | None => loop body rest end
  end.

(** The same with local variables, for a body that returns only with an error. *)
Fixpoint loop_state {A S} (body : S -> A -> prog (result S)) (s : S) (l : list A) : prog (result S) :=
  match l with
  | [] => Ret (Ok s)
  | x :: rest => r ← body s x; match r with Ok s' => loop_state body s' rest | Err e => Ret (Err e) end
  end.

(** ** What a reconciler returns *)

(** An error a reconciler hands back: an API error as it is, one of its own, or
    one wrapped by [fmt.Errorf("...: %w", err)], or two joined by [errors.Join]. *)
Inductive cerror := FromApi (e : apierr) | FromGo (e : error) | WrapError (m : string) (e : cerror)
| JoinErrors (e e' : cerror).

(** [errors.New(m)], returned. *)
Definition go_error (m : string) : cerror := FromGo (ErrorsNew m).

(** [ctrl.Result]; durations are in nanoseconds. *)
Record ctrl_Result := MkCtrlResult { Requeue : bool; RequeueAfter : Z }.
Definition no_requeue : ctrl_Result := MkCtrlResult false 0.
Definition requeue : ctrl_Result := MkCtrlResult true 0.
Definition requeue_after (t : Z) : ctrl_Result := MkCtrlResult false t.
Definition second : Z := (10 ^ 9)%Z.
Definition minute : Z := (60 * second)%Z.
Abbreviation outcome := (ctrl_Result * option cerror)%type.
(** [x, err := p; if err != nil { return err }; k x] *)
Definition bind_error {A B} (p : prog (cerror + A)) (k : A -> prog (cerror + B)) : prog (cerror + B) :=
  x ← p; match x with inl e => Ret (inl e) | inr a => k a end.

(** ** Executions *)

Fixpoint steps {A} (p : prog A) (es : list event) (a : A) : Prop :=
  match p with
  | Ret b => es = [] /\ a = b
  | Call q k => exists r es', es = Ev q r :: es' /\ steps (k r) es' a
  end.

Definition environment : Type := forall R, list event -> request R -> R.
Fixpoint run {A} (env : environment) (past : list event) (p : prog A) : list event * A :=
  match p with
  | Ret a => ([], a)
  | Call q k =>
      let r := env _ past q in
      let '(es, a) := run env (past ++ [Ev q r]) (k r) in (Ev q r :: es, a)
  end.

Lemma run_steps {A} env past (p : prog A) : steps p (run env past p).1 (run env past p).2.
Proof.
  revert past. induction p as [a|R q k IH]; intros past; cbn; [done|].
  specialize (IH (env R past q) (past ++ [Ev q (env R past q)])).
  destruct (run env (past ++ [Ev q (env R past q)]) (k (env R past q))) as [es a].
  cbn in *. eauto.
Qed.

Lemma steps_bind {A B} (p : prog A) (f : A -> prog B) es b :
  steps (p ≫= f) es b <->
  exists es1 es2 a, es = es1 ++ es2 /\ steps p es1 a /\ steps (f a) es2 b.
Proof.
  revert es. induction p as [a|R q k IH]; intros es; cbn.
  - split; [intros H; by exists [], es, a|]. by intros (es1 & es2 & a' & -> & [-> ->] & H).
  - split.
    + intros (r & es' & -> & H). apply IH in H as (es1 & es2 & a & -> & H1 & H2).
      exists (Ev q r :: es1), es2, a. split; [done|]. split; [eauto | done].
    + intros (es1 & es2 & a & -> & (r & es1' & -> & H1) & H2).
      exists r, (es1' ++ es2). split; [done|]. apply IH. eauto 6.
Qed.

Lemma steps_call {R} (q : request R) es r : steps (call q) es r <-> es = [Ev q r].
Proof.
  cbn. split; [intros (r' & es' & -> & -> & ->); done | intros ->; eauto].
Qed.

(** ** Predicates on what a program emits *)

Definition emits {A} (P : event -> Prop) (p : prog A) : Prop := forall es a, steps p es a -> Forall P es.

Lemma emits_ret {A} P (a : A) : emits P (Ret a).
Proof. by intros es b [-> _]. Qed.
Lemma emits_call {R} (P : event -> Prop) (q : request R) : (forall r, P (Ev q r)) -> emits P (call q).
Proof. intros HP es r ->%steps_call. constructor; [apply HP | constructor]. Qed.
Lemma emits_bind {A B} P (p : prog A) (f : A -> prog B) :
  emits P p -> (forall a, emits P (f a)) -> emits P (p ≫= f).
Proof.
  intros Hp Hf es b (es1 & es2 & a & -> & H1 & H2)%steps_bind. apply Forall_app. split; [by eapply Hp | by eapply Hf].
Qed.
Lemma emits_loop {A R} P (body : A -> prog (option R)) l :
  (forall x, emits P (body x)) -> emits P (loop body l).
Proof.
  intros Hb. induction l as [|x l IH]; cbn; [apply emits_ret|].
  apply emits_bind; [apply Hb|]. intros [v|]; [apply emits_ret | apply IH].
Qed.
Lemma emits_loop_state {A S} P (body : S -> A -> prog (result S)) s l :
  (forall s x, emits P (body s x)) -> emits P (loop_state body s l).
Proof.
  intros Hb. revert s. induction l as [|x l IH]; intros s; cbn; [apply emits_ret|].
  apply emits_bind; [apply Hb|]. intros [s'|e]; [apply IH | apply emits_ret].
Qed.
Lemma emits_weaken {A} (P Q : event -> Prop) (p : prog A) :
  (forall e, P e -> Q e) -> emits P p -> emits Q p.
Proof. intros HPQ Hp es a H. eapply Forall_impl; [exact HPQ | by eapply Hp]. Qed.

Create HintDb emits discriminated.
#[export] Hint Resolve emits_ret emits_call emits_bind emits_loop emits_loop_state : emits.
(** [emits_tac] walks through a program, case by case, and leaves the side
    conditions on its requests. *)
Ltac emits_step :=
  match goal with
  | |- emits _ (Ret _) => apply emits_ret
  | |- emits _ (mret _) => apply emits_ret
  | |- emits _ (call _) => apply emits_call; intros ?
  | |- emits _ (_ ≫= _) => apply emits_bind; [|intros ?]
  | |- emits _ (loop _ _) => apply emits_loop; intros ?
  | |- emits _ (loop_state _ _ _) => apply emits_loop_state; intros ? ?
  | |- emits _ (if ?b then _ else _) => destruct b eqn:?
  | |- emits _ (match ?x with _ => _ end) => destruct x eqn:?
  end.
Ltac emits_tac := repeat emits_step; try done.

(** ** What an event is *)

(** The API objects an event writes, by kind. *)
Definition is_write (e : event) : bool :=
  match e with
  | Ev (ApiCreate _ _) _ | Ev (ApiUpdate _ _) _ | Ev (ApiUpdateStatus _ _) _
  | Ev (ApiApply _ _) _ | Ev (ApiMergePatch _ _ _) _ | Ev (ApiDelete _ _ _) _
  | Ev (ApiJSONPatch _ _ _) _ => true
  | _ => false
  end.
