(* ===== verification/TraceLogic.v ===== *)
(** * Reasoning about the writes of a program

    [writes_ok W acc p] says that every write of [p], run after the events
    [acc], satisfies [W] at the events before it.  The rules follow the
    structure of a program; evidence gathered by a part is a predicate on the
    events so far and stays true as they grow. *)

From stdpp Require Import base tactics list strings gmap numbers.
From S2P Require Import Prelude ApiTypes KubeObjects KubeApi.

Definition writes_ok {A} (W : list event -> event -> Prop) (acc : list event) (p : prog A) : Prop :=
  forall es a, steps p es a -> forall pre e post, es = pre ++ e :: post -> is_write e = true -> W (acc ++ pre) e.

Definition reads_only {A} (p : prog A) : Prop := emits (fun e => is_write e = false) p.

Section Rules.
Context (W : list event -> event -> Prop).

Lemma writes_ret {A} acc (a : A) : writes_ok W acc (Ret a).
Proof. intros es b [-> _] pre e post E. by destruct pre. Qed.

Lemma writes_bind {A B} acc (p : prog A) (f : A -> prog B) :
  writes_ok W acc p -> (forall es a, steps p es a -> writes_ok W (acc ++ es) (f a)) -> writes_ok W acc (p ≫= f).
Proof.
  intros Hp Hf es b (es1 & es2 & a & -> & H1 & H2)%steps_bind pre e post E Hw.
  symmetry in E. apply app_eq_app in E as (l & [[-> E2] | [-> E2]]).
  - destruct l as [|x l]; cbn in E2.
    + rewrite app_nil_r in *. specialize (Hf _ _ H1 _ _ H2 [] e post). rewrite app_nil_r in Hf. by apply Hf.
    + rewrite app_assoc. by apply (Hf _ _ H1 _ _ H2 (x :: l) e post).
  - destruct l as [|x l]; cbn in E2.
    + specialize (Hf _ _ H1 _ _ H2 [] e post). rewrite app_nil_r in Hf. rewrite app_nil_r in *. by apply Hf.
    + injection E2 as -> ->. by apply (Hp _ _ H1 pre x l).
Qed.

Lemma writes_bind_error {A B} acc (p : prog (cerror + A)) (k : A -> prog (cerror + B)) : writes_ok W acc p ->
  (forall es a, steps p es (inr a) -> writes_ok W (acc ++ es) (k a)) -> writes_ok W acc (bind_error p k).
Proof.
  intros Hp Hk. apply writes_bind; [done|]. intros es [e|a] Hs; [|by apply Hk].
  intros es' x [-> _] pre e' post E. by destruct pre.
Qed.

Lemma writes_reads {A} acc (p : prog A) : reads_only p -> writes_ok W acc p.
Proof.
  intros Hr es a Hs pre e post -> Hw. specialize (Hr _ _ Hs). apply Forall_app in Hr as [_ Hr].
  apply list.Forall_cons in Hr as [Hr _]. congruence.
Qed.

Lemma writes_call {R} acc (q : request R) :
  (forall r, is_write (Ev q r) = true -> W acc (Ev q r)) -> writes_ok W acc (call q).
Proof.
  intros Hq es r ->%steps_call pre e post E Hw. destruct pre as [|x pre]; [|by destruct pre].
  injection E as <- _. rewrite app_nil_r. by apply Hq.
Qed.

(** A read, and what follows it with the response on record. *)
Lemma writes_get {R B} acc (q : request R) (f : R -> prog B) :
  (forall r, is_write (Ev q r) = false) ->
  (forall r, writes_ok W (acc ++ [Ev q r]) (f r)) -> writes_ok W acc (call q ≫= f).
Proof.
  intros Hq Hf. apply writes_bind.
  - apply writes_call. intros r. by rewrite Hq.
  - intros es r ->%steps_call. apply Hf.
Qed.
(** A final write. *)
Lemma writes_last {R B} acc (q : request R) (f : R -> B) :
  (forall r, W acc (Ev q r)) -> writes_ok W acc (x ← call q; Ret (f x)).
Proof. intros Hq. apply writes_bind; [apply writes_call; auto | intros; apply writes_ret]. Qed.

Lemma writes_loop {A R} acc (body : A -> prog (option R)) l :
  (forall x acc', x ∈ l -> acc ⊆ acc' -> writes_ok W acc' (body x)) -> writes_ok W acc (loop body l).
Proof.
  revert acc. induction l as [|x l IH]; intros acc Hb; cbn [loop]; [apply writes_ret|].
  apply writes_bind; [apply Hb; [by left | done]|]. intros es [v|] _; [apply writes_ret|].
  apply IH. intros y acc' Hy Hsub. apply Hb; [by right | set_solver].
Qed.
End Rules.

(** A loop that ends without a result ran its body on every element. *)
Lemma loop_none_each {A R} (body : A -> prog (option R)) l es :
  steps (loop body l) es None -> forall x, x ∈ l -> exists es', es' ⊆ es /\ steps (body x) es' None.
Proof.
  revert es. induction l as [|x l IH]; intros es.
  - intros _ x Hx. by apply not_elem_of_nil in Hx.
  - cbn [loop]. intros (es1 & es2 & [v|] & -> & Hs1 & Hs2)%steps_bind y Hy; [by destruct Hs2|].
    apply elem_of_cons in Hy as [->|Hy]; [exists es1; split; [set_solver | done]|].
    destruct (IH _ Hs2 y Hy) as (es' & ? & ?). exists es'. split; [set_solver | done].
Qed.

Lemma steps_ret {A} (a b : A) es : steps (Ret a) es b <-> es = [] /\ b = a.
Proof. reflexivity. Qed.

Lemma existsb_false_elem {A} (f : A -> bool) l : existsb f l = false -> forall x, x ∈ l -> f x = false.
Proof.
  intros E x Hx. destruct (f x) eqn:Ef; [|done]. rewrite <- E. symmetry. apply existsb_exists.
  exists x. split; [by apply list_elem_of_In | done].
Qed.

(** [reads_tac] proves that a program only reads. *)
Ltac reads_tac := unfold reads_only; emits_tac.

(** [walk] opens the executions of a program in a hypothesis: binds, calls
    and returns, case by case where the program branches. *)
Ltac walk_step H :=
  match type of H with
  | steps (Ret _) _ _ => destruct H as [? H]
  | steps (_ ≫= _) _ _ =>
      let es1 := fresh "es" in let es2 := fresh "es" in let x := fresh "x" in let H1 := fresh "Hstep" in
      apply steps_bind in H; destruct H as (es1 & es2 & x & -> & H1 & H);
      try (apply steps_call in H1; subst es1)
  | steps (match ?x with _ => _ end) _ _ => destruct x eqn:?
  | steps (if ?b then _ else _) _ _ => destruct b eqn:?
  end.
Ltac walk H := repeat (walk_step H; simplify_eq).

(** Membership in, and inclusion between, concatenated traces. *)
Ltac in_trace := try (intros ? ?); rewrite ?elem_of_app, ?elem_of_cons in *; tauto.

(** ** Picking an event of a concrete trace *)

Fixpoint locate (f : event -> bool) (l : list event) : option (list event * event * list event) :=
  match l with
  | [] => None
  | e :: r => if f e then Some ([], e, r)
              else match locate f r with Some (pre, x, post) => Some (e :: pre, x, post) | None => None end
  end.
Definition before (f : event -> bool) (l : list event) : list event :=
  match locate f l with Some (pre, _, _) => pre | None => [] end.
Definition found (f : event -> bool) (l : list event) : event :=
  match locate f l with Some (_, e, _) => e | None => Ev ClockNow 0%Z end.
Definition after (f : event -> bool) (l : list event) : list event :=
  match locate f l with Some (_, _, post) => post | None => [] end.
Definition located (f : event -> bool) (l : list event) : bool := match locate f l with Some _ => true | None => false end.

Lemma locate_split f l : located f l = true -> l = before f l ++ found f l :: after f l /\ f (found f l) = true.
Proof.
  unfold located, before, found, after. induction l as [|e l IH]; [done|]. cbn [locate].
  destruct (f e) eqn:E; [done|]. destruct (locate f l) as [[[pre x] post]|]; [|done].
  intros _. destruct (IH eq_refl) as [El Ef]. split; [|done]. cbn. by rewrite El at 1.
Qed.

(** ** Evidence that grows

    A predicate on the events so far that stays true as they grow.  Evidence
    is written with its events last, so that [grows] applies to it as it is. *)

Class Grows (P : list event -> Prop) := grows : forall es es', es ⊆ es' -> P es -> P es'.

#[export] Instance grows_in e : Grows (fun es => e ∈ es).
Proof. intros es es' Hs. apply Hs. Qed.
#[export] Instance grows_const (P : Prop) : Grows (fun _ => P).
Proof. by intros es es' _. Qed.
#[export] Instance grows_and P Q : Grows P -> Grows Q -> Grows (fun es => P es /\ Q es).
Proof. intros HP HQ es es' Hs [? ?]. eauto. Qed.
#[export] Instance grows_or P Q : Grows P -> Grows Q -> Grows (fun es => P es \/ Q es).
Proof. intros HP HQ es es' Hs [?|?]; eauto. Qed.
#[export] Instance grows_exists {A} (P : A -> list event -> Prop) :
  (forall a, Grows (P a)) -> Grows (fun es => exists a, P a es).
Proof. intros HP es es' Hs [a Ha]. exists a. by apply (HP a es es'). Qed.
#[export] Instance grows_forall {A} (P : A -> list event -> Prop) :
  (forall a, Grows (P a)) -> Grows (fun es => forall a, P a es).
Proof. intros HP es es' Hs Ha a. by apply (HP a es es'). Qed.
#[export] Instance grows_implied (Q : Prop) P : Grows P -> Grows (fun es => Q -> P es).
Proof. intros HP es es' Hs Ha q. eapply HP; eauto. Qed.
#[export] Instance grows_Forall2 {A B} (P : A -> B -> list event -> Prop) l k :
  (forall a b, Grows (P a b)) -> Grows (fun es => Forall2 (fun a b => P a b es) l k).
Proof. intros HP es es' Hs HF. eapply Forall2_impl; [|exact HF]. intros a b. by apply (HP a b es es'). Qed.

(** [grow H] transports evidence to a longer trace. *)
Ltac grow H := eapply grows; [|exact H]; first [assumption | in_trace].
Ltac grows_tac := intros; repeat first [apply grows_const | apply grows_in | apply grows_and | apply grows_or
  | apply grows_exists; intros ? | apply grows_Forall2; intros ? ? | apply grows_forall; intros ?
  | assumption | typeclasses eauto].

(** ** What a write is *)

Definition is_claim {A} (k : kind A) : bool :=
  match k with KPersistentVolumeClaim | KPersistentVolume => true | _ => false end.
(** A write to a claim or to its volume. *)
Definition claim_touched (e : event) : bool :=
  match e with
  | Ev (ApiCreate k _) _ | Ev (ApiUpdate k _) _ | Ev (ApiUpdateStatus k _) _ | Ev (ApiApply k _) _
  | Ev (ApiMergePatch k _ _) _ | Ev (ApiDelete k _ _) _ | Ev (ApiJSONPatch k _ _) _ => is_claim k
  | _ => false
  end.
Definition as_gameserver {A} (k : kind A) : A -> option GameServer :=
  match k in kind T return T -> option GameServer with KGameServer => Some | _ => fun _ => None end.
Definition server_updated (e : event) : option GameServer :=
  match e with Ev (ApiUpdate k o) _ => as_gameserver k o | _ => None end.
Definition server_status (e : event) : option GameServer :=
  match e with Ev (ApiUpdateStatus k o) _ => as_gameserver k o | _ => None end.
Definition as_pod {A} (k : kind A) : A -> option Pod :=
  match k in kind T return T -> option Pod with KPod => Some | _ => fun _ => None end.
Definition pod_updated (e : event) : option Pod :=
  match e with Ev (ApiUpdate k o) _ => as_pod k o | _ => None end.
