(* ===== verification/WorkerInput.v ===== *)
(** * Worker inputs ([restoreworker.ValidateInput], [data.ValidateBackupWorkerInput])

    The immutable contract the controllers mount into a repository worker, its
    validation, and its JSON text.  The worker re-validates what the controller
    wrote with the same function, so what the validation implies is what the
    worker may rely on.  [metav1.Time]'s JSON text is a parameter
    ([TimeText]): it is produced by apimachinery. *)

From Stdlib Require Import Ascii.
From stdpp Require Import base tactics list strings gmap numbers.
From S2P Require Import Prelude GoStrings K8s ApiTypes DataOperation Operations.
Open Scope string_scope.
Open Scope list_scope.

(** ** Loops that collect names and refuse repetitions

    Several validations walk over a list and keep the path names, claim names
    and claim UIDs seen so far; only the element check and the messages differ. *)

Abbreviation seen3 := (list string * list string * list string)%type.
Record messages := Messages { msg_bad : string; msg_path : string; msg_name : string; msg_uid : string }.

Section Distinct.
Context {A : Type} (bad : A -> bool) (path name uid : A -> string) (m : messages).

Definition distinct_step (seen : seen3) (x : A) : result seen3 :=
  let '(paths, names, uids) := seen in
  if bad x then fail (msg_bad m)
  else if bool_decide (path x ∈ paths) then fail (msg_path m)
  else if bool_decide (name x ∈ names) then fail (msg_name m)
  else if bool_decide (uid x ∈ uids) then fail (msg_uid m)
  else Ok (path x :: paths, name x :: names, uid x :: uids).
Definition distinct (l : list A) : result seen3 := for_state distinct_step ([], [], []) l.

Definition fresh (f : A -> string) (seen : list string) (l : list A) : Prop :=
  NoDup (f <$> l) /\ forall x, x ∈ l -> f x ∉ seen.

Lemma fresh_cons f seen x l : f x ∉ seen -> fresh f (f x :: seen) l -> fresh f seen (x :: l).
Proof.
  unfold fresh. rewrite fmap_cons, list.NoDup_cons, list_elem_of_fmap. setoid_rewrite elem_of_cons.
  intros Hx [Hd Hs]. split_and!; [|done|].
  - intros (y & E & Hy). apply (Hs y Hy). by left.
  - intros y [->|Hy]; [done|]. intros Hin. apply (Hs y Hy). by right.
Qed.

Lemma distinct_loop l seen s : for_state distinct_step seen l = Ok s ->
  (forall x, x ∈ l -> bad x = false) /\
  fresh path seen.1.1 l /\ fresh name seen.1.2 l /\ fresh uid seen.2 l /\
  s = (reverse (path <$> l) ++ seen.1.1, reverse (name <$> l) ++ seen.1.2, reverse (uid <$> l) ++ seen.2).
Proof.
  revert seen. induction l as [|x l IH]; intros [[paths names] uids]; cbn [for_state].
  - intros [= <-]. unfold fresh.
    split_and!; try apply NoDup_nil_2; try (intros y Hy; by apply not_elem_of_nil in Hy); done.
  - unfold distinct_step at 1. destruct (bad x) eqn:Hb; [done|].
    do 3 (case_bool_decide; [done|]). intros Hs. apply IH in Hs as (Hbad & Hp & Hn & Hu & ->). cbn [fst snd] in *.
    split_and!; try (by apply fresh_cons).
    + intros y [->|Hy]%elem_of_cons; auto.
    + by rewrite !fmap_cons, !reverse_cons, <- !app_assoc.
Qed.

Lemma distinct_ok l s : distinct l = Ok s ->
  (forall x, x ∈ l -> bad x = false) /\
  NoDup (path <$> l) /\ NoDup (name <$> l) /\ NoDup (uid <$> l) /\
  (forall n, n ∈ s.1.2 <-> n ∈ name <$> l) /\ (forall u, u ∈ s.2 <-> u ∈ uid <$> l).
Proof.
  intros (Hb & [Hp _] & [Hn _] & [Hu _] & ->)%distinct_loop. cbn [fst snd]. rewrite !app_nil_r.
  split_and!; try done; intros; by rewrite elem_of_reverse.
Qed.
End Distinct.

(** ** The backup worker's input *)

Definition BackupFormatVersion := "arcadectl.backup/v2".
Definition WorkerInputVersion := "arcadectl.backup-worker/v1".

Record BackupWorkerInput := MkBackupWorkerInput {
  bw_Version : string;
  bw_ArtifactID : string;
  bw_OperationRef : ExactLocalReference;
  bw_WorkerLeaseName : string;
  bw_RepositorySecretRef : ExactSecretReference;
  bw_Source : DataSourceSnapshot }.

(** [ref.Name == "" || ref.UID == "" || ref.Namespace != nil] *)
Definition incomplete_ref (r : ExactLocalReference) : bool :=
  (ref_Name r == "") || (ref_UID r == "") || (ref_Namespace r != None).
Definition incomplete_secret (s : ExactSecretReference) : bool :=
  (ref_Name (sec_ref s) == "") || (ref_UID (sec_ref s) == "") || (sec_ResourceVersion s == "") ||
  (ref_Namespace (sec_ref s) != None).
Definition bad_lease_name (n : string) : bool := (n == "") || (slen n >? 253)%Z || Contains n "/".

Definition ValidateBackupWorkerInput (input : BackupWorkerInput) : result unit :=
  let source := bw_Source input in
  if bw_Version input != WorkerInputVersion then fail "unsupported backup worker input version"
  else if (bw_ArtifactID input == "") || incomplete_ref (bw_OperationRef input) ||
     bad_lease_name (bw_WorkerLeaseName input) || incomplete_secret (bw_RepositorySecretRef input) ||
     (gsr_UID (src_GameServer source) == "") || (src_Game source == "") ||
     (src_ImageDigest source == "") || (src_SettingsDigest source == "") || (len (src_Paths source) == 0%Z)
  then fail "backup worker input is incomplete"
  else
    _ ← distinct (fun path => (dp_Name path == "") || Contains (dp_Name path) "/" || (dp_MountPath path == "") ||
                              incomplete_ref (dp_ClaimRef path))
          dp_Name claimName claimUID
          (Messages "backup worker path identity is incomplete" "backup worker path names must be unique"
             "backup worker claim names must be unique" "backup worker claim UIDs must be unique")
          (src_Paths source);
    Ok tt.

(** ** The restore and destroy workers' input *)

Definition InputVersion := "arcadectl.restore-worker/v1".
Definition ResultVersion := "arcadectl.restore-result/v1".
Definition DefaultTerminationPath := "/arcadectl/work/termination.json".

Inductive Stage := StagePreflight | StagePopulate | StageOther (s : string).
#[export] Instance Stage_eq_dec : EqDecision Stage.
Proof. solve_decision. Defined.
Definition Stage_string (s : Stage) : string :=
  match s with StagePreflight => "Preflight" | StagePopulate => "Populate" | StageOther s => s end.

Record PathContract := MkContract { pc_Name : string; pc_MountPath : string }.

Record Input := MkInput {
  in_Version : string;
  in_Stage : Stage;
  in_OperationRef : ExactLocalReference;
  in_BackupRef : ExactLocalReference;
  in_Target : ExactGameServerReference;
  in_WorkerLeaseName : string;
  in_RepositorySecretRef : ExactSecretReference;
  in_Artifact : BackupArtifact;
  in_Source : DataSourceSnapshot;
  in_TargetGame : string;
  in_TargetImageDigest : string;
  in_TargetSettingsDigest : string;
  in_TargetPaths : list PathContract;
  in_PreviousDataIdentity : string;
  in_PreviousData : list DataPathIdentity;
  in_CandidatePaths : list DataPathIdentity }.

(** The success message of a worker. *)
Record Result := MkWorkerResult {
  wr_Version : string;
  wr_Stage : Stage;
  wr_ArtifactID : string;
  wr_ManifestDigest : string;
  wr_PathCount : Z;
  wr_VerifiedAt : Time }.
(** [json.Decoder] with [DisallowUnknownFields], and a second [Decode] that
    must find the end. *)
Class ResultDecoder := DecodeResult : string -> option Result.

Definition invalid_contract (input : Input) : bool :=
  let target := in_Target input in
  let artifact := in_Artifact input in
  (in_Version input != InputVersion) ||
  ((in_Stage input != StagePreflight) && (in_Stage input != StagePopulate)) ||
  incomplete_ref (in_OperationRef input) || incomplete_ref (in_BackupRef input) ||
  incomplete_ref (gsr_ref target) || (gsr_Generation target <? 1)%Z ||
  ((gsr_DesiredState target != DesiredStateStopped) && (gsr_DesiredState target != DesiredStateRunning)) ||
  bad_lease_name (in_WorkerLeaseName input) || incomplete_secret (in_RepositorySecretRef input) ||
  (art_FormatVersion artifact != BackupFormatVersion) ||
  (av_Result (art_Verification artifact) != VerificationVerified) ||
  (ap_BackupRef (art_Provenance artifact) != in_BackupRef input) ||
  (ap_RepositorySecretRef (art_Provenance artifact) != in_RepositorySecretRef input) ||
  (art_PathCount artifact <? 1)%Z || negb (HasPrefix (art_ManifestDigest artifact) "sha256:") ||
  (slen (art_ManifestDigest artifact) != 71%Z) ||
  (gsr_UID (src_GameServer (in_Source input)) == "") || (in_TargetGame input == "") ||
  (in_TargetImageDigest input == "") || (in_TargetSettingsDigest input == "") ||
  (len (in_TargetPaths input) == 0%Z) || (len (in_TargetPaths input) != len (src_Paths (in_Source input))).

Section Validation.
Context `{NameValidation}.

Definition safePathName (name : string) : bool := is_label name.
Definition safeMountPath (name : string) : bool :=
  HasPrefix name "/" && (Clean name == name) && (name != "/").

Definition target_path_step (paths : StringMap) (path : PathContract) : result StringMap :=
  if negb (safePathName (pc_Name path)) || negb (safeMountPath (pc_MountPath path)) ||
     (mget paths (pc_Name path) != "")
  then fail "target paths are invalid" else Ok (<[pc_Name path := pc_MountPath path]> paths).

Definition previous_bad (paths : StringMap) (previous : DataPathIdentity) : bool :=
  negb (safePathName (dp_Name previous)) || (mget paths (dp_Name previous) != dp_MountPath previous) ||
  incomplete_ref (dp_ClaimRef previous).

Definition candidate_bad (operationUID : string) (paths : StringMap) (candidate : DataPathIdentity) : bool :=
  match RestoreCandidateID operationUID (dp_Name candidate) with
  | Err _ => true
  | Ok expectedName =>
      (claimName candidate != expectedName) || (claimUID candidate == "") ||
      (ref_Namespace (dp_ClaimRef candidate) != None) || (mget paths (dp_Name candidate) != dp_MountPath candidate)
  end.

(** One of the two final loops: no claim of [others] is a candidate. *)
Definition alias_check (name_message uid_message : string) (candidates : seen3)
    (others : list DataPathIdentity) : result unit :=
  for_each (fun other =>
    if bool_decide (claimName other ∈ candidates.1.2) then fail name_message
    else if bool_decide (claimUID other ∈ candidates.2) then fail uid_message
    else Ok tt) others.

(** What follows the stage test: the populate stage's claims. *)
Definition validatePopulate (input : Input) (paths : StringMap) : result unit :=
  let sources := src_Paths (in_Source input) in
  if negb (is_label (in_PreviousDataIdentity input)) || (len (in_PreviousData input) != len sources) ||
     (len (in_CandidatePaths input) != len sources)
  then fail "previous or candidate paths are incomplete"
  else
    _ ← distinct (previous_bad paths) dp_Name claimName claimUID
          (Messages "previous data identity is invalid" "previous data paths overlap"
             "previous claim names overlap" "previous claim UIDs overlap") (in_PreviousData input);
    candidates ← distinct (candidate_bad (ref_UID (in_OperationRef input)) paths) dp_Name claimName claimUID
          (Messages "candidate identity is invalid" "candidate paths overlap"
             "candidate names overlap" "candidate UIDs overlap") (in_CandidatePaths input);
    _ ← alias_check "candidate aliases source claim" "candidate aliases source UID" candidates sources;
    alias_check "candidate aliases previous claim" "candidate aliases previous UID" candidates
      (in_PreviousData input).

Definition ValidateInput (input : Input) : result unit :=
  let artifact := in_Artifact input in
  let source := in_Source input in
  if invalid_contract input then fail "restore input contract is invalid"
  else if match ArtifactID (ref_UID (in_BackupRef input)) with
          | Err _ => true
          | Ok expectedID =>
              (art_ID artifact != expectedID) || (art_PathCount artifact != int32 (len (src_Paths source))) ||
              (in_TargetGame input != src_Game source) || (in_TargetImageDigest input != src_ImageDigest source) ||
              (in_TargetSettingsDigest input != src_SettingsDigest source)
          end
  then fail "restore artifact or adapter is incompatible"
  else if negb (is_ok (ValidateBackupWorkerInput
            (MkBackupWorkerInput WorkerInputVersion (art_ID artifact) (in_BackupRef input)
               (in_WorkerLeaseName input) (in_RepositorySecretRef input) source)))
  then fail "source identity is invalid"
  else if negb (is_subdomain (in_WorkerLeaseName input)) then fail "worker lease identity is invalid"
  else
    paths ← for_state target_path_step ∅ (in_TargetPaths input);
    _ ← for_each (fun path =>
          if negb (safePathName (dp_Name path)) || negb (safeMountPath (dp_MountPath path)) ||
             (mget paths (dp_Name path) != dp_MountPath path)
          then fail "source and target paths differ" else Ok tt) (src_Paths source);
    if in_Stage input == StagePreflight
    then if (len (in_CandidatePaths input) != 0%Z) || (len (in_PreviousData input) != 0%Z) ||
            (in_PreviousDataIdentity input != "")
         then fail "preflight cannot receive target claim identities" else Ok tt
    else validatePopulate input paths.
End Validation.

(** ** The JSON text of an input

    [json.Marshal] writes the fields in declaration order; an embedded struct's
    fields are inlined and an absent optional field is omitted. *)

Class TimeText := Time_text : Time -> list ascii.

Definition int_text (z : Z) : list ascii := chars (FormatInt z).
Definition array_text (l : list (list ascii)) : list ascii := "["%char :: join_chars (chars ",") l ++ ["]"%char].
Definition ref_fields (r : ExactLocalReference) : list (list ascii) :=
  match ref_Namespace r with Some n => [field "namespace" (string_text n)] | None => [] end ++
  [field "name" (string_text (ref_Name r)); field "uid" (string_text (ref_UID r))].
Definition gameserver_text (r : ExactGameServerReference) : list ascii :=
  object_text (ref_fields (gsr_ref r) ++
    [field "generation" (int_text (gsr_Generation r));
     field "desiredState" (string_text (DesiredState_string (gsr_DesiredState r)))]).
Definition secret_text (r : ExactSecretReference) : list ascii :=
  object_text (ref_fields (sec_ref r) ++ [field "resourceVersion" (string_text (sec_ResourceVersion r))]).
Definition VerificationResult_string (r : VerificationResult) : string :=
  match r with
  | VerificationPending => "Pending" | VerificationVerified => "Verified" | VerificationFailed => "Failed"
  | VerificationOther s => s
  end.
Definition path_text (p : DataPathIdentity) : list ascii :=
  object_text [field "name" (string_text (dp_Name p)); field "mountPath" (string_text (dp_MountPath p));
               field "claimRef" (ref_text (dp_ClaimRef p))].
Definition contract_text (p : PathContract) : list ascii :=
  object_text [field "name" (string_text (pc_Name p)); field "mountPath" (string_text (pc_MountPath p))].
Definition source_text (s : DataSourceSnapshot) : list ascii :=
  object_text [field "gameServer" (gameserver_text (src_GameServer s)); field "game" (string_text (src_Game s));
               field "imageDigest" (string_text (src_ImageDigest s));
               field "settingsDigest" (string_text (src_SettingsDigest s));
               field "paths" (array_text (path_text <$> src_Paths s))].

Section JsonText.
Context `{TimeText}.

Definition artifact_text (a : BackupArtifact) : list ascii :=
  let v := art_Verification a in
  object_text
    [field "provenance" (object_text
       [field "backupRef" (ref_text (ap_BackupRef (art_Provenance a)));
        field "repositorySecretRef" (secret_text (ap_RepositorySecretRef (art_Provenance a)))]);
     field "id" (string_text (art_ID a)); field "formatVersion" (string_text (art_FormatVersion a));
     field "manifestDigest" (string_text (art_ManifestDigest a)); field "sizeBytes" (int_text (art_SizeBytes a));
     field "pathCount" (int_text (art_PathCount a)); field "createdAt" (Time_text (art_CreatedAt a));
     field "verification" (object_text
       (field "result" (string_text (VerificationResult_string (av_Result v))) ::
        match av_VerifiedAt v with Some t => [field "verifiedAt" (Time_text t)] | None => [] end))].

Definition Input_text (i : Input) : list ascii :=
  object_text
    ([field "version" (string_text (in_Version i)); field "stage" (string_text (Stage_string (in_Stage i)));
      field "operationRef" (ref_text (in_OperationRef i)); field "backupRef" (ref_text (in_BackupRef i));
      field "target" (gameserver_text (in_Target i)); field "workerLeaseName" (string_text (in_WorkerLeaseName i));
      field "repositorySecretRef" (secret_text (in_RepositorySecretRef i));
      field "artifact" (artifact_text (in_Artifact i)); field "source" (source_text (in_Source i));
      field "targetGame" (string_text (in_TargetGame i));
      field "targetImageDigest" (string_text (in_TargetImageDigest i));
      field "targetSettingsDigest" (string_text (in_TargetSettingsDigest i));
      field "targetPaths" (array_text (contract_text <$> in_TargetPaths i))] ++
     (if in_PreviousDataIdentity i == "" then []
      else [field "previousDataIdentity" (string_text (in_PreviousDataIdentity i))]) ++
     (if len (in_PreviousData i) == 0%Z then []
      else [field "previousData" (array_text (path_text <$> in_PreviousData i))]) ++
     (if len (in_CandidatePaths i) == 0%Z then []
      else [field "candidatePaths" (array_text (path_text <$> in_CandidatePaths i))])).
End JsonText.

(** ** What an accepted input guarantees *)

Definition contract_of (p : DataPathIdentity) : PathContract := MkContract (dp_Name p) (dp_MountPath p).

Section Accepted.
Context `{NameValidation}.

Lemma safeMountPath_nonempty m : safeMountPath m = true -> m <> "".
Proof. by intros Hs ->. Qed.

Lemma target_paths_loop targets paths0 paths :
  for_state target_path_step paths0 targets = Ok paths ->
  forall n m, paths !! n = Some m -> paths0 !! n = Some m \/ MkContract n m ∈ targets.
Proof.
  revert paths0. induction targets as [|t targets IH]; intros paths0; cbn [for_state].
  - intros [= <-]. by left.
  - unfold target_path_step at 1. destruct (_ || _)%bool eqn:E; [done|]. intros Hp n m Hnm.
    destruct (IH _ Hp n m Hnm) as [Hin|Hin]; [|right; by apply elem_of_cons; right].
    apply lookup_insert_Some in Hin as [[<- <-]|[_ ?]]; [right; apply elem_of_cons; left; by destruct t | by left].
Qed.

Lemma paths_cover targets paths l :
  for_state target_path_step ∅ targets = Ok paths -> NoDup (dp_Name <$> l) -> length l = length targets ->
  (forall p, p ∈ l -> mget paths (dp_Name p) = dp_MountPath p /\ dp_MountPath p <> "") ->
  contract_of <$> l ≡ₚ targets.
Proof.
  intros Hp Hnd Hlen Hl. apply submseteq_length_Permutation; [|by rewrite length_fmap, Hlen].
  apply NoDup_submseteq.
  - apply (NoDup_fmap_1 pc_Name). by rewrite <- list_fmap_compose.
  - intros c (p & -> & Hin)%list_elem_of_fmap. destruct (Hl p Hin) as [Hm Hne].
    unfold mget in Hm. destruct (paths !! dp_Name p) as [m|] eqn:E; cbn in Hm; [subst m | congruence].
    destruct (target_paths_loop _ _ _ Hp _ _ E) as [Hempty|Hin']; [by rewrite lookup_empty in Hempty | done].
Qed.

Lemma ValidateBackupWorkerInput_names input : ValidateBackupWorkerInput input = Ok tt ->
  NoDup (dp_Name <$> src_Paths (bw_Source input)).
Proof. unfold ValidateBackupWorkerInput. intros Hok. ok_inv. by apply distinct_ok in Hrun as (_ & ? & _). Qed.

Lemma alias_check_ok nm um s others : alias_check nm um s others = Ok tt ->
  forall o, o ∈ others -> claimName o ∉ s.1.2 /\ claimUID o ∉ s.2.
Proof.
  unfold alias_check. rewrite for_each_ok. intros Hall o Ho. specialize (Hall o Ho). cbn in Hall.
  by repeat case_bool_decide.
Qed.

(** The parts of an accepted input the theorems speak about. *)
Lemma ValidateInput_inv input : ValidateInput input = Ok tt ->
  exists paths, for_state target_path_step ∅ (in_TargetPaths input) = Ok paths /\
    length (in_TargetPaths input) = length (src_Paths (in_Source input)) /\
    NoDup (dp_Name <$> src_Paths (in_Source input)) /\
    (forall p, p ∈ src_Paths (in_Source input) -> mget paths (dp_Name p) = dp_MountPath p /\ dp_MountPath p <> "") /\
    (in_Stage input = StagePreflight -> in_CandidatePaths input = [] /\ in_PreviousData input = []) /\
    (in_Stage input <> StagePreflight -> validatePopulate input paths = Ok tt).
Proof.
  unfold ValidateInput. intros Hok.
  destruct (invalid_contract input) eqn:Hc; [done|]. destruct (match ArtifactID _ with Ok _ => _ | Err _ => _ end); [done|].
  destruct (negb (is_ok _)) eqn:Hb; [done|]. destruct (negb (is_subdomain _)); [done|].
  apply bind_ok in Hok as (paths & Hp & Hok). apply bind_ok in Hok as ([] & Hs & Hok).
  exists paths. split; [done|]. rewrite for_each_ok in Hs.
  unfold invalid_contract in Hc. apply orb_false_iff in Hc as [_ Hlen].
  apply negb_false_iff, is_ok_unit, ValidateBackupWorkerInput_names in Hb. cbn in Hb.
  split_and!; [unfold len in Hlen; bool_prop; lia | done | | |].
  - intros p Hin. specialize (Hs p Hin). cbn beta in Hs.
    destruct (safePathName _); [|done]. destruct (safeMountPath _) eqn:Hm; [|done].
    destruct (bool_decide (mget paths _ = _)) eqn:E; [|done]. apply bool_decide_eq_true in E.
    split; [done | by apply safeMountPath_nonempty].
  - intros E. rewrite E in Hok. eval_bools. unfold len in Hok.
    destruct (in_CandidatePaths input), (in_PreviousData input); done.
  - intros E. by rewrite bool_decide_eq_false_2 in Hok.
Qed.

(** What the populate stage's checks say of the candidate claims. *)
Lemma validatePopulate_candidates input paths : validatePopulate input paths = Ok tt ->
  let candidate := in_CandidatePaths input in
  NoDup (claimName <$> candidate) /\ NoDup (claimUID <$> candidate) /\
  (forall c, c ∈ candidate ->
     RestoreCandidateID (ref_UID (in_OperationRef input)) (dp_Name c) = Ok (claimName c)) /\
  (forall c o, c ∈ candidate -> o ∈ src_Paths (in_Source input) ++ in_PreviousData input ->
     claimName c <> claimName o /\ claimUID c <> claimUID o).
Proof.
  intros Hpop candidate. unfold validatePopulate in Hpop. ok_inv.
  apply distinct_ok in Hrun0 as (Hcbad & Hcnd & Hn & Hu & Hin1 & Hin2). destruct x1.
  pose proof (alias_check_ok _ _ _ _ Hrun1) as Hs1. pose proof (alias_check_ok _ _ _ _ Hpop) as Hs2. split_and!; try done.
  - intros c Hin. specialize (Hcbad c Hin). unfold candidate_bad in Hcbad.
    destruct (RestoreCandidateID _ _); [|done]. bool_prop. by f_equal.
  - intros c o Hc Ho. assert (claimName o ∉ x0.1.2 /\ claimUID o ∉ x0.2) as [Ha Hb]
      by (apply elem_of_app in Ho as [Ho|Ho]; [apply Hs1 | apply Hs2]; done).
    rewrite Hin1 in Ha. rewrite Hin2 in Hb.
    split; intros E; [apply Ha; rewrite <- E | apply Hb; rewrite <- E]; by apply list_elem_of_fmap_2.
Qed.

(** An input accepted for the populate stage isolates the candidate: the
    candidate and the previous data have exactly the adapter paths of the
    backed up source, every candidate claim has the name derived from this
    restore's UID and its own path, candidate claims are pairwise distinct, and
    none of them is a claim of the source or of the previous data, by name or
    by UID.  (Mount paths are non-empty by the API schema.) *)
Theorem ValidateInput_isolates input (Hok : ValidateInput input = Ok tt)
  (Hstage : in_Stage input = StagePopulate)
  (Hmounts : forall p, p ∈ in_CandidatePaths input ++ in_PreviousData input -> dp_MountPath p <> "") :
  let source := src_Paths (in_Source input) in
  let candidate := in_CandidatePaths input in
  let previous := in_PreviousData input in
  (contract_of <$> candidate) ≡ₚ (contract_of <$> source) /\
  (contract_of <$> previous) ≡ₚ (contract_of <$> source) /\
  NoDup (claimName <$> candidate) /\ NoDup (claimUID <$> candidate) /\
  (forall c, c ∈ candidate ->
     RestoreCandidateID (ref_UID (in_OperationRef input)) (dp_Name c) = Ok (claimName c)) /\
  (forall c o, c ∈ candidate -> o ∈ source ++ previous -> claimName c <> claimName o /\ claimUID c <> claimUID o).
Proof.
  apply ValidateInput_inv in Hok as (paths & Hp & Hlen & Hnd & Hsrc & _ & Hpop). intros source candidate previous.
  specialize (Hpop ltac:(by rewrite Hstage)). pose proof (validatePopulate_candidates _ _ Hpop) as (? & ? & ? & ?).
  unfold validatePopulate in Hpop. ok_inv.
  apply distinct_ok in Hrun as (Hpbad & Hpnd & _). apply distinct_ok in Hrun0 as (Hcbad & Hcnd & _).
  unfold len in Hguard. bool_prop.
  assert (contract_of <$> source ≡ₚ in_TargetPaths input) as Hsource by (by eapply paths_cover).
  split_and!; try done; rewrite Hsource; (eapply paths_cover; eauto; [unfold candidate, previous; lia|]).
  - intros p Hin. specialize (Hcbad p Hin).
    split; [|apply Hmounts, elem_of_app; by left]. unfold candidate_bad in Hcbad.
    destruct (RestoreCandidateID _ _); [|done]. bool_prop. done.
  - intros p Hin. specialize (Hpbad p Hin).
    split; [|apply Hmounts, elem_of_app; by right]. unfold previous_bad in Hpbad. bool_prop. done.
Qed.
End Accepted.

(** ** A concrete populate input *)

Definition sample_digest64 : string := "sha256:" +:+ Repeat "a" 64.
Definition sample_backup_ref : ExactLocalReference := MkRef None "nightly" "backup-uid".
Definition sample_secret_ref : ExactSecretReference := MkSecretRef (MkRef None "repository" "secret-uid") "7".
Definition sample_target : ExactGameServerReference :=
  MkGSRef (MkRef None "alpha" "server-uid") 3 DesiredStateStopped.
Definition sample_paths : list DataPathIdentity := [MkPath "saves" "/data/saves" (MkRef None "alpha-saves" "claim-uid")].
Definition sample_source : DataSourceSnapshot :=
  MkSource sample_target "factorio" sample_digest64 sample_digest64 sample_paths.
Definition sample_artifact_id : string :=
  match ArtifactID "backup-uid" with Ok i => i | Err _ => "" end.
Definition sample_artifact : BackupArtifact :=
  MkArtifact (MkProvenance sample_backup_ref sample_secret_ref) sample_artifact_id BackupFormatVersion
    sample_digest64 4096 1 1 (MkVerification VerificationVerified (Some 2%Z)).
Definition sample_candidate_name (path : string) : string :=
  match RestoreCandidateID "restore-uid" path with Ok n => n | Err _ => "" end.
Definition sample_candidate (path mount : string) : DataPathIdentity :=
  MkPath path mount (MkRef None (sample_candidate_name path) "candidate-uid").
Definition sample_input (candidate : DataPathIdentity) : Input :=
  MkInput InputVersion StagePopulate (MkRef None "restore" "restore-uid") sample_backup_ref sample_target
    "restore-worker-lease" sample_secret_ref sample_artifact sample_source "factorio" sample_digest64
    sample_digest64 [MkContract "saves" "/data/saves"] "data-identity" sample_paths [candidate].

Lemma sample_input_valid :
  @ValidateInput rfc1123 (sample_input (sample_candidate "saves" "/data/saves")) = Ok tt.
Proof. vm_compute. reflexivity. Qed.

Lemma ValidateInput_isolates_witness :
  NoDup (claimUID <$> in_CandidatePaths (sample_input (sample_candidate "saves" "/data/saves"))).
Proof.
  refine (proj1 (proj2 (proj2 (proj2
    (@ValidateInput_isolates rfc1123 (sample_input (sample_candidate "saves" "/data/saves"))
       sample_input_valid eq_refl _))))).
  intros p Hp. repeat (apply elem_of_cons in Hp as [->|Hp]; [done|]). by apply not_elem_of_nil in Hp.
Defined.

(** The hypothesis on mount paths is needed: a candidate for a path the adapter
    does not have passes the check when its mount path is empty, because the
    lookup of an unknown path also yields the empty string. *)
Lemma ValidateInput_unknown_path :
  @ValidateInput rfc1123 (sample_input (sample_candidate "unknown" "")) = Ok tt.
Proof. vm_compute. reflexivity. Qed.
