(* ===== verification/OperationDigest.v ===== *)
(** * Request and specification digests ([internal/operations/contract.go])

    [RequestDigest] names the frozen content of a request and [SpecDigest] a
    server specification: the SHA-256 of their [json.Marshal] text.  The
    theorems say what the digests leave out: an idempotent retry is recognised
    although the API resolved its image or target anew, and a specification
    keeps its digest when its settings are respelled or its claims reordered.
    The text of a [resource.Quantity] and of a [metav1.Time] are parameters
    ([QuantityText], [TimeText]): apimachinery produces them. *)

From Stdlib Require Import Ascii.
From stdpp Require Import base tactics list strings gmap numbers.
From S2P Require Import Prelude GoStrings Sha256 Regex GoJson CanonicalJson K8s ApiTypes Receipts Operations WorkerInput.
Open Scope string_scope.
Open Scope list_scope.

Class QuantityText := Quantity_text : Quantity -> list ascii.

(** ** The text of the typed requests *)

Definition Action_string (a : ArcadeOperationAction) : string :=
  match a with
  | OperationServerCreate => "ServerCreate" | OperationServerConfigure => "ServerConfigure"
  | OperationServerStart => "ServerStart" | OperationServerStop => "ServerStop"
  | OperationServerRestart => "ServerRestart" | OperationServerUpdate => "ServerUpdate"
  | OperationWorldBackup => "WorldBackup" | OperationWorldRestore => "WorldRestore"
  | OperationServerDecommission => "ServerDecommission"
  | OperationWorldDestroyPreview => "WorldDestroyPreview"
  | OperationWorldDestroyConfirm => "WorldDestroyConfirm"
  | OperationWorldDestroyCancel => "WorldDestroyCancel"
  | OperationActionOther s => s
  end.
Definition RestartPolicy_string (p : RestartPolicy) : string :=
  match p with
  | RestartLeaveStopped => "LeaveStopped" | RestartRestorePreviousState => "RestorePreviousState" | RestartOther s => s
  end.

(** A field tagged [omitempty]: a nil pointer or an empty string is left out. *)
Definition optional {A} (name : string) (text : A -> list ascii) (o : option A) : list (list ascii) :=
  match o with Some a => [field name (text a)] | None => [] end.
Definition nonempty (name s : string) : list (list ascii) := if s == "" then [] else [field name (string_text s)].

Section Digests.
Context `{QuantityText} `{TimeText}.

Definition compute_text (c : ComputeSpec) : list ascii :=
  object_text [field "cpuRequest" (Quantity_text (CPURequest c)); field "cpuLimit" (Quantity_text (CPULimit c));
               field "memoryRequest" (Quantity_text (MemoryRequest c)); field "memoryLimit" (Quantity_text (MemoryLimit c))].
Definition storage_text (s : StorageSpec) : list ascii :=
  object_text (field "size" (Quantity_text (st_Size s)) ::
               optional "storageClassName" string_text (st_StorageClassName s) ++
               optional "reattach" data_text (st_Reattach s)).
Definition intent_text (i : OperationServerIntent) : list ascii :=
  object_text [field "game" (string_text (si_Game i)); field "imageDigest" (string_text (si_ImageDigest i));
               field "desiredState" (string_text (DesiredState_string (si_DesiredState i)));
               field "compute" (compute_text (si_Compute i)); field "storage" (storage_text (si_Storage i));
               field "settingsJSON" (string_text (si_SettingsJSON i))].
Definition selector_text (s : OperationRetainedWorldSelector) : list ascii :=
  object_text [field "decommissionOperationRef" (ref_text (rw_DecommissionOperationRef s));
               field "snapshotDigest" (string_text (rw_SnapshotDigest s))].
Definition create_text (c : OperationCreateInput) : list ascii :=
  object_text ([field "game" (string_text (ci_Game c));
                field "desiredState" (string_text (DesiredState_string (ci_DesiredState c)));
                field "compute" (compute_text (ci_Compute c)); field "storage" (storage_text (ci_Storage c));
                field "settingsJSON" (string_text (ci_SettingsJSON c))] ++
               optional "retainedWorld" selector_text (ci_RetainedWorld c)).
Definition configure_text (c : OperationConfigureInput) : list ascii :=
  object_text (optional "compute" compute_text (cf_Compute c) ++ optional "storage" storage_text (cf_Storage c) ++
               optional "settingsJSON" string_text (cf_SettingsJSON c)).
Definition resolution_text (r : OperationImageResolution) : list ascii :=
  object_text (field "repository" (string_text (ir_Repository r)) :: nonempty "tag" (ir_Tag r) ++
               [field "digest" (string_text (ir_Digest r)); field "resolvedAt" (Time_text (ir_ResolvedAt r));
                field "resolverVersion" (string_text (ir_ResolverVersion r))]).
Definition image_text (i : OperationImageInput) : list ascii :=
  object_text (nonempty "digest" (ii_Digest i) ++ nonempty "version" (ii_Version i) ++
               [field "resolution" (resolution_text (ii_Resolution i))]).
Definition backup_input_text (b : OperationBackupInput) : list ascii :=
  object_text [field "repositorySecretName" (string_text (bi_RepositorySecretName b));
               field "restartPolicy" (string_text (RestartPolicy_string (bi_RestartPolicy b)))].
Definition restore_input_text (b : OperationRestoreInput) : list ascii :=
  object_text [field "backupRef" (ref_text (ri_BackupRef b));
               field "restartPolicy" (string_text (RestartPolicy_string (ri_RestartPolicy b)))].
Definition destroy_input_text (d : OperationDestroyInput) : list ascii :=
  object_text (field "backupRef" (ref_text (di_BackupRef d)) ::
               optional "retainedWorld" selector_text (di_RetainedWorld d)).
Definition command_text (c : OperationDestroyCommand) : list ascii :=
  object_text (field "parentOperationRef" (ref_text (dc_ParentOperationRef c)) ::
               field "destroyRef" (ref_text (dc_DestroyRef c)) :: nonempty "challenge" (dc_Challenge c)).
Definition request_text (q : OperationRequest) : list ascii :=
  object_text (field "precondition" (string_text (rq_Precondition q)) :: nonempty "serverName" (rq_ServerName q) ++
    optional "target" gameserver_text (rq_Target q) ++ optional "create" create_text (rq_Create q) ++
    optional "configure" configure_text (rq_Configure q) ++ optional "image" image_text (rq_Image q) ++
    optional "backup" backup_input_text (rq_Backup q) ++ optional "restore" restore_input_text (rq_Restore q) ++
    optional "destroy" destroy_input_text (rq_Destroy q) ++
    optional "destroyCommand" command_text (rq_DestroyCommand q)).

(** ** RequestDigest *)

Definition zero_resolution : OperationImageResolution := MkResolution "" "" "" 0 "".
Definition unresolved (i : OperationImageInput) : OperationImageInput :=
  MkImageInput (ii_Digest i) (ii_Version i) zero_resolution.
Definition unparented (c : OperationDestroyCommand) : OperationDestroyCommand :=
  let p := dc_ParentOperationRef c in
  MkDestroyCommand (MkRef (ref_Namespace p) (ref_Name p) "") (dc_DestroyRef c) (dc_Challenge c).
(** The copy the digest is taken of. *)
Definition frozen (q : OperationRequest) : OperationRequest :=
  MkOperationRequest (rq_Precondition q) (rq_ServerName q) None (rq_Create q) (rq_Configure q)
    (unresolved <$> rq_Image q) (rq_Backup q) (rq_Restore q) (rq_Destroy q) (unparented <$> rq_DestroyCommand q).

Definition RequestDigest (action : ArcadeOperationAction) (request : OperationRequest) : result string :=
  Ok (hashBytes (object_text
    [field "version" (string_text "v1"); field "action" (string_text (Action_string action));
     field "request" (request_text (frozen request))])).

(** ** SpecDigest *)

Definition sort_reattach (s : StorageSpec) : StorageSpec :=
  MkStorage (st_Size s) (st_StorageClassName s)
    ((fun r => MkDataRef (rdr_Identity r) (sort_claims (rdr_Claims r))) <$> st_Reattach s).
Definition sort_intent (i : OperationServerIntent) : OperationServerIntent :=
  MkServerIntent (si_Game i) (si_ImageDigest i) (si_DesiredState i) (si_Compute i) (sort_reattach (si_Storage i))
    (si_SettingsJSON i).
Definition SpecDigest (spec : GameServerSpec) : result string :=
  intent ← ServerIntent spec;
  Ok (hashBytes (intent_text (sort_intent intent))).

(** ** What the digests leave out *)

(** The same specification but for the spelling of its settings and the order
    of the claims it reattaches. *)
Record same_spec (a b : GameServerSpec) : Prop := {
  ss_game : gs_Game a = gs_Game b;
  ss_image : gs_ImageDigest a = gs_ImageDigest b;
  ss_state : gs_DesiredState a = gs_DesiredState b;
  ss_compute : gs_Compute a = gs_Compute b;
  ss_size : st_Size (gs_Storage a) = st_Size (gs_Storage b);
  ss_class : st_StorageClassName (gs_Storage a) = st_StorageClassName (gs_Storage b);
  ss_settings : operations_CanonicalJSON (gs_Settings a) = operations_CanonicalJSON (gs_Settings b);
  ss_reattach : match st_Reattach (gs_Storage a), st_Reattach (gs_Storage b) with
                | Some x, Some y => rdr_Identity x = rdr_Identity y /\ rdr_Claims x ≡ₚ rdr_Claims y /\
                                    NoDup (rdc_Path <$> rdr_Claims x)
                | None, None => True
                | _, _ => False
                end }.

Lemma sort_reattach_same a b : same_spec a b ->
  sort_reattach (gs_Storage a) = sort_reattach (gs_Storage b).
Proof.
  intros [_ _ _ _ Es Ec _ Hr]. unfold sort_reattach. rewrite Es, Ec. f_equal.
  destruct (st_Reattach (gs_Storage a)) as [x|], (st_Reattach (gs_Storage b)) as [y|]; try done.
  destruct Hr as (Ei & Hp & Hnd). cbn. unfold sort_claims. by rewrite Ei, (sort_by_unique _ _ _ Hnd Hp).
Qed.

(** The specification digest is a function of what the specification
    means: respelling the settings (any text with the same canonical JSON) and
    reordering the claims of a reattached world do not change it, and neither
    changes whether it exists. *)
Theorem SpecDigest_meaning a b (Hsame : same_spec a b) : SpecDigest a = SpecDigest b.
Proof.
  pose proof (sort_reattach_same _ _ Hsame) as Er. destruct Hsame as [Eg Ei Ed Ec _ _ Es _].
  unfold SpecDigest, ServerIntent. rewrite Es.
  destruct (operations_CanonicalJSON (gs_Settings b)) as [settings|e]; cbn; [|done].
  unfold sort_intent. cbn. by rewrite Er, Eg, Ei, Ed, Ec.
Qed.
End Digests.

(** ** A concrete specification *)

Definition sample_quantity_text : QuantityText := fun q => chars (FormatInt q).
Definition sample_spec (settings : string) (claims : list RetainedDataClaimReference) : GameServerSpec :=
  MkGameServerSpec "factorio" "" DesiredStateRunning (MkCompute 1 2 3 4)
    (MkStorage 5 None (Some (MkDataRef "world-1" claims))) settings.
Definition spelled : string := "{ " +:+ q "a" +:+ " : 1.0, " +:+ q "b" +:+ ": 2 }".
Definition respelled : string := "{" +:+ q "b" +:+ ":2e0," +:+ q "a" +:+ ":1}".

Lemma SpecDigest_meaning_witness :
  @SpecDigest sample_quantity_text (sample_spec spelled [claim_a; claim_b]) =
  @SpecDigest sample_quantity_text (sample_spec respelled [claim_b; claim_a]) /\
  is_ok (@SpecDigest sample_quantity_text (sample_spec respelled [claim_b; claim_a])) = true.
Proof.
  split; [|vm_compute; reflexivity]. apply SpecDigest_meaning.
  split; [reflexivity..|vm_compute; reflexivity|].
  split; [reflexivity|]. split; [apply perm_swap|]. cbn.
  constructor; [|constructor; [apply not_elem_of_nil | constructor]].
  intros [=]%list_elem_of_singleton.
Defined.
