(* ===== verification/KubeDestroy.v ===== *)
(** * The destroy worker's resources ([internal/platform/kube/destroy.go])

    Deterministic names, the data-operation fence a destroy request holds, and
    the preflight Job with its narrow authority.  The theorems show that what
    [BuildDestroyResources] returns can neither mount nor delete a world. *)

From Stdlib Require Import Ascii.
From stdpp Require Import base tactics list strings gmap numbers.
From S2P Require Import Prelude GoStrings Regex Sha256 K8s ApiTypes DataOperation Receipts Operations GameDefinition KubeObjects KubePlan WorkerInput.
Open Scope string_scope.
Open Scope list_scope.

(** ** Names *)

Definition LabelDataOperation := "arcade.gobha.me/data-operation".
Definition AnnotationArtifactID := "arcade.gobha.me/artifact-id".
Definition LabelDestroyUID := "arcade.gobha.me/destroy-uid".
Definition LabelDestroyStage := "arcade.gobha.me/destroy-stage".
Definition AnnotationDestroyName := "arcade.gobha.me/destroy-name".
Definition AnnotationDestroyPodAuthorized := "arcade.gobha.me/destroy-pod-authorized".
Definition DestroyFinalizer := "arcade.gobha.me/destroy-protection".
Definition DestroySchedulingGate := "arcade.gobha.me/destroy-authorized".
Definition destroyInputKey := "input.json".

(** The first 16 bytes of a digest, in hexadecimal. *)
Definition short_digest (preimage : string) : string :=
  EncodeToString (take 16 (Sum256 (chars preimage))).

Definition DataOperationLeaseName (dataIdentity : string) : string :=
  "data-operation-" +:+ short_digest ("arcadectl/data-operation/" +:+ dataIdentity).

Definition DestroyResourceName (uid : string) : string :=
  if uid == "" then "" else "destroy-" +:+ short_digest ("arcadectl/destroy-job/" +:+ uid) +:+ "-preflight".

Definition DestroyWorkerLeaseName (uid : string) : string :=
  if uid == "" then "" else "destroy-worker-" +:+ short_digest ("arcadectl/destroy-worker/" +:+ uid).

Definition DestroyOperationLeaseMatches (lease : option Lease) (operation : ExactLocalReference)
    (serverName dataIdentity : string) : bool :=
  match lease with
  | None => false
  | Some lease =>
      let m := ls_meta lease in
      if incomplete_ref operation || (serverName == "") || (dataIdentity == "") ||
         (len (om_OwnerReferences m) != 0%Z) || (ls_HolderIdentity lease != Some (ref_UID operation)) ||
         (om_Name m != DataOperationLeaseName dataIdentity) ||
         (mget (om_Labels m) LabelManagedBy != ManagerName) ||
         (mget (om_Labels m) LabelDestroyUID != ref_UID operation) ||
         (mget (om_Labels m) LabelInstance != serverName) ||
         (mget (om_Labels m) LabelDataIdentity != dataIdentity) ||
         (mget (om_Annotations m) AnnotationDestroyName != ref_Name operation)
      then false else true
  end.

(** ** The preflight Job *)

Record DestroyResources := MkDestroyResources {
  dr_Input : ConfigMap;
  dr_ServiceAccount : ServiceAccount;
  dr_Role : Role;
  dr_RoleBinding : RoleBinding;
  dr_Job : Job }.

Definition pinned_host : ascii -> bool := fun c => is_lower c || is_digit c || one_of "._:/-" c.
(** [^[a-z0-9][a-z0-9._:/-]*@sha256:[0-9a-f]{64}$] *)
Definition pinnedWorkerImagePattern : regex :=
  Cat alnum (Cat (Star (Cls pinned_host)) (Cat (Lit "@sha256:") (Times 64 (Cls is_hex_char)))).

Definition gd_Name (d : GameDestroy) : string := om_Name (gd_meta d).
Definition gd_Namespace (d : GameDestroy) : string := om_Namespace (gd_meta d).
Definition gd_UID (d : GameDestroy) : string := om_UID (gd_meta d).
Definition target_claims (d : GameDestroy) : list RetainedDataClaimReference :=
  rdr_Claims (dt_Data (gd_Target (gd_Spec d))).
Definition target_identity (d : GameDestroy) : string := rdr_Identity (dt_Data (gd_Target (gd_Spec d))).
(** [arcadev1alpha1.ExactLocalReference{Name: d.Name, UID: string(d.UID)}] *)
Definition self_ref (d : GameDestroy) : ExactLocalReference := MkRef None (gd_Name d) (gd_UID d).

Definition destroy_owner (d : GameDestroy) : OwnerReference :=
  MkOwnerReference GroupVersion "GameDestroy" (gd_Name d) (gd_UID d) (Some true) (Some true).

Definition destroy_labels (d : GameDestroy) : StringMap :=
  <[LabelManagedBy := ManagerName]> (<[LabelName := "destroy-worker"]> (<[LabelDestroyUID := gd_UID d]>
  (<[LabelDestroyStage := Stage_string StagePreflight]> (<[LabelDataOperation := "destroy"]>
  (<[LabelDataIdentity := target_identity d]>
  (<[LabelInstance := ref_Name (dt_GameServer (gd_Target (gd_Spec d)))]> ∅)))))).

Definition destroy_rules (d : GameDestroy) (input : Input) : list PolicyRule :=
  [MkRule ["arcade.gobha.me"] ["gamedestroys"] [gd_Name d] ["get"];
   MkRule ["arcade.gobha.me"] ["gamebackups"] [ref_Name (in_BackupRef input)] ["get"];
   MkRule [""] ["pods"] [] ["get"];
   MkRule [""] ["secrets"] [ref_Name (sec_ref (in_RepositorySecretRef input))] ["get"];
   MkRule ["coordination.k8s.io"] ["leases"] [in_WorkerLeaseName input] ["get"; "update"];
   MkRule ["coordination.k8s.io"] ["leases"] [DataOperationLeaseName (target_identity d)] ["get"]].

Definition destroy_volumes (inputName : string) : list Volume :=
  [MkVolume "input" (VolumeConfigMap inputName (Some 292%Z));
   MkVolume "credentials" (VolumeEmptyDir "Memory" (Some (Mi 2)));
   MkVolume "work" (VolumeEmptyDir "" (Some (Mi 512)));
   MkVolume "authority" (VolumeProjected (Some 292%Z)
     [ProjectServiceAccountToken "token" (Some 600%Z);
      ProjectConfigMap "kube-root-ca.crt" [("ca.crt", "ca.crt")]])].

Definition worker_security : SecurityContext := MkSecurityContext (Some false) (Some true) ["ALL"].
Definition resource_list (cpu memory storage : Quantity) : gmap string Quantity :=
  <["cpu" := cpu]> (<["memory" := memory]> (<["ephemeral-storage" := storage]> ∅)).
Definition field_env (name path : string) : EnvVar := MkEnvVar name "" (Some (MkFieldRef "" path)).

Definition destroy_authorizer (workerImage : string) : Container :=
  MkContainer "destroy-authorizer" workerImage "IfNotPresent" ["/arcadectl-destroy-authorizer"] [] []
    [MkVolumeMount "input" "/arcadectl/input" true;
     MkVolumeMount "credentials" "/arcadectl/authorized-credentials" false;
     MkVolumeMount "authority" "/var/run/secrets/kubernetes.io/serviceaccount" true]
    (MkResources (resource_list (milli 25) (Mi 32) (Mi 8)) (resource_list (milli 100) (Mi 64) (Mi 16)))
    worker_security None
    [field_env "POD_NAMESPACE" "metadata.namespace"; field_env "POD_NAME" "metadata.name";
     field_env "POD_UID" "metadata.uid"] "" "" [] "".

Definition destroy_container (workerImage : string) : Container :=
  MkContainer "destroy-worker" workerImage "IfNotPresent" ["/arcadectl-destroy-worker"] [] []
    [MkVolumeMount "input" "/arcadectl/input" true; MkVolumeMount "credentials" "/arcadectl/credentials" true;
     MkVolumeMount "work" "/arcadectl/work" false]
    (MkResources (resource_list (milli 100) (Mi 128) (Mi 64)) (resource_list (milli 500) (Mi 512) (Mi 768)))
    worker_security None [] DefaultTerminationPath "File" [] "".

Definition destroy_job (d : GameDestroy) (workerImage : string) (identity : RuntimeIdentity)
    (name authorityName inputName : string) (labels annotations : StringMap) : Job :=
  MkJob
    (MkObjectMeta name (gd_Namespace d) "" 0 "" 0 None [] labels annotations [destroy_owner d])
    (MkJobSpec (Some 0%Z) (Some 3600%Z) (Some 1%Z) (Some 1%Z) (Some true) None None None None labels annotations
       (template_pod (Some false)
          (MkPodSecurity (Some true) (Some (UserID identity)) (Some (GroupID identity)) None None
             (Some "RuntimeDefault") [FSGroup identity])
          [destroy_authorizer workerImage] [destroy_container workerImage] (destroy_volumes inputName)
          name authorityName "Never" [DestroySchedulingGate]) "")
    [] None.

Section Build.
Context `{NameValidation} `{TimeText}.

(** The condition of "destroy worker input does not match ...". *)
Definition input_matches (d : GameDestroy) (input : Input) : bool :=
  is_ok (ValidateInput input) && (in_Stage input == StagePreflight) &&
  (in_OperationRef input == self_ref d) && (gd_BackupRef (gd_Spec d) == Some (in_BackupRef input)) &&
  (gd_RepositorySecretRef (gd_Spec d) == Some (in_RepositorySecretRef input)) &&
  (in_WorkerLeaseName input == DestroyWorkerLeaseName (gd_UID d)) &&
  (in_Target input == src_GameServer (in_Source input)) &&
  (gsr_ref (in_Target input) == dt_GameServer (gd_Target (gd_Spec d))) &&
  (in_TargetGame input == dt_Game (gd_Target (gd_Spec d))) &&
  is_label (target_identity d) && (len (in_TargetPaths input) == len (target_claims d)).

Definition sort_contracts : list PathContract -> list PathContract := sort_by pc_Name.

Definition with_target_paths (input : Input) (paths : list PathContract) : Input :=
  MkInput (in_Version input) (in_Stage input) (in_OperationRef input) (in_BackupRef input) (in_Target input)
    (in_WorkerLeaseName input) (in_RepositorySecretRef input) (in_Artifact input) (in_Source input)
    (in_TargetGame input) (in_TargetImageDigest input) (in_TargetSettingsDigest input) paths
    (in_PreviousDataIdentity input) (in_PreviousData input) (in_CandidatePaths input).

Definition BuildDestroyResources (destroy : option GameDestroy) (input : Input) (workerImage : string)
    (identity : RuntimeIdentity) : result DestroyResources :=
  match destroy with
  | None => fail "exact verified GameDestroy identity is required"
  | Some d =>
    if (gd_Name d == "") || (gd_Namespace d == "") || (gd_UID d == "") || negb (is_label (gd_Namespace d)) ||
       (gd_Mode (gd_Spec d) != DestroyModeVerifiedBackup) || negb (present (gd_BackupRef (gd_Spec d))) ||
       negb (present (gd_RepositorySecretRef (gd_Spec d)))
    then fail "exact verified GameDestroy identity is required"
    else if negb (MatchString pinnedWorkerImagePattern workerImage)
    then fail "destroy worker image must be pinned by sha256 digest"
    else if (UserID identity <=? 0)%Z || (GroupID identity <=? 0)%Z || (FSGroup identity <=? 0)%Z
    then fail "destroy worker identity must be non-root"
    else if negb (input_matches d input)
    then fail "destroy worker input does not match the exact preflight operation"
    else
      '(claimPaths, _, _) ← distinct
            (fun c => (rdc_Path c == "") || incomplete_ref (rdc_ClaimRef c))
            rdc_Path claim_name claim_uid
            (Messages "destroy target claim is incomplete" "destroy target paths overlap"
               "destroy target claim names overlap" "destroy target claim UIDs overlap") (target_claims d);
      _ ← for_each (fun path => if bool_decide (pc_Name path ∈ claimPaths) then Ok tt
                                else fail "destroy target paths differ from verified backup") (in_TargetPaths input);
      let contents := unchars (Input_text (with_target_paths input (sort_contracts (in_TargetPaths input))) ++
                               [ascii_of_nat 10]) in
      let name := DestroyResourceName (gd_UID d) in
      let authorityName := name +:+ "-authority" in
      let labels := destroy_labels d in
      let annotations := <[AnnotationArtifactID := art_ID (in_Artifact input)]>
                           (<[AnnotationDestroyName := gd_Name d]> ∅) in
      let authority_meta := new_meta authorityName (gd_Namespace d) labels [destroy_owner d] in
      let inputName := name +:+ "-input" in
      Ok (MkDestroyResources
            (MkConfigMap (MkTypeMeta "v1" "ConfigMap")
               (new_meta inputName (gd_Namespace d) labels [destroy_owner d]) ∅
               (<[destroyInputKey := contents]> ∅) (Some true))
            (MkServiceAccount authority_meta (Some false))
            (MkRole authority_meta (destroy_rules d input))
            (MkRoleBinding authority_meta [MkSubject "ServiceAccount" authorityName (gd_Namespace d)]
               (MkRoleRef "rbac.authorization.k8s.io" "Role" authorityName))
            (destroy_job d workerImage identity name authorityName inputName labels annotations))
  end.
End Build.

(** ** The data-operation fence *)

Lemma lease_matches_inv lease operation server identity :
  DestroyOperationLeaseMatches (Some lease) operation server identity = true ->
  ref_Namespace operation = None /\ ref_UID operation <> "" /\ om_OwnerReferences (ls_meta lease) = [] /\
  ls_HolderIdentity lease = Some (ref_UID operation) /\
  om_Name (ls_meta lease) = DataOperationLeaseName identity /\
  mget (om_Labels (ls_meta lease)) LabelInstance = server /\
  mget (om_Labels (ls_meta lease)) LabelDataIdentity = identity /\
  mget (om_Annotations (ls_meta lease)) AnnotationDestroyName = ref_Name operation.
Proof.
  unfold DestroyOperationLeaseMatches, incomplete_ref. destruct (_ || _)%bool eqn:E; [done|]. intros _.
  bool_prop. split_and!; try done. destruct (om_OwnerReferences _); [done|]. unfold len in *. cbn in *. lia.
Qed.

(** One data-operation Lease fences at most one destroy of one world: if
    a Lease proves the fence of two requests, they are the same operation, for
    the same server and the same data identity. *)
Theorem DestroyOperationLeaseMatches_unique lease op op' server server' identity identity'
  (Hm : DestroyOperationLeaseMatches lease op server identity = true)
  (Hm' : DestroyOperationLeaseMatches lease op' server' identity' = true) :
  op = op' /\ server = server' /\ identity = identity'.
Proof.
  destruct lease as [lease|]; [|done].
  apply lease_matches_inv in Hm as (? & _ & _ & ? & _ & ? & ? & ?).
  apply lease_matches_inv in Hm' as (? & _ & _ & ? & _ & ? & ? & ?).
  destruct op, op'; cbn in *; simplify_eq. split_and!; congruence.
Qed.

Definition sample_lease : Lease :=
  MkLease
    (MkObjectMeta (DataOperationLeaseName "data-identity") "games" "lease-uid" 1 "1" 1 None []
       (<[LabelManagedBy := ManagerName]> (<[LabelInstance := "alpha"]>
          (<[LabelDataIdentity := "data-identity"]> (<[LabelDestroyUID := "destroy-uid"]> ∅))))
       (<[AnnotationDestroyName := "retire-alpha"]> ∅) [])
    (Some "destroy-uid") (Some 5%Z).
Definition sample_operation : ExactLocalReference := MkRef None "retire-alpha" "destroy-uid".

Lemma DestroyOperationLeaseMatches_unique_witness :
  sample_operation = sample_operation /\ "alpha" = "alpha" /\ "data-identity" = "data-identity".
Proof.
  apply (DestroyOperationLeaseMatches_unique (Some sample_lease)); vm_compute; reflexivity.
Defined.

(** ** What the worker may do *)

Section Authority.
Context `{NameValidation} `{TimeText}.

Lemma lease_names_differ uid identity : uid <> "" -> DestroyWorkerLeaseName uid <> DataOperationLeaseName identity.
Proof.
  intros Huid. unfold DestroyWorkerLeaseName, DataOperationLeaseName. rewrite bool_decide_eq_false_2 by done.
  generalize (short_digest ("arcadectl/destroy-worker/" +:+ uid)),
    (short_digest ("arcadectl/data-operation/" +:+ identity)). done.
Qed.

Lemma BuildDestroyResources_inv d input image identity r :
  BuildDestroyResources (Some d) input image identity = Ok r ->
  gd_UID d <> "" /\ MatchString pinnedWorkerImagePattern image = true /\ (0 < UserID identity)%Z /\
  input_matches d input = true /\
  role_Rules (dr_Role r) = destroy_rules d input /\
  exists name authority inputName labels annotations,
    dr_Job r = destroy_job d image identity name authority inputName labels annotations.
Proof.
  unfold BuildDestroyResources. intros Hb. ok_inv. destruct x as [[claimPaths ?] ?]. ok_inv. subst r. bool_prop.
  split_and!; try done; cbn; eauto 6.
Qed.

Lemma input_matches_lease d input : input_matches d input = true ->
  in_WorkerLeaseName input = DestroyWorkerLeaseName (gd_UID d).
Proof. unfold input_matches. intros Hm. bool_prop. done. Qed.

(** The preflight worker has no way to reach a world.  Its Pod mounts no
    claim, its Role grants no verb but [get] except [update] on its own worker
    Lease (which is not the data-operation fence) and names no claims; the Job
    is created suspended and gated, runs as a non-root user, and every
    container's image is pinned by digest. *)
Theorem BuildDestroyResources_no_world_access d input image identity r
  (Hb : BuildDestroyResources (Some d) input image identity = Ok r) :
  let pod := job_TemplateSpec (job_Spec (dr_Job r)) in
  (forall v n b, v ∈ pod_Volumes pod -> vol_Source v <> VolumePersistentVolumeClaim n b) /\
  (forall rule, rule ∈ role_Rules (dr_Role r) -> "persistentvolumeclaims" ∉ rule_Resources rule /\
     forall verb, verb ∈ rule_Verbs rule -> verb = "get" \/
       verb = "update" /\ rule_Resources rule = ["leases"] /\
       rule_ResourceNames rule = [DestroyWorkerLeaseName (gd_UID d)]) /\
  DestroyWorkerLeaseName (gd_UID d) <> DataOperationLeaseName (target_identity d) /\
  job_Suspend (job_Spec (dr_Job r)) = Some true /\ pod_SchedulingGates pod = [DestroySchedulingGate] /\
  RunAsNonRoot (pod_SecurityContext pod) = Some true /\
  RunAsUser (pod_SecurityContext pod) = Some (UserID identity) /\ (0 < UserID identity)%Z /\
  (forall c, c ∈ pod_InitContainers pod ++ pod_Containers pod ->
     MatchString pinnedWorkerImagePattern (con_Image c) = true).
Proof.
  apply BuildDestroyResources_inv in Hb as (Hu & Hi & Hr & Hin & Hrules & name & auth & iname & l & a & Hj).
  apply input_matches_lease in Hin. intros pod. subst pod. rewrite Hj, Hrules. clear Hj Hrules.
  cbn [job_Spec destroy_job job_TemplateSpec template_pod pod_Volumes pod_SchedulingGates pod_SecurityContext
       RunAsNonRoot RunAsUser pod_InitContainers pod_Containers job_Suspend].
  split_and!; try done.
  - intros v n b Hv. unfold destroy_volumes in Hv.
    repeat (apply elem_of_cons in Hv as [->|Hv]; [done|]). by apply not_elem_of_nil in Hv.
  - intros rule Hrule. unfold destroy_rules in Hrule. rewrite Hin in Hrule.
    repeat (apply elem_of_cons in Hrule as [->|Hrule]; [cbn; split; [set_solver|]; set_solver|]).
    by apply not_elem_of_nil in Hrule.
  - by apply lease_names_differ.
  - intros c Hc. cbn [app] in Hc. repeat (apply elem_of_cons in Hc as [->|Hc]; [done|]). by apply not_elem_of_nil in Hc.
Qed.
End Authority.

(** ** A concrete destroy request *)

Definition sample_destroy_meta : ObjectMeta :=
  MkObjectMeta "retire-alpha" "games" "destroy-uid" 1 "11" 1 None [DestroyFinalizer] ∅ ∅ [].
Definition sample_claim : RetainedDataClaimReference :=
  MkClaimRef "saves" (MkRef None "alpha-saves" "claim-uid").
Definition sample_destroy_spec : GameDestroySpec :=
  MkGameDestroySpec (MkDestroyTarget (MkRef None "alpha" "server-uid") "factorio" (MkDataRef "data-identity" [sample_claim]))
    DestroyModeVerifiedBackup (Some sample_backup_ref) (Some sample_secret_ref) "" "challenge" false.
Definition sample_destroy (status : GameDestroyStatus) : GameDestroy :=
  MkGameDestroy sample_destroy_meta sample_destroy_spec status.
Definition empty_destroy_status : GameDestroyStatus :=
  MkGameDestroyStatus 0 DestroyPhaseUnset None None [] None None [].
Definition sample_preflight_input : Input :=
  MkInput InputVersion StagePreflight (self_ref (sample_destroy empty_destroy_status)) sample_backup_ref sample_target
    (DestroyWorkerLeaseName "destroy-uid") sample_secret_ref sample_artifact sample_source "factorio" sample_digest64
    sample_digest64 [MkContract "saves" "/data/saves"] "" [] [].
Definition sample_worker_image : string := "registry.example/arcadectl@" +:+ sample_digest64.
Definition sample_identity : RuntimeIdentity := MkIdentity 1000 1000 1000.
Definition sample_time_text : TimeText := fun _ => chars "null".

Definition sample_resources : result DestroyResources :=
  @BuildDestroyResources rfc1123 sample_time_text (Some (sample_destroy empty_destroy_status)) sample_preflight_input
    sample_worker_image sample_identity.

Lemma BuildDestroyResources_no_world_access_witness :
  match sample_resources with
  | Ok r => job_Suspend (job_Spec (dr_Job r)) = Some true
  | Err _ => False
  end.
Proof.
  destruct sample_resources as [r|e] eqn:E.
  - exact (proj1 (proj2 (proj2 (proj2 (@BuildDestroyResources_no_world_access rfc1123 sample_time_text
      _ _ _ _ r E))))).
  - exfalso. assert (is_ok sample_resources = true) as Hok by (vm_compute; reflexivity).
    rewrite E in Hok. discriminate Hok.
Defined.
