(* ===== verification/OperationFence.v ===== *)
(** * Who may run a game server beside a data operation

    A data operation fences a retained world with a Lease.  The fence lets the
    server run again only for the operation's own settlement: a backup or
    restore that records the runtime it settles
    ([internal/platform/kube/backup.go], [restore.go]), or an ArcadeOperation
    whose journaled transition is exactly the server's current specification
    ([internal/controller/arcadeoperation_server.go]). *)

From Stdlib Require Import Ascii.
From stdpp Require Import base tactics list strings gmap numbers.
From S2P Require Import Prelude GoStrings GoJson CanonicalJson K8s ApiTypes Operations KubeObjects KubePlan KubeApi WorkerInput OperationDigest KubeDestroy.
Open Scope string_scope.
Open Scope list_scope.

Definition LabelBackupUID := "arcade.gobha.me/backup-uid".
Definition AnnotationBackupName := "arcade.gobha.me/backup-name".
Definition AnnotationRuntimeSettlementState := "arcade.gobha.me/runtime-settlement-state".
Definition AnnotationRuntimeSettlementGeneration := "arcade.gobha.me/runtime-settlement-generation".
Definition LabelRestoreUID := "arcade.gobha.me/restore-uid".
Definition AnnotationRestoreName := "arcade.gobha.me/restore-name".
Definition AnnotationRestoreSettlementData := "arcade.gobha.me/restore-settlement-data-identity".

Definition operationReceiptUIDLabel := "arcade.gobha.me/operation-uid".
Definition operationReceiptNameAnnotation := "arcade.gobha.me/operation-name".
Definition operationStepAnnotation := "arcade.gobha.me/operation-step".
Definition operationSpecDigestAnnotation := "arcade.gobha.me/operation-spec-digest".
Definition operationFinalizer := "arcade.gobha.me/operation-fence".

Definition lease_label (l : Lease) (k : string) : string := mget (om_Labels (ls_meta l)) k.
Definition lease_annotation (l : Lease) (k : string) : string := mget (om_Annotations (ls_meta l)) k.

(** ** The fences of backups and restores *)

Definition BackupOperationLeaseMatches (lease : option Lease) (operation : ExactLocalReference) (serverName : string) :
    bool :=
  match lease with
  | None => false
  | Some l =>
      if (ref_Name operation == "") || (ref_UID operation == "") || (serverName == "") ||
         (len (om_OwnerReferences (ls_meta l)) != 0%Z) || (ls_HolderIdentity l != Some (ref_UID operation)) ||
         (lease_label l LabelManagedBy != ManagerName) || (lease_label l LabelBackupUID != ref_UID operation) ||
         (lease_label l LabelInstance != serverName) || (lease_annotation l AnnotationBackupName != ref_Name operation)
      then false
      else
        let dataIdentity := lease_label l LabelDataIdentity in
        (dataIdentity != "") && (om_Name (ls_meta l) == DataOperationLeaseName dataIdentity)
  end.

Definition RestoreOperationLeaseMatches (lease : option Lease) (operation : ExactLocalReference)
    (serverName dataIdentity : string) : bool :=
  match lease with
  | None => false
  | Some l =>
      if (ref_Name operation == "") || (ref_UID operation == "") || (ref_Namespace operation != None) ||
         (serverName == "") || (dataIdentity == "") || (len (om_OwnerReferences (ls_meta l)) != 0%Z) ||
         (ls_HolderIdentity l != Some (ref_UID operation)) ||
         (lease_label l LabelManagedBy != ManagerName) || (lease_label l LabelRestoreUID != ref_UID operation) ||
         (lease_label l LabelInstance != serverName) || (lease_label l LabelDataIdentity != dataIdentity) ||
         (lease_annotation l AnnotationRestoreName != ref_Name operation)
      then false
      else om_Name (ls_meta l) == DataOperationLeaseName dataIdentity
  end.

(** ** The receipts of typed operations *)

Definition operationTerminal (phase : ArcadeOperationPhase) : bool :=
  (phase == OperationPhaseSucceeded) || (phase == OperationPhaseFailed) || (phase == OperationPhaseCancelled).

Definition operationServerAction (action : ArcadeOperationAction) : bool :=
  match action with
  | OperationServerCreate | OperationServerConfigure | OperationServerStart | OperationServerStop
  | OperationServerRestart | OperationServerUpdate | OperationServerDecommission => true
  | _ => false
  end.

Definition containsOperationFinalizer (o : ArcadeOperation) : bool :=
  existsb (fun f => f == operationFinalizer) (om_Finalizers (ao_meta o)).

Definition ao_UID (o : ArcadeOperation) : string := om_UID (ao_meta o).
Definition ao_Name (o : ArcadeOperation) : string := om_Name (ao_meta o).
Definition ao_Phase (o : ArcadeOperation) : ArcadeOperationPhase := aost_Phase (ao_Status o).

Definition operationLeaseMatches (lease : option Lease) (o : ArcadeOperation) (serverName identity : string) : bool :=
  match lease with
  | None => false
  | Some l =>
      (identity != "") && (om_Name (ls_meta l) == DataOperationLeaseName identity) &&
      (om_Namespace (ls_meta l) == om_Namespace (ao_meta o)) && (len (om_OwnerReferences (ls_meta l)) == 0%Z) &&
      (ls_HolderIdentity l == Some (ao_UID o)) && (lease_label l LabelManagedBy == ManagerName) &&
      (lease_label l LabelInstance == serverName) && (lease_label l LabelDataIdentity == identity) &&
      (lease_label l operationReceiptUIDLabel == ao_UID o) &&
      (lease_annotation l operationReceiptNameAnnotation == ao_Name o)
  end.

Definition operationTransition (o : ArcadeOperation) (step : string) : option OperationServerTransition :=
  find (fun t => ost_Step t == step) (aost_Transitions (ao_Status o)).

Definition server_label (s : GameServer) (k : string) : string := mget (om_Labels (gs_meta s)) k.
Definition server_annotation (s : GameServer) (k : string) : string := mget (om_Annotations (gs_meta s)) k.
Definition gs_Generation (s : GameServer) : Z := om_Generation (gs_meta s).

Definition with_desired_state (i : GameServerSpec) (d : DesiredState) : GameServerSpec :=
  MkGameServerSpec (gs_Game i) (gs_ImageDigest i) d (gs_Compute i) (gs_Storage i) (gs_Settings i).

Section Receipts.
Context `{QuantityText}.

Definition operationSpecsEqual (left right : GameServerSpec) : bool :=
  match SpecDigest left, SpecDigest right with Ok a, Ok b => a == b | _, _ => false end.

Definition operationTransitionApplied (o : ArcadeOperation) (server : GameServer)
    (transition : OperationServerTransition) (intent : GameServerSpec) : bool :=
  match SpecDigest (gs_Spec server) with
  | Err _ => false
  | Ok digest =>
      (gs_Generation server == ost_ToGeneration transition) &&
      (gs_DesiredState (gs_Spec server) == ost_DesiredState transition) && (digest == ost_SpecDigest transition) &&
      operationSpecsEqual (gs_Spec server) intent && (server_label server operationReceiptUIDLabel == ao_UID o) &&
      (server_annotation server operationReceiptNameAnnotation == ao_Name o) &&
      (server_annotation server operationStepAnnotation == ost_Step transition) &&
      (server_annotation server operationSpecDigestAnnotation == ost_SpecDigest transition)
  end.

(** The first guard of [receiptRuntimeAllowed]: the receipt is this Lease's, is
    not being removed and did not end without success, and holds its intent. *)
Definition receipt_live (lease : Lease) (o : ArcadeOperation) : bool :=
  (ao_UID o == lease_label lease operationReceiptUIDLabel) &&
  negb (deleting (ao_meta o) && (ao_Phase o != OperationPhaseSucceeded)) &&
  negb (operationTerminal (ao_Phase o) && (ao_Phase o != OperationPhaseSucceeded)) &&
  operationServerAction (aos_Action (ao_Spec o)) && containsOperationFinalizer o.

(** A created server: exactly the child the receipt recorded. *)
Definition created_server (server : GameServer) (identity : string) (o : ArcadeOperation) (plan : OperationPlan)
    (intent : GameServerSpec) : bool :=
  match aost_Child (ao_Status o) with
  | None => false
  | Some child =>
      if (och_Kind child != "GameServer") || (ref_UID (och_ref child) != server_UID server) ||
         (ref_Name (och_ref child) != server_Name server) || (och_Generation child != gs_Generation server)
      then false
      else match DataIdentity (server_UID server) with
      | Err _ => false
      | Ok own =>
          let expected := match op_Data plan with Some data => rdr_Identity data | None => own end in
          match SpecDigest intent with
          | Err _ => false
          | Ok digest =>
              (identity == expected) && (gs_Generation server == 1%Z) &&
              (server_label server operationReceiptUIDLabel == ao_UID o) &&
              (server_annotation server operationReceiptNameAnnotation == ao_Name o) &&
              (server_annotation server operationStepAnnotation == "Create") &&
              (server_annotation server operationSpecDigestAnnotation == digest) &&
              operationSpecsEqual (gs_Spec server) intent
          end
      end
  end.

(** A changed server: the step it is marked with is journaled and applied. *)
Definition stepped_server (server : GameServer) (identity : string) (o : ArcadeOperation) (plan : OperationPlan)
    (intent : GameServerSpec) : bool :=
  match op_Server plan, op_Data plan with
  | Some planned_server, Some data =>
      if (ref_UID (gsr_ref planned_server) != server_UID server) ||
         (ref_Name (gsr_ref planned_server) != server_Name server) || (rdr_Identity data != identity)
      then false
      else match operationTransition o (server_annotation server operationStepAnnotation) with
      | None => false
      | Some transition =>
          operationTransitionApplied o server transition (with_desired_state intent (ost_DesiredState transition))
      end
  | _, _ => false
  end.

(** [receiptRuntimeAllowed] after the receipt was read. *)
Definition receipt_allows (server : GameServer) (lease : Lease) (o : ArcadeOperation) : bool :=
  if negb (receipt_live lease o) then false
  else match aost_Plan (ao_Status o) with
  | None => false
  | Some plan =>
      match op_ServerIntent plan with
      | None => false
      | Some intent =>
          match ServerSpec intent with
          | Err _ => false
          | Ok intent =>
              let identity := lease_label lease LabelDataIdentity in
              if negb (operationLeaseMatches (Some lease) o (server_Name server) identity) then false
              else if aos_Action (ao_Spec o) == OperationServerCreate
              then created_server server identity o plan intent
              else stepped_server server identity o plan intent
          end
      end
  end.

Definition receiptRuntimeAllowed (reader : Reader) (server : GameServer) (lease : Lease) : prog bool :=
  o ← call (ApiGet KArcadeOperation reader
        (Key (server_Namespace server) (lease_annotation lease operationReceiptNameAnnotation)));
  Ret (match o with inr o => receipt_allows server lease o | inl _ => false end).
Lemma operationSpecsEqual_digest a b : operationSpecsEqual a b = true ->
  exists d, SpecDigest a = Ok d /\ SpecDigest b = Ok d.
Proof.
  unfold operationSpecsEqual. destruct (SpecDigest a) as [x|]; [|done]. destruct (SpecDigest b) as [y|]; [|done].
  intros ->%bool_decide_eq_true. eauto.
Qed.

Lemma operationLeaseMatches_holder l o name identity : operationLeaseMatches (Some l) o name identity = true ->
  ls_HolderIdentity l = Some (ao_UID o) /\ lease_label l LabelInstance = name /\
  om_Name (ls_meta l) = DataOperationLeaseName identity.
Proof. unfold operationLeaseMatches. intros Hm. bool_prop. done. Qed.

(** What a receipt lets run: a generation of the server that carries the
    receipt's marks and whose digest is the digest of the receipt's intent in
    the state of the journaled step. *)
Record attributed (server : GameServer) (o : ArcadeOperation) (intent : GameServerSpec) : Prop := {
  at_label : server_label server operationReceiptUIDLabel = ao_UID o;
  at_name : server_annotation server operationReceiptNameAnnotation = ao_Name o;
  at_spec : exists d, SpecDigest (gs_Spec server) = Ok d /\ SpecDigest intent = Ok d /\
              server_annotation server operationSpecDigestAnnotation = d }.

Lemma operationTransitionApplied_attributed o server t intent : operationTransitionApplied o server t intent = true ->
  attributed server o intent /\ gs_Generation server = ost_ToGeneration t /\
  gs_DesiredState (gs_Spec server) = ost_DesiredState t.
Proof.
  unfold operationTransitionApplied. destruct (SpecDigest (gs_Spec server)) as [d|] eqn:E; [|done]. intros Hm. bool_prop.
  match goal with Heq : operationSpecsEqual _ _ = true |- _ => destruct (operationSpecsEqual_digest _ _ Heq) as (d' & E1 & E2) end.
  rewrite E in E1. injection E1 as <-. split_and!; [|congruence..]. split; [congruence | congruence|]. eexists. split; [exact E|]. split; congruence.
Qed.

Lemma stepped_server_attributed server identity o plan spec : stepped_server server identity o plan spec = true ->
  exists p d t, op_Server plan = Some p /\ op_Data plan = Some d /\ rdr_Identity d = identity /\
    ref_UID (gsr_ref p) = server_UID server /\ t ∈ aost_Transitions (ao_Status o) /\
    ost_Step t = server_annotation server operationStepAnnotation /\
    attributed server o (with_desired_state spec (ost_DesiredState t)) /\
    gs_Generation server = ost_ToGeneration t /\ gs_DesiredState (gs_Spec server) = ost_DesiredState t.
Proof.
  unfold stepped_server. destruct (op_Server plan) as [p|]; [|done]. destruct (op_Data plan) as [d|]; [|done].
  destruct (_ || _ || _)%bool eqn:Hg; [done|]. destruct (operationTransition o _) as [t|] eqn:Et; [|done].
  intros (Ha & Hgen & Hst)%operationTransitionApplied_attributed.
  rewrite !orb_false_iff, !negb_false_iff, !bool_decide_eq_true in Hg. destruct Hg as [[? ?] ?].
  unfold operationTransition in Et. apply find_some in Et as [Hin Hn]. apply bool_decide_eq_true in Hn.
  apply list_elem_of_In in Hin. by exists p, d, t.
Qed.

Lemma created_server_attributed server identity o plan spec : created_server server identity o plan spec = true ->
  (exists child, aost_Child (ao_Status o) = Some child /\ ref_UID (och_ref child) = server_UID server /\
     och_Generation child = gs_Generation server) /\
  gs_Generation server = 1%Z /\ attributed server o spec.
Proof.
  unfold created_server. destruct (aost_Child (ao_Status o)) as [child|]; [|done].
  destruct (_ || _ || _ || _)%bool eqn:Hg; [done|].
  rewrite !orb_false_iff, !negb_false_iff, !bool_decide_eq_true in Hg. destruct Hg as [[[? ?] ?] ?].
  destruct (DataIdentity _) as [own|]; [|done]. destruct (SpecDigest spec) as [d|] eqn:Ed; [|done].
  rewrite !andb_true_iff, !bool_decide_eq_true. intros [[[[[[_ Hgen] Hl] Hn] _] Hd] Heq].
  destruct (operationSpecsEqual_digest _ _ Heq) as (d' & E1 & E2). rewrite E2 in Ed. injection Ed as <-.
  split; [by exists child|]. split; [done|]. split; [done..|]. by exists d'.
Qed.

(** A receipt lets a fenced server run only as itself.  When
    [receipt_allows] accepts, the Lease is held by this receipt for this
    server, the receipt did not fail and is not cancelled, the server carries
    the receipt's marks, and the server's current specification has the very
    digest of the receipt's frozen intent: for a created server at its first
    generation, otherwise in the state and at the generation of a step the
    receipt journaled. *)
Theorem receipt_allows_attributed server lease o (Ha : receipt_allows server lease o = true) :
  ls_HolderIdentity lease = Some (ao_UID o) /\ lease_label lease LabelInstance = server_Name server /\
  (operationTerminal (ao_Phase o) = true -> ao_Phase o = OperationPhaseSucceeded) /\
  exists plan intent spec, aost_Plan (ao_Status o) = Some plan /\ op_ServerIntent plan = Some intent /\
    ServerSpec intent = Ok spec /\
    ((aos_Action (ao_Spec o) = OperationServerCreate /\ gs_Generation server = 1%Z /\ attributed server o spec) \/
     (exists t, t ∈ aost_Transitions (ao_Status o) /\ gs_Generation server = ost_ToGeneration t /\
        gs_DesiredState (gs_Spec server) = ost_DesiredState t /\
        attributed server o (with_desired_state spec (ost_DesiredState t)))).
Proof.
  unfold receipt_allows in Ha. destruct (receipt_live lease o) eqn:Hlive; [|done]. cbn [negb] in Ha.
  destruct (aost_Plan (ao_Status o)) as [plan|]; [|done]. destruct (op_ServerIntent plan) as [intent|] eqn:Ei; [|done].
  destruct (ServerSpec intent) as [spec|] eqn:Es; [|done].
  destruct (operationLeaseMatches _ _ _ _) eqn:Hl; [|done]. cbn [negb] in Ha.
  destruct (operationLeaseMatches_holder _ _ _ _ Hl) as (? & ? & _). split_and!; [done..| |].
  - intros Ht. unfold receipt_live in Hlive. rewrite Ht in Hlive.
    destruct (decide (ao_Phase o = OperationPhaseSucceeded)) as [|Hp]; [done|].
    rewrite (bool_decide_eq_false_2 _ Hp) in Hlive. cbn in Hlive. rewrite !andb_false_r in Hlive. done.
  - exists plan, intent, spec. split_and!; [done..|]. case_bool_decide as Hact.
    + left. by apply created_server_attributed in Ha as (_ & ? & ?).
    + right. apply stepped_server_attributed in Ha as (p & d & t & _ & _ & _ & _ & ? & _ & ? & ? & ?). by exists t.
Qed.
End Receipts.

(** ** A concrete receipt *)

Definition fence_spec : GameServerSpec := sample_spec "{}" [claim_a].
Definition fence_digest : string :=
  match @SpecDigest sample_quantity_text fence_spec with Ok d => d | Err _ => "" end.
Definition fence_server : GameServer :=
  MkGameServer
    (MkObjectMeta "alpha" "games" "server-uid" 4 "9" 1 None [] (<[operationReceiptUIDLabel := "receipt-uid"]> ∅)
       (<[operationReceiptNameAnnotation := "receipt"]> (<[operationStepAnnotation := "Start"]>
         (<[operationSpecDigestAnnotation := fence_digest]> ∅))) [])
    fence_spec (MkGameServerStatus 0 None None PhaseUnset [] []).
Definition fence_lease : Lease :=
  MkLease (MkObjectMeta (DataOperationLeaseName "world-1") "games" "lease-uid" 1 "1" 1 None []
    (<[LabelManagedBy := ManagerName]> (<[LabelInstance := "alpha"]> (<[LabelDataIdentity := "world-1"]>
      (<[operationReceiptUIDLabel := "receipt-uid"]> ∅))))
    (<[operationReceiptNameAnnotation := "receipt"]> ∅) []) (Some "receipt-uid") None.
Definition fence_receipt : ArcadeOperation :=
  MkArcadeOperation
    (MkObjectMeta "receipt" "games" "receipt-uid" 1 "2" 1 None [operationFinalizer] ∅ ∅ [])
    (MkOperationSpec "v1" OperationServerStart (MkAdmission "" "" "" 0 0) "" ""
       (MkOperationRequest "" "" None None None None None None None None))
    (MkOperationStatus 1 OperationPhaseRunning None None
       (Some (MkOperationPlan (Some (MkGSRef (MkRef None "alpha" "server-uid") 3 DesiredStateStopped))
          (match @ServerIntent fence_spec with Ok i => Some i | Err _ => None end)
          (Some (MkDataRef "world-1" [claim_a])) None None None))
       None [MkTransition "Start" 3 4 DesiredStateRunning fence_digest 0] None None None []).
Lemma receipt_allows_attributed_witness :
  @receipt_allows sample_quantity_text fence_server fence_lease fence_receipt = true /\
  ls_HolderIdentity fence_lease = Some (ao_UID fence_receipt).
Proof.
  assert (@receipt_allows sample_quantity_text fence_server fence_lease fence_receipt = true) as Ha by (vm_compute; reflexivity).
  split; [exact Ha|]. exact (proj1 (@receipt_allows_attributed sample_quantity_text _ _ _ Ha)).
Defined.
