(* ===== verification/WorkerPods.v ===== *)
(** * Shared controller checks: selections, ownership, worker Jobs and Pods

    [internal/controller/data_selection.go], [worker_pod_annotations.go] and
    the helpers of [gamebackup_controller.go] that the backup, restore and
    destroy controllers share: comparing exact data selections, controller
    ownership, and comparing a stored Job or Pod with the one the controller
    would have written, modulo the API server's defaulting. *)

From stdpp Require Import base tactics list strings gmap numbers.
From S2P Require Import Prelude ApiTypes Operations KubeObjects WorkerInput.
Open Scope string_scope.
Open Scope list_scope.

(** ** Exact data selections *)

Definition collect_claim (paths : gmap string ExactLocalReference) (claim : RetainedDataClaimReference) :
    option (gmap string ExactLocalReference) :=
  if (rdc_Path claim == "") || incomplete_ref (rdc_ClaimRef claim) then None
  else match paths !! rdc_Path claim with
       | Some _ => None
       | None => Some (<[rdc_Path claim := rdc_ClaimRef claim]> paths)
       end.
Definition strike_claim (paths : gmap string ExactLocalReference) (claim : RetainedDataClaimReference) :
    option (gmap string ExactLocalReference) :=
  match paths !! rdc_Path claim with
  | None => None
  | Some wanted =>
      if (ref_Namespace (rdc_ClaimRef claim) != None) || (claim_name claim != ref_Name wanted) ||
         (claim_uid claim != ref_UID wanted)
      then None else Some (delete (rdc_Path claim) paths)
  end.
(** [for _, x := range l], giving up at the first [None]. *)
Fixpoint fold_option {A S} (f : S -> A -> option S) (s : S) (l : list A) : option S :=
  match l with [] => Some s | x :: rest => match f s x with Some s' => fold_option f s' rest | None => None end end.

Definition sameDataSelection (left right : option RetainedDataReference) : bool :=
  match left, right with
  | Some lhs, Some rhs =>
      if (rdr_Identity lhs == "") || (rdr_Identity lhs != rdr_Identity rhs) ||
         (len (rdr_Claims lhs) == 0%Z) || (len (rdr_Claims lhs) != len (rdr_Claims rhs))
      then false
      else match fold_option collect_claim ∅ (rdr_Claims lhs) with
           | None => false
           | Some paths =>
               match fold_option strike_claim paths (rdr_Claims rhs) with
               | None => false
               | Some rest => bool_decide (rest = ∅)
               end
           end
  | _, _ => false
  end.

(** ** Ownership *)

Definition controlledBy (references : list OwnerReference) (kind name uid : string) : bool :=
  existsb (fun r => (own_Controller r == Some true) && (own_Kind r == kind) && (own_Name r == name) &&
                    (own_UID r == uid)) references.

(** ** Worker Pods *)

Inductive backupPodState := backupPodPending | backupPodAuthorized | backupPodOverlap | backupPodChanged.

Definition workerPodAnnotationsMatch (actual template : StringMap) (authorizationKey : string) : bool :=
  let annotations := actual in
  let annotations :=
    if mget annotations authorizationKey != ""
    then delete "k8s.v1.cni.cncf.io/network-status" (delete "cni.projectcalico.org/podIPs"
           (delete "cni.projectcalico.org/podIP" (delete "cni.projectcalico.org/containerID" annotations)))
    else annotations in
  bool_decide (delete authorizationKey annotations = template).

Definition isDefaultNoExecuteToleration (t : Toleration) : bool :=
  if (tol_Operator t != "Exists") || (tol_Effect t != "NoExecute") || (tol_TolerationSeconds t != Some 300%Z) ||
     (tol_Value t != "")
  then false
  else (tol_Key t == "node.kubernetes.io/not-ready") || (tol_Key t == "node.kubernetes.io/unreachable").

(** [if *p == d { p = nil }] and [if s == d { s = "" }]. *)
Definition unset_default {A} `{EqDecision A} (d : A) (o : option A) : option A := if o == Some d then None else o.
Definition blank_default (d s : string) : string := if s == d then "" else s.

Definition normalize_env (e : EnvVar) : EnvVar :=
  match env_FieldRef e with
  | Some f => if fr_APIVersion f == "v1" then MkEnvVar (env_Name e) (env_Value e) (Some (MkFieldRef "" (fr_FieldPath f))) else e
  | None => e
  end.

Definition normalizeBackupContainerDefaults (c : Container) : Container :=
  MkContainer (con_Name c) (con_Image c) (con_ImagePullPolicy c) (con_Command c) (con_Args c) (con_Ports c)
    (con_VolumeMounts c) (con_Resources c) (con_SecurityContext c) (con_ReadinessProbe c)
    (normalize_env <$> con_Env c)
    (blank_default "/dev/termination-log" (con_TerminationMessagePath c))
    (blank_default "File" (con_TerminationMessagePolicy c)) (con_VolumeDevices c) (con_Rest c).

Definition normalizeBackupPodDefaults (p : PodSpec) : PodSpec :=
  MkPodSpec (AutomountServiceAccountToken p) (pod_SecurityContext p)
    (normalizeBackupContainerDefaults <$> pod_InitContainers p)
    (normalizeBackupContainerDefaults <$> pod_Containers p)
    (pod_Volumes p) (pod_Hostname p) (pod_NodeName p) (pod_ServiceAccountName p)
    (blank_default (pod_ServiceAccountName p) (pod_DeprecatedServiceAccount p))
    (pod_RestartPolicy p) (pod_SchedulingGates p)
    (blank_default "ClusterFirst" (pod_DNSPolicy p))
    (unset_default 30%Z (pod_TerminationGracePeriodSeconds p))
    (blank_default "default-scheduler" (pod_SchedulerName p))
    (unset_default true (pod_EnableServiceLinks p))
    (unset_default 0%Z (pod_Priority p))
    (unset_default "PreemptLowerPriority" (pod_PreemptionPolicy p))
    (List.filter (fun t => negb (isDefaultNoExecuteToleration t)) (pod_Tolerations p))
    (pod_EphemeralContainers p) (pod_Rest p).

(** ** Worker Jobs *)

(** The Pod defaults a stored Job template has: fewer than an admitted Pod's. *)
Definition normalize_template_pod (p : PodSpec) : PodSpec :=
  MkPodSpec (AutomountServiceAccountToken p) (pod_SecurityContext p)
    (normalizeBackupContainerDefaults <$> pod_InitContainers p)
    (normalizeBackupContainerDefaults <$> pod_Containers p)
    (pod_Volumes p) (pod_Hostname p) (pod_NodeName p) (pod_ServiceAccountName p)
    (blank_default (pod_ServiceAccountName p) (pod_DeprecatedServiceAccount p))
    (pod_RestartPolicy p) (pod_SchedulingGates p)
    (blank_default "ClusterFirst" (pod_DNSPolicy p))
    (unset_default 30%Z (pod_TerminationGracePeriodSeconds p))
    (blank_default "default-scheduler" (pod_SchedulerName p))
    (pod_EnableServiceLinks p) (pod_Priority p) (pod_PreemptionPolicy p) (pod_Tolerations p)
    (pod_EphemeralContainers p) (pod_Rest p).

Definition ControllerUidLabel := "batch.kubernetes.io/controller-uid".
Definition JobNameLabel := "batch.kubernetes.io/job-name".

(** The selector the API server generated, and the labels it put on the
    template for it: [None] when they are not this Job's own. *)
Definition strip_generated (name uid : string) (selector : option LabelSelector) (labels : StringMap) :
    option StringMap :=
  match selector with
  | None => Some labels
  | Some s =>
      if (uid == "") || (len (MatchExpressions s) != 0%Z) || (Z.of_nat (size (MatchLabels s)) != 1%Z) ||
         (mget (MatchLabels s) ControllerUidLabel != uid)
      then None
      else fold_option (fun labels '(label, value) =>
             if mget labels label != value then None else Some (delete label labels)) labels
             [(JobNameLabel, name); (ControllerUidLabel, uid); ("job-name", name); ("controller-uid", uid)]
  end.

Definition normalizedBackupJobSpec (job : Job) : option JobSpec :=
  let s := job_Spec job in
  if job_ManualSelector s == Some true then None
  else
    labels ← strip_generated (om_Name (job_meta job)) (om_UID (job_meta job)) (job_Selector s) (job_TemplateLabels s);
    Some (MkJobSpec (job_BackoffLimit s) (job_ActiveDeadlineSeconds s) (job_Parallelism s) (job_Completions s)
            (unset_default false (job_Suspend s)) None None
            (unset_default "NonIndexed" (job_CompletionMode s))
            (unset_default "TerminatingOrFailed" (job_PodReplacementPolicy s))
            labels (job_TemplateAnnotations s) (normalize_template_pod (job_TemplateSpec s)) (job_Rest s)).

Definition backupJobSpecMatches (desired existing : Job) : bool :=
  if job_Spec desired == job_Spec existing then true
  else match normalizedBackupJobSpec desired, normalizedBackupJobSpec existing with
       | Some desiredSpec, Some existingSpec => bool_decide (desiredSpec = existingSpec)
       | _, _ => false
       end.

(** [updated.Spec.Suspend = ptr.To(b)] and [updated.Spec.SchedulingGates = nil]. *)
Definition set_suspend (j : Job) (b : bool) : Job :=
  let s := job_Spec j in
  MkJob (job_meta j)
    (MkJobSpec (job_BackoffLimit s) (job_ActiveDeadlineSeconds s) (job_Parallelism s) (job_Completions s) (Some b)
       (job_ManualSelector s) (job_Selector s) (job_CompletionMode s) (job_PodReplacementPolicy s)
       (job_TemplateLabels s) (job_TemplateAnnotations s) (job_TemplateSpec s) (job_Rest s))
    (job_Conditions j) (job_CompletionTime j).
Definition ungated (s : PodSpec) : PodSpec :=
  MkPodSpec (AutomountServiceAccountToken s) (pod_SecurityContext s) (pod_InitContainers s) (pod_Containers s)
    (pod_Volumes s) (pod_Hostname s) (pod_NodeName s) (pod_ServiceAccountName s) (pod_DeprecatedServiceAccount s)
    (pod_RestartPolicy s) [] (pod_DNSPolicy s) (pod_TerminationGracePeriodSeconds s) (pod_SchedulerName s)
    (pod_EnableServiceLinks s) (pod_Priority s) (pod_PreemptionPolicy s) (pod_Tolerations s)
    (pod_EphemeralContainers s) (pod_Rest s).

Definition job_condition (type : string) (job : Job) : bool :=
  existsb (fun c => (jc_Type c == type) && (jc_Status c == ConditionTrue)) (job_Conditions job).
Definition jobComplete (job : Job) : bool := job_condition "Complete" job.
Definition jobFailed (job : Job) : bool := job_condition "Failed" job.

(** ** Ownership of worker Pods *)

(** A reference that makes the Job its holder's controller. *)
Definition job_reference (job : Job) (reference : OwnerReference) : Prop :=
  own_Controller reference = Some true /\ own_Kind reference = "Job" /\
  own_Name reference = om_Name (job_meta job) /\ own_UID reference = om_UID (job_meta job).

(** The annotations the network plugins write on a Pod they started. *)
Definition network_annotations : list string :=
  ["k8s.v1.cni.cncf.io/network-status"; "cni.projectcalico.org/podIPs"; "cni.projectcalico.org/podIP";
   "cni.projectcalico.org/containerID"].

(** A live Pod of exactly this Job: both identified, in one namespace, the Job
    its only owner, with the labels of the Job's template and, beside the
    authorization and the network plugins' own, its annotations. *)
Definition exact_job_pod (authorizationKey : string) (job : Job) (pod : Pod) : Prop :=
  om_UID (job_meta job) <> "" /\ om_UID (pod_meta pod) <> "" /\
  om_Namespace (pod_meta pod) = om_Namespace (job_meta job) /\ deleting (pod_meta pod) = false /\
  (exists reference, om_OwnerReferences (pod_meta pod) = [reference] /\ job_reference job reference) /\
  om_Labels (pod_meta pod) = job_TemplateLabels (job_Spec job) /\
  forall k, k <> authorizationKey -> k ∉ network_annotations ->
    om_Annotations (pod_meta pod) !! k = job_TemplateAnnotations (job_Spec job) !! k.

Lemma controlledBy_job job references :
  controlledBy references "Job" (om_Name (job_meta job)) (om_UID (job_meta job)) = true <->
  exists reference, reference ∈ references /\ job_reference job reference.
Proof.
  unfold controlledBy, job_reference. rewrite existsb_exists. split; intros (x & Hx & E); exists x.
  - rewrite !andb_true_iff, !bool_decide_eq_true in E. rewrite list_elem_of_In. by destruct_and!.
  - rewrite list_elem_of_In in Hx. destruct_and!. by rewrite !bool_decide_eq_true_2.
Qed.

Lemma workerPodAnnotationsMatch_lookup actual template key : workerPodAnnotationsMatch actual template key = true ->
  forall k, k <> key -> k ∉ network_annotations -> actual !! k = template !! k.
Proof.
  intros <-%bool_decide_eq_true k Hk Hn. rewrite lookup_delete_ne by done. destruct (bool_decide _); cbn [negb]; [done|].
  unfold network_annotations in Hn. rewrite !not_elem_of_cons in Hn. destruct_and!. by rewrite !lookup_delete_ne.
Qed.

(** The checks the controllers make on a worker Pod establish it. *)
Lemma exact_job_pod_intro key job pod :
  ((om_UID (job_meta job) == "") || (om_UID (pod_meta pod) == "") ||
   (om_Namespace (pod_meta pod) != om_Namespace (job_meta job)) || deleting (pod_meta pod) ||
   (len (om_OwnerReferences (pod_meta pod)) != 1%Z) ||
   negb (controlledBy (om_OwnerReferences (pod_meta pod)) "Job" (om_Name (job_meta job)) (om_UID (job_meta job))) ||
   (om_Labels (pod_meta pod) != job_TemplateLabels (job_Spec job)))%bool = false ->
  workerPodAnnotationsMatch (om_Annotations (pod_meta pod)) (job_TemplateAnnotations (job_Spec job)) key = true ->
  exact_job_pod key job pod.
Proof.
  rewrite !orb_false_iff, !negb_false_iff, !bool_decide_eq_true, !bool_decide_eq_false. intros E Ha.
  destruct E as [[[[[[Hj Hp] Hn] Hd] Hl] (reference & Hr & Hc)%controlledBy_job] Hla].
  unfold exact_job_pod. split_and!; try done; [|by apply workerPodAnnotationsMatch_lookup].
  exists reference. split; [|done]. destruct (om_OwnerReferences (pod_meta pod)) as [|x [|]]; unfold len in Hl; cbn in Hl;
    [lia | by apply list_elem_of_singleton in Hr as -> | lia].
Qed.

(** ** Exactness of data selections *)

(** A selection that identifies its claims: distinct paths, exact references. *)
Definition exact_claim (c : RetainedDataClaimReference) : Prop :=
  rdc_Path c <> "" /\ claim_name c <> "" /\ claim_uid c <> "" /\ ref_Namespace (rdc_ClaimRef c) = None.
Definition exact_selection (s : RetainedDataReference) : Prop :=
  rdr_Identity s <> "" /\ rdr_Claims s <> [] /\ Forall exact_claim (rdr_Claims s) /\
  NoDup (rdc_Path <$> rdr_Claims s).

Definition claim_entry (c : RetainedDataClaimReference) : string * ExactLocalReference :=
  (rdc_Path c, rdc_ClaimRef c).
Definition claim_map (l : list RetainedDataClaimReference) : gmap string ExactLocalReference :=
  list_to_map (claim_entry <$> l).

Lemma claim_map_cons c l : claim_map (c :: l) = <[rdc_Path c := rdc_ClaimRef c]> (claim_map l).
Proof. done. Qed.
Lemma claim_map_none p l : claim_map l !! p = None <-> p ∉ rdc_Path <$> l.
Proof.
  unfold claim_map. rewrite <- not_elem_of_list_to_map, <- list_fmap_compose. done.
Qed.
Lemma claim_map_perm l k : NoDup (rdc_Path <$> l) -> NoDup (rdc_Path <$> k) ->
  claim_map l = claim_map k <-> l ≡ₚ k.
Proof.
  intros Hl Hk. assert (forall m : list RetainedDataClaimReference, m = uncurry MkClaimRef <$> (claim_entry <$> m)) as Hinv.
  { intros m. induction m as [|[] m IH]; [done|]. cbn. by f_equal. }
  unfold claim_map. split.
  - intros E. apply list_to_map_inj in E; [|by rewrite <- list_fmap_compose..].
    by rewrite (Hinv l), (Hinv k), E.
  - intros Hp. apply list_to_map_proper; [by rewrite <- list_fmap_compose | by rewrite Hp].
Qed.

Lemma collect_claim_some paths c s : collect_claim paths c = Some s <->
  exact_claim c /\ paths !! rdc_Path c = None /\ s = <[rdc_Path c := rdc_ClaimRef c]> paths.
Proof.
  unfold collect_claim, exact_claim, incomplete_ref, claim_name, claim_uid.
  repeat case_bool_decide; cbn; destruct (paths !! rdc_Path c) eqn:E; naive_solver.
Qed.

Lemma strike_claim_some paths c s : strike_claim paths c = Some s <->
  exists wanted, paths !! rdc_Path c = Some wanted /\ ref_Namespace (rdc_ClaimRef c) = None /\
    claim_name c = ref_Name wanted /\ claim_uid c = ref_UID wanted /\ s = delete (rdc_Path c) paths.
Proof.
  unfold strike_claim. destruct (paths !! rdc_Path c) as [w|]; [|naive_solver].
  repeat case_bool_decide; cbn; naive_solver.
Qed.

Lemma collect_loop l paths s : fold_option collect_claim paths l = Some s <->
  Forall exact_claim l /\ NoDup (rdc_Path <$> l) /\ (forall c, c ∈ l -> paths !! rdc_Path c = None) /\
  s = claim_map l ∪ paths.
Proof.
  revert paths. induction l as [|c l IH]; intros paths; cbn [fold_option].
  - assert (claim_map [] ∪ paths = paths) as -> by apply map_empty_union.
    split; [intros [= <-]|by intros (_ & _ & _ & ->)].
    split_and!; [done | apply NoDup_nil_2 | intros c Hc; by apply not_elem_of_nil in Hc | done].
  - rewrite claim_map_cons, fmap_cons, list.NoDup_cons, list.Forall_cons, <- insert_union_l.
    setoid_rewrite elem_of_cons. destruct (collect_claim paths c) as [paths'|] eqn:E.
    + apply collect_claim_some in E as (Hc & Hn & ->). rewrite IH. setoid_rewrite lookup_insert_None.
      split.
      * intros (? & ? & Hfresh & ->). split_and!; try done.
        -- intros (x & E & Hx)%list_elem_of_fmap. by destruct (Hfresh x Hx).
        -- intros x [->|Hx]; [done | by apply Hfresh].
        -- rewrite insert_union_r; [done|]. apply claim_map_none.
           intros (x & E & Hx)%list_elem_of_fmap. by destruct (Hfresh x Hx).
      * intros ([_ ?] & [Hn1 ?] & Hfresh & ->). split_and!; try done.
        -- intros x Hx. split; [apply Hfresh; by right|]. intros E. apply Hn1. rewrite E. by apply list_elem_of_fmap_2.
        -- rewrite insert_union_r; [done | by apply claim_map_none].
    + split; [done|]. intros ([Hc _] & _ & Hfresh & _).
      assert (collect_claim paths c = Some (<[rdc_Path c := rdc_ClaimRef c]> paths)) as E'
        by (apply collect_claim_some; split_and!; [done | apply Hfresh; by left | done]). congruence.
Qed.

Lemma strike_loop r paths :
  (forall p ref, paths !! p = Some ref -> ref_Namespace ref = None) ->
  fold_option strike_claim paths r = Some ∅ <->
  NoDup (rdc_Path <$> r) /\ paths = claim_map r.
Proof.
  revert paths. induction r as [|c r IH]; intros paths Hns; cbn [fold_option].
  - split; [intros [= ->]; split; [apply NoDup_nil_2 | done] | by intros [_ ->]].
  - rewrite claim_map_cons, fmap_cons, list.NoDup_cons, <- claim_map_none.
    destruct (strike_claim paths c) as [paths'|] eqn:E.
    + apply strike_claim_some in E as (w & Hw & Hn & Hname & Huid & ->).
      assert (w = rdc_ClaimRef c) as ->.
      { specialize (Hns _ _ Hw). unfold claim_name, claim_uid in *. destruct w, (rdc_ClaimRef c). cbn in *. congruence. }
      rewrite IH by (intros p ref [_ Hp]%lookup_delete_Some; eauto).
      split.
      * intros [Hnd Hd]. rewrite <- Hd. split_and!; [apply lookup_delete_eq | done | by rewrite insert_delete_id].
      * intros [[Hnone Hnd] ->]. split; [done|]. by apply delete_insert_id.
    + split; [done|]. intros [_ ->]. exfalso.
      assert (strike_claim (<[rdc_Path c:=rdc_ClaimRef c]> (claim_map r)) c =
              Some (delete (rdc_Path c) (<[rdc_Path c:=rdc_ClaimRef c]> (claim_map r)))) as E'.
      { apply strike_claim_some. exists (rdc_ClaimRef c). split_and!; try done; [apply lookup_insert_eq|].
        eapply Hns. apply lookup_insert_eq. }
      congruence.
Qed.

Lemma claim_map_local l p ref :
  Forall exact_claim l -> claim_map l !! p = Some ref -> ref_Namespace ref = None.
Proof.
  intros Hex (x & [= -> ->] & Hx)%elem_of_list_to_map_2%list_elem_of_fmap.
  rewrite list.Forall_forall in Hex. by apply Hex.
Qed.

(** C34: [sameDataSelection] is exact: it accepts two selections when, and
    only when, the first identifies its claims exactly, both have the same
    identity, and they have the same claims - path, name and UID - in any
    order. *)
Theorem sameDataSelection_exact l r :
  sameDataSelection (Some l) (Some r) = true <->
  exact_selection l /\ rdr_Identity l = rdr_Identity r /\ rdr_Claims l ≡ₚ rdr_Claims r.
Proof.
  unfold sameDataSelection, exact_selection. split.
  - destruct (_ || _)%bool eqn:Hg; [done|]. unfold len in Hg. bool_prop.
    destruct (fold_option collect_claim _ _) as [paths|] eqn:Ec; [|done].
    apply collect_loop in Ec as (Hex & Hnd & _ & ->). rewrite map_union_empty.
    destruct (fold_option strike_claim _ _) as [rest|] eqn:Es; [|done]. intros ->%bool_decide_eq_true.
    apply strike_loop in Es as [Hnd' E].
    + split_and!; try done; [by intros E0; rewrite E0 in * | by apply claim_map_perm].
    + intros p ref; by apply claim_map_local.
  - intros ((Hi & Hne & Hex & Hnd) & Hid & Hp). pose proof (Permutation_length Hp) as Hlen. unfold len.
    destruct (_ || _)%bool eqn:Hg.
    { exfalso. destruct (rdr_Claims l); [done|]. cbn in *. bool_prop. naive_solver lia. }
    assert (fold_option collect_claim ∅ (rdr_Claims l) = Some (claim_map (rdr_Claims l))) as ->.
    { apply collect_loop. rewrite map_union_empty. split_and!; try done. }
    assert (fold_option strike_claim (claim_map (rdr_Claims l)) (rdr_Claims r) = Some ∅) as ->; [|done].
    apply strike_loop.
    + intros p ref; by apply claim_map_local.
    + assert (NoDup (rdc_Path <$> rdr_Claims r)) by (by rewrite <- Hp). split; [done | by apply claim_map_perm].
Qed.

Lemma sameDataSelection_exact_sample :
  sameDataSelection (Some (MkDataRef "world" [claim_a; claim_b])) (Some (MkDataRef "world" [claim_b; claim_a])) = true /\
  sameDataSelection (Some (MkDataRef "world" [claim_a])) (Some (MkDataRef "world" [claim_b])) = false.
Proof. vm_compute. done. Qed.

(** ** A stored Job that matches runs what was asked for *)

Definition env_source (e : EnvVar) : string * string * option string :=
  (env_Name e, env_Value e, fr_FieldPath <$> env_FieldRef e).
Definition runs_same (c c' : Container) : Prop :=
  con_Name c = con_Name c' /\ con_Image c = con_Image c' /\ con_Command c = con_Command c' /\
  con_Args c = con_Args c' /\ con_VolumeMounts c = con_VolumeMounts c' /\ con_Resources c = con_Resources c' /\
  con_SecurityContext c = con_SecurityContext c' /\ env_source <$> con_Env c = env_source <$> con_Env c' /\
  con_Rest c = con_Rest c'.

Lemma env_source_normalize e : env_source (normalize_env e) = env_source e.
Proof. unfold normalize_env. destruct e as [n v [[a p]|]]; cbn; [|done]. by case_bool_decide. Qed.

Lemma normalize_container_runs c c' :
  normalizeBackupContainerDefaults c = normalizeBackupContainerDefaults c' -> runs_same c c'.
Proof.
  unfold normalizeBackupContainerDefaults, runs_same. intros [= ? ? ? ? ? ? ? ? ? ? Henv ? ? ?].
  split_and!; try done. assert (forall l : list EnvVar, env_source <$> (normalize_env <$> l) = env_source <$> l) as Hn.
  { intros l. rewrite <- list_fmap_compose. apply list_fmap_ext. intros i e _. apply env_source_normalize. }
  by rewrite <- (Hn (con_Env c)), <- (Hn (con_Env c')), Henv.
Qed.

Lemma normalize_containers_run l k :
  normalizeBackupContainerDefaults <$> l = normalizeBackupContainerDefaults <$> k -> Forall2 runs_same l k.
Proof.
  revert k. induction l as [|c l IH]; intros [|c' k] E; try discriminate E; [constructor|].
  rewrite !fmap_cons in E. apply (inj2 cons) in E as [E1 E2].
  constructor; [by apply normalize_container_runs | by apply IH].
Qed.

Lemma normalized_pod p q : normalizeBackupPodDefaults p = normalizeBackupPodDefaults q ->
  pod_Volumes q = pod_Volumes p /\ pod_SecurityContext q = pod_SecurityContext p /\
  pod_ServiceAccountName q = pod_ServiceAccountName p /\
  Forall2 runs_same (pod_InitContainers p) (pod_InitContainers q) /\ Forall2 runs_same (pod_Containers p) (pod_Containers q).
Proof.
  unfold normalizeBackupPodDefaults. intros E. injection E. intros. split_and!; try done; by apply normalize_containers_run.
Qed.

Lemma runs_same_image (l k : list Container) : Forall2 runs_same l k -> con_Image <$> k = con_Image <$> l.
Proof. induction 1 as [|c c' l k (_ & E & _) _ IH]; [done|]. rewrite !fmap_cons. by f_equal. Qed.

Lemma runs_same_refl l : Forall2 runs_same l l.
Proof. induction l; constructor; [done | assumption]. Qed.

Lemma strip_fold_subseteq (gen : list (string * string)) labels labels' :
  fold_option (fun labels '(label, value) =>
    if mget labels label != value then None else Some (delete label labels)) labels gen = Some labels' ->
  labels' ⊆ labels.
Proof.
  revert labels. induction gen as [|[k v] gen IH]; intros labels; cbn [fold_option]; [by intros [= ->]|].
  destruct (mget labels k != v); [done|]. intros Hs%IH. etrans; [exact Hs | apply delete_subseteq].
Qed.

Lemma strip_generated_subseteq name uid selector labels labels' :
  strip_generated name uid selector labels = Some labels' -> labels' ⊆ labels.
Proof.
  unfold strip_generated. destruct selector as [s|]; [|by intros [= ->]].
  destruct (_ || _)%bool; [done|]. apply strip_fold_subseteq.
Qed.

Lemma unset_default_some {A} `{EqDecision A} (d x : A) o o' :
  x <> d -> unset_default d o = unset_default d o' -> o = Some x <-> o' = Some x.
Proof. unfold unset_default. intros Hx. repeat case_bool_decide; naive_solver. Qed.

Lemma stored_job_runs desired existing
  (Hsel : job_Selector (job_Spec desired) = None)
  (Hm : backupJobSpecMatches desired existing = true) :
  let p := job_TemplateSpec (job_Spec desired) in
  let q := job_TemplateSpec (job_Spec existing) in
  pod_Volumes q = pod_Volumes p /\ pod_SecurityContext q = pod_SecurityContext p /\
  pod_ServiceAccountName q = pod_ServiceAccountName p /\
  AutomountServiceAccountToken q = AutomountServiceAccountToken p /\
  pod_SchedulingGates q = pod_SchedulingGates p /\
  Forall2 runs_same (pod_InitContainers p) (pod_InitContainers q) /\
  Forall2 runs_same (pod_Containers p) (pod_Containers q) /\
  job_TemplateAnnotations (job_Spec existing) = job_TemplateAnnotations (job_Spec desired) /\
  job_TemplateLabels (job_Spec desired) ⊆ job_TemplateLabels (job_Spec existing) /\
  (job_Suspend (job_Spec desired) = Some true <-> job_Suspend (job_Spec existing) = Some true).
Proof.
  unfold backupJobSpecMatches in Hm. case_bool_decide as E; cbn beta iota in Hm.
  { rewrite <- E. split_and!; try done; apply runs_same_refl. }
  unfold normalizedBackupJobSpec in Hm. rewrite Hsel in Hm.
  destruct (job_ManualSelector (job_Spec desired) == _); [done|].
  destruct (job_ManualSelector (job_Spec existing) == _); [by cbn in Hm|].
  destruct (strip_generated _ _ (job_Selector (job_Spec existing)) _) as [labels|] eqn:Hl; [|by cbn in Hm].
  apply strip_generated_subseteq in Hl. cbn [mbind option_bind strip_generated] in Hm.
  apply bool_decide_eq_true in Hm. injection Hm. intros. subst labels.
  split_and?; try done; try (by apply normalize_containers_run); try congruence.
  apply (unset_default_some false true); [done | assumption].
Qed.

(** A stored Job accepted as the one the controller wrote runs what the
    controller asked for.  Whatever defaults the API server filled in, the
    template has the same volumes, security context, service account, gates
    and annotations, carries every label asked for, has the same containers up
    to termination-message and field-version defaults - same images, commands,
    mounts and environment - and is suspended exactly when the desired Job is. *)
Theorem backupJobSpecMatches_sound desired existing
  (Hsel : job_Selector (job_Spec desired) = None)
  (Hm : backupJobSpecMatches desired existing = true) :
  let p := job_TemplateSpec (job_Spec desired) in
  let q := job_TemplateSpec (job_Spec existing) in
  pod_Volumes q = pod_Volumes p /\ pod_SecurityContext q = pod_SecurityContext p /\
  pod_ServiceAccountName q = pod_ServiceAccountName p /\
  AutomountServiceAccountToken q = AutomountServiceAccountToken p /\
  pod_SchedulingGates q = pod_SchedulingGates p /\
  Forall2 runs_same (pod_InitContainers p) (pod_InitContainers q) /\
  Forall2 runs_same (pod_Containers p) (pod_Containers q) /\
  job_TemplateAnnotations (job_Spec existing) = job_TemplateAnnotations (job_Spec desired) /\
  job_TemplateLabels (job_Spec desired) ⊆ job_TemplateLabels (job_Spec existing) /\
  (job_Suspend (job_Spec desired) = Some true <-> job_Suspend (job_Spec existing) = Some true).
Proof. by apply stored_job_runs. Qed.

Definition sample_job (suspend : bool) (rest : string) : Job :=
  MkJob (new_meta "preflight" "games" ∅ [])
    (MkJobSpec (Some 0%Z) None None None (Some suspend) None None None None ∅ ∅
       (template_pod None (MkPodSecurity (Some true) None None None None None []) [] [] [] "" "" "Never" []) rest) [] None.
Definition sample_stored_job : Job :=
  let j := sample_job true "" in let s := job_Spec j in
  MkJob (job_meta j)
    (MkJobSpec (Some 0%Z) None None None (Some true) (Some false) None (Some "NonIndexed") None ∅ ∅
       (job_TemplateSpec s) "") [] None.

Lemma backupJobSpecMatches_sound_witness :
  backupJobSpecMatches (sample_job true "") sample_stored_job = true /\
  pod_Volumes (job_TemplateSpec (job_Spec sample_stored_job)) =
  pod_Volumes (job_TemplateSpec (job_Spec (sample_job true ""))).
Proof.
  split; [vm_compute; reflexivity|].
  apply (proj1 (backupJobSpecMatches_sound (sample_job true "") sample_stored_job eq_refl
    ltac:(vm_compute; reflexivity))).
Defined.
