(* ===== verification/KubeBackup.v ===== *)
(** * The backup worker's resources ([internal/platform/kube/backup.go])

    The immutable input, the narrow authority and the suspended, gated Job of
    one cold backup.  The theorems show that the worker can read exactly the
    source claims and nothing else of the world. *)

From Stdlib Require Import Ascii.
From stdpp Require Import base tactics list strings gmap numbers.
From S2P Require Import Prelude GoStrings Regex Sha256 K8s ApiTypes DataOperation Receipts Operations GameDefinition KubeObjects KubePlan WorkerInput KubeDestroy OperationFence.
Open Scope string_scope.
Open Scope list_scope.

(** ** Names *)

Definition AnnotationBackupPodAuthorized := "arcade.gobha.me/backup-pod-authorized".
Definition AnnotationWorkerPodUID := "arcade.gobha.me/worker-pod-uid".
Definition BackupFinalizer := "arcade.gobha.me/backup-protection".
Definition BackupSchedulingGate := "arcade.gobha.me/backup-authorized".
Definition backupInputKey := "input.json".

Definition BackupResourceName (uid : string) : string :=
  "backup-" +:+ short_digest ("arcadectl/backup-job/" +:+ uid).

(** ** The worker boundary *)

Record BackupResources := MkBackupResources {
  bk_Input : ConfigMap;
  bk_ServiceAccount : ServiceAccount;
  bk_Role : Role;
  bk_RoleBinding : RoleBinding;
  bk_Job : Job }.

Definition gb_Namespace (b : GameBackup) : string := om_Namespace (gb_meta b).
(** [arcadev1alpha1.ExactLocalReference{Name: backup.Name, UID: string(backup.UID)}] *)
Definition backup_ref (b : GameBackup) : ExactLocalReference := MkRef None (gb_Name b) (gb_UID b).
Definition backup_secret (b : GameBackup) : ExactSecretReference := dor_RepositorySecretRef (gbs_Request (gb_Spec b)).

(** [json.Marshal(input)], and the newline appended to it. *)
Definition BackupWorkerInput_text (i : BackupWorkerInput) : list ascii :=
  object_text
    [field "version" (string_text (bw_Version i)); field "artifactID" (string_text (bw_ArtifactID i));
     field "operationRef" (ref_text (bw_OperationRef i));
     field "workerLeaseName" (string_text (bw_WorkerLeaseName i));
     field "repositorySecretRef" (secret_text (bw_RepositorySecretRef i));
     field "source" (source_text (bw_Source i))].

Definition backup_owner (b : GameBackup) : OwnerReference :=
  MkOwnerReference GroupVersion "GameBackup" (gb_Name b) (gb_UID b) (Some true) (Some true).
Definition backup_labels (b : GameBackup) : StringMap :=
  <[LabelManagedBy := ManagerName]> (<[LabelName := "backup-worker"]>
    (<[LabelBackupUID := gb_UID b]> (<[LabelDataOperation := "backup"]> ∅))).

Definition backup_rules (b : GameBackup) (source : DataSourceSnapshot) (workerLeaseName : string) : list PolicyRule :=
  [MkRule [""] ["secrets"] [ref_Name (sec_ref (backup_secret b))] ["get"];
   MkRule [""] ["persistentvolumeclaims"] (sort_by id (claimName <$> src_Paths source)) ["get"];
   MkRule ["coordination.k8s.io"] ["leases"] [workerLeaseName] ["get"; "update"]].

Definition backup_fixed_volumes (inputName : string) : list Volume :=
  [MkVolume "input" (VolumeConfigMap inputName (Some 292%Z));
   MkVolume "credentials" (VolumeEmptyDir "" (Some (Mi 2)));
   MkVolume "work" (VolumeEmptyDir "" (Some (Mi 512)));
   MkVolume "authority" (VolumeProjected (Some 292%Z)
     [ProjectServiceAccountToken "token" (Some 600%Z);
      ProjectConfigMap "kube-root-ca.crt" [("ca.crt", "ca.crt")]])].
Definition backup_fixed_mounts : list VolumeMount :=
  [MkVolumeMount "input" "/arcadectl/input" true; MkVolumeMount "credentials" "/arcadectl/credentials" true;
   MkVolumeMount "work" "/arcadectl/work" false].

(** [fmt.Sprintf("source-%d", index)] *)
Definition source_volume_name (index : nat) : string := "source-" +:+ FormatInt (Z.of_nat index).
Definition source_volume (index : nat) (path : DataPathIdentity) : Volume :=
  MkVolume (source_volume_name index) (VolumePersistentVolumeClaim (claimName path) true).
Definition source_mount (index : nat) (path : DataPathIdentity) : VolumeMount :=
  MkVolumeMount (source_volume_name index) ("/arcadectl/source/" +:+ dp_Name path) true.
Definition backup_volumes (inputName : string) (source : DataSourceSnapshot) : list Volume :=
  backup_fixed_volumes inputName ++ imap source_volume (src_Paths source).
Definition backup_mounts (source : DataSourceSnapshot) : list VolumeMount :=
  backup_fixed_mounts ++ imap source_mount (src_Paths source).

Definition backup_authorizer (workerImage : string) : Container :=
  MkContainer "backup-authorizer" workerImage "IfNotPresent" ["/arcadectl-backup-authorizer"] [] []
    [MkVolumeMount "input" "/arcadectl/input" true;
     MkVolumeMount "credentials" "/arcadectl/authorized-credentials" false;
     MkVolumeMount "authority" "/var/run/secrets/kubernetes.io/serviceaccount" true]
    (MkResources (resource_list (milli 25) (Mi 32) (Mi 8)) (resource_list (milli 100) (Mi 64) (Mi 16)))
    worker_security None
    [field_env "POD_NAMESPACE" "metadata.namespace"; field_env "POD_UID" "metadata.uid"] "" "" [] "".

Definition backup_container (workerImage : string) (source : DataSourceSnapshot) : Container :=
  MkContainer "backup-worker" workerImage "IfNotPresent" ["/arcadectl-backup-worker"] [] []
    (backup_mounts source)
    (MkResources (resource_list (milli 100) (Mi 128) (Mi 64)) (resource_list (milli 500) (Mi 512) (Mi 768)))
    worker_security None [] "" "File" [] "".

Definition backup_job (b : GameBackup) (source : DataSourceSnapshot) (artifactID workerImage : string)
    (identity : RuntimeIdentity) : Job :=
  let name := BackupResourceName (gb_UID b) in
  let labels := backup_labels b in
  let annotations := <[AnnotationArtifactID := artifactID]> ∅ in
  MkJob
    (MkObjectMeta name (gb_Namespace b) "" 0 "" 0 None [] labels annotations [backup_owner b])
    (MkJobSpec (Some 0%Z) (Some 3600%Z) (Some 1%Z) (Some 1%Z) (Some true) None None None None labels annotations
       (template_pod (Some false)
          (MkPodSecurity (Some true) (Some (UserID identity)) (Some (GroupID identity)) None None
             (Some "RuntimeDefault") [FSGroup identity])
          [backup_authorizer workerImage] [backup_container workerImage source]
          (backup_volumes (name +:+ "-input") source)
          name (name +:+ "-authority") "Never" [BackupSchedulingGate]) "")
    [] None.

Section Build.
Context `{NameValidation}.

Definition BuildBackupResources (backup : option GameBackup) (source : DataSourceSnapshot)
    (artifactID workerImage workerLeaseName : string) (identity : RuntimeIdentity) : result BackupResources :=
  match backup with
  | None => fail "exact GameBackup identity is required"
  | Some b =>
    if (gb_Name b == "") || (gb_Namespace b == "") || (gb_UID b == "")
    then fail "exact GameBackup identity is required"
    else if negb (is_label (gb_Namespace b)) then fail "GameBackup namespace is invalid"
    else if negb (MatchString pinnedWorkerImagePattern workerImage)
    then fail "backup worker image must be pinned by sha256 digest"
    else if (UserID identity <=? 0)%Z || (GroupID identity <=? 0)%Z || (FSGroup identity <=? 0)%Z
    then fail "backup source identity must be non-root"
    else
      let input := MkBackupWorkerInput WorkerInputVersion artifactID (backup_ref b) workerLeaseName
                     (backup_secret b) source in
      _ ← ValidateBackupWorkerInput input;
      let contents := unchars (BackupWorkerInput_text input ++ [ascii_of_nat 10]) in
      let name := BackupResourceName (gb_UID b) in
      let authorityName := name +:+ "-authority" in
      let authority_meta := new_meta authorityName (gb_Namespace b) (backup_labels b) [backup_owner b] in
      Ok (MkBackupResources
            (MkConfigMap (MkTypeMeta "v1" "ConfigMap")
               (new_meta (name +:+ "-input") (gb_Namespace b) (backup_labels b) [backup_owner b]) ∅
               (<[backupInputKey := contents]> ∅) (Some true))
            (MkServiceAccount authority_meta (Some false))
            (MkRole authority_meta (backup_rules b source workerLeaseName))
            (MkRoleBinding authority_meta [MkSubject "ServiceAccount" authorityName (gb_Namespace b)]
               (MkRoleRef "rbac.authorization.k8s.io" "Role" authorityName))
            (backup_job b source artifactID workerImage identity))
  end.
End Build.

(** ** What the worker may reach *)

Section Authority.
Context `{NameValidation}.

Lemma BuildBackupResources_inv b source artifactID image lease identity res :
  BuildBackupResources (Some b) source artifactID image lease identity = Ok res ->
  gb_UID b <> "" /\ MatchString pinnedWorkerImagePattern image = true /\ (0 < UserID identity)%Z /\
  ValidateBackupWorkerInput (MkBackupWorkerInput WorkerInputVersion artifactID (backup_ref b) lease
    (backup_secret b) source) = Ok tt /\
  role_Rules (bk_Role res) = backup_rules b source lease /\
  bk_Job res = backup_job b source artifactID image identity.
Proof.
  unfold BuildBackupResources. destruct (_ || _)%bool eqn:Hg; [done|]. destruct (negb (is_label _)); [done|].
  destruct (MatchString _ _) eqn:Hi; [|done]. cbn [negb]. destruct (_ || _)%bool eqn:Hn in |- *; [done|].
  intros ([] & Hv & [= <-])%bind_ok. rewrite !orb_false_iff, !bool_decide_eq_false in Hg.
  rewrite !orb_false_iff, !Z.leb_gt in Hn. naive_solver.
Qed.

Lemma valid_input_paths input : ValidateBackupWorkerInput input = Ok tt ->
  src_Paths (bw_Source input) <> [] /\ NoDup (dp_Name <$> src_Paths (bw_Source input)) /\
  NoDup (claimName <$> src_Paths (bw_Source input)) /\ NoDup (claimUID <$> src_Paths (bw_Source input)).
Proof.
  unfold ValidateBackupWorkerInput. case_bool_decide; [|done]. cbn [negb]. destruct (_ || _)%bool eqn:Hg; [done|].
  intros ([[p n] u] & (_ & Hp & Hn & Hu & _)%distinct_ok & _)%bind_ok. split_and!; try done.
  apply orb_false_iff in Hg as [_ Hl]. intros E. by rewrite E in Hl.
Qed.

Lemma source_volumes_elem f (paths : list DataPathIdentity) v :
  v ∈ imap (fun i path => MkVolume (f i) (VolumePersistentVolumeClaim (claimName path) true)) paths ->
  exists path, path ∈ paths /\ vol_Source v = VolumePersistentVolumeClaim (claimName path) true.
Proof.
  intros (i & path & -> & Hi)%elem_of_lookup_imap_1. exists path. split; [by eapply list_elem_of_lookup_2 | done].
Qed.

(** The backup worker can read the source claims and write none.  Its Pod
    mounts exactly the claims of the source, every one of them read-only, and
    each of them once; its Role grants [get] on the one repository Secret and
    on the source claims, and [update] only on the operation's Lease; the Job
    is created suspended and gated, runs as a non-root user, and every
    container's image is pinned by digest. *)
Theorem BuildBackupResources_confined b source artifactID image lease identity res
  (Hb : BuildBackupResources (Some b) source artifactID image lease identity = Ok res) :
  let pod := job_TemplateSpec (job_Spec (bk_Job res)) in
  (forall v name ro, v ∈ pod_Volumes pod -> vol_Source v = VolumePersistentVolumeClaim name ro ->
     ro = true /\ name ∈ claimName <$> src_Paths source) /\
  (forall path, path ∈ src_Paths source ->
     exists v, v ∈ pod_Volumes pod /\ vol_Source v = VolumePersistentVolumeClaim (claimName path) true) /\
  NoDup (claimName <$> src_Paths source) /\
  (forall c m, c ∈ pod_InitContainers pod ++ pod_Containers pod -> m ∈ con_VolumeMounts c ->
     vm_ReadOnly m = true \/ vm_Name m = "credentials" \/ vm_Name m = "work") /\
  (forall rule verb, rule ∈ role_Rules (bk_Role res) -> verb ∈ rule_Verbs rule ->
     (verb = "get" /\ (rule_ResourceNames rule = [ref_Name (sec_ref (backup_secret b))] \/
        rule_ResourceNames rule = sort_by id (claimName <$> src_Paths source) \/ rule_ResourceNames rule = [lease])) \/
     (verb = "update" /\ rule_Resources rule = ["leases"] /\ rule_ResourceNames rule = [lease])) /\
  job_Suspend (job_Spec (bk_Job res)) = Some true /\ pod_SchedulingGates pod = [BackupSchedulingGate] /\
  RunAsNonRoot (pod_SecurityContext pod) = Some true /\
  RunAsUser (pod_SecurityContext pod) = Some (UserID identity) /\ (0 < UserID identity)%Z /\
  (forall c, c ∈ pod_InitContainers pod ++ pod_Containers pod ->
     MatchString pinnedWorkerImagePattern (con_Image c) = true).
Proof.
  apply BuildBackupResources_inv in Hb as (_ & Hi & Hu & Hv & Hr & Hj). intros pod. subst pod. rewrite Hj, Hr. clear Hj Hr.
  apply valid_input_paths in Hv as (_ & _ & Hn & _).
  cbn [job_Spec backup_job job_TemplateSpec template_pod pod_Volumes pod_SchedulingGates pod_SecurityContext
       RunAsNonRoot RunAsUser pod_InitContainers pod_Containers job_Suspend app].
  split_and!; try done.
  - intros v name ro [Hv|Hv]%elem_of_app E.
    + unfold backup_fixed_volumes in Hv. repeat (apply elem_of_cons in Hv as [->|Hv]; [discriminate E|]).
      by apply not_elem_of_nil in Hv.
    + apply source_volumes_elem in Hv as (path & Hp & E'). rewrite E' in E. injection E as <- <-.
      split; [done | by apply list_elem_of_fmap_2].
  - intros path (i & Hi')%list_elem_of_lookup. exists (source_volume i path). split; [|done]. apply elem_of_app. right.
    by apply elem_of_lookup_imap_2.
  - intros c m Hc Hm. apply elem_of_cons in Hc as [->|Hc]; [cbn in Hm; set_solver|].
    apply list_elem_of_singleton in Hc as ->. cbn [con_VolumeMounts backup_container] in Hm. unfold backup_mounts in Hm.
    apply elem_of_app in Hm as [Hm|(i & path & -> & _)%elem_of_lookup_imap_1]; [|by left].
    unfold backup_fixed_mounts in Hm. set_solver.
  - intros rule verb Hrule Hverb. unfold backup_rules in Hrule.
    repeat (apply elem_of_cons in Hrule as [->|Hrule]; [cbn in *; set_solver|]). by apply not_elem_of_nil in Hrule.
  - intros c Hc. repeat (apply elem_of_cons in Hc as [->|Hc]; [done|]). by apply not_elem_of_nil in Hc.
Qed.
End Authority.
