(* ===== verification/DestroyController.v ===== *)
(** * The destroy controller ([internal/controller/gamedestroy_controller.go])

    [GameDestroyReconciler], call for call: every read, write, clock and
    random-number request of the source is a [request], in the source's order,
    and every early return is one here.  [DestroySafety] proves what its
    executions guarantee.

    Parameters: apimachinery's [meta.SetStatusCondition] ([StatusConditions])
    and the strict JSON decoding of a worker's termination message
    ([ResultDecoder]); the theorems hold for any of them. *)

From Stdlib Require Import Ascii.
From stdpp Require Import base tactics list strings gmap numbers.
From S2P Require Import Prelude GoStrings K8s ApiTypes DataOperation Operations GameDefinition KubeObjects KubePlan KubeApi WorkerInput KubeDestroy WorkerPods.
Open Scope string_scope.
Open Scope list_scope.

Class StatusConditions := SetStatusCondition : list Condition -> Condition -> list Condition.

Definition destroyRequeue : Z := second.
Definition destroyJobAuthorizedAnnotation := "arcade.gobha.me/destroy-job-authorized".

Record GameDestroyReconciler := MkReconciler {
  has_APIReader : bool;
  r_Catalog : Catalog;
  WorkerImage : string }.

Definition zero_ref : ExactLocalReference := MkRef None "" "".
Definition zero_server_ref : ExactGameServerReference := MkGSRef zero_ref 0 DesiredStateUnset.
Definition zero_secret_ref : ExactSecretReference := MkSecretRef zero_ref "".
Definition zero_artifact : BackupArtifact :=
  MkArtifact (MkProvenance zero_ref zero_secret_ref) "" "" "" 0 0 0 (MkVerification (VerificationOther "") None).
Definition zero_source : DataSourceSnapshot := MkSource zero_server_ref "" "" "" [].
Definition zero_Input : Input :=
  MkInput "" (StageOther "") zero_ref zero_ref zero_server_ref "" zero_secret_ref zero_artifact zero_source
    "" "" "" [] "" [] [].

Record destroySubject := MkSubject {
  sub_backup : option GameBackup;
  sub_definition : GameDefinition;
  sub_input : Input }.

(** A write to a nil map panics, and the manager turns the panic into an error. *)
Definition nil_map_write : error := ErrorsNew "panic: assignment to entry in nil map".
Definition nil_dereference : error := ErrorsNew "panic: nil pointer dereference".
Definition insert_annotation (k v : string) (m : ObjectMeta) : result ObjectMeta :=
  if om_Annotations m == ∅ then Err nil_map_write
  else Ok (MkObjectMeta (om_Name m) (om_Namespace m) (om_UID m) (om_Generation m) (om_ResourceVersion m)
             (om_CreationTimestamp m) (om_DeletionTimestamp m) (om_Finalizers m) (om_Labels m)
             (<[k := v]> (om_Annotations m)) (om_OwnerReferences m)).

(** ** base64.RawURLEncoding *)

Definition base64url_digit (n : N) : ascii :=
  if (n <? 26)%N then ascii_of_N (65 + n)
  else if (n <? 52)%N then ascii_of_N (71 + n)
  else if (n <? 62)%N then ascii_of_N (n - 4)
  else if (n =? 62)%N then "-"%char else "_"%char.
Fixpoint raw_url_chars (l : list ascii) : list ascii :=
  match l with
  | a :: b :: c :: rest =>
      let a := N_of_ascii a in let b := N_of_ascii b in let c := N_of_ascii c in
      base64url_digit (N.shiftr a 2) ::
      base64url_digit (N.lor (N.shiftl (N.land a 3) 4) (N.shiftr b 4)) ::
      base64url_digit (N.lor (N.shiftl (N.land b 15) 2) (N.shiftr c 6)) ::
      base64url_digit (N.land c 63) :: raw_url_chars rest
  | [a; b] =>
      let a := N_of_ascii a in let b := N_of_ascii b in
      [base64url_digit (N.shiftr a 2); base64url_digit (N.lor (N.shiftl (N.land a 3) 4) (N.shiftr b 4));
       base64url_digit (N.shiftl (N.land b 15) 2)]
  | [a] =>
      let a := N_of_ascii a in [base64url_digit (N.shiftr a 2); base64url_digit (N.shiftl (N.land a 3) 4)]
  | [] => []
  end.
Definition RawURLEncoding (l : list ascii) : string := unchars (raw_url_chars l).

(** ** Updates of the request *)

Definition destroyTerminal (phase : GameDestroyPhase) : bool :=
  (phase == DestroyPhaseSucceeded) || (phase == DestroyPhaseFailed) || (phase == DestroyPhaseCancelled).

Definition with_status (d : GameDestroy) (s : GameDestroyStatus) : GameDestroy :=
  MkGameDestroy (gd_meta d) (gd_Spec d) s.
Definition with_conditions (s : GameDestroyStatus) (c : list Condition) : GameDestroyStatus :=
  MkGameDestroyStatus (gds_ObservedGeneration s) (gds_Phase s) (gds_StartedAt s) (gds_CompletedAt s) c
    (gds_Preview s) (gds_Verification s) (gds_DeletionJournal s).
Definition with_journal (s : GameDestroyStatus) (j : list GameDestroyClaimDeletion) : GameDestroyStatus :=
  MkGameDestroyStatus (gds_ObservedGeneration s) (gds_Phase s) (gds_StartedAt s) (gds_CompletedAt s)
    (gds_Conditions s) (gds_Preview s) (gds_Verification s) j.

Definition of_api (e : option apierr) : option cerror := FromApi <$> e.
Definition create_error {A} (x : apierr + A) : option cerror :=
  match x with inl e => Some (FromApi e) | inr _ => None end.
Definition gd_Generation (d : GameDestroy) : Z := om_Generation (gd_meta d).
Definition journal (d : GameDestroy) : list GameDestroyClaimDeletion := gds_DeletionJournal (gd_Status d).

Section Controller.
Context `{NameValidation} `{TimeText} `{StatusConditions} `{ResultDecoder}.
Variable r : GameDestroyReconciler.

Definition reader : Reader := if has_APIReader r then UncachedReader else CachedReader.
Definition now : prog Time := call ClockNow.
Definition get {A} (k : kind A) (namespace name : string) : prog (apierr + A) :=
  call (ApiGet k reader (Key namespace name)).

Definition operation_condition (d : GameDestroy) (s : ConditionStatus) (reason message : string) (t : Time) :
    Condition :=
  MkCondition ConditionOperationComplete s (gd_Generation d) t reason message.

Definition status (d : GameDestroy) (phase : GameDestroyPhase) (reason message : string) : prog (option cerror) :=
  let s := gd_Status d in
  startedAt ← match gds_StartedAt s with Some t => Ret (Some t) | None => t ← now; Ret (Some t) end;
  completedAt ← (if destroyTerminal phase then t ← now; Ret (Some t) else Ret (gds_CompletedAt s));
  t ← now;
  let conditions := SetStatusCondition (gds_Conditions s) (operation_condition d ConditionUnknown reason message t) in
  conditions ← (if destroyTerminal phase
                then t ← now;
                     let state := if phase == DestroyPhaseSucceeded then ConditionTrue else ConditionFalse in
                     Ret (SetStatusCondition conditions (operation_condition d state reason message t))
                else Ret conditions);
  e ← call (ApiUpdateStatus KGameDestroy (with_status d
        (MkGameDestroyStatus (gd_Generation d) phase startedAt completedAt conditions (gds_Preview s)
           (gds_Verification s) (gds_DeletionJournal s))));
  Ret (of_api e).

Definition hold (d : GameDestroy) (reason message : string) : prog outcome :=
  t ← now;
  let s := gd_Status d in
  e ← call (ApiUpdateStatus KGameDestroy (with_status d (with_conditions s
        (SetStatusCondition (gds_Conditions s) (operation_condition d ConditionUnknown reason message t)))));
  match e with
  | Some e => Ret (no_requeue, Some (FromApi e))
  | None => Ret (requeue_after destroyRequeue, None)
  end.

Definition fail_destroy (d : GameDestroy) (reason message : string) : prog outcome :=
  if len (journal d) != 0%Z then hold d reason message
  else e ← status d DestroyPhaseFailed reason message; Ret (no_requeue, e).

(** ** resolve, in the order of its checks *)

Definition seenNames (d : GameDestroy) : list string := claim_name <$> target_claims d.

Definition adapter_paths (definition : GameDefinition) : StringMap :=
  fold_left (fun m p => <[pp_Name p := pp_MountPath p]> m) (def_PersistentPaths definition) ∅.

Definition target_claim_step (paths : StringMap) (seen : list string * list string)
    (c : RetainedDataClaimReference) : result (list string * list string) :=
  let '(names, uids) := seen in
  if (mget paths (rdc_Path c) == "") || (ref_Namespace (rdc_ClaimRef c) != None) || (claim_name c == "") ||
     (claim_uid c == "")
  then fail "target claim path or exact UID is invalid"
  else if bool_decide (claim_name c ∈ names) then fail "target claim names overlap"
  else if bool_decide (claim_uid c ∈ uids) then fail "target claim UIDs overlap"
  else Ok (claim_name c :: names, claim_uid c :: uids).

(** The identity checks, which need no API call. *)
Definition resolve_target (d : GameDestroy) : result GameDefinition :=
  let t := gd_Target (gd_Spec d) in
  if (ref_Namespace (dt_GameServer t) != None) || (ref_Name (dt_GameServer t) == "") ||
     (ref_UID (dt_GameServer t) == "") || (target_identity d == "") || (len (target_claims d) == 0%Z) ||
     (len (target_claims d) >? 16)%Z
  then fail "exact local world identity is incomplete"
  else match catalog_Get (r_Catalog r) (dt_Game t) with
  | Err _ => fail "target does not match a certified persistent game adapter"
  | Ok definition =>
      if negb (ColdBackup (def_Capabilities definition)) || negb (Restore (def_Capabilities definition)) ||
         (len (def_PersistentPaths definition) != len (target_claims d))
      then fail "target does not match a certified persistent game adapter"
      else
        _ ← for_state (target_claim_step (adapter_paths definition)) ([], []) (target_claims d);
        Ok definition
  end.

(** The stored backup proves that the world stayed cold since it was taken. *)
Definition backup_available (b : GameBackup) (ref : ExactLocalReference) : bool :=
  (gb_UID b == ref_UID ref) && negb (deleting (gb_meta b)) && (ds_Phase (gb_Status b) == DataPhaseSucceeded) &&
  (ds_ObservedGeneration (gb_Status b) == gb_Generation b) && present (ds_Source (gb_Status b)) &&
  present (ds_Artifact (gb_Status b)) && present (ds_Runtime (gb_Status b)) && present (ds_Fence (gb_Status b)).

Definition backup_cold (d : GameDestroy) (b : GameBackup) (ref : ExactLocalReference) (secret : ExactSecretReference)
    (source : DataSourceSnapshot) (artifact : BackupArtifact) (runtime : RuntimeDisposition) : bool :=
  let t := gd_Target (gd_Spec d) in
  (dor_RestartPolicy (gbs_Request (gb_Spec b)) == RestartLeaveStopped) && (rt_Phase runtime == PhaseStopped) &&
  (gsr_DesiredState (rt_GameServer runtime) == DesiredStateStopped) &&
  (gsr_ref (src_GameServer source) == dt_GameServer t) && (src_Game source == dt_Game t) &&
  (av_Result (art_Verification artifact) == VerificationVerified) &&
  present (av_VerifiedAt (art_Verification artifact)) && (ap_BackupRef (art_Provenance artifact) == ref) &&
  (ap_RepositorySecretRef (art_Provenance artifact) == secret) &&
  (len (src_Paths source) == len (target_claims d)) && (art_PathCount artifact == int32 (len (target_claims d))).

Definition source_path_check (d : GameDestroy) (paths : StringMap) (p : DataPathIdentity) : result unit :=
  if mget paths (dp_Name p) != dp_MountPath p then fail "backup adapter topology changed"
  else if existsb (fun c => (rdc_Path c == dp_Name p) && (rdc_ClaimRef c == dp_ClaimRef p)) (target_claims d)
  then Ok tt else fail "backup data identities do not match exact destroy target".

Record backup_evidence := MkEvidence {
  ev_backup : GameBackup;
  ev_ref : ExactLocalReference;
  ev_secret : ExactSecretReference;
  ev_source : DataSourceSnapshot;
  ev_artifact : BackupArtifact;
  ev_runtime : RuntimeDisposition }.

Definition secret_unchanged (m : ObjectMeta) (s : ExactSecretReference) : bool :=
  (om_UID m == ref_UID (sec_ref s)) && (om_ResourceVersion m == sec_ResourceVersion s) && negb (deleting m).

Definition resolve_backup (d : GameDestroy) (definition : GameDefinition) : prog (result (option backup_evidence)) :=
  if gd_Mode (gd_Spec d) == DestroyModeVerifiedBackup then
    match gd_BackupRef (gd_Spec d), gd_RepositorySecretRef (gd_Spec d) with
    | Some ref, Some secret =>
        if (ref_Namespace ref != None) || (ref_Namespace (sec_ref secret) != None)
        then Ret (fail "exact backup and repository references are required")
        else
          b ← get KGameBackup (gd_Namespace d) (ref_Name ref);
          match b with
          | inl _ => Ret (fail "exact succeeded backup and stopped runtime evidence are unavailable")
          | inr b =>
              if negb (backup_available b ref)
              then Ret (fail "exact succeeded backup and stopped runtime evidence are unavailable")
              else match ds_Source (gb_Status b), ds_Artifact (gb_Status b), ds_Runtime (gb_Status b) with
              | Some source, Some artifact, Some runtime =>
                  if negb (backup_cold d b ref secret source artifact runtime)
                  then Ret (fail "backup does not prove the exact original world stayed cold")
                  else match for_each (source_path_check d (adapter_paths definition)) (src_Paths source) with
                  | Err e => Ret (Err e)
                  | Ok _ =>
                      m ← get KSecretMetadata (gd_Namespace d) (ref_Name (sec_ref secret));
                      match m with
                      | inr m => if secret_unchanged m secret
                                 then Ret (Ok (Some (MkEvidence b ref secret source artifact runtime)))
                                 else Ret (fail "exact repository Secret revision is unavailable")
                      | inl _ => Ret (fail "exact repository Secret revision is unavailable")
                      end
                  end
              | _, _, _ => Ret (fail "exact succeeded backup and stopped runtime evidence are unavailable")
              end
          end
    | _, _ => Ret (fail "exact backup and repository references are required")
    end
  else if (gd_Mode (gd_Spec d) != DestroyModeUnsafeNoBackup) || (slen (gd_UnsafeReason (gd_Spec d)) <? 8)%Z
  then Ret (fail "destroy mode is invalid")
  else Ret (Ok None).

Definition orelse {A} (o o' : option A) : option A := match o with Some x => Some x | None => o' end.

Definition server_stopped (d : GameDestroy) (server : GameServer) : bool :=
  let t := gd_Target (gd_Spec d) in
  let st := gs_Status server in
  let selected := orelse (gss_ActiveData st) (gss_ObservedData st) in
  (om_UID (gs_meta server) == ref_UID (dt_GameServer t)) && negb (deleting (gs_meta server)) &&
  (gs_Game (gs_Spec server) == dt_Game t) && (gs_DesiredState (gs_Spec server) == DesiredStateStopped) &&
  (gss_Phase st == PhaseStopped) && (gss_ObservedGeneration st == om_Generation (gs_meta server)) &&
  sameDataSelection (gss_ObservedData st) (Some (dt_Data t)) && sameDataSelection selected (Some (dt_Data t)).

Definition server_unchanged (server : GameServer) (backup : option backup_evidence) : bool :=
  match backup with
  | None => true
  | Some b => (om_Generation (gs_meta server) == gsr_Generation (rt_GameServer (ev_runtime b))) &&
              (gs_ImageDigest (gs_Spec server) == src_ImageDigest (ev_source b))
  end.

Definition resolve_server (d : GameDestroy) (backup : option backup_evidence) : prog (result unit) :=
  server ← get KGameServer (gd_Namespace d) (ref_Name (dt_GameServer (gd_Target (gd_Spec d))));
  match server with
  | inl NotFound => Ret (match backup with
                         | None => fail "unsafe destroy of a removed GameServer lacks durable original UID evidence"
                         | Some _ => Ok tt
                         end)
  | inl _ => Ret (fail "inspect exact GameServer failed")
  | inr server =>
      if negb (server_stopped d server)
      then Ret (fail "exact GameServer generation is not stopped on the requested data")
      else if negb (server_unchanged server backup)
      then Ret (fail "GameServer changed since its leave-stopped backup")
      else Ret (Ok tt)
  end.

Definition selects (target : RetainedDataReference) (other : GameServer) : bool :=
  sameDataSelection (gss_ActiveData (gs_Status other)) (Some target) ||
  sameDataSelection (gss_ObservedData (gs_Status other)) (Some target) ||
  sameDataSelection (st_Reattach (gs_Storage (gs_Spec other))) (Some target).

Definition is_target_server (d : GameDestroy) (other : GameServer) : bool :=
  let t := gd_Target (gd_Spec d) in
  (om_Name (gs_meta other) == ref_Name (dt_GameServer t)) && (om_UID (gs_meta other) == ref_UID (dt_GameServer t)).

Definition resolve_selectors (d : GameDestroy) : prog (result unit) :=
  servers ← call (ApiList KGameServer reader (Some (gd_Namespace d)) ∅);
  match servers with
  | inl _ => Ret (fail "inspect GameServer data selectors failed")
  | inr (MkList servers _ _) => Ret (for_each (fun other =>
      if is_target_server d other then Ok tt
      else if selects (dt_Data (gd_Target (gd_Spec d))) other
      then fail "another GameServer selects the target world" else Ok tt) servers)
  end.

Definition journal_map (d : GameDestroy) : gmap string GameDestroyClaimDeletion :=
  fold_left (fun m e => <[cd_Path e := e]> m) (journal d) ∅.
(** [entry, ok := journal[path]; ok && entry.ClaimRef == ref] *)
Definition journaled (d : GameDestroy) (c : RetainedDataClaimReference) : bool :=
  match journal_map d !! rdc_Path c with Some e => cd_ClaimRef e == rdc_ClaimRef c | None => false end.

Definition claim_exact (d : GameDestroy) (c : RetainedDataClaimReference) (claim : PersistentVolumeClaim) : bool :=
  let t := gd_Target (gd_Spec d) in
  let m := pvc_meta claim in
  (om_UID m == claim_uid c) && (len (om_OwnerReferences m) == 0%Z) &&
  (mget (om_Labels m) LabelManagedBy == ManagerName) && (mget (om_Labels m) LabelName == "game-data") &&
  (mget (om_Labels m) LabelDataPolicy == "retain") &&
  (mget (om_Labels m) LabelInstance == ref_Name (dt_GameServer t)) && (mget (om_Labels m) LabelGame == dt_Game t) &&
  (mget (om_Labels m) LabelDataIdentity == target_identity d) && (mget (om_Labels m) LabelDataPath == rdc_Path c) &&
  (pvc_VolumeName claim != "").

Definition cold_marker (backup : option backup_evidence) (claim : PersistentVolumeClaim) : bool :=
  match backup with
  | None => true
  | Some b => mget (om_Annotations (pvc_meta claim)) AnnotationColdBackupUID == gb_UID (ev_backup b)
  end.

Definition bound_exactly (claim : PersistentVolumeClaim) (pv : PersistentVolume) : bool :=
  let m := pvc_meta claim in
  match pvol_ClaimRef pv with
  | Some (namespace, name, uid) => (namespace == om_Namespace m) && (name == om_Name m) && (uid == om_UID m)
  | None => false
  end.

Definition resolve_claim (d : GameDestroy) (backup : option backup_evidence) (permitJournalAbsence : bool)
    (volumeNames : list string) (c : RetainedDataClaimReference) : prog (result (list string)) :=
  claim ← get KPersistentVolumeClaim (gd_Namespace d) (claim_name c);
  match claim with
  | inl NotFound => Ret (if permitJournalAbsence && journaled d c then Ok volumeNames
                         else fail "exact target PVC is unavailable")
  | inl _ => Ret (fail "exact target PVC is unavailable")
  | inr claim =>
      if negb (claim_exact d c claim) then Ret (fail "exact target PVC identity or binding changed")
      else if negb (cold_marker backup claim)
      then Ret (fail "exact PVC cold-backup continuity marker is absent or changed")
      else if deleting (pvc_meta claim) && negb (permitJournalAbsence && journaled d c)
      then Ret (fail "target PVC is already terminating without this destroy journal")
      else
        let volumeNames := pvc_VolumeName claim :: volumeNames in
        if permitJournalAbsence && journaled d c && deleting (pvc_meta claim) then Ret (Ok volumeNames)
        else if pvc_Phase claim != "Bound" then Ret (fail "target PVC is no longer bound")
        else
          pv ← get KPersistentVolume "" (pvc_VolumeName claim);
          match pv with
          | inr pv => if bound_exactly claim pv then Ret (Ok volumeNames)
                      else Ret (fail "target PVC/PV binding is not exact")
          | inl _ => Ret (fail "target PVC/PV binding is not exact")
          end
  end.

Definition mounts_target (d : GameDestroy) (v : Volume) : bool :=
  match vol_Source v with
  | VolumePersistentVolumeClaim name _ => bool_decide (name ∈ seenNames d)
  | _ => false
  end.

Definition resolve_pods (d : GameDestroy) : prog (result unit) :=
  pods ← call (ApiList KPod reader (Some (gd_Namespace d)) ∅);
  match pods with
  | inl _ => Ret (fail "inspect PVC mount users failed")
  | inr (MkList pods _ _) => Ret (for_each (fun pod => for_each (fun v =>
      if mounts_target d v then fail "target PVC remains mounted by a Pod" else Ok tt)
      (pod_Volumes (pod_Spec pod))) pods)
  end.

Definition resolve_attachments (volumeNames : list string) : prog (result unit) :=
  attachments ← call (ApiList KVolumeAttachment reader None ∅);
  match attachments with
  | inl _ => Ret (fail "inspect target volume attachments failed")
  | inr (MkList attachments _ _) => Ret (for_each (fun a =>
      match va_PersistentVolumeName a with
      | Some v => if bool_decide (v ∈ volumeNames) && va_Attached a
                  then fail "target volume remains attached" else Ok tt
      | None => Ok tt
      end) attachments)
  end.

Definition preflight_input (d : GameDestroy) (b : backup_evidence) : Input :=
  let source := ev_source b in
  MkInput InputVersion StagePreflight (self_ref d) (ev_ref b) (src_GameServer source)
    (DestroyWorkerLeaseName (gd_UID d)) (ev_secret b) (ev_artifact b) source (src_Game source)
    (src_ImageDigest source) (src_SettingsDigest source)
    ((fun p => MkContract (dp_Name p) (dp_MountPath p)) <$> src_Paths source) "" [] [].

Definition resolve_subject (d : GameDestroy) (definition : GameDefinition) (backup : option backup_evidence) :
    result destroySubject :=
  match backup with
  | None => Ok (MkSubject None definition zero_Input)
  | Some b =>
      let input := preflight_input d b in
      if is_ok (ValidateInput input) then Ok (MkSubject (Some (ev_backup b)) definition input)
      else fail "repository preflight input is invalid"
  end.

(** [p; if err != nil { return nil, err }] *)
Definition and_then {A B} (p : prog (result A)) (k : A -> prog (result B)) : prog (result B) :=
  x ← p; match x with Ok a => k a | Err e => Ret (Err e) end.

Definition resolve (d : GameDestroy) (permitJournalAbsence : bool) : prog (result destroySubject) :=
  match resolve_target d with
  | Err e => Ret (Err e)
  | Ok definition =>
      and_then (resolve_backup d definition) (fun backup =>
      and_then (resolve_server d backup) (fun _ =>
      and_then (resolve_selectors d) (fun _ =>
      and_then (loop_state (resolve_claim d backup permitJournalAbsence) [] (target_claims d)) (fun volumeNames =>
      and_then (resolve_pods d) (fun _ =>
      and_then (resolve_attachments volumeNames) (fun _ =>
      Ret (resolve_subject d definition backup)))))))
  end.

(** ** The data-operation fence *)

Definition server_name (d : GameDestroy) : string := ref_Name (dt_GameServer (gd_Target (gd_Spec d))).
Definition fence_name (d : GameDestroy) : string := DataOperationLeaseName (target_identity d).
Definition holds_fence (d : GameDestroy) (lease : Lease) : bool :=
  DestroyOperationLeaseMatches (Some lease) (self_ref d) (server_name d) (target_identity d).

Definition lease_labels (d : GameDestroy) : StringMap :=
  <[LabelManagedBy := ManagerName]> (<[LabelInstance := server_name d]>
    (<[LabelDataIdentity := target_identity d]> (<[LabelDestroyUID := gd_UID d]> ∅))).
Definition lease_annotations (d : GameDestroy) : StringMap := <[AnnotationDestroyName := gd_Name d]> ∅.

Definition fence (d : GameDestroy) (t : Time) : Lease :=
  MkLease (MkObjectMeta (fence_name d) (gd_Namespace d) "" 0 "" 0 None [] (lease_labels d) (lease_annotations d) [])
    (Some (gd_UID d)) (Some t).

Definition acquireDataLease (d : GameDestroy) : prog (option cerror) :=
  existing ← get KLease (gd_Namespace d) (fence_name d);
  match existing with
  | inl NotFound => t ← now; e ← call (ApiCreate KLease (fence d t)); Ret (create_error e)
  | inl e => Ret (Some (FromApi e))
  | inr lease => Ret (if holds_fence d lease then None
                      else Some (FromGo (ErrorsNew "retained world operation lease belongs to another operation")))
  end.

Definition requireDataLease (d : GameDestroy) : prog (result unit) :=
  lease ← get KLease (gd_Namespace d) (fence_name d);
  match lease with
  | inr lease => Ret (if holds_fence d lease then Ok tt else fail "exact destroy data lease is not held")
  | inl _ => Ret (fail "exact destroy data lease is not held")
  end.

Definition uid_precondition (m : ObjectMeta) : DeleteOptions := MkDeleteOptions (Some (om_UID m)) None None.

Definition foreign_lease (d : GameDestroy) (lease : Lease) : bool :=
  (ls_HolderIdentity lease != Some (gd_UID d)) &&
  (mget (om_Labels (ls_meta lease)) LabelDestroyUID != gd_UID d) &&
  (mget (om_Annotations (ls_meta lease)) AnnotationDestroyName != gd_Name d).

Definition releaseDataLease (d : GameDestroy) : prog (option cerror) :=
  lease ← get KLease (gd_Namespace d) (fence_name d);
  match lease with
  | inl NotFound => Ret None
  | inl e => Ret (Some (FromApi e))
  | inr lease =>
      if negb (holds_fence d lease)
      then Ret (if foreign_lease d lease then None else Some (FromGo (ErrorsNew "refuse to release foreign data lease")))
      else e ← call (ApiDelete KLease lease (uid_precondition (ls_meta lease))); Ret (of_api e)
  end.

(** ** The worker's own Lease, Job and Pod *)

Definition owned (d : GameDestroy) (m : ObjectMeta) : bool :=
  controlledBy (om_OwnerReferences m) "GameDestroy" (gd_Name d) (gd_UID d).
Definition worker_lease_name (d : GameDestroy) : string := DestroyWorkerLeaseName (gd_UID d).

Definition workerLease (d : GameDestroy) : prog (option cerror) :=
  lease ← get KLease (gd_Namespace d) (worker_lease_name d);
  match lease with
  | inl NotFound =>
      e ← call (ApiCreate KLease (MkLease
            (MkObjectMeta (worker_lease_name d) (gd_Namespace d) "" 0 "" 0 None [] (lease_labels d)
               (lease_annotations d) [destroy_owner d]) (Some (gd_UID d)) None));
      Ret (create_error e)
  | inl e => Ret (Some (FromApi e))
  | inr lease =>
      let m := ls_meta lease in
      Ret (if (len (om_OwnerReferences m) != 1%Z) || negb (owned d m) ||
              (ls_HolderIdentity lease != Some (gd_UID d)) || (mget (om_Labels m) LabelDestroyUID != gd_UID d) ||
              (mget (om_Labels m) LabelDataIdentity != target_identity d) ||
              (mget (om_Annotations m) AnnotationDestroyName != gd_Name d)
           then Some (FromGo (ErrorsNew "destroy worker lease changed owner")) else None)
  end.

Definition destroyJobArmed (d : GameDestroy) (job : Job) : prog (cerror + bool) :=
  lease ← get KLease (gd_Namespace d) (worker_lease_name d);
  match lease with
  | inl e => Ret (inl (FromApi e))
  | inr lease =>
      let m := ls_meta lease in
      if negb (owned d m) || (ls_HolderIdentity lease != Some (gd_UID d))
      then Ret (inl (FromGo (ErrorsNew "destroy worker lease changed owner")))
      else
        let authorized := mget (om_Annotations m) destroyJobAuthorizedAnnotation in
        if (authorized != "") && (authorized != om_UID (job_meta job))
        then Ret (inl (FromGo (ErrorsNew "destroy worker lease pins a different Job UID")))
        else Ret (inr (authorized == om_UID (job_meta job)))
  end.

Definition armDestroyJob (d : GameDestroy) (job : Job) : prog (option cerror) :=
  lease ← get KLease (gd_Namespace d) (worker_lease_name d);
  match lease with
  | inl e => Ret (Some (FromApi e))
  | inr lease =>
      let m := ls_meta lease in
      if negb (owned d m) || (ls_HolderIdentity lease != Some (gd_UID d)) ||
         (mget (om_Annotations m) destroyJobAuthorizedAnnotation != "")
      then Ret (Some (FromGo (ErrorsNew "destroy worker lease cannot arm this Job")))
      else match insert_annotation destroyJobAuthorizedAnnotation (om_UID (job_meta job)) m with
      | Err e => Ret (Some (FromGo e))
      | Ok m' => e ← call (ApiUpdate KLease (MkLease m' (ls_HolderIdentity lease) (ls_AcquireTime lease)));
                 Ret (of_api e)
      end
  end.

(** One iteration of [ensureWorkerResources]: [None] when the object is as
    desired, else what the function returns. *)
Definition ensure_object {A} (k : kind A) (desired : A) (unchanged : A -> bool) (changed : string) :
    prog (option (bool * option cerror)) :=
  let m := object_meta k desired in
  existing ← get k (om_Namespace m) (om_Name m);
  match existing with
  | inl NotFound => e ← call (ApiCreate k desired); Ret (Some (true, create_error e))
  | inl e => Ret (Some (false, Some (FromApi e)))
  | inr a =>
      let m' := object_meta k a in
      if (om_OwnerReferences m' != om_OwnerReferences m) || (om_Labels m' != om_Labels m) ||
         (om_Annotations m' != om_Annotations m)
      then Ret (Some (false, Some (FromGo (ErrorsNew "destroy worker authority collides with a changed object"))))
      else if negb (unchanged a) then Ret (Some (false, Some (FromGo (ErrorsNew changed))))
      else Ret None
  end.

Definition ensure_job (desired : Job) : prog (bool * option cerror) :=
  let m := job_meta desired in
  existing ← get KJob (om_Namespace m) (om_Name m);
  match existing with
  | inl NotFound => e ← call (ApiCreate KJob desired); Ret (true, create_error e)
  | inl e => Ret (false, Some (FromApi e))
  | inr job =>
      let expected := if job_Suspend (job_Spec job) == Some false then set_suspend desired false else desired in
      let m' := job_meta job in
      Ret (if (om_OwnerReferences m' != om_OwnerReferences m) || (om_Labels m' != om_Labels m) ||
              (om_Annotations m' != om_Annotations m) || negb (backupJobSpecMatches expected job)
           then (false, Some (FromGo (ErrorsNew "destroy preflight Job changed"))) else (false, None))
  end.

(** [p; if it returned, return] *)
Definition or_continue {A} (p : prog (option A)) (k : prog A) : prog A :=
  x ← p; match x with Some a => Ret a | None => k end.

Definition ensureWorkerResources (resources : DestroyResources) : prog (bool * option cerror) :=
  or_continue (ensure_object KConfigMap (dr_Input resources)
    (fun a => (cm_Data a == cm_Data (dr_Input resources)) && (cm_Immutable a == Some true))
    "destroy input ConfigMap changed")
  (or_continue (ensure_object KServiceAccount (dr_ServiceAccount resources)
    (fun a => sa_AutomountServiceAccountToken a == Some false)
    "destroy worker ServiceAccount changed")
  (or_continue (ensure_object KRole (dr_Role resources)
    (fun a => role_Rules a == role_Rules (dr_Role resources))
    "destroy worker Role changed")
  (or_continue (ensure_object KRoleBinding (dr_RoleBinding resources)
    (fun a => (rb_Subjects a == rb_Subjects (dr_RoleBinding resources)) &&
              (rb_RoleRef a == rb_RoleRef (dr_RoleBinding resources)))
    "destroy worker RoleBinding changed")
  (ensure_job (dr_Job resources))))).

Definition pod_identity (job : Job) (pod : Pod) : bool :=
  (om_UID (pod_meta pod) != "") && (om_UID (job_meta job) != "") &&
  controlledBy (om_OwnerReferences (pod_meta pod)) "Job" (om_Name (job_meta job)) (om_UID (job_meta job)) &&
  (om_Labels (pod_meta pod) == job_TemplateLabels (job_Spec job)) &&
  workerPodAnnotationsMatch (om_Annotations (pod_meta pod)) (job_TemplateAnnotations (job_Spec job))
    AnnotationDestroyPodAuthorized.

Definition pod_fresh (pod : Pod) : bool :=
  (mget (om_Annotations (pod_meta pod)) AnnotationDestroyPodAuthorized == "") &&
  (pod_NodeName (pod_Spec pod) == "") && ((pod_Phase pod == "") || (pod_Phase pod == "Pending")) &&
  (len (pod_InitContainerStatuses pod) == 0%Z) && (len (pod_ContainerStatuses pod) == 0%Z) &&
  (pod_SchedulingGates (pod_Spec pod) == [DestroySchedulingGate]).

Definition destroy_pods (d : GameDestroy) : prog (apierr + object_list Pod) :=
  call (ApiList KPod reader (Some (gd_Namespace d)) (<[LabelDestroyUID := gd_UID d]> ∅)).

Definition authorizeWorkerPod (d : GameDestroy) (job : Job) : prog (cerror + backupPodState * option Pod) :=
  pods ← destroy_pods d;
  match pods with
  | inl e => Ret (inl (FromApi e))
  | inr (MkList [] _ _) => Ret (inr (backupPodPending, None))
  | inr (MkList [pod] _ _) =>
      if negb (pod_identity job pod) then Ret (inr (backupPodChanged, None))
      else if (mget (om_Annotations (pod_meta pod)) AnnotationDestroyPodAuthorized == om_UID (pod_meta pod)) &&
              (len (pod_SchedulingGates (pod_Spec pod)) == 0%Z)
      then Ret (inr (backupPodAuthorized, Some pod))
      else if negb (pod_fresh pod) then Ret (inr (backupPodChanged, None))
      else if normalizeBackupPodDefaults (job_TemplateSpec (job_Spec job)) != normalizeBackupPodDefaults (pod_Spec pod)
      then Ret (inr (backupPodChanged, None))
      else match insert_annotation AnnotationDestroyPodAuthorized (om_UID (pod_meta pod)) (pod_meta pod) with
      | Err e => Ret (inl (FromGo e))
      | Ok m' =>
          e ← call (ApiUpdate KPod (MkPod m' (ungated (pod_Spec pod)) (pod_Phase pod) (pod_InitContainerStatuses pod)
                (pod_ContainerStatuses pod)));
          Ret (match e with Some e => inl (FromApi e) | None => inr (backupPodPending, None) end)
      end
  | inr _ => Ret (inr (backupPodOverlap, None))
  end.

Definition terminated_result (c : ContainerStatus) : option Result :=
  match cs_Terminated c with
  | Some (code, message) => if (cs_Name c == "destroy-worker") && (code == 0%Z) then DecodeResult message else None
  | None => None
  end.
Fixpoint first_result (l : list ContainerStatus) : result Result :=
  match l with
  | [] => fail "no valid destroy result"
  | c :: rest => match terminated_result c with Some x => Ok x | None => first_result rest end
  end.
Definition destroyWorkerResult (pod : option Pod) : result Result :=
  match pod with
  | None => fail "no result Pod"
  | Some pod => first_result (pod_ContainerStatuses pod)
  end.

(** ** Removing the worker *)

Definition cleanup_object {A} (d : GameDestroy) (k : kind A) (name : string) : prog (option (bool * option cerror)) :=
  object ← get k (gd_Namespace d) name;
  match object with
  | inl NotFound => Ret None
  | inl e => Ret (Some (false, Some (FromApi e)))
  | inr a =>
      if negb (owned d (object_meta k a))
      then Ret (Some (false, Some (FromGo (ErrorsNew "refuse to delete foreign destroy authority"))))
      else
        e ← call (ApiDelete k a (uid_precondition (object_meta k a)));
        Ret (match e with
             | None | Some NotFound => Some (true, None)
             | Some e => Some (false, Some (FromApi e))
             end)
  end.

Definition cleanupWorker (d : GameDestroy) : prog (bool * option cerror) :=
  let name := DestroyResourceName (gd_UID d) in
  job ← get KJob (gd_Namespace d) name;
  match job with
  | inr job =>
      if negb (owned d (job_meta job)) then Ret (false, Some (FromGo (ErrorsNew "refuse to delete foreign destroy Job")))
      else
        e ← call (ApiDelete KJob job (MkDeleteOptions (Some (om_UID (job_meta job)))
              (Some (om_ResourceVersion (job_meta job))) (Some "Foreground")));
        Ret (true, of_api e)
  | inl NotFound =>
      pods ← destroy_pods d;
      match pods with
      | inl e => Ret (false, Some (FromApi e))
      | inr (MkList (_ :: _) _ _) => Ret (true, None)
      | inr (MkList [] _ _) =>
          or_continue (cleanup_object d KRoleBinding (name +:+ "-authority"))
          (or_continue (cleanup_object d KRole (name +:+ "-authority"))
          (or_continue (cleanup_object d KServiceAccount (name +:+ "-authority"))
          (or_continue (cleanup_object d KConfigMap (name +:+ "-input"))
          (or_continue (cleanup_object d KLease (worker_lease_name d))
          (Ret (false, None))))))
      end
  | inl e => Ret (false, Some (FromApi e))
  end.

(** [pending, err := cleanupWorker(); if err != nil || pending { return }] *)
Definition after_cleanup (d : GameDestroy) (k : prog outcome) : prog outcome :=
  c ← cleanupWorker d;
  match c with
  | (false, None) => k
  | (_, e) => Ret (requeue_after destroyRequeue, e)
  end.

(** ** The phases *)

Definition previewGuidance (d : GameDestroy) : string :=
  if gd_Mode (gd_Spec d) == DestroyModeUnsafeNoBackup
  then "UNSAFE: this request has no verified backup. Restore requires an independently verified backup into fresh claims; destruction can permanently lose this world. Review the administrator identity and unsafe reason before confirming; PV reclaim policy may retain bytes."
  else "This deletes the exact retained world claims. Restore from the pinned GameBackup and repository Secret into fresh claims before destroying; PV reclaim policy may retain bytes after PVC deletion.".

(** [make([]byte, n)] after [rand.Read] put the bytes it answered there. *)
Definition filled (n : nat) (bytes : list ascii) : list ascii := take n (bytes ++ replicate n zero).

Definition preview (d : GameDestroy) : prog outcome :=
  subject ← resolve d false;
  match subject with
  | Err e => fail_destroy d "PreflightRejected" (err_format e)
  | Ok _ =>
      challenge ← call (RandRead 24);
      match challenge with
      | None => Ret (no_requeue, Some (FromGo (ErrorsNew "generate destroy confirmation failed")))
      | Some challenge =>
          t ← now;
          let s := gd_Status d in
          e ← call (ApiUpdateStatus KGameDestroy (with_status d
                (MkGameDestroyStatus (gd_Generation d) DestroyPhasePreview (gds_StartedAt s) (gds_CompletedAt s)
                   (gds_Conditions s)
                   (Some (MkDestroyPreview (RawURLEncoding (filled 24 challenge)) (t + 20 * minute)%Z (previewGuidance d)))
                   (gds_Verification s) (gds_DeletionJournal s))));
          Ret (no_requeue, of_api e)
      end
  end.

Definition confirmed (d : GameDestroy) : prog bool :=
  match gds_Preview (gd_Status d) with
  | None => Ret false
  | Some p =>
      let challenge := gd_ConfirmationChallenge (gd_Spec d) in
      if (challenge != "") && (challenge == pv_Challenge p)
      then t ← now; Ret (t <? pv_ExpiresAt p)%Z
      else Ret false
  end.

Definition confirm (d : GameDestroy) : prog outcome :=
  if gd_ConfirmationChallenge (gd_Spec d) == "" then Ret (requeue_after (15 * second), None)
  else
    c ← confirmed d;
    if negb c
    then fail_destroy d "ConfirmationExpired"
           "confirmation is stale or does not match the exact preview; create a new request"
    else
      subject ← resolve d false;
      match subject with
      | Err e => fail_destroy d "PreflightRejected" (err_format e)
      | Ok _ =>
          e ← acquireDataLease d;
          match e with
          | Some _ => fail_destroy d "OperationConflict"
                        "another data operation owns this world; no claims were deleted"
          | None =>
              let phase := if gd_Mode (gd_Spec d) == DestroyModeUnsafeNoBackup
                           then DestroyPhaseDeleting else DestroyPhaseVerifying in
              e ← status d phase "Confirmed" "exact target confirmed; retained world is fenced cold";
              Ret (no_requeue, e)
          end
      end.

(** The final comparison of a worker's report with the request. *)
Definition result_matches (d : GameDestroy) (input : Input) (w : Result) : bool :=
  (wr_Version w == ResultVersion) && (wr_Stage w == StagePreflight) && (wr_ArtifactID w == art_ID (in_Artifact input)) &&
  (wr_ManifestDigest w == art_ManifestDigest (in_Artifact input)) &&
  (wr_PathCount w == int32 (len (target_claims d))) && negb (IsZero (wr_VerifiedAt w)).

Definition result_invalid (d : GameDestroy) (input : Input) (w : Result) : prog bool :=
  if negb (result_matches d input w) then Ret true
  else t ← now; Ret (wr_VerifiedAt w >? t + minute)%Z.

Definition record_verification (d : GameDestroy) (w : Result) : prog outcome :=
  match gd_BackupRef (gd_Spec d), gd_RepositorySecretRef (gd_Spec d) with
  | Some ref, Some secret =>
      t ← now;
      let s := gd_Status d in
      e ← call (ApiUpdateStatus KGameDestroy (with_status d
            (MkGameDestroyStatus (gds_ObservedGeneration s) (gds_Phase s) (gds_StartedAt s) (gds_CompletedAt s)
               (gds_Conditions s) (gds_Preview s)
               (Some (MkDestroyVerification ref secret (wr_ArtifactID w) (wr_ManifestDigest w) (wr_PathCount w)
                        (wr_VerifiedAt w) t))
               (gds_DeletionJournal s))));
      Ret (no_requeue, of_api e)
  | _, _ => Ret (no_requeue, Some (FromGo nil_dereference))
  end.

(** After the Job is armed and unsuspended: its Pod and its report. *)
Definition verify_worker (d : GameDestroy) (input : Input) (job : Job) : prog outcome :=
  a ← authorizeWorkerPod d job;
  match a with
  | inl e => Ret (no_requeue, Some e)
  | inr (backupPodChanged, _) | inr (backupPodOverlap, _) =>
      fail_destroy d "WorkerIdentityChanged" "preflight Pod did not match exact gated worker"
  | inr (backupPodPending, _) => Ret (requeue_after destroyRequeue, None)
  | inr (backupPodAuthorized, pod) =>
      if negb (jobComplete job) then Ret (requeue_after destroyRequeue, None)
      else match destroyWorkerResult pod with
      | Err _ => fail_destroy d "WorkerResultInvalid" "repository verification result is unavailable or invalid"
      | Ok w =>
          invalid ← result_invalid d input w;
          if (invalid : bool) then fail_destroy d "WorkerResultInvalid" "repository verification did not match exact backup"
          else record_verification d w
      end
  end.

(** The Job the worker runs in: created, armed, unsuspended, then watched. *)
Definition verify_job (d : GameDestroy) (input : Input) (resources : DestroyResources) : prog outcome :=
  let m := job_meta (dr_Job resources) in
  job ← get KJob (om_Namespace m) (om_Name m);
  match job with
  | inl e => Ret (no_requeue, Some (FromApi e))
  | inr job =>
      if om_UID (job_meta job) == "" then Ret (requeue_after destroyRequeue, None)
      else
        armed ← destroyJobArmed d job;
        match armed with
        | inl e => Ret (no_requeue, Some e)
        | inr false =>
            if job_Suspend (job_Spec job) != Some true
            then fail_destroy d "WorkerActivatedEarly" "preflight Job became active before exact authorization"
            else e ← armDestroyJob d job;
                 match e with Some e => Ret (no_requeue, Some e) | None => Ret (requeue, None) end
        | inr true =>
            if jobFailed job
            then fail_destroy d "RepositoryVerificationFailed" "repository preflight worker failed; no claim was deleted"
            else if job_Suspend (job_Spec job) != Some false
            then e ← call (ApiUpdate KJob (set_suspend job false)); Ret (requeue, of_api e)
            else verify_worker d input job
        end
  end.

Definition verify (d : GameDestroy) : prog outcome :=
  if present (gds_Verification (gd_Status d)) then
    lease ← requireDataLease d;
    match lease with
    | Err e => fail_destroy d "OperationConflict" (err_format e)
    | Ok _ =>
        subject ← resolve d false;
        match subject with
        | Err e => fail_destroy d "ColdContinuityLost" (err_format e)
        | Ok _ => after_cleanup d
            (e ← status d DestroyPhaseDeleting "RepositoryVerified"
                   "exact repository artifact reverified while the world remained cold";
             Ret (no_requeue, e))
        end
    end
  else
    c ← confirmed d;
    if negb c
    then fail_destroy d "ConfirmationExpired" "confirmation expired before repository verification completed"
    else
      lease ← requireDataLease d;
      match lease with
      | Err e => fail_destroy d "OperationConflict" (err_format e)
      | Ok _ =>
          subject ← resolve d false;
          match subject with
          | Err e => fail_destroy d "PreflightRejected" (err_format e)
          | Ok s =>
              e ← workerLease d;
              match e with
              | Some e => Ret (no_requeue, Some e)
              | None =>
                  match BuildDestroyResources (Some d) (sub_input s) (WorkerImage r)
                          (def_RuntimeIdentity (sub_definition s)) with
                  | Err _ => fail_destroy d "WorkerInvalid" "bounded repository worker configuration is invalid"
                  | Ok resources =>
                      changed ← ensureWorkerResources resources;
                      match changed with
                      | (_, Some e) => Ret (no_requeue, Some e)
                      | (true, None) => Ret (requeue, None)
                      | (false, None) => verify_job d (sub_input s) resources
                      end
                  end
              end
          end
      end.

(** ** Deletion *)

Definition find_entry (d : GameDestroy) (path : string) : option GameDestroyClaimDeletion :=
  find (fun e => cd_Path e == path) (journal d).

Definition observe_deleted (path : string) (t : Time) (e : GameDestroyClaimDeletion) : GameDestroyClaimDeletion :=
  if cd_Path e == path then MkClaimDeletion (cd_Path e) (cd_ClaimRef e) (cd_RequestedAt e) (Some t) else e.

Definition update_journal (d : GameDestroy) (j : list GameDestroyClaimDeletion) : prog outcome :=
  e ← call (ApiUpdateStatus KGameDestroy (with_status d (with_journal (gd_Status d) j)));
  Ret (requeue, of_api e).

(** [requireDataLease] and [resolve(true)], or hold. *)
Definition still_cold (d : GameDestroy) (k : prog outcome) : prog outcome :=
  lease ← requireDataLease d;
  match lease with
  | Err e => hold d "OperationConflict" (err_format e)
  | Ok _ =>
      subject ← resolve d true;
      match subject with
      | Err e => hold d "IdentityMismatch" (err_format e)
      | Ok _ => k
      end
  end.

Definition delete_claim (d : GameDestroy) (claim : PersistentVolumeClaim) : prog outcome :=
  e ← call (ApiDelete KPersistentVolumeClaim claim (uid_precondition (pvc_meta claim)));
  Ret (match e with
       | None | Some NotFound => (requeue_after destroyRequeue, None)
       | Some e => (no_requeue, Some (WrapError "delete exact journaled PVC failed" (FromApi e)))
       end).

(** The loop body: [None] continues with the next claim. *)
Definition delete_target (d : GameDestroy) (target : RetainedDataClaimReference) : prog (option outcome) :=
  match find_entry d (rdc_Path target) with
  | None =>
      t ← now;
      o ← update_journal d (journal d ++ [MkClaimDeletion (rdc_Path target) (rdc_ClaimRef target) t None]);
      Ret (Some o)
  | Some entry =>
      if cd_ClaimRef entry != rdc_ClaimRef target
      then o ← hold d "JournalMismatch" "deletion journal does not match exact target"; Ret (Some o)
      else
        claim ← get KPersistentVolumeClaim (gd_Namespace d) (claim_name target);
        match claim with
        | inl NotFound =>
            match cd_ObservedDeletedAt entry with
            | None => t ← now; o ← update_journal d (observe_deleted (rdc_Path target) t <$> journal d); Ret (Some o)
            | Some _ => Ret None
            end
        | inl e => Ret (Some (no_requeue, Some (FromApi e)))
        | inr claim =>
            if (om_UID (pvc_meta claim) != claim_uid target) || present (cd_ObservedDeletedAt entry)
            then o ← hold d "NameReused" "target PVC name was reused or deletion evidence contradicted"; Ret (Some o)
            else if deleting (pvc_meta claim) then Ret (Some (requeue_after destroyRequeue, None))
            else o ← still_cold d (delete_claim d claim); Ret (Some o)
        end
  end.

Definition delete_remaining (d : GameDestroy) : prog outcome :=
  o ← loop (delete_target d) (target_claims d);
  match o with
  | Some o => Ret o
  | None =>
      subject ← resolve d true;
      match subject with
      | Err e => hold d "FinalAbsenceFailed" (err_format e)
      | Ok _ =>
          e ← status d DestroyPhaseSucceeded "Destroyed"
                "all exact target PVC names were observed absent; backing PV reclaim policy may retain bytes";
          Ret (no_requeue, e)
      end
  end.

Definition verified_mode (d : GameDestroy) : bool := gd_Mode (gd_Spec d) == DestroyModeVerifiedBackup.

Definition deleteClaims (d : GameDestroy) : prog outcome :=
  c ← (if len (journal d) == 0%Z then confirmed d else Ret true);
  if negb c
  then fail_destroy d "ConfirmationExpired" "confirmation expired before PVC deletion began; no claim was deleted"
  else if verified_mode d && negb (present (gds_Verification (gd_Status d)))
  then fail_destroy d "VerificationMissing" "repository verification is missing"
  else
    let rest := still_cold d (delete_remaining d) in
    if verified_mode d && present (gds_Verification (gd_Status d)) then after_cleanup d rest else rest.

(** ** The reconciler *)

Definition removeFinalizer (d : GameDestroy) : prog outcome :=
  e ← call (ApiUpdate KGameDestroy (MkGameDestroy
        (with_finalizers (gd_meta d) (List.filter (fun f => f != DestroyFinalizer) (om_Finalizers (gd_meta d))))
        (gd_Spec d) (gd_Status d)));
  Ret (no_requeue, of_api e).

(** [if err := r.releaseDataLease(); err != nil { return err }; k] *)
Definition after_release (d : GameDestroy) (k : prog outcome) : prog outcome :=
  e ← releaseDataLease d;
  match e with Some e => Ret (no_requeue, Some e) | None => k end.

Definition finalize (d : GameDestroy) : prog outcome := after_cleanup d (after_release d (removeFinalizer d)).

(** The request after it was read. *)
Definition reconcile_destroy (d : GameDestroy) : prog outcome :=
  let m := gd_meta d in
  let phase := gds_Phase (gd_Status d) in
  if negb (bool_decide (DestroyFinalizer ∈ om_Finalizers m)) && negb (deleting m)
  then e ← call (ApiUpdate KGameDestroy (MkGameDestroy
             (with_finalizers m (om_Finalizers m ++ [DestroyFinalizer])) (gd_Spec d) (gd_Status d)));
       Ret (requeue, of_api e)
  else if deleting m && (len (journal d) == 0%Z) then finalize d
  else if destroyTerminal phase
  then after_cleanup d (after_release d (if deleting m then removeFinalizer d else Ret (no_requeue, None)))
  else if gd_CancelRequested (gd_Spec d) && (len (journal d) == 0%Z)
  then after_cleanup d (after_release d
         (e ← status d DestroyPhaseCancelled "Cancelled" "destroy cancelled before any PVC deletion";
          Ret (no_requeue, e)))
  else match phase with
  | DestroyPhaseUnset =>
      e ← status d DestroyPhasePending "Accepted" "exact destroy request accepted; no data has been deleted";
      Ret (no_requeue, e)
  | DestroyPhasePending => preview d
  | DestroyPhasePreview => confirm d
  | DestroyPhaseVerifying => verify d
  | DestroyPhaseDeleting => deleteClaims d
  | _ => Ret (no_requeue, Some (FromGo (ErrorsNew "unsupported GameDestroy phase")))
  end.

Definition Reconcile (req : NamespacedName) : prog outcome :=
  d ← call (ApiGet KGameDestroy CachedReader req);
  match d with
  | inl NotFound => Ret (no_requeue, None)
  | inl e => Ret (no_requeue, Some (FromApi e))
  | inr d => reconcile_destroy d
  end.
End Controller.
