(* ===== verification/DestroySafety.v ===== *)
(** * What the destroy controller guarantees

    The executions of [Reconcile] against an arbitrary API server.  [advance]
    is an abstract state machine of a destroy request, stated over what the
    request holds and what was read in the same pass; [Reconcile] refines it:
    a pass writes the request's status or deletes a claim at most once, as its
    last request, and only as [advance] and [deletion] allow.  The safety
    properties are consequences of that refinement. *)

From Stdlib Require Import Ascii.
From stdpp Require Import base tactics list strings gmap numbers.
From S2P Require Import Prelude GoStrings Regex K8s ApiTypes DataOperation Operations GameDefinition KubeObjects KubePlan KubeApi WorkerInput KubeDestroy WorkerPods DestroyController.
Open Scope string_scope.
Open Scope list_scope.

(** ** What an event does to claims and to the request *)

Definition pvc_delete (e : event) : option (PersistentVolumeClaim * DeleteOptions) :=
  match e with
  | Ev (ApiDelete k o opts) _ =>
      match k in kind T return T -> option (PersistentVolumeClaim * DeleteOptions) with
      | KPersistentVolumeClaim => fun c => Some (c, opts)
      | _ => fun _ => None
      end o
  | _ => None
  end.

Definition status_write (e : event) : option GameDestroy :=
  match e with
  | Ev (ApiUpdateStatus k o) _ =>
      match k in kind T return T -> option GameDestroy with
      | KGameDestroy => fun d => Some d
      | _ => fun _ => None
      end o
  | _ => None
  end.

(** Neither deletes a claim nor writes the request's status. *)
Definition quiet (e : event) : Prop := pvc_delete e = None /\ status_write e = None.

(** ** Programs with one final loud request *)

Definition final {A} (Q : list event -> event -> Prop) (p : prog A) : Prop :=
  forall es a, steps p es a ->
    Forall quiet es \/ exists pre e, es = pre ++ [e] /\ Forall quiet pre /\ Q pre e.

Lemma final_quiet {A} Q (p : prog A) : emits quiet p -> final Q p.
Proof. intros Hq es a Hs. left. by eapply Hq. Qed.
Lemma final_ret {A} Q (a : A) : final Q (Ret a).
Proof. apply final_quiet, emits_ret. Qed.
Lemma final_bind {A B} Q (p : prog A) (f : A -> prog B) :
  emits quiet p -> (forall es1 a, steps p es1 a -> final (fun pre e => Q (es1 ++ pre) e) (f a)) ->
  final Q (p ≫= f).
Proof.
  intros Hq Hf es b (es1 & es2 & a & -> & H1 & H2)%steps_bind. pose proof (Hq _ _ H1).
  destruct (Hf _ _ H1 _ _ H2) as [?|(pre & e & -> & ? & ?)].
  - left. by apply Forall_app.
  - right. exists (es1 ++ pre), e. rewrite app_assoc. split_and!; [done | by apply Forall_app | done].
Qed.
Lemma final_map {A B} Q (p : prog A) (f : A -> B) : final Q p -> final Q (x ← p; Ret (f x)).
Proof.
  intros Hp es b (es1 & es2 & a & -> & H1 & [-> _])%steps_bind. rewrite app_nil_r. by eapply Hp.
Qed.
Lemma final_call {R B} (Q : list event -> event -> Prop) (q : request R) (f : R -> B) :
  (forall r, Q [] (Ev q r)) -> final Q (x ← call q; Ret (f x)).
Proof.
  intros HQ. apply final_map. intros es a ->%steps_call. right. by exists [], (Ev q a).
Qed.
Lemma final_weaken {A} (Q Q' : list event -> event -> Prop) (p : prog A) :
  (forall pre e, Q pre e -> Q' pre e) -> final Q p -> final Q' p.
Proof. intros HQ Hp es a Hs. destruct (Hp es a Hs) as [?|(pre & e & ? & ? & ?)]; [by left | right; eauto 6]. Qed.

Lemma steps_and_then {A B} (p : prog (result A)) (k : A -> prog (result B)) es b :
  steps (and_then p k) es (Ok b) <->
  exists es1 es2 a, es = es1 ++ es2 /\ steps p es1 (Ok a) /\ steps (k a) es2 (Ok b).
Proof.
  unfold and_then. rewrite steps_bind. split.
  - intros (es1 & es2 & [a|e] & -> & H1 & H2); [eauto 7|]. by destruct H2 as [_ ?].
  - intros (es1 & es2 & a & -> & H1 & H2). exists es1, es2, (Ok a). eauto.
Qed.
Lemma emits_and_then {A B} P (p : prog (result A)) (k : A -> prog (result B)) :
  emits P p -> (forall a, emits P (k a)) -> emits P (and_then p k).
Proof. intros Hp Hk. apply emits_bind; [done|]. intros [a|e]; [apply Hk | apply emits_ret]. Qed.

Section Safety.
Context `{NameValidation} `{TimeText} `{StatusConditions} `{ResultDecoder}.
Variable r : GameDestroyReconciler.
Abbreviation rd := (reader r).

(** Membership in, and inclusion between, concatenated traces. *)
Ltac in_trace := try (intros ? ?); rewrite ?elem_of_app, ?elem_of_cons in *; tauto.

(** ** Quiet parts *)


Lemma quiet_resolve d b : emits quiet (resolve r d b).
Proof.
  unfold resolve. destruct (resolve_target r d); [|apply emits_ret].
  repeat (apply emits_and_then; [|intros ?]); [..|apply emits_ret];
    unfold resolve_backup, resolve_server, resolve_selectors, resolve_pods, resolve_attachments, get;
    try (emits_tac; split; done).
  unfold resolve_claim, get. emits_tac; split; done.
Qed.
Lemma quiet_confirmed d : emits quiet (confirmed d).
Proof. unfold confirmed, now. emits_tac; split; done. Qed.
Lemma quiet_requireDataLease d : emits quiet (requireDataLease r d).
Proof. unfold requireDataLease, get. emits_tac; split; done. Qed.
Lemma quiet_acquireDataLease d : emits quiet (acquireDataLease r d).
Proof. unfold acquireDataLease, get, now. emits_tac; split; done. Qed.
Lemma quiet_releaseDataLease d : emits quiet (releaseDataLease r d).
Proof. unfold releaseDataLease, get. emits_tac; split; done. Qed.
Lemma quiet_cleanup_object {A} d (k : kind A) name :
  (forall x opts e, pvc_delete (Ev (ApiDelete k x opts) e) = None) -> emits quiet (cleanup_object r d k name).
Proof. intros Hk. unfold cleanup_object, get. emits_tac; split; by auto. Qed.
Lemma quiet_cleanupWorker d : emits quiet (cleanupWorker r d).
Proof.
  unfold cleanupWorker, destroy_pods, get, or_continue.
  repeat (emits_step || (apply quiet_cleanup_object; done)); split; done.
Qed.
Lemma quiet_workerLease d : emits quiet (workerLease r d).
Proof. unfold workerLease, get. emits_tac; split; done. Qed.
Lemma quiet_ensure d : emits quiet (ensureWorkerResources r d).
Proof.
  unfold ensureWorkerResources, or_continue, ensure_object, ensure_job, get. emits_tac; split; done.
Qed.
Lemma quiet_destroyJobArmed d job : emits quiet (destroyJobArmed r d job).
Proof. unfold destroyJobArmed, get. emits_tac; split; done. Qed.
Lemma quiet_armDestroyJob d job : emits quiet (armDestroyJob r d job).
Proof. unfold armDestroyJob, get. emits_tac; split; done. Qed.
Lemma quiet_authorizeWorkerPod d job : emits quiet (authorizeWorkerPod r d job).
Proof. unfold authorizeWorkerPod, destroy_pods. emits_tac; split; done. Qed.

(** ** Evidence read in a pass *)

Definition got {A} (k : kind A) (namespace name : string) (x : apierr + A) (es : list event) : Prop :=
  Ev (ApiGet k rd (Key namespace name)) x ∈ es.

(** The data-operation Lease was read, and is this request's. *)
Definition fenced (d : GameDestroy) (es : list event) : Prop :=
  exists lease, got KLease (gd_Namespace d) (fence_name d) (inr lease) es /\ holds_fence d lease = true.

(** The challenge of the preview was echoed, and the clock read before its expiry. *)
Definition confirmed_by (d : GameDestroy) (es : list event) : Prop :=
  exists p t, gds_Preview (gd_Status d) = Some p /\ gd_ConfirmationChallenge (gd_Spec d) <> "" /\
    gd_ConfirmationChallenge (gd_Spec d) = pv_Challenge p /\ Ev ClockNow t ∈ es /\ (t < pv_ExpiresAt p)%Z.

(** A target claim as it was read: exact, or journaled and gone. *)
Definition claim_seen (d : GameDestroy) (permit : bool) (names : list string) (es : list event)
    (c : RetainedDataClaimReference) : Prop :=
  (exists claim, got KPersistentVolumeClaim (gd_Namespace d) (claim_name c) (inr claim) es /\
     claim_exact d c claim = true /\ pvc_VolumeName claim ∈ names) \/
  (permit = true /\ journaled d c = true /\
   got KPersistentVolumeClaim (gd_Namespace d) (claim_name c) (inl NotFound) es).

(** The world is cold: the target is exact, the stored backup is the pinned, succeeded one; the
    server is stopped on exactly this data, or gone with a backup that pins it;
    no other server selects the data; every claim is exact; no Pod mounts and
    no attachment holds any of them. *)
Record cold (d : GameDestroy) (permit : bool) (es : list event) : Prop := {
  cold_target : exists definition, resolve_target r d = Ok definition;
  cold_mode : gd_Mode (gd_Spec d) = DestroyModeVerifiedBackup \/ gd_Mode (gd_Spec d) = DestroyModeUnsafeNoBackup;
  cold_backup : gd_Mode (gd_Spec d) = DestroyModeVerifiedBackup ->
    exists ref b source, gd_BackupRef (gd_Spec d) = Some ref /\
      got KGameBackup (gd_Namespace d) (ref_Name ref) (inr b) es /\ backup_available b ref = true /\
      ds_Source (gb_Status b) = Some source /\
      gsr_ref (src_GameServer source) = dt_GameServer (gd_Target (gd_Spec d)) /\
      (forall p, p ∈ src_Paths source -> MkClaimRef (dp_Name p) (dp_ClaimRef p) ∈ target_claims d);
  cold_server :
    (exists server, got KGameServer (gd_Namespace d) (server_name d) (inr server) es /\ server_stopped d server = true) \/
    (got KGameServer (gd_Namespace d) (server_name d) (inl NotFound) es /\
     gd_Mode (gd_Spec d) = DestroyModeVerifiedBackup);
  cold_selectors : exists servers cont rest, Ev (ApiList KGameServer rd (Some (gd_Namespace d)) ∅) (inr (MkList servers cont rest)) ∈ es /\
    forall other, other ∈ servers ->
      is_target_server d other = true \/ selects (dt_Data (gd_Target (gd_Spec d))) other = false;
  cold_pods : exists pods cont rest, Ev (ApiList KPod rd (Some (gd_Namespace d)) ∅) (inr (MkList pods cont rest)) ∈ es /\
    forall pod v c ro, pod ∈ pods -> v ∈ pod_Volumes (pod_Spec pod) -> c ∈ target_claims d ->
      vol_Source v <> VolumePersistentVolumeClaim (claim_name c) ro;
  cold_attachments : exists names attachments cont rest,
    (forall c, c ∈ target_claims d -> claim_seen d permit names es c) /\
    Ev (ApiList KVolumeAttachment rd None ∅) (inr (MkList attachments cont rest)) ∈ es /\
    forall a v, a ∈ attachments -> va_PersistentVolumeName a = Some v -> va_Attached a = true -> v ∉ names }.

Lemma got_mono {A} (k : kind A) ns n x es es' : es ⊆ es' -> got k ns n x es -> got k ns n x es'.
Proof. unfold got. auto. Qed.
Lemma fenced_mono d es es' : es ⊆ es' -> fenced d es -> fenced d es'.
Proof. intros Hs (l & ? & ?). exists l. eauto using got_mono. Qed.
Lemma confirmed_mono d es es' : es ⊆ es' -> confirmed_by d es -> confirmed_by d es'.
Proof. intros Hs (p & t & ?). exists p, t. naive_solver. Qed.
Lemma claim_seen_mono d b names names' es es' c :
  names ⊆ names' -> es ⊆ es' -> claim_seen d b names es c -> claim_seen d b names' es' c.
Proof. intros Hn Hs [(claim & ? & ? & ?)|(? & ? & ?)]; [left; exists claim | right]; eauto using got_mono. Qed.
Lemma cold_mono d b es es' : es ⊆ es' -> cold d b es -> cold d b es'.
Proof.
  intros Hs [Ht Hmode Hb Hsv Hsel Hp Ha]. split; [done | done |..].
  - intros Hm. destruct (Hb Hm) as (ref & bk & src & ? & ? & ?). exists ref, bk, src. eauto using got_mono.
  - destruct Hsv as [(sv & ? & ?)|[? ?]]; [left; exists sv | right]; eauto using got_mono.
  - destruct Hsel as (l & co & re & ? & ?). eauto 6.
  - destruct Hp as (l & co & re & ? & ?). eauto 7.
  - destruct Ha as (names & atts & co & re & Hc & ? & ?). exists names, atts, co, re.
    split_and!; auto. intros c Hin. eapply claim_seen_mono; eauto.
Qed.

(** ** The reads give the evidence *)

Lemma requireDataLease_fenced d es : steps (requireDataLease r d) es (Ok tt) -> fenced d es.
Proof.
  unfold requireDataLease, get. intros (es1 & es2 & x & -> & ->%steps_call & Hs)%steps_bind.
  destruct x as [e|lease]; [by destruct Hs as [_ ?]|]. destruct Hs as [-> Hs].
  destruct (holds_fence d lease) eqn:E; [|done]. exists lease. split; [|done]. by apply list_elem_of_singleton.
Qed.

Lemma confirmed_confirmed_by d es : steps (confirmed d) es true -> confirmed_by d es.
Proof.
  unfold confirmed, now. destruct (gds_Preview (gd_Status d)) as [p|] eqn:Ep; [|by intros [_ ?]].
  destruct (_ && _)%bool eqn:Ec; [|by intros [_ ?]].
  intros (es1 & es2 & t & -> & ->%steps_call & [-> Ht])%steps_bind. bool_prop.
  exists p, t. split_and!; try done; [by apply elem_of_cons; left | by apply Z.ltb_lt].
Qed.

Lemma resolve_claim_seen d backup b names c es names' :
  steps (resolve_claim r d backup b names c) es (Ok names') ->
  claim_seen d b names' es c /\ names ⊆ names'.
Proof.
  unfold resolve_claim, get. intros (es1 & es2 & x & -> & ->%steps_call & Hs)%steps_bind.
  destruct x as [[|m]|claim].
  - destruct Hs as [-> Hs]. destruct (b && journaled d c)%bool eqn:E; [|done]. injection Hs as ->.
    apply andb_true_iff in E as [-> ?]. split; [|done]. right. split_and!; try done. by apply elem_of_cons; left.
  - by destruct Hs as [_ ?].
  - destruct (claim_exact d c claim) eqn:Ec; [|by destruct Hs as [_ ?]]. cbn [negb] in Hs.
    destruct (negb (cold_marker backup claim)); [by destruct Hs as [_ ?]|].
    destruct (deleting _ && negb _)%bool; [by destruct Hs as [_ ?]|].
    assert (names' = pvc_VolumeName claim :: names) as ->.
    { destruct (_ && _ && _)%bool; [by destruct Hs as [_ [= ->]]|].
      destruct (pvc_Phase claim != "Bound"); [by destruct Hs as [_ ?]|].
      apply steps_bind in Hs as (es3 & es4 & pv & -> & _ & Hs).
      destruct pv as [e|pv]; [by destruct Hs as [_ ?]|].
      destruct (bound_exactly claim pv); destruct Hs as [_ Hs]; [by injection Hs | discriminate Hs]. }
    split; [|in_trace]. left. exists claim.
    split_and!; [by apply elem_of_cons; left | done | by apply elem_of_cons; left].
Qed.

Lemma resolve_claims_seen d backup b l names es names' :
  steps (loop_state (resolve_claim r d backup b) names l) es (Ok names') ->
  (forall c, c ∈ l -> claim_seen d b names' es c) /\ names ⊆ names'.
Proof.
  revert names es. induction l as [|c l IH]; intros names es.
  - intros [-> [= ->]]. split; [|done]. intros c Hc. by apply not_elem_of_nil in Hc.
  - cbn [loop_state]. intros (es1 & es2 & [names1|e] & -> & Hs1 & Hs2)%steps_bind; [|by destruct Hs2 as [_ ?]].
    apply resolve_claim_seen in Hs1 as [Hc Hn]. apply IH in Hs2 as [Hl Hn']. split; [|by etrans].
    intros c' [->|Hin]%elem_of_cons.
    + eapply (claim_seen_mono _ _ names1); [done | | done]. in_trace.
    + eapply (claim_seen_mono _ _ names' _ es2); [done | | by apply Hl]. in_trace.
Qed.

Lemma resolve_backup_cold d definition es backup :
  steps (resolve_backup r d definition) es (Ok backup) ->
  (gd_Mode (gd_Spec d) = DestroyModeVerifiedBackup /\ backup <> None \/
   gd_Mode (gd_Spec d) = DestroyModeUnsafeNoBackup /\ backup = None) /\
  (gd_Mode (gd_Spec d) = DestroyModeVerifiedBackup ->
   exists ref b source, gd_BackupRef (gd_Spec d) = Some ref /\
     got KGameBackup (gd_Namespace d) (ref_Name ref) (inr b) es /\ backup_available b ref = true /\
     ds_Source (gb_Status b) = Some source /\
     gsr_ref (src_GameServer source) = dt_GameServer (gd_Target (gd_Spec d)) /\
     (forall p, p ∈ src_Paths source -> MkClaimRef (dp_Name p) (dp_ClaimRef p) ∈ target_claims d)).
Proof.
  unfold resolve_backup. case_bool_decide as Hm; cbn beta iota.
  2: { destruct (_ || _)%bool eqn:Hu; [by intros [_ ?]|]. intros [_ [= ->]]. bool_prop. split; [by right | done]. }
  destruct (gd_BackupRef (gd_Spec d)) as [ref|]; [|by intros [_ ?]].
  destruct (gd_RepositorySecretRef (gd_Spec d)) as [secret|]; [|by intros [_ ?]].
  destruct (_ || _)%bool; [by intros [_ ?]|]. unfold get.
  intros (es1 & es2 & x & -> & ->%steps_call & Hs)%steps_bind.
  destruct x as [e|b]; [by destruct Hs as [_ ?]|].
  destruct (backup_available b ref) eqn:Ha; [|by destruct Hs as [_ ?]]. cbn [negb] in Hs.
  destruct (ds_Source (gb_Status b)) as [source|] eqn:Esrc; [|by destruct Hs as [_ ?]].
  destruct (ds_Artifact (gb_Status b)) as [artifact|]; [|by destruct Hs as [_ ?]].
  destruct (ds_Runtime (gb_Status b)) as [runtime|]; [|by destruct Hs as [_ ?]].
  destruct (backup_cold d b ref secret source artifact runtime) eqn:Hcold; [|by destruct Hs as [_ ?]].
  cbn [negb] in Hs. destruct (for_each _ _) as [[]|e] eqn:Hpaths; [|by destruct Hs as [_ ?]].
  apply steps_bind in Hs as (es3 & es4 & m & -> & _ & Hs). destruct m as [e|m]; [by destruct Hs as [_ ?]|].
  destruct (secret_unchanged m secret); [|by destruct Hs as [_ ?]]. destruct Hs as [-> [= ->]].
  split; [by left|]. intros _. exists ref, b, source. split_and!; try done.
  - by apply elem_of_cons; left.
  - unfold backup_cold in Hcold. bool_prop. done.
  - intros p Hp. rewrite for_each_ok in Hpaths. specialize (Hpaths p Hp). unfold source_path_check in Hpaths.
    destruct (_ != _); [done|]. destruct (existsb _ _) eqn:Hex; [|done].
    apply existsb_exists in Hex as ([cp cr] & Hin & Hc). apply andb_true_iff in Hc as [Hn Hr].
    apply bool_decide_eq_true in Hn, Hr. cbn in Hn, Hr. rewrite <- Hn, <- Hr. by apply list_elem_of_In.
Qed.

Lemma resolve_server_stopped d backup es x : steps (resolve_server r d backup) es (Ok x) ->
  (exists server, got KGameServer (gd_Namespace d) (server_name d) (inr server) es /\ server_stopped d server = true) \/
  (got KGameServer (gd_Namespace d) (server_name d) (inl NotFound) es /\ backup <> None).
Proof.
  unfold resolve_server, get. intros (es1 & es2 & y & -> & ->%steps_call & Hs)%steps_bind.
  destruct y as [[|m]|server]; [|by destruct Hs as [_ ?]|].
  - right. destruct backup; [|by destruct Hs as [_ ?]]. split; [by apply elem_of_cons; left | done].
  - left. exists server. destruct (server_stopped d server); [|by destruct Hs as [_ ?]].
    split; [by apply elem_of_cons; left | done].
Qed.

Lemma resolve_selectors_clear d es x : steps (resolve_selectors r d) es (Ok x) ->
  exists servers cont rest, Ev (ApiList KGameServer rd (Some (gd_Namespace d)) ∅) (inr (MkList servers cont rest)) ∈ es /\
    forall other, other ∈ servers ->
      is_target_server d other = true \/ selects (dt_Data (gd_Target (gd_Spec d))) other = false.
Proof.
  unfold resolve_selectors. intros (es1 & es2 & y & -> & ->%steps_call & Hs)%steps_bind.
  destruct y as [e|[servers cont rest]]; destruct Hs as [-> Hs]; [done|]. symmetry in Hs. destruct x.
  exists servers, cont, rest. split; [by apply elem_of_cons; left|]. intros other Ho. rewrite for_each_ok in Hs.
  specialize (Hs other Ho). cbn beta in Hs. destruct (is_target_server d other); [by left|]. right.
  by destruct (selects _ other).
Qed.

Lemma resolve_pods_clear d es x : steps (resolve_pods r d) es (Ok x) ->
  exists pods cont rest, Ev (ApiList KPod rd (Some (gd_Namespace d)) ∅) (inr (MkList pods cont rest)) ∈ es /\
    forall pod v c ro, pod ∈ pods -> v ∈ pod_Volumes (pod_Spec pod) -> c ∈ target_claims d ->
      vol_Source v <> VolumePersistentVolumeClaim (claim_name c) ro.
Proof.
  unfold resolve_pods. intros (es1 & es2 & y & -> & ->%steps_call & Hs)%steps_bind.
  destruct y as [e|[pods cont rest]]; destruct Hs as [-> Hs]; [done|]. symmetry in Hs. destruct x.
  exists pods, cont, rest. split; [by apply elem_of_cons; left|]. intros pod v c ro Hpod Hv Hc E. rewrite for_each_ok in Hs.
  specialize (Hs pod Hpod). cbn beta in Hs. rewrite for_each_ok in Hs. specialize (Hs v Hv). cbn beta in Hs.
  unfold mounts_target in Hs. rewrite E in Hs. rewrite bool_decide_eq_true_2 in Hs; [done|].
  by apply list_elem_of_fmap_2.
Qed.

Lemma resolve_attachments_clear names es x : steps (resolve_attachments r names) es (Ok x) ->
  exists attachments cont rest, Ev (ApiList KVolumeAttachment rd None ∅) (inr (MkList attachments cont rest)) ∈ es /\
    forall a v, a ∈ attachments -> va_PersistentVolumeName a = Some v -> va_Attached a = true -> v ∉ names.
Proof.
  unfold resolve_attachments. intros (es1 & es2 & y & -> & ->%steps_call & Hs)%steps_bind.
  destruct y as [e|[attachments cont rest]]; destruct Hs as [-> Hs]; [done|]. symmetry in Hs. destruct x.
  exists attachments, cont, rest. split; [by apply elem_of_cons; left|]. intros a v Ha Hv Hat Hin. rewrite for_each_ok in Hs.
  specialize (Hs a Ha). cbn beta in Hs. rewrite Hv, Hat, bool_decide_eq_true_2 in Hs by done. done.
Qed.

Lemma resolve_cold d b es s : steps (resolve r d b) es (Ok s) -> cold d b es.
Proof.
  unfold resolve. destruct (resolve_target r d) as [definition|] eqn:Ht; [|by intros [_ ?]].
  intros (e1 & f1 & backup & -> & (Hiff & Hb)%resolve_backup_cold & Hs)%steps_and_then.
  apply steps_and_then in Hs as (e2 & f2 & x2 & -> & Hsv%resolve_server_stopped & Hs).
  apply steps_and_then in Hs as (e3 & f3 & x3 & -> & Hsel%resolve_selectors_clear & Hs).
  apply steps_and_then in Hs as (e4 & f4 & names & -> & [Hc _]%resolve_claims_seen & Hs).
  apply steps_and_then in Hs as (e5 & f5 & x5 & -> & Hp%resolve_pods_clear & Hs).
  apply steps_and_then in Hs as (e6 & f6 & x6 & -> & Ha%resolve_attachments_clear & Hs).
  split; [eauto | destruct Hiff as [[? _]|[? _]]; auto |..].
  - intros Hm. destruct (Hb Hm) as (ref & bk & src & ? & ? & ?). exists ref, bk, src.
    split; [done|]. split; [|done]. eapply got_mono; [|done]. in_trace.
  - destruct Hsv as [(sv & ? & ?)|[? ?]].
    + left. exists sv. split; [|done]. eapply got_mono; [|done]. in_trace.
    + right. split; [eapply got_mono; [|done]; in_trace | by destruct Hiff as [[? _]|[_ ?]]].
  - destruct Hsel as (l & co & re & ? & ?). exists l, co, re. split; [in_trace | done].
  - destruct Hp as (l & co & re & ? & ?). exists l, co, re. split; [in_trace | done].
  - destruct Ha as (atts & co & re & ? & ?). exists names, atts, co, re. split_and!; [|in_trace|done].
    intros c Hin. eapply (claim_seen_mono _ _ names _ e4); [done | | by apply Hc]. in_trace.
Qed.

(** ** The abstract machine of a request *)

(** [u] is [d] moved to phase [p]; preview, verification and journal stay. *)
Record moved (d u : GameDestroy) (p : GameDestroyPhase) : Prop := {
  mv_meta : gd_meta u = gd_meta d;
  mv_spec : gd_Spec u = gd_Spec d;
  mv_phase : gds_Phase (gd_Status u) = p;
  mv_preview : gds_Preview (gd_Status u) = gds_Preview (gd_Status d);
  mv_verification : gds_Verification (gd_Status u) = gds_Verification (gd_Status d);
  mv_journal : journal u = journal d }.

Definition phase_of (d : GameDestroy) : GameDestroyPhase := gds_Phase (gd_Status d).
Definition active (d : GameDestroy) : Prop := destroyTerminal (phase_of d) = false.
Definition verified (d : GameDestroy) : Prop := gds_Verification (gd_Status d) <> None.

(** The first deletion needs a fresh confirmation; later ones follow from it. *)
Definition authorized (d : GameDestroy) (pre : list event) : Prop :=
  (journal d = [] -> confirmed_by d pre) /\
  (gd_Mode (gd_Spec d) = DestroyModeVerifiedBackup -> verified d) /\
  fenced d pre /\ cold d true pre.

(** A target whose deletion is on record and whose name is absent. *)
Definition gone (d : GameDestroy) (pre : list event) (c : RetainedDataClaimReference) : Prop :=
  exists e, find_entry d (rdc_Path c) = Some e /\ cd_ClaimRef e = rdc_ClaimRef c /\
    cd_ObservedDeletedAt e <> None /\
    got KPersistentVolumeClaim (gd_Namespace d) (claim_name c) (inl NotFound) pre.

(** The fence is held, or was created in this pass. *)
Definition acquired (d : GameDestroy) (pre : list event) : Prop :=
  fenced d pre \/ exists t stored, Ev (ApiCreate KLease (fence d t)) (inr stored) ∈ pre.

(** The report names the artifact of a preflight input built for this request
    ([input_matches]: its backup, Secret, target, worker Lease and paths). *)
Definition reported (d : GameDestroy) (v : GameDestroyVerification) : Prop :=
  exists input, input_matches d input = true /\ dv_ArtifactID v = art_ID (in_Artifact input) /\
    dv_ManifestDigest v = art_ManifestDigest (in_Artifact input).

Inductive advance (d : GameDestroy) (pre : list event) : GameDestroy -> Prop :=
| AdvHold u : active d -> moved d u (phase_of d) -> advance d pre u
| AdvAccept u : phase_of d = DestroyPhaseUnset -> moved d u DestroyPhasePending -> advance d pre u
| AdvFail u : active d -> journal d = [] -> moved d u DestroyPhaseFailed -> advance d pre u
| AdvCancel u : active d -> journal d = [] -> gd_CancelRequested (gd_Spec d) = true ->
    moved d u DestroyPhaseCancelled -> advance d pre u
| AdvPreview u bytes t : phase_of d = DestroyPhasePending -> cold d false pre ->
    Ev (RandRead 24) (Some bytes) ∈ pre -> Ev ClockNow t ∈ pre ->
    u = with_status d (MkGameDestroyStatus (gd_Generation d) DestroyPhasePreview (gds_StartedAt (gd_Status d))
          (gds_CompletedAt (gd_Status d)) (gds_Conditions (gd_Status d))
          (Some (MkDestroyPreview (RawURLEncoding (filled 24 bytes)) (t + 20 * minute)%Z (previewGuidance d)))
          (gds_Verification (gd_Status d)) (journal d)) ->
    advance d pre u
| AdvConfirm u p : phase_of d = DestroyPhasePreview -> confirmed_by d pre -> cold d false pre -> acquired d pre ->
    p = (if gd_Mode (gd_Spec d) == DestroyModeUnsafeNoBackup then DestroyPhaseDeleting else DestroyPhaseVerifying) ->
    moved d u p -> advance d pre u
| AdvVerified u v : phase_of d = DestroyPhaseVerifying -> gds_Verification (gd_Status d) = None ->
    confirmed_by d pre -> fenced d pre -> cold d false pre ->
    gd_BackupRef (gd_Spec d) = Some (dv_BackupRef v) -> gd_RepositorySecretRef (gd_Spec d) = Some (dv_RepositorySecretRef v) ->
    dv_PathCount v = int32 (len (target_claims d)) -> reported d v ->
    u = with_status d (MkGameDestroyStatus (gds_ObservedGeneration (gd_Status d)) (phase_of d)
          (gds_StartedAt (gd_Status d)) (gds_CompletedAt (gd_Status d)) (gds_Conditions (gd_Status d))
          (gds_Preview (gd_Status d)) (Some v) (journal d)) ->
    advance d pre u
| AdvDelete u : phase_of d = DestroyPhaseVerifying -> verified d -> fenced d pre -> cold d false pre ->
    moved d u DestroyPhaseDeleting -> advance d pre u
| AdvJournal u c t : phase_of d = DestroyPhaseDeleting -> authorized d pre -> c ∈ target_claims d ->
    find_entry d (rdc_Path c) = None ->
    u = with_status d (with_journal (gd_Status d)
          (journal d ++ [MkClaimDeletion (rdc_Path c) (rdc_ClaimRef c) t None])) ->
    advance d pre u
| AdvObserve u c e t : phase_of d = DestroyPhaseDeleting -> c ∈ target_claims d ->
    find_entry d (rdc_Path c) = Some e -> cd_ClaimRef e = rdc_ClaimRef c -> cd_ObservedDeletedAt e = None ->
    got KPersistentVolumeClaim (gd_Namespace d) (claim_name c) (inl NotFound) pre ->
    u = with_status d (with_journal (gd_Status d) (observe_deleted (rdc_Path c) t <$> journal d)) ->
    advance d pre u
| AdvSucceed u : phase_of d = DestroyPhaseDeleting -> authorized d pre ->
    (forall c, c ∈ target_claims d -> gone d pre c) -> moved d u DestroyPhaseSucceeded -> advance d pre u.

(** A claim may be deleted: it is a journaled, still present target, the delete
    carries its UID, and the world is fenced and cold. *)
Record deletion (d : GameDestroy) (pre : list event) (claim : PersistentVolumeClaim) (opts : DeleteOptions) : Prop := {
  del_phase : phase_of d = DestroyPhaseDeleting;
  del_authorized : authorized d pre;
  del_target : exists c e, c ∈ target_claims d /\ find_entry d (rdc_Path c) = Some e /\
    cd_ClaimRef e = rdc_ClaimRef c /\ cd_ObservedDeletedAt e = None /\
    got KPersistentVolumeClaim (gd_Namespace d) (claim_name c) (inr claim) pre /\
    om_UID (pvc_meta claim) = claim_uid c /\ pre_UID opts = Some (claim_uid c) }.

Definition permitted (d : GameDestroy) (pre : list event) (e : event) : Prop :=
  (forall u, status_write e = Some u -> advance d pre u) /\
  (forall claim opts, pvc_delete e = Some (claim, opts) -> deletion d pre claim opts).

Lemma authorized_mono d es es' : es ⊆ es' -> authorized d es -> authorized d es'.
Proof. intros Hs (? & ? & ? & ?). split_and!; eauto using confirmed_mono, fenced_mono, cold_mono. Qed.
Lemma gone_mono d es es' c : es ⊆ es' -> gone d es c -> gone d es' c.
Proof. intros Hs (e & ?). exists e. destruct_and!. split_and!; eauto using got_mono. Qed.

(** A status write is permitted when it advances the request. *)
Lemma permitted_write d pre u x : advance d pre u -> permitted d pre (Ev (ApiUpdateStatus KGameDestroy u) x).
Proof. intros Ha. split; [by intros ? [= <-] | done]. Qed.

(** ** Each part of the controller is safe *)

Definition safe {A} (d : GameDestroy) (acc : list event) (p : prog A) : Prop :=
  final (fun pre e => permitted d (acc ++ pre) e) p.

Lemma safe_ret {A} d acc (a : A) : safe d acc (Ret a).
Proof. apply final_ret. Qed.
Lemma safe_bind {A B} d acc (p : prog A) (f : A -> prog B) :
  emits quiet p -> (forall es a, steps p es a -> safe d (acc ++ es) (f a)) -> safe d acc (p ≫= f).
Proof.
  intros Hq Hf. apply final_bind; [done|]. intros es a Hs. eapply final_weaken; [|by apply Hf].
  intros pre e. by rewrite app_assoc.
Qed.
Lemma safe_map {A B} d acc (p : prog A) (f : A -> B) : safe d acc p -> safe d acc (x ← p; Ret (f x)).
Proof. apply final_map. Qed.
Lemma safe_write {B} d acc u (f : option apierr -> B) :
  (forall pre, acc ⊆ pre -> advance d pre u) -> safe d acc (x ← call (ApiUpdateStatus KGameDestroy u); Ret (f x)).
Proof. intros Ha. apply final_call. intros x. apply permitted_write, Ha. in_trace. Qed.

Lemma quiet_now : emits quiet now.
Proof. unfold now. emits_tac; split; done. Qed.

Lemma safe_status d acc phase reason message :
  (forall u pre, acc ⊆ pre -> moved d u phase -> advance d pre u) -> safe d acc (status d phase reason message).
Proof.
  intros Ha. unfold status.
  apply safe_bind; [destruct (gds_StartedAt _); emits_tac; apply quiet_now|]. intros es1 startedAt _.
  apply safe_bind; [destruct (destroyTerminal phase); emits_tac; apply quiet_now|]. intros es2 completedAt _.
  apply safe_bind; [apply quiet_now|]. intros es3 t _.
  apply safe_bind; [destruct (destroyTerminal phase); emits_tac; apply quiet_now|]. intros es4 conditions _.
  apply safe_write. intros pre Hpre. apply Ha; [|by split]. etrans; [|exact Hpre]. in_trace.
Qed.

Lemma safe_hold d acc reason message : active d -> safe d acc (hold d reason message).
Proof.
  intros Hact. unfold hold. apply safe_bind; [apply quiet_now|]. intros es t _.
  match goal with |- safe _ _ (call ?q ≫= ?f) => set (k := f) end.
  assert (forall x, exists o, k x = Ret o) as Hk by (intros [e|]; eexists; reflexivity).
  intros es' a (e1 & e2 & x & -> & ->%steps_call & Hs)%steps_bind. right. exists [].
  destruct (Hk x) as [o Ho]. rewrite Ho in Hs. destruct Hs as [-> _]. eexists. split; [reflexivity|].
  split; [constructor|]. apply permitted_write, AdvHold; [done | by split].
Qed.

Lemma safe_fail d acc reason message : active d -> safe d acc (fail_destroy d reason message).
Proof.
  intros Hact. unfold fail_destroy. case_bool_decide as Hj; cbn [negb]; [|by apply safe_hold].
  apply safe_map, safe_status. intros u pre _ Hm. apply AdvFail; try done.
  unfold len in Hj. destruct (journal d); [done | cbn in Hj; lia].
Qed.

Lemma safe_after_cleanup d acc k : (forall es, safe d (acc ++ es) k) -> safe d acc (after_cleanup r d k).
Proof.
  intros Hk. unfold after_cleanup. apply safe_bind; [apply quiet_cleanupWorker|].
  intros es [[] [e|]] _; try apply safe_ret. apply Hk.
Qed.
Lemma safe_after_release d acc k : (forall es, safe d (acc ++ es) k) -> safe d acc (after_release r d k).
Proof.
  intros Hk. unfold after_release. apply safe_bind; [apply quiet_releaseDataLease|].
  intros es [e|] _; [apply safe_ret | apply Hk].
Qed.

Lemma active_phase d p : phase_of d = p -> destroyTerminal p = false -> active d.
Proof. unfold active. by intros ->. Qed.

Lemma safe_preview d acc : phase_of d = DestroyPhasePending -> safe d acc (preview r d).
Proof.
  intros Hp. unfold preview. apply safe_bind; [apply quiet_resolve|]. intros es1 [s|e] Hs;
    [|by apply safe_fail; eapply active_phase]. apply resolve_cold in Hs.
  apply safe_bind; [emits_tac; split; done|]. intros es2 [bytes|] Hb; [|apply safe_ret]. apply steps_call in Hb.
  apply safe_bind; [apply quiet_now|]. intros es3 t Ht. apply steps_call in Ht.
  apply safe_write. intros pre Hpre. eapply AdvPreview; try done.
  - eapply cold_mono; [|done]. etrans; [|exact Hpre]. in_trace.
  - apply Hpre. subst. rewrite !elem_of_app, list_elem_of_singleton. tauto.
  - apply Hpre. subst. rewrite !elem_of_app, !list_elem_of_singleton. tauto.
Qed.

Lemma acquireDataLease_acquired d es : steps (acquireDataLease r d) es None -> acquired d es.
Proof.
  unfold acquireDataLease, get. intros (es1 & es2 & x & -> & ->%steps_call & Hs)%steps_bind.
  destruct x as [[|m]|lease].
  - apply steps_bind in Hs as (es3 & es4 & t & -> & ->%steps_call & Hs).
    apply steps_bind in Hs as (es5 & es6 & e & -> & ->%steps_call & [-> He]). destruct e as [|stored]; [done|].
    right. exists t, stored. rewrite !elem_of_app, !list_elem_of_singleton. tauto.
  - by destruct Hs as [_ ?].
  - destruct Hs as [-> Hs]. left. exists lease. destruct (holds_fence d lease); [|done].
    split; [by apply elem_of_cons; left | done].
Qed.
Lemma acquired_mono d es es' : es ⊆ es' -> acquired d es -> acquired d es'.
Proof. intros Hs [?|(t & stored & ?)]; [left; by eapply fenced_mono | right; eauto]. Qed.

(** Evidence read earlier in the pass still stands at the end of it. *)
Ltac evidence Hpre :=
  match goal with
  | |- confirmed_by _ _ => eapply confirmed_mono; [|eassumption]
  | |- fenced _ _ => eapply fenced_mono; [|eassumption]
  | |- cold _ _ _ => eapply cold_mono; [|eassumption]
  | |- acquired _ _ => eapply acquired_mono; [|eassumption]
  end; etrans; [|exact Hpre]; in_trace.

Lemma safe_confirm d acc : phase_of d = DestroyPhasePreview -> safe d acc (confirm r d).
Proof.
  intros Hp. assert (active d) by (by eapply active_phase). unfold confirm.
  destruct (_ == ""); [apply safe_ret|].
  apply safe_bind; [apply quiet_confirmed|]. intros es1 [] Hc; cbn [negb]; [|by apply safe_fail].
  apply confirmed_confirmed_by in Hc.
  apply safe_bind; [apply quiet_resolve|]. intros es2 [s|e] Hs; [|by apply safe_fail]. apply resolve_cold in Hs.
  apply safe_bind; [apply quiet_acquireDataLease|]. intros es3 [e|] Ha; [by apply safe_fail|].
  apply acquireDataLease_acquired in Ha. apply safe_map, safe_status. intros u pre Hpre Hm.
  eapply AdvConfirm; try done.
  all: evidence Hpre.
Qed.

Definition ready (d : GameDestroy) (es : list event) : Prop :=
  confirmed_by d es /\ fenced d es /\ cold d false es.
Lemma ready_mono d es es' : es ⊆ es' -> ready d es -> ready d es'.
Proof. intros Hs (? & ? & ?). split_and!; eauto using confirmed_mono, fenced_mono, cold_mono. Qed.

Lemma safe_record_verification d acc input w :
  phase_of d = DestroyPhaseVerifying -> gds_Verification (gd_Status d) = None ->
  ready d acc -> input_matches d input = true -> result_matches d input w = true ->
  safe d acc (record_verification d w).
Proof.
  intros Hp Hv (Hc & Hf & Hcold) Hin Hw. unfold result_matches in Hw. bool_prop. unfold record_verification.
  destruct (gd_BackupRef (gd_Spec d)) as [ref|] eqn:Er; [|apply safe_ret].
  destruct (gd_RepositorySecretRef (gd_Spec d)) as [secret|] eqn:Es; [|apply safe_ret].
  apply safe_bind; [apply quiet_now|]. intros es t _. apply safe_write. intros pre Hpre.
  eapply AdvVerified; cycle -1; [reflexivity|..]; try done; try evidence Hpre. by exists input.
Qed.

Lemma result_valid d input w es : steps (result_invalid d input w) es false -> result_matches d input w = true.
Proof. unfold result_invalid. destruct (result_matches d input w) eqn:E; [done | by intros [_ ?]]. Qed.

Lemma safe_verify_worker d acc input job :
  phase_of d = DestroyPhaseVerifying -> gds_Verification (gd_Status d) = None ->
  ready d acc -> input_matches d input = true -> safe d acc (verify_worker r d input job).
Proof.
  intros Hp Hv Hr Hin. assert (active d) by (by eapply active_phase). unfold verify_worker.
  apply safe_bind; [apply quiet_authorizeWorkerPod|].
  intros es [e|[[] pod]] _; try apply safe_ret; try (by apply safe_fail).
  destruct (negb (jobComplete job)); [apply safe_ret|].
  destruct (destroyWorkerResult pod) as [w|]; [|by apply safe_fail].
  apply safe_bind; [unfold result_invalid; emits_tac; apply quiet_now|]. intros es' [] Hr'; [by apply safe_fail|].
  eapply safe_record_verification; try done; [|by eapply result_valid].
  eapply ready_mono; [|done]. in_trace.
Qed.

Lemma safe_verify_job d acc input resources :
  phase_of d = DestroyPhaseVerifying -> gds_Verification (gd_Status d) = None ->
  ready d acc -> input_matches d input = true -> safe d acc (verify_job r d input resources).
Proof.
  intros Hp Hv Hr Hin. assert (active d) by (by eapply active_phase). unfold verify_job, get.
  apply safe_bind; [emits_tac; split; done|]. intros es1 [e|job] _; [apply safe_ret|].
  destruct (_ == ""); [apply safe_ret|].
  apply safe_bind; [apply quiet_destroyJobArmed|]. intros es2 [e|[]] _; [apply safe_ret| |].
  - destruct (jobFailed job); [by apply safe_fail|]. destruct (_ != _).
    + apply final_quiet. emits_tac; split; done.
    + apply safe_verify_worker; try done. eapply ready_mono; [|done]. in_trace.
  - destruct (_ != _); [by apply safe_fail|]. apply final_quiet. apply emits_bind; [apply quiet_armDestroyJob|].
    intros [e|]; apply emits_ret.
Qed.

Lemma safe_verify d acc : phase_of d = DestroyPhaseVerifying -> safe d acc (verify r d).
Proof.
  intros Hp. assert (active d) by (by eapply active_phase). unfold verify.
  destruct (gds_Verification (gd_Status d)) as [v|] eqn:Hv; cbn [present].
  - apply safe_bind; [apply quiet_requireDataLease|]. intros es1 [[]|e] Hf; [|by apply safe_fail].
    apply requireDataLease_fenced in Hf.
    apply safe_bind; [apply quiet_resolve|]. intros es2 [s|e] Hs; [|by apply safe_fail]. apply resolve_cold in Hs.
    apply safe_after_cleanup. intros es3. apply safe_map, safe_status. intros u pre Hpre Hm.
    eapply AdvDelete; try done; [by unfold verified; rewrite Hv | evidence Hpre | evidence Hpre].
  - apply safe_bind; [apply quiet_confirmed|]. intros es1 [] Hc; cbn [negb]; [|by apply safe_fail].
    apply confirmed_confirmed_by in Hc.
    apply safe_bind; [apply quiet_requireDataLease|]. intros es2 [[]|e] Hf; [|by apply safe_fail].
    apply requireDataLease_fenced in Hf.
    apply safe_bind; [apply quiet_resolve|]. intros es3 [s|e] Hs; [|by apply safe_fail]. apply resolve_cold in Hs.
    apply safe_bind; [apply quiet_workerLease|]. intros es4 [e|] _; [apply safe_ret|].
    destruct (BuildDestroyResources _ _ _ _) as [resources|] eqn:Hb; [|by apply safe_fail].
    apply BuildDestroyResources_inv in Hb as (_ & _ & _ & Hin & _).
    apply safe_bind; [apply quiet_ensure|]. intros es5 [[] [e|]] _; try apply safe_ret.
    apply safe_verify_job; try done.
    split_and!; [eapply confirmed_mono; [|done] | eapply fenced_mono; [|done] | eapply cold_mono; [|done]]; in_trace.
Qed.

(** A program may be followed by another where it was quiet, and by a plain
    return where it was not. *)
Lemma safe_bind_or {A B} d acc (p : prog A) (f : A -> prog B) :
  safe d acc p ->
  (forall es a, steps p es a -> (Forall quiet es /\ safe d (acc ++ es) (f a)) \/ exists b, f a = Ret b) ->
  safe d acc (p ≫= f).
Proof.
  intros Hp Hf es b (es1 & es2 & a & -> & Hs1 & Hs2)%steps_bind.
  destruct (Hf _ _ Hs1) as [[Hq Hsafe]|[b' E]].
  - destruct (Hsafe _ _ Hs2) as [?|(pre & e & -> & ? & HQ)]; [left; by apply Forall_app|].
    right. exists (es1 ++ pre), e. rewrite !app_assoc in *. split_and!; [done | by apply Forall_app | done].
  - rewrite E in Hs2. destruct Hs2 as [-> _]. rewrite app_nil_r. by eapply Hp.
Qed.

Lemma loop_none {A R} (body : A -> prog (option R)) l es : steps (loop body l) es None ->
  (forall x, x ∈ l -> exists es', es' ⊆ es /\ steps (body x) es' None) /\
  ((forall x es', x ∈ l -> steps (body x) es' None -> Forall quiet es') -> Forall quiet es).
Proof.
  revert es. induction l as [|x l IH]; intros es.
  - intros [-> _]. split; [intros x Hx; by apply not_elem_of_nil in Hx | done].
  - cbn [loop]. intros (es1 & es2 & [v|] & -> & Hs1 & Hs2)%steps_bind; [by destruct Hs2|].
    apply IH in Hs2 as [Hall Hq]. split.
    + intros y [->|Hy]%elem_of_cons; [exists es1; split; [in_trace | done]|].
      destruct (Hall y Hy) as (es' & ? & ?). exists es'. split; [set_solver | done].
    + intros Hb. apply Forall_app. split; [eapply Hb; [by apply elem_of_cons; left | done]|].
      apply Hq. intros y es' Hy. apply Hb. by apply elem_of_cons; right.
Qed.

Lemma safe_loop {A R} d acc (body : A -> prog (option R)) l :
  (forall x acc', x ∈ l -> acc ⊆ acc' -> safe d acc' (body x)) ->
  (forall x es, x ∈ l -> steps (body x) es None -> Forall quiet es) -> safe d acc (loop body l).
Proof.
  revert acc. induction l as [|x l IH]; intros acc Hb Hq; cbn [loop]; [apply safe_ret|].
  apply safe_bind_or; [apply Hb; [by apply elem_of_cons; left | done]|].
  intros es [v|] Hs; [right; eauto|]. left. split; [eapply Hq; [by apply elem_of_cons; left | done]|].
  apply IH.
  - intros y acc' Hy Hsub. apply Hb; [by apply elem_of_cons; right | set_solver].
  - intros y es' Hy. apply Hq. by apply elem_of_cons; right.
Qed.

Lemma safe_still_cold d acc k : active d ->
  (forall es1 es2, fenced d es1 -> cold d true es2 -> safe d ((acc ++ es1) ++ es2) k) -> safe d acc (still_cold r d k).
Proof.
  intros Hact Hk. unfold still_cold.
  apply safe_bind; [apply quiet_requireDataLease|]. intros es1 [[]|e] Hf; [|by apply safe_hold].
  apply safe_bind; [apply quiet_resolve|]. intros es2 [s|e] Hs; [|by apply safe_hold].
  apply Hk; [by apply requireDataLease_fenced | by eapply resolve_cold].
Qed.

Lemma safe_delete_claim d acc claim :
  (forall pre, acc ⊆ pre -> deletion d pre claim (uid_precondition (pvc_meta claim))) -> safe d acc (delete_claim d claim).
Proof.
  intros Hd. unfold delete_claim. apply final_call. intros x. split; [done|]. intros c o [= <- <-]. apply Hd. in_trace.
Qed.

Lemma delete_target_gone d c es : steps (delete_target r d c) es None -> Forall quiet es /\ gone d es c.
Proof.
  unfold delete_target. destruct (find_entry d (rdc_Path c)) as [e|] eqn:Ee.
  - case_bool_decide as Eref; cbn [negb].
    2: { intros (? & ? & ? & -> & _ & [_ ?])%steps_bind. done. }
    unfold get. intros (es1 & es2 & x & -> & ->%steps_call & Hs)%steps_bind.
    destruct x as [[|m]|claim]; [| by destruct Hs as [_ ?] |].
    + destruct (cd_ObservedDeletedAt e) as [t|] eqn:Eo.
      * destruct Hs as [-> _]. split; [repeat constructor|]. exists e. rewrite Eo. split_and!; try done.
        by apply elem_of_cons; left.
      * apply steps_bind in Hs as (? & ? & ? & -> & _ & Hs).
        apply steps_bind in Hs as (? & ? & ? & -> & _ & [_ ?]). done.
    + destruct (_ || _)%bool; [apply steps_bind in Hs as (? & ? & ? & -> & _ & [_ ?]); done|].
      destruct (deleting _); [by destruct Hs as [_ ?]|].
      apply steps_bind in Hs as (? & ? & ? & -> & _ & [_ ?]); done.
  - intros (? & ? & ? & -> & _ & Hs)%steps_bind. apply steps_bind in Hs as (? & ? & ? & -> & _ & [_ ?]). done.
Qed.

Lemma safe_update_journal d acc j :
  (forall pre, acc ⊆ pre -> advance d pre (with_status d (with_journal (gd_Status d) j))) ->
  safe d acc (update_journal d j).
Proof. apply safe_write. Qed.

Lemma safe_delete_target d acc c :
  phase_of d = DestroyPhaseDeleting -> authorized d acc -> c ∈ target_claims d -> safe d acc (delete_target r d c).
Proof.
  intros Hp Ha Hc. assert (active d) as Hact by (by eapply active_phase). unfold delete_target.
  destruct (find_entry d (rdc_Path c)) as [e|] eqn:Ee.
  - case_bool_decide as Eref; cbn [negb]; [|by apply safe_map, safe_hold]. unfold get.
    apply safe_bind; [emits_tac; split; done|]. intros es1 x Hx. apply steps_call in Hx. destruct x as [[|m]|claim].
    + destruct (cd_ObservedDeletedAt e) as [t|] eqn:Eo; [apply safe_ret|].
      apply safe_bind; [apply quiet_now|]. intros es2 t _. apply safe_map, safe_update_journal. intros pre Hpre.
      eapply AdvObserve; try done. apply Hpre. subst. rewrite !elem_of_app, list_elem_of_singleton. tauto.
    + apply safe_ret.
    + destruct (_ || _)%bool eqn:Hg; [by apply safe_map, safe_hold|].
      destruct (deleting _); [apply safe_ret|]. apply safe_map, safe_still_cold; [done|]. intros es2 es3 Hf Hcold.
      apply safe_delete_claim. intros pre Hpre. bool_prop. split; [done | |].
      * eapply authorized_mono; [|exact Ha]. etrans; [|exact Hpre]. in_trace.
      * exists c, e. destruct (cd_ObservedDeletedAt e); [done|]. split_and!; try done; [|cbn; congruence].
        apply Hpre. rewrite !elem_of_app, list_elem_of_singleton. tauto.
  - apply safe_bind; [apply quiet_now|]. intros es t _. apply safe_map, safe_update_journal. intros pre Hpre.
    eapply AdvJournal; try done. eapply authorized_mono; [|exact Ha]. etrans; [|exact Hpre]. in_trace.
Qed.

Lemma safe_delete_remaining d acc :
  phase_of d = DestroyPhaseDeleting -> authorized d acc -> safe d acc (delete_remaining r d).
Proof.
  intros Hp Ha. assert (active d) by (by eapply active_phase). unfold delete_remaining. apply safe_bind_or.
  - apply safe_loop.
    + intros c acc' Hc Hsub. apply safe_delete_target; [done | by eapply authorized_mono | done].
    + intros c es _ Hs. by apply delete_target_gone in Hs as [? _].
  - intros es [o|] Hs; [right; eauto|]. left. apply loop_none in Hs as [Hall Hq]. split.
    { apply Hq. intros c es' _ Hs. by apply delete_target_gone in Hs as [? _]. }
    apply safe_bind; [apply quiet_resolve|]. intros es2 [s|e] _; [|by apply safe_hold].
    apply safe_map, safe_status. intros u pre Hpre Hm. apply AdvSucceed; try done.
    + eapply authorized_mono; [|exact Ha]. etrans; [|exact Hpre]. in_trace.
    + intros c Hc. destruct (Hall c Hc) as (es' & Hsub & Hs). apply delete_target_gone in Hs as [_ Hg].
      eapply gone_mono; [|exact Hg]. etrans; [exact Hsub|]. etrans; [|exact Hpre]. in_trace.
Qed.

Lemma safe_deleteClaims d acc : phase_of d = DestroyPhaseDeleting -> safe d acc (deleteClaims r d).
Proof.
  intros Hp. assert (active d) by (by eapply active_phase). unfold deleteClaims.
  apply safe_bind; [destruct (_ == 0%Z); [apply quiet_confirmed | apply emits_ret]|]. intros es1 [] Hc; cbn [negb];
    [|by apply safe_fail].
  assert (journal d = [] -> confirmed_by d es1) as Hconf.
  { intros Hj. rewrite Hj in Hc. eval_bools. by apply confirmed_confirmed_by. }
  destruct (_ && _)%bool eqn:Hv; [by apply safe_fail|].
  assert (gd_Mode (gd_Spec d) = DestroyModeVerifiedBackup -> verified d) as Hver.
  { intros Hm. unfold verified_mode in Hv. rewrite Hm in Hv. eval_bools. unfold verified.
    by destruct (gds_Verification (gd_Status d)). }
  assert (forall acc', acc ++ es1 ⊆ acc' -> safe d acc' (still_cold r d (delete_remaining r d))) as Hrest.
  { intros acc' Hsub. apply safe_still_cold; [done|]. intros es2 es3 Hf Hcold. apply safe_delete_remaining; [done|].
    split_and!; [|done|..].
    - intros Hj. eapply confirmed_mono; [|by apply Hconf]. etrans; [|etrans; [exact Hsub|]]; in_trace.
    - eapply fenced_mono; [|exact Hf]. in_trace.
    - eapply cold_mono; [|exact Hcold]. in_trace. }
  destruct (_ && present _)%bool; [|by apply Hrest]. apply safe_after_cleanup. intros es2. apply Hrest. in_trace.
Qed.

Lemma safe_reconcile d acc : safe d acc (reconcile_destroy r d).
Proof.
  unfold reconcile_destroy. destruct (_ && _)%bool.
  { apply final_quiet. emits_tac; split; done. }
  destruct (_ && _)%bool.
  { unfold finalize. apply safe_after_cleanup. intros es. apply safe_after_release. intros es'.
    apply final_quiet. unfold removeFinalizer. emits_tac; split; done. }
  destruct (destroyTerminal _) eqn:Ht.
  { apply safe_after_cleanup. intros es. apply safe_after_release. intros es'.
    apply final_quiet. unfold removeFinalizer. emits_tac; split; done. }
  destruct (gd_CancelRequested _ && _)%bool eqn:Hc.
  { apply safe_after_cleanup. intros es. apply safe_after_release. intros es'. apply safe_map, safe_status.
    intros u pre _ Hm. apply andb_true_iff in Hc as [Hc Hj]. apply AdvCancel; try done.
    unfold len in Hj. destruct (journal d); [done|]. apply bool_decide_eq_true in Hj. cbn in Hj. lia. }
  destruct (gds_Phase (gd_Status d)) eqn:Hp; try apply safe_ret.
  - by apply safe_preview.
  - by apply safe_confirm.
  - by apply safe_verify.
  - by apply safe_deleteClaims.
  - apply safe_map, safe_status. intros u pre _ Hm. by apply AdvAccept.
Qed.

(** ** Theorems about a pass *)

Lemma reconcile_final req es o : steps (Reconcile r req) es o ->
  Forall quiet es \/ exists d pre e, es = Ev (ApiGet KGameDestroy CachedReader req) (inr d) :: pre ++ [e] /\
    Forall quiet pre /\ permitted d pre e.
Proof.
  unfold Reconcile. intros (es1 & es2 & x & -> & ->%steps_call & Hs)%steps_bind. destruct x as [[|m]|d].
  1,2: destruct Hs as [-> _]; left; repeat constructor.
  destruct (safe_reconcile d [] es2 o Hs) as [Hq|(pre & e & -> & Hq & Hp)].
  - left. constructor; [split; done | done].
  - right. by exists d, pre, e.
Qed.

Lemma quiet_elem e es : Forall quiet es -> e ∈ es -> quiet e.
Proof. intros Hq He. rewrite list.Forall_forall in Hq. by apply Hq. Qed.

(** A loud event of a pass is its last one. *)
Lemma reconcile_loud req es o e : steps (Reconcile r req) es o -> e ∈ es -> ~ quiet e ->
  exists d pre, es = Ev (ApiGet KGameDestroy CachedReader req) (inr d) :: pre ++ [e] /\ permitted d pre e.
Proof.
  intros [Hq|(d & pre & e' & -> & Hq & Hp)]%reconcile_final He Hl; [by destruct Hl; eapply quiet_elem|].
  apply elem_of_cons in He as [->|[He|He]%elem_of_app].
  - destruct Hl. split; done.
  - destruct Hl. by eapply quiet_elem.
  - apply list_elem_of_singleton in He as ->. eauto.
Qed.

(** C1: [Reconcile] refines the abstract machine of a request.  In one pass,
    whatever the API server answers and whichever calls fail, the controller
    writes the request's status or deletes a world claim at most once, as the
    very last request of the pass, and only if [advance] or [deletion] permits
    it for the request it read and for what it read since. *)
Theorem Reconcile_refines req es o (Hs : steps (Reconcile r req) es o) :
  Forall quiet es \/ exists d pre e, es = Ev (ApiGet KGameDestroy CachedReader req) (inr d) :: pre ++ [e] /\
    Forall quiet pre /\ permitted d pre e.
Proof. by eapply reconcile_final. Qed.

(** C23: every claim [Reconcile] deletes is a target of the request it read,
    with a write-ahead journal entry for exactly that claim that does not
    already record its deletion; the request is in phase Deleting; the delete
    carries the target's UID as precondition; in verified-backup mode the
    repository verification is on record; and nothing follows the delete, so a
    pass deletes at most one claim. *)
Theorem Reconcile_deletes_exact req es o e claim opts
  (Hs : steps (Reconcile r req) es o) (He : e ∈ es) (Hd : pvc_delete e = Some (claim, opts)) :
  exists d pre c entry, es = Ev (ApiGet KGameDestroy CachedReader req) (inr d) :: pre ++ [e] /\
    gds_Phase (gd_Status d) = DestroyPhaseDeleting /\ c ∈ target_claims d /\
    find_entry d (rdc_Path c) = Some entry /\ cd_ClaimRef entry = rdc_ClaimRef c /\
    cd_ObservedDeletedAt entry = None /\ om_UID (pvc_meta claim) = claim_uid c /\
    pre_UID opts = Some (claim_uid c) /\
    (gd_Mode (gd_Spec d) = DestroyModeVerifiedBackup -> gds_Verification (gd_Status d) <> None).
Proof.
  destruct (reconcile_loud _ _ _ _ Hs He) as (d & pre & -> & _ & Hdel); [by intros [? _]; congruence|].
  destruct (Hdel _ _ Hd) as [Hph (_ & Hver & _) (c & entry & ? & ? & ? & ? & _ & ? & ?)].
  exists d, pre, c, entry. split_and!; done.
Qed.

(** C24: a claim is deleted only while the world is fenced and cold.  In the
    same pass, before the delete, the controller read the data-operation Lease
    held by this very request, found the server stopped on exactly this data
    (or gone, with a succeeded backup pinning it), no other server selecting
    it, every target claim exact or journaled and gone, no Pod mounting a
    target claim and no attachment of its volumes. *)
Theorem Reconcile_deletes_cold req es o e claim opts
  (Hs : steps (Reconcile r req) es o) (He : e ∈ es) (Hd : pvc_delete e = Some (claim, opts)) :
  exists d pre, es = Ev (ApiGet KGameDestroy CachedReader req) (inr d) :: pre ++ [e] /\
    fenced d pre /\ cold d true pre.
Proof.
  destruct (reconcile_loud _ _ _ _ Hs He) as (d & pre & -> & _ & Hdel); [by intros [? _]; congruence|].
  destruct (Hdel _ _ Hd) as [_ (_ & _ & ? & ?) _]. eauto.
Qed.
End Safety.

(** ** A concrete cluster *)

Definition sample_adapter : GameDefinition := {|
  def_ID := "factorio"; def_DisplayName := "Factorio"; def_ImageRepository := "ghcr.io/gobha-me/arcadectl-factorio";
  def_VersionPolicy := None; def_Endpoints := [];
  def_PersistentPaths := [MkPersistentPath "saves" "/data/saves"];
  def_ReadinessEndpoint := ""; def_ReadinessMode := ReadinessPrivateExec; def_SettingsSchema := "";
  def_ConfigurationTargets := []; def_RenderSettings := None;
  def_RuntimeIdentity := MkIdentity 845 845 845; def_Capabilities := MkCapabilities true true true |}.
Definition sample_reconciler : GameDestroyReconciler :=
  MkReconciler true {["factorio" := sample_adapter]} sample_worker_image.

Definition sample_preview : GameDestroyPreview := MkDestroyPreview "challenge" (60 * minute) "guidance".
Definition sample_verification : GameDestroyVerification :=
  MkDestroyVerification sample_backup_ref sample_secret_ref sample_artifact_id sample_digest64 1 1 1.
Definition sample_entry : GameDestroyClaimDeletion :=
  MkClaimDeletion "saves" (MkRef None "alpha-saves" "claim-uid") 1 None.
Definition sample_deleting (j : list GameDestroyClaimDeletion) : GameDestroy :=
  sample_destroy (MkGameDestroyStatus 1 DestroyPhaseDeleting (Some 1%Z) None [] (Some sample_preview)
    (Some sample_verification) j).

Definition sample_backup : GameBackup :=
  MkGameBackup
    (MkObjectMeta "nightly" "games" "backup-uid" 1 "5" 1 None [] ∅ ∅ [])
    (MkGameBackupSpec (MkDataRequest None sample_secret_ref RestartLeaveStopped false) sample_target None "Retain")
    (MkDataStatus 1 DataPhaseSucceeded 1 (Some 1%Z) (Some 2%Z) [] (Some sample_source)
       (Some (MkFence sample_target 1)) (Some sample_artifact) (Some (MkDisposition sample_target PhaseStopped 2))).
Definition sample_pvc : PersistentVolumeClaim :=
  MkPVC (MkTypeMeta "v1" "PersistentVolumeClaim")
    (MkObjectMeta "alpha-saves" "games" "claim-uid" 1 "9" 1 None []
       (<[LabelManagedBy := ManagerName]> (<[LabelName := "game-data"]> (<[LabelDataPolicy := "retain"]>
         (<[LabelInstance := "alpha"]> (<[LabelGame := "factorio"]> (<[LabelDataIdentity := "data-identity"]>
           (<[LabelDataPath := "saves"]> ∅)))))))
       (<[AnnotationColdBackupUID := "backup-uid"]> ∅) [])
    ["ReadWriteOnce"] None None "pv-1" "Bound" None.

(** The cluster: the request as given, its backup, secret, fence and claim;
    the server is gone and nothing else exists. *)
Definition sample_get {A} (d : GameDestroy) (k : kind A) (key : NamespacedName) : apierr + A :=
  match k in kind T return apierr + T with
  | KGameDestroy => inr d
  | KGameBackup => inr sample_backup
  | KSecretMetadata => inr (MkObjectMeta "repository" "games" "secret-uid" 1 "7" 1 None [] ∅ ∅ [])
  | KPersistentVolumeClaim => inr sample_pvc
  | KPersistentVolume => inr (MkPV (new_meta "pv-1" "" ∅ []) (Some ("games", "alpha-saves", "claim-uid")) "Bound" None)
  | KLease => if key_Name key == DataOperationLeaseName "data-identity" then inr sample_lease else inl NotFound
  | _ => inl NotFound
  end.
Definition sample_env (d : GameDestroy) : environment := fun R _ q =>
  match q in request R return R with
  | ApiGet k _ key => sample_get d k key
  | ApiList _ _ _ _ => inr (MkList [] "" None)
  | ApiCreate _ o | ApiApply _ o => inr o
  | ApiUpdate _ _ | ApiUpdateStatus _ _ | ApiMergePatch _ _ _ | ApiDelete _ _ _ => None
  | ApiJSONPatch _ object _ => inr object
  | ClockNow => minute
  | RandRead _ => Some []
  end.
Definition sample_conditions : StatusConditions := fun l c => c :: l.
Definition sample_decoder : ResultDecoder := fun _ => None.
Definition sample_request : NamespacedName := Key "games" "retire-alpha".
Definition sample_reconcile : prog outcome :=
  @Reconcile rfc1123 sample_time_text sample_conditions sample_decoder sample_reconciler sample_request.
Definition sample_pass (d : GameDestroy) : list event * outcome := run (sample_env d) [] sample_reconcile.

(** A pass in phase Deleting over a journaled claim, and its last event. *)
Definition sample_trace : list event := (sample_pass (sample_deleting [sample_entry])).1.
Definition sample_last : event := default (Ev ClockNow 0%Z) (list.last sample_trace).

(** It deletes the journaled claim. *)
Lemma sample_last_deletes : pvc_delete sample_last = Some (sample_pvc, uid_precondition (pvc_meta sample_pvc)).
Proof. vm_compute. reflexivity. Qed.
Lemma sample_last_elem : sample_last ∈ sample_trace.
Proof.
  unfold sample_last. destruct (list.last sample_trace) as [e|] eqn:E; [by apply last_Some_elem_of|].
  exfalso. apply last_None in E. assert (length sample_trace <> 0) as Hl by (vm_compute; discriminate).
  rewrite E in Hl. exact (Hl eq_refl).
Qed.
Lemma sample_trace_steps : steps sample_reconcile sample_trace (sample_pass (sample_deleting [sample_entry])).2.
Proof. apply run_steps. Qed.

Lemma Reconcile_refines_witness :
  Forall quiet (sample_pass (sample_deleting [])).1 \/
  exists d pre e, (sample_pass (sample_deleting [])).1 =
      Ev (ApiGet KGameDestroy CachedReader sample_request) (inr d) :: pre ++ [e] /\
    Forall quiet pre /\
    @permitted rfc1123 sample_reconciler d pre e.
Proof.
  apply (@Reconcile_refines rfc1123 sample_time_text sample_conditions sample_decoder sample_reconciler sample_request _ (sample_pass (sample_deleting [])).2).
  apply run_steps.
Defined.

Lemma Reconcile_deletes_exact_witness :
  exists d pre c entry, sample_trace = Ev (ApiGet KGameDestroy CachedReader sample_request) (inr d) :: pre ++ [sample_last] /\
    c ∈ target_claims d /\ find_entry d (rdc_Path c) = Some entry /\
    om_UID (pvc_meta sample_pvc) = claim_uid c.
Proof.
  destruct (@Reconcile_deletes_exact rfc1123 sample_time_text sample_conditions sample_decoder sample_reconciler sample_request sample_trace _ sample_last _ _
    sample_trace_steps sample_last_elem sample_last_deletes)
    as (d & pre & c & entry & E & _ & Hc & He & _ & _ & Hu & _).
  exists d, pre, c, entry. exact (conj E (conj Hc (conj He Hu))).
Defined.

Lemma Reconcile_deletes_cold_witness :
  exists d pre, sample_trace = Ev (ApiGet KGameDestroy CachedReader sample_request) (inr d) :: pre ++ [sample_last] /\
    fenced sample_reconciler d pre /\ cold sample_reconciler d true pre.
Proof.
  exact (@Reconcile_deletes_cold rfc1123 sample_time_text sample_conditions sample_decoder sample_reconciler sample_request sample_trace _ sample_last _ _
    sample_trace_steps sample_last_elem sample_last_deletes).
Defined.
