(* ===== verification/DestroySchema.v ===== *)
(** * The schema of a destroy request, and that the controller conforms to it

    [api/v1alpha1/destroy_types.go] states, as validation rules on the custom
    resource, what a GameDestroy may look like and how it may change.
    [destroy_valid] and [destroy_update_valid] are its cross-field rules (the
    CEL rules) that speak of the status or of an update; [status_fields_valid]
    and [status_references_valid] are the rules on single fields of the status
    and of the types it uses (those of [operation_types.go] for references).
    The API server enforces them on users; here they are a specification of
    the controller: every status it writes, in any history of the request,
    satisfies them.  Left out are the rules on the spec alone (the shape of
    the target, which references a mode needs: the controller never changes a
    spec), the alphabet of the manifest digest (the controller checks prefix
    and length and copies it from the backup), and the conditions list, which
    apimachinery's [SetStatusCondition], a parameter, builds.  [history]
    starts from a created request and interleaves the controller's writes with
    updates by users, which the schema restricts, and with passes over old
    versions. *)

From Stdlib Require Import Ascii.
From stdpp Require Import base tactics list strings gmap numbers.
From S2P Require Import Prelude GoStrings Regex Sha256 K8s ApiTypes DataOperation Receipts Operations GameDefinition KubeObjects KubePlan KubeApi WorkerInput KubeDestroy WorkerPods DestroyController DestroySafety.
Open Scope string_scope.
Open Scope list_scope.

(** ** The rules *)

Definition in_phase (d : GameDestroy) (l : list GameDestroyPhase) : bool := bool_decide (phase_of d ∈ l).
Definition challenge_of (d : GameDestroy) : string := gd_ConfirmationChallenge (gd_Spec d).
Definition echoes (d : GameDestroy) : bool :=
  match gds_Preview (gd_Status d) with Some p => challenge_of d == pv_Challenge p | None => false end.
(** Same name and UID. *)
Definition same_exact (a b : ExactLocalReference) : bool := (ref_Name a == ref_Name b) && (ref_UID a == ref_UID b).

(** "verified destroy requires matching complete repository proof" *)
Definition proof_complete (d : GameDestroy) : bool :=
  match gds_Verification (gd_Status d), gd_BackupRef (gd_Spec d), gd_RepositorySecretRef (gd_Spec d) with
  | Some v, Some b, Some s =>
      same_exact (dv_BackupRef v) b && same_exact (sec_ref (dv_RepositorySecretRef v)) (sec_ref s) &&
      (sec_ResourceVersion (dv_RepositorySecretRef v) == sec_ResourceVersion s) &&
      (dv_PathCount v == len (target_claims d))
  | _, _, _ => false
  end.

Definition names_target (d : GameDestroy) (e : GameDestroyClaimDeletion) : bool :=
  existsb (fun c => (rdc_Path c == cd_Path e) && same_exact (rdc_ClaimRef c) (cd_ClaimRef e)) (target_claims d).

(** The cross-field rules on one version. *)
Definition destroy_valid (d : GameDestroy) : bool :=
  let j := journal d in
  (negb (in_phase d [DestroyPhaseSucceeded]) || (len j != 0%Z) && forallb (fun e => present (cd_ObservedDeletedAt e)) j) &&
  (negb (in_phase d [DestroyPhaseCancelled]) || (len j == 0%Z)) &&
  (negb (in_phase d [DestroyPhaseFailed]) || (len j == 0%Z)) &&
  ((challenge_of d == "") || echoes d) &&
  (negb (in_phase d [DestroyPhaseDeleting; DestroyPhaseSucceeded]) || (challenge_of d != "") && echoes d) &&
  (negb (in_phase d [DestroyPhaseDeleting; DestroyPhaseSucceeded]) || negb (verified_mode d) || proof_complete d) &&
  forallb (names_target d) j &&
  (negb (in_phase d [DestroyPhaseSucceeded]) || (len j != 0%Z) && (len j == len (target_claims d))) &&
  (negb (in_phase d [DestroyPhaseVerifying]) || verified_mode d).

(** *** The rules on the fields of a status

    Lengths, patterns and list sizes; a text's length is its number of bytes
    (the texts here are ASCII). *)

Definition length_within (low high : Z) (s : string) : bool := (low <=? slen s)%Z && (slen s <=? high)%Z.

Definition preview_fields_valid (p : GameDestroyPreview) : bool :=
  length_within 16 128 (pv_Challenge p) && MatchString challengePattern (pv_Challenge p) &&
  length_within 1 1024 (pv_RestoreGuidance p).
Definition proof_fields_valid (v : GameDestroyVerification) : bool :=
  length_within 1 128 (dv_ArtifactID v) && HasPrefix (dv_ManifestDigest v) "sha256:" &&
  (slen (dv_ManifestDigest v) == 71%Z) && (1 <=? dv_PathCount v)%Z && (dv_PathCount v <=? 16)%Z.
Definition status_fields_valid (d : GameDestroy) : bool :=
  optionally preview_fields_valid (gds_Preview (gd_Status d)) &&
  optionally proof_fields_valid (gds_Verification (gd_Status d)) &&
  (len (journal d) <=? 16)%Z && bool_decide (NoDup (cd_Path <$> journal d)).

(** References and paths: [^[a-z0-9](?:[-a-z0-9.]*[a-z0-9])?$] and the same
    without dots. *)
Definition reference_name : regex :=
  Cat (Cls is_lower_alnum) (Opt (Cat (Star (Cls (fun c => is_label_char c || Ascii.eqb c "."))) (Cls is_lower_alnum))).
Definition data_path : regex := Cat (Cls is_lower_alnum) (Opt (Cat (Star (Cls is_label_char)) (Cls is_lower_alnum))).

Definition reference_valid (x : ExactLocalReference) : bool :=
  negb (present (ref_Namespace x)) && length_within 1 253 (ref_Name x) && MatchString reference_name (ref_Name x) &&
  length_within 1 128 (ref_UID x).
Definition secret_reference_valid (x : ExactSecretReference) : bool :=
  reference_valid (sec_ref x) && length_within 1 256 (sec_ResourceVersion x).
Definition path_valid (p : string) : bool := length_within 1 63 p && MatchString data_path p.

(** The references a status holds, and those of the spec. *)
Definition status_references_valid (d : GameDestroy) : bool :=
  optionally (fun v => reference_valid (dv_BackupRef v) && secret_reference_valid (dv_RepositorySecretRef v))
    (gds_Verification (gd_Status d)) &&
  forallb (fun e => path_valid (cd_Path e) && reference_valid (cd_ClaimRef e)) (journal d).
Definition spec_references_valid (d : GameDestroy) : bool :=
  optionally reference_valid (gd_BackupRef (gd_Spec d)) &&
  optionally secret_reference_valid (gd_RepositorySecretRef (gd_Spec d)) &&
  forallb (fun c => path_valid (rdc_Path c) && reference_valid (rdc_ClaimRef c)) (target_claims d).

(** The rules on an update. *)
Definition keeps_entry (j : list GameDestroyClaimDeletion) (e : GameDestroyClaimDeletion) : bool :=
  existsb (fun e' => (cd_Path e' == cd_Path e) && (cd_ClaimRef e' == cd_ClaimRef e) &&
                     (cd_RequestedAt e' == cd_RequestedAt e) &&
                     (negb (present (cd_ObservedDeletedAt e)) || (cd_ObservedDeletedAt e' == cd_ObservedDeletedAt e))) j.
Definition kept {A} (equal : A -> A -> bool) (old new : option A) : bool :=
  match old, new with None, _ => true | Some a, Some b => equal a b | Some _, None => false end.

Definition destroy_update_valid (old new : GameDestroy) : bool :=
  let s := gd_Spec old in let s' := gd_Spec new in
  bool_decide (gd_Target s' = gd_Target s) && bool_decide (gd_Mode s' = gd_Mode s) &&
  bool_decide (gd_BackupRef s' = gd_BackupRef s) && bool_decide (gd_RepositorySecretRef s' = gd_RepositorySecretRef s) &&
  bool_decide (gd_UnsafeReason s' = gd_UnsafeReason s) &&
  ((gd_ConfirmationChallenge s == "") || (gd_ConfirmationChallenge s' == gd_ConfirmationChallenge s)) &&
  (negb (gd_CancelRequested s) || gd_CancelRequested s') &&
  kept (fun a b => bool_decide (b = a)) (gds_Preview (gd_Status old)) (gds_Preview (gd_Status new)) &&
  kept (fun a b => bool_decide (b = a)) (gds_Verification (gd_Status old)) (gds_Verification (gd_Status new)) &&
  forallb (keeps_entry (journal new)) (journal old) &&
  (negb (destroyTerminal (phase_of old)) || (phase_of new == phase_of old)) &&
  (negb (destroyTerminal (phase_of old)) || bool_decide (gd_CancelRequested s' = gd_CancelRequested s)) &&
  ((len (journal old) == 0%Z) || bool_decide (gd_CancelRequested s' = gd_CancelRequested s)).

(** ** Reachable requests *)

(** What a client may create: no status, no confirmation yet. *)
Definition created (d : GameDestroy) : Prop :=
  gd_Status d = empty_destroy_status /\ challenge_of d = "".

Section Conformance.
Context `{NameValidation} `{TimeText} `{StatusConditions} `{ResultDecoder}.
Variable r : GameDestroyReconciler.

(** The versions a request has had, newest first, and the UIDs of the claims
    deleted for it.  A pass may read any version, however old (the controller
    reads the request through a cache); its status write succeeds only on the
    newest, but nothing of the kind protects a delete. *)
Inductive history : list GameDestroy -> list string -> Prop :=
| hist_create d : created d -> history [d] []
| hist_write d vs deleted es o e u : history (d :: vs) deleted -> steps (reconcile_destroy r d) es o -> e ∈ es ->
    status_write e = Some u -> history (u :: d :: vs) deleted
| hist_user d vs deleted d' : history (d :: vs) deleted -> gd_Status d' = gd_Status d ->
    destroy_update_valid d d' = true -> destroy_valid d' = true -> history (d' :: d :: vs) deleted
| hist_delete vs deleted d es o e claim opts : history vs deleted -> d ∈ vs -> steps (reconcile_destroy r d) es o ->
    e ∈ es -> pvc_delete e = Some (claim, opts) -> history vs (om_UID (pvc_meta claim) :: deleted).

(** ** The invariant *)

Definition deleting_phase (p : GameDestroyPhase) : Prop := p = DestroyPhaseDeleting \/ p = DestroyPhaseSucceeded.

Definition verification_matches (d : GameDestroy) (v : GameDestroyVerification) : Prop :=
  gd_BackupRef (gd_Spec d) = Some (dv_BackupRef v) /\
  gd_RepositorySecretRef (gd_Spec d) = Some (dv_RepositorySecretRef v) /\ dv_PathCount v = len (target_claims d).

Definition entry_for (c : RetainedDataClaimReference) (e : GameDestroyClaimDeletion) : Prop :=
  cd_Path e = rdc_Path c /\ cd_ClaimRef e = rdc_ClaimRef c.

Record inv (d : GameDestroy) : Prop := {
  inv_early : phase_of d = DestroyPhaseUnset \/ phase_of d = DestroyPhasePending -> gds_Preview (gd_Status d) = None;
  inv_echo : challenge_of d <> "" -> echoes d = true;
  inv_confirmed : phase_of d = DestroyPhaseVerifying \/ deleting_phase (phase_of d) -> challenge_of d <> "";
  inv_verification v : gds_Verification (gd_Status d) = Some v -> verification_matches d v;
  inv_verified : deleting_phase (phase_of d) -> gd_Mode (gd_Spec d) = DestroyModeVerifiedBackup -> verified d;
  inv_mode : phase_of d = DestroyPhaseVerifying -> gd_Mode (gd_Spec d) = DestroyModeVerifiedBackup;
  inv_journal : journal d <> [] -> deleting_phase (phase_of d);
  inv_targets e : e ∈ journal d -> exists c, c ∈ target_claims d /\ entry_for c e;
  inv_distinct : NoDup (cd_Path <$> journal d);
  inv_bounded : journal d <> [] -> (len (target_claims d) <= 16)%Z;
  inv_preview_fields p : gds_Preview (gd_Status d) = Some p -> preview_fields_valid p = true;
  inv_proof_fields v : gds_Verification (gd_Status d) = Some v -> proof_fields_valid v = true;
  inv_succeeded : phase_of d = DestroyPhaseSucceeded ->
    journal d <> [] /\ length (journal d) = length (target_claims d) /\
    forall e, e ∈ journal d -> cd_ObservedDeletedAt e <> None }.

Lemma created_inv d : created d -> inv d.
Proof.
  intros [Hs Hc]. unfold challenge_of in *.
  assert (journal d = []) as Hj by (unfold journal; by rewrite Hs).
  split; unfold phase_of, challenge_of, deleting_phase; rewrite ?Hs, ?Hc, ?Hj; cbn; try done; try naive_solver.
  - intros e He. by apply not_elem_of_nil in He.
  - apply NoDup_nil_2.
Qed.

(** *** From the invariant to the rules *)

Lemma in_phase_true d l : in_phase d l = true <-> phase_of d ∈ l.
Proof. apply bool_decide_eq_true. Qed.

Lemma same_exact_refl a : same_exact a a = true.
Proof. unfold same_exact. by rewrite !bool_decide_eq_true_2. Qed.

Lemma phase_rule d l (b : bool) : (phase_of d ∈ l -> b = true) -> (negb (in_phase d l) || b)%bool = true.
Proof. intros Hb. destruct (in_phase d l) eqn:E; [|done]. by apply Hb, in_phase_true. Qed.

Lemma len_zero {A} (l : list A) : (len l == 0%Z) = true <-> l = [].
Proof. rewrite bool_decide_eq_true. unfold len. destruct l; cbn; [done | split; [lia | done]]. Qed.
Lemma len_nonzero {A} (l : list A) : (len l != 0%Z) = true <-> l <> [].
Proof. rewrite negb_true_iff, <- not_true_iff_false, len_zero. done. Qed.

Lemma inv_no_journal d p : inv d -> p = DestroyPhaseCancelled \/ p = DestroyPhaseFailed -> phase_of d ∈ [p] ->
  (len (journal d) == 0%Z) = true.
Proof.
  intros I Hp Hin%list_elem_of_singleton. apply len_zero. destruct (journal d) eqn:Ej; [done|]. exfalso.
  destruct (inv_journal d I) as [E|E]; [by rewrite Ej|..]; rewrite Hin in E; destruct Hp; congruence.
Qed.

Lemma deleting_phase_in d : phase_of d ∈ [DestroyPhaseDeleting; DestroyPhaseSucceeded] -> deleting_phase (phase_of d).
Proof. unfold deleting_phase. set_solver. Qed.

Lemma inv_proof d : inv d -> deleting_phase (phase_of d) -> (negb (verified_mode d) || proof_complete d)%bool = true.
Proof.
  intros I Hin. destruct (verified_mode d) eqn:Hm; [|done]. cbn.
  apply bool_decide_eq_true in Hm. pose proof (inv_verified d I Hin Hm) as Hv. unfold proof_complete.
  unfold verified in Hv. destruct (gds_Verification (gd_Status d)) as [v|] eqn:Ev; [|done].
  destruct (inv_verification d I v Ev) as (-> & -> & Hn). by rewrite !same_exact_refl, Hn, !bool_decide_eq_true_2.
Qed.

Lemma inv_valid d : inv d -> destroy_valid d = true.
Proof.
  intros I. unfold destroy_valid. repeat (apply andb_true_iff; split).
  - apply phase_rule. intros Hin%list_elem_of_singleton. destruct (inv_succeeded d I Hin) as (Hne & _ & Ho).
    apply andb_true_iff. split; [by apply len_nonzero|]. apply forallb_forall. intros e He%list_elem_of_In.
    specialize (Ho e He). by destruct (cd_ObservedDeletedAt e).
  - apply phase_rule. apply inv_no_journal; auto.
  - apply phase_rule. apply inv_no_journal; auto.
  - destruct (decide (challenge_of d = "")) as [->|Hc]; [done|]. rewrite (inv_echo d I Hc). apply orb_true_r.
  - apply phase_rule. intros Hin%deleting_phase_in. pose proof (inv_confirmed d I (or_intror Hin)) as Hc.
    rewrite (inv_echo d I Hc), bool_decide_eq_false_2 by done. done.
  - rewrite <- orb_assoc. apply phase_rule. intros Hin%deleting_phase_in. by apply inv_proof.
  - apply forallb_forall. intros e He%list_elem_of_In. apply existsb_exists.
    destruct (inv_targets d I e He) as (c & Hc & -> & ->). exists c. split; [by apply list_elem_of_In|].
    by rewrite same_exact_refl, bool_decide_eq_true_2.
  - apply phase_rule. intros Hin%list_elem_of_singleton. destruct (inv_succeeded d I Hin) as (Hne & Hl & _).
    apply andb_true_iff. split; [by apply len_nonzero|]. apply bool_decide_eq_true. unfold len. by rewrite Hl.
  - apply phase_rule. intros Hin%list_elem_of_singleton. by apply bool_decide_eq_true, (inv_mode d I).
Qed.

Lemma inv_fields_valid d : inv d -> status_fields_valid d = true.
Proof.
  intros I. unfold status_fields_valid. rewrite !andb_true_iff, Z.leb_le. split_and!.
  - destruct (gds_Preview _) as [p|] eqn:E; [by apply (inv_preview_fields d I)|done].
  - destruct (gds_Verification _) as [v|] eqn:E; [by apply (inv_proof_fields d I)|done].
  - destruct (journal d) as [|e l] eqn:Ej; [done|]. rewrite <- Ej.
    trans (len (target_claims d)); [|by apply (inv_bounded d I); rewrite Ej].
    unfold len. apply Nat2Z.inj_le. rewrite <- (length_fmap cd_Path), <- (length_fmap rdc_Path).
    apply submseteq_length, NoDup_submseteq; [apply I|]. intros p (e' & -> & He')%list_elem_of_fmap.
    destruct (inv_targets d I e' He') as (c & Hc & -> & _). by apply list_elem_of_fmap_2.
  - apply bool_decide_eq_true, I.
Qed.

Lemma inv_references_valid d : inv d -> spec_references_valid d = true -> status_references_valid d = true.
Proof.
  intros I. unfold spec_references_valid, status_references_valid. rewrite !andb_true_iff, !forallb_forall.
  intros [[Hb Hs] Hc]. split.
  - destruct (gds_Verification _) as [v|] eqn:E; [|done]. destruct (inv_verification d I v E) as (Eb & Es & _).
    rewrite Eb in Hb. rewrite Es in Hs. cbn in *. by rewrite Hb, Hs.
  - intros e He%list_elem_of_In. destruct (inv_targets d I e He) as (c & Hin & -> & ->). by apply Hc, list_elem_of_In.
Qed.

(** *** Writes preserve the invariant *)

Lemma moved_echoes d u p : moved d u p -> echoes u = echoes d /\ challenge_of u = challenge_of d /\
  target_claims u = target_claims d.
Proof. intros [_ Hs _ Hp _ _]. unfold echoes, challenge_of, target_claims. by rewrite Hs, Hp. Qed.

Lemma inv_moved d u p : inv d -> moved d u p ->
  (p = DestroyPhaseUnset \/ p = DestroyPhasePending -> gds_Preview (gd_Status d) = None) ->
  (p = DestroyPhaseVerifying \/ deleting_phase p -> challenge_of d <> "") ->
  (deleting_phase p -> gd_Mode (gd_Spec d) = DestroyModeVerifiedBackup -> verified d) ->
  (p = DestroyPhaseVerifying -> gd_Mode (gd_Spec d) = DestroyModeVerifiedBackup) ->
  (journal d <> [] -> deleting_phase p) ->
  (p = DestroyPhaseSucceeded -> journal d <> [] /\ length (journal d) = length (target_claims d) /\
     forall e, e ∈ journal d -> cd_ObservedDeletedAt e <> None) -> inv u.
Proof.
  intros I Hm H1' H2' H3' H4' H5' H6'. destruct (moved_echoes _ _ _ Hm) as (He & Hc & Ht).
  destruct Hm as [Hmeta Hs Hp Hpv Hv Hj]. unfold phase_of in *.
  split; unfold phase_of, verified, verification_matches in *; rewrite ?Hp, ?Hpv, ?Hv, ?Hj, ?Hs, ?Hc, ?He, ?Ht; auto; apply I.
Qed.

Lemma inv_hold d u : inv d -> moved d u (phase_of d) -> inv u.
Proof. intros I Hm. eapply inv_moved; eauto; apply I. Qed.

(** What a passed [resolve_target] says of the target. *)
Lemma target_claims_loop paths l seen s : for_state (target_claim_step paths) seen l = Ok s ->
  NoDup (claim_name <$> l) /\ forall c, c ∈ l -> claim_name c ∉ seen.1.
Proof.
  revert seen. induction l as [|c l IH]; intros [names uids]; cbn [for_state].
  - intros _. split; [apply NoDup_nil_2|]. intros c Hc. by apply not_elem_of_nil in Hc.
  - unfold target_claim_step at 1. destruct (_ || _)%bool; [done|]. do 2 (case_bool_decide; [done|]).
    intros [Hnd Hs]%IH. cbn [fst] in *. split.
    + rewrite fmap_cons, list.NoDup_cons. split; [|done]. intros (c' & E & Hc')%list_elem_of_fmap.
      apply (Hs c' Hc'). rewrite E. by apply elem_of_cons; left.
    + intros c' [->|Hc']%elem_of_cons; [done|]. intros Hin. apply (Hs c' Hc'). by apply elem_of_cons; right.
Qed.

Lemma resolve_target_claims d definition : resolve_target r d = Ok definition ->
  target_claims d <> [] /\ (len (target_claims d) <= 16)%Z /\ NoDup (claim_name <$> target_claims d).
Proof.
  unfold resolve_target. destruct (_ || _)%bool eqn:Hg; [done|]. destruct (catalog_Get _ _) as [a|]; [|done].
  destruct (negb (ColdBackup _) || _ || _)%bool; [done|]. intros (s & Hs & _)%bind_ok. apply target_claims_loop in Hs as [Hnd _].
  apply orb_false_iff in Hg as [Hg H16]. apply orb_false_iff in Hg as [_ H0'].
  split_and!; [|rewrite Z.gtb_ltb, Z.ltb_ge in H16; done | done]. intros E. by rewrite E in H0'.
Qed.

Lemma resolve_target_bounds d definition : resolve_target r d = Ok definition -> (1 <= len (target_claims d) <= 16)%Z.
Proof. intros (Hne & H16 & _)%resolve_target_claims. destruct (target_claims d); unfold len in *; cbn in *; [done | lia]. Qed.

Lemma find_entry_some d p e : find_entry d p = Some e -> e ∈ journal d /\ cd_Path e = p.
Proof.
  intros [Hin Hp]%find_some. apply bool_decide_eq_true in Hp. split; [by apply list_elem_of_In | done].
Qed.
Lemma find_entry_none d p e : find_entry d p = None -> e ∈ journal d -> cd_Path e <> p.
Proof. intros Hn He E. eapply find_none in Hn; [|by apply list_elem_of_In]. by apply bool_decide_eq_false in Hn. Qed.
Lemma distinct_entry d e e' : inv d -> e ∈ journal d -> e' ∈ journal d -> cd_Path e = cd_Path e' -> e = e'.
Proof.
  intros I He He' E. pose proof (inv_distinct d I) as Hnd.
  apply list_elem_of_lookup in He as [i Hi]. apply list_elem_of_lookup in He' as [j Hj].
  assert (i = j) as ->; [|congruence]. eapply NoDup_lookup; [exact Hnd|..]; rewrite list_lookup_fmap; [rewrite Hi | rewrite Hj];
    cbn; by rewrite ?E.
Qed.

(** When every target is gone, the journal is exactly the targets', all observed. *)
Lemma gone_complete d pre definition : inv d -> resolve_target r d = Ok definition ->
  (forall c, c ∈ target_claims d -> gone r d pre c) ->
  journal d <> [] /\ length (journal d) = length (target_claims d) /\
  forall e, e ∈ journal d -> cd_ObservedDeletedAt e <> None.
Proof.
  intros I (Hne & _ & Hnd)%resolve_target_claims Hg.
  assert (NoDup (rdc_Path <$> target_claims d)) as Hpaths.
  { apply NoDup_fmap_2_strong; [|by eapply NoDup_fmap_1]. intros c c' Hc Hc' E.
    destruct (Hg c Hc) as (e & He & Hr & _). destruct (Hg c' Hc') as (e' & He' & Hr' & _).
    rewrite E in He. destruct c, c'. cbn in *. congruence. }
  split_and!.
  - destruct (target_claims d) as [|c l]; [done|]. destruct (Hg c) as (e & [He _]%find_entry_some & _);
      [by apply elem_of_cons; left|]. intros E. rewrite E in He. by apply not_elem_of_nil in He.
  - rewrite <- (length_fmap cd_Path), <- (length_fmap rdc_Path (target_claims d)). apply Permutation_length.
    apply NoDup_Permutation; [apply I | done|]. intros p. rewrite !list_elem_of_fmap. split.
    + intros (e & -> & He). destruct (inv_targets d I e He) as (c & Hc & -> & _). eauto.
    + intros (c & -> & Hc). destruct (Hg c Hc) as (e & [He Hp]%find_entry_some & _). eauto.
  - intros e He. destruct (inv_targets d I e He) as (c & Hc & Hp & _).
    destruct (Hg c Hc) as (e' & [He' Hp']%find_entry_some & _ & Ho & _).
    assert (e = e') as -> by (eapply distinct_entry; eauto; congruence). done.
Qed.

(** A challenge is 32 characters of the URL-safe base64 alphabet. *)
Lemma length_filled n bytes : length (filled n bytes) = n.
Proof. unfold filled. rewrite length_take, length_app, length_replicate. lia. Qed.
Lemma base64url_digit_class n : (n < 64)%N ->
  (is_upper (base64url_digit n) || is_lower (base64url_digit n) || is_digit (base64url_digit n) ||
   one_of "_-" (base64url_digit n))%bool = true.
Proof.
  intros Hn. assert (forallb (fun m => let c := base64url_digit (N.of_nat m) in
      is_upper c || is_lower c || is_digit c || one_of "_-" c)%bool (seq 0 64) = true) as Hall by (vm_compute; reflexivity).
  rewrite forallb_forall in Hall. specialize (Hall (N.to_nat n)). rewrite N2Nat.id in Hall. apply Hall.
  apply in_seq. lia.
Qed.
Lemma lor_small a b n : (a < 2 ^ n)%N -> (b < 2 ^ n)%N -> (N.lor a b < 2 ^ n)%N.
Proof.
  assert (2 ^ n <> 0)%N as Hz by (apply N.pow_nonzero; done).
  intros Ha%(N.div_small_iff _ _ Hz) Hb%(N.div_small_iff _ _ Hz). apply (N.div_small_iff _ _ Hz).
  rewrite <- N.shiftr_div_pow2 in *. by rewrite N.shiftr_lor, Ha, Hb.
Qed.
Lemma sextets_small a b c : (a < 256)%N -> (b < 256)%N -> (c < 256)%N ->
  (N.shiftr a 2 < 64)%N /\ (N.lor (N.shiftl (N.land a 3) 4) (N.shiftr b 4) < 64)%N /\
  (N.lor (N.shiftl (N.land b 15) 2) (N.shiftr c 6) < 64)%N /\ (N.land c 63 < 64)%N.
Proof.
  intros Ha Hb Hc. change 3%N with (N.ones 2). change 15%N with (N.ones 4). change 63%N with (N.ones 6).
  rewrite !N.land_ones, !N.shiftl_mul_pow2, !N.shiftr_div_pow2. cbn [N.pow Pos.pow].
  pose proof (N.mod_upper_bound a (2 ^ 2)). pose proof (N.mod_upper_bound b (2 ^ 4)).
  assert (a / 2 ^ 2 < 64)%N by (apply N.Div0.div_lt_upper_bound; lia).
  assert (b / 2 ^ 4 < 64)%N by (apply N.Div0.div_lt_upper_bound; lia).
  assert (c / 2 ^ 6 < 64)%N by (apply N.Div0.div_lt_upper_bound; lia).
  change 64%N with (2 ^ 6)%N in *. split_and!; [done | apply lor_small; lia | apply lor_small; lia | by apply N.mod_upper_bound].
Qed.
Lemma raw_url_chars_spec n l : length l = (3 * n)%nat ->
  length (raw_url_chars l) = (4 * n)%nat /\
  Forall (fun c => (is_upper c || is_lower c || is_digit c || one_of "_-" c)%bool = true) (raw_url_chars l).
Proof.
  revert l. induction n as [|n IH]; intros l Hl; [by destruct l|].
  destruct l as [|a [|b [|c l]]]; cbn [length] in Hl; try lia. cbn [raw_url_chars length].
  destruct (IH l) as [-> HF]; [lia|]. split; [lia|].
  destruct (sextets_small (N_of_ascii a) (N_of_ascii b) (N_of_ascii c)) as (? & ? & ? & ?);
    try apply N_ascii_bounded. do 4 (constructor; [by apply base64url_digit_class|]). done.
Qed.

Lemma guidance_bounded d : length_within 1 1024 (previewGuidance d) = true.
Proof. unfold previewGuidance. destruct (_ == _); vm_compute; reflexivity. Qed.
Lemma challenge_valid d bytes t :
  preview_fields_valid (MkDestroyPreview (RawURLEncoding (filled 24 bytes)) t (previewGuidance d)) = true.
Proof.
  destruct (raw_url_chars_spec 8 (filled 24 bytes)) as [Hl HF]; [by rewrite length_filled|].
  unfold preview_fields_valid. cbn [pv_Challenge pv_RestoreGuidance]. rewrite guidance_bounded, andb_true_r.
  assert (slen (RawURLEncoding (filled 24 bytes)) = 32%Z) as E.
  { unfold slen, RawURLEncoding. rewrite <- length_chars, chars_unchars, Hl. done. }
  unfold length_within. rewrite E. cbn [Z.leb Z.compare andb]. unfold RawURLEncoding.
  apply MatchString_lang. rewrite chars_unchars. destruct (raw_url_chars _) as [|c l]; [done|].
  inversion HF as [|? ? Hc Hl']; subst. change (c :: l) with ([c] ++ l). constructor; [by constructor|].
  by apply lang_class_star.
Qed.

(** What a report may name. *)
Lemma artifact_id_length uid id : ArtifactID uid = Ok id -> slen id = 71%Z.
Proof.
  unfold ArtifactID, deterministicID. intros Hid. ok_inv. subst. unfold slen, EncodeToString.
  rewrite <- length_chars, !chars_app, !length_app, chars_unchars, length_hex_chars, length_Sum256. done.
Qed.
Lemma proof_valid d v : reported d v -> (1 <= len (target_claims d) <= 16)%Z ->
  dv_PathCount v = len (target_claims d) -> proof_fields_valid v = true.
Proof.
  intros (input & Hm & Ha & Hd) Hn Hc. unfold input_matches in Hm. rewrite !andb_true_iff in Hm.
  destruct Hm as [[[[[[[[[[Hv _] _] _] _] _] _] _] _] _] _]. apply is_ok_unit in Hv.
  unfold ValidateInput in Hv. destruct (invalid_contract input) eqn:Hinv; [done|].
  destruct (ArtifactID _) as [id|] eqn:Hid; [|done]. destruct (_ || _)%bool eqn:Hart in Hv; [done|]. clear Hv.
  unfold invalid_contract in Hinv. bool_prop.
  apply artifact_id_length in Hid. unfold proof_fields_valid, length_within. rewrite Ha, Hd, Hc, Hid.
  rewrite !andb_true_iff, bool_decide_eq_true, !Z.leb_le. split_and!; try done.
Qed.

(** The writes that touch more than the phase. *)
Lemma inv_preview d b t : inv d -> phase_of d = DestroyPhasePending ->
  inv (with_status d (MkGameDestroyStatus (gd_Generation d) DestroyPhasePreview (gds_StartedAt (gd_Status d))
    (gds_CompletedAt (gd_Status d)) (gds_Conditions (gd_Status d))
    (Some (MkDestroyPreview (RawURLEncoding (filled 24 b)) t (previewGuidance d))) (gds_Verification (gd_Status d))
    (journal d))).
Proof.
  intros I Hp. assert (journal d = []) as Hj.
  { destruct (journal d) eqn:E; [done|]. exfalso.
    destruct (inv_journal d I) as [E'|E']; [by rewrite E|..]; congruence. }
  assert (gds_Preview (gd_Status d) = None) as Hpv by (apply (inv_early d I); auto).
  assert (challenge_of d = "") as Hc.
  { destruct (decide (challenge_of d = "")) as [|Hc]; [done|]. apply (inv_echo d I) in Hc. unfold echoes in Hc.
    by rewrite Hpv in Hc. }
  unfold challenge_of in Hc.
  split; unfold phase_of, challenge_of, deleting_phase, journal in *; cbn; rewrite ?Hc; try naive_solver.
  - apply (inv_verification d I).
  - apply (inv_targets d I).
  - apply (inv_distinct d I).
  - intros ? [= <-]. apply challenge_valid.
  - apply (inv_proof_fields d I).
Qed.

Lemma inv_record d v : inv d -> phase_of d = DestroyPhaseVerifying -> verification_matches d v -> proof_fields_valid v = true ->
  inv (with_status d (MkGameDestroyStatus (gds_ObservedGeneration (gd_Status d)) (phase_of d)
    (gds_StartedAt (gd_Status d)) (gds_CompletedAt (gd_Status d)) (gds_Conditions (gd_Status d))
    (gds_Preview (gd_Status d)) (Some v) (journal d))).
Proof.
  intros I Hp Hv Hf. destruct I. split; unfold phase_of, journal, verified in *; cbn; auto; by intros v' [= <-].
Qed.

Lemma inv_new_journal d j : inv d -> phase_of d = DestroyPhaseDeleting ->
  (forall e, e ∈ j -> exists c, c ∈ target_claims d /\ entry_for c e) -> NoDup (cd_Path <$> j) ->
  (len (target_claims d) <= 16)%Z ->
  inv (with_status d (with_journal (gd_Status d) j)).
Proof.
  intros I Hp Ht Hn Hl. destruct I.
  split; unfold phase_of, journal, verified, deleting_phase in *; cbn; auto; rewrite ?Hp; auto; discriminate.
Qed.

Lemma observe_path p t e : cd_Path (observe_deleted p t e) = cd_Path e.
Proof. unfold observe_deleted. by case_bool_decide. Qed.
Lemma observe_ref p t e : cd_ClaimRef (observe_deleted p t e) = cd_ClaimRef e.
Proof. unfold observe_deleted. by case_bool_decide. Qed.
Lemma observe_paths p t (j : list GameDestroyClaimDeletion) : cd_Path <$> (observe_deleted p t <$> j) = cd_Path <$> j.
Proof. rewrite <- list_fmap_compose. apply list_fmap_ext. intros i e _. apply observe_path. Qed.

Lemma advance_inv d pre u : inv d -> advance r d pre u -> inv u.
Proof.
  intros I. destruct 1 as [u Ha Hm|u Hp Hm|u Ha Hj Hm|u Ha Hj Hc Hm|u b t Hp Hc Hb Ht ->|u p Hp Hc Hcold Hacq -> Hm
    |u v Hp Hn Hc Hf Hcold Hb Hs Hcount Hrep ->|u Hp Hv Hf Hcold Hm|u c t Hp Ha Hc Hn ->|u c e t Hp Hc He Hr Ho Hg ->|u Hp Ha Hg Hm].
  - by apply (inv_hold d).
  - eapply (inv_moved d); eauto; unfold deleting_phase; try naive_solver.
    + intros _. apply (inv_early d I). auto.
    + intros Hj. destruct (inv_journal d I Hj); congruence.
  - eapply (inv_moved d); eauto; unfold deleting_phase; naive_solver.
  - eapply (inv_moved d); eauto; unfold deleting_phase; naive_solver.
  - by apply inv_preview.
  - destruct Hc as (pv & t & _ & Hne & _).
    assert (journal d = []) as Hj0.
    { destruct (journal d) eqn:E; [done|]. destruct (inv_journal d I) as [E'|E']; [by rewrite E|..]; congruence. }
    destruct (cold_mode _ _ _ _ Hcold) as [Hmode|Hmode]; rewrite Hmode in Hm; eval_bools.
    + eapply (inv_moved d); eauto; unfold deleting_phase; try naive_solver.
    + eapply (inv_moved d); eauto; unfold deleting_phase; try naive_solver. intros _ ?. congruence.
  - destruct (cold_target _ _ _ _ Hcold) as (df & Hdf). apply resolve_target_bounds in Hdf.
    rewrite int32_small in Hcount by (unfold in_int32; lia).
    apply inv_record; [done | done | by split_and! | by eapply proof_valid].
  - eapply (inv_moved d); eauto; unfold deleting_phase; try naive_solver. intros _. apply (inv_confirmed d I). by left.
  - destruct Ha as (_ & _ & _ & Hcold). destruct (cold_target _ _ _ _ Hcold) as (df & Hdf%resolve_target_bounds).
    apply inv_new_journal; try done; [| |lia].
    + intros e [He| ->%list_elem_of_singleton]%elem_of_app; [by apply (inv_targets d I) | by exists c].
    + rewrite fmap_app, list.NoDup_app. split_and!; [apply I | | apply NoDup_singleton].
      intros p (e & -> & He)%list_elem_of_fmap Hin%list_elem_of_singleton. by eapply find_entry_none.
  - apply inv_new_journal; try done; [|rewrite observe_paths; apply I|].
    2: { apply (inv_bounded d I). apply find_entry_some in He as [He _]. intros E. rewrite E in He. by apply not_elem_of_nil in He. }
    intros e' (e'' & -> & He'')%list_elem_of_fmap. destruct (inv_targets d I e'' He'') as (c' & ? & ?).
    exists c'. unfold entry_for. by rewrite observe_path, observe_ref.
  - destruct Ha as (_ & Hver & _ & Hcold). destruct (cold_target _ _ _ _ Hcold) as [df Hdf].
    pose proof (gone_complete _ _ _ I Hdf Hg) as Hall.
    eapply (inv_moved d); eauto; unfold deleting_phase; try naive_solver.
    intros _. apply (inv_confirmed d I). right. by left.
Qed.

(** *** Writes obey the update rules *)

Lemma kept_same {A} `{EqDecision A} (a b : option A) : b = a -> kept (fun x y => bool_decide (y = x)) a b = true.
Proof. intros ->. destruct a; [by apply bool_decide_eq_true|done]. Qed.

Lemma keeps_same j e : e ∈ j -> keeps_entry j e = true.
Proof.
  intros He. apply existsb_exists. exists e. split; [by apply list_elem_of_In|].
  rewrite !bool_decide_eq_true_2 by done. apply orb_true_r.
Qed.

Lemma update_valid d u : gd_Spec u = gd_Spec d -> active d ->
  kept (fun x y => bool_decide (y = x)) (gds_Preview (gd_Status d)) (gds_Preview (gd_Status u)) = true ->
  kept (fun x y => bool_decide (y = x)) (gds_Verification (gd_Status d)) (gds_Verification (gd_Status u)) = true ->
  (forall e, e ∈ journal d -> keeps_entry (journal u) e = true) -> destroy_update_valid d u = true.
Proof.
  intros Hs Ha Hp Hv Hj. unfold destroy_update_valid, active in *. rewrite Hs, Ha.
  repeat (apply andb_true_iff; split); try done; try (by apply bool_decide_eq_true);
    try (apply orb_true_iff; right; by apply bool_decide_eq_true).
  - by destruct (gd_CancelRequested _).
  - apply forallb_forall. intros e He%list_elem_of_In. by apply Hj.
Qed.

Lemma update_moved d u p : active d -> moved d u p -> destroy_update_valid d u = true.
Proof.
  intros Ha [_ Hs _ Hp Hv Hj]. apply update_valid; try done; [by apply kept_same.. |].
  intros e He. rewrite Hj. by apply keeps_same.
Qed.

Lemma advance_active d pre u : advance r d pre u -> active d.
Proof. destruct 1; try done; by eapply active_phase. Qed.

Lemma advance_spec d pre u : advance r d pre u -> gd_Spec u = gd_Spec d.
Proof. destruct 1; subst; try done; match goal with Hm : moved _ _ _ |- _ => by destruct Hm end. Qed.

Lemma advance_update d pre u : inv d -> advance r d pre u -> destroy_update_valid d u = true.
Proof.
  intros I Hadv. pose proof (advance_active _ _ _ Hadv) as Hact.
  destruct Hadv as [| | | |u b t Hp Hc Hb Ht ->| |u v Hp Hn Hc Hf Hcold Hb Hs Hcount Hrep ->| |u c t Hp Ha Hc Hn ->
    |u c e t Hp Hc He Hr Ho Hg ->|]; try (by eapply update_moved).
  - apply update_valid; try done; [|by apply kept_same | apply keeps_same].
    by rewrite (inv_early d I) by auto.
  - apply update_valid; try done; [by apply kept_same | by rewrite Hn | apply keeps_same].
  - apply update_valid; try done; [by apply kept_same.. |]. intros e He. apply keeps_same. cbn. apply elem_of_app. by left.
  - apply update_valid; try done; [by apply kept_same.. |]. intros e' He'. apply existsb_exists.
    exists (observe_deleted (rdc_Path c) t e'). split; [by apply list_elem_of_In, list_elem_of_fmap_2|].
    apply find_entry_some in He as [He Hpath]. unfold observe_deleted.
    destruct (decide (cd_Path e' = rdc_Path c)) as [E|E].
    + assert (e' = e) as -> by (apply (distinct_entry d); [done..|congruence]).
      rewrite (bool_decide_eq_true_2 (cd_Path e = rdc_Path c)) by done. cbn. rewrite Ho. cbn.
      by rewrite !bool_decide_eq_true_2.
    + rewrite (bool_decide_eq_false_2 (cd_Path e' = rdc_Path c)) by done.
      rewrite !bool_decide_eq_true_2 by done. apply orb_true_r.
Qed.

(** ** Every history keeps the invariant *)

Lemma pass_permitted d es o e : steps (reconcile_destroy r d) es o -> e ∈ es -> ~ quiet e ->
  exists pre, permitted r d pre e.
Proof.
  intros Hs He Hl. destruct (safe_reconcile r d [] es o Hs) as [Hq|(pre & e' & -> & Hq & Hp)].
  - destruct Hl. by eapply quiet_elem.
  - apply elem_of_app in He as [He| ->%list_elem_of_singleton]; [destruct Hl; by eapply quiet_elem | by exists pre].
Qed.

Lemma pass_advance d es o e u : steps (reconcile_destroy r d) es o -> e ∈ es -> status_write e = Some u ->
  exists pre, advance r d pre u.
Proof.
  intros Hs He Hw. destruct (pass_permitted d es o e Hs He) as (pre & Hp & _); [intros [_ ?]; congruence|]. eauto.
Qed.

Lemma update_spec d d' : destroy_update_valid d d' = true ->
  gd_Target (gd_Spec d') = gd_Target (gd_Spec d) /\ gd_Mode (gd_Spec d') = gd_Mode (gd_Spec d) /\
  gd_BackupRef (gd_Spec d') = gd_BackupRef (gd_Spec d) /\
  gd_RepositorySecretRef (gd_Spec d') = gd_RepositorySecretRef (gd_Spec d) /\
  (challenge_of d <> "" -> challenge_of d' = challenge_of d) /\
  forall e, e ∈ journal d -> exists e', e' ∈ journal d' /\ cd_Path e' = cd_Path e /\ cd_ClaimRef e' = cd_ClaimRef e.
Proof.
  unfold destroy_update_valid. intros Hu. repeat (apply andb_true_iff in Hu as [Hu ?]).
  repeat match goal with E : bool_decide _ = true |- _ => apply bool_decide_eq_true in E end.
  split_and!; try done.
  - intros Hc. unfold challenge_of in *.
    match goal with E : (_ || (_ == gd_ConfirmationChallenge _))%bool = true |- _ =>
      apply orb_true_iff in E as [E|E]; apply bool_decide_eq_true in E; done end.
  - intros e He. match goal with E : forallb _ _ = true |- _ => rewrite forallb_forall in E;
      specialize (E e ltac:(by apply list_elem_of_In)); apply existsb_exists in E as (e' & Hin & E) end.
    exists e'. split; [by apply list_elem_of_In|]. bool_prop. done.
Qed.

Lemma valid_echo d : destroy_valid d = true -> challenge_of d <> "" -> echoes d = true.
Proof.
  unfold destroy_valid. intros Hv Hc. repeat (apply andb_true_iff in Hv as [Hv ?]).
  match goal with E : ((challenge_of d == "") || _)%bool = true |- _ => 
    apply orb_true_iff in E as [E|E]; [by apply bool_decide_eq_true in E | done] end.
Qed.

Lemma inv_user d d' : inv d -> gd_Status d' = gd_Status d -> destroy_update_valid d d' = true ->
  destroy_valid d' = true -> inv d'.
Proof.
  intros I Hs (Ht & Hm & Hb & Hsec & Hc & _)%update_spec Hv.
  split; unfold phase_of, journal, verified, verification_matches, target_claims in *; rewrite ?Hs, ?Ht, ?Hm, ?Hb, ?Hsec;
    try apply I; [by apply valid_echo|].
  intros Hp. rewrite Hc; apply I; done.
Qed.

Record history_inv (vs : list GameDestroy) (deleted : list string) : Prop := {
  hi_inv v : v ∈ vs -> inv v;
  hi_kept d : head vs = Some d -> forall v e, v ∈ vs -> e ∈ journal v ->
    exists e', e' ∈ journal d /\ cd_Path e' = cd_Path e /\ cd_ClaimRef e' = cd_ClaimRef e;
  hi_deleted uid : uid ∈ deleted -> exists v e, v ∈ vs /\ e ∈ journal v /\ ref_UID (cd_ClaimRef e) = uid }.

(** A new version whose update obeys the rules keeps the history's invariant. *)
Lemma history_inv_update d d' vs deleted : history_inv (d :: vs) deleted -> inv d' ->
  destroy_update_valid d d' = true -> history_inv (d' :: d :: vs) deleted.
Proof.
  intros HI I (_ & _ & _ & _ & _ & Hk)%update_spec. split.
  - intros v [->|Hv]%elem_of_cons; [done | by apply (hi_inv _ _ HI)].
  - intros x [= <-] v e [->|Hv]%elem_of_cons He; [by exists e|].
    destruct (hi_kept _ _ HI d eq_refl v e Hv He) as (e1 & He1 & <- & <-). by apply Hk.
  - intros uid Hu. destruct (hi_deleted _ _ HI uid Hu) as (v & e & Hv & ?). exists v, e.
    split; [by apply elem_of_cons; right | done].
Qed.

Lemma history_invariant vs deleted : history vs deleted -> history_inv vs deleted.
Proof.
  induction 1 as [d Hc|d vs deleted es o e u _ IH Hs He Hw|d vs deleted d' _ IH Hst Hu Hv
    |vs deleted d es o e claim opts _ IH Hd Hs He Hdel].
  - split.
    + intros v ->%list_elem_of_singleton. by apply created_inv.
    + intros x [= <-] v e ->%list_elem_of_singleton He. by exists e.
    + intros uid Hu. by apply not_elem_of_nil in Hu.
  - destruct (pass_advance _ _ _ _ _ Hs He Hw) as (pre & Hadv).
    assert (inv d) as I by (apply (hi_inv _ _ IH); by apply elem_of_cons; left).
    apply history_inv_update; [done | by eapply advance_inv | by eapply advance_update].
  - apply history_inv_update; [done | | done]. eapply inv_user; [|done..].
    apply (hi_inv _ _ IH). by apply elem_of_cons; left.
  - destruct IH as [Hi Hk Hdl]. split; [done|done|]. intros uid [->|Hu]%elem_of_cons; [|by apply Hdl].
    destruct (pass_permitted _ _ _ _ Hs He) as (pre & _ & Hp); [intros [? _]; congruence|].
    destruct (Hp _ _ Hdel) as [_ _ (c & entry & _ & [Hin _]%find_entry_some & Hr & _ & _ & Huid & _)].
    exists d, entry. split_and!; [done|done|]. rewrite Hr, Huid. done.
Qed.

(** ** Theorems *)

(** C22: the controller conforms to the schema.  In every history of a request
    - any interleaving of controller writes, user updates the schema allows and
    passes over old versions - whatever status the controller writes next
    satisfies the cross-field validation rules of the resource, on the update
    and on the new version: preview and verification are never rewritten,
    journal entries never dropped or retargeted, a terminal phase never left,
    cancellation and failure only with an empty journal, deletion only with the
    challenge echoed and (in verified mode) the complete matching proof, and
    success only with every target journaled and observed deleted.  It also
    satisfies the rules on the fields of a status: length and alphabet of the
    challenge and length of the guidance; length of the artifact ID, prefix and
    length of the manifest digest and range of the path count of a
    verification; size and distinct paths of the journal.  And when the
    references and paths of the spec satisfy the rules of their types, so do
    those of the status.  Not covered: the rules on the spec alone, the
    hexadecimal alphabet of a manifest digest and the list of conditions. *)
Theorem Reconcile_conforms d vs deleted es o e u
  (Hh : history (d :: vs) deleted) (Hs : steps (reconcile_destroy r d) es o) (He : e ∈ es)
  (Hw : status_write e = Some u) :
  destroy_update_valid d u = true /\ destroy_valid u = true /\ status_fields_valid u = true /\
  gd_Spec u = gd_Spec d /\ (spec_references_valid d = true -> status_references_valid u = true).
Proof.
  apply history_invariant in Hh. assert (inv d) as I by (apply (hi_inv _ _ Hh); by apply elem_of_cons; left).
  destruct (pass_advance _ _ _ _ _ Hs He Hw) as (pre & Hadv).
  assert (inv u) as Iu by (by eapply advance_inv). pose proof (advance_spec _ _ _ Hadv) as Espec.
  split_and!; [by eapply advance_update | by apply inv_valid | by apply inv_fields_valid | done |].
  intros Hspec. apply inv_references_valid; [done|]. unfold spec_references_valid, target_claims in *. by rewrite Espec.
Qed.

(** C25: deletions are written ahead, and final.  Every claim deleted for a
    request, even by a pass over an old version, is a target claim with an
    entry in the journal of the newest version; so a request that ended Failed
    or Cancelled deleted nothing. *)
Theorem destroy_history_journaled d vs deleted (Hh : history (d :: vs) deleted) :
  (forall uid, uid ∈ deleted -> exists c e, c ∈ target_claims d /\ e ∈ journal d /\ entry_for c e /\ claim_uid c = uid) /\
  (phase_of d = DestroyPhaseFailed \/ phase_of d = DestroyPhaseCancelled -> deleted = []).
Proof.
  apply history_invariant in Hh. assert (inv d) as I by (apply (hi_inv _ _ Hh); by apply elem_of_cons; left).
  assert (forall uid, uid ∈ deleted -> exists c e,
    c ∈ target_claims d /\ e ∈ journal d /\ entry_for c e /\ claim_uid c = uid) as Hdel.
  { intros uid Hu. destruct (hi_deleted _ _ Hh uid Hu) as (v & e & Hv & He & <-).
    destruct (hi_kept _ _ Hh d eq_refl v e Hv He) as (e' & He' & _ & Hr).
    destruct (inv_targets d I e' He') as (c & Hc & Hp & Hr'). exists c, e'. split_and!; try done.
    unfold claim_uid. congruence. }
  split; [done|]. intros Hp. destruct deleted as [|uid l]; [done|].
  destruct (Hdel uid) as (c & e & _ & He & _); [by apply elem_of_cons; left|]. exfalso.
  destruct (inv_journal d I) as [E|E]; [intros E; rewrite E in He; by apply not_elem_of_nil in He|..];
    destruct Hp; congruence.
Qed.

(** A request in a terminal phase is final: a pass over it neither writes
    its status nor deletes a claim. *)
Theorem Reconcile_terminal d es o (Ht : destroyTerminal (phase_of d) = true)
  (Hs : steps (reconcile_destroy r d) es o) : Forall quiet es.
Proof.
  destruct (safe_reconcile r d [] es o Hs) as [Hq|(pre & e & -> & Hq & Hw & Hd)]; [done|].
  apply Forall_app. split; [done|]. constructor; [|constructor]. unfold quiet.
  destruct (pvc_delete e) as [[claim opts]|] eqn:E1.
  - destruct (Hd _ _ eq_refl) as [Hp _ _]. unfold phase_of in *. by rewrite Hp in Ht.
  - split; [done|]. destruct (status_write e) as [u|] eqn:E2; [|done].
    pose proof (advance_active _ _ _ (Hw _ eq_refl)) as Ha. unfold active in Ha. congruence.
Qed.
End Conformance.

(** ** A complete history

    An unsafe destroy of a stopped server's world, from its creation to the
    deletion of its claim: accepted, previewed, confirmed by its owner,
    journaled, deleted. *)

Definition last_event {A} (es_a : list event * A) : event := default (Ev ClockNow 0%Z) (list.last es_a.1).
Lemma last_event_elem {A} (p : list event * A) : p.1 <> [] -> last_event p ∈ p.1.
Proof.
  intros Hne. unfold last_event. destruct (list.last p.1) as [e|] eqn:E; [by apply last_Some_elem_of|].
  by apply last_None in E.
Qed.

Definition unsafe_spec (challenge : string) : GameDestroySpec :=
  MkGameDestroySpec (MkDestroyTarget (MkRef None "alpha" "server-uid") "factorio" (MkDataRef "data-identity" [sample_claim]))
    DestroyModeUnsafeNoBackup None None "obsolete world" challenge false.
Definition stopped_server : GameServer :=
  MkGameServer (MkObjectMeta "alpha" "games" "server-uid" 3 "4" 1 None [] ∅ ∅ [])
    (MkGameServerSpec "factorio" "" DesiredStateStopped (MkCompute 0 0 0 0) (MkStorage 0 None None) "")
    (MkGameServerStatus 3 None (Some (MkDataRef "data-identity" [sample_claim])) PhaseStopped [] []).
Definition unsafe_get {A} (k : kind A) (key : NamespacedName) : apierr + A :=
  match k in kind T return apierr + T with
  | KGameServer => inr stopped_server
  | k => sample_get (sample_deleting []) k key
  end.
Definition unsafe_env : environment := fun R past q =>
  match q in request R return R with
  | ApiGet k _ key => unsafe_get k key
  | RandRead n => Some (replicate (Z.to_nat n) "z"%char)
  | q => sample_env (sample_deleting []) _ past q
  end.
Definition unsafe_pass (d : GameDestroy) : list event * outcome :=
  run unsafe_env [] (@reconcile_destroy rfc1123 sample_time_text sample_conditions sample_decoder sample_reconciler d).
Definition written (d : GameDestroy) : GameDestroy := default d (status_write (last_event (unsafe_pass d))).
Definition sample_history : list GameDestroy -> list string -> Prop :=
  @history rfc1123 sample_time_text sample_conditions sample_decoder sample_reconciler.

Lemma history_written d vs deleted : sample_history (d :: vs) deleted ->
  status_write (last_event (unsafe_pass d)) = Some (written d) -> sample_history (written d :: d :: vs) deleted.
Proof.
  intros Hh Hw. eapply hist_write; [exact Hh | apply run_steps | | exact Hw].
  apply last_event_elem. intros E. unfold unsafe_pass in *. unfold last_event in Hw. rewrite E in Hw. discriminate Hw.
Qed.

Definition unsafe_created : GameDestroy := MkGameDestroy sample_destroy_meta (unsafe_spec "") empty_destroy_status.
Definition unsafe_accepted : GameDestroy := written unsafe_created.
Definition unsafe_previewed : GameDestroy := written unsafe_accepted.
Definition unsafe_challenge : string :=
  match gds_Preview (gd_Status unsafe_previewed) with Some p => pv_Challenge p | None => "" end.
Definition unsafe_echoed : GameDestroy :=
  MkGameDestroy sample_destroy_meta (unsafe_spec unsafe_challenge) (gd_Status unsafe_previewed).
Definition unsafe_confirmed : GameDestroy := written unsafe_echoed.
Definition unsafe_journaled : GameDestroy := written unsafe_confirmed.
Definition unsafe_versions : list GameDestroy :=
  [unsafe_journaled; unsafe_confirmed; unsafe_echoed; unsafe_previewed; unsafe_accepted; unsafe_created].

Lemma unsafe_history_confirmed : sample_history (tail unsafe_versions) [].
Proof.
  unfold unsafe_versions. cbn [tail].
  apply history_written; [|vm_compute; reflexivity].
  apply hist_user; [| vm_compute; reflexivity..].
  apply history_written; [|vm_compute; reflexivity].
  apply history_written; [|vm_compute; reflexivity].
  apply hist_create. split; reflexivity.
Qed.
Lemma unsafe_history : sample_history unsafe_versions [].
Proof. apply history_written; [exact unsafe_history_confirmed | vm_compute; reflexivity]. Qed.
Lemma unsafe_confirmed_writes : last_event (unsafe_pass unsafe_confirmed) ∈ (unsafe_pass unsafe_confirmed).1.
Proof. apply last_event_elem. vm_compute. discriminate. Qed.

Lemma unsafe_deletes : pvc_delete (last_event (unsafe_pass unsafe_journaled)) =
  Some (sample_pvc, uid_precondition (pvc_meta sample_pvc)).
Proof. vm_compute. reflexivity. Qed.

Lemma unsafe_history_deleted : sample_history unsafe_versions ["claim-uid"].
Proof.
  change ["claim-uid"] with [om_UID (pvc_meta sample_pvc)].
  eapply (hist_delete _ unsafe_versions [] unsafe_journaled);
    [exact unsafe_history | by apply elem_of_cons; left | apply run_steps | | exact unsafe_deletes].
  apply last_event_elem. intros E. pose proof unsafe_deletes as Hd. unfold last_event, unsafe_pass in Hd.
  rewrite E in Hd. discriminate Hd.
Qed.

Lemma destroy_history_journaled_witness :
  exists c e, c ∈ target_claims unsafe_journaled /\ e ∈ journal unsafe_journaled /\ entry_for c e /\
    claim_uid c = "claim-uid".
Proof.
  exact (proj1 (@destroy_history_journaled rfc1123 sample_time_text sample_conditions sample_decoder
    sample_reconciler unsafe_journaled _ _ unsafe_history_deleted) "claim-uid"
    ltac:(apply elem_of_cons; left; reflexivity)).
Defined.

Lemma Reconcile_conforms_witness :
  journal unsafe_journaled <> [] /\ destroy_valid unsafe_journaled = true /\
  status_fields_valid unsafe_journaled = true /\ status_references_valid unsafe_journaled = true.
Proof.
  destruct (@Reconcile_conforms rfc1123 sample_time_text sample_conditions sample_decoder sample_reconciler
    unsafe_confirmed _ [] _ _ (last_event (unsafe_pass unsafe_confirmed)) unsafe_journaled unsafe_history_confirmed
    (run_steps unsafe_env [] _) unsafe_confirmed_writes eq_refl) as (_ & Hv & Hf & _ & Hr).
  split_and!; [vm_compute; discriminate | exact Hv | exact Hf | apply Hr; vm_compute; reflexivity].
Defined.

Definition failed_request : GameDestroy :=
  sample_destroy (MkGameDestroyStatus 1 DestroyPhaseFailed (Some 1%Z) (Some 2%Z) [] None None []).
Lemma Reconcile_terminal_witness : Forall quiet (unsafe_pass failed_request).1.
Proof.
  exact (@Reconcile_terminal rfc1123 sample_time_text sample_conditions sample_decoder sample_reconciler
    failed_request _ (unsafe_pass failed_request).2 eq_refl (run_steps unsafe_env [] _)).
Defined.
