(* ===== verification/ServerStatus.v ===== *)
(** * The status of a game server ([internal/controller/status.go])

    A reconcile pass collects conditions in a [conditionProgress] and writes
    them, in a fixed order and complete, with the phase, the endpoints and the
    observed data.  [metav1]'s [FindStatusCondition] is a parameter. *)

From stdpp Require Import base tactics list strings gmap numbers.
From S2P Require Import Prelude GoStrings ApiTypes KubeObjects KubeApi WorkerPods.
Open Scope string_scope.
Open Scope list_scope.

Definition ConditionSpecValid := "SpecValid".
Definition ConditionStorageReady := "StorageReady".
Definition ConditionConfigurationReady := "ConfigurationReady".
Definition ConditionWorkloadReady := "WorkloadReady".
Definition ConditionNetworkReady := "NetworkReady".
Definition ConditionReady := "Ready".

Definition ReasonValid := "Valid".
Definition ReasonInvalidSpec := "InvalidSpec".
Definition ReasonControllerMisconfigured := "ControllerMisconfigured".
Definition ReasonClaimsReady := "ClaimsReady".
Definition ReasonClaimsProvisioning := "ClaimsProvisioning".
Definition ReasonClaimExpansionPending := "ClaimExpansionPending".
Definition ReasonStorageOperationFailed := "StorageOperationFailed".
Definition ReasonRetainedDataReferenceRequired := "RetainedDataReferenceRequired".
Definition ReasonRetainedDataMissing := "RetainedDataMissing".
Definition ReasonRetainedDataConflict := "RetainedDataConflict".
Definition ReasonConfigurationReady := "ConfigurationReady".
Definition ReasonConfigurationOperationFailed := "ConfigurationOperationFailed".
Definition ReasonWorkloadAvailable := "WorkloadAvailable".
Definition ReasonWorkloadProgressing := "WorkloadProgressing".
Definition ReasonWorkloadUnavailable := "WorkloadUnavailable".
Definition ReasonWorkloadOperationFailed := "WorkloadOperationFailed".
Definition ReasonPlayerEndpointReady := "PlayerEndpointReady".
Definition ReasonPlayerEndpointPending := "PlayerEndpointPending".
Definition ReasonNetworkOperationFailed := "NetworkOperationFailed".
Definition ReasonResourceCollision := "ResourceCollision".
Definition ReasonBlocked := "Blocked".
Definition ReasonRuntimeStopping := "RuntimeStopping".
Definition ReasonRuntimeStopped := "RuntimeStopped".
Definition ReasonReady := "Ready".
Definition ReasonStoragePending := "StoragePending".
Definition ReasonWorkloadPending := "WorkloadPending".
Definition ReasonDataOperationActive := "DataOperationActive".
Definition ReasonReconcileFailed := "ReconcileFailed".

Definition conditionOrder : list string :=
  [ConditionSpecValid; ConditionStorageReady; ConditionConfigurationReady; ConditionWorkloadReady;
   ConditionNetworkReady; ConditionReady].

(** ** Collecting conditions *)

Definition conditionProgress := gmap string Condition.
Definition newConditionProgress : conditionProgress := ∅.

Definition set (progress : conditionProgress) (conditionType : string) (status : ConditionStatus)
    (reason message : string) : conditionProgress :=
  <[conditionType := MkCondition conditionType status 0 0 reason message]> progress.

Definition fillBlocked (progress : conditionProgress) (reason : string) : conditionProgress :=
  fold_left (fun progress conditionType =>
    if bool_decide (is_Some (progress !! conditionType)) || bool_decide (conditionType = ConditionReady) then progress
    else set progress conditionType ConditionUnknown ReasonBlocked
           (conditionType +:+ " was not evaluated because an earlier lifecycle stage is blocked by " +:+ reason))
    conditionOrder progress.

Record reconcileFailure := newReconcileFailure {
  fl_conditionType : string;
  fl_reason : string;
  fl_message : string;
  fl_retry : bool }.

(** The condition Ready of a failed pass. *)
Definition ready_reason (failure : reconcileFailure) : string :=
  let r := fl_reason failure in
  if bool_decide (r ∈ [ReasonInvalidSpec; ReasonControllerMisconfigured; ReasonResourceCollision;
                       ReasonRetainedDataReferenceRequired; ReasonRetainedDataMissing; ReasonRetainedDataConflict])
  then r else ReasonReconcileFailed.
Definition failed_progress (progress : conditionProgress) (failure : reconcileFailure) : conditionProgress :=
  let progress := set progress (fl_conditionType failure) ConditionFalse (fl_reason failure) (fl_message failure) in
  let progress := fillBlocked progress (fl_reason failure) in
  set progress ConditionReady ConditionFalse (ready_reason failure)
    "the game server is not ready; follow the failed condition's safe operator action".

(** ** Endpoints *)

(** [cmp.Compare] field by field. *)
Definition endpoint_before (a b : ObservedEndpoint) : bool :=
  if negb (bool_decide (oe_Name a = oe_Name b)) then string_ltb (oe_Name a) (oe_Name b)
  else if negb (bool_decide (oe_Protocol a = oe_Protocol b)) then string_ltb (oe_Protocol a) (oe_Protocol b)
  else if negb (bool_decide (oe_Address a = oe_Address b)) then string_ltb (oe_Address a) (oe_Address b)
  else (oe_Port a <? oe_Port b)%Z.
Fixpoint insert_endpoint (e : ObservedEndpoint) (l : list ObservedEndpoint) : list ObservedEndpoint :=
  match l with
  | [] => [e]
  | x :: r => if endpoint_before e x then e :: l else x :: insert_endpoint e r
  end.
Definition canonicalEndpoints (source : list ObservedEndpoint) : list ObservedEndpoint :=
  foldr insert_endpoint [] source.

(** ** The written status *)

Class FindConditions := FindStatusCondition : list Condition -> string -> option Condition.

Section Status.
Context `{FindConditions}.

Definition canonical_condition (server : GameServer) (progress : conditionProgress) (now : Time)
    (conditionType : string) : Condition :=
  let c := default (MkCondition conditionType ConditionUnknown 0 0 ReasonBlocked (conditionType +:+ " was not evaluated"))
             (progress !! conditionType) in
  let t := match FindStatusCondition (gss_Conditions (gs_Status server)) conditionType with
           | Some previous => if bool_decide (cond_Status previous = cond_Status c)
                              then cond_LastTransitionTime previous else now
           | None => now
           end in
  MkCondition conditionType (cond_Status c) (om_Generation (gs_meta server)) t (cond_Reason c) (cond_Message c).
Definition canonicalConditions (server : GameServer) (progress : conditionProgress) (now : Time) : list Condition :=
  canonical_condition server progress now <$> conditionOrder.

Definition observed_data (status : GameServerStatus) (data : option RetainedDataReference) :
    option RetainedDataReference :=
  let observed := match data with Some _ => data | None => gss_ObservedData status end in
  match gss_ActiveData status with
  | Some active => if sameDataSelection observed (Some active) then observed else None
  | None => observed
  end.

Definition next_status (server : GameServer) (phase : GameServerPhase) (progress : conditionProgress)
    (endpoints : list ObservedEndpoint) (data : option RetainedDataReference) (now : Time) : GameServerStatus :=
  let status := gs_Status server in
  MkGameServerStatus (om_Generation (gs_meta server)) (gss_ActiveData status) (observed_data status data) phase
    (canonicalConditions server progress now) (canonicalEndpoints endpoints).

Definition with_server_status (server : GameServer) (status : GameServerStatus) : GameServer :=
  MkGameServer (gs_meta server) (gs_Spec server) status.

(** [r.Now] replaces the wall clock in tests. *)
Definition clock (injected : bool) : prog Time :=
  now ← call ClockNow;
  if injected then call ClockNow else Ret now.

Definition updateStatusWithData (injected : bool) (server : GameServer) (phase : GameServerPhase)
    (progress : conditionProgress) (endpoints : list ObservedEndpoint) (data : option RetainedDataReference) :
    prog (option cerror) :=
  now ← clock injected;
  let updated := next_status server phase progress endpoints data now in
  if bool_decide (gs_Status server = updated) then Ret None
  else
    e ← call (ApiUpdateStatus KGameServer (with_server_status server updated));
    Ret (match e with
         | Some _ => Some (FromGo (ErrorsNew "update GameServer status failed; inspect Kubernetes API availability"))
         | None => None
         end).
Definition updateStatus (injected : bool) (server : GameServer) (phase : GameServerPhase)
    (progress : conditionProgress) (endpoints : list ObservedEndpoint) : prog (option cerror) :=
  updateStatusWithData injected server phase progress endpoints None.

Definition failure_error (failure : reconcileFailure) : cerror := FromGo (ErrorsNew (fl_message failure)).

Definition reportFailure (injected : bool) (server : GameServer) (progress : conditionProgress)
    (failure : reconcileFailure) : prog (option cerror) :=
  statusErr ← updateStatus injected server PhaseFailed (failed_progress progress failure) [];
  Ret (if negb (fl_retry failure) then statusErr
       else match statusErr with
            | Some e => Some (JoinErrors (failure_error failure) e)
            | None => Some (failure_error failure)
            end).
End Status.
