(* ===== verification/RuntimeDrain.v ===== *)
(** * Draining the original runtime ([internal/controller/gameserver_runtime_drain.go])

    Whether anything that could write a server's retained data survives: a Pod,
    or a ReplicaSet that would create one.  Used before a server is reported
    stopped and before its Deployment is created anew. *)

From stdpp Require Import base tactics list strings gmap numbers.
From S2P Require Import Prelude GoStrings ApiTypes Operations KubeObjects KubePlan KubeApi ServerStatus.
Open Scope string_scope.
Open Scope list_scope.

Definition errRuntimeDraining : error := ErrorsNew "original game runtime is still draining".

Definition runtimeDrainFailure : reconcileFailure :=
  newReconcileFailure ConditionWorkloadReady ReasonWorkloadOperationFailed
    "runtime drain cannot be verified; inspect namespace API availability before starting or reporting stopped" true.

(** ** Which Pods block *)

Definition read_only_mounts (name : string) (c : Container) : bool :=
  forallb (fun device => device != name) (con_VolumeDevices c) &&
  forallb (fun m => (vm_Name m != name) || vm_ReadOnly m) (con_VolumeMounts c).
Definition runtimeVolumeReadOnly (spec : PodSpec) (name : string) (readOnly : bool) : bool :=
  if negb readOnly then false
  else forallb (read_only_mounts name) (pod_Containers spec) &&
       forallb (read_only_mounts name) (pod_InitContainers spec) &&
       forallb (read_only_mounts name) (pod_EphemeralContainers spec).

Definition volume_blocks (spec : PodSpec) (claims : gset string) (v : Volume) : bool :=
  match vol_Source v with
  | VolumePersistentVolumeClaim claim readOnly =>
      bool_decide (claim ∈ claims) && negb (runtimeVolumeReadOnly spec (vol_Name v) readOnly)
  | _ => false
  end.
Definition runtimePodBlocksDrain (labels : StringMap) (spec : PodSpec) (name : string) (claims : gset string) : bool :=
  if (mget labels LabelManagedBy == ManagerName) && (mget labels LabelName == "game-server") &&
     (mget labels LabelInstance == name)
  then true
  else existsb (volume_blocks spec claims) (pod_Volumes spec).

(** ** The claims of a server *)

Definition selections (server : GameServer) : list RetainedDataReference :=
  omap id [gss_ActiveData (gs_Status server); gss_ObservedData (gs_Status server);
           st_Reattach (gs_Storage (gs_Spec server))].
Definition known_identities (server : GameServer) : gset string :=
  match DataIdentity (server_UID server) with Ok i => {[i]} | Err _ => ∅ end ∪
  list_to_set (rdr_Identity <$> selections server).
Definition selected_claims (server : GameServer) : gset string :=
  list_to_set (claim_name <$> concat (rdr_Claims <$> selections server)).
Definition volume_claims (volumes : list Volume) : gset string :=
  list_to_set (omap (fun v => match vol_Source v with
                              | VolumePersistentVolumeClaim name _ => Some name
                              | _ => None
                              end) volumes).
Definition labelled_claims (server : GameServer) (retained : list PersistentVolumeClaim) : gset string :=
  list_to_set (omap (fun c =>
    let identity := mget (om_Labels (pvc_meta c)) LabelDataIdentity in
    if (identity != "") && bool_decide (identity ∈ known_identities server)
    then Some (om_Name (pvc_meta c)) else None) retained).

Definition retained_labels (server : GameServer) : StringMap :=
  <[LabelManagedBy := ManagerName]> (<[LabelInstance := server_Name server]> (<[LabelDataPolicy := "retain"]> ∅)).

(** [list.Continue != "" || (list.RemainingItemCount != nil && ... != 0)] *)
Definition incomplete {A} (l : object_list A) : bool :=
  (list_Continue l != "") || match RemainingItemCount l with Some n => n != 0%Z | None => false end.

Section Drain.
(** [runtimeReader()] *)
Variable reader : Reader.

Definition list_in {A} (k : kind A) (server : GameServer) (labels : StringMap) : prog (apierr + object_list A) :=
  call (ApiList k reader (Some (server_Namespace server)) labels).

Definition wrap_api (m : string) (e : apierr) : cerror := WrapError m (FromApi e).

Definition runtimePodsRemain (server : GameServer) (volumes : list Volume) : prog (cerror + bool) :=
  let claims := selected_claims server ∪ volume_claims volumes in
  retained ← list_in KPersistentVolumeClaim server (retained_labels server);
  match retained with
  | inl e => Ret (inl (wrap_api "observe original retained claims while draining: %w" e))
  | inr retained =>
      let claims := claims ∪ labelled_claims server (Items retained) in
      if incomplete retained then Ret (inl (FromGo (ErrorsNew "retained claim drain observation was incomplete")))
      else
        replicaSets ← list_in KReplicaSet server ∅;
        match replicaSets with
        | inl e => Ret (inl (wrap_api "observe namespace ReplicaSets while draining: %w" e))
        | inr replicaSets =>
            if incomplete replicaSets then Ret (inl (FromGo (ErrorsNew "ReplicaSet drain observation was incomplete")))
            else if existsb (fun s => runtimePodBlocksDrain (rset_TemplateLabels s) (rset_TemplateSpec s)
                                        (server_Name server) claims) (Items replicaSets)
            then Ret (inr true)
            else
              pods ← list_in KPod server ∅;
              Ret (match pods with
                   | inl e => inl (wrap_api "observe namespace Pods while draining: %w" e)
                   | inr pods =>
                       if incomplete pods then inl (FromGo (ErrorsNew "Pod drain observation was incomplete"))
                       else inr (existsb (fun p => runtimePodBlocksDrain (om_Labels (pod_meta p)) (pod_Spec p)
                                                     (server_Name server) claims) (Items pods))
                   end)
        end
  end.
End Drain.
