(* ===== verification/ServerController.v ===== *)
(** * The game server controller ([internal/controller/gameserver_controller.go])

    [GameServerReconciler], call for call: the runtime is removed first when
    the server is to stop, then its plan is built, its data fence is read, its
    retained claims are checked and converged, and only then are configuration,
    workload and player Service created.  With the cold-backup markers of
    [cold_backup_marker.go] that a start clears. *)

From Stdlib Require Import Ascii.
From stdpp Require Import base tactics list strings gmap numbers.
From S2P Require Import Prelude GoStrings GoJson GoNet GoNetip K8s ApiTypes Operations GameDefinition KubeObjects KubePlan KubeApi WorkerInput OperationDigest KubeDestroy WorkerPods OperationFence ServerStatus RuntimeDrain.
Open Scope string_scope.
Open Scope list_scope.

Definition backupRequeue : Z := second.

Record GameServerReconciler := MkServerReconciler {
  sr_has_APIReader : bool;
  sr_Catalog : option Catalog;
  sr_has_Now : bool;
  (* the script embedded in the binary, for [platformkube.Build] *)
  sr_materializeConfigurationScript : string }.

(** [types.NamespacedName.String()] *)
Definition key_text (k : NamespacedName) : string := key_Namespace k +:+ "/" +:+ key_Name k.
Definition key_of (m : ObjectMeta) : NamespacedName := Key (om_Namespace m) (om_Name m).

Definition runtime_panic (m : string) : cerror := FromGo (ErrorsNew ("panic: " +:+ m)).

(** [errors.Is] against one of the sentinels. *)
Fixpoint errors_Is (e : cerror) (target : error) : bool :=
  match e with
  | FromApi _ => false
  | FromGo e => e == target
  | WrapError _ e => errors_Is e target
  | JoinErrors e e' => errors_Is e target || errors_Is e' target
  end.

Definition errRetainedDataReferenceRequired : error := ErrorsNew "retained data reference required".
Definition errRetainedDataMissing : error := ErrorsNew "retained data missing".
Definition errRetainedDataConflict : error := ErrorsNew "retained data conflict".
Definition errDataClaimCollision : error := ErrorsNew "data claim collision".

(** ** Ownership *)

(** [metav1.GetControllerOf] *)
Definition GetControllerOf (m : ObjectMeta) : option OwnerReference :=
  find (fun r => own_Controller r == Some true) (om_OwnerReferences m).
Definition requireControlledBy (m : ObjectMeta) (wanted : OwnerReference) : result unit :=
  match GetControllerOf m with
  | None => fail "existing resource has no controller owner"
  | Some r =>
      if (own_APIVersion r != own_APIVersion wanted) || (own_Kind r != own_Kind wanted) ||
         (own_Name r != own_Name wanted) || (own_UID r != own_UID wanted)
      then fail "existing resource is controlled by a different owner"
      else Ok tt
  end.
Definition wanted_owner (server : GameServer) : OwnerReference :=
  MkOwnerReference GroupVersion "GameServer" (server_Name server) (server_UID server) None None.

(** ** Failures *)

Definition retainedDataFailure (reason message : string) : reconcileFailure :=
  newReconcileFailure ConditionStorageReady reason message true.
Definition collisionFailure (conditionType kind : string) (key : NamespacedName) (action : string) : reconcileFailure :=
  newReconcileFailure conditionType ReasonResourceCollision
    (kind +:+ " " +:+ key_text key +:+ " conflicts with this GameServer; " +:+ action) true.

Definition setRuntimeStopping (p : conditionProgress) : conditionProgress :=
  let p := set p ConditionConfigurationReady ConditionFalse ReasonRuntimeStopping
             "the disposable configuration is being removed; retained data is untouched" in
  let p := set p ConditionWorkloadReady ConditionFalse ReasonRuntimeStopping
             "the singleton game workload is being removed; retained data is untouched" in
  let p := set p ConditionNetworkReady ConditionFalse ReasonRuntimeStopping
             "player networking is being removed; retained data is untouched" in
  set p ConditionReady ConditionFalse ReasonRuntimeStopping
    "waiting for disposable runtime resources to terminate; persistent data is retained".
Definition setRuntimeStopped (p : conditionProgress) : conditionProgress :=
  let p := set p ConditionConfigurationReady ConditionFalse ReasonRuntimeStopped
             "disposable configuration is absent because the game server is stopped" in
  let p := set p ConditionWorkloadReady ConditionFalse ReasonRuntimeStopped
             "the game workload is absent because the game server is stopped" in
  set p ConditionNetworkReady ConditionFalse ReasonRuntimeStopped
    "player networking is absent because the game server is stopped".

Definition validationFailureMessage (e : PlanError) : string :=
  match e with
  | OtherError _ => "the GameServer plan is invalid; inspect the installed game adapter and controller configuration"
  | ValidationError category _ =>
      match category with
      | ValidationIdentity => "the GameServer identity is invalid; correct its name, namespace, or Kubernetes identity"
      | ValidationGame => "the selected game adapter is invalid or incompatible; choose a supported installed adapter"
      | ValidationImage => "imageDigest is invalid; supply an immutable sha256 image digest"
      | ValidationDesiredState => "desiredState is invalid; choose Running or Stopped"
      | ValidationCompute =>
          "compute is invalid; use positive requests and limits with each request no greater than its limit"
      | ValidationStorage => "storage is invalid; use a positive size and a valid storageClassName"
      | ValidationSettings =>
          "settings are invalid; correct them to match the selected game adapter schema and rendering limits"
      end
  end.

(** ** Retained claims *)

Definition quantity (q : option Quantity) : Quantity := default 0%Z q.
Definition claim_key (claim : DataClaimPlan) : NamespacedName := key_of (pvc_meta (Desired claim)).
Definition claim_label (c : PersistentVolumeClaim) (k : string) : string := mget (om_Labels (pvc_meta c)) k.

Definition storageClassCompatible (existing desired : option string) (exact : bool) : bool :=
  match desired with
  | None => negb exact || (existing == None)
  | Some d => existing == Some d
  end.

Definition identity_labels : list string :=
  [LabelManagedBy; LabelName; LabelInstance; LabelGame; LabelDataPolicy; LabelDataPath].

Definition validateExistingDataClaimBase (existing : PersistentVolumeClaim) (claim : DataClaimPlan) : result unit :=
  let desired := Desired claim in
  if deleting (pvc_meta existing) then fail "retained claim is terminating"
  else if len (om_OwnerReferences (pvc_meta existing)) != 0%Z
  then fail "retained claims must not have owner references"
  else
    _ ← for_each (fun label => if claim_label existing label != claim_label desired label
                               then failf "identity label %q does not match" [label] else Ok tt) identity_labels;
    if negb (storageClassCompatible (pvc_StorageClassName existing) (pvc_StorageClassName desired)
               (ExternallySelected claim))
    then fail "storage class does not match"
    else if pvc_AccessModes existing != pvc_AccessModes desired then fail "access modes do not match"
    else if ExternallySelected claim && (quantity (pvc_StorageRequest existing) <? quantity (pvc_StorageRequest desired))%Z
    then fail "referenced claim is smaller than requested"
    else Ok tt.

Definition validateExistingDataClaim (existing : PersistentVolumeClaim) (claim : DataClaimPlan) : result unit :=
  if (RequiredUID claim != "") && (om_UID (pvc_meta existing) != RequiredUID claim)
  then fail "claim UID does not match exact reference"
  else
    _ ← validateExistingDataClaimBase existing claim;
    if claim_label existing LabelDataIdentity != claim_label (Desired claim) LabelDataIdentity
    then failf "identity label %q does not match" [LabelDataIdentity] else Ok tt.

(** A claim under the generated name that belongs to another data identity. *)
Definition foreign_identity (existing : PersistentVolumeClaim) (claim : DataClaimPlan) : bool :=
  (RequiredUID claim == "") && (claim_label existing LabelDataIdentity != claim_label (Desired claim) LabelDataIdentity).

Definition with_storage_request (c : PersistentVolumeClaim) (q : Quantity) : PersistentVolumeClaim :=
  MkPVC (pvc_TypeMeta c) (pvc_meta c) (pvc_AccessModes c) (pvc_StorageClassName c) (Some q) (pvc_VolumeName c)
    (pvc_Phase c) (pvc_Capacity c).
Definition without_cold_marker (c : PersistentVolumeClaim) : PersistentVolumeClaim :=
  let m := pvc_meta c in
  MkPVC (pvc_TypeMeta c)
    (MkObjectMeta (om_Name m) (om_Namespace m) (om_UID m) (om_Generation m) (om_ResourceVersion m)
       (om_CreationTimestamp m) (om_DeletionTimestamp m) (om_Finalizers m) (om_Labels m)
       (delete AnnotationColdBackupUID (om_Annotations m)) (om_OwnerReferences m))
    (pvc_AccessModes c) (pvc_StorageClassName c) (pvc_StorageRequest c) (pvc_VolumeName c) (pvc_Phase c)
    (pvc_Capacity c).

Record storageObservation := MkObservation {
  so_ready : bool;
  so_status : ConditionStatus;
  so_reason : string;
  so_message : string;
  so_data : option RetainedDataReference }.

(** ** Configuration *)

Definition configurationMatches (existing desired : ConfigMap) : bool :=
  (om_Labels (cm_meta existing) == om_Labels (cm_meta desired)) &&
  (om_Annotations (cm_meta existing) == om_Annotations (cm_meta desired)) &&
  (om_OwnerReferences (cm_meta existing) == om_OwnerReferences (cm_meta desired)) &&
  (cm_Data existing == cm_Data desired) && (cm_BinaryData existing == cm_BinaryData desired) &&
  (cm_Immutable existing == cm_Immutable desired).
Definition updated_configuration (existing desired : ConfigMap) : ConfigMap :=
  let m := cm_meta existing in
  MkConfigMap (cm_TypeMeta existing)
    (MkObjectMeta (om_Name m) (om_Namespace m) (om_UID m) (om_Generation m) (om_ResourceVersion m)
       (om_CreationTimestamp m) (om_DeletionTimestamp m) (om_Finalizers m) (om_Labels (cm_meta desired))
       (om_Annotations (cm_meta desired)) (om_OwnerReferences (cm_meta desired)))
    (cm_BinaryData desired) (cm_Data desired) (cm_Immutable desired).

(** ** Observations of the runtime *)

Definition deletionNotRequested (m : ObjectMeta) : bool := om_DeletionTimestamp m == None.

Definition workloadAvailable (d : Deployment) : bool :=
  let s := dep_Status d in
  deletionNotRequested (dep_meta d) && (dep_Replicas d == Some 1%Z) &&
  (om_Generation (dep_meta d) <=? dps_ObservedGeneration s)%Z && (dps_Replicas s == 1%Z) &&
  (dps_UpdatedReplicas s == 1%Z) && (dps_ReadyReplicas s == 1%Z) && (dps_AvailableReplicas s == 1%Z) &&
  (dps_UnavailableReplicas s == 0%Z).

Fixpoint first_terminal (l : list DeploymentCondition) : string :=
  match l with
  | [] => ""
  | c :: r =>
      if (dc_Type c == "Progressing") && (dc_Status c == ConditionFalse) && (dc_Reason c == "ProgressDeadlineExceeded")
      then "exceeded its progress deadline; inspect Pod status, workload events, and image availability"
      else if (dc_Type c == "ReplicaFailure") && (dc_Status c == ConditionTrue)
      then "cannot create or run its replica; inspect Pod status, workload events, quotas, and policy"
      else first_terminal r
  end.
Definition terminalWorkloadFailure (d : Deployment) : string :=
  if (dps_ObservedGeneration (dep_Status d) <? om_Generation (dep_meta d))%Z then ""
  else first_terminal (dps_Conditions (dep_Status d)).

(** One desired port of [ingressSupportsPorts]: exactly one published status
    for it, without an error before it is counted. *)
Definition port_published (desired : ServicePort) (observed : list PortStatus) : bool :=
  let mine := List.filter (fun p => (ps_Port p == sp_Port desired) && (ps_Protocol p == sp_Protocol desired)) observed in
  forallb (fun p => ps_Error p == None) mine && (length mine =? 1)%nat.
Definition ingressSupportsPorts (ingress : LoadBalancerIngress) (desiredPorts : list ServicePort) : bool :=
  if len (ing_Ports ingress) == 0%Z then true
  else forallb (fun d => port_published d (ing_Ports ingress)) desiredPorts.

Section Endpoints.
Context `{NameValidation}.

Definition ingress_address (ingress : LoadBalancerIngress) : option string :=
  match ParseAddr (TrimSpace (ing_IP ingress)) with
  | Some parsed =>
      if (TrimSpace (ing_IP ingress) == ing_IP ingress) && IsGlobalUnicast parsed
      then Some (Addr_String (Unmap parsed)) else None
  | None => None
  end.
Definition ingress_hostname (ingress : LoadBalancerIngress) : option string :=
  let hostname := ToLower (TrimSpace (ing_Hostname ingress)) in
  if (hostname != "") && (hostname == ing_Hostname ingress) && is_subdomain hostname then Some hostname else None.

(** The first key of a set in sorted order. *)
Definition first_sorted (l : list string) : option string := head (sort_by id l).

Definition observedLoadBalancerAddress (ingresses : list LoadBalancerIngress) (desiredPorts : list ServicePort) :
    string :=
  let usable := List.filter (fun i => ingressSupportsPorts i desiredPorts) ingresses in
  match first_sorted (omap ingress_address usable) with
  | Some ip => ip
  | None => default "" (first_sorted (omap ingress_hostname usable))
  end.

(** [actualPorts[port.Name]]: the last port of that name wins. *)
Definition actual_port (ports : list ServicePort) (name : string) : option ServicePort :=
  fold_left (fun found p => if sp_Name p == name then Some p else found) ports None.
Definition endpoint_of (address : string) (ports : list ServicePort) (port : ServicePort) : option ObservedEndpoint :=
  match actual_port ports (sp_Name port) with
  | None => None
  | Some observed =>
      if (sp_Protocol observed != sp_Protocol port) || (sp_Port observed != sp_Port port) ||
         (sp_TargetPort observed != sp_TargetPort port)
      then None
      else Some (MkObservedEndpoint (sp_Name port) (sp_Protocol port) address (sp_Port port))
  end.

Definition observedEndpoints (actual desired : Service) : list ObservedEndpoint :=
  if negb (deletionNotRequested (svc_meta actual)) then []
  else
    let desiredPorts := sort_by sp_Name (svc_Ports desired) in
    let address := observedLoadBalancerAddress (svc_Ingress actual) desiredPorts in
    if (len desiredPorts == 0%Z) || (address == "") then []
    else default [] (mapM (endpoint_of address (svc_Ports actual)) desiredPorts).
End Endpoints.

(** ** The reconciler's calls *)

Section Controller.
Context `{RegexpEngine} `{NameValidation} `{JsonSchema} `{QuantityText} `{FindConditions}.
Variable r : GameServerReconciler.

(** [reader := r.APIReader; if reader == nil { reader = r.Client }] *)
Definition runtimeReader : Reader := if sr_has_APIReader r then UncachedReader else CachedReader.
Definition report (server : GameServer) (progress : conditionProgress) (failure : reconcileFailure) : prog outcome :=
  e ← reportFailure (sr_has_Now r) server progress failure; Ret (no_requeue, e).

(** *** The fence *)

(** A Lease of a backup or restore that settles exactly this runtime. *)
Definition restore_settles (server : GameServer) (dataIdentity : string) (lease : Lease) (holder : string) : bool :=
  let operation := MkRef None (lease_annotation lease AnnotationRestoreName) holder in
  RestoreOperationLeaseMatches (Some lease) operation (server_Name server) dataIdentity &&
  (lease_annotation lease AnnotationRestoreSettlementData == dataIdentity) &&
  (lease_annotation lease AnnotationRuntimeSettlementState == DesiredState_string (gs_DesiredState (gs_Spec server))) &&
  (lease_annotation lease AnnotationRuntimeSettlementGeneration == FormatInt (gs_Generation server)).
Definition backup_settles (server : GameServer) (lease : Lease) (holder : string) : bool :=
  let operation := MkRef None (lease_annotation lease AnnotationBackupName) holder in
  (gs_DesiredState (gs_Spec server) == DesiredStateRunning) &&
  BackupOperationLeaseMatches (Some lease) operation (server_Name server) &&
  (lease_label lease LabelInstance == server_Name server) && (lease_label lease LabelBackupUID == holder) &&
  (lease_annotation lease AnnotationRuntimeSettlementState == DesiredState_string DesiredStateRunning) &&
  (lease_annotation lease AnnotationRuntimeSettlementGeneration == FormatInt (gs_Generation server)).

Definition fence_failure : reconcileFailure :=
  newReconcileFailure ConditionWorkloadReady ReasonWorkloadOperationFailed
    "the retained-data operation fence could not be inspected; inspect Kubernetes API availability" true.

Definition dataOperationLocked (server : GameServer) (dataIdentity : string) : prog (reconcileFailure + bool) :=
  lease ← call (ApiGet KLease runtimeReader (Key (server_Namespace server) (DataOperationLeaseName dataIdentity)));
  match lease with
  | inl NotFound => Ret (inr false)
  | inl _ => Ret (inl fence_failure)
  | inr lease =>
      let holder := default "" (ls_HolderIdentity lease) in
      if (lease_label lease LabelManagedBy != ManagerName) || (lease_label lease LabelDataIdentity != dataIdentity) ||
         (holder == "")
      then Ret (inr true)
      else if lease_label lease operationReceiptUIDLabel != ""
      then allowed ← receiptRuntimeAllowed runtimeReader server lease; Ret (inr (negb allowed))
      else if lease_label lease LabelRestoreUID != ""
      then Ret (inr (negb (restore_settles server dataIdentity lease holder)))
      else Ret (inr (negb (backup_settles server lease holder)))
  end.

(** *** Storage *)

Definition claim_inspect_failure (key : NamespacedName) (what : string) : reconcileFailure :=
  newReconcileFailure ConditionStorageReady ReasonStorageOperationFailed
    ("PersistentVolumeClaim " +:+ key_text key +:+ what) true.

Definition preflight_claim (claim : DataClaimPlan) : prog (option reconcileFailure) :=
  let key := claim_key claim in
  existing ← call (ApiGet KPersistentVolumeClaim runtimeReader key);
  Ret (match existing with
  | inl NotFound =>
      if RequiredUID claim != ""
      then Some (retainedDataFailure ReasonRetainedDataMissing
             "a referenced retained data claim is absent; restore it or select an existing exact claim before retrying")
      else None
  | inl _ => Some (claim_inspect_failure key " could not be inspected; inspect storage events and API availability")
  | inr existing =>
      if foreign_identity existing claim then
        match validateExistingDataClaimBase existing claim with
        | Err _ => Some (collisionFailure ConditionStorageReady "PersistentVolumeClaim" key
                     "Arcadectl will not adopt or modify it; inspect ownership and identity before retrying")
        | Ok _ =>
            if claim_label existing LabelDataIdentity == ""
            then Some (retainedDataFailure ReasonRetainedDataConflict
                   "a development-era claim has no durable data identity; do not upgrade in place or relabel it automatically")
            else Some (retainedDataFailure ReasonRetainedDataReferenceRequired
                   "retained data already uses the generated claim name; inspect it and provide an exact reattach reference")
        end
      else match validateExistingDataClaim existing claim with
      | Err _ => Some (retainedDataFailure ReasonRetainedDataConflict
          "a retained data claim conflicts with the complete selected data set; inspect identity, UID, path, class, access mode, and ownership")
      | Ok _ => None
      end
  end).

(** [plannedClaims[name]]: the last plan of that name. *)
Definition planned_claim (claims : list DataClaimPlan) (name : string) : option DataClaimPlan :=
  fold_left (fun found c => if om_Name (pvc_meta (Desired c)) == name then Some c else found) claims None.
Definition unplanned (claims : list DataClaimPlan) (actual : PersistentVolumeClaim) : bool :=
  match planned_claim claims (om_Name (pvc_meta actual)) with
  | None => true
  | Some planned => (RequiredUID planned != "") && (om_UID (pvc_meta actual) != RequiredUID planned)
  end.

Definition preflightStorage (server : GameServer) (plan : Plan) : prog (option reconcileFailure) :=
  failure ← loop preflight_claim (DataClaims plan);
  match failure with
  | Some f => Ret (Some f)
  | None =>
      identityClaims ← call (ApiList KPersistentVolumeClaim runtimeReader (Some (server_Namespace server))
                               (<[LabelDataIdentity := plan_DataIdentity plan]> ∅));
      Ret (match identityClaims with
      | inl _ => Some (newReconcileFailure ConditionStorageReady ReasonStorageOperationFailed
                   "retained data identity could not be inspected; inspect cluster API availability" true)
      | inr l =>
          if existsb (unplanned (DataClaims plan)) (Items l)
          then Some (retainedDataFailure ReasonRetainedDataConflict
                 "the selected retained data identity is ambiguous; resolve extra or duplicate claims before retrying")
          else if plan_Reattach plan && (len (Items l) != len (DataClaims plan))
          then Some (retainedDataFailure ReasonRetainedDataConflict
                 "the selected retained data identity is incomplete or ambiguous; verify every adapter path and exact claim reference")
          else None
      end)
  end.

(** [if err != nil { return fmt.Errorf(m, err) }; return nil] *)
Definition wrap_error (m : string) (e : option apierr) : option cerror :=
  match e with Some e => Some (WrapError m (FromApi e)) | None => None end.

Definition reconcileDataClaim (claim : DataClaimPlan) : prog (option cerror) :=
  let desired := Desired claim in
  existing ← call (ApiGet KPersistentVolumeClaim CachedReader (claim_key claim));
  match existing with
  | inl NotFound =>
      if RequiredUID claim != ""
      then Ret (Some (WrapError "%w: referenced claim disappeared before reconciliation" (FromGo errRetainedDataMissing)))
      else
        e ← call (ApiCreate KPersistentVolumeClaim desired);
        Ret (match (e : apierr + PersistentVolumeClaim) with
             | inl e => Some (WrapError "create retained data claim %s: %w" (FromApi e))
             | inr _ => None
             end)
  | inl e => Ret (Some (WrapError "get retained data claim %s: %w" (FromApi e)))
  | inr existing =>
      if foreign_identity existing claim then
        Ret (Some (match validateExistingDataClaimBase existing claim with
        | Err _ => WrapError "%w: claim %s is not a valid Arcadectl retained claim: %v" (FromGo errDataClaimCollision)
        | Ok _ =>
            if claim_label existing LabelDataIdentity == ""
            then WrapError "%w: claim %s has no durable data identity" (FromGo errRetainedDataConflict)
            else WrapError "%w: claim %s belongs to another data identity" (FromGo errRetainedDataReferenceRequired)
        end))
      else match validateExistingDataClaim existing claim with
      | Err _ => Ret (Some (WrapError "%w: refuse data claim %s: %v" (FromGo errRetainedDataConflict)))
      | Ok _ =>
          let desiredSize := quantity (pvc_StorageRequest desired) in
          if (desiredSize <=? quantity (pvc_StorageRequest existing))%Z then Ret None
          else if ExternallySelected claim
          then Ret (Some (WrapError
            "%w: referenced claim %s is smaller than requested and reattach never expands claims"
            (FromGo errRetainedDataConflict)))
          else
            e ← call (ApiUpdate KPersistentVolumeClaim (with_storage_request existing desiredSize));
            Ret (wrap_error "expand retained data claim %s: %w" e)
      end
  end.

(** The failure a failed claim is reported with. *)
Definition claim_failure (claim : DataClaimPlan) (e : cerror) : reconcileFailure :=
  let key := claim_key claim in
  let '(reason, message) :=
    if errors_Is e errRetainedDataMissing then
      (ReasonRetainedDataMissing,
       "a referenced retained data claim disappeared; restore the exact claim before retrying")
    else if errors_Is e errRetainedDataConflict then
      (ReasonRetainedDataConflict,
       "retained data changed after preflight; no workload will mount it until its exact identity is restored")
    else if errors_Is e errRetainedDataReferenceRequired then
      (ReasonRetainedDataReferenceRequired,
       "retained data appeared under the generated claim name; inspect it and provide an exact reattach reference")
    else if errors_Is e errDataClaimCollision then
      (ReasonResourceCollision, "PersistentVolumeClaim " +:+ key_text key +:+
       " is not a valid Arcadectl retained claim; Arcadectl will not adopt or modify it")
    else
      (ReasonStorageOperationFailed, "PersistentVolumeClaim " +:+ key_text key +:+
       " could not be reconciled; inspect storage events and the storage provisioner") in
  newReconcileFailure ConditionStorageReady reason message true.
Definition converge_claim (claim : DataClaimPlan) : prog (option reconcileFailure) :=
  e ← reconcileDataClaim claim; Ret (match e with Some e => Some (claim_failure claim e) | None => None end).

Definition pending (reason message : string) : storageObservation :=
  MkObservation false ConditionFalse reason message None.

(** What the loop of [observeStorage] does with a claim it read: it stops with
    a failure or an observation, or adds the claim to the selection. *)
Definition observe_claim (claim : DataClaimPlan) (actual : PersistentVolumeClaim) :
    (reconcileFailure + storageObservation) + RetainedDataClaimReference :=
  let key := claim_key claim in
  match validateExistingDataClaim actual claim with
  | Err _ => inl (inl (retainedDataFailure ReasonRetainedDataConflict
      "retained data changed after preflight; no workload will mount it until its exact identity is restored"))
  | Ok _ =>
      if pvc_Phase actual != "Bound" then
        if pvc_Phase actual == "Lost"
        then inl (inl (newReconcileFailure ConditionStorageReady ReasonStorageOperationFailed
               ("PersistentVolumeClaim " +:+ key_text key +:+
                " is lost; inspect its PersistentVolume and storage recovery procedure") false))
        else inl (inr (pending ReasonClaimsProvisioning ("PersistentVolumeClaim " +:+ key_text key +:+
               " is waiting to bind; inspect storage class and provisioner events")))
      else if om_UID (pvc_meta actual) == ""
      then inl (inl (retainedDataFailure ReasonRetainedDataConflict
             "a bound retained claim has no Kubernetes UID; no exact data identity can be reported"))
      else if pvc_VolumeName actual == ""
      then inl (inl (retainedDataFailure ReasonRetainedDataConflict
             "a bound retained claim has no backing PersistentVolume; inspect its exact storage identity"))
      else if (quantity (pvc_Capacity actual) <? quantity (pvc_StorageRequest (Desired claim)))%Z
      then inl (inr (pending ReasonClaimExpansionPending ("PersistentVolumeClaim " +:+ key_text key +:+
             " is waiting for requested capacity; inspect storage expansion events")))
      else inr (MkClaimRef (claim_label (Desired claim) LabelDataPath)
                  (MkRef None (om_Name (pvc_meta actual)) (om_UID (pvc_meta actual))))
  end.

Fixpoint observe_claims (selection : RetainedDataReference) (claims : list DataClaimPlan) :
    prog (reconcileFailure + storageObservation) :=
  match claims with
  | [] => Ret (inr (MkObservation true ConditionTrue ReasonClaimsReady
            "all retained data claims are bound at their requested capacity" (Some selection)))
  | claim :: rest =>
      actual ← call (ApiGet KPersistentVolumeClaim runtimeReader (claim_key claim));
      match actual with
      | inl _ => Ret (inl (claim_inspect_failure (claim_key claim)
                   " could not be observed; inspect storage events and API availability"))
      | inr actual =>
          match observe_claim claim actual with
          | inl stop => Ret stop
          | inr reference =>
              let identity := if rdr_Identity selection == "" then claim_label (Desired claim) LabelDataIdentity
                              else rdr_Identity selection in
              observe_claims (MkDataRef identity (rdr_Claims selection ++ [reference])) rest
          end
      end
  end.
Definition observeStorage (claims : list DataClaimPlan) : prog (reconcileFailure + storageObservation) :=
  observe_claims (MkDataRef "" []) claims.

(** *** Cold-backup markers *)

Definition clear_marker (server : GameServer) (planned : DataClaimPlan) : prog (option cerror) :=
  claim ← call (ApiGet KPersistentVolumeClaim runtimeReader
            (Key (server_Namespace server) (om_Name (pvc_meta (Desired planned)))));
  match claim with
  | inl NotFound => Ret (if RequiredUID planned == "" then None else Some (go_error "selected world claim is unavailable"))
  | inl _ => Ret (Some (go_error "selected world claim is unavailable"))
  | inr claim =>
      if mget (om_Annotations (pvc_meta claim)) AnnotationColdBackupUID == "" then Ret None
      else if (om_UID (pvc_meta claim) == "") || deleting (pvc_meta claim) ||
              negb (is_ok (validateExistingDataClaim claim planned))
      then Ret (Some (go_error "selected world claim changed before runtime activation"))
      else
        e ← call (ApiMergePatch KPersistentVolumeClaim claim (without_cold_marker claim));
        Ret (match e with
             | Some _ => Some (go_error "invalidate prior cold backup marker failed; runtime remains blocked")
             | None => None
             end)
  end.
Definition clearColdBackupMarkers (server : GameServer) (claims : list DataClaimPlan) : prog (option cerror) :=
  if len claims == 0%Z then Ret (Some (go_error "selected world identity is unavailable"))
  else loop (clear_marker server) claims.

(** *** The disposable runtime *)

Definition runtime_key (server : GameServer) (suffix : string) : NamespacedName :=
  Key (server_Namespace server) (server_Name server +:+ suffix).

Definition preflight_resource {A} (server : GameServer) (k : kind A) (suffix kind conditionType reason : string) :
    prog (option reconcileFailure) :=
  let key := runtime_key server suffix in
  object ← call (ApiGet k CachedReader key);
  Ret (match object with
  | inl NotFound => None
  | inl _ => Some (newReconcileFailure conditionType reason
               (kind +:+ " " +:+ key_text key +:+ " could not be inspected; inspect cluster API availability") true)
  | inr object =>
      match requireControlledBy (object_meta k object) (wanted_owner server) with
      | Ok _ => None
      | Err _ => Some (collisionFailure conditionType kind key
          "Arcadectl will not adopt or delete it; inspect ownership and rename the GameServer or deliberately resolve the conflict")
      end
  end).
Definition or_else {A} (p q : prog (option A)) : prog (option A) :=
  x ← p; match x with Some a => Ret (Some a) | None => q end.
Definition preflightRuntime (server : GameServer) : prog (option reconcileFailure) :=
  or_else (preflight_resource server KConfigMap "-configuration" "ConfigMap" ConditionConfigurationReady
             ReasonConfigurationOperationFailed)
  (or_else (preflight_resource server KDeployment "" "Deployment" ConditionWorkloadReady ReasonWorkloadOperationFailed)
     (preflight_resource server KService "" "Service" ConditionNetworkReady ReasonNetworkOperationFailed)).

(** One iteration of [deleteControlledRuntime]: the object that was deleted. *)
Definition delete_resource {A} (server : GameServer) (k : kind A) (suffix kind conditionType reason : string)
    (propagation : option string) : prog (reconcileFailure + option A) :=
  let key := runtime_key server suffix in
  object ← call (ApiGet k runtimeReader key);
  match object with
  | inl NotFound => Ret (inr None)
  | inl _ => Ret (inl (newReconcileFailure conditionType reason
      (kind +:+ " " +:+ key_text key +:+ " could not be observed while stopping; inspect cluster API availability") true))
  | inr object =>
      let m := object_meta k object in
      match requireControlledBy m (wanted_owner server) with
      | Err _ => Ret (inl (collisionFailure conditionType kind key
          "Arcadectl will not adopt or delete it; inspect ownership and deliberately resolve the conflict"))
      | Ok _ =>
          e ← call (ApiDelete k object (MkDeleteOptions (Some (om_UID m)) (Some (om_ResourceVersion m)) propagation));
          Ret (match e with
          | None | Some NotFound => inr (Some object)
          | Some _ => inl (newReconcileFailure conditionType reason
              (kind +:+ " " +:+ key_text key +:+ " could not be removed while stopping; inspect cluster API events") true)
          end)
      end
  end.

Definition deleteControlledRuntime (server : GameServer) : prog (reconcileFailure + bool) :=
  deployment ← delete_resource server KDeployment "" "Deployment" ConditionWorkloadReady ReasonWorkloadOperationFailed
                 (Some "Foreground");
  match deployment with
  | inl f => Ret (inl f)
  | inr deployment =>
      configuration ← delete_resource server KConfigMap "-configuration" "ConfigMap" ConditionConfigurationReady
                        ReasonConfigurationOperationFailed None;
      match configuration with
      | inl f => Ret (inl f)
      | inr configuration =>
          service ← delete_resource server KService "" "Service" ConditionNetworkReady ReasonNetworkOperationFailed None;
          match service with
          | inl f => Ret (inl f)
          | inr service =>
              let stopping := present deployment || present configuration || present service in
              let volumes := match deployment with Some d => pod_Volumes (dep_PodSpec d) | None => [] end in
              remain ← runtimePodsRemain runtimeReader server volumes;
              Ret (match remain with
                   | inl _ => inl runtimeDrainFailure
                   | inr podsRemain => inr (stopping || podsRemain)
                   end)
          end
      end
  end.

Definition index_panic : cerror := runtime_panic "runtime error: index out of range [0] with length 0".
(** [requireControlledBy(object, desired.OwnerReferences[0])] *)
Definition require_owner (m desired : ObjectMeta) : option cerror :=
  match om_OwnerReferences desired with
  | [] => Some index_panic
  | owner :: _ => match requireControlledBy m owner with Ok _ => None | Err e => Some (FromGo e) end
  end.

Definition runtimeReplacementDraining (server : GameServer) (desired : Deployment) : prog (cerror + bool) :=
  existing ← call (ApiGet KDeployment runtimeReader (key_of (dep_meta desired)));
  match existing with
  | inl NotFound => runtimePodsRemain runtimeReader server (pod_Volumes (dep_PodSpec desired))
  | inl e => Ret (inl (WrapError "observe original game Deployment: %w" (FromApi e)))
  | inr existing =>
      Ret (match require_owner (dep_meta existing) (dep_meta desired) with
           | Some e => inl e
           | None => inr (deleting (dep_meta existing))
           end)
  end.

Definition reconcileConfigMap (desired : ConfigMap) : prog (option cerror) :=
  existing ← call (ApiGet KConfigMap CachedReader (key_of (cm_meta desired)));
  match existing with
  | inl NotFound =>
      e ← call (ApiCreate KConfigMap desired);
      Ret (match (e : apierr + ConfigMap) with
           | inl e => Some (WrapError "create game configuration %s: %w" (FromApi e))
           | inr _ => None
           end)
  | inl e => Ret (Some (WrapError "get game configuration %s: %w" (FromApi e)))
  | inr existing =>
      match require_owner (cm_meta existing) (cm_meta desired) with
      | Some e => Ret (Some (WrapError "refuse game configuration %s: %w" e))
      | None =>
          if configurationMatches existing desired then Ret None
          else
            e ← call (ApiUpdate KConfigMap (updated_configuration existing desired));
            Ret (wrap_error "update game configuration %s: %w" e)
      end
  end.

Definition with_dep_identity (d : Deployment) (uid rv : string) : Deployment :=
  let m := dep_meta d in
  MkDeployment (dep_TypeMeta d)
    (MkObjectMeta (om_Name m) (om_Namespace m) uid (om_Generation m) rv (om_CreationTimestamp m)
       (om_DeletionTimestamp m) (om_Finalizers m) (om_Labels m) (om_Annotations m) (om_OwnerReferences m))
    (dep_Replicas d) (dep_Strategy d) (dep_Selector d) (dep_TemplateLabels d) (dep_TemplateAnnotations d)
    (dep_PodSpec d) (dep_Status d).

(** The Deployment read back after [Apply]: it is still the one that was
    observed, controlled by the server, and at the applied generation. *)
Definition applied_workload (desired existing updated actual : Deployment) : cerror + Deployment :=
  let uid d := om_UID (dep_meta d) in
  if (uid existing == "") || (uid updated != uid existing) || (uid actual != uid existing)
  then inl (go_error "applied game workload %s changed identity")
  else match require_owner (dep_meta actual) (dep_meta desired) with
  | Some e => inl (WrapError "refuse applied game workload %s: %w" e)
  | None =>
      if deleting (dep_meta actual) then inl (FromGo errRuntimeDraining)
      else if (om_Generation (dep_meta updated) <=? 0)%Z ||
              (om_Generation (dep_meta actual) != om_Generation (dep_meta updated))
      then inl (go_error "applied game workload %s changed generation")
      else inr actual
  end.

Definition create_workload (server : GameServer) (desired : Deployment) : prog (cerror + Deployment) :=
  draining ← runtimePodsRemain runtimeReader server (pod_Volumes (dep_PodSpec desired));
  match draining with
  | inl e => Ret (inl e)
  | inr true => Ret (inl (FromGo errRuntimeDraining))
  | inr false =>
      created ← call (ApiCreate KDeployment desired);
      Ret (match (created : apierr + Deployment) with
           | inl e => inl (WrapError "create game workload %s: %w" (FromApi e))
           | inr created => inr created
           end)
  end.

Definition reconcileDeployment (server : GameServer) (desired : Deployment) : prog (cerror + Deployment) :=
  let key := key_of (dep_meta desired) in
  existing ← call (ApiGet KDeployment runtimeReader key);
  match existing with
  | inl NotFound => create_workload server desired
  | inl e => Ret (inl (WrapError "get game workload %s: %w" (FromApi e)))
  | inr existing =>
      match require_owner (dep_meta existing) (dep_meta desired) with
      | Some e => Ret (inl (WrapError "refuse game workload %s: %w" e))
      | None =>
          if deleting (dep_meta existing) then Ret (inl (FromGo errRuntimeDraining))
          else
            updated ← call (ApiApply KDeployment
              (with_dep_identity desired (om_UID (dep_meta existing)) (om_ResourceVersion (dep_meta existing))));
            match (updated : apierr + Deployment) with
            | inl e => Ret (inl (WrapError "apply game workload %s: %w" (FromApi e)))
            | inr updated =>
                actual ← call (ApiGet KDeployment runtimeReader key);
                Ret (match actual with
                     | inl e => inl (WrapError "read applied game workload %s: %w" (FromApi e))
                     | inr actual => applied_workload desired existing updated actual
                     end)
            end
      end
  end.

Definition reconcileService (desired : Service) : prog (cerror + Service) :=
  let key := key_of (svc_meta desired) in
  existing ← call (ApiGet KService CachedReader key);
  match existing with
  | inl NotFound =>
      created ← call (ApiCreate KService desired);
      Ret (match (created : apierr + Service) with
           | inl e => inl (WrapError "create player service %s: %w" (FromApi e))
           | inr created => inr created
           end)
  | inl e => Ret (inl (WrapError "get player service %s: %w" (FromApi e)))
  | inr existing =>
      match require_owner (svc_meta existing) (svc_meta desired) with
      | Some e => Ret (inl (WrapError "refuse player service %s: %w" e))
      | None =>
          updated ← call (ApiApply KService desired);
          match (updated : apierr + Service) with
          | inl e => Ret (inl (WrapError "apply player service %s: %w" (FromApi e)))
          | inr _ =>
              actual ← call (ApiGet KService CachedReader key);
              Ret (match actual with
                   | inl e => inl (WrapError "read applied player service %s: %w" (FromApi e))
                   | inr actual => inr actual
                   end)
          end
      end
  end.

(** ** The phases of a pass *)

Definition operation_failure (conditionType reason kind : string) (m : ObjectMeta) (text : string) : reconcileFailure :=
  newReconcileFailure conditionType reason (kind +:+ " " +:+ key_text (key_of m) +:+ text) true.

(** *** Start: the last phase of a running server *)

(** What a pass that applied everything reports. *)
Definition ready_report (storage : storageObservation) (available networkReady : bool) :
    GameServerPhase * string * string :=
  if negb (so_ready storage)
  then (PhasePending, ReasonStoragePending, "waiting for retained storage to become available")
  else if available && negb networkReady
  then (PhaseStarting, ReasonPlayerEndpointPending,
        "waiting for the player Service to publish a certified reachable endpoint")
  else (PhaseStarting, ReasonWorkloadPending, "waiting for the current singleton workload and certified player endpoint").

Definition publish (server : GameServer) (progress : conditionProgress) (storage : storageObservation)
    (desired : Service) (available : bool) : prog outcome :=
  service ← reconcileService desired;
  match service with
  | inl _ => report server progress (operation_failure ConditionNetworkReady ReasonNetworkOperationFailed "Service"
      (svc_meta desired) " could not be reconciled; inspect load-balancer events and provider configuration")
  | inr service =>
      let endpoints := observedEndpoints service desired in
      let networkReady := (len endpoints >? 0)%Z in
      let progress :=
        if networkReady
        then set progress ConditionNetworkReady ConditionTrue ReasonPlayerEndpointReady
               "the player Service published a certified reachable endpoint"
        else set progress ConditionNetworkReady ConditionFalse ReasonPlayerEndpointPending
               "waiting for the player Service to publish a certified reachable endpoint" in
      if so_ready storage && available && networkReady then
        let progress := set progress ConditionReady ConditionTrue ReasonReady
          "the current game workload and certified player endpoint are ready" in
        e ← updateStatusWithData (sr_has_Now r) server PhaseReady progress endpoints (so_data storage);
        Ret (no_requeue, e)
      else
        let '(phase, reason, message) := ready_report storage available networkReady in
        let progress := set progress ConditionReady ConditionFalse reason message in
        e ← updateStatus (sr_has_Now r) server phase progress [];
        Ret (no_requeue, e)
  end.

Definition stopping_status (server : GameServer) (progress : conditionProgress) : prog outcome :=
  e ← updateStatus (sr_has_Now r) server PhaseStopping (setRuntimeStopping progress) [];
  Ret (requeue_after second, e).

Definition run_workload (server : GameServer) (progress : conditionProgress) (storage : storageObservation)
    (workload : Deployment) (service : Service) : prog outcome :=
  deployment ← reconcileDeployment server workload;
  match deployment with
  | inl e =>
      if errors_Is e errRuntimeDraining then stopping_status server progress
      else report server progress (operation_failure ConditionWorkloadReady ReasonWorkloadOperationFailed "Deployment"
             (dep_meta workload) " could not be reconciled; inspect workload events and image availability")
  | inr deployment =>
      let available := workloadAvailable deployment in
      let failureMessage := terminalWorkloadFailure deployment in
      if failureMessage != "" then
        report server progress (newReconcileFailure ConditionWorkloadReady ReasonWorkloadUnavailable
          ("Deployment " +:+ key_text (key_of (dep_meta deployment)) +:+ " " +:+ failureMessage) false)
      else
        let progress :=
          if available
          then set progress ConditionWorkloadReady ConditionTrue ReasonWorkloadAvailable
                 "the current singleton game workload is observed available"
          else set progress ConditionWorkloadReady ConditionFalse ReasonWorkloadProgressing
                 "waiting for the current singleton game workload to become available" in
        publish server progress storage service available
  end.

Definition marker_failure : reconcileFailure :=
  newReconcileFailure ConditionStorageReady ReasonRetainedDataConflict
    "prior cold-backup evidence cannot be invalidated before runtime activation; inspect the exact retained claims" true.

Definition start (server : GameServer) (progress : conditionProgress) (plan : Plan) (storage : storageObservation)
    (configuration : ConfigMap) (workload : Deployment) (service : Service) : prog outcome :=
  draining ← runtimeReplacementDraining server workload;
  match draining with
  | inl _ => report server progress runtimeDrainFailure
  | inr true => stopping_status server progress
  | inr false =>
      e ← clearColdBackupMarkers server (DataClaims plan);
      match (e : option cerror) with
      | Some _ => report server progress marker_failure
      | None =>
          e ← reconcileConfigMap configuration;
          match (e : option cerror) with
          | Some _ => report server progress (operation_failure ConditionConfigurationReady
              ReasonConfigurationOperationFailed "ConfigMap" (cm_meta configuration)
              " could not be reconciled; inspect its ownership and cluster API events")
          | None =>
              run_workload server (set progress ConditionConfigurationReady ConditionTrue ReasonConfigurationReady
                "the current rendered game configuration is applied") storage workload service
          end
      end
  end.

(** *** Converge: storage, then the runtime *)

Definition converge (server : GameServer) (progress : conditionProgress) (plan : Plan) : prog outcome :=
  let running := gs_DesiredState (gs_Spec server) == DesiredStateRunning in
  failure ← or_else (preflightStorage server plan) (if running then preflightRuntime server else Ret None);
  match (failure : option reconcileFailure) with
  | Some f => report server progress f
  | None =>
      failure ← loop converge_claim (DataClaims plan);
      match (failure : option reconcileFailure) with
      | Some f => report server progress f
      | None =>
          storage ← observeStorage (DataClaims plan);
          match storage with
          | inl f => report server progress f
          | inr storage =>
              let progress := set progress ConditionStorageReady (so_status storage) (so_reason storage) (so_message storage) in
              if gs_DesiredState (gs_Spec server) == DesiredStateStopped then
                let progress := set progress ConditionReady ConditionFalse ReasonRuntimeStopped
                  "the game server is stopped; persistent data is retained" in
                e ← updateStatusWithData (sr_has_Now r) server PhaseStopped progress [] (so_data storage);
                Ret (no_requeue, e)
              else match Configuration plan, Workload plan, PlayerService plan with
              | Some configuration, Some workload, Some service =>
                  start server progress plan storage configuration workload service
              | _, _, _ => Ret (no_requeue, Some (runtime_panic "nil pointer dereference"))
              end
          end
      end
  end.

(** *** Locked: a data operation owns the retained world *)

Definition locked_status (server : GameServer) (progress : conditionProgress) (stopping : bool) : prog outcome :=
  let progress := set progress ConditionStorageReady ConditionUnknown ReasonDataOperationActive
    "retained data is frozen while an active backup or restore operation owns it" in
  let progress := set progress ConditionWorkloadReady ConditionFalse ReasonDataOperationActive
    "the singleton workload is absent while a data operation owns the retained world" in
  let progress := set progress ConditionReady ConditionFalse ReasonDataOperationActive
    "the game server remains offline while a data operation owns the retained world" in
  let phase := if (gs_DesiredState (gs_Spec server) == DesiredStateStopped) && negb stopping
               then PhaseStopped else PhaseStopping in
  e ← updateStatus (sr_has_Now r) server phase progress [];
  Ret (match e with
       | Some e => (no_requeue, Some e)
       | None => (requeue_after (if stopping then second else backupRequeue), None)
       end).

Definition hold_locked (server : GameServer) (progress : conditionProgress) : prog outcome :=
  if gs_DesiredState (gs_Spec server) == DesiredStateRunning then
    failure ← preflightRuntime server;
    match (failure : option reconcileFailure) with
    | Some f => report server progress f
    | None =>
        stopping ← deleteControlledRuntime server;
        match stopping with
        | inl f => report server progress f
        | inr stopping => locked_status server (setRuntimeStopping progress) stopping
        end
    end
  else locked_status server (setRuntimeStopped progress) false.

(** *** The plan *)

Definition plan_server (server : GameServer) (progress : conditionProgress) : prog outcome :=
  match sr_Catalog r with
  | None => report server progress (newReconcileFailure ConditionSpecValid ReasonControllerMisconfigured
      "the controller game catalog is unavailable; inspect the controller Deployment configuration" true)
  | Some catalog =>
      match catalog_Get catalog (gs_Game (gs_Spec server)) with
      | Err _ => report server progress (newReconcileFailure ConditionSpecValid ReasonInvalidSpec
          "the GameServer spec selects an unsupported game; choose an installed game adapter" false)
      | Ok definition =>
          match Build (sr_materializeConfigurationScript r) server definition with
          | inl e => report server progress
              (newReconcileFailure ConditionSpecValid ReasonInvalidSpec (validationFailureMessage e) false)
          | inr plan =>
              let progress := set progress ConditionSpecValid ConditionTrue ReasonValid
                "the current GameServer generation passed adapter and platform validation" in
              locked ← dataOperationLocked server (plan_DataIdentity plan);
              match locked with
              | inl f => report server progress f
              | inr true => hold_locked server progress
              | inr false => converge server progress plan
              end
          end
      end
  end.

(** *** Stop first, then plan *)

Definition terminating_progress : conditionProgress :=
  let p := set newConditionProgress ConditionSpecValid ConditionUnknown ReasonBlocked
    "spec validation is not evaluated while the GameServer is terminating" in
  let p := set p ConditionStorageReady ConditionUnknown ReasonBlocked
    "retained storage is not changed while the GameServer is terminating" in
  let p := set p ConditionConfigurationReady ConditionFalse ReasonRuntimeStopping
    "the GameServer is terminating and disposable configuration is no longer reported ready" in
  let p := set p ConditionWorkloadReady ConditionFalse ReasonRuntimeStopping
    "the GameServer is terminating and its workload is no longer reported ready" in
  let p := set p ConditionNetworkReady ConditionFalse ReasonRuntimeStopping
    "the GameServer is terminating and player networking is no longer reported ready" in
  set p ConditionReady ConditionFalse ReasonRuntimeStopping
    "the GameServer is terminating; retained claims are not deleted by Arcadectl".

Definition stop_progress : conditionProgress :=
  let p := set newConditionProgress ConditionSpecValid ConditionUnknown ReasonBlocked
    "spec validation is deferred until disposable runtime resources are absent" in
  let p := set p ConditionStorageReady ConditionUnknown ReasonBlocked
    "retained storage is not changed while disposable runtime resources are stopping" in
  setRuntimeStopping p.

Definition reconcile_server (server : GameServer) : prog outcome :=
  if deleting (gs_meta server) then
    e ← updateStatus (sr_has_Now r) server PhaseStopping terminating_progress []; Ret (no_requeue, e)
  else if gs_DesiredState (gs_Spec server) == DesiredStateStopped then
    failure ← preflightRuntime server;
    match (failure : option reconcileFailure) with
    | Some f => report server newConditionProgress f
    | None =>
        stopping ← deleteControlledRuntime server;
        match stopping with
        | inl f => report server newConditionProgress f
        | inr true =>
            e ← updateStatus (sr_has_Now r) server PhaseStopping stop_progress [];
            Ret (match e with
                 | Some e => (no_requeue, Some e)
                 | None => (requeue_after second, None)
                 end)
        | inr false => plan_server server (setRuntimeStopped newConditionProgress)
        end
    end
  else plan_server server newConditionProgress.

Definition Server_Reconcile (req : NamespacedName) : prog outcome :=
  server ← call (ApiGet KGameServer CachedReader req);
  match server with
  | inl NotFound => Ret (no_requeue, None)
  | inl e => Ret (no_requeue, Some (FromApi e))
  | inr server => reconcile_server server
  end.
End Controller.
