(* ===== verification/KubeRestore.v ===== *)
(** * The restore worker's resources ([internal/platform/kube/restore.go])

    The two stages of a restore worker: Preflight, which reads the repository
    and mounts no claim, and Populate, which writes fresh candidate claims.
    The theorems show what each stage's Pod can reach. *)

From Stdlib Require Import Ascii.
From stdpp Require Import base tactics list strings gmap numbers.
From S2P Require Import Prelude GoStrings Regex Sha256 K8s ApiTypes DataOperation Receipts Operations GameDefinition KubeObjects KubePlan WorkerInput KubeDestroy OperationFence KubeBackup.
Open Scope string_scope.
Open Scope list_scope.

(** ** Names *)

Definition LabelRestoreStage := "arcade.gobha.me/restore-stage".
Definition AnnotationRestorePodAuthorized := "arcade.gobha.me/restore-pod-authorized".
Definition RestoreFinalizer := "arcade.gobha.me/restore-protection".
Definition RestoreSchedulingGate := "arcade.gobha.me/restore-authorized".
Definition restoreInputKey := "input.json".
Definition DefaultCandidateRoot := "/arcadectl/candidate".

Definition RestoreResourceName (uid : string) (stage : Stage) : string :=
  if uid == "" then ""
  else match stage with
  | StagePreflight =>
      "restore-" +:+ short_digest ("arcadectl/restore-job/" +:+ uid +:+ "/" +:+ "preflight") +:+ "-" +:+ "preflight"
  | StagePopulate =>
      "restore-" +:+ short_digest ("arcadectl/restore-job/" +:+ uid +:+ "/" +:+ "populate") +:+ "-" +:+ "populate"
  | StageOther _ => ""
  end.

(** ** The worker boundary *)

Record RestoreResources := MkRestoreResources {
  rk_Input : ConfigMap;
  rk_ServiceAccount : ServiceAccount;
  rk_Role : Role;
  rk_RoleBinding : RoleBinding;
  rk_Job : Job }.

Definition gr_Name (o : GameRestore) : string := om_Name (gr_meta o).
Definition gr_Namespace (o : GameRestore) : string := om_Namespace (gr_meta o).
(** [arcadev1alpha1.ExactLocalReference{Name: restore.Name, UID: string(restore.UID)}] *)
Definition restore_ref (o : GameRestore) : ExactLocalReference := MkRef None (gr_Name o) (gr_UID o).
Definition restore_secret (o : GameRestore) : ExactSecretReference := dor_RepositorySecretRef (grs_Request (gr_Spec o)).
Definition target_name (o : GameRestore) : string := gsr_Name (grs_Target (gr_Spec o)).

Definition restore_owner (o : GameRestore) : OwnerReference :=
  MkOwnerReference GroupVersion "GameRestore" (gr_Name o) (gr_UID o) (Some true) (Some true).
Definition restore_labels (o : GameRestore) (stage : Stage) : StringMap :=
  <[LabelManagedBy := ManagerName]> (<[LabelName := "restore-worker"]> (<[LabelRestoreUID := gr_UID o]>
    (<[LabelRestoreStage := Stage_string stage]> (<[LabelDataOperation := "restore"]>
      (<[LabelInstance := target_name o]> ∅))))).
Definition restore_annotations (o : GameRestore) (input : Input) : StringMap :=
  <[AnnotationArtifactID := art_ID (in_Artifact input)]> (<[AnnotationRestoreName := gr_Name o]> ∅).

Definition populate_rules (input : Input) : list PolicyRule :=
  [MkRule ["coordination.k8s.io"] ["leases"] [DataOperationLeaseName (in_PreviousDataIdentity input)] ["get"];
   MkRule ["arcade.gobha.me"] ["gameservers"] [gsr_Name (in_Target input)] ["get"];
   MkRule [""] ["persistentvolumeclaims"]
     (sort_by id ((claimName <$> in_CandidatePaths input) ++ (claimName <$> in_PreviousData input))) ["get"]].
Definition restore_rules (input : Input) : list PolicyRule :=
  [MkRule [""] ["secrets"] [ref_Name (sec_ref (in_RepositorySecretRef input))] ["get"];
   MkRule ["coordination.k8s.io"] ["leases"] [in_WorkerLeaseName input] ["get"; "update"]] ++
  (if in_Stage input == StagePopulate then populate_rules input else []).

Definition restore_fixed_volumes (inputName : string) : list Volume :=
  [MkVolume "input" (VolumeConfigMap inputName (Some 292%Z));
   MkVolume "credentials" (VolumeEmptyDir "Memory" (Some (Mi 2)));
   MkVolume "work" (VolumeEmptyDir "" (Some (Mi 512)));
   MkVolume "authority" (VolumeProjected (Some 292%Z)
     [ProjectServiceAccountToken "token" (Some 600%Z);
      ProjectConfigMap "kube-root-ca.crt" [("ca.crt", "ca.crt")]])].
Definition restore_fixed_mounts : list VolumeMount :=
  [MkVolumeMount "input" "/arcadectl/input" true; MkVolumeMount "credentials" "/arcadectl/credentials" true;
   MkVolumeMount "work" "/arcadectl/work" false].

(** [fmt.Sprintf("candidate-%d", index)] *)
Definition candidate_volume_name (index : nat) : string := "candidate-" +:+ FormatInt (Z.of_nat index).
Definition candidate_volume (index : nat) (path : DataPathIdentity) : Volume :=
  MkVolume (candidate_volume_name index) (VolumePersistentVolumeClaim (claimName path) false).
Definition candidate_mount (index : nat) (path : DataPathIdentity) : VolumeMount :=
  MkVolumeMount (candidate_volume_name index) (DefaultCandidateRoot +:+ "/" +:+ dp_Name path) false.
(** The claims a stage mounts. *)
Definition mounted_paths (input : Input) : list DataPathIdentity :=
  if in_Stage input == StagePopulate then in_CandidatePaths input else [].

Definition restore_security (stage : Stage) (identity : RuntimeIdentity) : PodSecurityContext :=
  if stage == StagePopulate
  then MkPodSecurity (Some true) (Some (UserID identity)) (Some (GroupID identity)) (Some (FSGroup identity))
         (Some "OnRootMismatch") (Some "RuntimeDefault") []
  else MkPodSecurity (Some true) (Some (UserID identity)) (Some (GroupID identity)) None None
         (Some "RuntimeDefault") [FSGroup identity].

Definition restore_authorizer (workerImage : string) : Container :=
  MkContainer "restore-authorizer" workerImage "IfNotPresent" ["/arcadectl-restore-authorizer"] [] []
    [MkVolumeMount "input" "/arcadectl/input" true;
     MkVolumeMount "credentials" "/arcadectl/authorized-credentials" false;
     MkVolumeMount "authority" "/var/run/secrets/kubernetes.io/serviceaccount" true]
    (MkResources (resource_list (milli 25) (Mi 32) (Mi 8)) (resource_list (milli 100) (Mi 64) (Mi 16)))
    worker_security None
    [field_env "POD_NAMESPACE" "metadata.namespace"; field_env "POD_UID" "metadata.uid"] "" "" [] "".

Definition restore_container (workerImage : string) (input : Input) : Container :=
  MkContainer "restore-worker" workerImage "IfNotPresent" ["/arcadectl-restore-worker"] [] []
    (restore_fixed_mounts ++ imap candidate_mount (mounted_paths input))
    (MkResources (resource_list (milli 100) (Mi 128) (Mi 64)) (resource_list (milli 500) (Mi 512) (Mi 768)))
    worker_security None [] DefaultTerminationPath "File" [] "".

Definition restore_job (o : GameRestore) (input : Input) (workerImage : string) (identity : RuntimeIdentity) : Job :=
  let stage := in_Stage input in
  let name := RestoreResourceName (gr_UID o) stage in
  let labels := restore_labels o stage in
  let annotations := restore_annotations o input in
  MkJob
    (MkObjectMeta name (gr_Namespace o) "" 0 "" 0 None [] labels annotations [restore_owner o])
    (MkJobSpec (Some 0%Z) (Some 3600%Z) (Some 1%Z) (Some 1%Z) (Some true) None None None None labels annotations
       (template_pod (Some false) (restore_security stage identity)
          [restore_authorizer workerImage] [restore_container workerImage input]
          (restore_fixed_volumes (name +:+ "-input") ++ imap candidate_volume (mounted_paths input))
          name (name +:+ "-authority") "Never" [RestoreSchedulingGate]) "")
    [] None.

(** [slices.SortFunc] of the two path lists, by name. *)
Definition sorted_input (input : Input) : Input :=
  MkInput (in_Version input) (in_Stage input) (in_OperationRef input) (in_BackupRef input) (in_Target input)
    (in_WorkerLeaseName input) (in_RepositorySecretRef input) (in_Artifact input) (in_Source input)
    (in_TargetGame input) (in_TargetImageDigest input) (in_TargetSettingsDigest input)
    (sort_by pc_Name (in_TargetPaths input)) (in_PreviousDataIdentity input) (in_PreviousData input)
    (sort_by dp_Name (in_CandidatePaths input)).

Section Build.
Context `{NameValidation} `{TimeText}.

Definition build_resources (o : GameRestore) (input : Input) (workerImage : string) (identity : RuntimeIdentity) :
    RestoreResources :=
  let stage := in_Stage input in
  let name := RestoreResourceName (gr_UID o) stage in
  let labels := restore_labels o stage in
  let authorityName := name +:+ "-authority" in
  let authority_meta := new_meta authorityName (gr_Namespace o) labels [restore_owner o] in
  MkRestoreResources
    (MkConfigMap (MkTypeMeta "v1" "ConfigMap")
       (new_meta (name +:+ "-input") (gr_Namespace o) labels [restore_owner o]) ∅
       (<[restoreInputKey := unchars (Input_text input ++ [ascii_of_nat 10])]> ∅) (Some true))
    (MkServiceAccount authority_meta (Some false))
    (MkRole authority_meta (restore_rules input))
    (MkRoleBinding authority_meta [MkSubject "ServiceAccount" authorityName (gr_Namespace o)]
       (MkRoleRef "rbac.authorization.k8s.io" "Role" authorityName))
    (restore_job o input workerImage identity).

Definition BuildRestoreResources (restore : option GameRestore) (input : Input) (workerImage : string)
    (identity : RuntimeIdentity) : result RestoreResources :=
  match restore with
  | None => fail "exact namespaced GameRestore identity is required"
  | Some o =>
    if (gr_Name o == "") || (gr_Namespace o == "") || (gr_UID o == "") || negb (is_label (gr_Namespace o))
    then fail "exact namespaced GameRestore identity is required"
    else if negb (MatchString pinnedWorkerImagePattern workerImage)
    then fail "restore worker image must be pinned by sha256 digest"
    else if (UserID identity <=? 0)%Z || (GroupID identity <=? 0)%Z || (FSGroup identity <=? 0)%Z
    then fail "restore worker identity must be non-root"
    else if negb (is_ok (ValidateInput input)) || (in_OperationRef input != restore_ref o) ||
            (in_BackupRef input != grs_BackupRef (gr_Spec o)) || (in_Target input != grs_Target (gr_Spec o)) ||
            (in_RepositorySecretRef input != restore_secret o)
    then fail "restore worker input does not match the exact operation"
    else if match RestoreDataIdentity (gr_UID o) with
            | Err _ => true
            | Ok candidateIdentity =>
                (in_WorkerLeaseName input != DataOperationLeaseName candidateIdentity) ||
                ((in_Stage input == StagePopulate) && (in_PreviousDataIdentity input == candidateIdentity))
            end
    then fail "restore worker leases do not identify distinct exact data sets"
    else if RestoreResourceName (gr_UID o) (in_Stage input) == ""
    then fail "restore worker stage is invalid"
    else Ok (build_resources o (sorted_input input) workerImage identity)
  end.
End Build.

(** ** What the worker may reach *)

Section Authority.
Context `{NameValidation} `{TimeText}.

Lemma BuildRestoreResources_inv o input image identity res :
  BuildRestoreResources (Some o) input image identity = Ok res ->
  (gr_UID o <> "" /\ MatchString pinnedWorkerImagePattern image = true /\ (0 < UserID identity)%Z) /\
  ValidateInput input = Ok tt /\
  (in_OperationRef input = restore_ref o /\ in_RepositorySecretRef input = restore_secret o /\
   in_BackupRef input = grs_BackupRef (gr_Spec o)) /\
  (exists candidate, RestoreDataIdentity (gr_UID o) = Ok candidate /\
     in_WorkerLeaseName input = DataOperationLeaseName candidate /\
     (in_Stage input = StagePopulate -> in_PreviousDataIdentity input <> candidate)) /\
  RestoreResourceName (gr_UID o) (in_Stage input) <> "" /\
  res = build_resources o (sorted_input input) image identity.
Proof.
  unfold BuildRestoreResources. destruct (_ || _)%bool eqn:Hg; [done|].
  destruct (MatchString _ _) eqn:Hi; [|done]. cbn [negb]. destruct (_ || _)%bool eqn:Hn in |- *; [done|].
  destruct (negb (is_ok _) || _ || _ || _ || _)%bool eqn:Hv; [done|].
  destruct (RestoreDataIdentity _) as [candidate|] eqn:Hc; [|done].
  destruct (_ || _)%bool eqn:Hl in |- *; [done|]. destruct (bool_decide (RestoreResourceName _ _ = _)) eqn:Hname; [done|]. intros [= <-].
  bool_prop. split_and!; try done; [by apply is_ok_unit|]. exists candidate. split_and!; try done. intros Hs. match goal with Hor : _ \/ _ |- _ => by destruct Hor end.
Qed.

Lemma sort_by_elem {A} (f : A -> string) (l : list A) x : x ∈ sort_by f l <-> x ∈ l.
Proof. by rewrite (sort_by_perm f l). Qed.

(** What a Pod of the stage can reach: its only claims are fresh candidates of
    this restore, each with its derived name and none of them a claim of the
    source or of the previous world; a preflight mounts no claim.  Its Role
    reads the one repository Secret and updates only the candidate's Lease.
    The Job is created suspended and gated, runs as a non-root user, and every
    container's image is pinned by digest. *)
Theorem BuildRestoreResources_confined o input image identity res
  (Hb : BuildRestoreResources (Some o) input image identity = Ok res) :
  let pod := job_TemplateSpec (job_Spec (rk_Job res)) in
  (forall v name ro, v ∈ pod_Volumes pod -> vol_Source v = VolumePersistentVolumeClaim name ro ->
     in_Stage input = StagePopulate /\
     exists c, c ∈ in_CandidatePaths input /\ claimName c = name /\
       RestoreCandidateID (gr_UID o) (dp_Name c) = Ok name /\
       forall other, other ∈ src_Paths (in_Source input) ++ in_PreviousData input ->
         claimName other <> name /\ claimUID other <> claimUID c) /\
  (forall rule verb, rule ∈ role_Rules (rk_Role res) -> verb ∈ rule_Verbs rule ->
     verb = "get" \/
     (verb = "update" /\ rule_Resources rule = ["leases"] /\ rule_ResourceNames rule = [in_WorkerLeaseName input])) /\
  job_Suspend (job_Spec (rk_Job res)) = Some true /\ pod_SchedulingGates pod = [RestoreSchedulingGate] /\
  RunAsNonRoot (pod_SecurityContext pod) = Some true /\
  RunAsUser (pod_SecurityContext pod) = Some (UserID identity) /\ (0 < UserID identity)%Z /\
  (forall c, c ∈ pod_InitContainers pod ++ pod_Containers pod ->
     MatchString pinnedWorkerImagePattern (con_Image c) = true).
Proof.
  apply BuildRestoreResources_inv in Hb as ((_ & Hi & Hu) & Hv & (Hop & _ & _) & _ & _ & ->). intros pod. subst pod.
  apply ValidateInput_inv in Hv as (paths & _ & _ & _ & _ & _ & Hpop).
  cbn [build_resources rk_Job rk_Role role_Rules job_Spec restore_job job_TemplateSpec template_pod pod_Volumes
       pod_SchedulingGates pod_SecurityContext pod_InitContainers pod_Containers job_Suspend app].
  split_and!; try done; try (by unfold restore_security; case_bool_decide).
  - intros v name ro [Hin|Hin]%elem_of_app E.
    + unfold restore_fixed_volumes in Hin. repeat (apply elem_of_cons in Hin as [->|Hin]; [discriminate E|]).
      by apply not_elem_of_nil in Hin.
    + apply elem_of_lookup_imap_1 in Hin as (i & c & -> & Hin). injection E as <- <-. unfold mounted_paths in Hin.
      cbn [sorted_input in_Stage in_CandidatePaths] in Hin. case_bool_decide as Hs; [|done].
      apply list_elem_of_lookup_2, sort_by_elem in Hin. specialize (Hpop ltac:(by rewrite Hs)).
      apply validatePopulate_candidates in Hpop as (_ & _ & Hid & Hal). rewrite Hop in Hid.
      split; [done|]. exists c. split_and!; [done | done | by apply Hid|]. intros other Ho.
      destruct (Hal c other Hin Ho). split; congruence.
  - intros rule verb Hrule Hverb. unfold restore_rules in Hrule. cbn [sorted_input in_Stage in_WorkerLeaseName] in Hrule.
    apply elem_of_app in Hrule as [Hrule|Hrule].
    + repeat (apply elem_of_cons in Hrule as [->|Hrule]; [cbn in *; set_solver|]). by apply not_elem_of_nil in Hrule.
    + case_bool_decide; [|by apply not_elem_of_nil in Hrule]. unfold populate_rules in Hrule.
      repeat (apply elem_of_cons in Hrule as [->|Hrule]; [cbn in *; set_solver|]). by apply not_elem_of_nil in Hrule.
  - intros c Hc. repeat (apply elem_of_cons in Hc as [->|Hc]; [done|]). by apply not_elem_of_nil in Hc.
Qed.
End Authority.
