(* ===== verification/ServerSpec.v ===== *)
(** * What the game server controller's checks mean

    The observations a server is reported Ready on, and the drain check, in
    terms of the fields of the observed objects: what an exact and bound claim,
    an available Deployment, a published Service and an object of the server
    are, and that the controller's checks establish them. *)

From Stdlib Require Import Ascii.
From stdpp Require Import base tactics list strings gmap numbers.
From S2P Require Import Prelude GoStrings GoJson GoNet GoNetip K8s ApiTypes Operations GameDefinition KubeObjects KubePlan KubeApi TraceLogic WorkerInput OperationDigest KubeDestroy KubeRestore WorkerPods OperationFence ServerStatus RuntimeDrain ServerController.
Open Scope string_scope.
Open Scope list_scope.

(** ** Claims *)

(** A claim that carries exactly the planned identity: not terminating, owned
    by nothing, under the UID it was selected by, with the labels of the plan,
    its storage class and access modes, and, when it was selected from outside,
    a request of at least the planned size. *)
Record exact_data_claim (claim : DataClaimPlan) (actual : PersistentVolumeClaim) : Prop := {
  xc_live : deleting (pvc_meta actual) = false;
  xc_owners : om_OwnerReferences (pvc_meta actual) = [];
  xc_uid : RequiredUID claim = "" \/ om_UID (pvc_meta actual) = RequiredUID claim;
  xc_labels : forall label,
    label ∈ [LabelManagedBy; LabelName; LabelInstance; LabelGame; LabelDataPolicy; LabelDataPath; LabelDataIdentity] ->
    mget (om_Labels (pvc_meta actual)) label = mget (om_Labels (pvc_meta (Desired claim))) label;
  xc_class : match pvc_StorageClassName (Desired claim) with
             | Some class => pvc_StorageClassName actual = Some class
             | None => ExternallySelected claim = true -> pvc_StorageClassName actual = None
             end;
  xc_modes : pvc_AccessModes actual = pvc_AccessModes (Desired claim);
  xc_size : ExternallySelected claim = true ->
    (default 0 (pvc_StorageRequest (Desired claim)) <= default 0 (pvc_StorageRequest actual))%Z }.

(** It is moreover bound to a volume, with the requested capacity. *)
Record ready_data_claim (claim : DataClaimPlan) (actual : PersistentVolumeClaim) : Prop := {
  rc_exact : exact_data_claim claim actual;
  rc_bound : pvc_Phase actual = "Bound";
  rc_uid : om_UID (pvc_meta actual) <> "";
  rc_volume : pvc_VolumeName actual <> "";
  rc_capacity : (default 0 (pvc_StorageRequest (Desired claim)) <= default 0 (pvc_Capacity actual))%Z }.

(** The reference a server reports for it. *)
Definition claim_reference (claim : DataClaimPlan) (actual : PersistentVolumeClaim) : RetainedDataClaimReference :=
  MkClaimRef (mget (om_Labels (pvc_meta (Desired claim))) LabelDataPath)
    (MkRef None (om_Name (pvc_meta actual)) (om_UID (pvc_meta actual))).

Lemma validateExistingDataClaim_exact actual claim :
  validateExistingDataClaim actual claim = Ok tt -> exact_data_claim claim actual.
Proof.
  unfold validateExistingDataClaim, validateExistingDataClaimBase. destruct (_ && _)%bool eqn:Hu; [done|].
  destruct (deleting _) eqn:Hd; [done|]. destruct (len _ != 0)%Z eqn:Ho; [done|].
  destruct (for_each _ _) as [[]|] eqn:Hl; [|done]. destruct (negb (storageClassCompatible _ _ _)) eqn:Hs; [done|].
  destruct (pvc_AccessModes _ != _) eqn:Hm; [done|].
  cbn [mbind result_bind]. destruct (ExternallySelected _ && _)%bool eqn:Hq; [done|]. cbn [mbind result_bind].
  destruct (claim_label actual LabelDataIdentity != _) eqn:Hi; [done|]. intros _.
  rewrite for_each_ok in Hl. apply negb_false_iff in Hm, Hi, Hs, Ho. apply bool_decide_eq_true in Hm, Hi, Ho.
  unfold claim_label, quantity in *. split; [done| | | | |done|].
  - by apply length_zero_iff_nil, Nat2Z.inj.
  - apply andb_false_iff in Hu as [Hu%negb_false_iff%bool_decide_eq_true|Hu%negb_false_iff%bool_decide_eq_true]; auto.
  - intros label Hin. destruct (decide (label = LabelDataIdentity)) as [->|Hne]; [done|].
    assert (label ∈ identity_labels) as Hin' by (unfold identity_labels; set_solver).
    specialize (Hl label Hin'). cbn beta in Hl. destruct (_ != _) eqn:E in Hl; [done|].
    by apply negb_false_iff, bool_decide_eq_true in E.
  - unfold storageClassCompatible in Hs. destruct (pvc_StorageClassName (Desired claim)) as [class|].
    + by apply bool_decide_eq_true in Hs.
    + intros He. rewrite He in Hs. by apply bool_decide_eq_true in Hs.
  - intros He. rewrite He in Hq. cbn in Hq. by apply Z.ltb_ge in Hq.
Qed.

Lemma observe_claim_ready claim actual ref : observe_claim claim actual = inr ref ->
  ready_data_claim claim actual /\ ref = claim_reference claim actual.
Proof.
  unfold observe_claim. destruct (validateExistingDataClaim actual claim) as [[]|] eqn:Hv; [|done].
  destruct (pvc_Phase actual != "Bound") eqn:Hp; [by destruct (pvc_Phase actual == "Lost")|].
  destruct (om_UID _ == "") eqn:Hu; [done|].
  destruct (pvc_VolumeName actual == "") eqn:Hvn; [done|]. destruct (_ <? _)%Z eqn:Hq; [done|]. intros [= <-].
  apply negb_false_iff, bool_decide_eq_true in Hp. apply bool_decide_eq_false in Hu, Hvn. apply Z.ltb_ge in Hq.
  split; [|done]. split; try done. by apply validateExistingDataClaim_exact.
Qed.

(** ** The Deployment *)

(** The current generation was observed, and its one replica is updated, ready
    and available. *)
Record available_deployment (d : Deployment) : Prop := {
  ad_live : om_DeletionTimestamp (dep_meta d) = None;
  ad_wanted : dep_Replicas d = Some 1%Z;
  ad_observed : (om_Generation (dep_meta d) <= dps_ObservedGeneration (dep_Status d))%Z;
  ad_replicas : dps_Replicas (dep_Status d) = 1%Z;
  ad_updated : dps_UpdatedReplicas (dep_Status d) = 1%Z;
  ad_ready : dps_ReadyReplicas (dep_Status d) = 1%Z;
  ad_available : dps_AvailableReplicas (dep_Status d) = 1%Z;
  ad_unavailable : dps_UnavailableReplicas (dep_Status d) = 0%Z }.

Lemma workloadAvailable_spec d : workloadAvailable d = true <-> available_deployment d.
Proof.
  unfold workloadAvailable, deletionNotRequested. rewrite !andb_true_iff, !bool_decide_eq_true, Z.leb_le.
  split; [by intros [[[[[[[? ?] ?] ?] ?] ?] ?] ?] | by intros []].
Qed.

(** The object is controlled by the owner the desired one names first. *)
Definition controlled_as (m desired : ObjectMeta) : Prop :=
  exists owner others reference, om_OwnerReferences desired = owner :: others /\
    reference ∈ om_OwnerReferences m /\ own_Controller reference = Some true /\
    own_APIVersion reference = own_APIVersion owner /\ own_Kind reference = own_Kind owner /\
    own_Name reference = own_Name owner /\ own_UID reference = own_UID owner.

Lemma require_owner_spec m desired : require_owner m desired = None -> controlled_as m desired.
Proof.
  unfold require_owner, controlled_as. destruct (om_OwnerReferences desired) as [|owner others]; [done|].
  unfold requireControlledBy, GetControllerOf. destruct (find _ _) as [reference|] eqn:Hf; [|done].
  destruct (_ || _)%bool eqn:E; [done|]. intros _. apply find_some in Hf as [Hin Hc%bool_decide_eq_true].
  rewrite !orb_false_iff, !negb_false_iff, !bool_decide_eq_true in E. destruct_and!.
  exists owner, others, reference. by rewrite list_elem_of_In.
Qed.

(** The Deployment an Apply answered, read back: one identity and one
    generation throughout, the server's own, not being deleted. *)
Record acknowledged_workload (desired existing updated actual : Deployment) : Prop := {
  aw_uid : om_UID (dep_meta existing) <> "";
  aw_updated : om_UID (dep_meta updated) = om_UID (dep_meta existing);
  aw_actual : om_UID (dep_meta actual) = om_UID (dep_meta existing);
  aw_owner : controlled_as (dep_meta actual) (dep_meta desired);
  aw_live : deleting (dep_meta actual) = false;
  aw_generation : (0 < om_Generation (dep_meta updated))%Z;
  aw_current : om_Generation (dep_meta actual) = om_Generation (dep_meta updated) }.

Lemma applied_workload_acknowledged desired existing updated actual d :
  applied_workload desired existing updated actual = inr d ->
  d = actual /\ acknowledged_workload desired existing updated actual.
Proof.
  unfold applied_workload. cbv zeta beta. destruct (_ || _)%bool eqn:E; [done|].
  destruct (require_owner _ _) eqn:Ho; [done|]. destruct (deleting _) eqn:Hd; [done|].
  destruct ((_ <=? 0)%Z || _)%bool eqn:Eg; [done|]. intros [= ->]. split; [done|].
  rewrite !orb_false_iff, ?negb_false_iff, ?bool_decide_eq_true, ?bool_decide_eq_false in E.
  rewrite orb_false_iff, negb_false_iff, bool_decide_eq_true in Eg. destruct_and!.
  split; try done; [by apply require_owner_spec | lia].
Qed.

(** ** The player Service *)

Section Endpoints.
Context `{NameValidation}.

(** One endpoint per planned port, in the order of their names: the Service,
    not being deleted, has a port of that name with the planned protocol, port
    and target, and one address - which an ingress of its status certifies for
    all planned ports - serves them all. *)
Record published_endpoints (actual desired : Service) (endpoints : list ObservedEndpoint) : Prop := {
  pe_live : om_DeletionTimestamp (svc_meta actual) = None;
  pe_address : exists address ingress, address <> "" /\ ingress ∈ svc_Ingress actual /\
    ingressSupportsPorts ingress (sort_by sp_Name (svc_Ports desired)) = true /\
    (ingress_address ingress = Some address \/ ingress_hostname ingress = Some address) /\
    Forall2 (fun port endpoint => exists observed, observed ∈ svc_Ports actual /\
        sp_Name observed = sp_Name port /\ sp_Protocol observed = sp_Protocol port /\
        sp_Port observed = sp_Port port /\ sp_TargetPort observed = sp_TargetPort port /\
        endpoint = MkObservedEndpoint (sp_Name port) (sp_Protocol port) address (sp_Port port))
      (sort_by sp_Name (svc_Ports desired)) endpoints }.

Lemma first_sorted_elem l x : first_sorted l = Some x -> x ∈ l.
Proof. intros Hx%head_Some_elem_of. by rewrite sort_by_elem in Hx. Qed.

Lemma certified_address ingresses ports : observedLoadBalancerAddress ingresses ports <> "" ->
  exists ingress, ingress ∈ ingresses /\ ingressSupportsPorts ingress ports = true /\
    (ingress_address ingress = Some (observedLoadBalancerAddress ingresses ports) \/
     ingress_hostname ingress = Some (observedLoadBalancerAddress ingresses ports)).
Proof.
  assert (forall f x, first_sorted (omap f (List.filter (fun i => ingressSupportsPorts i ports) ingresses)) = Some x ->
    exists ingress, ingress ∈ ingresses /\ ingressSupportsPorts ingress ports = true /\ f ingress = Some x) as Hfirst.
  { intros f x Hx%first_sorted_elem. apply list_elem_of_omap in Hx as (i & Hi & Hf).
    apply list_elem_of_In, filter_In in Hi as [Hi Hp]. exists i. by rewrite list_elem_of_In. }
  unfold observedLoadBalancerAddress. destruct (first_sorted (omap ingress_address _)) as [ip|] eqn:E; intros Hne.
  - destruct (Hfirst _ _ E) as (i & ? & ? & ?). exists i. auto.
  - destruct (first_sorted (omap ingress_hostname _)) as [name|] eqn:Eh; cbn in *; [|done].
    destruct (Hfirst _ _ Eh) as (i & ? & ? & ?). exists i. auto.
Qed.

Lemma actual_port_elem ports name port : actual_port ports name = Some port -> port ∈ ports /\ sp_Name port = name.
Proof.
  unfold actual_port. assert (forall acc, (forall p, acc = Some p -> p ∈ ports /\ sp_Name p = name) ->
    forall l, l ⊆ ports -> fold_left (fun found p => if sp_Name p == name then Some p else found) l acc = Some port ->
    port ∈ ports /\ sp_Name port = name) as Hgen; [|by apply Hgen].
  intros acc Hacc l. revert acc Hacc. induction l as [|p l IH]; cbn; intros acc Hacc Hl Hf; [by apply Hacc|].
  eapply IH; [| |exact Hf]; [|set_solver]. destruct (decide (sp_Name p = name)).
  - rewrite bool_decide_eq_true_2 by done. intros ? [= <-]. split; [set_solver | done].
  - by rewrite bool_decide_eq_false_2.
Qed.

Lemma observedEndpoints_published actual desired :
  observedEndpoints actual desired <> [] -> published_endpoints actual desired (observedEndpoints actual desired).
Proof.
  unfold observedEndpoints, deletionNotRequested. destruct (om_DeletionTimestamp _ == None) eqn:Hd; cbn [negb]; [|done].
  destruct (_ || _)%bool eqn:E; [done|]. destruct (mapM _ _) as [endpoints|] eqn:Hm; [|done]. intros _.
  apply orb_false_iff in E as [_ Ha%bool_decide_eq_false]. apply bool_decide_eq_true in Hd.
  destruct (certified_address _ _ Ha) as (ingress & ? & ? & ?). split; [done|].
  eexists _, ingress. split_and!; try done. apply mapM_Some in Hm. eapply list.Forall2_impl; [exact Hm|].
  intros port endpoint. unfold endpoint_of. destruct (actual_port _ _) as [observed|] eqn:Hp; [|done].
  destruct (_ || _)%bool eqn:E; [done|]. intros [= <-]. apply actual_port_elem in Hp as [? ?].
  rewrite !orb_false_iff, !negb_false_iff, !bool_decide_eq_true in E. destruct_and!. by exists observed.
Qed.
End Endpoints.

(** ** Draining *)

(** A Pod, or a template of one, that is not the server's game Pod and mounts
    none of the claims but for reading only. *)
Record harmless_pod (server : string) (claims : gset string) (labels : StringMap) (spec : PodSpec) : Prop := {
  hp_labels : ~ (mget labels LabelManagedBy = ManagerName /\ mget labels LabelName = "game-server" /\
                 mget labels LabelInstance = server);
  hp_volumes : forall volume claim readOnly, volume ∈ pod_Volumes spec ->
    vol_Source volume = VolumePersistentVolumeClaim claim readOnly -> claim ∈ claims ->
    readOnly = true /\
    forall container, container ∈ pod_Containers spec ++ pod_InitContainers spec ++ pod_EphemeralContainers spec ->
      vol_Name volume ∉ con_VolumeDevices container /\
      forall mount, mount ∈ con_VolumeMounts container -> vm_Name mount = vol_Name volume -> vm_ReadOnly mount = true }.

Lemma read_only_mounts_spec name c : read_only_mounts name c = true ->
  name ∉ con_VolumeDevices c /\
  forall mount, mount ∈ con_VolumeMounts c -> vm_Name mount = name -> vm_ReadOnly mount = true.
Proof.
  unfold read_only_mounts. rewrite andb_true_iff, !forallb_forall. intros [Hd Hm]. split.
  - intros Hin%list_elem_of_In. apply Hd in Hin. by rewrite bool_decide_eq_true_2 in Hin.
  - intros m Hin%list_elem_of_In Hn. apply Hm in Hin. by rewrite bool_decide_eq_true_2 in Hin.
Qed.

Lemma runtimePodBlocksDrain_harmless labels spec name claims :
  runtimePodBlocksDrain labels spec name claims = false -> harmless_pod name claims labels spec.
Proof.
  unfold runtimePodBlocksDrain. destruct (_ && _)%bool eqn:El; [done|]. intros Hv. split.
  - intros (Hm & Hn & Hi). by rewrite Hm, Hn, Hi, !bool_decide_eq_true_2 in El.
  - intros v claim ro Hin Hs Hc. assert (volume_blocks spec claims v = false) as Hb.
    { destruct (volume_blocks spec claims v) eqn:E; [|done]. rewrite <- Hv. symmetry. apply existsb_exists. exists v.
      by rewrite <- list_elem_of_In. }
    unfold volume_blocks in Hb. rewrite Hs, bool_decide_eq_true_2 in Hb by done. cbn in Hb. apply negb_false_iff in Hb.
    unfold runtimeVolumeReadOnly in Hb. destruct ro; [|done]. split; [done|]. cbn in Hb.
    rewrite !andb_true_iff, !forallb_forall in Hb. destruct Hb as [[H1 H2] H3].
    intros c Hcin. apply read_only_mounts_spec. rewrite !elem_of_app, !list_elem_of_In in Hcin. destruct Hcin as [?|[?|?]]; auto.
Qed.

(** The API server returned the whole list. *)
Definition complete_list {A} (l : object_list A) : Prop :=
  list_Continue l = "" /\ (RemainingItemCount l = None \/ RemainingItemCount l = Some 0%Z).
Lemma incomplete_spec {A} (l : object_list A) : incomplete l = false -> complete_list l.
Proof.
  unfold incomplete, complete_list. rewrite orb_false_iff, negb_false_iff, bool_decide_eq_true. intros [-> Hn].
  split; [done|]. destruct (RemainingItemCount l) as [n|]; [|by left].
  apply negb_false_iff, bool_decide_eq_true in Hn as ->. by right.
Qed.
