(* ===== verification/ServerSafety.v ===== *)
(** * What the game server controller guarantees

    The executions of [Server_Reconcile] against an arbitrary API server.
    [server_write] says what the controller may write, in terms of what it
    read earlier in the same pass; every write of every pass is one of these.
    The safety properties follow: retained claims are never deleted, runtime
    is removed only when it is the server's own and pinned by UID and revision,
    and runtime is created only for a world that is unfenced, checked and no
    longer marked cold. *)

From Stdlib Require Import Ascii.
From stdpp Require Import base tactics list strings gmap numbers.
From S2P Require Import Prelude GoStrings GoJson GoNet GoNetip K8s ApiTypes Operations GameDefinition KubeObjects KubePlan KubeApi TraceLogic WorkerInput OperationDigest KubeDestroy WorkerPods KubeRestore OperationFence ServerStatus RuntimeDrain ServerController ServerSpec.
Open Scope string_scope.
Open Scope list_scope.

(** ** What an event does *)

Definition delete_of (e : event) : option (ObjectMeta * DeleteOptions) :=
  match e with Ev (ApiDelete k o opts) _ => Some (object_meta k o, opts) | _ => None end.
Definition is_claim {A} (k : kind A) : bool := match k with KPersistentVolumeClaim => true | _ => false end.
Definition is_runtime {A} (k : kind A) : bool :=
  match k with KDeployment | KConfigMap | KService => true | _ => false end.
Definition claim_removed (e : event) : bool :=
  match e with Ev (ApiDelete k _ _) _ => is_claim k | _ => false end.
Definition claim_written (e : event) : bool :=
  match e with
  | Ev (ApiCreate k _) _ | Ev (ApiUpdate k _) _ | Ev (ApiUpdateStatus k _) _ | Ev (ApiApply k _) _
  | Ev (ApiMergePatch k _ _) _ | Ev (ApiJSONPatch k _ _) _ => is_claim k
  | _ => false
  end.
Definition runtime_started (e : event) : bool :=
  match e with
  | Ev (ApiCreate k _) _ | Ev (ApiUpdate k _) _ | Ev (ApiUpdateStatus k _) _ | Ev (ApiApply k _) _
  | Ev (ApiMergePatch k _ _) _ | Ev (ApiJSONPatch k _ _) _ => is_runtime k
  | _ => false
  end.
Definition as_deployment {A} (k : kind A) : A -> option Deployment :=
  match k in kind T return T -> option Deployment with KDeployment => Some | _ => fun _ => None end.
Definition workload_written (e : event) : option Deployment :=
  match e with
  | Ev (ApiCreate k o) _ | Ev (ApiUpdate k o) _ | Ev (ApiUpdateStatus k o) _ | Ev (ApiApply k o) _
  | Ev (ApiMergePatch k _ o) _ | Ev (ApiJSONPatch k o _) _ => as_deployment k o
  | _ => None
  end.

Section Safety.
Context `{RegexpEngine} `{NameValidation} `{JsonSchema} `{QuantityText} `{FindConditions}.
Variable r : GameServerReconciler.
Abbreviation rd := (runtimeReader r).

Definition running (server : GameServer) : Prop := gs_DesiredState (gs_Spec server) <> DesiredStateStopped.
Definition stopped (server : GameServer) : Prop := gs_DesiredState (gs_Spec server) = DesiredStateStopped.

(** [plan] is what the catalog's adapter plans for [server]. *)
Definition planned_for (server : GameServer) (plan : Plan) : Prop :=
  exists catalog definition, sr_Catalog r = Some catalog /\
    catalog_Get catalog (gs_Game (gs_Spec server)) = Ok definition /\
    Build (sr_materializeConfigurationScript r) server definition = inr plan.

(** ** Evidence in the reads of a pass *)

(** A backup or restore that holds the Lease settles exactly this generation
    and state of this server. *)
Definition settlement (server : GameServer) (identity : string) (lease : Lease) : Prop :=
  om_Name (ls_meta lease) = DataOperationLeaseName identity /\
  lease_label lease LabelInstance = server_Name server /\
  lease_annotation lease AnnotationRuntimeSettlementGeneration = FormatInt (gs_Generation server) /\
  lease_annotation lease AnnotationRuntimeSettlementState = DesiredState_string (gs_DesiredState (gs_Spec server)).
(** The Lease lets the server run: a settlement of the operation that holds it,
    or a receipt that allows exactly this specification. *)
Definition settles (server : GameServer) (identity : string) (lease : Lease) (es : list event) : Prop :=
  lease_label lease LabelManagedBy = ManagerName /\ lease_label lease LabelDataIdentity = identity /\
  exists holder, ls_HolderIdentity lease = Some holder /\ holder <> "" /\
    (if decide (lease_label lease operationReceiptUIDLabel = "")
     then settlement server identity lease
     else exists o, Ev (ApiGet KArcadeOperation rd
                      (Key (server_Namespace server) (lease_annotation lease operationReceiptNameAnnotation))) (inr o) ∈ es /\
                    receipt_allows server lease o = true).
(** No data operation owns the world, as read past the cache. *)
Definition unlocked (server : GameServer) (identity : string) (es : list event) : Prop :=
  exists answer,
    Ev (ApiGet KLease rd (Key (server_Namespace server) (DataOperationLeaseName identity))) answer ∈ es /\
    match answer with
    | inl e => e = NotFound
    | inr lease => settles server identity lease es
    end.
(** A data operation owns the world. *)
Definition fenced (server : GameServer) (identity : string) (es : list event) : Prop :=
  exists lease, Ev (ApiGet KLease rd (Key (server_Namespace server) (DataOperationLeaseName identity))) (inr lease) ∈ es.

Definition claim_read (claim : DataClaimPlan) (answer : apierr + PersistentVolumeClaim) (es : list event) : Prop :=
  Ev (ApiGet KPersistentVolumeClaim rd (claim_key claim)) answer ∈ es.
(** A claim is still to be created, or exactly the planned one. *)
Definition checked (claim : DataClaimPlan) (es : list event) : Prop :=
  (RequiredUID claim = "" /\ claim_read claim (inl NotFound) es) \/
  (exists actual, claim_read claim (inr actual) es /\ validateExistingDataClaim actual claim = Ok tt).
(** A claim carries no evidence that it stayed cold since a backup. *)
Definition warm (server : GameServer) (claim : DataClaimPlan) (es : list event) : Prop :=
  exists answer,
    Ev (ApiGet KPersistentVolumeClaim rd (Key (server_Namespace server) (om_Name (pvc_meta (Desired claim))))) answer ∈ es /\
    match answer with
    | inl e => e = NotFound /\ RequiredUID claim = ""
    | inr actual =>
        mget (om_Annotations (pvc_meta actual)) AnnotationColdBackupUID = "" \/
        (validateExistingDataClaim actual claim = Ok tt /\
         Ev (ApiMergePatch KPersistentVolumeClaim actual (without_cold_marker actual)) None ∈ es)
    end.

(** Nothing that could write the server's data survives. *)
Definition drained (server : GameServer) (volumes : list Volume) (es : list event) : Prop :=
  exists retained sets pods,
    let claims := selected_claims server ∪ volume_claims volumes ∪ labelled_claims server (Items retained) in
    Ev (ApiList KPersistentVolumeClaim rd (Some (server_Namespace server)) (retained_labels server)) (inr retained) ∈ es /\
    Ev (ApiList KReplicaSet rd (Some (server_Namespace server)) ∅) (inr sets) ∈ es /\
    Ev (ApiList KPod rd (Some (server_Namespace server)) ∅) (inr pods) ∈ es /\
    incomplete retained = false /\ incomplete sets = false /\ incomplete pods = false /\
    (forall s, s ∈ Items sets ->
       runtimePodBlocksDrain (rset_TemplateLabels s) (rset_TemplateSpec s) (server_Name server) claims = false) /\
    (forall p, p ∈ Items pods ->
       runtimePodBlocksDrain (om_Labels (pod_meta p)) (pod_Spec p) (server_Name server) claims = false).

(** The runtime is gone: every object of it was read absent, and it drained. *)
Definition runtime_absent (server : GameServer) (es : list event) : Prop :=
  Ev (ApiGet KDeployment rd (runtime_key server "")) (inl NotFound) ∈ es /\
  Ev (ApiGet KConfigMap rd (runtime_key server "-configuration")) (inl NotFound) ∈ es /\
  Ev (ApiGet KService rd (runtime_key server "")) (inl NotFound) ∈ es /\ drained server [] es.

(** The world may be mounted: not fenced, every claim checked and warm. *)
Record startable (server : GameServer) (plan : Plan) (es : list event) : Prop := {
  sb_running : running server;
  sb_plan : planned_for server plan;
  sb_unlocked : unlocked server (plan_DataIdentity plan) es;
  sb_checked : forall c, c ∈ DataClaims plan -> checked c es;
  sb_warm : forall c, c ∈ DataClaims plan -> warm server c es }.

(** A ready claim: bound, exact, with a volume of the requested capacity. *)
Definition bound (claim : DataClaimPlan) (ref : RetainedDataClaimReference) (es : list event) : Prop :=
  exists actual, claim_read claim (inr actual) es /\ observe_claim claim actual = inr ref.

(** ** Evidence only grows *)

Lemma settles_mono server identity lease es es' :
  es ⊆ es' -> settles server identity lease es -> settles server identity lease es'.
Proof.
  intros Hs (? & ? & h & ? & ? & Hc). split_and!; try done. exists h. split_and!; try done.
  destruct (decide _); [done|]. destruct Hc as (o & ? & ?). eauto.
Qed.
Lemma unlocked_mono server identity es es' : es ⊆ es' -> unlocked server identity es -> unlocked server identity es'.
Proof. intros Hs ([e|lease] & ? & ?); [exists (inl e) | exists (inr lease)]; eauto using settles_mono. Qed.
Lemma checked_mono c es es' : es ⊆ es' -> checked c es -> checked c es'.
Proof. intros Hs [[? ?]|(a & ? & ?)]; [left | right; exists a]; unfold claim_read in *; auto. Qed.
Lemma warm_mono server c es es' : es ⊆ es' -> warm server c es -> warm server c es'.
Proof.
  intros Hs ([e|a] & Hin & Hc); [exists (inl e); auto|]. exists (inr a). split; [auto|].
  destruct Hc as [?|[? ?]]; auto.
Qed.
Lemma drained_mono server v es es' : es ⊆ es' -> drained server v es -> drained server v es'.
Proof. intros Hs (a & b & c & ? & ? & ? & ?). exists a, b, c. cbn. split_and!; naive_solver. Qed.
Lemma bound_mono c ref es es' : es ⊆ es' -> bound c ref es -> bound c ref es'.
Proof. intros Hs (a & ? & ?). exists a. unfold claim_read in *. auto. Qed.
Lemma startable_mono server plan es es' : es ⊆ es' -> startable server plan es -> startable server plan es'.
Proof. intros Hs []. split; eauto using unlocked_mono, checked_mono, warm_mono. Qed.

(** ** What the controller may write *)

Definition applied (desired d : Deployment) (es : list event) : Prop :=
  Ev (ApiCreate KDeployment desired) (inr d) ∈ es \/
  exists existing updated,
    Ev (ApiApply KDeployment (with_dep_identity desired (om_UID (dep_meta existing)) (om_ResourceVersion (dep_meta existing))))
      (inr updated) ∈ es /\
    Ev (ApiGet KDeployment rd (key_of (dep_meta desired))) (inr d) ∈ es /\
    applied_workload desired existing updated d = inr d.
Definition published (desired service : Service) (es : list event) : Prop :=
  Ev (ApiCreate KService desired) (inr service) ∈ es \/
  Ev (ApiGet KService CachedReader (key_of (svc_meta desired))) (inr service) ∈ es.

(** Everything Ready reports was observed in this pass. *)
Record ready_evidence (server : GameServer) (plan : Plan) (endpoints : list ObservedEndpoint)
    (data : option RetainedDataReference) (es : list event) : Prop := {
  re_startable : startable server plan es;
  re_storage : exists selection, data = Some selection /\
    Forall2 (fun c ref => bound c ref es) (DataClaims plan) (rdr_Claims selection);
  re_workload : exists w d, Workload plan = Some w /\ applied w d es /\ workloadAvailable d = true;
  re_service : exists s service, PlayerService plan = Some s /\ published s service es /\
    endpoints = observedEndpoints service s /\ endpoints <> [] }.

Definition reported (server : GameServer) (phase : GameServerPhase) (endpoints : list ObservedEndpoint)
    (data : option RetainedDataReference) (es : list event) : Prop :=
  (phase = PhaseReady -> exists plan, ready_evidence server plan endpoints data es) /\
  (phase = PhaseStopped -> stopped server /\ runtime_absent server es) /\
  (phase <> PhaseReady -> endpoints = []) /\
  (forall selection, data = Some selection -> exists plan, planned_for server plan /\
     unlocked server (plan_DataIdentity plan) es /\
     Forall2 (fun c ref => bound c ref es) (DataClaims plan) (rdr_Claims selection)).

(** The disposable objects of a server, with their names. *)
Inductive runtime_kind : forall A, kind A -> string -> Prop :=
| RKDeployment : runtime_kind Deployment KDeployment ""
| RKConfigMap : runtime_kind ConfigMap KConfigMap "-configuration"
| RKService : runtime_kind Service KService "".

(** The runtime is to go: the server is to stop, or a data operation owns its world. *)
Definition removable (server : GameServer) (es : list event) : Prop :=
  stopped server \/ exists plan, planned_for server plan /\ fenced server (plan_DataIdentity plan) es.

(** Storage may converge: every claim was checked and the world is unfenced. *)
Record convergeable (server : GameServer) (plan : Plan) (es : list event) : Prop := {
  cv_plan : planned_for server plan;
  cv_unlocked : unlocked server (plan_DataIdentity plan) es;
  cv_checked : forall c, c ∈ DataClaims plan -> checked c es }.

Inductive server_write (server : GameServer) (es : list event) : event -> Prop :=
| WStatus phase progress endpoints data now x :
    reported server phase endpoints data es ->
    server_write server es (Ev (ApiUpdateStatus KGameServer
      (with_server_status server (next_status server phase progress endpoints data now))) x)
| WDelete A (k : kind A) suffix (object : A) propagation x :
    runtime_kind A k suffix -> Ev (ApiGet k rd (runtime_key server suffix)) (inr object) ∈ es ->
    requireControlledBy (object_meta k object) (wanted_owner server) = Ok tt -> removable server es ->
    server_write server es (Ev (ApiDelete k object (MkDeleteOptions (Some (om_UID (object_meta k object)))
      (Some (om_ResourceVersion (object_meta k object))) propagation)) x)
| WCreateClaim plan c x :
    convergeable server plan es -> c ∈ DataClaims plan -> RequiredUID c = "" ->
    Ev (ApiGet KPersistentVolumeClaim CachedReader (claim_key c)) (inl NotFound) ∈ es ->
    server_write server es (Ev (ApiCreate KPersistentVolumeClaim (Desired c)) x)
| WExpandClaim plan c existing x :
    convergeable server plan es -> c ∈ DataClaims plan -> ExternallySelected c = false ->
    Ev (ApiGet KPersistentVolumeClaim CachedReader (claim_key c)) (inr existing) ∈ es ->
    validateExistingDataClaim existing c = Ok tt ->
    (quantity (pvc_StorageRequest existing) < quantity (pvc_StorageRequest (Desired c)))%Z ->
    server_write server es (Ev (ApiUpdate KPersistentVolumeClaim
      (with_storage_request existing (quantity (pvc_StorageRequest (Desired c))))) x)
| WClearMarker plan c existing x :
    running server -> convergeable server plan es -> c ∈ DataClaims plan ->
    validateExistingDataClaim existing c = Ok tt ->
    server_write server es (Ev (ApiMergePatch KPersistentVolumeClaim existing (without_cold_marker existing)) x)
| WCreateConfiguration plan desired x :
    startable server plan es -> Configuration plan = Some desired ->
    server_write server es (Ev (ApiCreate KConfigMap desired) x)
| WUpdateConfiguration plan desired existing x :
    startable server plan es -> Configuration plan = Some desired ->
    require_owner (cm_meta existing) (cm_meta desired) = None ->
    server_write server es (Ev (ApiUpdate KConfigMap (updated_configuration existing desired)) x)
| WCreateWorkload plan desired x :
    startable server plan es -> Workload plan = Some desired ->
    Ev (ApiGet KDeployment rd (key_of (dep_meta desired))) (inl NotFound) ∈ es ->
    drained server (pod_Volumes (dep_PodSpec desired)) es ->
    server_write server es (Ev (ApiCreate KDeployment desired) x)
| WApplyWorkload plan desired existing x :
    startable server plan es -> Workload plan = Some desired ->
    Ev (ApiGet KDeployment rd (key_of (dep_meta desired))) (inr existing) ∈ es ->
    require_owner (dep_meta existing) (dep_meta desired) = None -> deleting (dep_meta existing) = false ->
    server_write server es (Ev (ApiApply KDeployment
      (with_dep_identity desired (om_UID (dep_meta existing)) (om_ResourceVersion (dep_meta existing)))) x)
| WCreateService plan desired x :
    startable server plan es -> PlayerService plan = Some desired ->
    server_write server es (Ev (ApiCreate KService desired) x)
| WApplyService plan desired existing x :
    startable server plan es -> PlayerService plan = Some desired ->
    require_owner (svc_meta existing) (svc_meta desired) = None ->
    server_write server es (Ev (ApiApply KService desired) x).

Lemma convergeable_mono server plan es es' : es ⊆ es' -> convergeable server plan es -> convergeable server plan es'.
Proof. intros Hs []. split; eauto using unlocked_mono, checked_mono. Qed.
Lemma applied_mono w d es es' : es ⊆ es' -> applied w d es -> applied w d es'.
Proof. intros Hs [?|(x & u & ? & ? & ?)]; [left; auto | right; exists x, u; auto]. Qed.
Lemma published_mono s d es es' : es ⊆ es' -> published s d es -> published s d es'.
Proof. intros Hs [?|?]; [left | right]; auto. Qed.
Lemma fence_seen_mono server i es es' : es ⊆ es' -> fenced server i es -> fenced server i es'.
Proof. intros Hs (l & ?). exists l. auto. Qed.
Lemma removable_mono server es es' : es ⊆ es' -> removable server es -> removable server es'.
Proof. intros Hs [?|(p & ? & ?)]; [by left | right; exists p; eauto using fence_seen_mono]. Qed.
Lemma runtime_absent_mono server es es' : es ⊆ es' -> runtime_absent server es -> runtime_absent server es'.
Proof. intros Hs (? & ? & ? & ?). split_and!; eauto using drained_mono. Qed.

(** ** The reads give the evidence *)

Lemma restore_settles_settlement server identity lease holder :
  restore_settles server identity lease holder = true -> settlement server identity lease.
Proof.
  unfold restore_settles, RestoreOperationLeaseMatches. destruct (_ || _)%bool eqn:E; [done|].
  rewrite !orb_false_iff, !negb_false_iff, !bool_decide_eq_true in E. destruct_and!.
  rewrite !andb_true_iff, !bool_decide_eq_true. intros ?. destruct_and!. by split_and!.
Qed.
Lemma backup_settles_settlement server identity lease holder : lease_label lease LabelDataIdentity = identity ->
  backup_settles server lease holder = true -> settlement server identity lease.
Proof.
  intros Hi. unfold backup_settles, BackupOperationLeaseMatches. destruct (_ || _)%bool eqn:E.
  { rewrite !andb_false_r. done. }
  rewrite Hi, !andb_true_iff, !bool_decide_eq_true. intros ?. destruct_and!.
  split_and!; try done. by match goal with Hd : gs_DesiredState _ = _ |- _ => rewrite Hd end.
Qed.

Lemma dataOperationLocked_answer server identity es locked :
  steps (dataOperationLocked r server identity) es (inr locked) ->
  if locked then fenced server identity es else unlocked server identity es.
Proof.
  unfold dataOperationLocked. intros (es1 & es2 & x & -> & ->%steps_call & Hs)%steps_bind.
  destruct x as [[|m]|lease]; [by destruct Hs as [-> [= ->]]; exists (inl NotFound); split; [left|] | by destruct Hs|].
  assert (fenced server identity ([Ev (ApiGet KLease rd
    (Key (server_Namespace server) (DataOperationLeaseName identity))) (inr lease)] ++ es2)) as Hf by (exists lease; by left).
  destruct (_ || _ || _)%bool eqn:Hm; [by destruct Hs as [_ [= ->]]|].
  rewrite !orb_false_iff, !negb_false_iff, !bool_decide_eq_true, bool_decide_eq_false in Hm.
  destruct Hm as [[Hm Hi] Hh]. destruct (ls_HolderIdentity lease) as [holder|] eqn:Eh; [|done]. cbn in Hh, Hs.
  assert (forall es, (if decide (lease_label lease operationReceiptUIDLabel = "")
     then settlement server identity lease
     else exists o, Ev (ApiGet KArcadeOperation rd
            (Key (server_Namespace server) (lease_annotation lease operationReceiptNameAnnotation))) (inr o) ∈ es /\
          receipt_allows server lease o = true) -> settles server identity lease es) as Hsettle.
  { intros es Hc. split_and!; try done. by exists holder. }
  assert (forall es, settles server identity lease es -> unlocked server identity ([Ev (ApiGet KLease rd
    (Key (server_Namespace server) (DataOperationLeaseName identity))) (inr lease)] ++ es)) as Hun.
  { intros es ?. exists (inr lease). split; [by left | by eapply settles_mono; [|done]; in_trace]. }
  case_bool_decide as Hr; cbn [negb] in Hs.
  - assert (locked = negb (restore_settles server identity lease holder) \/
            locked = negb (backup_settles server lease holder)) as Hl.
    { destruct (negb (bool_decide (lease_label lease LabelRestoreUID = ""))); destruct Hs as [_ [= ->]]; auto. }
    destruct locked; [done|]. apply Hun, Hsettle. rewrite decide_True by done.
    destruct Hl as [Hl|Hl]; symmetry in Hl; apply negb_false_iff in Hl;
      [by eapply restore_settles_settlement | by eapply backup_settles_settlement].
  - destruct Hs as (o & es' & -> & [-> [= ->]]).
    destruct o as [e|o]; [done|]. destruct (receipt_allows server lease o) eqn:Ho; cbn [negb]; [|done].
    apply Hun, Hsettle. rewrite decide_False by done. exists o. split; [by left | done].
Qed.

Lemma preflight_claim_checked c es : steps (preflight_claim r c) es None -> checked c es.
Proof.
  unfold preflight_claim. intros (es1 & es2 & x & -> & ->%steps_call & [-> Hs])%steps_bind.
  destruct x as [[|m]|actual].
  - left. destruct (negb _) eqn:E; [done|]. apply negb_false_iff, bool_decide_eq_true in E. split; [done | by left].
  - done.
  - right. exists actual. split; [by left|]. destruct (foreign_identity _ _).
    + destruct (validateExistingDataClaimBase _ _); [|done]. by destruct (bool_decide _).
    + by destruct (validateExistingDataClaim actual c) as [[]|].
Qed.

Lemma preflightStorage_checked server plan es : steps (preflightStorage r server plan) es None ->
  forall c, c ∈ DataClaims plan -> checked c es.
Proof.
  unfold preflightStorage. intros (es1 & es2 & [f|] & -> & Hl & Hs)%steps_bind c Hc; [by destruct Hs|].
  destruct (loop_none_each _ _ _ Hl c Hc) as (es' & Hsub & Hs'). eapply checked_mono; [|by eapply preflight_claim_checked].
  set_solver.
Qed.

Lemma runtimePodsRemain_drained server volumes es :
  steps (runtimePodsRemain rd server volumes) es (inr false) -> drained server volumes es.
Proof.
  unfold runtimePodsRemain, list_in. intros (es1 & es2 & x & -> & ->%steps_call & Hs)%steps_bind.
  destruct x as [e|retained]; [by destruct Hs|]. destruct (incomplete retained) eqn:E1; [by destruct Hs|].
  apply steps_bind in Hs as (es3 & es4 & x & -> & ->%steps_call & Hs).
  destruct x as [e|sets]; [by destruct Hs|]. destruct (incomplete sets) eqn:E2; [by destruct Hs|].
  destruct (existsb _ _) eqn:Hx; [by destruct Hs|].
  apply steps_bind in Hs as (es5 & es6 & x & -> & ->%steps_call & [-> Hs]).
  destruct x as [e|pods]; [done|]. destruct (incomplete pods) eqn:E3; [done|]. injection Hs as Hp. symmetry in Hp.
  exists retained, sets, pods. cbn. split_and!; try done; try (set_solver).
  - intros s Hs. exact (existsb_false_elem _ _ Hx s Hs).
  - intros p Hin. exact (existsb_false_elem _ _ Hp p Hin).
Qed.

Lemma delete_resource_absent {A} server (k : kind A) suffix kd ct rs pg es :
  steps (delete_resource r server k suffix kd ct rs pg) es (inr None) ->
  Ev (ApiGet k rd (runtime_key server suffix)) (inl NotFound) ∈ es.
Proof.
  unfold delete_resource. intros (es1 & es2 & x & -> & ->%steps_call & Hs)%steps_bind.
  destruct x as [[|m]|a]; [by left | by destruct Hs|]. destruct (requireControlledBy _ _); [|by destruct Hs].
  apply steps_bind in Hs as (e1 & e2 & x & _ & _ & [_ Hs]). by destruct x as [[]|].
Qed.

Lemma deleteControlledRuntime_absent server es :
  steps (deleteControlledRuntime r server) es (inr false) -> runtime_absent server es.
Proof.
  unfold deleteControlledRuntime. intros (e1 & f1 & [|d] & -> & Hd & Hs)%steps_bind; [by destruct Hs|].
  apply steps_bind in Hs as (e2 & f2 & [|c] & -> & Hc & Hs); [by destruct Hs|].
  apply steps_bind in Hs as (e3 & f3 & [|s] & -> & Hsv & Hs); [by destruct Hs|].
  apply steps_bind in Hs as (e4 & f4 & [|b] & -> & Hr & [-> [= E]]). symmetry in E.
  rewrite !orb_false_iff in E. destruct E as [[[Ed Ec] Es] ->].
  destruct d; [done|]. destruct c; [done|]. destruct s; [done|].
  apply delete_resource_absent in Hd, Hc, Hsv. apply runtimePodsRemain_drained in Hr.
  split_and!; [in_trace..|]. eapply drained_mono; [|done]. in_trace.
Qed.

Lemma clear_marker_warm server c es : steps (clear_marker r server c) es None -> warm server c es.
Proof.
  unfold clear_marker. intros (es1 & es2 & x & -> & ->%steps_call & Hs)%steps_bind.
  exists x. split; [by left|]. destruct x as [[|m]|actual].
  - destruct Hs as [_ Hs]. case_bool_decide; [done | done].
  - by destruct Hs.
  - case_bool_decide as Hm; [by left|]. right. destruct (_ || _ || _)%bool eqn:E; [by destruct Hs|].
    rewrite !orb_false_iff, negb_false_iff in E. destruct E as [_ Hv].
    apply steps_bind in Hs as (es3 & es4 & x & -> & ->%steps_call & [-> Hs]). destruct x; [done|].
    split; [by destruct (validateExistingDataClaim actual c) as [[]|] | set_solver].
Qed.
Lemma clearColdBackupMarkers_warm server claims es : steps (clearColdBackupMarkers r server claims) es None ->
  forall c, c ∈ claims -> warm server c es.
Proof.
  unfold clearColdBackupMarkers. case_bool_decide; [by intros [_ ?]|]. intros Hl c Hc.
  destruct (loop_none_each _ _ _ Hl c Hc) as (es' & Hsub & Hs'). eapply warm_mono; [done | by apply clear_marker_warm].
Qed.

Lemma observe_claims_bound selection claims es o :
  steps (observe_claims r selection claims) es (inr o) ->
  (so_ready o = false /\ so_data o = None) \/
  (so_ready o = true /\ exists identity refs, so_data o = Some (MkDataRef identity (rdr_Claims selection ++ refs)) /\
     Forall2 (fun c ref => bound c ref es) claims refs).
Proof.
  revert selection es. induction claims as [|c claims IH]; intros selection es; cbn [observe_claims].
  - intros [-> [= ->]]. right. split; [done|]. exists (rdr_Identity selection), []. rewrite app_nil_r.
    split; [by destruct selection | constructor].
  - intros (es1 & es2 & x & -> & ->%steps_call & Hs)%steps_bind. destruct x as [e|actual]; [by destruct Hs|].
    destruct (observe_claim c actual) as [stop|ref] eqn:Ho.
    + destruct Hs as [-> <-]. left. unfold observe_claim in Ho.
      repeat (case_match; simplify_eq; try (by split)).
    + apply IH in Hs as [?|(Hr & identity & refs & Hd & HF)]; [by left|]. right. split; [done|].
      exists identity, (ref :: refs). rewrite Hd. cbn [rdr_Claims]. rewrite <- app_assoc. split; [done|].
      constructor; [exists actual; split; [by left | done]|].
      eapply Forall2_impl; [|exact HF]. intros c' ref' Hb. eapply bound_mono; [|exact Hb]. in_trace.
Qed.
Lemma observeStorage_bound claims es o : steps (observeStorage r claims) es (inr o) ->
  (so_ready o = false /\ so_data o = None) \/
  (so_ready o = true /\ exists identity refs, so_data o = Some (MkDataRef identity refs) /\
     Forall2 (fun c ref => bound c ref es) claims refs).
Proof. intros Hs. by apply observe_claims_bound in Hs. Qed.

Lemma create_workload_applied server w es d : steps (create_workload r server w) es (inr d) -> applied w d es.
Proof.
  unfold create_workload. intros (es1 & es2 & [e|[]] & -> & _ & Hs)%steps_bind; [by destruct Hs..|].
  apply steps_bind in Hs as (es3 & es4 & x & -> & ->%steps_call & [-> Hs]). destruct x as [e|d']; [done|].
  injection Hs as ->. left. in_trace.
Qed.
Lemma applied_workload_actual desired existing updated actual d :
  applied_workload desired existing updated actual = inr d -> d = actual.
Proof. unfold applied_workload. repeat case_match; naive_solver. Qed.
Lemma reconcileDeployment_applied server w es d : steps (reconcileDeployment r server w) es (inr d) -> applied w d es.
Proof.
  unfold reconcileDeployment. intros (es1 & es2 & x & -> & ->%steps_call & Hs)%steps_bind.
  destruct x as [[|m]|existing]; [|by destruct Hs|].
  - eapply applied_mono; [|by eapply create_workload_applied]. in_trace.
  - destruct (require_owner _ _); [by destruct Hs|]. destruct (deleting _); [by destruct Hs|].
    apply steps_bind in Hs as (es3 & es4 & x & -> & ->%steps_call & Hs). destruct x as [e|updated]; [by destruct Hs|].
    apply steps_bind in Hs as (es5 & es6 & x & -> & ->%steps_call & [-> Hs]). destruct x as [e|actual]; [done|].
    symmetry in Hs. pose proof (applied_workload_actual _ _ _ _ _ Hs) as ->.
    right. exists existing, updated. split_and!; [in_trace | in_trace | done].
Qed.
Lemma reconcileService_published s es service : steps (reconcileService s) es (inr service) -> published s service es.
Proof.
  unfold reconcileService. intros (es1 & es2 & x & -> & ->%steps_call & Hs)%steps_bind.
  destruct x as [[|m]|existing]; [|by destruct Hs|].
  - apply steps_bind in Hs as (es3 & es4 & x & -> & ->%steps_call & [-> Hs]). destruct x as [e|s']; [done|].
    injection Hs as ->. left. in_trace.
  - destruct (require_owner _ _); [by destruct Hs|].
    apply steps_bind in Hs as (es3 & es4 & x & -> & ->%steps_call & Hs). destruct x as [e|updated]; [by destruct Hs|].
    apply steps_bind in Hs as (es5 & es6 & x & -> & ->%steps_call & [-> Hs]). destruct x as [e|actual]; [done|].
    injection Hs as ->. right. in_trace.
Qed.

(** ** The parts that only read *)

Lemma reads_dataOperationLocked server identity : reads_only (dataOperationLocked r server identity).
Proof. unfold dataOperationLocked, receiptRuntimeAllowed. reads_tac. Qed.
Lemma reads_preflightStorage server plan : reads_only (preflightStorage r server plan).
Proof. unfold preflightStorage, preflight_claim. reads_tac. Qed.
Lemma reads_preflightRuntime server : reads_only (preflightRuntime server).
Proof. unfold preflightRuntime, or_else, preflight_resource. reads_tac. Qed.
Lemma reads_runtimePodsRemain server volumes : reads_only (runtimePodsRemain rd server volumes).
Proof. unfold runtimePodsRemain, list_in. reads_tac. Qed.
Lemma reads_observe_claims selection claims : reads_only (observe_claims r selection claims).
Proof.
  revert selection. induction claims as [|c claims IH]; intros selection; cbn [observe_claims]; reads_tac. apply IH.
Qed.
Lemma reads_runtimeReplacementDraining server desired : reads_only (runtimeReplacementDraining r server desired).
Proof.
  unfold runtimeReplacementDraining. reads_tac. apply reads_runtimePodsRemain.
Qed.

(** ** Every write is allowed *)

Lemma reported_plain server phase es : phase <> PhaseReady -> phase <> PhaseStopped -> reported server phase [] None es.
Proof. intros ? ?. by split_and!. Qed.
Lemma ready_evidence_mono server plan endpoints data es es' :
  es ⊆ es' -> ready_evidence server plan endpoints data es -> ready_evidence server plan endpoints data es'.
Proof.
  intros Hs [? (sel & ? & ?) (w & d & ? & ? & ?) (s & v & ? & ? & ? & ?)]. split.
  - by eapply startable_mono.
  - exists sel. split; [done|]. eapply Forall2_impl; [|done]. intros. by eapply bound_mono.
  - exists w, d. eauto using applied_mono.
  - exists s, v. eauto using published_mono.
Qed.
Lemma reported_mono server phase endpoints data es es' :
  es ⊆ es' -> reported server phase endpoints data es -> reported server phase endpoints data es'.
Proof.
  intros Hs (Hr & Hst & He & Hd). split_and!; [..|done|].
  - intros E. destruct (Hr E) as (p & ?). exists p. by eapply ready_evidence_mono.
  - intros E. destruct (Hst E). eauto using runtime_absent_mono.
  - intros sel E. destruct (Hd sel E) as (p & ? & ? & ?). exists p. split_and!; [done | by eapply unlocked_mono|].
    eapply Forall2_impl; [|done]. intros. by eapply bound_mono.
Qed.

Abbreviation ok server := (writes_ok (server_write server)).

Lemma ok_status server acc phase progress endpoints data :
  reported server phase endpoints data acc ->
  ok server acc (updateStatusWithData (sr_has_Now r) server phase progress endpoints data).
Proof.
  intros Hr. unfold updateStatusWithData. apply writes_bind.
  { apply writes_reads. unfold clock. reads_tac. }
  intros es now _. destruct (bool_decide _); [apply writes_ret|]. apply writes_last. intros x. apply WStatus.
  eapply reported_mono; [|done]. in_trace.
Qed.
Lemma ok_status_then {B} server acc phase progress endpoints data (f : option cerror -> B) :
  reported server phase endpoints data acc ->
  ok server acc (e ← updateStatusWithData (sr_has_Now r) server phase progress endpoints data; Ret (f e)).
Proof. intros Hr. apply writes_bind; [by apply ok_status | intros; apply writes_ret]. Qed.
Lemma ok_report server acc progress failure : ok server acc (report r server progress failure).
Proof.
  unfold report, reportFailure, updateStatus. apply writes_bind; [|intros; apply writes_ret].
  by apply ok_status_then, reported_plain.
Qed.
Lemma ok_stopping server acc progress : ok server acc (stopping_status r server progress).
Proof. by apply ok_status_then, reported_plain. Qed.

(** A part that only reads, then the rest with its evidence. *)
Lemma ok_reads {A B} server acc (p : prog A) (f : A -> prog B) :
  reads_only p -> (forall es a, steps p es a -> ok server (acc ++ es) (f a)) -> ok server acc (p ≫= f).
Proof. intros Hp Hf. apply writes_bind; [by apply writes_reads | done]. Qed.

Lemma ok_delete_resource {A} server acc (k : kind A) suffix kd ct rs pg :
  runtime_kind A k suffix -> removable server acc -> ok server acc (delete_resource r server k suffix kd ct rs pg).
Proof.
  intros Hk Hrm. unfold delete_resource. apply writes_get; [done|].
  intros [[|m]|object]; try apply writes_ret. destruct (requireControlledBy _ _) as [[]|e] eqn:Hc; [|apply writes_ret].
  apply writes_last. intros x. apply WDelete with suffix; try done; [in_trace|].
  eapply removable_mono; [|done]. in_trace.
Qed.
Lemma ok_deleteControlledRuntime server acc : removable server acc -> ok server acc (deleteControlledRuntime r server).
Proof.
  intros Hrm. unfold deleteControlledRuntime.
  apply writes_bind; [by apply ok_delete_resource; [constructor|]|]. intros e1 [f|d] _; [apply writes_ret|].
  apply writes_bind.
  { apply ok_delete_resource; [constructor|]. eapply removable_mono; [|done]. in_trace. }
  intros e2 [f|c] _; [apply writes_ret|]. apply writes_bind.
  { apply ok_delete_resource; [constructor|]. eapply removable_mono; [|done]. in_trace. }
  intros e3 [f|s] _; [apply writes_ret|]. apply ok_reads; [apply reads_runtimePodsRemain|]. intros; apply writes_ret.
Qed.

Lemma validate_ok (x : result unit) : is_ok x = true -> x = Ok tt.
Proof. by destruct x as [[]|]. Qed.

Lemma ok_converge_claim server plan acc c :
  convergeable server plan acc -> c ∈ DataClaims plan -> ok server acc (converge_claim c).
Proof.
  intros Hcv Hc. unfold converge_claim. apply writes_bind; [|intros; apply writes_ret].
  unfold reconcileDataClaim. apply writes_get; [done|].
  intros [[|m]|existing]; try apply writes_ret.
  - case_bool_decide as Hu; cbn [negb]; [|apply writes_ret]. apply writes_last. intros x.
    eapply WCreateClaim; [|done..|in_trace]. eapply convergeable_mono; [|done]. in_trace.
  - destruct (foreign_identity _ _); [apply writes_ret|].
    destruct (validateExistingDataClaim existing c) as [[]|e] eqn:Hv; [|apply writes_ret].
    destruct (_ <=? _)%Z eqn:Hsize; [apply writes_ret|].
    destruct (ExternallySelected c) eqn:Hx; [apply writes_ret|]. apply writes_last. intros x.
    eapply WExpandClaim; try done; [|in_trace|by apply Z.leb_gt]. eapply convergeable_mono; [|done]. in_trace.
Qed.

Lemma ok_clear_marker server plan acc c :
  running server -> convergeable server plan acc -> c ∈ DataClaims plan -> ok server acc (clear_marker r server c).
Proof.
  intros Hrun Hcv Hc. unfold clear_marker. apply writes_get; [done|].
  intros [[|m]|claim]; try apply writes_ret. destruct (bool_decide _); [apply writes_ret|].
  destruct (_ || _ || _)%bool eqn:E; [apply writes_ret|].
  rewrite !orb_false_iff, negb_false_iff in E. destruct E as [_ Hv]. apply writes_last. intros x.
  eapply WClearMarker; [done | | done | by apply validate_ok]. eapply convergeable_mono; [|done]. in_trace.
Qed.

(** What [observeStorage] leaves behind. *)
Definition stored (plan : Plan) (o : storageObservation) (es : list event) : Prop :=
  (so_ready o = false /\ so_data o = None) \/
  (so_ready o = true /\ exists identity refs, so_data o = Some (MkDataRef identity refs) /\
     Forall2 (fun c ref => bound c ref es) (DataClaims plan) refs).
Lemma stored_mono plan o es es' : es ⊆ es' -> stored plan o es -> stored plan o es'.
Proof.
  intros Hs [?|(? & i & refs & ? & ?)]; [by left|]. right. split; [done|]. exists i, refs. split; [done|].
  eapply Forall2_impl; [|done]. intros. by eapply bound_mono.
Qed.

Lemma ok_reconcileService server plan acc s :
  startable server plan acc -> PlayerService plan = Some s -> ok server acc (reconcileService s).
Proof.
  intros Hst Hs. unfold reconcileService. apply writes_get; [done|]. intros [[|m]|existing]; try apply writes_ret.
  - apply writes_last. intros x. eapply WCreateService; [|done]. eapply startable_mono; [|done]. in_trace.
  - destruct (require_owner _ _) eqn:Ho; [apply writes_ret|].
    apply writes_bind; [apply writes_call|].
    + intros x _. eapply WApplyService; [|done..]. eapply startable_mono; [|done]. in_trace.
    + intros es [e|u] _; [apply writes_ret|]. apply writes_get; [done|]. intros; apply writes_ret.
Qed.

Lemma ok_publish server progress plan acc storage w s available :
  startable server plan acc -> stored plan storage acc -> Workload plan = Some w -> PlayerService plan = Some s ->
  (available = true -> exists d, applied w d acc /\ workloadAvailable d = true) ->
  ok server acc (publish r server progress storage s available).
Proof.
  intros Hst Hso Hw Hs Hav. unfold publish. apply writes_bind; [by eapply ok_reconcileService|].
  intros es [e|service] Hp; [apply ok_report|]. apply reconcileService_published in Hp.
  destruct (_ && _ && _)%bool eqn:Hready.
  - apply ok_status_then. rewrite !andb_true_iff in Hready. destruct Hready as [[Hrd ->] Hn].
    destruct (Hav eq_refl) as (d & Hd & Hda).
    destruct Hso as [[? ?]|(_ & i & refs & Ed & HF)]; [congruence|].
    assert (acc ⊆ acc ++ es) as Hsub by in_trace.
    assert (Forall2 (fun c ref => bound c ref (acc ++ es)) (DataClaims plan) refs) as HF'.
    { eapply Forall2_impl; [|exact HF]. intros. by eapply bound_mono. }
    pose proof (startable_mono _ _ _ _ Hsub Hst) as Hst'.
    assert (published s service (acc ++ es)) by (eapply published_mono; [|exact Hp]; in_trace).
    split_and!; try done.
    + intros _. exists plan. split; [done|..].
      * exists (MkDataRef i refs). done.
      * exists w, d. eauto using applied_mono.
      * exists s, service. split_and!; try done. intros E. rewrite E in Hn. done.
    + intros sel Esel. rewrite Ed in Esel. injection Esel as <-. exists plan. by destruct Hst'.
  - destruct (ready_report _ _ _) as [[phase reason] message] eqn:E. apply ok_status_then.
    unfold ready_report in E. apply reported_plain; repeat case_match; naive_solver.
Qed.

Lemma ok_reconcileDeployment server plan acc w :
  startable server plan acc -> Workload plan = Some w -> ok server acc (reconcileDeployment r server w).
Proof.
  intros Hst Hw. unfold reconcileDeployment. apply writes_get; [done|]. intros [[|m]|existing]; try apply writes_ret.
  - unfold create_workload. apply ok_reads; [apply reads_runtimePodsRemain|].
    intros es [e|[]] Hd; [apply writes_ret..|]. apply runtimePodsRemain_drained in Hd.
    apply writes_last. intros x. eapply WCreateWorkload; [|done|in_trace|].
    + eapply startable_mono; [|done]. in_trace.
    + eapply drained_mono; [|done]. in_trace.
  - destruct (require_owner _ _) eqn:Ho; [apply writes_ret|]. destruct (deleting _) eqn:Hdel; [apply writes_ret|].
    apply writes_bind; [apply writes_call|].
    + intros x _. eapply WApplyWorkload; [|done|in_trace|done..]. eapply startable_mono; [|done]. in_trace.
    + intros es [e|u] _; [apply writes_ret|]. apply writes_get; [done|]. intros; apply writes_ret.
Qed.

Lemma ok_run_workload server progress plan acc storage w s :
  startable server plan acc -> stored plan storage acc -> Workload plan = Some w -> PlayerService plan = Some s ->
  ok server acc (run_workload r server progress storage w s).
Proof.
  intros Hst Hso Hw Hs. unfold run_workload. apply writes_bind; [by eapply ok_reconcileDeployment|].
  intros es [e|d] Hd; [destruct (errors_Is _ _); [apply ok_stopping | apply ok_report]|].
  apply reconcileDeployment_applied in Hd. destruct (negb _); [apply ok_report|].
  eapply ok_publish; try done.
  - eapply startable_mono; [|done]. in_trace.
  - eapply stored_mono; [|done]. in_trace.
  - intros Ha. exists d. split; [eapply applied_mono; [|done]; in_trace | done].
Qed.

Lemma ok_reconcileConfigMap server plan acc c :
  startable server plan acc -> Configuration plan = Some c -> ok server acc (reconcileConfigMap c).
Proof.
  intros Hst Hc. unfold reconcileConfigMap. apply writes_get; [done|]. intros [[|m]|existing]; try apply writes_ret.
  - apply writes_last. intros x. eapply WCreateConfiguration; [|done]. eapply startable_mono; [|done]. in_trace.
  - destruct (require_owner _ _) eqn:Ho; [apply writes_ret|]. destruct (configurationMatches _ _); [apply writes_ret|].
    apply writes_last. intros x. eapply WUpdateConfiguration; [|done..]. eapply startable_mono; [|done]. in_trace.
Qed.

Lemma ok_start server progress plan acc storage c w s :
  running server -> convergeable server plan acc -> stored plan storage acc ->
  Configuration plan = Some c -> Workload plan = Some w -> PlayerService plan = Some s ->
  ok server acc (start r server progress plan storage c w s).
Proof.
  intros Hrun Hcv Hso Hc Hw Hs. unfold start. apply ok_reads; [apply reads_runtimeReplacementDraining|].
  intros e1 [e|[]] _; [apply ok_report | apply ok_stopping|].
  apply writes_bind.
  { unfold clearColdBackupMarkers. destruct (bool_decide _); [apply writes_ret|]. apply writes_loop.
    intros x acc' Hx Hsub. eapply ok_clear_marker; [done | | done]. eapply convergeable_mono; [|done]. set_solver. }
  intros e2 [e|] Hm; [apply ok_report|].
  assert (startable server plan ((acc ++ e1) ++ e2)) as Hst.
  { destruct Hcv as [Hp Hu Hch]. split; try done.
    - eapply unlocked_mono; [|done]. in_trace.
    - intros x Hx. eapply checked_mono; [|by apply Hch]. in_trace.
    - intros x Hx. eapply warm_mono; [|by eapply clearColdBackupMarkers_warm]. in_trace. }
  apply writes_bind; [by eapply ok_reconcileConfigMap|]. intros e3 [e|] _; [apply ok_report|].
  eapply ok_run_workload; try done.
  - eapply startable_mono; [|done]. in_trace.
  - eapply stored_mono; [|done]. in_trace.
Qed.

Lemma or_else_none {A} (p q : prog (option A)) es : steps (or_else p q) es None ->
  exists es1 es2, es = es1 ++ es2 /\ steps p es1 None /\ steps q es2 None.
Proof.
  unfold or_else. intros (es1 & es2 & [a|] & -> & Hp & Hq)%steps_bind; [by destruct Hq|]. eauto.
Qed.

Lemma ok_converge server progress plan acc :
  planned_for server plan -> unlocked server (plan_DataIdentity plan) acc ->
  (stopped server -> runtime_absent server acc) -> ok server acc (converge r server progress plan).
Proof.
  intros Hp Hu Hgone. unfold converge. apply ok_reads.
  { unfold or_else. unfold reads_only. emits_tac; [apply reads_preflightStorage | apply reads_preflightRuntime]. }
  intros e1 [f|] Hpre; [apply ok_report|]. apply or_else_none in Hpre as (es1 & es2 & -> & Hst & _).
  assert (convergeable server plan (acc ++ es1 ++ es2)) as Hcv.
  { split; [done| |].
    - eapply unlocked_mono; [|done]. in_trace.
    - intros c Hc. eapply checked_mono; [|by eapply preflightStorage_checked]. in_trace. }
  apply writes_bind.
  { apply writes_loop. intros c acc' Hc Hsub. eapply ok_converge_claim; [|done]. by eapply convergeable_mono. }
  intros e2 [f|] _; [apply ok_report|]. apply ok_reads; [apply reads_observe_claims|].
  intros e3 [f|storage] Ho; [apply ok_report|]. apply observeStorage_bound in Ho.
  change (stored plan storage e3) in Ho. set (acc' := ((acc ++ es1 ++ es2) ++ e2) ++ e3).
  assert (acc ⊆ acc') by (subst acc'; in_trace).
  assert (convergeable server plan acc') as Hcv' by (eapply convergeable_mono; [|done]; subst acc'; in_trace).
  assert (stored plan storage acc') as Ho' by (eapply stored_mono; [|exact Ho]; subst acc'; in_trace).
  clearbody acc'. case_bool_decide as Hstop.
  - apply ok_status_then. split_and!; try done.
    + intros _. split; [done|]. eapply runtime_absent_mono; [|by apply Hgone]. done.
    + intros sel E. destruct Hcv'. destruct Ho' as [[_ ?]|(_ & i & refs & Ed & HF)]; [congruence|].
      rewrite Ed in E. injection E as <-. by exists plan.
  - destruct (Configuration plan) as [c|] eqn:?; [|apply writes_ret].
    destruct (Workload plan) as [w|] eqn:?; [|apply writes_ret].
    destruct (PlayerService plan) as [s|] eqn:?; [|apply writes_ret]. by eapply ok_start.
Qed.

Lemma ok_locked_status server acc progress stopping :
  (stopped server -> runtime_absent server acc) -> ok server acc (locked_status r server progress stopping).
Proof.
  intros Hgone. apply ok_status_then. destruct (_ && _)%bool eqn:E; [|by apply reported_plain].
  apply andb_true_iff in E as [Hst%bool_decide_eq_true _].
  split_and!; try done. intros _. split; [done | by apply Hgone].
Qed.

Lemma ok_hold_locked server acc progress plan :
  planned_for server plan -> fenced server (plan_DataIdentity plan) acc ->
  (stopped server -> runtime_absent server acc) -> ok server acc (hold_locked r server progress).
Proof.
  intros Hp Hf Hgone. unfold hold_locked. case_bool_decide as Hrun; [|by apply ok_locked_status].
  assert (stopped server -> False) as Hns by (unfold stopped; by rewrite Hrun).
  apply ok_reads; [apply reads_preflightRuntime|]. intros e1 [f|] _; [apply ok_report|]. apply writes_bind.
  { apply ok_deleteControlledRuntime. right. exists plan. split; [done|]. eapply fence_seen_mono; [|done]. in_trace. }
  intros e2 [f|stopping] _; [apply ok_report|]. by apply ok_locked_status.
Qed.

Lemma ok_plan_server server acc progress :
  (stopped server -> runtime_absent server acc) -> ok server acc (plan_server r server progress).
Proof.
  intros Hgone. unfold plan_server. destruct (sr_Catalog r) as [catalog|] eqn:Hcat; [|apply ok_report].
  destruct (catalog_Get catalog _) as [definition|] eqn:Hdef; [|apply ok_report].
  destruct (Build _ server definition) as [e|plan] eqn:Hb; [apply ok_report|].
  assert (planned_for server plan) as Hp by (by exists catalog, definition).
  apply ok_reads; [apply reads_dataOperationLocked|]. intros es [f|locked] Hl; [apply ok_report|].
  apply dataOperationLocked_answer in Hl.
  assert (stopped server -> runtime_absent server (acc ++ es)) as Hgone'.
  { intros. eapply runtime_absent_mono; [|by apply Hgone]. in_trace. }
  destruct locked.
  - eapply ok_hold_locked; try done. eapply fence_seen_mono; [|done]. in_trace.
  - apply ok_converge; try done. eapply unlocked_mono; [|done]. in_trace.
Qed.

Lemma ok_reconcile_server server acc : ok server acc (reconcile_server r server).
Proof.
  unfold reconcile_server. destruct (deleting _); [by apply ok_status_then, reported_plain|].
  case_bool_decide as Hstop; [|by apply ok_plan_server].
  apply ok_reads; [apply reads_preflightRuntime|]. intros e1 [f|] _; [apply ok_report|].
  apply writes_bind; [apply ok_deleteControlledRuntime; by left|]. intros e2 [f|[]] Hd; [apply ok_report|..].
  - by apply ok_status_then, reported_plain.
  - apply ok_plan_server. intros _. eapply runtime_absent_mono; [|by apply deleteControlledRuntime_absent]. in_trace.
Qed.

(** ** Theorems about a pass *)

Lemma server_writes req es o pre e post : steps (Server_Reconcile r req) es o -> es = pre ++ e :: post ->
  is_write e = true ->
  exists server pre', pre = Ev (ApiGet KGameServer CachedReader req) (inr server) :: pre' /\ server_write server pre' e.
Proof.
  unfold Server_Reconcile. intros (es1 & es2 & x & -> & ->%steps_call & Hs)%steps_bind E Hw.
  destruct pre as [|e' pre]; [injection E as <- _; done|]. injection E as <- E.
  destruct x as [[|m]|server]; [by destruct Hs as [-> _]; destruct pre..|].
  exists server, pre. split; [done|]. by apply (ok_reconcile_server server [] es2 o Hs pre e post).
Qed.

(** C2: every write of every pass of the game server controller, whatever the
    API server answers and whichever calls fail, is one that [server_write]
    allows for the server it read and for what it read before the write: a
    status that reports what was observed, the removal of the server's own
    runtime, the convergence of checked claims of an unfenced world, or the
    creation of planned runtime for a startable world. *)
Theorem Server_Reconcile_refines req es o pre e post
  (Hs : steps (Server_Reconcile r req) es o) (He : es = pre ++ e :: post) (Hw : is_write e = true) :
  exists server pre', pre = Ev (ApiGet KGameServer CachedReader req) (inr server) :: pre' /\
    server_write server pre' e.
Proof. by eapply server_writes. Qed.

(** C29: a retained claim is never deleted.  Whatever the controller deletes is
    a disposable object it read in the same pass, controlled by exactly this
    server, with its UID and resource version as preconditions, and only when
    the server is to stop or a data operation owns its world. *)
Theorem Server_never_deletes_data req es o pre e post
  (Hs : steps (Server_Reconcile r req) es o) (He : es = pre ++ e :: post) :
  claim_removed e = false /\
  forall m opts, delete_of e = Some (m, opts) ->
    exists server pre', pre = Ev (ApiGet KGameServer CachedReader req) (inr server) :: pre' /\
      requireControlledBy m (wanted_owner server) = Ok tt /\ removable server pre' /\
      pre_UID opts = Some (om_UID m) /\ pre_ResourceVersion opts = Some (om_ResourceVersion m).
Proof.
  destruct (is_write e) eqn:Hw; [|split; [by destruct e as [? []] | by destruct e as [? []]]].
  destruct (server_writes _ _ _ _ _ _ Hs He Hw) as (server & pre' & -> & Hwrite).
  destruct Hwrite as [|A k suffix object pg x Hk Hin Hc Hrm| | | | | | | | |]; try (split; [reflexivity | intros m opts E; discriminate E]).
  split; [by destruct Hk|]. intros m opts [= <- <-]. exists server, pre'. done.
Qed.

(** C26: a data operation that holds the world freezes it.  A write to a claim,
    or the creation or change of any runtime object, happens only in a pass
    that first read the fence past the cache and found no Lease, or one that
    settles exactly this generation of the server, and only after every
    planned claim was found exact or still to be created. *)
Theorem Server_respects_fence req es o pre e post
  (Hs : steps (Server_Reconcile r req) es o) (He : es = pre ++ e :: post)
  (Hw : claim_written e = true \/ runtime_started e = true) :
  exists server pre' plan, pre = Ev (ApiGet KGameServer CachedReader req) (inr server) :: pre' /\
    planned_for server plan /\ unlocked server (plan_DataIdentity plan) pre' /\
    forall c, c ∈ DataClaims plan -> checked c pre'.
Proof.
  assert (is_write e = true) as Hwr by (destruct Hw; destruct e as [? []]; done).
  destruct (server_writes _ _ _ _ _ _ Hs He Hwr) as (server & pre' & -> & Hwrite). exists server, pre'.
  destruct Hwrite as [|A k suffix object pg x Hk| | | | | | | | |];
    try (match goal with Hc : convergeable _ ?p _ |- _ => exists p; by destruct Hc
                      | Hc : startable _ ?p _ |- _ => exists p; by destruct Hc end).
  - by destruct Hw.
  - destruct Hk; by destruct Hw.
Qed.

(** C27: no runtime starts on a world that still counts as cold.  When the
    controller creates or changes a configuration, a workload or a player
    Service, the server is not to stop, and the pass found each planned claim
    without a cold-backup marker, removed the marker from the exact claim, or
    found the claim still to be created. *)
Theorem Server_starts_warm req es o pre e post
  (Hs : steps (Server_Reconcile r req) es o) (He : es = pre ++ e :: post) (Hw : runtime_started e = true) :
  exists server pre' plan, pre = Ev (ApiGet KGameServer CachedReader req) (inr server) :: pre' /\
    planned_for server plan /\ gs_DesiredState (gs_Spec server) <> DesiredStateStopped /\
    forall c, c ∈ DataClaims plan -> warm server c pre'.
Proof.
  assert (is_write e = true) as Hwr by (destruct e as [? []]; done).
  destruct (server_writes _ _ _ _ _ _ Hs He Hwr) as (server & pre' & -> & Hwrite). exists server, pre'.
  destruct Hwrite as [|A k suffix object pg x Hk| | | | | | | | |];
    try (match goal with Hc : startable _ ?p _ |- _ => exists p; by destruct Hc end); try done.
Qed.

Lemma bound_claims claims refs es : Forall2 (fun c ref => bound c ref es) claims refs ->
  exists actuals, Forall2 (fun claim actual =>
      Ev (ApiGet KPersistentVolumeClaim rd (claim_key claim)) (inr actual) ∈ es /\ ready_data_claim claim actual)
    claims actuals /\ zip_with claim_reference claims actuals = refs.
Proof.
  induction 1 as [|c ref claims refs (actual & Hread & [Hc ->]%observe_claim_ready) _ (actuals & HF & <-)].
  - by exists [].
  - exists (actual :: actuals). split; [by constructor | done].
Qed.
Lemma applied_spec desired d es : applied desired d es ->
  Ev (ApiCreate KDeployment desired) (inr d) ∈ es \/
  exists existing updated, acknowledged_workload desired existing updated d /\
    Ev (ApiApply KDeployment (with_dep_identity desired (om_UID (dep_meta existing)) (om_ResourceVersion (dep_meta existing))))
      (inr updated) ∈ es /\
    Ev (ApiGet KDeployment rd (key_of (dep_meta desired))) (inr d) ∈ es.
Proof.
  intros [?|(existing & updated & ? & ? & [_ ?]%applied_workload_acknowledged)]; [by left|]. right. by exists existing, updated.
Qed.
Lemma drained_harmless server volumes es : drained server volumes es ->
  exists retained sets pods,
    let claims := selected_claims server ∪ volume_claims volumes ∪ labelled_claims server (Items retained) in
    Ev (ApiList KPersistentVolumeClaim rd (Some (server_Namespace server)) (retained_labels server)) (inr retained) ∈ es /\
    Ev (ApiList KReplicaSet rd (Some (server_Namespace server)) ∅) (inr sets) ∈ es /\
    Ev (ApiList KPod rd (Some (server_Namespace server)) ∅) (inr pods) ∈ es /\
    complete_list retained /\ complete_list sets /\ complete_list pods /\
    (forall set, set ∈ Items sets ->
       harmless_pod (server_Name server) claims (rset_TemplateLabels set) (rset_TemplateSpec set)) /\
    (forall pod, pod ∈ Items pods -> harmless_pod (server_Name server) claims (om_Labels (pod_meta pod)) (pod_Spec pod)).
Proof.
  intros (retained & sets & pods & ? & ? & ? & ? & ? & ? & ? & ?). exists retained, sets, pods.
  split_and!; eauto using incomplete_spec, runtimePodBlocksDrain_harmless.
Qed.

(** C28: a server never gets a second writer.  Its Deployment is created only
    after it was read absent past the cache and complete lists of ReplicaSets
    and Pods show none with this server's game labels and none that mounts one
    of its claims other than read-only; it is changed only under the UID and revision it was read
    with, when it is controlled by the server and not being deleted. *)
Theorem Server_single_writer req es o pre e post d
  (Hs : steps (Server_Reconcile r req) es o) (He : es = pre ++ e :: post) (Hw : workload_written e = Some d) :
  exists server pre', pre = Ev (ApiGet KGameServer CachedReader req) (inr server) :: pre' /\
    ((Ev (ApiGet KDeployment rd (key_of (dep_meta d))) (inl NotFound) ∈ pre' /\
      drained server (pod_Volumes (dep_PodSpec d)) pre' /\
      exists retained sets pods,
        let claims :=
          selected_claims server ∪ volume_claims (pod_Volumes (dep_PodSpec d)) ∪ labelled_claims server (Items retained) in
        Ev (ApiList KPersistentVolumeClaim rd (Some (server_Namespace server)) (retained_labels server)) (inr retained)
          ∈ pre' /\
        Ev (ApiList KReplicaSet rd (Some (server_Namespace server)) ∅) (inr sets) ∈ pre' /\
        Ev (ApiList KPod rd (Some (server_Namespace server)) ∅) (inr pods) ∈ pre' /\
        complete_list retained /\ complete_list sets /\ complete_list pods /\
        (forall set, set ∈ Items sets ->
           harmless_pod (server_Name server) claims (rset_TemplateLabels set) (rset_TemplateSpec set)) /\
        (forall pod, pod ∈ Items pods ->
           harmless_pod (server_Name server) claims (om_Labels (pod_meta pod)) (pod_Spec pod))) \/
     exists existing, Ev (ApiGet KDeployment rd (key_of (dep_meta d))) (inr existing) ∈ pre' /\
       om_UID (dep_meta d) = om_UID (dep_meta existing) /\
       om_ResourceVersion (dep_meta d) = om_ResourceVersion (dep_meta existing) /\
       require_owner (dep_meta existing) (dep_meta d) = None /\ controlled_as (dep_meta existing) (dep_meta d) /\
       deleting (dep_meta existing) = false).
Proof.
  assert (is_write e = true) as Hwr by (destruct e as [? []]; done).
  destruct (server_writes _ _ _ _ _ _ Hs He Hwr) as (server & pre' & -> & Hwrite). exists server, pre'.
  split; [done|]. destruct Hwrite as [|A k suffix object pg x Hk| | | | | |plan w x|plan w existing x| |]; try done.
  - injection Hw as <-. left. split_and!; try done. by apply drained_harmless.
  - injection Hw as <-. right. exists existing. split_and!; try done. by apply require_owner_spec.
Qed.

(** A status write of a pass, with what it reports. *)
Lemma server_status_write req es o pre e post u :
  steps (Server_Reconcile r req) es o -> es = pre ++ e :: post -> server_status e = Some u ->
  exists server pre' phase progress endpoints data now,
    pre = Ev (ApiGet KGameServer CachedReader req) (inr server) :: pre' /\
    u = with_server_status server (next_status server phase progress endpoints data now) /\
    reported server phase endpoints data pre'.
Proof.
  intros Hs He Hu. assert (is_write e = true) as Hwr by (destruct e as [? []]; done).
  destruct (server_writes _ _ _ _ _ _ Hs He Hwr) as (server & pre' & -> & Hwrite). exists server, pre'.
  destruct Hwrite as [phase progress endpoints data now x Hr|A k suffix object pg x Hk| | | | | | | | |]; try done.
  injection Hu as <-. by exists phase, progress, endpoints, data, now.
Qed.

(** C30: a server is reported Ready, or with endpoints at all, only on what the
    same pass observed.  The world is unfenced, checked and warm.  Every
    planned claim was read with exactly the planned identity (labels, UID,
    class, modes, no owner), bound to a volume, with at least the requested
    capacity, and a data selection the status reports names exactly these.  The Deployment is the one this pass created, or the one it
    applied under the UID it had read and then read back at the applied
    generation; its current generation is observed and its one replica is
    updated, ready and available, none unavailable.  The endpoints are one per
    planned port, each published by the player Service with the planned
    protocol, port and target, on one address which an ingress of the Service
    certifies for all of them.  Ready implies endpoints and endpoints imply
    Ready. *)
Theorem Server_Ready_sound req es o pre e post u
  (Hs : steps (Server_Reconcile r req) es o) (He : es = pre ++ e :: post) (Hu : server_status e = Some u)
  (Hready : gss_Phase (gs_Status u) = PhaseReady \/ gss_Endpoints (gs_Status u) <> []) :
  exists server pre' plan claims w d s service endpoints,
    pre = Ev (ApiGet KGameServer CachedReader req) (inr server) :: pre' /\ startable server plan pre' /\
    Forall2 (fun claim actual =>
        Ev (ApiGet KPersistentVolumeClaim rd (claim_key claim)) (inr actual) ∈ pre' /\ ready_data_claim claim actual)
      (DataClaims plan) claims /\
    (forall selection, gss_ObservedData (gs_Status u) = Some selection ->
       rdr_Claims selection = zip_with claim_reference (DataClaims plan) claims) /\
    Workload plan = Some w /\ available_deployment d /\
    (Ev (ApiCreate KDeployment w) (inr d) ∈ pre' \/
     exists existing updated, acknowledged_workload w existing updated d /\
       Ev (ApiApply KDeployment (with_dep_identity w (om_UID (dep_meta existing)) (om_ResourceVersion (dep_meta existing))))
         (inr updated) ∈ pre' /\
       Ev (ApiGet KDeployment rd (key_of (dep_meta w))) (inr d) ∈ pre') /\
    PlayerService plan = Some s /\
    (Ev (ApiCreate KService s) (inr service) ∈ pre' \/
     Ev (ApiGet KService CachedReader (key_of (svc_meta s))) (inr service) ∈ pre') /\
    published_endpoints service s endpoints /\ endpoints <> [] /\
    gss_Endpoints (gs_Status u) = canonicalEndpoints endpoints /\
    gss_Phase (gs_Status u) = PhaseReady /\ gss_ObservedGeneration (gs_Status u) = om_Generation (gs_meta server).
Proof.
  destruct (server_status_write _ _ _ _ _ _ _ Hs He Hu)
    as (server & pre' & phase & progress & endpoints & data & now & -> & -> & Hr & _ & Hne & _).
  cbn [gs_Status with_server_status next_status gss_Phase gss_Endpoints gss_ObservedGeneration gss_ObservedData] in *.
  assert (phase = PhaseReady) as ->.
  { destruct (decide (phase = PhaseReady)) as [|Hp]; [done|]. destruct Hready as [|Hn]; [done|].
    destruct Hn. by rewrite (Hne Hp). }
  destruct (Hr eq_refl) as (plan & [Hst (sel & -> & HF) (w & d & ? & Hap & Hav) (s & service & ? & Hpub & -> & Hep)]).
  apply bound_claims in HF as (claims & HF & Hz). apply applied_spec in Hap. apply workloadAvailable_spec in Hav.
  exists server, pre', plan, claims, w, d, s, service, (observedEndpoints service s).
  split_and!; try done; [|by apply observedEndpoints_published]. rewrite Hz. unfold observed_data.
  destruct (gss_ActiveData _); [destruct (sameDataSelection _ _)|]; congruence.
Qed.

(** A server is reported Stopped only when it is to stop, its Deployment,
    configuration and Service were read absent past the cache, complete lists
    of ReplicaSets and Pods show no writer of its data, and no endpoint is
    reported. *)
Theorem Server_Stopped_sound req es o pre e post u
  (Hs : steps (Server_Reconcile r req) es o) (He : es = pre ++ e :: post) (Hu : server_status e = Some u)
  (Hstop : gss_Phase (gs_Status u) = PhaseStopped) :
  exists server pre', pre = Ev (ApiGet KGameServer CachedReader req) (inr server) :: pre' /\
    gs_DesiredState (gs_Spec server) = DesiredStateStopped /\ runtime_absent server pre' /\
    gss_Endpoints (gs_Status u) = [] /\ gss_ActiveData (gs_Status u) = gss_ActiveData (gs_Status server).
Proof.
  destruct (server_status_write _ _ _ _ _ _ _ Hs He Hu)
    as (server & pre' & phase & progress & endpoints & data & now & -> & -> & _ & Hst & Hne & _).
  cbn [gs_Status with_server_status next_status gss_Phase gss_Endpoints gss_ActiveData] in *. subst phase.
  destruct (Hst eq_refl) as [Hd Habs]. exists server, pre'. rewrite Hne by done. done.
Qed.
End Safety.

(** ** The endpoints of a player Service *)

Section Endpoints.
Context `{NameValidation}.

Lemma first_sorted_none l : first_sorted l = None -> l = [].
Proof.
  unfold first_sorted. intros Hf. destruct (sort_by id l) as [|x k] eqn:E; [|done].
  apply Permutation_nil. by rewrite <- (sort_by_perm id l), E.
Qed.

(** An address the Service publishes for all the ports. *)
Definition certified (actual : Service) (ports : list ServicePort) (address : string) : Prop :=
  exists ingress, ingress ∈ svc_Ingress actual /\ ingressSupportsPorts ingress ports = true /\
    (ingress_address ingress = Some address \/
     (ingress_hostname ingress = Some address /\
      forall other, other ∈ svc_Ingress actual -> ingressSupportsPorts other ports = true -> ingress_address other = None)).

Lemma observed_address_certified actual ports :
  observedLoadBalancerAddress (svc_Ingress actual) ports <> "" ->
  certified actual ports (observedLoadBalancerAddress (svc_Ingress actual) ports).
Proof.
  unfold observedLoadBalancerAddress.
  assert (forall i, i ∈ List.filter (fun i => ingressSupportsPorts i ports) (svc_Ingress actual) <->
            i ∈ svc_Ingress actual /\ ingressSupportsPorts i ports = true) as Hf.
  { intros i. rewrite !list_elem_of_In. apply filter_In. }
  destruct (first_sorted (omap ingress_address _)) as [ip|] eqn:E.
  - intros _. apply first_sorted_elem, list_elem_of_omap in E as (i & Hi & Ha). apply Hf in Hi as [? ?].
    exists i. auto.
  - apply first_sorted_none in E. destruct (first_sorted (omap ingress_hostname _)) as [h|] eqn:Eh; [|done].
    intros _. apply first_sorted_elem, list_elem_of_omap in Eh as (i & Hi & Ha). apply Hf in Hi as [? ?].
    exists i. split_and!; try done. right. split; [done|]. intros other Ho Hs.
    destruct (ingress_address other) as [a|] eqn:Ea; [|done].
    assert (a ∈ @nil string) as Hnil by (rewrite <- E; apply list_elem_of_omap; exists other; split; [by apply Hf | done]).
    by apply not_elem_of_nil in Hnil.
Qed.

(** The endpoints the controller reports are exactly the planned player
    ports, in order of their names, all on one address that the live Service
    publishes for every one of them: the canonical text of a global unicast IP
    or, when no usable ingress has one, a DNS subdomain.  Each reported port is
    served by a port of the live Service with the same name, protocol, number
    and target, and a Service that is being deleted reports none. *)
Theorem observedEndpoints_exact actual desired endpoints
  (He : observedEndpoints actual desired = endpoints) (Hne : endpoints <> []) :
  let ports := sort_by sp_Name (svc_Ports desired) in
  om_DeletionTimestamp (svc_meta actual) = None /\ ports ≡ₚ svc_Ports desired /\
  exists address, address <> "" /\ certified actual ports address /\
    Forall2 (fun port e =>
      e = MkObservedEndpoint (sp_Name port) (sp_Protocol port) address (sp_Port port) /\
      exists live, live ∈ svc_Ports actual /\ sp_Name live = sp_Name port /\ sp_Protocol live = sp_Protocol port /\
        sp_Port live = sp_Port port /\ sp_TargetPort live = sp_TargetPort port) ports endpoints.
Proof.
  intros ports. unfold observedEndpoints in He. destruct (deletionNotRequested _) eqn:Hd; [|by subst]. cbn [negb] in He.
  apply bool_decide_eq_true in Hd. fold ports in He.
  set (address := observedLoadBalancerAddress (svc_Ingress actual) ports) in *.
  destruct (_ || _)%bool eqn:Hg; [by subst|]. rewrite orb_false_iff, !bool_decide_eq_false in Hg. destruct Hg as [_ Ha].
  split; [done|]. split; [apply sort_by_perm|]. exists address. split; [done|].
  split; [by apply observed_address_certified|].
  destruct (mapM (endpoint_of address (svc_Ports actual)) ports) as [l|] eqn:Em; [|by subst]. cbn in He. subst l.
  apply mapM_Some in Em. eapply Forall2_impl; [|exact Em]. intros port e Hp. unfold endpoint_of in Hp.
  destruct (actual_port _ _) as [live|] eqn:El; [|done]. apply actual_port_elem in El as [? ?].
  destruct (_ || _ || _)%bool eqn:Hg; [done|]. injection Hp as <-.
  rewrite !orb_false_iff, !negb_false_iff, !bool_decide_eq_true in Hg. destruct Hg as [[? ?] ?].
  split; [done|]. by exists live.
Qed.
End Endpoints.

