(* ===== verification/ServerSamples.v ===== *)
(** * Concrete passes of the game server controller

    A small cluster, evaluated: a server that starts on a world marked cold, a
    server that stops, and one whose world a data operation holds.  The
    theorems of [ServerSafety] are instantiated at these passes. *)

From Stdlib Require Import Ascii.
From stdpp Require Import base tactics list strings gmap numbers.
From S2P Require Import Prelude GoStrings GoJson GoNet GoNetip K8s ApiTypes Operations GameDefinition KubeObjects KubePlan KubeApi TraceLogic WorkerInput OperationDigest KubeDestroy WorkerPods OperationFence ServerStatus RuntimeDrain ServerController ServerSafety.
Open Scope string_scope.
Open Scope list_scope.

(** ** The cluster *)

Definition cluster_text : QuantityText := fun q => chars (FormatInt q).
Definition cluster_conditions : FindConditions := fun l name => find (fun c => bool_decide (cond_Type c = name)) l.
#[local] Existing Instances sample_engine rfc1123 sample_schemas cluster_text cluster_conditions.
Definition cluster_reconciler : GameServerReconciler :=
  MkServerReconciler true (Some {["factorio" := sample_definition]}) false "script".
Definition cluster_request : NamespacedName := Key "arcade" "alpha".

Definition cluster_server (state : DesiredState) : GameServer :=
  let s := sample_server None in
  MkGameServer (gs_meta s)
    (MkGameServerSpec "factorio" sample_image_digest state (MkCompute 1000000 2000000 1000 2000)
       (MkStorage 5000 None None) "{}") (gs_Status s).
Definition cluster_plan (state : DesiredState) : Plan :=
  planned_or empty_plan (@Build "script" sample_engine rfc1123 sample_schemas (cluster_server state) sample_definition).

(** The stored claim: bound, and marked cold by a backup. *)
Definition stored_claim (c : PersistentVolumeClaim) : PersistentVolumeClaim :=
  let m := pvc_meta c in
  MkPVC (pvc_TypeMeta c)
    (MkObjectMeta (om_Name m) (om_Namespace m) "claim-uid" 1 "9" 1 None [] (om_Labels m)
       (<[AnnotationColdBackupUID := "backup-uid"]> (om_Annotations m)) [])
    (pvc_AccessModes c) (pvc_StorageClassName c) (pvc_StorageRequest c) "pv-1" "Bound" (Some 5000%Z).
Definition cluster_claim : PersistentVolumeClaim :=
  stored_claim (Desired (default (MkClaimPlan (MkPVC (MkTypeMeta "" "") (new_meta "" "" ∅ []) [] None None "" "" None) "" false)
    (head (DataClaims (cluster_plan DesiredStateRunning))))).

Definition available_status : DeploymentStatus := MkDeploymentStatus 1 1 1 1 1 0 [].
Definition rollout (d : Deployment) : Deployment :=
  let m := dep_meta d in
  MkDeployment (dep_TypeMeta d)
    (MkObjectMeta (om_Name m) (om_Namespace m) "deployment-uid" 1 "12" 1 None [] (om_Labels m) (om_Annotations m)
       (om_OwnerReferences m))
    (dep_Replicas d) (dep_Strategy d) (dep_Selector d) (dep_TemplateLabels d) (dep_TemplateAnnotations d)
    (dep_PodSpec d) available_status.
Definition expose (s : Service) : Service :=
  MkService (svc_TypeMeta s) (svc_meta s) (svc_Type s) (svc_Selector s) (svc_Ports s)
    [MkIngress "" "play.example.org" []; MkIngress "203.0.113.7" "" []].
Definition cluster_workload : Deployment :=
  match Workload (cluster_plan DesiredStateRunning) with
  | Some w => rollout w
  | None => MkDeployment (MkTypeMeta "" "") (new_meta "" "" ∅ []) None "" ∅ ∅ ∅
              (template_pod None (MkPodSecurity None None None None None None []) [] [] [] "" "" "" []) no_status
  end.

(** A Lease of a backup that holds the world and settles nothing. *)
Definition cluster_identity : string := plan_DataIdentity (cluster_plan DesiredStateRunning).
Definition cluster_lease : Lease :=
  MkLease (MkObjectMeta (DataOperationLeaseName cluster_identity) "arcade" "lease-uid" 1 "3" 1 None []
            (<[LabelManagedBy := ManagerName]> (<[LabelDataIdentity := cluster_identity]> ∅)) ∅ [])
    (Some "backup-uid") None.

(** What the cluster holds besides the server: its claim, and in the locked
    cluster the Lease and a running Deployment. *)
Definition cluster_get {A} (state : DesiredState) (locked : bool) (k : kind A) : apierr + A :=
  match k in kind T return apierr + T with
  | KGameServer => inr (cluster_server state)
  | KPersistentVolumeClaim => inr cluster_claim
  | KLease => if locked then inr cluster_lease else inl NotFound
  | KDeployment => if locked then inr cluster_workload else inl NotFound
  | _ => inl NotFound
  end.
Definition cluster_list {A} (k : kind A) : apierr + object_list A :=
  match k in kind T return apierr + object_list T with
  | KPersistentVolumeClaim => inr (MkList [cluster_claim] "" None)
  | _ => inr (MkList [] "" None)
  end.
Definition cluster_create {A} (k : kind A) : A -> apierr + A :=
  match k in kind T return T -> apierr + T with
  | KDeployment => fun d => inr (rollout d)
  | KService => fun s => inr (expose s)
  | _ => fun o => inr o
  end.
Definition cluster_env (state : DesiredState) (locked : bool) : environment := fun R _ q =>
  match q in request R return R with
  | ApiGet k _ _ => cluster_get state locked k
  | ApiList k _ _ _ => cluster_list k
  | ApiCreate k o => cluster_create k o
  | ApiApply _ o => inr o
  | ApiUpdate _ _ | ApiUpdateStatus _ _ | ApiMergePatch _ _ _ | ApiDelete _ _ _ => None
  | ApiJSONPatch _ object _ => inr object
  | ClockNow => minute
  | RandRead _ => Some []
  end.

Definition cluster_reconcile : prog outcome :=
  Server_Reconcile cluster_reconciler cluster_request.
Definition cluster_pass (state : DesiredState) (locked : bool) : list event :=
  (run (cluster_env state locked) [] cluster_reconcile).1.
Definition cluster_outcome (state : DesiredState) (locked : bool) : outcome :=
  (run (cluster_env state locked) [] cluster_reconcile).2.
Lemma cluster_steps state locked : steps cluster_reconcile (cluster_pass state locked) (cluster_outcome state locked).
Proof. apply run_steps. Qed.

Definition phase_written (e : event) : option GameServerPhase := gss_Phase ∘ gs_Status <$> server_status e.
Example cluster_starts :
  (omap phase_written (cluster_pass DesiredStateRunning false), cluster_outcome DesiredStateRunning false) =
  ([PhaseReady], (no_requeue, None)).
Proof. vm_compute. reflexivity. Qed.
Example cluster_stops :
  (omap phase_written (cluster_pass DesiredStateStopped false), cluster_outcome DesiredStateStopped false) =
  ([PhaseStopped], (no_requeue, None)).
Proof. vm_compute. reflexivity. Qed.
Example cluster_holds :
  (omap phase_written (cluster_pass DesiredStateRunning true), cluster_outcome DesiredStateRunning true) =
  ([PhaseStopping], (requeue_after second, None)).
Proof. vm_compute. reflexivity. Qed.

(** ** The theorems at these passes *)

Abbreviation start_pass := (cluster_pass DesiredStateRunning false).
Abbreviation stop_pass := (cluster_pass DesiredStateStopped false).
Abbreviation locked_pass := (cluster_pass DesiredStateRunning true).

Definition deletes (e : event) : bool := match delete_of e with Some _ => true | None => false end.
Definition writes_workload (e : event) : bool := match workload_written e with Some _ => true | None => false end.
Definition writes_status (e : event) : bool := match server_status e with Some _ => true | None => false end.

Lemma Server_Reconcile_refines_witness :
  exists server pre', before writes_workload start_pass = Ev (ApiGet KGameServer CachedReader cluster_request) (inr server) :: pre' /\
    server_write cluster_reconciler server pre' (found writes_workload start_pass).
Proof.
  assert (located writes_workload start_pass = true) as L by (vm_compute; reflexivity).
  destruct (locate_split _ _ L) as [E _].
  apply (Server_Reconcile_refines cluster_reconciler cluster_request _ _ _ _ _ (cluster_steps _ _) E).
  vm_compute. reflexivity.
Defined.

Lemma Server_never_deletes_data_witness :
  claim_removed (found deletes locked_pass) = false /\
  exists m opts, delete_of (found deletes locked_pass) = Some (m, opts) /\ pre_UID opts = Some (om_UID m).
Proof.
  assert (located deletes locked_pass = true) as L by (vm_compute; reflexivity).
  destruct (locate_split _ _ L) as [E Hd].
  destruct (Server_never_deletes_data cluster_reconciler cluster_request _ _ _ _ _ (cluster_steps _ _) E) as [Hc Hdel].
  split; [exact Hc|]. unfold deletes in Hd at 1. destruct (delete_of (found deletes locked_pass)) as [[m opts]|]; [|discriminate Hd].
  exists m, opts. split; [reflexivity|]. destruct (Hdel m opts eq_refl) as (server & pre' & _ & _ & _ & Hu & _). exact Hu.
Defined.

Lemma Server_respects_fence_witness :
  exists server pre' plan, before claim_written start_pass = Ev (ApiGet KGameServer CachedReader cluster_request) (inr server) :: pre' /\
    unlocked cluster_reconciler server (plan_DataIdentity plan) pre'.
Proof.
  assert (located claim_written start_pass = true) as L by (vm_compute; reflexivity).
  destruct (locate_split _ _ L) as [E Hw].
  destruct (Server_respects_fence cluster_reconciler cluster_request _ _ _ _ _ (cluster_steps _ _) E (or_introl Hw))
    as (server & pre' & plan & Ep & _ & Hu & _).
  exists server, pre', plan. split; [exact Ep | exact Hu].
Defined.

Lemma Server_starts_warm_witness :
  exists server pre' plan, before runtime_started start_pass = Ev (ApiGet KGameServer CachedReader cluster_request) (inr server) :: pre' /\
    forall c, c ∈ DataClaims plan -> warm cluster_reconciler server c pre'.
Proof.
  assert (located runtime_started start_pass = true) as L by (vm_compute; reflexivity).
  destruct (locate_split _ _ L) as [E Hw].
  destruct (Server_starts_warm cluster_reconciler cluster_request _ _ _ _ _ (cluster_steps _ _) E Hw)
    as (server & pre' & plan & Ep & _ & _ & Hc).
  exists server, pre', plan. split; [exact Ep | exact Hc].
Defined.

Lemma Server_single_writer_witness :
  exists d server pre', before writes_workload start_pass = Ev (ApiGet KGameServer CachedReader cluster_request) (inr server) :: pre' /\
    workload_written (found writes_workload start_pass) = Some d.
Proof.
  assert (located writes_workload start_pass = true) as L by (vm_compute; reflexivity).
  destruct (locate_split _ _ L) as [E Hd]. unfold writes_workload in Hd at 1.
  destruct (workload_written (found writes_workload start_pass)) as [d|] eqn:Ed; [|discriminate Hd].
  destruct (Server_single_writer cluster_reconciler cluster_request _ _ _ _ _ d (cluster_steps _ _) E Ed)
    as (server & pre' & Ep & _).
  exists d, server, pre'. split; [exact Ep | reflexivity].
Defined.

Lemma Server_Ready_sound_witness :
  exists u server pre' plan, server_status (found writes_status start_pass) = Some u /\
    before writes_status start_pass = Ev (ApiGet KGameServer CachedReader cluster_request) (inr server) :: pre' /\
    startable cluster_reconciler server plan pre' /\ gss_Phase (gs_Status u) = PhaseReady.
Proof.
  assert (located writes_status start_pass = true) as L by (vm_compute; reflexivity).
  destruct (locate_split _ _ L) as [E _].
  assert (gss_Phase ∘ gs_Status <$> server_status (found writes_status start_pass) = Some PhaseReady) as Hp
    by (vm_compute; reflexivity).
  destruct (server_status (found writes_status start_pass)) as [u|] eqn:Eu; [|discriminate Hp]. injection Hp as Hp.
  destruct (Server_Ready_sound cluster_reconciler cluster_request _ _ _ _ _ u (cluster_steps _ _) E Eu (or_introl Hp))
    as (server & pre' & plan & _ & _ & _ & _ & _ & _ & Ep & Hs & _).
  exists u, server, pre', plan. exact (conj eq_refl (conj Ep (conj Hs Hp))).
Defined.

Lemma Server_Stopped_sound_witness :
  exists u server pre', server_status (found writes_status stop_pass) = Some u /\
    before writes_status stop_pass = Ev (ApiGet KGameServer CachedReader cluster_request) (inr server) :: pre' /\
    runtime_absent cluster_reconciler server pre' /\ gss_Endpoints (gs_Status u) = [].
Proof.
  assert (located writes_status stop_pass = true) as L by (vm_compute; reflexivity).
  destruct (locate_split _ _ L) as [E _].
  assert (gss_Phase ∘ gs_Status <$> server_status (found writes_status stop_pass) = Some PhaseStopped) as Hp
    by (vm_compute; reflexivity).
  destruct (server_status (found writes_status stop_pass)) as [u|] eqn:Eu; [|discriminate Hp]. injection Hp as Hp.
  destruct (Server_Stopped_sound cluster_reconciler cluster_request _ _ _ _ _ u (cluster_steps _ _) E Eu Hp)
    as (server & pre' & Ep & _ & Ha & He & _).
  exists u, server, pre'. exact (conj eq_refl (conj Ep (conj Ha He))).
Defined.

Definition cluster_service : Service :=
  match PlayerService (cluster_plan DesiredStateRunning) with
  | Some s => s
  | None => MkService (MkTypeMeta "" "") (new_meta "" "" ∅ []) "" ∅ [] []
  end.
Lemma observedEndpoints_exact_witness :
  observedEndpoints (expose cluster_service) cluster_service = [MkObservedEndpoint "game" "UDP" "203.0.113.7" 34197] /\
  exists address, certified (expose cluster_service) (sort_by sp_Name (svc_Ports cluster_service)) address.
Proof.
  assert (observedEndpoints (expose cluster_service) cluster_service = [MkObservedEndpoint "game" "UDP" "203.0.113.7" 34197])
    as He by (vm_compute; reflexivity).
  split; [exact He|].
  destruct (observedEndpoints_exact _ _ _ He) as (_ & _ & address & _ & Hc & _); [discriminate|].
  exists address. exact Hc.
Defined.
