(* ===== verification/SourceClaims.v ===== *)
(** * Claims that nothing mounts

    [sourceClaimsMountedOnlyBy] and [sourceClaimsUnmounted] of
    [gamebackup_controller.go], which the backup and the restore controller
    share: no Pod of the namespace mounts one of the claims, and no volume
    behind one of them is attached to a node.  [unmounted] is what an affirmed
    check has read. *)

From stdpp Require Import base tactics list strings gmap numbers.
From S2P Require Import Prelude ApiTypes DataOperation KubeObjects KubeApi TraceLogic.
Open Scope string_scope.
Open Scope list_scope.

Definition mounts_source (paths : list DataPathIdentity) (pod : Pod) : bool :=
  existsb (fun v => match vol_Source v with
                    | VolumePersistentVolumeClaim name _ => bool_decide (name ∈ claimName <$> paths)
                    | _ => false
                    end) (pod_Volumes (pod_Spec pod)).
Definition attached (volumeNames : list string) (a : VolumeAttachment) : bool :=
  match va_PersistentVolumeName a with
  | Some v => va_Attached a && bool_decide (v ∈ volumeNames)
  | None => false
  end.

Section Claims.
Variables (reader : Reader) (namespace : string).

Definition sourceClaimsMountedOnlyBy (paths : list DataPathIdentity) (allowed : Pod -> bool) : prog (cerror + bool) :=
  pods ← call (ApiList KPod reader (Some namespace) ∅);
  Ret (match pods with
       | inl _ => inl (go_error "inspect source claim mounts failed; inspect Kubernetes API availability")
       | inr l => inr (forallb (fun pod => negb (mounts_source paths pod) || allowed pod) (Items l))
       end).

Fixpoint source_volumes (paths : list DataPathIdentity) (volumeNames : list string) : prog (option (list string)) :=
  match paths with
  | [] => Ret (Some volumeNames)
  | path :: rest =>
      claim ← call (ApiGet KPersistentVolumeClaim reader (Key namespace (claimName path)));
      match claim with
      | inl _ => Ret None
      | inr claim =>
          if (om_UID (pvc_meta claim) != claimUID path) || (pvc_VolumeName claim == "") then Ret None
          else source_volumes rest (pvc_VolumeName claim :: volumeNames)
      end
  end.
Definition sourceClaimsUnmounted (paths : list DataPathIdentity) : prog (cerror + bool) :=
  unmounted ← sourceClaimsMountedOnlyBy paths (fun _ => false);
  match unmounted with
  | inr true =>
      volumeNames ← source_volumes paths [];
      match (volumeNames : option (list string)) with
      | None => Ret (inl (go_error "verify exact source claim attachment failed; inspect retained storage identity"))
      | Some volumeNames =>
          attachments ← call (ApiList KVolumeAttachment reader None ∅);
          Ret (match attachments with
               | inl _ => inl (go_error "inspect source volume attachments failed; inspect Kubernetes API availability")
               | inr l => inr (negb (existsb (attached volumeNames) (Items l)))
               end)
      end
  | other => Ret other
  end.

(** ** What an affirmed check has read *)

Definition listed_pods (l : object_list Pod) (es : list event) : Prop :=
  Ev (ApiList KPod reader (Some namespace) ∅) (inr l) ∈ es.
Definition path_volume (path : DataPathIdentity) (volume : string) (es : list event) : Prop :=
  exists claim, Ev (ApiGet KPersistentVolumeClaim reader (Key namespace (claimName path))) (inr claim) ∈ es /\
    (om_UID (pvc_meta claim) = claimUID path /\ pvc_VolumeName claim = volume /\ volume <> "").
(** Nothing mounts the claims and none of their volumes is attached. *)
Definition unmounted (paths : list DataPathIdentity) (es : list event) : Prop :=
  exists pods attachments volumes,
    (listed_pods pods es /\ Ev (ApiList KVolumeAttachment reader None ∅) (inr attachments) ∈ es) /\
    Forall2 (fun path volume => path_volume path volume es) paths volumes /\
    ((forall pod, pod ∈ Items pods -> mounts_source paths pod = false) /\
     (forall a v, a ∈ Items attachments -> va_PersistentVolumeName a = Some v -> va_Attached a = true -> v ∉ volumes)).
#[export] Instance unmounted_grows p : Grows (unmounted p).
Proof. unfold unmounted, listed_pods, path_volume. grows_tac. Qed.

Lemma source_volumes_keep paths names es names' : steps (source_volumes paths names) es (Some names') ->
  forall v, v ∈ names -> v ∈ names'.
Proof.
  revert names es. induction paths as [|p paths IH]; intros names es; cbn [source_volumes].
  - intros [_ [= ->]]. done.
  - intros (es1 & es2 & x & -> & ->%steps_call & Hs)%steps_bind v Hv.
    destruct x as [e|claim]; [by destruct Hs|]. destruct (_ || _)%bool; [by destruct Hs|].
    eapply IH; [exact Hs | by right].
Qed.
Lemma source_volumes_read paths names es names' : steps (source_volumes paths names) es (Some names') ->
  exists volumes, Forall2 (fun path volume => path_volume path volume es) paths volumes /\
    (forall v, v ∈ volumes -> v ∈ names').
Proof.
  revert names es. induction paths as [|p paths IH]; intros names es; cbn [source_volumes].
  - intros [-> [= ->]]. exists []. split; [constructor|]. intros v Hv. by apply not_elem_of_nil in Hv.
  - intros (es1 & es2 & x & -> & ->%steps_call & Hs)%steps_bind.
    destruct x as [e|claim]; [by destruct Hs|]. destruct (_ || _)%bool eqn:E; [by destruct Hs|].
    apply orb_false_iff in E as [Hu%negb_false_iff Hv%bool_decide_eq_false]. apply bool_decide_eq_true in Hu.
    destruct (IH _ _ Hs) as (volumes & HF & Hin). exists (pvc_VolumeName claim :: volumes). split.
    + constructor; [exists claim; split; [by left | done]|]. eapply Forall2_impl; [|exact HF].
      intros q v (c & ? & ?). exists c. split; [by right | done].
    + intros v [->|Hv']%elem_of_cons; [|by apply Hin]. eapply source_volumes_keep; [exact Hs | by left].
Qed.

Lemma sourceClaimsUnmounted_unmounted paths es : steps (sourceClaimsUnmounted paths) es (inr true) -> unmounted paths es.
Proof.
  unfold sourceClaimsUnmounted, sourceClaimsMountedOnlyBy. intros (es1 & es2 & x & -> & Hp & Hs)%steps_bind.
  destruct x as [e|[]]; [by destruct Hs| |by destruct Hs].
  apply steps_bind in Hp as (es3 & es4 & x & -> & ->%steps_call & [-> Hp]). destruct x as [e|pods]; [done|].
  injection Hp as Hp. symmetry in Hp. rewrite forallb_forall in Hp.
  apply steps_bind in Hs as (es5 & es6 & x & -> & Hv & Hs). destruct x as [names|]; [|by destruct Hs].
  apply steps_bind in Hs as (es7 & es8 & x & -> & ->%steps_call & [-> Hs]). destruct x as [e|atts]; [done|].
  injection Hs as Hs. symmetry in Hs. apply negb_true_iff in Hs.
  apply source_volumes_read in Hv as (volumes & HF & Hin).
  exists pods, atts, volumes. split_and!.
  - unfold listed_pods. set_solver.
  - set_solver.
  - eapply Forall2_impl; [|exact HF]. intros p v (c & ? & ?). exists c. split; [set_solver | done].
  - intros pod Hpod%list_elem_of_In. specialize (Hp pod Hpod). rewrite orb_false_r in Hp. by apply negb_true_iff.
  - intros a v Ha Hname Hatt Hvol. pose proof (existsb_false_elem _ _ Hs a Ha) as Hf. unfold attached in Hf.
    rewrite Hname, Hatt in Hf. apply bool_decide_eq_false in Hf. by apply Hf, Hin.
Qed.

Lemma reads_sourceClaimsUnmounted paths : reads_only (sourceClaimsUnmounted paths).
Proof.
  unfold sourceClaimsUnmounted, sourceClaimsMountedOnlyBy. unfold reads_only. emits_tac.
  generalize (@nil string). induction paths as [|p paths IH]; intros l; cbn [source_volumes]; emits_tac.
Qed.
End Claims.
