(* ===== verification/BackupController.v ===== *)
(** * The backup controller ([internal/controller/gamebackup_controller.go])

    [GameBackupReconciler], call for call: it resolves the exact source,
    fences its world with a Lease, stops the server, checks that nothing
    mounts the claims, runs one gated worker, records its verified artifact
    and settles the runtime.  With [markLeaveStoppedBackup] of
    [cold_backup_marker.go].

    Parameters: the strict JSON decoding of a worker's termination message
    ([BackupDecoders]). *)

From Stdlib Require Import Ascii.
From stdpp Require Import base tactics list strings gmap numbers.
From S2P Require Import Prelude GoStrings K8s ApiTypes DataOperation Operations GameDefinition KubeObjects KubePlan KubeApi WorkerInput KubeDestroy OperationFence WorkerPods SourceClaims ServerController KubeBackup.
Open Scope string_scope.
Open Scope list_scope.

Definition maxBackupAttempts : Z := 3.
Definition backupConditionOrder : list string :=
  [ConditionOperationAccepted; ConditionSourceReady; ConditionArtifactReady; ConditionVerified;
   ConditionOperationComplete].

Record GameBackupReconciler := MkBackupReconciler {
  br_has_APIReader : bool;
  br_Catalog : Catalog;
  br_WorkerImage : string;
  (* the script embedded in the binary, for [platformkube.Build] *)
  br_materializeConfigurationScript : string }.

(** The success message of a backup worker. *)
Record BackupWorkerResult := MkBackupResult {
  bwr_Version : string;
  bwr_ArtifactID : string;
  bwr_ManifestDigest : string;
  bwr_SizeBytes : Z;
  bwr_PathCount : Z;
  bwr_CreatedAt : Time;
  bwr_VerifiedAt : Time }.
(** [json.Decoder] with [DisallowUnknownFields], and a second [Decode] that
    must find the end: of a result, and of a failure's version, failure and
    checkpoint. *)
Class BackupDecoders := {
  DecodeBackupResult : string -> option BackupWorkerResult;
  DecodeBackupFailure : string -> option (string * string * string) }.

(** ** The status of a backup *)

Definition with_backup_status (b : GameBackup) (s : DataOperationStatus) : GameBackup :=
  MkGameBackup (gb_meta b) (gb_Spec b) s.
Definition with_backup_meta (b : GameBackup) (m : ObjectMeta) : GameBackup :=
  MkGameBackup m (gb_Spec b) (gb_Status b).

Definition set_ds_Phase (s : DataOperationStatus) (generation : Z) (phase : DataOperationPhase) : DataOperationStatus :=
  MkDataStatus generation phase (ds_Attempts s) (ds_StartedAt s) (ds_CompletedAt s) (ds_Conditions s)
    (ds_Source s) (ds_Fence s) (ds_Artifact s) (ds_Runtime s).
Definition set_ds_Attempts (s : DataOperationStatus) (n : Z) : DataOperationStatus :=
  MkDataStatus (ds_ObservedGeneration s) (ds_Phase s) n (ds_StartedAt s) (ds_CompletedAt s) (ds_Conditions s)
    (ds_Source s) (ds_Fence s) (ds_Artifact s) (ds_Runtime s).
Definition set_ds_Conditions (s : DataOperationStatus) (c : list Condition) : DataOperationStatus :=
  MkDataStatus (ds_ObservedGeneration s) (ds_Phase s) (ds_Attempts s) (ds_StartedAt s) (ds_CompletedAt s) c
    (ds_Source s) (ds_Fence s) (ds_Artifact s) (ds_Runtime s).
Definition set_ds_Source (s : DataOperationStatus) (started : option Time) (source : option DataSourceSnapshot) :
    DataOperationStatus :=
  MkDataStatus (ds_ObservedGeneration s) (ds_Phase s) (ds_Attempts s) started (ds_CompletedAt s) (ds_Conditions s)
    source (ds_Fence s) (ds_Artifact s) (ds_Runtime s).
Definition set_ds_Fence (s : DataOperationStatus) (f : option ColdDataFence) : DataOperationStatus :=
  MkDataStatus (ds_ObservedGeneration s) (ds_Phase s) (ds_Attempts s) (ds_StartedAt s) (ds_CompletedAt s)
    (ds_Conditions s) (ds_Source s) f (ds_Artifact s) (ds_Runtime s).
Definition set_ds_Artifact (s : DataOperationStatus) (a : option BackupArtifact) : DataOperationStatus :=
  MkDataStatus (ds_ObservedGeneration s) (ds_Phase s) (ds_Attempts s) (ds_StartedAt s) (ds_CompletedAt s)
    (ds_Conditions s) (ds_Source s) (ds_Fence s) a (ds_Runtime s).
Definition set_ds_Runtime (s : DataOperationStatus) (r : option RuntimeDisposition) (completed : option Time) :
    DataOperationStatus :=
  MkDataStatus (ds_ObservedGeneration s) (ds_Phase s) (ds_Attempts s) (ds_StartedAt s) completed
    (ds_Conditions s) (ds_Source s) (ds_Fence s) (ds_Artifact s) r.

(** Go compares two references with [==]: their namespace pointers differ
    unless both are nil. *)
Definition same_reference (a b : ExactLocalReference) : bool := (a == b) && (ref_Namespace a == None).

Fixpoint replace_condition (c : Condition) (l : list Condition) : option (list Condition) :=
  match l with
  | [] => None
  | previous :: rest =>
      if cond_Type previous != cond_Type c
      then match replace_condition c rest with Some rest => Some (previous :: rest) | None => None end
      else
        let t := if (cond_Status previous == cond_Status c) && (cond_Reason previous == cond_Reason c) &&
                    (cond_Message previous == cond_Message c)
                 then cond_LastTransitionTime previous else cond_LastTransitionTime c in
        Some (MkCondition (cond_Type c) (cond_Status c) (cond_ObservedGeneration c) t (cond_Reason c)
                (cond_Message c) :: rest)
  end.
(** [setBackupCondition(updated, ...)] on the status of a backup of this
    generation. *)
Definition setBackupCondition (generation : Z) (s : DataOperationStatus) (conditionType : string)
    (status : ConditionStatus) (reason message : string) (now : Time) : DataOperationStatus :=
  let c := MkCondition conditionType status generation now reason message in
  set_ds_Conditions s (default (ds_Conditions s ++ [c]) (replace_condition c (ds_Conditions s))).

Definition backupConditionReason (b : GameBackup) (conditionType : string) : string :=
  match find (fun c => cond_Type c == conditionType) (ds_Conditions (gb_Status b)) with
  | Some c => cond_Reason c
  | None => ""
  end.
Definition canonicalizeBackupConditions (s : DataOperationStatus) : DataOperationStatus :=
  set_ds_Conditions s
    (omap (fun conditionType => find (fun c => cond_Type c == conditionType) (ds_Conditions s)) backupConditionOrder).

Definition pendingBackupFailure (b : GameBackup) : string * string :=
  match find (fun c => (cond_Type c == ConditionOperationComplete) && (cond_Status c == ConditionFalse))
          (ds_Conditions (gb_Status b)) with
  | Some c => (cond_Reason c, cond_Message c)
  | None => (ReasonWorkerFailed,
      "backup work ended without a verified artifact; create a new operation after inspection")
  end.

Definition verified_result (s : DataOperationStatus) : bool :=
  match ds_Artifact s with
  | Some a => av_Result (art_Verification a) == VerificationVerified
  | None => false
  end.

(** ** Worker Pods and their results *)

Definition backupPodIdentityMatches (job : Job) (pod : Pod) : bool :=
  let m := pod_meta pod in
  if (om_UID (job_meta job) == "") || (om_UID m == "") || (om_Namespace m != om_Namespace (job_meta job)) ||
     deleting m || (len (om_OwnerReferences m) != 1%Z) ||
     negb (controlledBy (om_OwnerReferences m) "Job" (om_Name (job_meta job)) (om_UID (job_meta job))) ||
     (om_Labels m != job_TemplateLabels (job_Spec job))
  then false
  else workerPodAnnotationsMatch (om_Annotations m) (job_TemplateAnnotations (job_Spec job))
         AnnotationBackupPodAuthorized.

Definition backupPodSpecMatches (job : Job) (pod : Pod) : bool :=
  (pod_SchedulingGates (pod_Spec pod) == [BackupSchedulingGate]) &&
  (normalizeBackupPodDefaults (job_TemplateSpec (job_Spec job)) == normalizeBackupPodDefaults (pod_Spec pod)).

Definition authorized_uid (pod : Pod) : string := mget (om_Annotations (pod_meta pod)) AnnotationBackupPodAuthorized.
(** A Pod of the Job that was authorized to execute. *)
Definition worker_pod (job : Job) (pod : Pod) : bool :=
  controlledBy (om_OwnerReferences (pod_meta pod)) "Job" (om_Name (job_meta job)) (om_UID (job_meta job)) &&
  (om_UID (pod_meta pod) != "") && (authorized_uid pod == om_UID (pod_meta pod)).

Inductive backupMountState := backupMountClear | backupMountExclusive | backupMountOverlap | backupMountForeign.

Definition mount_state (paths : list DataPathIdentity) (backupUID : string) (job : Job) (pods : list Pod) :
    backupMountState :=
  let mounting := List.filter (mounts_source paths) pods in
  if existsb (fun pod => (mget (om_Labels (pod_meta pod)) LabelBackupUID != backupUID) || negb (worker_pod job pod))
       mounting
  then backupMountForeign
  else match remove_dups ((fun pod => om_UID (pod_meta pod)) <$> mounting) with
       | [] => backupMountClear
       | [_] => backupMountExclusive
       | _ => backupMountOverlap
       end.

Definition failure_fallback : string := "repository-side verification failed; the incomplete artifact is not usable".
Definition checkpoint_detail (checkpoint : string) : option string :=
  if checkpoint == "snapshot-selection" then Some "snapshot selection"
  else if checkpoint == "repository-check" then Some "full repository check"
  else if checkpoint == "manifest" then Some "manifest readback"
  else if checkpoint == "inventory" then Some "snapshot inventory"
  else if checkpoint == "file" then Some "file checksum readback"
  else if checkpoint == "source-recheck" then Some "cold source recheck"
  else if checkpoint == "stats" then Some "snapshot statistics"
  else None.

Section Results.
Context `{BackupDecoders}.

Definition backupVerificationFailureMessage (raw : string) : string :=
  if (slen raw >? 4095)%Z then failure_fallback
  else match DecodeBackupFailure raw with
  | None => failure_fallback
  | Some (version, failure, checkpoint) =>
      if (version != WorkerInputVersion) || (failure != "VerificationFailed") then failure_fallback
      else match checkpoint_detail checkpoint with
      | Some detail => "repository-side verification failed at " +:+ detail +:+ "; the incomplete artifact is not usable"
      | None => failure_fallback
      end
  end.

(** What one container status says about the failure, if it ends the search. *)
Definition status_failure (c : ContainerStatus) : option (string * string) :=
  match cs_Terminated c with
  | None => None
  | Some (code, message) =>
      if cs_Name c == "backup-worker" then
        if code == 11%Z then Some (ReasonSecretUnavailable, "")
        else if code == 30%Z then Some (ReasonVerificationFailed, backupVerificationFailureMessage message)
        else None
      else if cs_Name c == "backup-authorizer" then
        if code == 11%Z then Some (ReasonSecretUnavailable, "")
        else if code == 12%Z then Some (ReasonWorkerFailed, "")
        else None
      else None
  end.
Definition failure_of (job : Job) (pods : list Pod) : string * string :=
  default (ReasonWorkerFailed, "")
    (head (omap status_failure
       (concat ((fun pod => pod_InitContainerStatuses pod ++ pod_ContainerStatuses pod) <$>
                List.filter (worker_pod job) pods)))).

Inductive worker_outcome := ResultPending | ResultInvalid (m : string) | ResultOk (r : BackupWorkerResult).

Definition decode_result (message : string) : worker_outcome :=
  match DecodeBackupResult message with
  | None => ResultInvalid "backup worker result is invalid"
  | Some result =>
      if (bwr_Version result != BackupFormatVersion) || (bwr_SizeBytes result <? 0)%Z || (bwr_PathCount result <? 1)%Z ||
         IsZero (bwr_CreatedAt result) || IsZero (bwr_VerifiedAt result) ||
         (bwr_VerifiedAt result <? bwr_CreatedAt result)%Z
      then ResultInvalid "backup worker result is incomplete"
      else ResultOk result
  end.
Definition success_message (c : ContainerStatus) : option string :=
  match cs_Terminated c with
  | Some (code, message) => if (cs_Name c == "backup-worker") && (code == 0%Z) then Some message else None
  | None => None
  end.
(** The first successful worker container of an authorized Pod decides. *)
Definition result_of (job : Job) (pods : list Pod) : worker_outcome :=
  match head (omap success_message (concat (pod_ContainerStatuses <$> List.filter (worker_pod job) pods))) with
  | Some message => decode_result message
  | None => ResultPending
  end.
End Results.

(** ** The reconciler's calls *)

Section Controller.
Context `{RegexpEngine} `{NameValidation} `{JsonSchema} `{BackupDecoders}.
Variable r : GameBackupReconciler.

Definition directReader : Reader := if br_has_APIReader r then UncachedReader else CachedReader.
Definition backup_get {A} (k : kind A) (b : GameBackup) (name : string) : prog (apierr + A) :=
  call (ApiGet k directReader (Key (gb_Namespace b) name)).
(** The objects labelled with the UID of the backup. *)
Definition backup_list {A} (k : kind A) (b : GameBackup) : prog (apierr + object_list A) :=
  call (ApiList k directReader (Some (gb_Namespace b)) (<[LabelBackupUID := gb_UID b]> ∅)).
Definition backup_now : prog Time := call ClockNow.
(** [if err := call; err != nil { return errors.New(m) }; return nil] *)
Definition or_error (m : string) (e : option apierr) : option cerror :=
  match e with Some _ => Some (go_error m) | None => None end.

(** *** Status writes *)

Definition writeStatus (b : GameBackup) (phase : DataOperationPhase)
    (mutate : DataOperationStatus -> prog DataOperationStatus) : prog (option cerror) :=
  updated ← mutate (set_ds_Phase (gb_Status b) (gb_Generation b) phase);
  match ValidateTransition BackupOperation (ds_Phase (gb_Status b)) phase (verified_result updated) with
  | Err _ => Ret (Some (go_error "backup state transition was rejected by the safety contract"))
  | Ok _ =>
      let updated := with_backup_status b (canonicalizeBackupConditions updated) in
      match ValidateBackupStatus (Some updated) with
      | Err _ => Ret (Some (go_error "backup status was rejected by the safety contract"))
      | Ok _ =>
          if gb_Status b == gb_Status updated then Ret None
          else
            e ← call (ApiUpdateStatus KGameBackup updated);
            Ret (or_error "update GameBackup status failed; inspect Kubernetes API availability" e)
      end
  end.

(** A mutation that only sets a condition, at the current time. *)
Definition with_condition (b : GameBackup) (conditionType : string) (status : ConditionStatus)
    (reason message : string) (s : DataOperationStatus) : prog DataOperationStatus :=
  t ← backup_now; Ret (setBackupCondition (gb_Generation b) s conditionType status reason message t).
(** [return ctrl.Result{}, r.writeStatus(...)] *)
Definition write_and_return (b : GameBackup) (phase : DataOperationPhase)
    (mutate : DataOperationStatus -> prog DataOperationStatus) : prog outcome :=
  e ← writeStatus b phase mutate; Ret (no_requeue, e).
(** [return ctrl.Result{Requeue: err == nil}, err] *)
Definition write_and_requeue (b : GameBackup) (phase : DataOperationPhase)
    (mutate : DataOperationStatus -> prog DataOperationStatus) : prog outcome :=
  e ← writeStatus b phase mutate;
  Ret (match (e : option cerror) with Some e => (no_requeue, Some e) | None => (requeue, None) end).
(** [if err != nil { return err }; return ctrl.Result{RequeueAfter: t}, nil] *)
Definition write_and_wait (b : GameBackup) (phase : DataOperationPhase) (t : Z)
    (mutate : DataOperationStatus -> prog DataOperationStatus) : prog outcome :=
  e ← writeStatus b phase mutate;
  Ret (match (e : option cerror) with Some e => (no_requeue, Some e) | None => (requeue_after t, None) end).

Definition hold (b : GameBackup) (reason message : string) : prog outcome :=
  write_and_wait b (ds_Phase (gb_Status b)) backupRequeue
    (with_condition b ConditionSourceReady ConditionFalse reason message).
Definition reportBlocked (b : GameBackup) (reason message : string) : prog outcome :=
  let phase := ds_Phase (gb_Status b) in
  if (phase == DataPhaseRunning) || (phase == DataPhaseVerifying) || (phase == DataPhaseCancelling)
  then hold b reason message
  else write_and_wait b DataPhaseBlocked (5 * backupRequeue)
         (with_condition b ConditionSourceReady ConditionFalse reason message).
Definition markFailure (b : GameBackup) (reason message : string) : prog outcome :=
  write_and_requeue b DataPhaseVerifying (fun s =>
    with_condition b ConditionOperationComplete ConditionFalse reason message (set_ds_Artifact s None)).

(** *** The worker *)

Definition owned_by_backup (b : GameBackup) (m : ObjectMeta) : bool :=
  controlledBy (om_OwnerReferences m) "GameBackup" (gb_Name b) (gb_UID b).

Definition deleteWorkerAndWait (b : GameBackup) : prog (cerror + bool) :=
  job ← backup_get KJob b (BackupResourceName (gb_UID b));
  match job with
  | inr job =>
      if negb (owned_by_backup b (job_meta job)) then Ret (inl (go_error "refuse to delete foreign backup worker Job"))
      else
        e ← call (ApiDelete KJob job (MkDeleteOptions None None (Some "Foreground")));
        Ret (match e with
             | None | Some NotFound => inr true
             | Some _ => inl (go_error "stop owned backup worker failed; inspect Kubernetes API availability")
             end)
  | inl NotFound =>
      pods ← backup_list KPod b;
      Ret (match pods with
           | inl _ => inl (go_error "verify backup worker absence failed; inspect Kubernetes API availability")
           | inr l => inr (len (Items l) >? 0)%Z
           end)
  | inl _ => Ret (inl (go_error "inspect owned backup worker failed; inspect Kubernetes API availability"))
  end.
(** [if pending, err := p; err != nil || pending { return RequeueAfter }] *)
Definition unless_pending (p : prog (cerror + bool)) (k : prog outcome) : prog outcome :=
  x ← p;
  match x with
  | inl e => Ret (requeue_after backupRequeue, Some e)
  | inr true => Ret (requeue_after backupRequeue, None)
  | inr false => k
  end.

Definition abortActive (b : GameBackup) (reason message : string) : prog outcome :=
  pending ← deleteWorkerAndWait b;
  match pending with
  | inl e => Ret (no_requeue, Some e)
  | inr true => Ret (requeue_after backupRequeue, None)
  | inr false => markFailure b reason message
  end.

(** *** The fence *)

Definition errBackupOperationConflict : error := ErrorsNew "retained data is locked by another operation".
Definition errBackupWorkerOrphaned : error := ErrorsNew "prior backup worker pod still exists".

Definition backup_server (b : GameBackup) : string := gsr_Name (gbs_Source (gb_Spec b)).
Definition backup_fence (b : GameBackup) (dataIdentity serverName : string) (t : Time) : Lease :=
  MkLease
    (MkObjectMeta (DataOperationLeaseName dataIdentity) (gb_Namespace b) "" 0 "" 0 None []
       (<[LabelManagedBy := ManagerName]> (<[LabelDataIdentity := dataIdentity]>
         (<[LabelBackupUID := gb_UID b]> (<[LabelInstance := serverName]> ∅))))
       (<[AnnotationBackupName := gb_Name b]> ∅) [])
    (Some (gb_UID b)) (Some t).
Definition holds_backup_fence (b : GameBackup) (serverName : string) (lease : Lease) : bool :=
  BackupOperationLeaseMatches (Some lease) (backup_ref b) serverName.

Definition acquireLease (b : GameBackup) (dataIdentity serverName : string) : prog (option cerror) :=
  existing ← backup_get KLease b (DataOperationLeaseName dataIdentity);
  match existing with
  | inl NotFound =>
      t ← backup_now;
      e ← call (ApiCreate KLease (backup_fence b dataIdentity serverName t));
      Ret (match (e : apierr + Lease) with
           | inr _ => None
           | inl e => if IsAlreadyExists e then Some (FromGo errBackupOperationConflict)
                      else Some (go_error "create retained-data operation lease failed; inspect Kubernetes API availability")
           end)
  | inl _ =>
      Ret (Some (go_error "inspect retained-data operation lease failed; inspect Kubernetes API availability"))
  | inr lease =>
      Ret (if (lease_label lease LabelDataIdentity != dataIdentity) || negb (holds_backup_fence b serverName lease)
           then Some (FromGo errBackupOperationConflict) else None)
  end.

(** The one Lease of the backup, or the failure to find exactly one. *)
Definition own_lease (b : GameBackup) (listing missing foreign : string) : prog (cerror + Lease) :=
  leases ← backup_list KLease b;
  Ret (match leases with
       | inl _ => inl (go_error listing)
       | inr l =>
           match Items l with
           | [lease] => if holds_backup_fence b (backup_server b) lease then inr lease else inl (go_error foreign)
           | _ => inl (go_error missing)
           end
       end).
Definition update_lease (lease : Lease) (annotations : StringMap) : prog (option apierr) :=
  call (ApiUpdate KLease (MkLease (with_annotations (ls_meta lease) annotations) (ls_HolderIdentity lease)
         (ls_AcquireTime lease))).

Definition clearWorkerExecution (b : GameBackup) : prog (option cerror) :=
  lease ← own_lease b "inspect backup worker execution lease failed; inspect Kubernetes API availability"
    "exact backup worker execution lease is unavailable"
    "refuse to clear a foreign backup worker execution lease";
  match lease with
  | inl e => Ret (Some e)
  | inr lease =>
      if lease_annotation lease AnnotationWorkerPodUID == "" then Ret None
      else
        e ← update_lease lease (delete AnnotationWorkerPodUID (om_Annotations (ls_meta lease)));
        Ret (or_error "clear prior backup worker execution failed; inspect Kubernetes API availability" e)
  end.

Definition releaseLeases (b : GameBackup) : prog (option cerror) :=
  leases ← backup_list KLease b;
  match leases with
  | inl _ => Ret (Some (go_error "list retained-data operation leases failed; inspect Kubernetes API availability"))
  | inr l =>
      loop (fun lease =>
        if negb (holds_backup_fence b (backup_server b) lease)
        then Ret (Some (go_error "refuse to release a foreign retained-data operation lease"))
        else
          e ← call (ApiDelete KLease lease (MkDeleteOptions None None None));
          Ret (match e with
               | None | Some NotFound => None
               | Some _ => Some (go_error "release retained-data operation lease failed; inspect Kubernetes API availability")
               end)) (Items l)
  end.

Definition allowRuntimeSettlement (b : GameBackup) (state : DesiredState) (generation : Z) : prog (option cerror) :=
  lease ← own_lease b "list retained-data operation leases failed; inspect Kubernetes API availability"
    "exact retained-data operation lease is unavailable"
    "refuse to authorize runtime through a foreign retained-data operation lease";
  match lease with
  | inl e => Ret (Some e)
  | inr lease =>
      let wantGeneration := FormatInt generation in
      if (lease_annotation lease AnnotationRuntimeSettlementState == DesiredState_string state) &&
         (lease_annotation lease AnnotationRuntimeSettlementGeneration == wantGeneration)
      then Ret None
      else
        e ← update_lease lease
              (<[AnnotationRuntimeSettlementGeneration := wantGeneration]>
                (<[AnnotationRuntimeSettlementState := DesiredState_string state]> (om_Annotations (ls_meta lease))));
        Ret (or_error "authorize exact runtime settlement failed; inspect Kubernetes API availability" e)
  end.

(** *** The exact source *)

Record resolved_source := MkResolved {
  rv_server : GameServer;
  rv_definition : GameDefinition;
  rv_plan : Plan;
  rv_source : DataSourceSnapshot }.
(** [backupIssue]: a reason and a message. *)
Abbreviation backupIssue := (string * string)%type.

(** The request names this generation, or the one the operation itself
    stopped. *)
Definition exact_generation (b : GameBackup) (server : GameServer) : bool :=
  let wanted := gbs_Source (gb_Spec b) in
  let exactRequest := (gs_Generation server == gsr_Generation wanted) &&
                      (gs_DesiredState (gs_Spec server) == gsr_DesiredState wanted) in
  let operationStop := isSome (ds_Source (gb_Status b)) && (gsr_DesiredState wanted == DesiredStateRunning) &&
                       (gs_Generation server == int64 (gsr_Generation wanted + 1)) &&
                       (gs_DesiredState (gs_Spec server) == DesiredStateStopped) in
  exactRequest || operationStop.

Definition pathMounts (definition : GameDefinition) : StringMap :=
  fold_left (fun m path => <[pp_Name path := pp_MountPath path]> m) (def_PersistentPaths definition) ∅.
Definition source_path (mounts : StringMap) (claim : DataClaimPlan) (actual : PersistentVolumeClaim) :
    DataPathIdentity :=
  let pathName := claim_label (Desired claim) LabelDataPath in
  MkPath pathName (mget mounts pathName) (MkRef None (om_Name (pvc_meta actual)) (om_UID (pvc_meta actual))).

Definition source_claim_ready (claim : DataClaimPlan) (actual : PersistentVolumeClaim) : bool :=
  is_ok (validateExistingDataClaim actual claim) && (pvc_Phase actual == "Bound") && (pvc_VolumeName actual != "").
Fixpoint source_paths (mounts : StringMap) (claims : list DataClaimPlan) (paths : list DataPathIdentity) :
    prog (option (list DataPathIdentity)) :=
  match claims with
  | [] => Ret (Some paths)
  | claim :: rest =>
      actual ← call (ApiGet KPersistentVolumeClaim directReader (claim_key claim));
      match actual with
      | inl _ => Ret None
      | inr actual => if source_claim_ready claim actual
                      then source_paths mounts rest (paths ++ [source_path mounts claim actual]) else Ret None
      end
  end.

Definition current_data (identity : string) (paths : list DataPathIdentity) : RetainedDataReference :=
  MkDataRef identity ((fun path => MkClaimRef (dp_Name path) (dp_ClaimRef path)) <$> paths).
Definition sort_paths : list DataPathIdentity -> list DataPathIdentity := sort_by dp_Name.

(** The last checks of [resolveSource], on the selected data. *)
Definition source_snapshot (b : GameBackup) (server : GameServer) (definition : GameDefinition) (plan : Plan)
    (settingsDigest : string) (paths : list DataPathIdentity) : backupIssue + resolved_source :=
  let wanted := gbs_SourceData (gb_Spec b) in
  let status := gs_Status server in
  if isSome (gss_ActiveData status) &&
     (negb (sameDataSelection wanted (gss_ActiveData status)) ||
      negb (sameDataSelection (gss_ObservedData status) (gss_ActiveData status)))
  then inl (ReasonIdentityMismatch,
    "the source selected data changed or is not yet observed; create a pinned request from current exact claims")
  else if isSome wanted && negb (sameDataSelection wanted (Some (current_data (plan_DataIdentity plan) paths)))
  then inl (ReasonIdentityMismatch, "the source claims no longer match the immutable request data selection")
  else inr (MkResolved server definition plan
    (MkSource (gbs_Source (gb_Spec b)) (gs_Game (gs_Spec server)) (gs_ImageDigest (gs_Spec server)) settingsDigest
       (sort_paths paths))).

Definition resolveSource (b : GameBackup) : prog (backupIssue + resolved_source) :=
  server ← backup_get KGameServer b (backup_server b);
  match server with
  | inl _ => Ret (inl (ReasonInvalidReference,
      "the exact source GameServer is unavailable; restore it or create a new operation"))
  | inr server =>
      if server_UID server != gsr_UID (gbs_Source (gb_Spec b))
      then Ret (inl (ReasonIdentityMismatch,
        "the source GameServer name now identifies a different object; create a new operation for the intended server"))
      else if negb (isSome (ds_Fence (gb_Status b))) && negb (exact_generation b server)
      then Ret (inl (ReasonIdentityMismatch,
        "the source GameServer generation no longer matches the request; create a new operation from current state"))
      else
        let unsupported := Ret (inl (ReasonInvalidReference,
          "the installed adapter does not certify cold backup for this game")) in
        match catalog_Get (br_Catalog r) (gs_Game (gs_Spec server)) with
        | Err _ => unsupported
        | Ok definition =>
            if negb (ColdBackup (def_Capabilities definition)) then unsupported
            else match Build (br_materializeConfigurationScript r) server definition with
            | inl _ => Ret (inl (ReasonIdentityMismatch,
                "the current source no longer satisfies its certified adapter contract"))
            | inr plan =>
                match SettingsDigest definition (gs_Settings (gs_Spec server)) with
                | Err _ => Ret (inl (ReasonIdentityMismatch,
                    "the current source settings no longer satisfy the certified adapter contract"))
                | Ok settingsDigest =>
                    paths ← source_paths (pathMounts definition) (DataClaims plan) [];
                    Ret (match (paths : option (list DataPathIdentity)) with
                    | None => inl (ReasonIdentityMismatch,
                        "every declared source claim must remain bound with its exact retained identity")
                    | Some paths => source_snapshot b server definition plan settingsDigest paths
                    end)
                end
            end
        end
  end.

(** *** The worker alone mounts the source *)

Definition sourceClaimMountState (b : GameBackup) (paths : list DataPathIdentity) (job : Job) :
    prog (cerror + backupMountState) :=
  pods ← call (ApiList KPod directReader (Some (gb_Namespace b)) ∅);
  Ret (match pods with
       | inl _ => inl (go_error "inspect source claim mounts failed; inspect Kubernetes API availability")
       | inr l => inr (mount_state paths (gb_UID b) job (Items l))
       end).

(** *** Input, authority and Job *)

Definition reconcileBackupInput (b : GameBackup) (desired : ConfigMap) : prog (option cerror) :=
  existing ← call (ApiGet KConfigMap directReader (key_of (cm_meta desired)));
  match existing with
  | inl NotFound =>
      e ← call (ApiCreate KConfigMap desired);
      Ret (match (e : apierr + ConfigMap) with
           | inl _ => Some (go_error "create backup worker input failed; inspect Kubernetes API availability")
           | inr _ => None
           end)
  | inl _ => Ret (Some (go_error "inspect backup worker input failed; inspect Kubernetes API availability"))
  | inr existing =>
      Ret (if negb (owned_by_backup b (cm_meta existing)) || (cm_Data existing != cm_Data desired) ||
              (om_Labels (cm_meta existing) != om_Labels (cm_meta desired)) ||
              (cm_Immutable existing != cm_Immutable desired)
           then Some (go_error
             "backup worker input collides with a foreign or changed resource; inspect namespace ownership")
           else None)
  end.

(** One object of [reconcileBackupAuthority]: whether it was created. *)
Definition ensure_authority {A} (b : GameBackup) (k : kind A) (desired : A) (unchanged : A -> bool) (name : string) :
    prog (cerror + bool) :=
  existing ← call (ApiGet k directReader (key_of (object_meta k desired)));
  match existing with
  | inl NotFound =>
      e ← call (ApiCreate k desired);
      Ret (match (e : apierr + A) with
           | inl _ => inl (go_error ("create backup authority " +:+ name +:+ " failed; inspect Kubernetes API availability"))
           | inr _ => inr true
           end)
  | inl _ =>
      Ret (inl (go_error ("inspect backup authority " +:+ name +:+ " failed; inspect Kubernetes API availability")))
  | inr existing =>
      Ret (if negb (owned_by_backup b (object_meta k existing)) ||
              (om_Labels (object_meta k existing) != om_Labels (object_meta k desired)) || negb (unchanged existing)
           then inl (go_error ("backup authority " +:+ name +:+ " collides with a foreign or changed resource"))
           else inr false)
  end.
Definition reconcileBackupAuthority (b : GameBackup) (resources : BackupResources) : prog (cerror + bool) :=
  bind_error (ensure_authority b KServiceAccount (bk_ServiceAccount resources)
    (fun a => sa_AutomountServiceAccountToken a == sa_AutomountServiceAccountToken (bk_ServiceAccount resources))
    "ServiceAccount") (fun c1 =>
  bind_error (ensure_authority b KRole (bk_Role resources)
    (fun a => role_Rules a == role_Rules (bk_Role resources)) "Role") (fun c2 =>
  bind_error (ensure_authority b KRoleBinding (bk_RoleBinding resources)
    (fun a => (rb_Subjects a == rb_Subjects (bk_RoleBinding resources)) &&
              (rb_RoleRef a == rb_RoleRef (bk_RoleBinding resources))) "RoleBinding") (fun c3 =>
  Ret (inr (c1 || c2 || c3))))).

(** The Job as the controller would have it, given whether it runs. *)
Definition expected_job (desired existing : Job) : Job :=
  if job_Suspend (job_Spec existing) == Some true then desired else set_suspend desired false.
Definition job_unchanged (desired existing : Job) : bool :=
  (om_OwnerReferences (job_meta existing) == om_OwnerReferences (job_meta desired)) &&
  (om_Labels (job_meta existing) == om_Labels (job_meta desired)) &&
  (om_Annotations (job_meta existing) == om_Annotations (job_meta desired)) &&
  backupJobSpecMatches (expected_job desired existing) existing.
Definition reconcileBackupJob (b : GameBackup) (desired : Job) : prog (cerror + Job * bool) :=
  existing ← call (ApiGet KJob directReader (key_of (job_meta desired)));
  match existing with
  | inl NotFound =>
      pods ← backup_list KPod b;
      match pods with
      | inl _ => Ret (inl (go_error "inspect prior backup worker pods failed; inspect Kubernetes API availability"))
      | inr l =>
          if len (Items l) != 0%Z then Ret (inl (FromGo errBackupWorkerOrphaned))
          else
            e ← clearWorkerExecution b;
            match (e : option cerror) with
            | Some e => Ret (inl e)
            | None =>
                created ← call (ApiCreate KJob desired);
                Ret (match (created : apierr + Job) with
                     | inl _ => inl (go_error "create bounded backup worker failed; inspect Kubernetes API availability")
                     | inr created => inr (created, true)
                     end)
            end
      end
  | inl _ => Ret (inl (go_error "inspect bounded backup worker failed; inspect Kubernetes API availability"))
  | inr existing =>
      Ret (if job_unchanged desired existing then inr (existing, false)
           else inl (go_error "backup worker collides with a foreign or changed Job; inspect namespace ownership"))
  end.

(** *** The gate of the worker Pod *)

Definition pod_unstarted (pod : Pod) : bool :=
  (pod_NodeName (pod_Spec pod) == "") && ((pod_Phase pod == "") || (pod_Phase pod == "Pending")) &&
  (len (pod_InitContainerStatuses pod) == 0%Z) && (len (pod_ContainerStatuses pod) == 0%Z).
Definition authorized (pod : Pod) : Pod :=
  MkPod
    (with_annotations (pod_meta pod)
       (<[AnnotationBackupPodAuthorized := om_UID (pod_meta pod)]> (om_Annotations (pod_meta pod))))
    (ungated (pod_Spec pod)) (pod_Phase pod) (pod_InitContainerStatuses pod) (pod_ContainerStatuses pod).
Definition authorizeBackupWorkerPod (b : GameBackup) (job : Job) : prog (cerror + backupPodState) :=
  pods ← backup_list KPod b;
  match pods with
  | inl _ => Ret (inl (go_error "inspect admitted backup worker Pod failed; inspect Kubernetes API availability"))
  | inr (MkList [] _ _) => Ret (inr backupPodPending)
  | inr (MkList [pod] _ _) =>
      if negb (backupPodIdentityMatches job pod) then Ret (inr backupPodChanged)
      else if authorized_uid pod != "" then
        Ret (inr (if (authorized_uid pod != om_UID (pod_meta pod)) || (len (pod_SchedulingGates (pod_Spec pod)) != 0%Z)
                  then backupPodChanged else backupPodAuthorized))
      else if negb (pod_unstarted pod) || negb (backupPodSpecMatches job pod) then Ret (inr backupPodChanged)
      else
        e ← call (ApiUpdate KPod (authorized pod));
        Ret (match e with
             | Some _ => inl (go_error "authorize exact backup worker Pod failed; inspect Kubernetes API availability")
             | None => inr backupPodPending
             end)
  | inr _ => Ret (inr backupPodOverlap)
  end.

Definition workerResult (b : GameBackup) (job : Job) : prog worker_outcome :=
  pods ← backup_list KPod b;
  Ret (match pods with
       | inl _ => ResultInvalid "list backup worker pods failed"
       | inr l => result_of job (Items l)
       end).
Definition workerFailureReason (b : GameBackup) (job : Job) : prog (string * string) :=
  pods ← backup_list KPod b;
  Ret (match pods with inl _ => (ReasonWorkerFailed, "") | inr l => failure_of job (Items l) end).

(** *** Settling the runtime *)

Definition with_desired (server : GameServer) (d : DesiredState) : GameServer :=
  MkGameServer (gs_meta server) (with_desired_state (gs_Spec server) d) (gs_Status server).

(** The runtime the operation must leave: state, phase and generation. *)
Definition wanted_runtime (b : GameBackup) (fence : ColdDataFence) : DesiredState * GameServerPhase * Z :=
  let generation := gsr_Generation (fence_GameServer fence) in
  if (dor_RestartPolicy (gbs_Request (gb_Spec b)) == RestartRestorePreviousState) &&
     (gsr_DesiredState (gbs_Source (gb_Spec b)) == DesiredStateRunning)
  then (DesiredStateRunning, PhaseReady, int64 (generation + 1))
  else (DesiredStateStopped, PhaseStopped, generation).

(** A runtime, [pending], or an error. *)
Definition settleRuntime (b : GameBackup) : prog (cerror + option RuntimeDisposition * bool) :=
  match ds_Fence (gb_Status b) with
  | None => Ret (inr (None, false))
  | Some fence =>
      server ← backup_get KGameServer b (backup_server b);
      match server with
      | inl _ => Ret (inl (go_error "exact source GameServer is unavailable"))
      | inr server =>
          if server_UID server != gsr_UID (gbs_Source (gb_Spec b))
          then Ret (inl (go_error "exact source GameServer is unavailable"))
          else
            let '(wantState, wantPhase, wantGeneration) := wanted_runtime b fence in
            if (gs_Generation server == wantGeneration) && (gs_DesiredState (gs_Spec server) == wantState) then
              if (gss_ObservedGeneration (gs_Status server) != wantGeneration) ||
                 (gss_Phase (gs_Status server) != wantPhase)
              then Ret (inr (None, true))
              else
                t ← backup_now;
                Ret (inr (Some (MkDisposition
                  (MkGSRef (gsr_ref (gbs_Source (gb_Spec b))) wantGeneration wantState) wantPhase t), false))
            else if (wantState == DesiredStateRunning) &&
                    (gs_Generation server == gsr_Generation (fence_GameServer fence)) &&
                    (gs_DesiredState (gs_Spec server) == DesiredStateStopped) then
              e ← allowRuntimeSettlement b wantState wantGeneration;
              match (e : option cerror) with
              | Some e => Ret (inl e)
              | None =>
                  e ← call (ApiUpdate KGameServer (with_desired server DesiredStateRunning));
                  Ret (match e with
                       | Some _ => inl (go_error "restore previous runtime intent failed")
                       | None => inr (None, true)
                       end)
              end
            else Ret (inl (go_error "GameServer generation does not match runtime disposition"))
      end
  end.

Definition stopped_fence (b : GameBackup) (generation : Z) (t : Time) : ColdDataFence :=
  MkFence (MkGSRef (gsr_ref (gbs_Source (gb_Spec b))) generation DesiredStateStopped) t.

Definition settlePreFenceRuntime (b : GameBackup) : prog (cerror + bool) :=
  let wanted := gbs_Source (gb_Spec b) in
  if negb (isSome (ds_Source (gb_Status b))) || (gsr_DesiredState wanted != DesiredStateRunning) then Ret (inr false)
  else
    server ← backup_get KGameServer b (backup_server b);
    match server with
    | inl _ => Ret (inl (go_error "exact source GameServer is unavailable during backup finalization"))
    | inr server =>
        if server_UID server != gsr_UID wanted
        then Ret (inl (go_error "exact source GameServer is unavailable during backup finalization"))
        else if (gs_Generation server == gsr_Generation wanted) && (gs_DesiredState (gs_Spec server) == DesiredStateRunning)
        then Ret (inr false)
        else
          let stoppedGeneration := int64 (gsr_Generation wanted + 1) in
          if (gs_Generation server != stoppedGeneration) && (gs_Generation server != int64 (stoppedGeneration + 1))
          then Ret (inl (go_error "source GameServer generation changed during backup finalization"))
          else
            x ← settleRuntime (with_backup_status b
                  (set_ds_Fence (gb_Status b) (Some (stopped_fence b stoppedGeneration 0))));
            Ret (match x with inl e => inl e | inr (_, pending) => inr pending end)
    end.

Definition backup_terminal (b : GameBackup) : bool :=
  let phase := ds_Phase (gb_Status b) in
  (phase == DataPhaseSucceeded) || (phase == DataPhaseFailed) || (phase == DataPhaseCancelled).
Definition settleDeletedRuntime (b : GameBackup) : prog (cerror + bool) :=
  if backup_terminal b then Ret (inr false)
  else if isSome (ds_Fence (gb_Status b)) then
    x ← settleRuntime b;
    Ret (match x with inl e => inl e | inr (_, pending) => inr pending end)
  else settlePreFenceRuntime b.

(** *** The cold marker *)

Definition marked (b : GameBackup) (claim : PersistentVolumeClaim) : PersistentVolumeClaim :=
  let m := pvc_meta claim in
  MkPVC (pvc_TypeMeta claim) (with_annotations m (<[AnnotationColdBackupUID := gb_UID b]> (om_Annotations m)))
    (pvc_AccessModes claim) (pvc_StorageClassName claim) (pvc_StorageRequest claim) (pvc_VolumeName claim)
    (pvc_Phase claim) (pvc_Capacity claim).

(** The operation ended cold: it was asked to leave the server stopped, its
    artifact is verified, and the runtime is the fenced generation, stopped. *)
Definition ended_cold (b : GameBackup) (runtime : option RuntimeDisposition) : bool :=
  (dor_RestartPolicy (gbs_Request (gb_Spec b)) == RestartLeaveStopped) && isSome (ds_Source (gb_Status b)) &&
  verified_result (gb_Status b) &&
  match ds_Fence (gb_Status b), runtime with
  | Some fence, Some runtime =>
      (rt_Phase runtime == PhaseStopped) && (gsr_DesiredState (rt_GameServer runtime) == DesiredStateStopped) &&
      (gsr_ref (rt_GameServer runtime) == gsr_ref (gbs_Source (gb_Spec b))) &&
      same_reference (gsr_ref (rt_GameServer runtime)) (gsr_ref (fence_GameServer fence)) &&
      (rt_GameServer runtime == fence_GameServer fence)
  | _, _ => false
  end && (gb_UID b != "").

Definition exact_source_claim (b : GameBackup) (source : DataSourceSnapshot) (path : DataPathIdentity)
    (claim : PersistentVolumeClaim) : bool :=
  let m := pvc_meta claim in
  (om_UID m != "") && (om_UID m == claimUID path) && negb (deleting m) &&
  (claim_label claim LabelManagedBy == ManagerName) && (claim_label claim LabelInstance == backup_server b) &&
  (claim_label claim LabelGame == src_Game source) && (claim_label claim LabelDataPath == dp_Name path) &&
  (claim_label claim LabelDataPolicy == "retain") && (claim_label claim LabelDataIdentity != "") &&
  (len (om_OwnerReferences m) == 0%Z) && (pvc_Phase claim == "Bound") && (pvc_VolumeName claim != "").

Definition mark_claim (b : GameBackup) (source : DataSourceSnapshot) (path : DataPathIdentity) : prog (option cerror) :=
  claim ← backup_get KPersistentVolumeClaim b (claimName path);
  match claim with
  | inl e => Ret (Some (WrapError "exact backup source claim %s is unavailable: %w" (FromApi e)))
  | inr claim =>
      if negb (exact_source_claim b source path claim)
      then Ret (Some (go_error "exact backup source claim changed before cold marker"))
      else if mget (om_Annotations (pvc_meta claim)) AnnotationColdBackupUID == gb_UID b then Ret None
      else
        e ← call (ApiMergePatch KPersistentVolumeClaim claim (marked b claim));
        Ret (or_error "record cold backup claim marker failed; inspect PVC and admission state" e)
  end.
Definition markLeaveStoppedBackup (b : GameBackup) (runtime : option RuntimeDisposition) : prog (option cerror) :=
  if negb (ended_cold b runtime) then Ret (Some (go_error "exact leave-stopped backup is not cold"))
  else match ds_Source (gb_Status b) with
  | None => Ret (Some (go_error "exact leave-stopped backup is not cold"))
  | Some source =>
      if len (src_Paths source) == 0%Z then Ret (Some (go_error "backup source paths are unavailable"))
      else loop (mark_claim b source) (src_Paths source)
  end.

(** ** The ends of an operation *)

(** The mutation of every terminal status. *)
Definition finished (b : GameBackup) (runtime : option RuntimeDisposition) (status : ConditionStatus)
    (reason message : string) (s : DataOperationStatus) : prog DataOperationStatus :=
  t ← backup_now;
  Ret (setBackupCondition (gb_Generation b) (set_ds_Runtime s runtime (Some t)) ConditionOperationComplete status
         reason message t).

Definition finishSuccess (b : GameBackup) : prog outcome :=
  x ← settleRuntime b;
  match x with
  | inl _ => hold b ReasonIdentityMismatch
      "the operation cannot settle the exact requested runtime generation; leave the server stopped and inspect generation history"
  | inr (_, true) => Ret (requeue_after backupRequeue, None)
  | inr (runtime, false) =>
      e ← if dor_RestartPolicy (gbs_Request (gb_Spec b)) == RestartLeaveStopped
          then markLeaveStoppedBackup b runtime else Ret None;
      match (e : option cerror) with
      | Some _ => hold b ReasonIdentityMismatch
          "the exact cold source claim cannot be marked for retained-world protection; inspect PVC identity and admission state"
      | None => write_and_requeue b DataPhaseSucceeded (finished b runtime ConditionTrue ReasonOperationCompleted
          "the verified cold backup and requested runtime disposition are complete")
      end
  end.

Definition finishFailure (b : GameBackup) (reason message : string) : prog outcome :=
  x ← settleRuntime b;
  match x with
  | inl _ => hold b ReasonIdentityMismatch
      "backup work ended but the exact requested runtime generation cannot be settled; leave the server stopped and inspect generation history"
  | inr (_, true) => Ret (requeue_after backupRequeue, None)
  | inr (runtime, false) => write_and_requeue b DataPhaseFailed (finished b runtime ConditionFalse reason message)
  end.

Definition cancel (b : GameBackup) : prog outcome :=
  if ds_Phase (gb_Status b) != DataPhaseCancelling then
    write_and_requeue b DataPhaseCancelling (with_condition b ConditionOperationComplete ConditionFalse
      ReasonOperationCancelled "cancellation is stopping the owned worker before settling runtime")
  else
    unless_pending (deleteWorkerAndWait b)
      (x ← (if isSome (ds_Fence (gb_Status b)) then settleRuntime b
            else p ← settlePreFenceRuntime b;
                 Ret (match p with inl e => inl e | inr pending => inr (None, pending) end));
       match (x : cerror + option RuntimeDisposition * bool) with
       | inl _ => hold b ReasonIdentityMismatch
           "cancellation cannot settle the exact requested runtime generation; leave the server stopped and inspect generation history"
       | inr (_, true) => Ret (requeue_after backupRequeue, None)
       | inr (runtime, false) =>
           write_and_requeue b DataPhaseCancelled (finished b runtime ConditionFalse ReasonOperationCancelled
             "the worker is absent and the requested runtime disposition is settled")
       end).

Definition finalize (b : GameBackup) : prog outcome :=
  if negb (existsb (fun f => f == BackupFinalizer) (om_Finalizers (gb_meta b))) then Ret (no_requeue, None)
  else
    unless_pending (deleteWorkerAndWait b)
      (unless_pending (settleDeletedRuntime b)
        (e ← releaseLeases b;
         match (e : option cerror) with
         | Some e => Ret (no_requeue, Some e)
         | None =>
             e ← call (ApiUpdate KGameBackup (with_backup_meta b
                   (with_finalizers (gb_meta b) (List.filter (fun f => f != BackupFinalizer) (om_Finalizers (gb_meta b))))));
             Ret (no_requeue, or_error "remove GameBackup protection failed; inspect Kubernetes API availability" e)
         end)).

(** The second half of a pass in phase Verifying. *)
Definition finish_verifying (b : GameBackup) : prog outcome :=
  unless_pending (deleteWorkerAndWait b)
    (if isSome (ds_Artifact (gb_Status b)) then finishSuccess b
     else let '(reason, message) := pendingBackupFailure b in finishFailure b reason message).

(** ** The phases of the work *)

(** *** Preparing: the cold fence *)

Definition started (b : GameBackup) (source : DataSourceSnapshot) (s : DataOperationStatus) : prog DataOperationStatus :=
  started ← match ds_StartedAt s with
            | Some t => Ret (Some t)
            | None => t ← backup_now; Ret (Some t)
            end;
  with_condition b ConditionSourceReady ConditionUnknown ReasonColdStopPending
    "waiting for the exact source workload to stop and release every declared path"
    (set_ds_Source s started (match ds_Source s with Some source => Some source | None => Some source end)).

Definition fenced_generation (b : GameBackup) : Z :=
  let wanted := gbs_Source (gb_Spec b) in
  if gsr_DesiredState wanted == DesiredStateRunning then int64 (gsr_Generation wanted + 1) else gsr_Generation wanted.
Definition establish (b : GameBackup) (s : DataOperationStatus) : prog DataOperationStatus :=
  t ← backup_now;
  Ret (setBackupCondition (gb_Generation b)
         (set_ds_Fence s (Some (stopped_fence b (fenced_generation b) t))) ConditionSourceReady ConditionTrue
         ReasonOperationAccepted
         "the exact source is cold and every declared path is available to the read-only worker" t).
(** The stopped generation was observed. *)
Definition observed_stopped (b : GameBackup) (server : GameServer) : bool :=
  (gs_Generation server == fenced_generation b) && (gs_DesiredState (gs_Spec server) == DesiredStateStopped) &&
  (gss_ObservedGeneration (gs_Status server) == fenced_generation b) && (gss_Phase (gs_Status server) == PhaseStopped).

Definition establish_fence (b : GameBackup) (server : GameServer) (source : DataSourceSnapshot) : prog outcome :=
  if (gsr_DesiredState (gbs_Source (gb_Spec b)) == DesiredStateRunning) &&
     (gs_DesiredState (gs_Spec server) == DesiredStateRunning) then
    e ← call (ApiUpdate KGameServer (with_desired server DesiredStateStopped));
    Ret (match e with
         | Some _ => (no_requeue, Some (go_error "request exact cold stop failed; inspect Kubernetes API availability"))
         | None => (requeue_after backupRequeue, None)
         end)
  else if negb (observed_stopped b server)
  then hold b ReasonColdStopPending "waiting for the exact stopped GameServer generation to be observed"
  else
    clear ← sourceClaimsUnmounted directReader (gb_Namespace b) (src_Paths source);
    match clear with
    | inl e => Ret (no_requeue, Some e)
    | inr false => hold b ReasonColdStopPending
        "waiting for every pod using the source claims to terminate before the worker can mount them"
    | inr true => write_and_return b DataPhasePreparing (establish b)
    end.

(** *** Running: the worker's Job and Pod *)

Definition retrying (b : GameBackup) (message : string) : prog outcome :=
  write_and_return b DataPhaseRunning
    (with_condition b ConditionArtifactReady ConditionUnknown ReasonWorkerRetrying message).
Definition next_attempt (b : GameBackup) (message : string) : prog outcome :=
  write_and_return b DataPhaseRunning (fun s =>
    with_condition b ConditionArtifactReady ConditionUnknown ReasonColdStopPending message
      (set_ds_Attempts s (int32 (ds_Attempts s + 1)))).

(** The worker failed, or was interrupted, and its Pods are to be removed. *)
Definition retry (b : GameBackup) : prog outcome :=
  unless_pending (deleteWorkerAndWait b)
    (if (maxBackupAttempts <=? ds_Attempts (gb_Status b))%Z
     then markFailure b ReasonWorkerFailed
            "the bounded backup worker exhausted its retry limit without publishing an artifact"
     else
       e ← clearWorkerExecution b;
       match (e : option cerror) with
       | Some e => Ret (no_requeue, Some e)
       | None => next_attempt b "the prior worker is absent and a serialized retry is ready"
       end).

Definition job_failed (b : GameBackup) (job : Job) : prog outcome :=
  failure ← workerFailureReason b job;
  let '(reason, verificationMessage) := failure in
  if (reason == ReasonWorkerFailed) && (ds_Attempts (gb_Status b) <? maxBackupAttempts)%Z
  then retrying b "the interrupted worker will be removed before a serialized retry starts"
  else
    markFailure b reason
      (if reason == ReasonVerificationFailed then verificationMessage
       else if reason == ReasonSecretUnavailable
       then "the immutable repository Secret does not satisfy the documented S3 key contract; create a corrected Secret and new operation"
       else "the bounded backup worker failed; inspect repository availability and create a new operation after correction").

Definition artifact_of (b : GameBackup) (artifactID : string) (result : BackupWorkerResult) : BackupArtifact :=
  MkArtifact (MkProvenance (backup_ref b) (backup_secret b)) artifactID (bwr_Version result) (bwr_ManifestDigest result)
    (bwr_SizeBytes result) (bwr_PathCount result) (bwr_CreatedAt result)
    (MkVerification VerificationVerified (Some (bwr_VerifiedAt result))).
Definition record_artifact (b : GameBackup) (artifact : BackupArtifact) (s : DataOperationStatus) :
    prog DataOperationStatus :=
  s ← with_condition b ConditionArtifactReady ConditionTrue ReasonOperationCompleted
        "the deterministic repository artifact is complete" (set_ds_Artifact s (Some artifact));
  with_condition b ConditionVerified ConditionTrue ReasonOperationCompleted
    "repository-side verification covered every declared persistent path" s.
Definition job_completed (b : GameBackup) (job : Job) (artifactID : string) (source : DataSourceSnapshot) :
    prog outcome :=
  result ← workerResult b job;
  match result with
  | ResultPending => Ret (requeue_after backupRequeue, None)
  | ResultInvalid _ => markFailure b ReasonVerificationFailed
      "the worker result could not prove a complete repository-verified artifact"
  | ResultOk result =>
      if (bwr_ArtifactID result != artifactID) || (bwr_PathCount result != int32 (len (src_Paths source))) ||
         negb (HasPrefix (bwr_ManifestDigest result) "sha256:")
      then markFailure b ReasonVerificationFailed
             "the worker result did not match the exact requested artifact and path set"
      else write_and_return b DataPhaseVerifying (record_artifact b (artifact_of b artifactID result))
  end.

Definition supervise (b : GameBackup) (job : Job) (artifactID : string) (source : DataSourceSnapshot) : prog outcome :=
  if jobFailed job then job_failed b job
  else
    podState ← authorizeBackupWorkerPod b job;
    match podState with
    | inl e => Ret (no_requeue, Some e)
    | inr backupPodPending => Ret (requeue_after backupRequeue, None)
    | inr backupPodOverlap =>
        retrying b "overlapping worker Pods remained gated and will all be removed before a serialized retry"
    | inr backupPodChanged => abortActive b ReasonOperationConflict
        "the admitted worker Pod did not match the exact gated template; it was never authorized to execute"
    | inr backupPodAuthorized =>
        mountState ← sourceClaimMountState b (src_Paths source) job;
        match mountState with
        | inl e => Ret (no_requeue, Some e)
        | inr backupMountForeign => abortActive b ReasonOperationConflict
            "another pod mounted the cold source claims; the backup worker was stopped without publishing an artifact"
        | inr backupMountOverlap =>
            retrying b "overlapping worker pods were denied credentials and will all be removed before a serialized retry"
        | inr _ => if jobComplete job then job_completed b job artifactID source
                   else Ret (requeue_after backupRequeue, None)
        end
    end.

(** After the resources exist: activate, then count the attempt, then
    supervise. *)
Definition drive_job (b : GameBackup) (job : Job) (artifactID : string) (source : DataSourceSnapshot) : prog outcome :=
  if job_Suspend (job_Spec job) != Some false then
    e ← call (ApiUpdate KJob (set_suspend job false));
    Ret (match e with
         | Some _ => (no_requeue, Some (go_error "activate validated backup worker Job failed; inspect Kubernetes API availability"))
         | None => (requeue, None)
         end)
  else if ds_Phase (gb_Status b) == DataPhasePreparing
  then next_attempt b "the admitted worker Pod is awaiting exact validation before execution"
  else if ds_Phase (gb_Status b) == DataPhaseRunning then supervise b job artifactID source
  else Ret (requeue_after backupRequeue, None).

Definition ensure_worker (b : GameBackup) (s : resolved_source) (source : DataSourceSnapshot) : prog outcome :=
  match ArtifactID (gb_UID b) with
  | Err _ => Ret (no_requeue, Some (go_error "derive deterministic backup artifact failed"))
  | Ok artifactID =>
      match BuildBackupResources (Some b) source artifactID (br_WorkerImage r)
              (DataOperationLeaseName (plan_DataIdentity (rv_plan s))) (def_RuntimeIdentity (rv_definition s)) with
      | Err _ => Ret (no_requeue, Some (go_error "build bounded backup worker failed; inspect controller configuration"))
      | Ok resources =>
          e ← reconcileBackupInput b (bk_Input resources);
          match (e : option cerror) with
          | Some e => Ret (no_requeue, Some e)
          | None =>
              authorityChanged ← reconcileBackupAuthority b resources;
              match authorityChanged with
              | inl e => Ret (no_requeue, Some e)
              | inr authorityChanged =>
                  job ← reconcileBackupJob b (bk_Job resources);
                  match job with
                  | inl e =>
                      if errors_Is e errBackupWorkerOrphaned
                      then hold b ReasonOperationConflict
                        "a prior backup worker pod still exists; no replacement worker will start until it is gone"
                      else Ret (no_requeue, Some e)
                  | inr (job, jobCreated) =>
                      if authorityChanged || jobCreated then Ret (requeue, None)
                      else drive_job b job artifactID source
                  end
              end
          end
      end
  end.

(** *** The source is resolved and its world fenced *)

Definition with_source (b : GameBackup) (s : resolved_source) : prog outcome :=
  let phase := ds_Phase (gb_Status b) in
  let source := rv_source s in
  let server := rv_server s in
  if (phase == DataPhasePending) || (phase == DataPhaseBlocked)
  then write_and_return b DataPhasePreparing (started b source)
  else if ds_Source (gb_Status b) != Some source
  then abortActive b ReasonIdentityMismatch
         "the live source no longer matches the immutable backup manifest; the worker was stopped"
  else match ds_Fence (gb_Status b) with
  | None => establish_fence b server source
  | Some fence =>
      if (gs_Generation server != gsr_Generation (fence_GameServer fence)) ||
         (gs_DesiredState (gs_Spec server) != DesiredStateStopped)
      then abortActive b ReasonIdentityMismatch
        "the fenced GameServer generation changed; the worker was stopped and the server must remain offline"
      else if (phase == DataPhaseRunning) && (backupConditionReason b ConditionArtifactReady == ReasonWorkerRetrying)
      then retry b
      else ensure_worker b s source
  end.

Definition work (b : GameBackup) : prog outcome :=
  resolved ← resolveSource b;
  match resolved with
  | inl (reason, message) =>
      if isSome (ds_Fence (gb_Status b)) then abortActive b reason message else reportBlocked b reason message
  | inr s =>
      e ← acquireLease b (plan_DataIdentity (rv_plan s)) (server_Name (rv_server s));
      match (e : option cerror) with
      | Some e =>
          if errors_Is e errBackupOperationConflict
          then reportBlocked b ReasonOperationConflict
            "another data operation owns this retained world; wait for it to become terminal"
          else Ret (no_requeue, Some e)
      | None => with_source b s
      end
  end.

(** ** A pass *)

Definition reconcile_backup (b : GameBackup) : prog outcome :=
  if deleting (gb_meta b) then finalize b
  else if negb (existsb (fun f => f == BackupFinalizer) (om_Finalizers (gb_meta b))) then
    e ← call (ApiUpdate KGameBackup (with_backup_meta b
          (with_finalizers (gb_meta b) (om_Finalizers (gb_meta b) ++ [BackupFinalizer]))));
    Ret (match e with
         | Some _ => (no_requeue, Some (go_error
             "protect GameBackup before external work failed; inspect Kubernetes API availability"))
         | None => (requeue, None)
         end)
  else if backup_terminal b then e ← releaseLeases b; Ret (no_requeue, e)
  else if dor_CancelRequested (gbs_Request (gb_Spec b)) then cancel b
  else if ds_Phase (gb_Status b) == DataPhaseUnset
  then write_and_return b DataPhasePending (with_condition b ConditionOperationAccepted ConditionTrue
         ReasonOperationAccepted "the immutable cold-backup request was accepted")
  else if ds_Phase (gb_Status b) == DataPhaseVerifying then finish_verifying b
  else work b.

Definition Backup_Reconcile (req : NamespacedName) : prog outcome :=
  b ← call (ApiGet KGameBackup CachedReader req);
  match b with
  | inl NotFound => Ret (no_requeue, None)
  | inl e => Ret (no_requeue, Some (FromApi e))
  | inr b => reconcile_backup b
  end.
End Controller.
