(* ===== verification/BackupSafety.v ===== *)
(** * What the backup controller's executions guarantee

    [backup_write] is the abstract machine of one backup pass: every write it
    allows, with the evidence the pass must have read first.  The theorems
    hold for every execution, whatever the API server answers and whichever
    calls fail. *)

From Stdlib Require Import Ascii.
From stdpp Require Import base tactics list strings gmap numbers.
From S2P Require Import Prelude GoStrings Regex Sha256 K8s ApiTypes DataOperation DataStatus Receipts Operations GameDefinition KubeObjects KubePlan KubeApi TraceLogic WorkerInput KubeDestroy OperationFence WorkerPods SourceClaims ServerController KubeBackup BackupController.
Open Scope string_scope.
Open Scope list_scope.

(** The written status of a backup. *)
Definition as_backup {A} (k : kind A) : A -> option GameBackup :=
  match k in kind T return T -> option GameBackup with KGameBackup => Some | _ => fun _ => None end.
Definition backup_status (e : event) : option GameBackup :=
  match e with Ev (ApiUpdateStatus k o) _ => as_backup k o | _ => None end.

Section Safety.
Context `{RegexpEngine} `{NameValidation} `{JsonSchema} `{BackupDecoders}.
Variable r : GameBackupReconciler.
Local Abbreviation rd := (directReader r).

(** ** Evidence in the reads of a pass *)

Definition read_object {A} (b : GameBackup) (k : kind A) (name : string) (x : apierr + A) (es : list event) : Prop :=
  Ev (ApiGet k rd (Key (gb_Namespace b) name)) x ∈ es.
Definition listed {A} (b : GameBackup) (k : kind A) (l : object_list A) (es : list event) : Prop :=
  Ev (ApiList k rd (Some (gb_Namespace b)) (<[LabelBackupUID := gb_UID b]> ∅)) (inr l) ∈ es.

(** The requested server, by name and UID. *)
Definition server_read (b : GameBackup) (server : GameServer) (es : list event) : Prop :=
  read_object b KGameServer (backup_server b) (inr server) es /\
  server_UID server = gsr_UID (gbs_Source (gb_Spec b)).
Definition path_resolved (mounts : StringMap) (claim : DataClaimPlan) (path : DataPathIdentity) (es : list event) :
    Prop :=
  exists actual, Ev (ApiGet KPersistentVolumeClaim rd (claim_key claim)) (inr actual) ∈ es /\
    (source_claim_ready claim actual = true /\ path = source_path mounts claim actual).
(** The source as [resolveSource] found it. *)
Definition resolved (b : GameBackup) (s : resolved_source) (es : list event) : Prop :=
  server_read b (rv_server s) es /\
  (catalog_Get (br_Catalog r) (gs_Game (gs_Spec (rv_server s))) = Ok (rv_definition s) /\
   ColdBackup (def_Capabilities (rv_definition s)) = true /\
   Build (br_materializeConfigurationScript r) (rv_server s) (rv_definition s) = inr (rv_plan s) /\
   (ds_Fence (gb_Status b) = None -> exact_generation b (rv_server s) = true)) /\
  exists paths digest,
    Forall2 (fun claim path => path_resolved (pathMounts (rv_definition s)) claim path es)
      (DataClaims (rv_plan s)) paths /\
    (source_snapshot b (rv_server s) (rv_definition s) (rv_plan s) digest paths = inr s).

(** The data-operation Lease is held by this backup. *)
Definition fence_held (b : GameBackup) (identity name : string) (es : list event) : Prop :=
  (exists lease, read_object b KLease (DataOperationLeaseName identity) (inr lease) es /\
     (lease_label lease LabelDataIdentity = identity /\ holds_backup_fence b name lease = true)) \/
  (exists t lease, Ev (ApiCreate KLease (backup_fence b identity name t)) (inr lease) ∈ es).
Definition own_fence (b : GameBackup) (lease : Lease) (es : list event) : Prop :=
  exists l, listed b KLease l es /\ (lease ∈ Items l /\ holds_backup_fence b (backup_server b) lease = true).

(** No worker is left. *)
Definition worker_absent (b : GameBackup) (es : list event) : Prop :=
  read_object b KJob (BackupResourceName (gb_UID b)) (inl NotFound) es /\
  exists l, listed b KPod l es /\ (Items l = []).

(** The work may go on: the source is the recorded one, its world is fenced,
    and the server is stopped at the fenced generation. *)
Definition working (b : GameBackup) (s : resolved_source) (es : list event) : Prop :=
  (resolved b s es /\ fence_held b (plan_DataIdentity (rv_plan s)) (server_Name (rv_server s)) es) /\
  ((ds_Phase (gb_Status b) <> DataPhaseVerifying /\ backup_terminal b = false /\
    ds_Phase (gb_Status b) <> DataPhasePending /\ ds_Phase (gb_Status b) <> DataPhaseBlocked /\
    ds_Phase (gb_Status b) <> DataPhaseUnset /\
    dor_CancelRequested (gbs_Request (gb_Spec b)) = false) /\
   ds_Source (gb_Status b) = Some (rv_source s) /\
   exists fence, ds_Fence (gb_Status b) = Some fence /\
     gs_Generation (rv_server s) = gsr_Generation (fence_GameServer fence) /\
     gs_DesiredState (gs_Spec (rv_server s)) = DesiredStateStopped).

(** The worker's objects, as the controller builds them from the recorded
    source. *)
Definition built (b : GameBackup) (s : resolved_source) (artifactID : string) (resources : BackupResources) : Prop :=
  ArtifactID (gb_UID b) = Ok artifactID /\
  BuildBackupResources (Some b) (rv_source s) artifactID (br_WorkerImage r)
    (DataOperationLeaseName (plan_DataIdentity (rv_plan s))) (def_RuntimeIdentity (rv_definition s)) = Ok resources.
(** The Job as it was read, and that it is the built one. *)
Definition job_read (b : GameBackup) (s : resolved_source) (resources : BackupResources) (job : Job)
    (es : list event) : Prop :=
  read_object b KJob (BackupResourceName (gb_UID b)) (inr job) es /\ (job_unchanged (bk_Job resources) job = true).

(** ** What a status may say *)

(** A report the controller may record: the only message of an authorized Pod
    of the Job, complete, for this artifact and every path. *)
Definition attested (b : GameBackup) (a : BackupArtifact) (es : list event) : Prop :=
  exists s artifactID resources job result pods,
    working b s es /\ (built b s artifactID resources) /\ job_read b s resources job es /\ listed b KPod pods es /\
    (jobComplete job = true /\ result_of job (Items pods) = ResultOk result /\
     bwr_ArtifactID result = artifactID /\ bwr_PathCount result = int32 (len (src_Paths (rv_source s))) /\
     a = artifact_of b artifactID result).
(** The runtime the operation was asked to leave, as observed. *)
Definition settled (b : GameBackup) (fence : ColdDataFence) (runtime : RuntimeDisposition) (es : list event) : Prop :=
  exists server t, server_read b server es /\
    (let '(state, phase, generation) := wanted_runtime b fence in
     gs_Generation server = generation /\ gs_DesiredState (gs_Spec server) = state /\
     gss_ObservedGeneration (gs_Status server) = generation /\ gss_Phase (gs_Status server) = phase /\
     runtime = MkDisposition (MkGSRef (gsr_ref (gbs_Source (gb_Spec b))) generation state) phase t).
(** The claims carry the evidence that the world stayed cold. *)
Definition path_marked (b : GameBackup) (source : DataSourceSnapshot) (path : DataPathIdentity) (es : list event) :
    Prop :=
  exists claim, read_object b KPersistentVolumeClaim (claimName path) (inr claim) es /\
    exact_source_claim b source path claim = true /\
    (mget (om_Annotations (pvc_meta claim)) AnnotationColdBackupUID = gb_UID b \/
     Ev (ApiMergePatch KPersistentVolumeClaim claim (marked b claim)) None ∈ es).

(** The terminal phases, and what must be known before they are written. *)
Definition ended (b : GameBackup) (s' : DataOperationStatus) (es : list event) : Prop :=
  worker_absent b es /\
  ((ds_Fence (gb_Status b) = None /\ ds_Runtime s' = None) \/
   exists fence runtime, (ds_Fence (gb_Status b) = Some fence /\ ds_Runtime s' = Some runtime) /\
     settled b fence runtime es) /\
  ((ds_Phase s' = DataPhaseCancelled /\ ds_Phase (gb_Status b) = DataPhaseCancelling) \/
   (ds_Phase s' = DataPhaseFailed /\ ds_Phase (gb_Status b) = DataPhaseVerifying /\
    ds_Artifact (gb_Status b) = None) \/
   ((ds_Phase s' = DataPhaseSucceeded /\ ds_Phase (gb_Status b) = DataPhaseVerifying /\
     ds_Artifact (gb_Status b) <> None) /\
    (dor_RestartPolicy (gbs_Request (gb_Spec b)) = RestartLeaveStopped ->
     exists source, (ds_Source (gb_Status b) = Some source /\ src_Paths source <> []) /\
       forall path, path ∈ src_Paths source -> path_marked b source path es))).

(** What a status write records beyond its phase, attempts and conditions. *)
Definition source_change (b : GameBackup) (s' : DataOperationStatus) (es : list event) : Prop :=
  ds_Source s' = ds_Source (gb_Status b) \/
  exists s, (ds_Source (gb_Status b) = None /\ ds_Source s' = Some (rv_source s)) /\
    resolved b s es /\ fence_held b (plan_DataIdentity (rv_plan s)) (server_Name (rv_server s)) es.
Definition fence_change (b : GameBackup) (s' : DataOperationStatus) (es : list event) : Prop :=
  ds_Fence s' = ds_Fence (gb_Status b) \/
  exists s t, (ds_Fence (gb_Status b) = None /\ ds_Source (gb_Status b) = Some (rv_source s) /\
               ds_Fence s' = Some (stopped_fence b (fenced_generation b) t) /\
               observed_stopped b (rv_server s) = true) /\
    resolved b s es /\ fence_held b (plan_DataIdentity (rv_plan s)) (server_Name (rv_server s)) es /\
    unmounted rd (gb_Namespace b) (src_Paths (rv_source s)) es.
Definition artifact_change (b : GameBackup) (s' : DataOperationStatus) (es : list event) : Prop :=
  ds_Artifact s' = ds_Artifact (gb_Status b) \/
  (exists a, ds_Artifact s' = Some a /\ attested b a es) \/
  (ds_Artifact s' = None /\ ds_Phase s' = DataPhaseVerifying /\ ds_Phase (gb_Status b) <> DataPhaseVerifying /\
   backup_terminal b = false /\ dor_CancelRequested (gbs_Request (gb_Spec b)) = false).
Definition ending (b : GameBackup) (s' : DataOperationStatus) (es : list event) : Prop :=
  (terminal (ds_Phase s') = false /\ ds_Runtime s' = ds_Runtime (gb_Status b)) \/ ended b s' es.

Definition changes (b : GameBackup) (phase : DataOperationPhase) (s' : DataOperationStatus) (es : list event) : Prop :=
  (ds_Phase s' = phase /\ ds_ObservedGeneration s' = gb_Generation b) /\
  source_change b s' es /\ fence_change b s' es /\ artifact_change b s' es /\ ending b s' es.
(** Both safety contracts accepted the status. *)
Definition accepted (b : GameBackup) (s' : DataOperationStatus) : Prop :=
  ValidateTransition BackupOperation (ds_Phase (gb_Status b)) (ds_Phase s') (verified_result s') = Ok tt /\
  ValidateBackupStatus (Some (with_backup_status b s')) = Ok tt.

(** ** The abstract machine of a pass *)

(** The fence a runtime is settled against: the recorded one or, before it was
    recorded, the generation the operation itself stopped. *)
Definition settlement_fence (b : GameBackup) (fence : ColdDataFence) : Prop :=
  ds_Fence (gb_Status b) = Some fence \/
  (ds_Fence (gb_Status b) = None /\ ds_Source (gb_Status b) <> None /\
   gsr_DesiredState (gbs_Source (gb_Spec b)) = DesiredStateRunning /\
   gsr_Generation (fence_GameServer fence) = int64 (gsr_Generation (gbs_Source (gb_Spec b)) + 1)).
Definition settlement_annotations (generation : Z) (lease : Lease) : StringMap :=
  <[AnnotationRuntimeSettlementGeneration := FormatInt generation]>
    (<[AnnotationRuntimeSettlementState := DesiredState_string DesiredStateRunning]> (om_Annotations (ls_meta lease))).
Definition with_lease_annotations (lease : Lease) (a : StringMap) : Lease :=
  MkLease (with_annotations (ls_meta lease) a) (ls_HolderIdentity lease) (ls_AcquireTime lease).
(** The Lease lets the server run at exactly this generation. *)
Definition settlement_allowed (b : GameBackup) (generation : Z) (es : list event) : Prop :=
  exists lease, own_fence b lease es /\
    ((lease_annotation lease AnnotationRuntimeSettlementState = DesiredState_string DesiredStateRunning /\
      lease_annotation lease AnnotationRuntimeSettlementGeneration = FormatInt generation) \/
     Ev (ApiUpdate KLease (with_lease_annotations lease (settlement_annotations generation lease))) None ∈ es).
(** The server is at the fenced generation, and the operation owes it a restart. *)
Definition owes_restart (b : GameBackup) (fence : ColdDataFence) (server : GameServer) : Prop :=
  wanted_runtime b fence = (DesiredStateRunning, PhaseReady, int64 (gsr_Generation (fence_GameServer fence) + 1)) /\
  gs_Generation server = gsr_Generation (fence_GameServer fence) /\
  gs_DesiredState (gs_Spec server) = DesiredStateStopped.

Inductive backup_write (b : GameBackup) (es : list event) : event -> Prop :=
| BWStatus s' x : changes b (ds_Phase s') s' es -> accepted b s' ->
    backup_write b es (Ev (ApiUpdateStatus KGameBackup (with_backup_status b s')) x)
| BWProtect x : deleting (gb_meta b) = false ->
    backup_write b es (Ev (ApiUpdate KGameBackup (with_backup_meta b
      (with_finalizers (gb_meta b) (om_Finalizers (gb_meta b) ++ [BackupFinalizer])))) x)
| BWUnprotect x : deleting (gb_meta b) = true -> worker_absent b es ->
    backup_write b es (Ev (ApiUpdate KGameBackup (with_backup_meta b
      (with_finalizers (gb_meta b) (List.filter (fun f => f != BackupFinalizer) (om_Finalizers (gb_meta b)))))) x)
| BWFence s t x : resolved b s es -> backup_terminal b = false ->
    read_object b KLease (DataOperationLeaseName (plan_DataIdentity (rv_plan s))) (inl NotFound) es ->
    backup_write b es (Ev (ApiCreate KLease
      (backup_fence b (plan_DataIdentity (rv_plan s)) (server_Name (rv_server s)) t)) x)
| BWReleaseLease lease x : own_fence b lease es ->
    backup_terminal b = true \/ (deleting (gb_meta b) = true /\ worker_absent b es) ->
    backup_write b es (Ev (ApiDelete KLease lease (MkDeleteOptions None None None)) x)
| BWClearWorker lease x : own_fence b lease es -> worker_absent b es ->
    backup_write b es (Ev (ApiUpdate KLease
      (with_lease_annotations lease (delete AnnotationWorkerPodUID (om_Annotations (ls_meta lease))))) x)
| BWStop s x : resolved b s es -> fence_held b (plan_DataIdentity (rv_plan s)) (server_Name (rv_server s)) es ->
    ds_Source (gb_Status b) = Some (rv_source s) -> ds_Fence (gb_Status b) = None ->
    gs_Generation (rv_server s) = gsr_Generation (gbs_Source (gb_Spec b)) ->
    gs_DesiredState (gs_Spec (rv_server s)) = DesiredStateRunning ->
    backup_write b es (Ev (ApiUpdate KGameServer (with_desired (rv_server s) DesiredStateStopped)) x)
| BWAllow fence server lease x : settlement_fence b fence -> worker_absent b es -> server_read b server es ->
    owes_restart b fence server -> own_fence b lease es ->
    backup_write b es (Ev (ApiUpdate KLease (with_lease_annotations lease
      (settlement_annotations (int64 (gsr_Generation (fence_GameServer fence) + 1)) lease))) x)
| BWRestart fence server x : settlement_fence b fence -> worker_absent b es -> server_read b server es ->
    owes_restart b fence server ->
    settlement_allowed b (int64 (gsr_Generation (fence_GameServer fence) + 1)) es ->
    backup_write b es (Ev (ApiUpdate KGameServer (with_desired server DesiredStateRunning)) x)
| BWInput s artifactID resources x : working b s es -> built b s artifactID resources ->
    backup_write b es (Ev (ApiCreate KConfigMap (bk_Input resources)) x)
| BWServiceAccount s artifactID resources x : working b s es -> built b s artifactID resources ->
    backup_write b es (Ev (ApiCreate KServiceAccount (bk_ServiceAccount resources)) x)
| BWRole s artifactID resources x : working b s es -> built b s artifactID resources ->
    backup_write b es (Ev (ApiCreate KRole (bk_Role resources)) x)
| BWRoleBinding s artifactID resources x : working b s es -> built b s artifactID resources ->
    backup_write b es (Ev (ApiCreate KRoleBinding (bk_RoleBinding resources)) x)
| BWJob s artifactID resources x : working b s es -> built b s artifactID resources -> worker_absent b es ->
    backup_write b es (Ev (ApiCreate KJob (bk_Job resources)) x)
| BWActivate s artifactID resources job x : working b s es -> built b s artifactID resources ->
    job_read b s resources job es -> backup_write b es (Ev (ApiUpdate KJob (set_suspend job false)) x)
| BWAuthorize s artifactID resources job pod c n x : working b s es -> built b s artifactID resources ->
    job_read b s resources job es -> listed b KPod (MkList [pod] c n) es ->
    backupPodIdentityMatches job pod = true -> backupPodSpecMatches job pod = true -> pod_unstarted pod = true ->
    authorized_uid pod = "" -> job_Suspend (job_Spec job) = Some false ->
    backup_write b es (Ev (ApiUpdate KPod (authorized pod)) x)
| BWDeleteJob job x : read_object b KJob (BackupResourceName (gb_UID b)) (inr job) es ->
    owned_by_backup b (job_meta job) = true ->
    backup_write b es (Ev (ApiDelete KJob job (MkDeleteOptions None None (Some "Foreground"))) x)
| BWMark fence runtime source path claim x : worker_absent b es ->
    ds_Fence (gb_Status b) = Some fence -> settled b fence runtime es -> ended_cold b (Some runtime) = true ->
    ds_Source (gb_Status b) = Some source -> path ∈ src_Paths source ->
    read_object b KPersistentVolumeClaim (claimName path) (inr claim) es ->
    exact_source_claim b source path claim = true ->
    backup_write b es (Ev (ApiMergePatch KPersistentVolumeClaim claim (marked b claim)) x).

(** ** Evidence only grows *)

#[local] Instance server_read_grows b s : Grows (server_read b s).
Proof. unfold server_read, read_object. grows_tac. Qed.
#[local] Instance resolved_grows b s : Grows (resolved b s).
Proof. unfold resolved, path_resolved. grows_tac. Qed.
#[local] Instance fence_held_grows b i n : Grows (fence_held b i n).
Proof. unfold fence_held, read_object. grows_tac. Qed.
#[local] Instance own_fence_grows b l : Grows (own_fence b l).
Proof. unfold own_fence, listed. grows_tac. Qed.
#[local] Instance worker_absent_grows b : Grows (worker_absent b).
Proof. unfold worker_absent, read_object, listed. grows_tac. Qed.
#[local] Instance working_grows b s : Grows (working b s).
Proof. unfold working. grows_tac. Qed.
#[local] Instance job_read_grows b s res j : Grows (job_read b s res j).
Proof. unfold job_read, read_object. grows_tac. Qed.
#[local] Instance attested_grows b a : Grows (attested b a).
Proof. unfold attested, listed. grows_tac. Qed.
#[local] Instance settled_grows b f t : Grows (settled b f t).
Proof. unfold settled. grows_tac. Qed.
#[local] Instance path_marked_grows b s p : Grows (path_marked b s p).
Proof. unfold path_marked, read_object. grows_tac. Qed.
#[local] Instance ended_grows b s' : Grows (ended b s').
Proof.
  intros es es' Hs (Hw & Hr & Hp). split_and!; [grow Hw| |].
  - destruct Hr as [?|(f & t & ? & Hr)]; [by left|]. right. exists f, t. split; [done | grow Hr].
  - destruct Hp as [?|[?|[? Hm]]]; [by left | by right; left|]. right. right. split; [done|]. intros Hl.
    destruct (Hm Hl) as (source & ? & Hp). exists source. split; [done|]. intros path Hin. specialize (Hp path Hin). grow Hp.
Qed.
#[local] Instance changes_grows b phase s' : Grows (changes b phase s').
Proof. unfold changes, source_change, fence_change, artifact_change, ending. grows_tac. Qed.
#[local] Instance settlement_allowed_grows b g : Grows (settlement_allowed b g).
Proof. unfold settlement_allowed. grows_tac. Qed.

(** ** The reads give the evidence *)

Lemma deleteWorkerAndWait_absent b es : steps (deleteWorkerAndWait r b) es (inr false) -> worker_absent b es.
Proof.
  unfold deleteWorkerAndWait, backup_get, backup_list. intros (es1 & es2 & x & -> & ->%steps_call & Hs)%steps_bind.
  destruct x as [[|m]|job].
  - apply steps_bind in Hs as (es3 & es4 & x & -> & ->%steps_call & [-> Hs]). destruct x as [e|l]; [done|].
    injection Hs as Hn. symmetry in Hn. split; [by left|]. exists l. split; [by right; left|].
    unfold len in Hn. rewrite Z.gtb_ltb in Hn. apply Z.ltb_ge in Hn. destruct (Items l); [done | cbn in Hn; lia].
  - by destruct Hs.
  - destruct (negb _); [by destruct Hs|]. apply steps_bind in Hs as (es3 & es4 & x & _ & _ & [_ Hs]).
    by destruct x as [[]|].
Qed.

Lemma source_paths_resolved mounts claims paths es paths' : steps (source_paths r mounts claims paths) es (Some paths') ->
  exists new, paths' = paths ++ new /\ Forall2 (fun claim path => path_resolved mounts claim path es) claims new.
Proof.
  revert paths es. induction claims as [|claim claims IH]; intros paths es; cbn [source_paths].
  - intros [-> [= ->]]. exists []. split; [by rewrite app_nil_r | constructor].
  - intros (es1 & es2 & x & -> & ->%steps_call & Hs)%steps_bind. destruct x as [e|actual]; [by destruct Hs|].
    destruct (source_claim_ready claim actual) eqn:Hr; [|by destruct Hs].
    apply IH in Hs as (new & -> & HF). exists (source_path mounts claim actual :: new).
    split; [by rewrite <- app_assoc|]. constructor.
    + exists actual. split; [by left | done].
    + eapply Forall2_impl; [|exact HF]. intros c p (a & ? & ?). exists a. split; [by right | done].
Qed.

Lemma source_snapshot_inv b server d p digest paths s : source_snapshot b server d p digest paths = inr s ->
  s = MkResolved server d p (MkSource (gbs_Source (gb_Spec b)) (gs_Game (gs_Spec server)) (gs_ImageDigest (gs_Spec server))
        digest (sort_paths paths)).
Proof. unfold source_snapshot. destruct (_ && _)%bool; [done|]. destruct (_ && _)%bool; [done|]. by intros [= <-]. Qed.

Lemma resolveSource_resolved b s es : steps (resolveSource r b) es (inr s) -> resolved b s es.
Proof.
  unfold resolveSource, backup_get. intros (es1 & es2 & x & -> & ->%steps_call & Hs)%steps_bind.
  destruct x as [e|server]; [by destruct Hs|]. case_bool_decide as Hu; cbn [negb] in Hs; [|by destruct Hs].
  destruct (_ && _)%bool eqn:Hg; [by destruct Hs|]. cbv zeta in Hs.
  destruct (catalog_Get _ _) as [d|] eqn:Hd; [|by destruct Hs].
  destruct (negb (ColdBackup _)) eqn:Hc; [by destruct Hs|]. apply negb_false_iff in Hc.
  destruct (Build _ _ _) as [|p] eqn:Hb; [by destruct Hs|]. destruct (SettingsDigest _ _) as [digest|]; [|by destruct Hs].
  apply steps_bind in Hs as (es3 & es4 & x & -> & Hp & [-> Hs]). destruct x as [paths|]; [|done].
  symmetry in Hs. pose proof (source_snapshot_inv _ _ _ _ _ _ _ Hs) as ->. cbn [rv_server rv_definition rv_plan rv_source].
  apply source_paths_resolved in Hp as (new & -> & HF). rewrite app_nil_l in *. rewrite app_nil_r.
  unfold resolved. cbn [rv_server rv_definition rv_plan rv_source]. split_and!; try done.
  - split; [by left | done].
  - intros Hf. rewrite Hf in Hg. cbn in Hg. by apply negb_false_iff in Hg.
  - exists new, digest. split; [|done]. eapply Forall2_impl; [|exact HF]. intros c q (a & ? & ?). exists a.
    split; [by right | done].
Qed.

Lemma acquireLease_held b identity name es : steps (acquireLease r b identity name) es None -> fence_held b identity name es.
Proof.
  unfold acquireLease, backup_get, backup_now. intros (es1 & es2 & x & -> & ->%steps_call & Hs)%steps_bind.
  destruct x as [[|m]|lease]; [|by destruct Hs|].
  - apply steps_bind in Hs as (es3 & es4 & t & -> & ->%steps_call & Hs).
    apply steps_bind in Hs as (es5 & es6 & x & -> & ->%steps_call & [-> Hs]).
    destruct x as [e|l]; [by destruct (IsAlreadyExists e)|]. right. exists t, l. set_solver.
  - destruct (_ || _)%bool eqn:E; [by destruct Hs|]. destruct Hs as [-> _].
    apply orb_false_iff in E as [Hi%negb_false_iff Hh%negb_false_iff]. apply bool_decide_eq_true in Hi.
    left. exists lease. split; [by left | done].
Qed.

Lemma own_lease_own b l m f lease es : steps (own_lease r b l m f) es (inr lease) -> own_fence b lease es.
Proof.
  unfold own_lease, backup_list. intros (es1 & es2 & x & -> & ->%steps_call & [-> Hs])%steps_bind.
  destruct x as [e|l']; [done|]. destruct (Items l') as [|a [|]] eqn:El; try done.
  destruct (holds_backup_fence _ _ _) eqn:Hh; [|done]. injection Hs as ->. exists l'. split; [by left|].
  rewrite El. split; [by left | done].
Qed.

(** ** Every part of a pass writes only what the machine allows *)

Local Abbreviation ok b acc p := (writes_ok (backup_write b) acc p).

Lemma ok_after_reads {A B} b acc (p : prog A) (f : A -> prog B) :
  reads_only p -> (forall es a, steps p es a -> ok b (acc ++ es) (f a)) -> ok b acc (p ≫= f).
Proof. intros Hp Hf. apply writes_bind; [by apply writes_reads | done]. Qed.

(** *** Status writes *)

Local Abbreviation moved b phase := (set_ds_Phase (gb_Status b) (gb_Generation b) phase).

(** Only the phase, the attempts and the conditions change. *)
Definition plain (b : GameBackup) (phase : DataOperationPhase) (s' : DataOperationStatus) : Prop :=
  ds_Phase s' = phase /\ ds_ObservedGeneration s' = gb_Generation b /\ ds_Source s' = ds_Source (gb_Status b) /\
  ds_Fence s' = ds_Fence (gb_Status b) /\ ds_Artifact s' = ds_Artifact (gb_Status b) /\
  ds_Runtime s' = ds_Runtime (gb_Status b).

Lemma changes_plain b phase s' es : plain b phase s' -> terminal phase = false -> changes b phase s' es.
Proof.
  intros (Hp & Hg & Hs & Hf & Ha & Hr) Ht.
  split_and!; [done..|by left|by left|by left|left; split; [by rewrite Hp | done]].
Qed.

Lemma changes_canonical b phase s' es :
  changes b phase s' es -> changes b phase (canonicalizeBackupConditions s') es.
Proof. intros Hc. exact Hc. Qed.

Lemma reads_with_condition b ct st re m s : reads_only (with_condition b ct st re m s).
Proof. unfold with_condition, backup_now. reads_tac. Qed.
Lemma with_condition_plain b phase ct st re m s es s' :
  steps (with_condition b ct st re m s) es s' -> plain b phase s -> plain b phase s'.
Proof.
  unfold with_condition, backup_now. intros (es1 & es2 & t & -> & _ & [_ ->])%steps_bind Hp. exact Hp.
Qed.
Lemma plain_moved b phase : plain b phase (moved b phase).
Proof. by split_and!. Qed.

Lemma ok_writeStatus b acc phase mutate : reads_only (mutate (moved b phase)) ->
  (forall es s', steps (mutate (moved b phase)) es s' -> changes b phase s' (acc ++ es)) ->
  ok b acc (writeStatus b phase mutate).
Proof.
  intros Hr Hc. unfold writeStatus. apply ok_after_reads; [done|]. intros es s' Hs. specialize (Hc es s' Hs).
  destruct (ValidateTransition _ _ _ _) as [[]|] eqn:Ht; [|apply writes_ret].
  destruct (ValidateBackupStatus _) as [[]|] eqn:Hv; [|apply writes_ret].
  case_bool_decide; [apply writes_ret|]. apply writes_last. intros x.
  pose proof (proj1 (proj1 Hc)) as Hp. apply BWStatus.
  - cbn [ds_Phase canonicalizeBackupConditions set_ds_Conditions]. rewrite Hp. by apply changes_canonical.
  - split; [|done]. cbn [ds_Phase canonicalizeBackupConditions set_ds_Conditions]. rewrite Hp.
    rewrite <- Ht. reflexivity.
Qed.

Lemma ok_write_then {B} b acc phase mutate (f : option cerror -> B) : reads_only (mutate (moved b phase)) ->
  (forall es s', steps (mutate (moved b phase)) es s' -> changes b phase s' (acc ++ es)) ->
  ok b acc (e ← writeStatus b phase mutate; Ret (f e)).
Proof. intros Hr Hc. apply writes_bind; [by apply ok_writeStatus | intros; apply writes_ret]. Qed.

(** A write that sets one condition on a plain change of the status. *)
Lemma ok_plain_write {B} b acc phase ct st re m g (f : option cerror -> B) : terminal phase = false ->
  (forall s, plain b phase s -> plain b phase (g s)) ->
  ok b acc (e ← writeStatus b phase (fun s => with_condition b ct st re m (g s)); Ret (f e)).
Proof.
  intros Ht Hg. apply ok_write_then; [apply reads_with_condition|]. intros es s' Hs. apply changes_plain; [|done].
  eapply with_condition_plain; [exact Hs|]. apply Hg, plain_moved.
Qed.

(** The operation is not over. *)
Definition live (b : GameBackup) : Prop := backup_terminal b = false.
Lemma live_phase b : live b -> terminal (ds_Phase (gb_Status b)) = false.
Proof. unfold live, backup_terminal, terminal. intros E. rewrite !orb_false_iff in *. tauto. Qed.

Lemma ok_hold b acc reason message : live b -> ok b acc (hold b reason message).
Proof. intros Hl. apply (ok_plain_write _ _ _ _ _ _ _ (fun s => s)); [by apply live_phase | done]. Qed.
Lemma ok_reportBlocked b acc reason message : live b -> ok b acc (reportBlocked b reason message).
Proof.
  intros Hl. unfold reportBlocked. destruct (_ || _ || _)%bool; [by apply ok_hold|].
  by apply (ok_plain_write _ _ _ _ _ _ _ (fun s => s)).
Qed.
Lemma ok_retrying b acc message : ok b acc (retrying b message).
Proof. by apply (ok_plain_write _ _ _ _ _ _ _ (fun s => s)). Qed.
Lemma ok_next_attempt b acc message : ok b acc (next_attempt b message).
Proof. by apply (ok_plain_write _ _ _ _ _ _ _ (fun s => set_ds_Attempts s (int32 (ds_Attempts s + 1)))). Qed.

(** The work is under way: a failure may still be recorded. *)
Definition at_work (b : GameBackup) : Prop :=
  live b /\ ds_Phase (gb_Status b) <> DataPhaseVerifying /\ dor_CancelRequested (gbs_Request (gb_Spec b)) = false.

Lemma ok_markFailure b acc reason message : at_work b -> ok b acc (markFailure b reason message).
Proof.
  intros (Hl & Hp & Hc). apply ok_write_then; [apply reads_with_condition|]. intros es s' Hs.
  unfold with_condition, backup_now in Hs. apply steps_bind in Hs as (es1 & es2 & t & -> & _ & [_ ->]).
  split_and!; [done|done|by left|by left| |by left].
  right. right. done.
Qed.

(** *** The worker *)

Lemma ok_deleteWorkerAndWait b acc : ok b acc (deleteWorkerAndWait r b).
Proof.
  unfold deleteWorkerAndWait, backup_get, backup_list. apply writes_get; [done|]. intros [[|m]|job].
  - apply writes_get; [done|]. intros; apply writes_ret.
  - apply writes_ret.
  - destruct (negb _) eqn:E; [apply writes_ret|]. apply negb_false_iff in E. apply writes_last. intros x.
    apply BWDeleteJob; [|done]. unfold read_object. in_trace.
Qed.
Lemma ok_unless_pending b acc p k : ok b acc p ->
  (forall es, steps p es (inr false) -> ok b (acc ++ es) k) -> ok b acc (unless_pending p k).
Proof.
  intros Hp Hk. unfold unless_pending. apply writes_bind; [done|]. intros es [e|[]] Hs; [apply writes_ret..|by apply Hk].
Qed.
Lemma ok_after_worker b acc k : (forall es, worker_absent b es -> ok b (acc ++ es) k) ->
  ok b acc (unless_pending (deleteWorkerAndWait r b) k).
Proof.
  intros Hk. apply ok_unless_pending; [apply ok_deleteWorkerAndWait|]. intros es Hs. apply Hk.
  by apply deleteWorkerAndWait_absent.
Qed.
Lemma ok_abortActive b acc reason message : at_work b -> ok b acc (abortActive r b reason message).
Proof.
  intros Hw. unfold abortActive. apply writes_bind; [apply ok_deleteWorkerAndWait|].
  intros es [e|[]] _; [apply writes_ret..|by apply ok_markFailure].
Qed.

(** *** The Lease *)

Lemma reads_own_lease b l m f : reads_only (own_lease r b l m f).
Proof. unfold own_lease, backup_list. reads_tac. Qed.
Lemma ok_clearWorkerExecution b acc : worker_absent b acc -> ok b acc (clearWorkerExecution r b).
Proof.
  intros Hw. unfold clearWorkerExecution. apply ok_after_reads; [apply reads_own_lease|].
  intros es [e|lease] Hl; [apply writes_ret|]. apply own_lease_own in Hl. case_bool_decide; [apply writes_ret|].
  unfold update_lease. apply writes_last. intros x. apply BWClearWorker; [grow Hl | grow Hw].
Qed.
Lemma ok_releaseLeases b acc : backup_terminal b = true \/ (deleting (gb_meta b) = true /\ worker_absent b acc) ->
  ok b acc (releaseLeases r b).
Proof.
  intros Ht. unfold releaseLeases, backup_list. apply writes_get; [done|]. intros [e|l]; [apply writes_ret|].
  apply writes_loop. intros lease acc' Hin Hsub. destruct (negb _) eqn:E; [apply writes_ret|]. apply negb_false_iff in E.
  apply writes_last. intros x. apply BWReleaseLease.
  - exists l. split; [|done]. unfold listed. apply Hsub. in_trace.
  - destruct Ht as [?|[? Hw]]; [by left|]. right. split; [done|]. eapply grows; [|exact Hw]. set_solver.
Qed.

Lemma ok_acquireLease b s acc : resolved b s acc -> live b ->
  ok b acc (acquireLease r b (plan_DataIdentity (rv_plan s)) (server_Name (rv_server s))).
Proof.
  intros Hr Hl. unfold acquireLease, backup_get, backup_now. apply writes_get; [done|]. intros [[|m]|lease]; try apply writes_ret.
  apply writes_get; [done|]. intros t. apply writes_last. intros x. eapply BWFence; [grow Hr | done |].
  unfold read_object. in_trace.
Qed.

(** *** Settling the runtime *)

Lemma wanted_runtime_running b fence phase generation :
  wanted_runtime b fence = (DesiredStateRunning, phase, generation) ->
  phase = PhaseReady /\ generation = int64 (gsr_Generation (fence_GameServer fence) + 1).
Proof. unfold wanted_runtime. by destruct (_ && _)%bool; intros [= <- <-]. Qed.

Lemma settleRuntime_settled b es runtime : steps (settleRuntime r b) es (inr (runtime, false)) ->
  (ds_Fence (gb_Status b) = None /\ runtime = None) \/
  exists fence t, (ds_Fence (gb_Status b) = Some fence /\ runtime = Some t) /\ settled b fence t es.
Proof.
  unfold settleRuntime, backup_get, backup_now. destruct (ds_Fence (gb_Status b)) as [fence|]; [|by intros [_ [= ->]]; left].
  intros (es1 & es2 & x & -> & ->%steps_call & Hs)%steps_bind. destruct x as [e|server]; [by destruct Hs|].
  case_bool_decide as Hu; cbn [negb] in Hs; [|by destruct Hs].
  destruct (wanted_runtime b fence) as [[state phase] generation] eqn:Ew.
  destruct (_ && _)%bool eqn:Hg in Hs.
  - apply andb_true_iff in Hg as [Hg Hst]. apply bool_decide_eq_true in Hg, Hst.
    destruct (_ || _)%bool eqn:Ho in Hs; [by destruct Hs|].
    apply orb_false_iff in Ho as [Ho%negb_false_iff Hp%negb_false_iff]. apply bool_decide_eq_true in Ho, Hp.
    apply steps_bind in Hs as (es3 & es4 & t & -> & ->%steps_call & [-> Hs]). injection Hs as ->.
    right. exists fence. eexists. split; [done|]. exists server, t. split; [by split; [left|]|]. rewrite Ew. by split_and!.
  - destruct (_ && _ && _)%bool in Hs; [|by destruct Hs]. apply steps_bind in Hs as (es3 & es4 & [e|] & -> & _ & Hs); [by destruct Hs|].
    apply steps_bind in Hs as (es5 & es6 & x & -> & _ & [_ Hs]). by destruct x.
Qed.

Lemma allowRuntimeSettlement_allowed b generation es :
  steps (allowRuntimeSettlement r b DesiredStateRunning generation) es None -> settlement_allowed b generation es.
Proof.
  unfold allowRuntimeSettlement. intros (es1 & es2 & x & -> & Hl & Hs)%steps_bind. destruct x as [e|lease]; [by destruct Hs|].
  apply own_lease_own in Hl. exists lease. destruct (_ && _)%bool eqn:E.
  - destruct Hs as [-> _]. apply andb_true_iff in E as [E1 E2]. apply bool_decide_eq_true in E1, E2.
    split; [grow Hl | by left].
  - unfold update_lease in Hs. apply steps_bind in Hs as (es3 & es4 & x & -> & ->%steps_call & [-> Hs]).
    destruct x; [done|]. split; [grow Hl|]. right. unfold with_lease_annotations, settlement_annotations. set_solver.
Qed.

Lemma ok_settle b b' acc : gb_meta b' = gb_meta b -> gb_Spec b' = gb_Spec b ->
  (forall fence, ds_Fence (gb_Status b') = Some fence -> settlement_fence b fence) -> worker_absent b acc ->
  ok b acc (settleRuntime r b').
Proof.
  intros Em Es Hf Hw. unfold settleRuntime. destruct (ds_Fence (gb_Status b')) as [fence|] eqn:Ef; [|apply writes_ret].
  specialize (Hf fence eq_refl). unfold backup_get, backup_now, gb_Namespace, backup_server. rewrite Em, Es.
  apply writes_get; [done|]. intros [e|server]; [apply writes_ret|].
  case_bool_decide as Hu; cbn [negb]; [|apply writes_ret].
  assert (wanted_runtime b' fence = wanted_runtime b fence) as -> by (unfold wanted_runtime; by rewrite Es).
  destruct (wanted_runtime b fence) as [[state phase] generation] eqn:Ew.
  destruct (_ && _)%bool; [destruct (_ || _)%bool; [apply writes_ret | apply writes_get; [done|]; intros; apply writes_ret]|].
  destruct (_ && _ && _)%bool eqn:Hg; [|apply writes_ret].
  rewrite !andb_true_iff, !bool_decide_eq_true in Hg. destruct Hg as [[-> Hgen] Hst].
  pose proof (wanted_runtime_running _ _ _ _ Ew) as [-> ->].
  assert (owes_restart b fence server) as Howe by done.
  set (ev := Ev _ (inr server)). assert (server_read b server (acc ++ [ev])) as Hread.
  { split; [|done]. unfold read_object, ev. in_trace. }
  clearbody ev.
  assert (forall gen, allowRuntimeSettlement r b' DesiredStateRunning gen = allowRuntimeSettlement r b DesiredStateRunning gen) as ->.
  { intros gen. destruct b, b'. cbn in Em, Es. by subst. }
  apply writes_bind.
  - unfold allowRuntimeSettlement. apply ok_after_reads; [apply reads_own_lease|]. intros es [e|lease] Hl; [apply writes_ret|].
    apply own_lease_own in Hl. destruct (_ && _)%bool; [apply writes_ret|]. unfold update_lease. apply writes_last. intros x.
    eapply BWAllow; [done | grow Hw | grow Hread | done | grow Hl].
  - intros es [e|] Ha; [apply writes_ret|]. apply allowRuntimeSettlement_allowed in Ha. apply writes_last. intros x.
    eapply BWRestart; [done | grow Hw | grow Hread | done | grow Ha].
Qed.

Lemma ok_settleRuntime b acc : worker_absent b acc -> ok b acc (settleRuntime r b).
Proof. intros Hw. apply ok_settle; try done. intros fence Hf. by left. Qed.
Lemma ok_settlePreFenceRuntime b acc : ds_Fence (gb_Status b) = None -> worker_absent b acc ->
  ok b acc (settlePreFenceRuntime r b).
Proof.
  intros Hn Hw. unfold settlePreFenceRuntime. destruct (_ || _)%bool eqn:E; [apply writes_ret|].
  apply orb_false_iff in E as [E1%negb_false_iff E2%negb_false_iff]. apply bool_decide_eq_true in E2.
  apply writes_get; [done|]. intros [e|server]; [apply writes_ret|].
  case_bool_decide; cbn [negb]; [|apply writes_ret]. destruct (_ && _)%bool; [apply writes_ret|]. cbv zeta.
  destruct (_ && _)%bool; [apply writes_ret|]. apply writes_bind; [|intros; apply writes_ret].
  apply ok_settle; try done; [|grow Hw]. intros fence [= <-]. right. split_and!; try done.
  by destruct (ds_Source (gb_Status b)).
Qed.
Lemma ok_settleDeletedRuntime b acc : worker_absent b acc -> ok b acc (settleDeletedRuntime r b).
Proof.
  intros Hw. unfold settleDeletedRuntime. destruct (backup_terminal b); [apply writes_ret|].
  destruct (isSome _) eqn:E.
  - apply writes_bind; [by apply ok_settleRuntime | intros; apply writes_ret].
  - apply ok_settlePreFenceRuntime; [by destruct (ds_Fence (gb_Status b)) | done].
Qed.

(** *** The ends of an operation *)

Lemma reads_finished b t st re m s : reads_only (finished b t st re m s).
Proof. unfold finished, backup_now. reads_tac. Qed.

(** The runtime a terminal status records. *)
Definition runtime_known (b : GameBackup) (runtime : option RuntimeDisposition) (es : list event) : Prop :=
  (ds_Fence (gb_Status b) = None /\ runtime = None) \/
  exists fence t, (ds_Fence (gb_Status b) = Some fence /\ runtime = Some t) /\ settled b fence t es.
#[local] Instance runtime_known_grows b t : Grows (runtime_known b t).
Proof. unfold runtime_known. grows_tac. Qed.

Lemma ok_finish b acc phase runtime st re m :
  (forall s' es, ds_Phase s' = phase -> ds_Runtime s' = runtime -> acc ⊆ es -> ended b s' es) ->
  ok b acc (write_and_requeue b phase (finished b runtime st re m)).
Proof.
  intros He. apply ok_write_then; [apply reads_finished|]. intros es s' Hs.
  unfold finished, backup_now in Hs. apply steps_bind in Hs as (es1 & es2 & t & -> & _ & [_ ->]).
  split_and!; [done|done|by left|by left|by left|]. right. apply He; [done..|in_trace].
Qed.

Lemma ended_runtime b s' runtime acc es : worker_absent b acc -> runtime_known b runtime acc -> acc ⊆ es ->
  ds_Runtime s' = runtime ->
  worker_absent b es /\
  ((ds_Fence (gb_Status b) = None /\ ds_Runtime s' = None) \/
   exists fence t, (ds_Fence (gb_Status b) = Some fence /\ ds_Runtime s' = Some t) /\ settled b fence t es).
Proof. intros Hw Hr Hs ->. split; [grow Hw|]. eapply runtime_known_grows in Hr; [|exact Hs]. exact Hr. Qed.

Lemma mark_claim_marked b source path es : steps (mark_claim r b source path) es None -> path_marked b source path es.
Proof.
  unfold mark_claim, backup_get. intros (es1 & es2 & x & -> & ->%steps_call & Hs)%steps_bind.
  destruct x as [e|claim]; [by destruct Hs|]. destruct (negb _) eqn:E; [by destruct Hs|]. apply negb_false_iff in E.
  exists claim. case_bool_decide as Hm.
  - destruct Hs as [-> _]. split_and!; [by left | done | by left].
  - apply steps_bind in Hs as (es3 & es4 & x & -> & ->%steps_call & [-> Hs]). destruct x; [done|].
    split_and!; [by left | done | right; set_solver].
Qed.
Lemma markLeaveStoppedBackup_marked b runtime es : steps (markLeaveStoppedBackup r b runtime) es None ->
  exists source, (ds_Source (gb_Status b) = Some source /\ src_Paths source <> []) /\
    forall path, path ∈ src_Paths source -> path_marked b source path es.
Proof.
  unfold markLeaveStoppedBackup. destruct (negb _); [by intros []|].
  destruct (ds_Source (gb_Status b)) as [source|]; [|by intros []].
  destruct (bool_decide _) eqn:E; [by intros []|]. intros Hs. exists source. split.
  - split; [done|]. intros E'. rewrite E' in E. done.
  - intros path Hin. destruct (loop_none_each _ _ _ Hs path Hin) as (es' & Hsub & Hs').
    apply mark_claim_marked in Hs'. grow Hs'.
Qed.
Lemma ok_markLeaveStoppedBackup b acc runtime : worker_absent b acc -> runtime_known b runtime acc ->
  ok b acc (markLeaveStoppedBackup r b runtime).
Proof.
  intros Hw Hr. unfold markLeaveStoppedBackup. destruct (ended_cold b runtime) eqn:Hc; cbn [negb]; [|apply writes_ret].
  destruct (ds_Source (gb_Status b)) as [source|] eqn:Hsrc; [|apply writes_ret].
  destruct (bool_decide _); [apply writes_ret|]. apply writes_loop. intros path acc' Hin Hsub.
  unfold mark_claim, backup_get. apply writes_get; [done|]. intros [e|claim]; [apply writes_ret|].
  destruct (negb _) eqn:E; [apply writes_ret|]. apply negb_false_iff in E.
  case_bool_decide; [apply writes_ret|]. apply writes_last. intros x.
  destruct Hr as [[_ ->]|(fence & t & [Hf ->] & Hst)].
  { unfold ended_cold in Hc. destruct (ds_Fence (gb_Status b)); by rewrite !andb_false_r in Hc. }
  eapply BWMark; try done.
  - eapply grows; [|exact Hw]. set_solver.
  - eapply grows; [|exact Hst]. set_solver.
  - unfold read_object. in_trace.
Qed.

(** *** Verifying, cancelling, deleting *)

Lemma ok_finishSuccess b acc : live b -> ds_Phase (gb_Status b) = DataPhaseVerifying ->
  ds_Artifact (gb_Status b) <> None -> worker_absent b acc -> ok b acc (finishSuccess r b).
Proof.
  intros Hl Hp Ha Hw. unfold finishSuccess. apply writes_bind; [by apply ok_settleRuntime|].
  intros es [e|[runtime []]] Hs; [by apply ok_hold | apply writes_ret|]. apply settleRuntime_settled in Hs.
  assert (worker_absent b (acc ++ es)) as Hw' by grow Hw.
  assert (runtime_known b runtime (acc ++ es)) as Hr by (eapply runtime_known_grows; [|exact Hs]; in_trace).
  apply writes_bind; [case_bool_decide; [by apply ok_markLeaveStoppedBackup | apply writes_ret]|].
  intros es' [e|] Hm; [by apply ok_hold|]. apply ok_finish. intros s' es2 Hp' Hrt Hsub.
  destruct (ended_runtime b s' runtime (acc ++ es) es2 Hw' Hr) as [? ?]; [set_solver | done |].
  split_and!; try done. right. right. split; [done|]. intros Hpol. rewrite bool_decide_eq_true_2 in Hm by done.
  apply markLeaveStoppedBackup_marked in Hm as (source & ? & Hm). exists source. split; [done|].
  intros path Hin. eapply grows; [|by apply Hm]. set_solver.
Qed.
Lemma ok_finishFailure b acc reason message : live b -> ds_Phase (gb_Status b) = DataPhaseVerifying ->
  ds_Artifact (gb_Status b) = None -> worker_absent b acc -> ok b acc (finishFailure r b reason message).
Proof.
  intros Hl Hp Ha Hw. unfold finishFailure. apply writes_bind; [by apply ok_settleRuntime|].
  intros es [e|[runtime []]] Hs; [by apply ok_hold | apply writes_ret|]. apply settleRuntime_settled in Hs.
  apply ok_finish. intros s' es2 Hp' Hrt Hsub.
  destruct (ended_runtime b s' runtime (acc ++ es) es2) as [? ?]; [grow Hw | | done..|].
  { eapply runtime_known_grows; [|exact Hs]. in_trace. }
  split_and!; try done. right. left. done.
Qed.

Lemma ok_finish_verifying b acc : live b -> ds_Phase (gb_Status b) = DataPhaseVerifying ->
  ok b acc (finish_verifying r b).
Proof.
  intros Hl Hp. unfold finish_verifying. apply ok_after_worker. intros es Hw.
  assert (worker_absent b (acc ++ es)) by grow Hw.
  destruct (ds_Artifact (gb_Status b)) eqn:Ha; cbn [isSome].
  - apply ok_finishSuccess; [done..|by rewrite Ha | done].
  - destruct (pendingBackupFailure b). by apply ok_finishFailure.
Qed.

Lemma ok_cancel b acc : live b -> ok b acc (cancel r b).
Proof.
  intros Hl. unfold cancel. case_bool_decide as Hp; cbn [negb];
    [|by apply (ok_plain_write _ _ _ _ _ _ _ (fun s => s))].
  apply ok_after_worker. intros es Hw. assert (worker_absent b (acc ++ es)) as Hw' by grow Hw.
  assert (forall es' runtime, runtime_known b runtime es' ->
    ok b ((acc ++ es) ++ es') (write_and_requeue b DataPhaseCancelled
      (finished b runtime ConditionFalse ReasonOperationCancelled
         "the worker is absent and the requested runtime disposition is settled"))) as Hend.
  { intros es' runtime Hr. apply ok_finish. intros s' es2 Hp' Hrt Hsub.
    destruct (ended_runtime b s' runtime ((acc ++ es) ++ es') es2) as [? ?]; [grow Hw' | | done..|].
    { eapply runtime_known_grows; [|exact Hr]. in_trace. }
    split_and!; try done. by left. }
  destruct (ds_Fence (gb_Status b)) as [fence|] eqn:Hf; cbn [isSome].
  - apply writes_bind; [by apply ok_settleRuntime|].
    intros es' [e|[runtime []]] Hs; [by apply ok_hold | apply writes_ret|]. apply settleRuntime_settled in Hs. by apply Hend.
  - apply writes_bind.
    + apply writes_bind; [by apply ok_settlePreFenceRuntime | intros; apply writes_ret].
    + intros es' x (es1 & es2 & p & -> & _ & [-> Hs])%steps_bind. destruct p as [e|pending]; subst x; [by apply ok_hold|].
      destruct pending; [apply writes_ret|]. apply Hend. by left.
Qed.

Lemma ok_finalize b acc : deleting (gb_meta b) = true -> ok b acc (finalize r b).
Proof.
  intros Hd. unfold finalize. destruct (negb _); [apply writes_ret|]. apply ok_after_worker. intros es Hw.
  assert (worker_absent b (acc ++ es)) as Hw' by grow Hw.
  apply ok_unless_pending; [by apply ok_settleDeletedRuntime|]. intros es1 _. apply writes_bind.
  - apply ok_releaseLeases. right. split; [done | grow Hw'].
  - intros es2 [e|] _; [apply writes_ret|]. apply writes_last. intros x. apply BWUnprotect; [done | grow Hw'].
Qed.

(** *** Preparing *)

(** The phases in which the source is resolved. *)
Definition resolving (b : GameBackup) : Prop := at_work b /\ ds_Phase (gb_Status b) <> DataPhaseUnset.
Definition held (b : GameBackup) (s : resolved_source) (es : list event) : Prop :=
  resolved b s es /\ fence_held b (plan_DataIdentity (rv_plan s)) (server_Name (rv_server s)) es.
#[local] Instance held_grows b s : Grows (held b s).
Proof. unfold held. grows_tac. Qed.

Lemma with_condition_steps b ct st re m s es s' : steps (with_condition b ct st re m s) es s' ->
  exists c, s' = set_ds_Conditions s c.
Proof.
  unfold with_condition, backup_now. intros (es1 & es2 & t & -> & _ & [_ ->])%steps_bind.
  unfold setBackupCondition. eauto.
Qed.

Lemma ok_started b s acc : held b s acc -> ok b acc (write_and_return b DataPhasePreparing (started b (rv_source s))).
Proof.
  intros Hh. apply ok_write_then.
  { unfold started, with_condition, backup_now. reads_tac. }
  intros es s' (es1 & es2 & t & -> & _ & (c & ->)%with_condition_steps)%steps_bind.
  split_and!; [done|done| |by left|by left|by left].
  unfold source_change. cbn. destruct (ds_Source (gb_Status b)) as [src|] eqn:E; [by left|]. right. exists s.
  split; [done|]. change (held b s (acc ++ es1 ++ es2)). grow Hh.
Qed.

Lemma ok_establish b s acc : held b s acc -> ds_Source (gb_Status b) = Some (rv_source s) ->
  ds_Fence (gb_Status b) = None -> observed_stopped b (rv_server s) = true -> unmounted rd (gb_Namespace b) (src_Paths (rv_source s)) acc ->
  ok b acc (write_and_return b DataPhasePreparing (establish b)).
Proof.
  intros Hh Hs Hf Ho Hu. apply ok_write_then.
  { unfold establish, backup_now. reads_tac. }
  unfold establish, backup_now. intros es s' (es1 & es2 & t & -> & _ & [-> ->])%steps_bind.
  split_and!; [done|done|by left| |by left|by left].
  right. exists s, t. split; [by split_and!|]. destruct Hh as [Hr Hl]. split_and!; [grow Hr | grow Hl | grow Hu].
Qed.

Lemma ok_establish_fence b s acc : resolving b -> held b s acc -> ds_Source (gb_Status b) = Some (rv_source s) ->
  ds_Fence (gb_Status b) = None -> ok b acc (establish_fence r b (rv_server s) (rv_source s)).
Proof.
  intros [[Hl _] _] Hh Hs Hf. unfold establish_fence. destruct (_ && _)%bool eqn:Hrun.
  - apply andb_true_iff in Hrun as [Hw%bool_decide_eq_true Hst%bool_decide_eq_true].
    destruct Hh as [Hr Hlease]. apply writes_last. intros x. apply BWStop; try done.
    pose proof (proj2 (proj2 (proj2 (proj1 (proj2 Hr)))) Hf) as He. unfold exact_generation in He.
    rewrite Hst in He. rewrite orb_true_iff, !andb_true_iff, !bool_decide_eq_true in He. naive_solver.
  - destruct (observed_stopped b (rv_server s)) eqn:Ho; cbn [negb]; [|by apply ok_hold].
    apply ok_after_reads; [apply reads_sourceClaimsUnmounted|]. intros es [e|[]] Hu; [apply writes_ret| |by apply ok_hold].
    apply sourceClaimsUnmounted_unmounted in Hu. eapply ok_establish; try done; [grow Hh | grow Hu].
Qed.

(** *** Running *)

Section Worker.
Variables (b : GameBackup) (s : resolved_source) (artifactID : string) (resources : BackupResources).
Hypothesis (Hbuilt : built b s artifactID resources).

Lemma built_job_key : key_of (job_meta (bk_Job resources)) = Key (gb_Namespace b) (BackupResourceName (gb_UID b)).
Proof.
  destruct Hbuilt as [_ (_ & _ & _ & _ & _ & ->)%BuildBackupResources_inv]. done.
Qed.

Lemma ok_ensure_authority {A} acc (k : kind A) desired unchanged name :
  working b s acc -> (forall es x, working b s es -> backup_write b es (Ev (ApiCreate k desired) x)) ->
  ok b acc (ensure_authority r b k desired unchanged name).
Proof.
  intros Hw Hc. unfold ensure_authority. apply writes_get; [done|]. intros [[|m]|existing]; try apply writes_ret.
  apply writes_last. intros x. apply Hc. grow Hw.
Qed.
Lemma ok_reconcileBackupInput acc : working b s acc -> ok b acc (reconcileBackupInput r b (bk_Input resources)).
Proof.
  intros Hw. unfold reconcileBackupInput. apply writes_get; [done|]. intros [[|m]|existing]; try apply writes_ret.
  apply writes_last. intros x. eapply BWInput; [grow Hw | done].
Qed.
Lemma ok_reconcileBackupAuthority acc : working b s acc -> ok b acc (reconcileBackupAuthority r b resources).
Proof.
  intros Hw. unfold reconcileBackupAuthority.
  apply writes_bind_error; [apply ok_ensure_authority; [done|]; intros; by eapply BWServiceAccount|]. intros e1 c1 _.
  apply writes_bind_error; [apply ok_ensure_authority; [grow Hw|]; intros; by eapply BWRole|]. intros e2 c2 _.
  apply writes_bind_error; [apply ok_ensure_authority; [grow Hw|]; intros; by eapply BWRoleBinding|]. intros e3 c3 _.
  apply writes_ret.
Qed.
Lemma ok_reconcileBackupJob acc : working b s acc -> ok b acc (reconcileBackupJob r b (bk_Job resources)).
Proof.
  intros Hw. unfold reconcileBackupJob, backup_list. rewrite built_job_key. apply writes_get; [done|].
  intros [[|m]|existing]; [|apply writes_ret..]. apply writes_get; [done|]. intros [e|l]; [apply writes_ret|].
  case_bool_decide as Hn; cbn [negb]; [|apply writes_ret].
  assert (Items l = []) as Hempty. { unfold len in Hn. destruct (Items l); [done | cbn in Hn; lia]. }
  match goal with |- ok _ ?acc' _ => assert (worker_absent b acc') as Ha end.
  { split; [unfold read_object; in_trace|]. exists l. split; [unfold listed; in_trace | done]. }
  apply writes_bind; [by apply ok_clearWorkerExecution|]. intros es [e|] _; [apply writes_ret|].
  apply writes_last. intros x. eapply BWJob; [grow Hw | done | grow Ha].
Qed.
Lemma reconcileBackupJob_read es job : steps (reconcileBackupJob r b (bk_Job resources)) es (inr (job, false)) ->
  job_read b s resources job es.
Proof.
  unfold reconcileBackupJob. rewrite built_job_key. intros (es1 & es2 & x & -> & ->%steps_call & Hs)%steps_bind.
  destruct x as [[|m]|existing]; [|by destruct Hs|].
  - apply steps_bind in Hs as (? & ? & [e|l] & _ & _ & Hs); [by destruct Hs|].
    destruct (negb _) in Hs; [by destruct Hs|]. apply steps_bind in Hs as (? & ? & [e|] & _ & _ & Hs); [by destruct Hs|].
    apply steps_bind in Hs as (? & ? & y & _ & _ & [_ Hs]). by destruct y.
  - destruct (job_unchanged _ _) eqn:E; [|by destruct Hs]. destruct Hs as [-> [= ->]]. split; [by left | done].
Qed.

(** The record of a completed worker. *)
Lemma ok_job_completed job acc : working b s acc -> job_read b s resources job acc -> at_work b ->
  jobComplete job = true -> ok b acc (job_completed r b job artifactID (rv_source s)).
Proof.
  intros Hw Hj Hat Hc. unfold job_completed, workerResult, backup_list. apply ok_after_reads; [reads_tac|].
  intros es result (es1 & es2 & x & -> & ->%steps_call & [-> Hs])%steps_bind.
  destruct result as [|m|result]; [apply writes_ret | by apply ok_markFailure|].
  destruct x as [e|l]; [done|]. symmetry in Hs.
  destruct (_ || _ || _)%bool eqn:E; [by apply ok_markFailure|].
  rewrite !orb_false_iff, !negb_false_iff, !bool_decide_eq_true in E. destruct E as [[Hid Hn] _].
  apply ok_write_then.
  { unfold record_artifact, with_condition, backup_now. reads_tac. }
  intros es' s' (es3 & es4 & s1 & -> & (c & ->)%with_condition_steps & (c' & ->)%with_condition_steps)%steps_bind.
  split_and!; [done|done|by left|by left| |by left]. right. left. exists (artifact_of b artifactID result).
  split; [done|]. exists s, artifactID, resources, job, result, l.
  split; [grow Hw|]. split; [done|]. split; [grow Hj|]. split; [unfold listed; in_trace | done].
Qed.

Lemma reads_sourceClaimMountState paths job : reads_only (sourceClaimMountState r b paths job).
Proof. unfold sourceClaimMountState. reads_tac. Qed.

Lemma ok_authorize job acc : working b s acc -> job_read b s resources job acc ->
  job_Suspend (job_Spec job) = Some false -> ok b acc (authorizeBackupWorkerPod r b job).
Proof.
  intros Hw Hj Hs. unfold authorizeBackupWorkerPod, backup_list. apply writes_get; [done|].
  intros [e|[[|pod [|? ?]] c n]]; try apply writes_ret.
  destruct (backupPodIdentityMatches job pod) eqn:Hid; cbn [negb]; [|apply writes_ret].
  case_bool_decide as Hu; cbn [negb]; [|apply writes_ret].
  destruct (_ || _)%bool eqn:E; [apply writes_ret|].
  apply orb_false_iff in E as [E1%negb_false_iff E2%negb_false_iff]. apply writes_last. intros x.
  eapply BWAuthorize; [grow Hw | done | grow Hj | unfold listed; in_trace | done..].
Qed.

Lemma ok_supervise job acc : working b s acc -> job_read b s resources job acc -> at_work b ->
  job_Suspend (job_Spec job) = Some false -> ok b acc (supervise r b job artifactID (rv_source s)).
Proof.
  intros Hw Hj Hat Hsus. unfold supervise. destruct (jobFailed job).
  - unfold job_failed, workerFailureReason, backup_list. apply ok_after_reads; [reads_tac|].
    intros es [reason message] _. destruct (_ && _)%bool; [apply ok_retrying | by apply ok_markFailure].
  - apply writes_bind; [by apply ok_authorize|]. intros es [e|[]] _; try apply writes_ret;
      [|apply ok_retrying | by apply ok_abortActive].
    apply ok_after_reads; [apply reads_sourceClaimMountState|].
    intros es' [e|[]] _; try apply writes_ret; [..|apply ok_retrying | by apply ok_abortActive];
      (destruct (jobComplete job) eqn:Hc; [apply ok_job_completed; try done; [grow Hw | grow Hj] | apply writes_ret]).
Qed.

Lemma ok_drive_job job acc : working b s acc -> job_read b s resources job acc -> at_work b ->
  ok b acc (drive_job r b job artifactID (rv_source s)).
Proof.
  intros Hw Hj Hat. unfold drive_job. case_bool_decide as Hs; cbn [negb].
  - case_bool_decide; [apply ok_next_attempt|]. case_bool_decide; [by apply ok_supervise | apply writes_ret].
  - apply writes_last. intros x. by eapply BWActivate.
Qed.
End Worker.

Lemma ok_ensure_worker b s acc : working b s acc -> resolving b -> ok b acc (ensure_worker r b s (rv_source s)).
Proof.
  intros Hw [Hat _]. unfold ensure_worker. destruct (ArtifactID (gb_UID b)) as [artifactID|] eqn:Ea; [|apply writes_ret].
  destruct (BuildBackupResources _ _ _ _ _ _) as [resources|] eqn:Eb; [|apply writes_ret].
  assert (built b s artifactID resources) as Hb by done.
  apply writes_bind; [by eapply ok_reconcileBackupInput|]. intros e1 [e|] _; [apply writes_ret|].
  apply writes_bind; [eapply ok_reconcileBackupAuthority; [done | grow Hw]|]. intros e2 [e|changed] _; [apply writes_ret|].
  apply writes_bind; [eapply ok_reconcileBackupJob; [done | grow Hw]|]. intros e3 [e|[job created]] Hj.
  - destruct (errors_Is _ _); [apply ok_hold, Hat | apply writes_ret].
  - destruct (changed || created)%bool eqn:E; [apply writes_ret|]. apply orb_false_iff in E as [_ ->].
    eapply reconcileBackupJob_read in Hj; [|done]. eapply ok_drive_job; [done | grow Hw | grow Hj | done].
Qed.

Lemma ok_retry b acc : at_work b -> ok b acc (retry r b).
Proof.
  intros Hat. unfold retry. apply ok_after_worker. intros es Hw. assert (worker_absent b (acc ++ es)) by grow Hw.
  destruct (_ <=? _)%Z; [by apply ok_markFailure|]. apply writes_bind; [by apply ok_clearWorkerExecution|].
  intros es' [e|] _; [apply writes_ret | apply ok_next_attempt].
Qed.

Lemma ok_with_source b s acc : resolving b -> held b s acc -> ok b acc (with_source r b s).
Proof.
  intros Hr Hh. pose proof Hr as [Hat Hu]. unfold with_source. destruct (_ || _)%bool eqn:Hp; [by apply ok_started|].
  apply orb_false_iff in Hp as [Hp1%bool_decide_eq_false Hp2%bool_decide_eq_false].
  case_bool_decide as Hs; cbn [negb]; [|by apply ok_abortActive].
  destruct (ds_Fence (gb_Status b)) as [fence|] eqn:Hf; [|by apply ok_establish_fence].
  destruct (_ || _)%bool eqn:Hg; [by apply ok_abortActive|].
  apply orb_false_iff in Hg as [Hg1%negb_false_iff Hg2%negb_false_iff]. apply bool_decide_eq_true in Hg1, Hg2.
  destruct (_ && _)%bool; [by apply ok_retry|]. apply ok_ensure_worker; [|done].
  destruct Hat as (? & ? & ?). split; [done|]. split; [by split_and!|]. split; [done|]. by exists fence.
Qed.

Lemma reads_resolveSource b : reads_only (resolveSource r b).
Proof.
  unfold resolveSource, backup_get, reads_only. emits_tac.
  match goal with |- emits _ (source_paths _ _ ?l _) => generalize (@nil DataPathIdentity); induction l end;
    intros paths; cbn [source_paths]; emits_tac.
Qed.

Lemma ok_work b acc : resolving b -> ok b acc (work r b).
Proof.
  intros Hr. pose proof Hr as [Hat _]. pose proof Hat as [Hl _].
  unfold work. apply ok_after_reads; [apply reads_resolveSource|]. intros es [[reason message]|s] Hs.
  - destruct (isSome _); [by apply ok_abortActive | by apply ok_reportBlocked].
  - apply resolveSource_resolved in Hs. assert (resolved b s (acc ++ es)) as Hs' by grow Hs.
    apply writes_bind; [by apply ok_acquireLease|]. intros es' [e|] Hh.
    + destruct (errors_Is _ _); [by apply ok_reportBlocked | apply writes_ret].
    + apply acquireLease_held in Hh. apply ok_with_source; [done|]. split; [grow Hs' | grow Hh].
Qed.

Lemma ok_reconcile_backup b acc : ok b acc (reconcile_backup r b).
Proof.
  unfold reconcile_backup. destruct (deleting (gb_meta b)) eqn:Hd; [by apply ok_finalize|].
  destruct (negb _); [apply writes_last; intros x; by apply BWProtect|].
  destruct (backup_terminal b) eqn:Ht.
  { apply writes_bind; [by apply ok_releaseLeases; left | intros; apply writes_ret]. }
  destruct (dor_CancelRequested _) eqn:Hc; [by apply ok_cancel|].
  case_bool_decide as Hu; [by apply (ok_plain_write _ _ _ _ _ _ _ (fun s => s))|].
  case_bool_decide as Hv; [by apply ok_finish_verifying|]. by apply ok_work.
Qed.

(** Every write of a pass, with the backup it read. *)
Lemma backup_writes req es o pre e post : steps (Backup_Reconcile r req) es o -> es = pre ++ e :: post ->
  is_write e = true ->
  exists b pre', pre = Ev (ApiGet KGameBackup CachedReader req) (inr b) :: pre' /\ backup_write b pre' e.
Proof.
  unfold Backup_Reconcile. intros (es1 & es2 & x & -> & ->%steps_call & Hs)%steps_bind E Hw.
  destruct pre as [|e' pre]; [injection E as <- _; done|]. injection E as <- E.
  destruct x as [[|m]|b]; [by destruct Hs as [-> _]; destruct pre..|].
  exists b, pre. split; [done|]. by apply (ok_reconcile_backup b [] es2 o Hs pre e post).
Qed.

(** ** The theorems *)

(** C3: every write of every pass of the backup controller, whatever the API
    server answers and whichever calls fail, is one that [backup_write] allows
    for the backup it read and for what it read before the write. *)
Theorem Backup_Reconcile_refines req es o pre e post
  (Hs : steps (Backup_Reconcile r req) es o) (He : es = pre ++ e :: post) (Hw : is_write e = true) :
  exists b pre', pre = Ev (ApiGet KGameBackup CachedReader req) (inr b) :: pre' /\ backup_write b pre' e.
Proof. by eapply backup_writes. Qed.

(** C5: a backup never changes the world it saves.  It creates, expands and
    deletes no claim and no volume; the one write it makes to a claim adds the
    marker that the claim stayed cold, to a source claim of exactly the
    recorded identity, in a pass of a verified backup that is to leave its
    server stopped, after the worker was observed gone and the server was
    observed stopped at the fenced generation. *)
Theorem Backup_keeps_data req es o pre e post
  (Hs : steps (Backup_Reconcile r req) es o) (He : es = pre ++ e :: post) (Hc : claim_touched e = true) :
  exists b pre' source path claim x fence runtime,
    pre = Ev (ApiGet KGameBackup CachedReader req) (inr b) :: pre' /\
    e = Ev (ApiMergePatch KPersistentVolumeClaim claim (marked b claim)) x /\
    ds_Source (gb_Status b) = Some source /\ path ∈ src_Paths source /\
    om_UID (pvc_meta claim) = claimUID path /\ verified_result (gb_Status b) = true /\
    dor_RestartPolicy (gbs_Request (gb_Spec b)) = RestartLeaveStopped /\
    worker_absent b pre' /\ ds_Fence (gb_Status b) = Some fence /\ settled b fence runtime pre' /\
    rt_Phase runtime = PhaseStopped.
Proof.
  assert (is_write e = true) as Hw by (destruct e as [? []]; done).
  destruct (backup_writes _ _ _ _ _ _ Hs He Hw) as (b & pre' & -> & Hwrite).
  destruct Hwrite as [| | | | | | | | | | | | | | | |
    |fence runtime source path claim x Hwa Hf Hst Hcold Hsrc Hin Hrd Hex]; try discriminate Hc.
  exists b, pre', source, path, claim, x, fence, runtime. unfold exact_source_claim in Hex. unfold ended_cold in Hcold.
  rewrite !andb_true_iff, !bool_decide_eq_true in Hex. destruct_and!.
  rewrite Hf in Hcold. rewrite !andb_true_iff, !bool_decide_eq_true in Hcold. destruct_and!. by split_and!.
Qed.

Lemma backup_status_write req es o pre e post u : steps (Backup_Reconcile r req) es o -> es = pre ++ e :: post ->
  backup_status e = Some u ->
  exists b pre', pre = Ev (ApiGet KGameBackup CachedReader req) (inr b) :: pre' /\
    u = with_backup_status b (gb_Status u) /\ changes b (ds_Phase (gb_Status u)) (gb_Status u) pre' /\
    accepted b (gb_Status u).
Proof.
  intros Hs He Hu. assert (is_write e = true) as Hw by (destruct e as [? []]; done).
  destruct (backup_writes _ _ _ _ _ _ Hs He Hw) as (b & pre' & -> & Hwrite). exists b, pre'.
  destruct Hwrite as [s' x Hc Ha| | | | | | | | | | | | | | | | |]; try done. by injection Hu as <-.
Qed.

(** C6: a fence is recorded only over a cold world.  When a pass records the
    fence, it holds the data-operation Lease, it resolved exactly the recorded
    source, it read the server stopped, and observed stopped, at the requested
    generation or the one the operation itself stopped, no Pod of the
    namespace mounts a source claim, and no volume behind a source claim of
    the recorded UID is attached to a node. *)
Theorem Backup_fence_cold req es o pre e post u f
  (Hs : steps (Backup_Reconcile r req) es o) (He : es = pre ++ e :: post) (Hu : backup_status e = Some u)
  (Hf : ds_Fence (gb_Status u) = Some f) :
  exists b pre', pre = Ev (ApiGet KGameBackup CachedReader req) (inr b) :: pre' /\
    (ds_Fence (gb_Status b) = Some f \/
     exists s, resolved b s pre' /\ fence_held b (plan_DataIdentity (rv_plan s)) (server_Name (rv_server s)) pre' /\
       ds_Source (gb_Status b) = Some (rv_source s) /\
       gs_Generation (rv_server s) = gsr_Generation (fence_GameServer f) /\
       gsr_Generation (fence_GameServer f) = fenced_generation b /\
       gs_DesiredState (gs_Spec (rv_server s)) = DesiredStateStopped /\
       gss_ObservedGeneration (gs_Status (rv_server s)) = gs_Generation (rv_server s) /\
       gss_Phase (gs_Status (rv_server s)) = PhaseStopped /\
       unmounted rd (gb_Namespace b) (src_Paths (rv_source s)) pre').
Proof.
  destruct (backup_status_write _ _ _ _ _ _ _ Hs He Hu) as (b & pre' & -> & _ & (_ & _ & Hc & _) & _).
  exists b, pre'. split; [done|]. destruct Hc as [Hc|(s & t & (_ & Hsrc & Hc & Ho) & Hr & Hh & Hm)].
  - left. by rewrite <- Hc.
  - right. exists s. rewrite Hf in Hc. injection Hc as ->. unfold observed_stopped in Ho.
    rewrite !andb_true_iff, !bool_decide_eq_true in Ho. cbn. split_and!; try done; destruct_and!; congruence.
Qed.

Lemma jobComplete_spec job : jobComplete job = true ->
  exists condition, condition ∈ job_Conditions job /\ jc_Type condition = "Complete" /\
    jc_Status condition = ConditionTrue.
Proof.
  intros (c & Hc & E)%existsb_exists. exists c. rewrite andb_true_iff, !bool_decide_eq_true in E.
  split; [by apply list_elem_of_In | done].
Qed.
Lemma job_unchanged_meta b s resources job es : job_read b s resources job es ->
  om_OwnerReferences (job_meta job) = om_OwnerReferences (job_meta (bk_Job resources)) /\
  om_Labels (job_meta job) = om_Labels (job_meta (bk_Job resources)) /\
  om_Annotations (job_meta job) = om_Annotations (job_meta (bk_Job resources)).
Proof. intros [_ E]. unfold job_unchanged in E. rewrite !andb_true_iff, !bool_decide_eq_true in E. tauto. Qed.

(** What the worker's Pods report comes from an authorized Pod of the Job. *)
Lemma worker_reports job pods message :
  head (omap success_message (concat (pod_ContainerStatuses <$> List.filter (worker_pod job) pods))) = Some message ->
  exists pod reference status, pod ∈ pods /\
    reference ∈ om_OwnerReferences (pod_meta pod) /\ own_Controller reference = Some true /\
    own_Kind reference = "Job" /\ own_Name reference = om_Name (job_meta job) /\
    own_UID reference = om_UID (job_meta job) /\
    om_UID (pod_meta pod) <> "" /\
    om_Annotations (pod_meta pod) !! AnnotationBackupPodAuthorized = Some (om_UID (pod_meta pod)) /\
    status ∈ pod_ContainerStatuses pod /\ cs_Name status = "backup-worker" /\
    cs_Terminated status = Some (0%Z, message).
Proof.
  intros Hm%head_Some_elem_of. apply list_elem_of_omap in Hm as (status & Hin & Hs).
  apply list_elem_of_In, in_concat in Hin as (statuses & Hl & Hin). apply list_elem_of_In, list_elem_of_fmap in Hl as (pod & -> & Hp).
  apply list_elem_of_In, filter_In in Hp as [Hp Hw]. unfold worker_pod in Hw. rewrite !andb_true_iff in Hw.
  destruct Hw as [[(reference & Hr & Hc & Hk & Hn & Hu)%controlledBy_job Hne] Hau].
  apply negb_true_iff, bool_decide_eq_false in Hne. apply bool_decide_eq_true in Hau.
  unfold success_message in Hs. destruct (cs_Terminated status) as [[code m]|] eqn:Ht; [|done].
  destruct (_ && _)%bool eqn:Hg in Hs; [|done]. injection Hs as ->.
  apply andb_true_iff in Hg as [Hcn%bool_decide_eq_true ->%bool_decide_eq_true].
  exists pod, reference, status. rewrite !list_elem_of_In. split_and!; try done; [by apply list_elem_of_In|].
  unfold authorized_uid, mget in Hau. destruct (_ !! _) as [x|] eqn:Hx in Hau; cbn in Hau; [by subst | congruence].
Qed.

(** C7: an artifact is recorded only as a worker attested it.  When a pass
    records an artifact, the operation's Job - the built one, with the built
    owner, labels and annotations - has the condition Complete, and in the list of the operation's Pods there is one with an
    owner reference that makes exactly this Job (kind, name and UID) its
    controller, with a UID of its own, which the authorization annotation
    repeats, and with a [backup-worker] container that terminated with code 0
    and the recorded report.  The report is the first such one of these Pods;
    it names exactly this artifact ID, the format version, one manifest per
    recorded path, and a verification not before the creation; all of it while
    the world was fenced and the server stopped at the fenced generation. *)
Theorem Backup_artifact_attested req es o pre e post u a
  (Hs : steps (Backup_Reconcile r req) es o) (He : es = pre ++ e :: post) (Hu : backup_status e = Some u)
  (Ha : ds_Artifact (gb_Status u) = Some a) :
  exists b pre', pre = Ev (ApiGet KGameBackup CachedReader req) (inr b) :: pre' /\
    (ds_Artifact (gb_Status b) = Some a \/
     exists s resources job pods message result,
       working b s pre' /\ built b s (art_ID a) resources /\ job_read b s resources job pre' /\ listed b KPod pods pre' /\
       om_OwnerReferences (job_meta job) = om_OwnerReferences (job_meta (bk_Job resources)) /\
       om_Labels (job_meta job) = om_Labels (job_meta (bk_Job resources)) /\
       om_Annotations (job_meta job) = om_Annotations (job_meta (bk_Job resources)) /\
       (exists condition, condition ∈ job_Conditions job /\ jc_Type condition = "Complete" /\
          jc_Status condition = ConditionTrue) /\
       head (omap success_message (concat (pod_ContainerStatuses <$> List.filter (worker_pod job) (Items pods)))) =
         Some message /\
       (exists pod reference status, pod ∈ Items pods /\
          reference ∈ om_OwnerReferences (pod_meta pod) /\ own_Controller reference = Some true /\
          own_Kind reference = "Job" /\ own_Name reference = om_Name (job_meta job) /\
          own_UID reference = om_UID (job_meta job) /\
          om_UID (pod_meta pod) <> "" /\
          om_Annotations (pod_meta pod) !! AnnotationBackupPodAuthorized = Some (om_UID (pod_meta pod)) /\
          status ∈ pod_ContainerStatuses pod /\ cs_Name status = "backup-worker" /\
          cs_Terminated status = Some (0%Z, message)) /\
       DecodeBackupResult message = Some result /\ bwr_Version result = BackupFormatVersion /\ a = artifact_of b (art_ID a) result /\
       bwr_ArtifactID result = art_ID a /\ ArtifactID (gb_UID b) = Ok (art_ID a) /\
       bwr_PathCount result = int32 (len (src_Paths (rv_source s))) /\
       (bwr_CreatedAt result <= bwr_VerifiedAt result)%Z).
Proof.
  destruct (backup_status_write _ _ _ _ _ _ _ Hs He Hu) as (b & pre' & -> & _ & (_ & _ & _ & Hc & _) & _).
  exists b, pre'. split; [done|]. destruct Hc as [Hc|[(a' & Ha' & Hatt)|[Hc _]]]; [left; by rewrite <- Hc| |congruence].
  right. rewrite Ha in Ha'. injection Ha' as <-.
  destruct Hatt as (s & artifactID & resources & job & result & pods & Hw & Hb & Hj & Hl & Hcomp & Hr & Hid & Hn & ->).
  unfold result_of in Hr. destruct (head _) as [message|] eqn:Hm in Hr; [|done]. unfold decode_result in Hr.
  destruct (DecodeBackupResult message) as [result'|] eqn:Hd; [|done]. destruct (_ || _)%bool eqn:Hg in Hr; [done|].
  injection Hr as ->. rewrite !orb_false_iff in Hg. destruct Hg as [[[[[Hver%negb_false_iff _] _] _] _] Hg%Z.ltb_ge].
  apply bool_decide_eq_true in Hver. exists s, resources, job, pods, message, result. cbn [artifact_of art_ID].
  apply job_unchanged_meta in Hj as Hmeta. destruct_and!.
  split_and!; try done; [by apply jobComplete_spec | by apply worker_reports | apply Hb].
Qed.

(** C4: a backup is reported Succeeded only when it is one.  The worker was
    observed gone; the recorded artifact is verified, has the operation's own
    ID and provenance and covers every recorded path; the fence is the exact
    stopped generation of the requested server; the runtime was observed, in
    this pass, in exactly the state, phase and generation the restart policy
    asks for; and when the server is to stay stopped, every source claim was
    found exact and carries the marker that it stayed cold. *)
Theorem Backup_success_sound req es o pre e post u
  (Hs : steps (Backup_Reconcile r req) es o) (He : es = pre ++ e :: post) (Hu : backup_status e = Some u)
  (Hp : ds_Phase (gb_Status u) = DataPhaseSucceeded) :
  exists b pre' source artifact fence fence' rt,
    pre = Ev (ApiGet KGameBackup CachedReader req) (inr b) :: pre' /\ u = with_backup_status b (gb_Status u) /\
    ds_Phase (gb_Status b) = DataPhaseVerifying /\ worker_absent b pre' /\
    ds_Source (gb_Status u) = Some source /\ ds_Artifact (gb_Status u) = Some artifact /\
    av_Result (art_Verification artifact) = VerificationVerified /\ ArtifactID (gb_UID b) = Ok (art_ID artifact) /\
    art_PathCount artifact = int32 (len (src_Paths source)) /\
    ds_Fence (gb_Status u) = Some fence /\ FenceExact (gbs_Source (gb_Spec b)) fence /\
    ds_Runtime (gb_Status u) = Some rt /\ ds_Fence (gb_Status b) = Some fence' /\ settled b fence' rt pre' /\
    RestartHonoured (dor_RestartPolicy (gbs_Request (gb_Spec b))) (gbs_Source (gb_Spec b)) fence rt /\
    dor_CancelRequested (gbs_Request (gb_Spec b)) = false /\
    (dor_RestartPolicy (gbs_Request (gb_Spec b)) = RestartLeaveStopped ->
     exists src, ds_Source (gb_Status b) = Some src /\ src_Paths src <> [] /\
       forall path, path ∈ src_Paths src -> path_marked b src path pre').
Proof.
  destruct (backup_status_write _ _ _ _ _ _ _ Hs He Hu) as (b & pre' & -> & Eu & (_ & _ & _ & _ & Hend) & [_ Hv]).
  rewrite <- Eu in Hv. destruct (ValidateBackupStatus_succeeded u Hv Hp)
    as (source & artifact & fence & rt & Hsrc & _ & Ha & Hver & _ & Hid & _ & _ & _ & Hn & Hf & Hfe & Hrt & Hh & Hc & _).
  destruct Hend as [[Ht _]|(Hw & Hr & Hph)]; [by rewrite Hp in Ht|].
  destruct Hr as [[_ Hr]|(fence' & rt' & [Hf' Hrt'] & Hset)]; [congruence|]. rewrite Hrt in Hrt'. injection Hrt' as <-.
  destruct Hph as [[Hph _]|[[Hph _]|[(_ & Hbp & _) Hm]]]; [congruence..|].
  exists b, pre', source, artifact, fence, fence', rt. rewrite Eu in Hid, Hfe, Hh, Hc. split_and!; try done.
  intros Hl. destruct (Hm Hl) as (src & [? ?] & ?). by exists src.
Qed.

Lemma backupPodIdentityMatches_exact job pod :
  backupPodIdentityMatches job pod = true -> exact_job_pod AnnotationBackupPodAuthorized job pod.
Proof.
  unfold backupPodIdentityMatches. destruct (_ || _)%bool eqn:E; [done|]. by apply exact_job_pod_intro.
Qed.

Lemma built_pod b s artifactID resources job es : built b s artifactID resources -> job_read b s resources job es ->
  job_Suspend (job_Spec job) = Some false ->
  pod_Volumes (job_TemplateSpec (job_Spec job)) = pod_Volumes (job_TemplateSpec (job_Spec (bk_Job resources))) /\
  Forall2 runs_same (pod_InitContainers (job_TemplateSpec (job_Spec (bk_Job resources))))
    (pod_InitContainers (job_TemplateSpec (job_Spec job))) /\
  Forall2 runs_same (pod_Containers (job_TemplateSpec (job_Spec (bk_Job resources))))
    (pod_Containers (job_TemplateSpec (job_Spec job))).
Proof.
  intros [_ (_ & _ & _ & _ & _ & Ej)%BuildBackupResources_inv] [_ Hu] Hsus. unfold job_unchanged in Hu.
  rewrite !andb_true_iff in Hu. destruct Hu as [_ Hm]. unfold expected_job in Hm. rewrite Hsus, Ej in Hm. cbn in Hm.
  apply stored_job_runs in Hm; [|done]. rewrite Ej. destruct Hm as (? & _ & _ & _ & _ & ? & ? & _). by split_and!.
Qed.

(** C8: no credential reaches a Pod that is not the worker.  A Pod is let past
    its scheduling gate only when the operation recorded its fence and its
    source, holds the data-operation Lease, resolved exactly that source and
    read the server stopped at the fenced generation; the Pod is the only one
    of the operation; the operation's Job, by name, is exactly the built one and
    released; the Pod is live, in the Job's namespace, has a UID and one owner
    only - that Job, by kind, name and UID, as its controller - and the labels
    and annotations of the Job's template; it was never authorized, never
    scheduled and started no container, mounts no claim but the recorded source
    claims, each of them read-only, and runs only images pinned by digest.  The
    write changes nothing but the gate and the annotation with the Pod's own
    UID. *)
Theorem Backup_worker_confined req es o pre e post p
  (Hs : steps (Backup_Reconcile r req) es o) (He : es = pre ++ e :: post) (Hp : pod_updated e = Some p) :
  exists b pre' s fence artifactID resources job reference pod n c,
    pre = Ev (ApiGet KGameBackup CachedReader req) (inr b) :: pre' /\ p = authorized pod /\
    listed b KPod (MkList [pod] c n) pre' /\
    built b s artifactID resources /\ job_read b s resources job pre' /\ job_Suspend (job_Spec job) = Some false /\
    om_UID (job_meta job) <> "" /\ om_UID (pod_meta pod) <> "" /\ deleting (pod_meta pod) = false /\
    om_Namespace (pod_meta pod) = om_Namespace (job_meta job) /\
    om_OwnerReferences (pod_meta pod) = [reference] /\ own_Controller reference = Some true /\
    own_Kind reference = "Job" /\ own_Name reference = om_Name (job_meta job) /\
    own_UID reference = om_UID (job_meta job) /\
    om_Labels (pod_meta pod) = job_TemplateLabels (job_Spec job) /\
    (forall k, k <> AnnotationBackupPodAuthorized -> k ∉ network_annotations ->
       om_Annotations (pod_meta pod) !! k = job_TemplateAnnotations (job_Spec job) !! k) /\
    authorized_uid pod = "" /\ pod_InitContainerStatuses pod = [] /\ pod_ContainerStatuses pod = [] /\
    resolved b s pre' /\
    fence_held b (plan_DataIdentity (rv_plan s)) (server_Name (rv_server s)) pre' /\
    ds_Source (gb_Status b) = Some (rv_source s) /\ ds_Fence (gb_Status b) = Some fence /\
    gs_Generation (rv_server s) = gsr_Generation (fence_GameServer fence) /\
    gs_DesiredState (gs_Spec (rv_server s)) = DesiredStateStopped /\
    pod_NodeName (pod_Spec pod) = "" /\ pod_SchedulingGates (pod_Spec pod) = [BackupSchedulingGate] /\
    (forall v name ro, v ∈ pod_Volumes (pod_Spec p) -> vol_Source v = VolumePersistentVolumeClaim name ro ->
       ro = true /\ name ∈ claimName <$> src_Paths (rv_source s)) /\
    (forall image, image ∈ con_Image <$> (pod_InitContainers (pod_Spec p) ++ pod_Containers (pod_Spec p)) ->
       MatchString pinnedWorkerImagePattern image = true).
Proof.
  assert (is_write e = true) as Hw by (destruct e as [? []]; done).
  destruct (backup_writes _ _ _ _ _ _ Hs He Hw) as (b & pre' & -> & Hwrite).
  destruct Hwrite as [| | | | | | | | | | | | | |
    |s artifactID resources job pod c n x Hwork Hb Hj Hl Hid Hspec Hun Hau Hsus| |]; try done.
  injection Hp as <-. destruct Hwork as [[Hr Hh] [_ [Hsrc (fence & Hf & Hg & Hst)]]].
  unfold backupPodSpecMatches in Hspec. unfold pod_unstarted in Hun.
  rewrite !andb_true_iff, !bool_decide_eq_true in Hun. destruct Hun as [[[Hnode _] Hini] Hrun].
  apply backupPodIdentityMatches_exact in Hid as (Hju & Hpu & Hns & Hdel & (reference & Hown & ? & ? & ? & ?) & Hlab & Hann).
  exists b, pre', s, fence, artifactID, resources, job, reference, pod, n, c.
  apply andb_true_iff in Hspec as [Hgate%bool_decide_eq_true Hnorm%bool_decide_eq_true].
  destruct (built_pod _ _ _ _ _ _ Hb Hj Hsus) as (Ev1 & Hi1 & Hc1). destruct (normalized_pod _ _ Hnorm) as (Ev2 & _ & _ & Hi2 & Hc2).
  pose proof Hb as [_ Hbr]. destruct (BuildBackupResources_confined _ _ _ _ _ _ _ Hbr) as (Hvol & _ & _ & _ & _ & _ & _ & _ & _ & _ & Him).
  split_and!; try done; try (unfold len in *; by apply length_zero_iff_nil; lia).
  - cbn [pod_Spec authorized ungated pod_Volumes]. rewrite Ev2, Ev1. exact Hvol.
  - intros image. cbn [pod_Spec authorized ungated pod_InitContainers pod_Containers].
    rewrite fmap_app, (runs_same_image _ _ Hi2), (runs_same_image _ _ Hc2), (runs_same_image _ _ Hi1), (runs_same_image _ _ Hc1),
      <- fmap_app. intros (con & -> & Hcon)%list_elem_of_fmap. by apply Him.
Qed.

(** *** The composition with the server controller *)

(** The Lease a restart leaves admits exactly the restarted server. *)
Definition admits_restart (b : GameBackup) (generation : Z) (lease : Lease) : Prop :=
  ls_HolderIdentity lease = Some (gb_UID b) /\
  forall server, server_Name server = backup_server b -> gs_DesiredState (gs_Spec server) = DesiredStateRunning ->
    gs_Generation server = generation -> backup_settles server lease (gb_UID b) = true.

Lemma own_lease_admits b lease generation : holds_backup_fence b (backup_server b) lease = true ->
  lease_annotation lease AnnotationRuntimeSettlementState = DesiredState_string DesiredStateRunning ->
  lease_annotation lease AnnotationRuntimeSettlementGeneration = FormatInt generation -> admits_restart b generation lease.
Proof.
  intros Hh Hs Hg.
  assert (BackupOperationLeaseMatches (Some lease) (MkRef None (gb_Name b) (gb_UID b)) (backup_server b) = true) as Hm
    by exact Hh.
  unfold holds_backup_fence, BackupOperationLeaseMatches in Hh.
  destruct (_ || _)%bool eqn:E in Hh; [done|]. rewrite !orb_false_iff, !negb_false_iff, !bool_decide_eq_true in E.
  cbn [ref_Name ref_UID backup_ref] in E. destruct_and!. split; [done|].
  intros server Hn Hd Hgen. unfold backup_settles. rewrite Hn, Hd, Hgen, Hs, Hg.
  match goal with Ha : lease_annotation lease AnnotationBackupName = _ |- _ => rewrite Ha end.
  rewrite Hm. by rewrite !bool_decide_eq_true_2.
Qed.

Lemma settlement_annotations_get generation lease k :
  k <> AnnotationRuntimeSettlementState -> k <> AnnotationRuntimeSettlementGeneration ->
  lease_annotation (with_lease_annotations lease (settlement_annotations generation lease)) k = lease_annotation lease k.
Proof.
  intros Hs Hg. unfold lease_annotation, mget. cbn [ls_meta with_lease_annotations with_annotations om_Annotations].
  unfold settlement_annotations. by rewrite !lookup_insert_ne.
Qed.

(** The Lease under which the server may run again: the operation's own, as
    read or as the pass wrote it. *)
Lemma settlement_allowed_admits b generation es : settlement_allowed b generation es ->
  exists lease allowed, own_fence b lease es /\
    (allowed = lease \/ Ev (ApiUpdate KLease allowed) None ∈ es) /\ admits_restart b generation allowed.
Proof.
  intros (lease & Hown & Ha). pose proof Hown as (l & _ & _ & Hh). destruct Ha as [[Hs Hg]|Hu].
  - exists lease, lease. split_and!; [done | by left | by apply own_lease_admits].
  - eexists lease, _. split_and!; [done | right; exact Hu |]. apply own_lease_admits.
    + unfold holds_backup_fence, BackupOperationLeaseMatches in *. by rewrite settlement_annotations_get.
    + unfold lease_annotation, mget, settlement_annotations. cbn. by rewrite lookup_insert_ne, lookup_insert_eq.
    + unfold lease_annotation, mget, settlement_annotations. cbn. by rewrite lookup_insert_eq.
Qed.

(** C9: a backup moves the server's intent in two ways only.  It stops the
    exact requested running generation, once its source is recorded and it
    holds the data-operation Lease; and it starts the server again, from
    exactly the generation that was stopped under the fence, only when the
    request asks for the previous state and that state was running, after the
    worker was observed gone, and under a Lease of its own which the server
    controller takes as leave to run exactly the restarted generation. *)
Theorem Backup_moves_server req es o pre e post server'
  (Hs : steps (Backup_Reconcile r req) es o) (He : es = pre ++ e :: post) (Hu : server_updated e = Some server') :
  exists b pre', pre = Ev (ApiGet KGameBackup CachedReader req) (inr b) :: pre' /\
    ((exists s, server' = with_desired (rv_server s) DesiredStateStopped /\ resolved b s pre' /\
        fence_held b (plan_DataIdentity (rv_plan s)) (server_Name (rv_server s)) pre' /\
        ds_Source (gb_Status b) = Some (rv_source s) /\ ds_Fence (gb_Status b) = None /\
        gs_Generation (rv_server s) = gsr_Generation (gbs_Source (gb_Spec b)) /\
        gs_DesiredState (gs_Spec (rv_server s)) = DesiredStateRunning) \/
     (exists fence server lease allowed, server' = with_desired server DesiredStateRunning /\
        settlement_fence b fence /\ worker_absent b pre' /\ server_read b server pre' /\
        gs_Generation server = gsr_Generation (fence_GameServer fence) /\
        gs_DesiredState (gs_Spec server) = DesiredStateStopped /\
        dor_RestartPolicy (gbs_Request (gb_Spec b)) = RestartRestorePreviousState /\
        gsr_DesiredState (gbs_Source (gb_Spec b)) = DesiredStateRunning /\
        own_fence b lease pre' /\ (allowed = lease \/ Ev (ApiUpdate KLease allowed) None ∈ pre') /\
        admits_restart b (int64 (gs_Generation server + 1)) allowed)).
Proof.
  assert (is_write e = true) as Hw by (destruct e as [? []]; done).
  destruct (backup_writes _ _ _ _ _ _ Hs He Hw) as (b & pre' & -> & Hwrite). exists b, pre'. split; [done|].
  destruct Hwrite; try discriminate Hu; injection Hu as <-.
  - left. eexists. split_and!; first [reflexivity | done].
  - right. match goal with Ho : owes_restart _ _ _ |- _ => destruct Ho as (Hwant & Hg & Hd) end.
    match goal with Ha : settlement_allowed _ _ _ |- _ => destruct (settlement_allowed_admits _ _ _ Ha) as (l & a & ? & ? & ?) end.
    unfold wanted_runtime in Hwant. destruct (_ && _)%bool eqn:E in Hwant; [|done].
    apply andb_true_iff in E as [E1%bool_decide_eq_true E2%bool_decide_eq_true].
    exists fence, server, l, a. rewrite Hg. by split_and!.
Qed.

(** *** A failure before the fence *)

Lemma Verifying_needs_fence b status : ds_Phase status = DataPhaseVerifying -> ds_Fence status = None ->
  exists e, ValidateBackupStatus (Some (with_backup_status b status)) = Err e.
Proof.
  intros Hp Hf. destruct (ValidateBackupStatus _) as [[]|e] eqn:E; [|by exists e]. exfalso.
  cbn [ValidateBackupStatus gb_Status with_backup_status] in E. ok_inv_step. destruct x. unfold validateCommonStatus in Hrun.
  rewrite Hp, Hf in Hrun. repeat ok_inv_step; discriminate.
Qed.

Lemma markFailure_unfenced b reason message es o : ds_Fence (gb_Status b) = None ->
  steps (markFailure b reason message) es o ->
  (forall e, e ∈ es -> is_write e = false) /\ exists m, o = (no_requeue, Some m).
Proof.
  intros Hf. unfold markFailure, write_and_requeue, writeStatus, with_condition, backup_now.
  intros (es1 & es2 & x & -> & Hs & [-> ->])%steps_bind.
  apply steps_bind in Hs as (es3 & es4 & s & -> & (es5 & es6 & t & -> & ->%steps_call & [-> ->])%steps_bind & Hs).
  assert (es4 = [] /\ exists m, x = Some m) as [-> [m ->]].
  { destruct (ValidateTransition _ _ _ _); [|destruct Hs as [-> ->]; eauto].
    edestruct Verifying_needs_fence as [e Ee]; [..|rewrite Ee in Hs]; [reflexivity | exact Hf |].
    destruct Hs as [-> ->]. eauto. }
  split; [|by exists m]. intros e He. rewrite !app_nil_r in He. by apply list_elem_of_singleton in He as ->.
Qed.

Lemma deleteWorkerAndWait_silent b es x : steps (deleteWorkerAndWait r b) es x ->
  forall e, e ∈ es -> backup_status e = None.
Proof.
  unfold deleteWorkerAndWait, backup_get, backup_list. intros (es1 & es2 & y & -> & ->%steps_call & Hs)%steps_bind e He.
  apply elem_of_app in He as [->%list_elem_of_singleton|He]; [done|].
  destruct y as [[|m]|job]; [|destruct Hs as [-> _]; set_solver|].
  - apply steps_bind in Hs as (es3 & es4 & l & -> & ->%steps_call & [-> _]). rewrite app_nil_r in He.
    by apply list_elem_of_singleton in He as ->.
  - destruct (negb _); [destruct Hs as [-> _]; set_solver|].
    apply steps_bind in Hs as (es3 & es4 & l & -> & ->%steps_call & [-> _]). rewrite app_nil_r in He.
    by apply list_elem_of_singleton in He as ->.
Qed.

(** C40: an operation that fails before its fence is recorded never says so.
    The source may stop matching the recorded manifest while the controller
    still waits for the world to be cold; the controller then removes the
    worker and reports the failure in phase Verifying, which its own safety
    contract refuses without a fence.  Such a pass writes no status: it asks
    for another pass while a worker is removed, and otherwise ends in error. *)
Theorem Backup_unfenced_failure_unrecorded b s es o
  (Hs : steps (with_source r b s) es o) (Hp : ds_Phase (gb_Status b) = DataPhasePreparing)
  (Hf : ds_Fence (gb_Status b) = None) (Hsrc : ds_Source (gb_Status b) <> Some (rv_source s)) :
  (forall e, e ∈ es -> backup_status e = None) /\ (o = (requeue_after backupRequeue, None) \/ exists m, o = (no_requeue, Some m)).
Proof.
  unfold with_source in Hs. rewrite Hp in Hs. cbn [orb] in Hs. rewrite (bool_decide_eq_false_2 _ Hsrc) in Hs. cbn [negb] in Hs.
  unfold abortActive in Hs. apply steps_bind in Hs as (es1 & es2 & x & -> & Hd & Hs).
  pose proof (deleteWorkerAndWait_silent _ _ _ Hd) as Hn.
  destruct x as [m|[]]; [destruct Hs as [-> ->]; rewrite app_nil_r; eauto..|].
  destruct (markFailure_unfenced _ _ _ _ _ Hf Hs) as [Hr Ho]. split; [|by right].
  intros e [He|He]%elem_of_app; [by apply Hn|]. specialize (Hr e He). by destruct e as [? []].
Qed.
End Safety.
