(* ===== verification/BackupSamples.v ===== *)
(** * Concrete passes of the backup controller

    One backup of the server of [ServerSamples], evaluated at the points that
    matter: the fence is recorded, the worker's Pod is let past its gate, its
    report is recorded, the server is started again or stays stopped, and a
    source that changed before the fence.  The theorems of [BackupSafety] are
    instantiated at these passes. *)

From Stdlib Require Import Ascii.
From stdpp Require Import base tactics list strings gmap numbers.
From S2P Require Import Prelude GoStrings Regex Sha256 GoJson GoNet GoNetip K8s ApiTypes DataOperation DataStatus Receipts Operations GameDefinition KubeObjects KubePlan KubeApi TraceLogic WorkerInput OperationDigest KubeDestroy WorkerPods OperationFence ServerStatus RuntimeDrain ServerController ServerSafety ServerSamples KubeBackup BackupController BackupSafety.
Open Scope string_scope.
Open Scope list_scope.

(** ** The operation *)

Definition nightly_id : string := match ArtifactID "backup-1" with Ok i => i | Err _ => "" end.
Definition nightly_digest : string := "sha256:" +:+ EncodeToString (Sum256 (chars "worker")).
Definition nightly_decoders : BackupDecoders := {|
  DecodeBackupResult m :=
    if m == "report" then Some (MkBackupResult BackupFormatVersion nightly_id "sha256:aa" 4096 1 5 6) else None;
  DecodeBackupFailure _ := None |}.
#[local] Existing Instances sample_engine rfc1123 sample_schemas cluster_text cluster_conditions nightly_decoders.
Definition nightly_reconciler : GameBackupReconciler :=
  MkBackupReconciler true {["factorio" := sample_definition]} ("ghcr.io/gobha-me/worker@" +:+ nightly_digest) "script".
Definition nightly_request : NamespacedName := Key "arcade" "nightly".

Definition nightly_server : ExactGameServerReference :=
  MkGSRef (MkRef None "alpha" "uid-alpha") 3 DesiredStateRunning.
Definition nightly_source : DataSourceSnapshot :=
  MkSource nightly_server "factorio" sample_image_digest
    match SettingsDigest sample_definition "{}" with Ok d => d | Err _ => "" end
    [MkPath "world" "/factorio" (MkRef None (om_Name (pvc_meta cluster_claim)) (om_UID (pvc_meta cluster_claim)))].
Definition nightly_fence : ColdDataFence :=
  MkFence (MkGSRef (MkRef None "alpha" "uid-alpha") 4 DesiredStateStopped) 3.
Definition nightly_artifact : BackupArtifact :=
  MkArtifact (MkProvenance (MkRef None "nightly" "backup-1") sample_secret) nightly_id BackupFormatVersion "sha256:aa" 4096 1 5
    (MkVerification VerificationVerified (Some 6%Z)).

Definition nightly (policy : RestartPolicy) (status : DataOperationStatus) : GameBackup :=
  MkGameBackup (MkObjectMeta "nightly" "arcade" "backup-1" 1 "50" 2 None [BackupFinalizer] ∅ ∅ [])
    (MkGameBackupSpec (MkDataRequest None sample_secret policy false) nightly_server None "Retain") status.
(** In a phase of the work, with what is recorded by then. *)
Definition nightly_status (phase : DataOperationPhase) (fence : option ColdDataFence) (artifact : option BackupArtifact) :
    DataOperationStatus :=
  MkDataStatus 1 phase 1 (Some 2%Z) None [] (Some nightly_source) fence artifact None.

(** ** The cluster of the operation *)

(** The server the operation stopped: the next generation, observed stopped. *)
Definition stopped_server : GameServer :=
  let s := cluster_server DesiredStateStopped in let m := gs_meta s in
  MkGameServer (MkObjectMeta (om_Name m) (om_Namespace m) (om_UID m) 4 "80" 10 None [] ∅ ∅ []) (gs_Spec s)
    (MkGameServerStatus 4 None None PhaseStopped [] []).
Definition nightly_lease : Lease :=
  let l := backup_fence (nightly RestartRestorePreviousState (nightly_status DataPhaseVerifying None None))
             cluster_identity "alpha" 3 in
  MkLease (MkObjectMeta (om_Name (ls_meta l)) "arcade" "lease-uid" 1 "60" 3 None [] (om_Labels (ls_meta l))
            (om_Annotations (ls_meta l)) []) (ls_HolderIdentity l) (ls_AcquireTime l).

Definition no_resources : BackupResources :=
  let m := new_meta "" "" ∅ [] in
  MkBackupResources (MkConfigMap (MkTypeMeta "" "") m ∅ ∅ None) (MkServiceAccount m None) (MkRole m [])
    (MkRoleBinding m [] (MkRoleRef "" "" "")) (sample_job true "").
Definition nightly_resources : BackupResources :=
  match BuildBackupResources (Some (nightly RestartRestorePreviousState (nightly_status DataPhaseRunning None None)))
          nightly_source nightly_id (br_WorkerImage nightly_reconciler) (DataOperationLeaseName cluster_identity)
          (def_RuntimeIdentity sample_definition) with
  | Ok resources => resources
  | Err _ => no_resources
  end.
(** The worker's Job as the API server stores it, and its Pod. *)
Definition nightly_job (conditions : list JobCondition) : Job :=
  let j := set_suspend (bk_Job nightly_resources) false in let m := job_meta j in
  MkJob (MkObjectMeta (om_Name m) (om_Namespace m) "job-uid" 1 "70" 4 None [] (om_Labels m) (om_Annotations m)
          (om_OwnerReferences m)) (job_Spec j) conditions None.
Definition nightly_pod (annotations : StringMap) (spec : PodSpec) (phase : string) (statuses : list ContainerStatus) : Pod :=
  let j := nightly_job [] in
  MkPod (MkObjectMeta "worker" "arcade" "pod-uid" 1 "71" 5 None [] (job_TemplateLabels (job_Spec j))
          (map_union annotations (job_TemplateAnnotations (job_Spec j)))
          [MkOwnerReference "batch/v1" "Job" (om_Name (job_meta j)) "job-uid" (Some true) (Some true)])
    spec phase [] statuses.
Definition gated_pod : Pod := nightly_pod ∅ (job_TemplateSpec (job_Spec (nightly_job []))) "Pending" [].
Definition finished_pod : Pod :=
  nightly_pod {[AnnotationBackupPodAuthorized := "pod-uid"]} (ungated (job_TemplateSpec (job_Spec (nightly_job []))))
    "Succeeded" [MkContainerStatus "backup-worker" (Some (0%Z, "report"))].

(** What the cluster holds: the operation, the stopped server and its claim,
    the Lease, and the worker's Job and Pods. *)
Record situation := MkSituation { st_backup : GameBackup; st_job : option Job; st_pods : list Pod }.
Definition found_or_not {A} (o : option A) : apierr + A := match o with Some a => inr a | None => inl NotFound end.
Definition nightly_get {A} (s : situation) (k : kind A) : apierr + A :=
  match k in kind T return apierr + T with
  | KGameBackup => inr (st_backup s)
  | KGameServer => inr stopped_server
  | KPersistentVolumeClaim => inr cluster_claim
  | KLease => inr nightly_lease
  | KConfigMap => inr (bk_Input nightly_resources)
  | KServiceAccount => inr (bk_ServiceAccount nightly_resources)
  | KRole => inr (bk_Role nightly_resources)
  | KRoleBinding => inr (bk_RoleBinding nightly_resources)
  | KJob => found_or_not (st_job s)
  | _ => inl NotFound
  end.
Definition nightly_list {A} (s : situation) (k : kind A) : apierr + object_list A :=
  match k in kind T return apierr + object_list T with
  | KPod => inr (MkList (st_pods s) "" None)
  | KLease => inr (MkList [nightly_lease] "" None)
  | _ => inr (MkList [] "" None)
  end.
Definition nightly_env (s : situation) : environment := fun R _ q =>
  match q in request R return R with
  | ApiGet k _ _ => nightly_get s k
  | ApiList k _ _ _ => nightly_list s k
  | ApiCreate _ o => inr o
  | ApiApply _ o => inr o
  | ApiUpdate _ _ | ApiUpdateStatus _ _ | ApiMergePatch _ _ _ | ApiDelete _ _ _ => None
  | ApiJSONPatch _ object _ => inr object
  | ClockNow => minute
  | RandRead _ => Some []
  end.
Abbreviation nightly_reconcile := (Backup_Reconcile nightly_reconciler nightly_request).
Definition nightly_pass (s : situation) : list event := (run (nightly_env s) [] nightly_reconcile).1.
Definition nightly_outcome (s : situation) : outcome := (run (nightly_env s) [] nightly_reconcile).2.
Lemma nightly_steps s : steps nightly_reconcile (nightly_pass s) (nightly_outcome s).
Proof. apply run_steps. Qed.

Definition fencing : situation :=
  MkSituation (nightly RestartRestorePreviousState (nightly_status DataPhasePreparing None None)) None [].
Definition gating : situation :=
  MkSituation (nightly RestartRestorePreviousState (nightly_status DataPhaseRunning (Some nightly_fence) None))
    (Some (nightly_job [])) [gated_pod].
Definition reporting : situation :=
  MkSituation (nightly RestartRestorePreviousState (nightly_status DataPhaseRunning (Some nightly_fence) None))
    (Some (nightly_job [MkJobCondition "Complete" ConditionTrue 9])) [finished_pod].
Definition restarting : situation :=
  MkSituation (nightly RestartRestorePreviousState
    (nightly_status DataPhaseVerifying (Some nightly_fence) (Some nightly_artifact))) None [].
Definition keeping : situation :=
  MkSituation (nightly RestartLeaveStopped
    (nightly_status DataPhaseVerifying (Some nightly_fence) (Some nightly_artifact))) None [].

Definition phase_recorded (e : event) : option DataOperationPhase := ds_Phase ∘ gb_Status <$> backup_status e.
Definition writes_backup (e : event) : bool := match backup_status e with Some _ => true | None => false end.
Definition writes_server (e : event) : bool := match server_updated e with Some _ => true | None => false end.
Definition writes_pod (e : event) : bool := match pod_updated e with Some _ => true | None => false end.

Definition summary (s : situation) : list DataOperationPhase * nat :=
  (omap phase_recorded (nightly_pass s), length (List.filter is_write (nightly_pass s))).
Example nightly_passes :
  List.map summary [fencing; gating; reporting; restarting; keeping] =
  [([DataPhasePreparing], 1%nat); ([], 1%nat); ([DataPhaseVerifying], 1%nat); ([], 2%nat); ([DataPhaseSucceeded], 2%nat)].
Proof. vm_compute. reflexivity. Qed.

(** ** The theorems at these passes *)

Lemma Backup_Reconcile_refines_witness :
  exists b pre', before writes_pod (nightly_pass gating) = Ev (ApiGet KGameBackup CachedReader nightly_request) (inr b) :: pre' /\
    backup_write nightly_reconciler b pre' (found writes_pod (nightly_pass gating)).
Proof.
  assert (located writes_pod (nightly_pass gating) = true) as L by (vm_compute; reflexivity).
  destruct (locate_split _ _ L) as [E _].
  apply (Backup_Reconcile_refines nightly_reconciler nightly_request _ _ _ _ _ (nightly_steps _) E).
  vm_compute. reflexivity.
Defined.

Lemma Backup_keeps_data_witness :
  exists b pre' claim x, before claim_touched (nightly_pass keeping) =
      Ev (ApiGet KGameBackup CachedReader nightly_request) (inr b) :: pre' /\
    found claim_touched (nightly_pass keeping) = Ev (ApiMergePatch KPersistentVolumeClaim claim (marked b claim)) x /\
    worker_absent nightly_reconciler b pre'.
Proof.
  assert (located claim_touched (nightly_pass keeping) = true) as L by (vm_compute; reflexivity).
  destruct (locate_split _ _ L) as [E Hc].
  destruct (Backup_keeps_data nightly_reconciler nightly_request _ _ _ _ _ (nightly_steps _) E Hc)
    as (b & pre' & _ & _ & claim & x & _ & _ & Ep & Ee & _ & _ & _ & _ & _ & Hw & _).
  exists b, pre', claim, x. exact (conj Ep (conj Ee Hw)).
Defined.

Lemma Backup_fence_cold_witness :
  exists u b pre', backup_status (found writes_backup (nightly_pass fencing)) = Some u /\
    before writes_backup (nightly_pass fencing) = Ev (ApiGet KGameBackup CachedReader nightly_request) (inr b) :: pre'.
Proof.
  assert (located writes_backup (nightly_pass fencing) = true) as L by (vm_compute; reflexivity).
  destruct (locate_split _ _ L) as [E _].
  assert (ds_Fence ∘ gb_Status <$> backup_status (found writes_backup (nightly_pass fencing)) =
          Some (Some (stopped_fence (st_backup fencing) 4 minute))) as Hf by (vm_compute; reflexivity).
  destruct (backup_status (found writes_backup (nightly_pass fencing))) as [u|] eqn:Eu; [|discriminate Hf]. injection Hf as Hf.
  destruct (Backup_fence_cold nightly_reconciler nightly_request _ _ _ _ _ u _ (nightly_steps _) E Eu Hf) as (b & pre' & Ep & _).
  exists u, b, pre'. exact (conj eq_refl Ep).
Defined.

Lemma Backup_artifact_attested_witness :
  exists u b pre', backup_status (found writes_backup (nightly_pass reporting)) = Some u /\
    before writes_backup (nightly_pass reporting) = Ev (ApiGet KGameBackup CachedReader nightly_request) (inr b) :: pre' /\
    ds_Artifact (gb_Status u) = Some nightly_artifact.
Proof.
  assert (located writes_backup (nightly_pass reporting) = true) as L by (vm_compute; reflexivity).
  destruct (locate_split _ _ L) as [E _].
  assert (ds_Artifact ∘ gb_Status <$> backup_status (found writes_backup (nightly_pass reporting)) =
          Some (Some nightly_artifact)) as Ha by (vm_compute; reflexivity).
  destruct (backup_status (found writes_backup (nightly_pass reporting))) as [u|] eqn:Eu; [|discriminate Ha]. injection Ha as Ha.
  destruct (Backup_artifact_attested nightly_reconciler nightly_request _ _ _ _ _ u _ (nightly_steps _) E Eu Ha)
    as (b & pre' & Ep & _).
  exists u, b, pre'. exact (conj eq_refl (conj Ep Ha)).
Defined.

Lemma Backup_success_sound_witness :
  exists u b pre', backup_status (found writes_backup (nightly_pass keeping)) = Some u /\
    before writes_backup (nightly_pass keeping) = Ev (ApiGet KGameBackup CachedReader nightly_request) (inr b) :: pre' /\
    worker_absent nightly_reconciler b pre'.
Proof.
  assert (located writes_backup (nightly_pass keeping) = true) as L by (vm_compute; reflexivity).
  destruct (locate_split _ _ L) as [E _].
  assert (phase_recorded (found writes_backup (nightly_pass keeping)) = Some DataPhaseSucceeded) as Hp
    by (vm_compute; reflexivity).
  unfold phase_recorded in Hp.
  destruct (backup_status (found writes_backup (nightly_pass keeping))) as [u|] eqn:Eu; [|discriminate Hp]. injection Hp as Hp.
  destruct (Backup_success_sound nightly_reconciler nightly_request _ _ _ _ _ u (nightly_steps _) E Eu Hp)
    as (b & pre' & _ & _ & _ & _ & _ & Ep & _ & _ & Hw & _).
  exists u, b, pre'. exact (conj eq_refl (conj Ep Hw)).
Defined.

Lemma Backup_worker_confined_witness :
  exists p b pre' s, pod_updated (found writes_pod (nightly_pass gating)) = Some p /\
    before writes_pod (nightly_pass gating) = Ev (ApiGet KGameBackup CachedReader nightly_request) (inr b) :: pre' /\
    resolved nightly_reconciler b s pre'.
Proof.
  assert (located writes_pod (nightly_pass gating) = true) as L by (vm_compute; reflexivity).
  destruct (locate_split _ _ L) as [E Hp]. unfold writes_pod in Hp at 1.
  destruct (pod_updated (found writes_pod (nightly_pass gating))) as [p|] eqn:Eu; [|discriminate Hp].
  destruct (Backup_worker_confined nightly_reconciler nightly_request _ _ _ _ _ p (nightly_steps _) E Eu)
    as (b & pre' & s & _ & _ & _ & _ & _ & _ & _ & _ & Ep & _ & _ & _ & _ & _ & _ & _ & _ & _ & _ & _ & _ & _ & _ & _ & _ & _ & _ & _ & Hr & _).
  exists p, b, pre', s. exact (conj eq_refl (conj Ep Hr)).
Defined.

Lemma Backup_moves_server_witness :
  exists u b pre', server_updated (found writes_server (nightly_pass restarting)) = Some u /\
    before writes_server (nightly_pass restarting) = Ev (ApiGet KGameBackup CachedReader nightly_request) (inr b) :: pre'.
Proof.
  assert (located writes_server (nightly_pass restarting) = true) as L by (vm_compute; reflexivity).
  destruct (locate_split _ _ L) as [E Hw]. unfold writes_server in Hw at 1.
  destruct (server_updated (found writes_server (nightly_pass restarting))) as [u|] eqn:Eu; [|discriminate Hw].
  destruct (Backup_moves_server nightly_reconciler nightly_request _ _ _ _ _ u (nightly_steps _) E Eu) as (b & pre' & Ep & _).
  exists u, b, pre'. exact (conj eq_refl Ep).
Defined.

(** The world was re-created under another claim before it was fenced. *)
Definition changed_source : resolved_source :=
  MkResolved stopped_server sample_definition (cluster_plan DesiredStateStopped)
    (MkSource nightly_server "factorio" sample_image_digest "" []).
Lemma Backup_unfenced_failure_unrecorded_witness :
  let pass := run (nightly_env fencing) [] (with_source nightly_reconciler (st_backup fencing) changed_source) in
  pass.2 = (requeue_after backupRequeue, None) \/ exists m, pass.2 = (no_requeue, Some m).
Proof.
  intros pass.
  destruct (Backup_unfenced_failure_unrecorded nightly_reconciler (st_backup fencing) changed_source pass.1 pass.2
    (run_steps _ _ _)) as [_ Ho]; [reflexivity | reflexivity | vm_compute; discriminate | exact Ho].
Defined.
