(* ===== verification/RestoreStatus.v ===== *)
(** * A restore's status and how it is written

    [GameRestoreReconciler]'s status updates and the small functions on a
    restore's status and path lists that the rest of
    [internal/controller/gamerestore_controller.go] uses.  A list the API
    server stored is empty exactly when Go reads it back as nil, so
    [CandidateData != nil] is a test on the list. *)

From stdpp Require Import base tactics list strings gmap numbers.
From S2P Require Import Prelude GoStrings K8s ApiTypes DataOperation Operations GameDefinition KubeObjects KubePlan KubeApi TraceLogic WorkerInput KubeDestroy OperationFence WorkerPods ServerController KubeRestore BackupController.
Open Scope string_scope.
Open Scope list_scope.

Definition restoreRequeue : Z := second.
Definition restoreProvisioningTimeout : Z := (5 * minute)%Z.
Definition restoreActivationTimeout : Z := (15 * minute)%Z.
Definition maxRestorePopulateAttempts : Z := 3.
Definition restoreResultGrace : Z := minute.

Record GameRestoreReconciler := MkRestoreReconciler {
  rr_has_APIReader : bool;
  rr_Catalog : Catalog;
  rr_WorkerImage : string;
  (* the script embedded in the binary, for [platformkube.Build] *)
  rr_materializeConfigurationScript : string }.

(** ** Fields of a restore *)

Definition rdata (o : GameRestore) : DataOperationStatus := rs_DataOperationStatus (gr_Status o).
Definition restore_phase (o : GameRestore) : DataOperationPhase := ds_Phase (rdata o).
Definition restore_target (o : GameRestore) : ExactGameServerReference := grs_Target (gr_Spec o).
Definition restore_policy (o : GameRestore) : RestartPolicy := dor_RestartPolicy (grs_Request (gr_Spec o)).
Definition cancel_requested (o : GameRestore) : bool := dor_CancelRequested (grs_Request (gr_Spec o)).

Definition with_restore_status (o : GameRestore) (s : GameRestoreStatus) : GameRestore :=
  MkGameRestore (gr_meta o) (gr_Spec o) s.
Definition with_restore_meta (o : GameRestore) (m : ObjectMeta) : GameRestore :=
  MkGameRestore m (gr_Spec o) (gr_Status o).

Definition with_data (s : GameRestoreStatus) (d : DataOperationStatus) : GameRestoreStatus :=
  MkGameRestoreStatus d (rs_PopulateAttempts s) (rs_PopulateRetryPending s) (rs_PopulateJobUID s)
    (rs_PreviousDataIdentity s) (rs_PreflightVerifiedAt s) (rs_RuntimeJournal s) (rs_ActivationStartedAt s)
    (rs_CandidateVerification s) (rs_CandidateData s) (rs_ActiveData s) (rs_PreviousData s).
(** The attempts of the populate worker: count, retry flag and Job. *)
Definition set_rs_Populate (s : GameRestoreStatus) (n : Z) (pending : bool) (uid : string) : GameRestoreStatus :=
  MkGameRestoreStatus (rs_DataOperationStatus s) n pending uid
    (rs_PreviousDataIdentity s) (rs_PreflightVerifiedAt s) (rs_RuntimeJournal s) (rs_ActivationStartedAt s)
    (rs_CandidateVerification s) (rs_CandidateData s) (rs_ActiveData s) (rs_PreviousData s).
Definition set_rs_Previous (s : GameRestoreStatus) (identity : string) (paths : list DataPathIdentity) : GameRestoreStatus :=
  MkGameRestoreStatus (rs_DataOperationStatus s) (rs_PopulateAttempts s) (rs_PopulateRetryPending s) (rs_PopulateJobUID s)
    identity (rs_PreflightVerifiedAt s) (rs_RuntimeJournal s) (rs_ActivationStartedAt s)
    (rs_CandidateVerification s) (rs_CandidateData s) (rs_ActiveData s) paths.
Definition set_rs_Preflight (s : GameRestoreStatus) (t : option Time) : GameRestoreStatus :=
  MkGameRestoreStatus (rs_DataOperationStatus s) (rs_PopulateAttempts s) (rs_PopulateRetryPending s) (rs_PopulateJobUID s)
    (rs_PreviousDataIdentity s) t (rs_RuntimeJournal s) (rs_ActivationStartedAt s)
    (rs_CandidateVerification s) (rs_CandidateData s) (rs_ActiveData s) (rs_PreviousData s).
Definition set_rs_Journal (s : GameRestoreStatus) (j : option RestoreRuntimeJournal) : GameRestoreStatus :=
  MkGameRestoreStatus (rs_DataOperationStatus s) (rs_PopulateAttempts s) (rs_PopulateRetryPending s) (rs_PopulateJobUID s)
    (rs_PreviousDataIdentity s) (rs_PreflightVerifiedAt s) j (rs_ActivationStartedAt s)
    (rs_CandidateVerification s) (rs_CandidateData s) (rs_ActiveData s) (rs_PreviousData s).
Definition set_rs_Activation (s : GameRestoreStatus) (t : option Time) : GameRestoreStatus :=
  MkGameRestoreStatus (rs_DataOperationStatus s) (rs_PopulateAttempts s) (rs_PopulateRetryPending s) (rs_PopulateJobUID s)
    (rs_PreviousDataIdentity s) (rs_PreflightVerifiedAt s) (rs_RuntimeJournal s) t
    (rs_CandidateVerification s) (rs_CandidateData s) (rs_ActiveData s) (rs_PreviousData s).
Definition set_rs_Verification (s : GameRestoreStatus) (v : option CandidateDataVerification) : GameRestoreStatus :=
  MkGameRestoreStatus (rs_DataOperationStatus s) (rs_PopulateAttempts s) (rs_PopulateRetryPending s) (rs_PopulateJobUID s)
    (rs_PreviousDataIdentity s) (rs_PreflightVerifiedAt s) (rs_RuntimeJournal s) (rs_ActivationStartedAt s)
    v (rs_CandidateData s) (rs_ActiveData s) (rs_PreviousData s).
Definition set_rs_Candidate (s : GameRestoreStatus) (paths : list DataPathIdentity) : GameRestoreStatus :=
  MkGameRestoreStatus (rs_DataOperationStatus s) (rs_PopulateAttempts s) (rs_PopulateRetryPending s) (rs_PopulateJobUID s)
    (rs_PreviousDataIdentity s) (rs_PreflightVerifiedAt s) (rs_RuntimeJournal s) (rs_ActivationStartedAt s)
    (rs_CandidateVerification s) paths (rs_ActiveData s) (rs_PreviousData s).
Definition set_rs_Active (s : GameRestoreStatus) (paths : list DataPathIdentity) : GameRestoreStatus :=
  MkGameRestoreStatus (rs_DataOperationStatus s) (rs_PopulateAttempts s) (rs_PopulateRetryPending s) (rs_PopulateJobUID s)
    (rs_PreviousDataIdentity s) (rs_PreflightVerifiedAt s) (rs_RuntimeJournal s) (rs_ActivationStartedAt s)
    (rs_CandidateVerification s) (rs_CandidateData s) paths (rs_PreviousData s).

(** The journal, as a field to assign into: [if nil { = &{} }]. *)
Definition journal_of (s : GameRestoreStatus) : RestoreRuntimeJournal := default (MkJournal 0 0 0 0) (rs_RuntimeJournal s).
Definition journal_recovery (s : GameRestoreStatus) (g : Z) : GameRestoreStatus :=
  let j := journal_of s in set_rs_Journal s (Some (MkJournal g (rj_CandidateStartGeneration j)
    (rj_RollbackStopGeneration j) (rj_RollbackRestartGeneration j))).
Definition journal_start (s : GameRestoreStatus) (g : Z) : GameRestoreStatus :=
  let j := journal_of s in set_rs_Journal s (Some (MkJournal (rj_PreviousRecoveryGeneration j) g
    (rj_RollbackStopGeneration j) (rj_RollbackRestartGeneration j))).
Definition journal_stop (s : GameRestoreStatus) (g : Z) : GameRestoreStatus :=
  let j := journal_of s in set_rs_Journal s (Some (MkJournal (rj_PreviousRecoveryGeneration j)
    (rj_CandidateStartGeneration j) g (rj_RollbackRestartGeneration j))).
Definition journal_restart (s : GameRestoreStatus) (g : Z) : GameRestoreStatus :=
  let j := journal_of s in set_rs_Journal s (Some (MkJournal (rj_PreviousRecoveryGeneration j)
    (rj_CandidateStartGeneration j) (rj_RollbackStopGeneration j) g)).

(** ** Small functions *)

Definition canRetryRestorePopulate (attempts : Z) : bool := (1 <=? attempts)%Z && (attempts <? maxRestorePopulateAttempts)%Z.
Definition restoreRetryPendingForPhase (phase : DataOperationPhase) (pending : bool) : bool :=
  (phase == DataPhaseRunning) && pending.
Definition restoreTerminal (phase : DataOperationPhase) : bool :=
  (phase == DataPhaseSucceeded) || (phase == DataPhaseFailed) || (phase == DataPhaseCancelled).

(** When a complete Job finished: its completion time, or its first true
    [Complete] condition's. *)
Definition completed_at (job : Job) : option Time :=
  match job_CompletionTime job with
  | Some t => Some t
  | None => jc_LastTransitionTime <$>
      find (fun c => (jc_Type c == "Complete") && (jc_Status c == ConditionTrue)) (job_Conditions job)
  end.
Definition restoreWorkerResultGraceExpired (job : Job) (now : Time) : bool :=
  if negb (jobComplete job) then false
  else
    let created := om_CreationTimestamp (job_meta job) in
    let since_created := negb (IsZero created) && (now - created >? restoreResultGrace)%Z in
    match completed_at job with
    | None => since_created
    | Some t => if IsZero t then since_created else (now - t >? restoreResultGrace)%Z
    end.

Fixpoint restorePathByName (paths : list DataPathIdentity) (name : string) : option DataPathIdentity :=
  match paths with
  | [] => None
  | path :: rest => if dp_Name path == name then Some path else restorePathByName rest name
  end.
Definition subjectPathMount (paths : list PathContract) (name : string) : string :=
  match find (fun path => pc_Name path == name) paths with Some path => pc_MountPath path | None => "" end.

Definition collect_path (lookup : gmap string DataPathIdentity) (path : DataPathIdentity) :
    option (gmap string DataPathIdentity) :=
  match lookup !! dp_Name path with Some _ => None | None => Some (<[dp_Name path := path]> lookup) end.
Definition strike_path (lookup : gmap string DataPathIdentity) (path : DataPathIdentity) :
    option (gmap string DataPathIdentity) :=
  match lookup !! dp_Name path with
  | None => None
  | Some want =>
      if (dp_MountPath path != dp_MountPath want) || (ref_Namespace (dp_ClaimRef path) != None) ||
         (claimName path != claimName want) || (claimUID path != claimUID want)
      then None else Some (delete (dp_Name path) lookup)
  end.
Definition sameDataPaths (left right : list DataPathIdentity) : bool :=
  if (len left == 0%Z) || (len left != len right) then false
  else match fold_option collect_path ∅ left with
       | None => false
       | Some lookup =>
           match fold_option strike_path lookup right with
           | None => false
           | Some rest => bool_decide (rest = ∅)
           end
       end.

Definition restoreSelection (identity : string) (paths : list DataPathIdentity) : option RetainedDataReference :=
  if (identity == "") || (len paths == 0%Z) then None else Some (current_data identity paths).

Definition restoreFailureRecorded (o : GameRestore) : bool :=
  existsb (fun c => (cond_Type c == ConditionOperationComplete) && (cond_Status c == ConditionFalse) &&
                    (cond_Reason c != ReasonOperationCancelled)) (ds_Conditions (rdata o)).
Definition restoreFailureReason (o : GameRestore) : string * string :=
  match find (fun c => (cond_Type c == ConditionOperationComplete) && (cond_Status c == ConditionFalse))
          (ds_Conditions (rdata o)) with
  | Some c => (cond_Reason c, cond_Message c)
  | None => (ReasonVerificationFailed, "restore work ended without a verified isolated candidate")
  end.

(** ** Status writes *)

Section Status.
Variable r : GameRestoreReconciler.

Definition directRestoreReader : Reader := if rr_has_APIReader r then UncachedReader else CachedReader.
Definition restore_get {A} (k : kind A) (o : GameRestore) (name : string) : prog (apierr + A) :=
  call (ApiGet k directRestoreReader (Key (gr_Namespace o) name)).
Definition nowRestore : prog Time := call ClockNow.

Definition setRestoreCondition (o : GameRestore) (conditionType : string) (status : ConditionStatus)
    (reason message : string) (s : GameRestoreStatus) : prog GameRestoreStatus :=
  now ← nowRestore;
  Ret (with_data s (setBackupCondition (gr_Generation o) (rs_DataOperationStatus s) conditionType status reason message now)).
Definition canonicalizeRestoreConditions (s : GameRestoreStatus) : GameRestoreStatus :=
  with_data s (canonicalizeBackupConditions (rs_DataOperationStatus s)).

Definition verified_restore (s : GameRestoreStatus) : bool :=
  match rs_CandidateVerification s with
  | Some v => (cv_Result v == VerificationVerified) && verified_result (rs_DataOperationStatus s)
  | None => false
  end.
(** The status a mutation starts from, and what is done to its result. *)
Definition moved (o : GameRestore) (phase : DataOperationPhase) : GameRestoreStatus :=
  with_data (gr_Status o) (set_ds_Phase (rdata o) (gr_Generation o) phase).
Definition without_stale_retry (phase : DataOperationPhase) (s : GameRestoreStatus) : GameRestoreStatus :=
  set_rs_Populate s (rs_PopulateAttempts s) (restoreRetryPendingForPhase phase (rs_PopulateRetryPending s))
    (rs_PopulateJobUID s).

Definition writeRestoreStatus (o : GameRestore) (phase : DataOperationPhase)
    (mutate : GameRestoreStatus -> prog GameRestoreStatus) : prog (option cerror) :=
  updated ← mutate (moved o phase);
  let updated := without_stale_retry phase updated in
  match ValidateTransition RestoreOperation (restore_phase o) phase (verified_restore updated) with
  | Err e => Ret (Some (WrapError "restore state transition rejected by the safety contract: %w" (FromGo e)))
  | Ok _ =>
      let updated := with_restore_status o (canonicalizeRestoreConditions updated) in
      match ValidateRestoreStatus (Some updated) with
      | Err e => Ret (Some (WrapError "restore status rejected by the safety contract: %w" (FromGo e)))
      | Ok _ =>
          if gr_Status o == gr_Status updated then Ret None
          else
            e ← call (ApiUpdateStatus KGameRestore updated);
            Ret (or_error "update GameRestore status failed" e)
      end
  end.

(** [return ctrl.Result{}, r.writeRestoreStatus(...)] *)
Definition restore_write_return (o : GameRestore) (phase : DataOperationPhase)
    (mutate : GameRestoreStatus -> prog GameRestoreStatus) : prog outcome :=
  e ← writeRestoreStatus o phase mutate; Ret (no_requeue, e).
(** [return ctrl.Result{RequeueAfter: t}, err] *)
Definition restore_write_wait (o : GameRestore) (phase : DataOperationPhase) (t : Z)
    (mutate : GameRestoreStatus -> prog GameRestoreStatus) : prog outcome :=
  e ← writeRestoreStatus o phase mutate; Ret (requeue_after t, e).
(** [return ctrl.Result{Requeue: err == nil}, err] *)
Definition restore_write_requeue (o : GameRestore) (phase : DataOperationPhase)
    (mutate : GameRestoreStatus -> prog GameRestoreStatus) : prog outcome :=
  e ← writeRestoreStatus o phase mutate; Ret (if isSome (e : option cerror) then no_requeue else requeue, e).

Definition blockRestore (o : GameRestore) (reason message : string) : prog outcome :=
  restore_write_wait o DataPhaseBlocked (5 * restoreRequeue)
    (setRestoreCondition o ConditionTargetReady ConditionFalse reason message).
Definition holdRestore (o : GameRestore) (reason message : string) : prog outcome :=
  restore_write_wait o (restore_phase o) restoreRequeue
    (setRestoreCondition o ConditionTargetReady ConditionFalse reason message).
End Status.
