(* ===== verification/RestoreSource.v ===== *)
(** * What a restore starts from

    [resolveInitialRestore] and [preparedRestore] of
    [internal/controller/gamerestore_controller.go]: the read-only checks that
    the exact backup, the exact target and its retained world are what the
    request names, before the first status is recorded and again in every
    later phase.  [prepared] is what a successful re-check has read. *)

From Stdlib Require Import Ascii.
From stdpp Require Import base tactics list strings gmap numbers.
From S2P Require Import Prelude GoStrings K8s ApiTypes DataOperation Operations GameDefinition KubeObjects KubePlan KubeApi TraceLogic WorkerInput KubeDestroy OperationFence WorkerPods ServerController KubeRestore BackupController RestoreStatus.
Open Scope string_scope.
Open Scope list_scope.

Record restoreSubject := MkRestoreSubject {
  rsub_server : GameServer;
  rsub_definition : GameDefinition;
  rsub_plan : Plan;
  rsub_previous : RetainedDataReference;
  rsub_previousPaths : list DataPathIdentity;
  rsub_candidateIdentity : string;
  rsub_source : DataSourceSnapshot;
  rsub_artifact : BackupArtifact;
  rsub_settingsDigest : string;
  rsub_targetPaths : list PathContract }.
(** [restoreIssue]: a reason and a message. *)
Abbreviation restoreIssue := (string * string)%type.

Definition contract_of_path (path : PersistentPath) : PathContract := MkContract (pp_Name path) (pp_MountPath path).
Definition sort_contracts : list PathContract -> list PathContract := sort_by pc_Name.
Definition sort_reference (d : RetainedDataReference) : RetainedDataReference :=
  MkDataRef (rdr_Identity d) (sort_by rdc_Path (rdr_Claims d)).

(** The request names local objects and one Secret revision exactly. *)
Definition incomplete_request (o : GameRestore) : bool :=
  incomplete_ref (gsr_ref (restore_target o)) || (gsr_Generation (restore_target o) <? 1)%Z ||
  incomplete_ref (grs_BackupRef (gr_Spec o)) || incomplete_secret (restore_secret o).

(** The recorded source and verified artifact of a current, successful backup. *)
Definition usable_backup (o : GameRestore) (b : GameBackup) : option (DataSourceSnapshot * BackupArtifact) :=
  let s := gb_Status b in
  if (gb_UID b != ref_UID (grs_BackupRef (gr_Spec o))) || (ds_Phase s != DataPhaseSucceeded) ||
     (ds_ObservedGeneration s != gb_Generation b)
  then None
  else match ds_Source s, ds_Artifact s with
  | Some source, Some artifact =>
      if (av_Result (art_Verification artifact) != VerificationVerified) ||
         negb (isSome (av_VerifiedAt (art_Verification artifact))) ||
         (art_PathCount artifact != int32 (len (src_Paths source)))
      then None else Some (source, artifact)
  | _, _ => None
  end.

(** The requested server, exactly as the request saw it. *)
Definition requested_server (o : GameRestore) (server : GameServer) : bool :=
  let target := restore_target o in
  (server_UID server == gsr_UID target) && negb (deleting (gs_meta server)) &&
  (gs_Generation server == gsr_Generation target) && (gs_DesiredState (gs_Spec server) == gsr_DesiredState target).

Definition restorable (definition : GameDefinition) : bool :=
  Restore (def_Capabilities definition) && ColdBackup (def_Capabilities definition).

(** A target claim of the world that is selected now. *)
Definition previous_ready (claim : DataClaimPlan) (actual : PersistentVolumeClaim) : bool :=
  is_ok (validateExistingDataClaim actual claim) && (om_UID (pvc_meta actual) != "") &&
  (pvc_Phase actual == "Bound") && (pvc_VolumeName actual != "").

(** The runtime the request asks for is observed, on exactly this data. *)
Definition observed_current (server : GameServer) (previous : RetainedDataReference) : bool :=
  let status := gs_Status server in
  let desired := gs_DesiredState (gs_Spec server) in
  isSome (gss_ObservedData status) && sameDataSelection (gss_ObservedData status) (Some previous) &&
  (gss_ObservedGeneration status == gs_Generation server) &&
  negb ((desired == DesiredStateRunning) && (gss_Phase status != PhaseReady)) &&
  negb ((desired == DesiredStateStopped) && (gss_Phase status != PhaseStopped)).

(** The server kept its generation, or has the one the restore's own stop gave it. *)
Definition stop_generation (o : GameRestore) : Z :=
  let target := restore_target o in
  if gsr_DesiredState target == DesiredStateRunning then int64 (gsr_Generation target + 1) else gsr_Generation target.
Definition owned_generation (o : GameRestore) (server : GameServer) : bool :=
  (gs_Generation server == gsr_Generation (restore_target o)) || (gs_Generation server == stop_generation o).
Definition owned_intent (o : GameRestore) (server : GameServer) : bool :=
  let desired := gs_DesiredState (gs_Spec server) in
  negb ((gs_Generation server == gsr_Generation (restore_target o)) && (desired != gsr_DesiredState (restore_target o)) ||
        (gs_Generation server == stop_generation o) && (desired != DesiredStateStopped)).

Section Resolve.
Context `{RegexpEngine} `{NameValidation} `{JsonSchema}.
Variable r : GameRestoreReconciler.

(** ** The first resolution *)

Fixpoint previous_paths (mounts : StringMap) (claims : list DataClaimPlan) (paths : list DataPathIdentity) :
    prog (option (list DataPathIdentity)) :=
  match claims with
  | [] => Ret (Some paths)
  | claim :: rest =>
      actual ← call (ApiGet KPersistentVolumeClaim (directRestoreReader r) (claim_key claim));
      match actual with
      | inl _ => Ret None
      | inr actual => if previous_ready claim actual
                      then previous_paths mounts rest (paths ++ [source_path mounts claim actual]) else Ret None
      end
  end.

(** The last checks, on the selected data. *)
Definition select_previous (o : GameRestore) (server : GameServer) (definition : GameDefinition) (plan : Plan)
    (digest : string) (source : DataSourceSnapshot) (artifact : BackupArtifact) (previousPaths : list DataPathIdentity) :
    restoreIssue + restoreSubject :=
  let previous := current_data (plan_DataIdentity plan) previousPaths in
  let wanted := grs_TargetData (gr_Spec o) in
  let status := gs_Status server in
  if isSome (gss_ActiveData status) &&
     (negb (sameDataSelection wanted (gss_ActiveData status)) ||
      negb (sameDataSelection (gss_ObservedData status) (gss_ActiveData status)))
  then inl (ReasonIdentityMismatch,
    "the selected target data changed or is not yet observed; create a new exact pinned restore request")
  else if isSome wanted && negb (sameDataSelection wanted (Some previous))
  then inl (ReasonIdentityMismatch, "target data claims do not match the immutable restore request")
  else if negb (observed_current server previous)
  then inl (ReasonIdentityMismatch,
    "the current target runtime and exact data selection must be observed before restore")
  else
    let unavailable := inl (ReasonIdentityMismatch, "the candidate data identity is unavailable or aliases active data") in
    match RestoreDataIdentity (gr_UID o) with
    | Err _ => unavailable
    | Ok candidateIdentity =>
        if candidateIdentity == rdr_Identity previous then unavailable
        else inr (MkRestoreSubject server definition plan (sort_reference previous) (sort_paths previousPaths)
          candidateIdentity source artifact digest
          (sort_contracts ((fun path => MkContract (dp_Name path) (dp_MountPath path)) <$> src_Paths source)))
    end.

Definition resolve_target (o : GameRestore) (server : GameServer) (source : DataSourceSnapshot)
    (artifact : BackupArtifact) : prog (restoreIssue + restoreSubject) :=
  let uncertified := Ret (inl (ReasonInvalidReference, "the target game adapter does not certify cold restore")) in
  match catalog_Get (rr_Catalog r) (gs_Game (gs_Spec server)) with
  | Err _ => uncertified
  | Ok definition =>
    if negb (restorable definition) then uncertified
    else
      let uncontracted := Ret (inl (ReasonIdentityMismatch,
        "the target no longer satisfies its certified adapter data contract")) in
      match Build (rr_materializeConfigurationScript r) server definition with
      | inl _ => uncontracted
      | inr plan =>
        if len (DataClaims plan) == 0%Z then uncontracted
        else
          let incompatible := Ret (inl (ReasonInvalidReference,
            "backup game, image, settings, or persistent path topology is incompatible with the target")) in
          match SettingsDigest definition (gs_Settings (gs_Spec server)) with
          | Err _ => incompatible
          | Ok digest =>
            if (src_Game source != gs_Game (gs_Spec server)) || (src_ImageDigest source != gs_ImageDigest (gs_Spec server)) ||
               (src_SettingsDigest source != digest) ||
               (len (src_Paths source) != len (def_PersistentPaths definition))
            then incompatible
            else
              let mounts := pathMounts definition in
              if existsb (fun path => (mget mounts (dp_Name path) != dp_MountPath path) || (dp_MountPath path == ""))
                   (src_Paths source)
              then Ret (inl (ReasonInvalidReference, "backup persistent paths do not match the certified target adapter"))
              else
                previousPaths ← previous_paths mounts (DataClaims plan) [];
                Ret (match (previousPaths : option (list DataPathIdentity)) with
                | None => inl (ReasonIdentityMismatch,
                    "every target data claim must remain bound with its exact retained identity")
                | Some previousPaths => select_previous o server definition plan digest source artifact previousPaths
                end)
          end
      end
  end.

Definition resolveInitialRestore (o : GameRestore) : prog (restoreIssue + restoreSubject) :=
  if incomplete_request o
  then Ret (inl (ReasonInvalidReference,
    "restore references must identify exact local objects and one immutable repository Secret revision"))
  else
    backup ← restore_get r KGameBackup o (ref_Name (grs_BackupRef (gr_Spec o)));
    match match backup with inr backup => pair backup <$> usable_backup o backup | inl _ => None end with
    | None => Ret (inl (ReasonInvalidReference,
        "the exact backup is unavailable or has no current, complete verified artifact"))
    | Some (backup, (source, artifact)) =>
      let provenance := art_Provenance artifact in
      if (ref_Name (ap_BackupRef provenance) != gb_Name backup) || (ref_UID (ap_BackupRef provenance) != gb_UID backup) ||
         (ap_RepositorySecretRef provenance != restore_secret o)
      then Ret (inl (ReasonInvalidReference,
        "backup artifact provenance does not match the requested repository Secret revision"))
      else if match ArtifactID (gb_UID backup) with
              | Err _ => true
              | Ok artifactID => (art_ID artifact != artifactID) || (art_FormatVersion artifact != BackupFormatVersion)
              end
      then Ret (inl (ReasonInvalidReference,
        "the backup artifact format or deterministic identity is unsupported"))
      else
        server ← restore_get r KGameServer o (target_name o);
        match server with
        | inl _ => Ret (inl (ReasonIdentityMismatch,
            "the exact target GameServer generation is unavailable or changed"))
        | inr server =>
            if negb (requested_server o server)
            then Ret (inl (ReasonIdentityMismatch,
              "the exact target GameServer generation is unavailable or changed"))
            else resolve_target o server source artifact
        end
    end.

(** ** The re-check of every later phase *)

(** A claim of the previous world is still exactly the recorded one. *)
Definition previous_exact (claim : DataClaimPlan) (ref : ExactLocalReference) (actual : PersistentVolumeClaim) : bool :=
  (om_UID (pvc_meta actual) == ref_UID ref) && is_ok (validateExistingDataClaim actual claim) &&
  (pvc_Phase actual == "Bound") && (pvc_VolumeName actual != "").
Definition recheck_claim (o : GameRestore) (claim : DataClaimPlan) : prog (option restoreIssue) :=
  let changed := (ReasonIdentityMismatch, "a previous-world path no longer identifies the exact original claim") in
  match restorePathByName (rs_PreviousData (gr_Status o)) (claim_label (Desired claim) LabelDataPath) with
  | None => Ret (Some changed)
  | Some previous =>
      if (claimName previous != om_Name (pvc_meta (Desired claim))) ||
         ((RequiredUID claim != "") && (claimUID previous != RequiredUID claim))
      then Ret (Some changed)
      else
        actual ← call (ApiGet KPersistentVolumeClaim (directRestoreReader r) (claim_key claim));
        Ret (match actual with
             | inr actual => if previous_exact claim (dp_ClaimRef previous) actual then None
                             else Some (ReasonIdentityMismatch, "an exact previous-world claim changed or became unavailable")
             | inl _ => Some (ReasonIdentityMismatch, "an exact previous-world claim changed or became unavailable")
             end)
  end.

Definition recheck_target (o : GameRestore) (server : GameServer) (source : DataSourceSnapshot)
    (artifact : BackupArtifact) : prog (restoreIssue + restoreSubject) :=
  let mismatch := fun m => Ret (inl (ReasonIdentityMismatch, m)) in
  match catalog_Get (rr_Catalog r) (gs_Game (gs_Spec server)) with
  | Err _ => mismatch "the target adapter or immutable image no longer matches the verified source"
  | Ok definition =>
    if negb (restorable definition) || (gs_Game (gs_Spec server) != src_Game source) ||
       (gs_ImageDigest (gs_Spec server) != src_ImageDigest source)
    then mismatch "the target adapter or immutable image no longer matches the verified source"
    else match SettingsDigest definition (gs_Settings (gs_Spec server)) with
    | Err _ => mismatch "the target settings changed after restore preflight"
    | Ok digest =>
      if digest != src_SettingsDigest source then mismatch "the target settings changed after restore preflight"
      else match Build (rr_materializeConfigurationScript r) server definition with
      | inl _ => mismatch "the previously selected target data changed after preflight"
      | inr plan =>
        let recorded := rs_PreviousData (gr_Status o) in
        if (plan_DataIdentity plan != rs_PreviousDataIdentity (gr_Status o)) || (len (DataClaims plan) != len recorded)
        then mismatch "the previously selected target data changed after preflight"
        else
          let previous := current_data (plan_DataIdentity plan) recorded in
          let active := gss_ActiveData (gs_Status server) in
          let wanted := grs_TargetData (gr_Spec o) in
          if isSome active && negb (sameDataSelection active (Some previous)) ||
             isSome wanted && negb (sameDataSelection wanted (Some previous))
          then mismatch "the exact previous-world selection changed after preflight"
          else
            issue ← loop (recheck_claim o) (DataClaims plan);
            Ret (match (issue : option restoreIssue) with
            | Some issue => inl issue
            | None =>
                let aliases := inl (ReasonIdentityMismatch, "candidate data identity aliases the previous world") in
                match RestoreDataIdentity (gr_UID o) with
                | Err _ => aliases
                | Ok candidateIdentity =>
                    if candidateIdentity == rdr_Identity previous then aliases
                    else inr (MkRestoreSubject server definition plan previous recorded candidateIdentity source artifact
                      digest (sort_contracts (contract_of_path <$> def_PersistentPaths definition)))
                end
            end)
      end
    end
  end.

Definition preparedRestore (o : GameRestore) : prog (restoreIssue + restoreSubject) :=
  match ds_Source (rdata o), ds_Artifact (rdata o) with
  | Some source, Some artifact =>
    if (rs_PreviousDataIdentity (gr_Status o) == "") || (len (rs_PreviousData (gr_Status o)) == 0%Z)
    then Ret (inl (ReasonIdentityMismatch, "restore has no complete durable source and previous-data snapshot"))
    else
      server ← restore_get r KGameServer o (target_name o);
      match server with
      | inl _ => Ret (inl (ReasonIdentityMismatch, "the exact target GameServer is unavailable"))
      | inr server =>
        if (server_UID server != gsr_UID (restore_target o)) || deleting (gs_meta server)
        then Ret (inl (ReasonIdentityMismatch, "the exact target GameServer is unavailable"))
        else if negb (owned_generation o server)
        then Ret (inl (ReasonIdentityMismatch, "the target generation changed outside the restore-owned cold stop"))
        else if negb (owned_intent o server)
        then Ret (inl (ReasonIdentityMismatch, "the target runtime intent changed outside restore authority"))
        else recheck_target o server source artifact
      end
  | _, _ => Ret (inl (ReasonIdentityMismatch, "restore has no complete durable source and previous-data snapshot"))
  end.

(** ** What was read *)

Local Abbreviation rd := (directRestoreReader r).

(** The requested server, by name and UID. *)
Definition target_seen (o : GameRestore) (server : GameServer) (es : list event) : Prop :=
  Ev (ApiGet KGameServer rd (Key (gr_Namespace o) (target_name o))) (inr server) ∈ es /\
  (server_UID server = gsr_UID (restore_target o) /\ deleting (gs_meta server) = false).
#[export] Instance target_seen_grows o s : Grows (target_seen o s).
Proof. unfold target_seen. grows_tac. Qed.

(** The backup the request names, with what it recorded. *)
Definition backup_seen (o : GameRestore) (s : restoreSubject) (es : list event) : Prop :=
  exists b, Ev (ApiGet KGameBackup rd (Key (gr_Namespace o) (ref_Name (grs_BackupRef (gr_Spec o))))) (inr b) ∈ es /\
    (usable_backup o b = Some (rsub_source s, rsub_artifact s) /\
     ArtifactID (gb_UID b) = Ok (art_ID (rsub_artifact s)) /\
     ap_RepositorySecretRef (art_Provenance (rsub_artifact s)) = restore_secret o).
Definition path_seen (mounts : StringMap) (claim : DataClaimPlan) (path : DataPathIdentity) (es : list event) : Prop :=
  exists actual, Ev (ApiGet KPersistentVolumeClaim rd (claim_key claim)) (inr actual) ∈ es /\
    (previous_ready claim actual = true /\ path = source_path mounts claim actual).
(** The adapter and its plan for the server, and the fresh identity. *)
Definition planned_restore (o : GameRestore) (s : restoreSubject) : Prop :=
  catalog_Get (rr_Catalog r) (gs_Game (gs_Spec (rsub_server s))) = Ok (rsub_definition s) /\
  restorable (rsub_definition s) = true /\
  Build (rr_materializeConfigurationScript r) (rsub_server s) (rsub_definition s) = inr (rsub_plan s) /\
  RestoreDataIdentity (gr_UID o) = Ok (rsub_candidateIdentity s) /\
  rsub_candidateIdentity s <> plan_DataIdentity (rsub_plan s) /\
  rdr_Identity (rsub_previous s) = plan_DataIdentity (rsub_plan s).
(** What the first resolution has read: the current world is the one the
    requested runtime was observed with. *)
Definition resolved_initial (o : GameRestore) (s : restoreSubject) (es : list event) : Prop :=
  (backup_seen o s es /\ target_seen o (rsub_server s) es /\
   (requested_server o (rsub_server s) = true /\ planned_restore o s)) /\
  exists paths, Forall2 (fun claim path => path_seen (pathMounts (rsub_definition s)) claim path es)
      (DataClaims (rsub_plan s)) paths /\
    (rsub_previousPaths s = sort_paths paths /\
     observed_current (rsub_server s) (current_data (plan_DataIdentity (rsub_plan s)) paths) = true).
#[export] Instance resolved_initial_grows o s : Grows (resolved_initial o s).
Proof. unfold resolved_initial, backup_seen, path_seen. grows_tac. Qed.

(** A claim of the recorded previous world, as it was found again. *)
Definition claim_rechecked (o : GameRestore) (claim : DataClaimPlan) (es : list event) : Prop :=
  exists previous actual, Ev (ApiGet KPersistentVolumeClaim rd (claim_key claim)) (inr actual) ∈ es /\
    (restorePathByName (rs_PreviousData (gr_Status o)) (claim_label (Desired claim) LabelDataPath) = Some previous /\
     claimName previous = om_Name (pvc_meta (Desired claim)) /\
     previous_exact claim (dp_ClaimRef previous) actual = true).
Definition prepared (o : GameRestore) (s : restoreSubject) (es : list event) : Prop :=
  target_seen o (rsub_server s) es /\
  (forall claim, claim ∈ DataClaims (rsub_plan s) -> claim_rechecked o claim es) /\
  (owned_generation o (rsub_server s) = true /\ owned_intent o (rsub_server s) = true /\ planned_restore o s /\
   plan_DataIdentity (rsub_plan s) = rs_PreviousDataIdentity (gr_Status o) /\
   rsub_previous s = current_data (rs_PreviousDataIdentity (gr_Status o)) (rs_PreviousData (gr_Status o)) /\
   (rs_PreviousDataIdentity (gr_Status o) <> "" /\ rs_PreviousData (gr_Status o) <> []) /\ ds_Source (rdata o) = Some (rsub_source s) /\
   ds_Artifact (rdata o) = Some (rsub_artifact s)).
#[export] Instance prepared_grows o s : Grows (prepared o s).
Proof. unfold prepared, claim_rechecked. grows_tac. Qed.

Lemma previous_paths_seen mounts claims paths es paths' : steps (previous_paths mounts claims paths) es (Some paths') ->
  exists new, paths' = paths ++ new /\ Forall2 (fun claim path => path_seen mounts claim path es) claims new.
Proof.
  revert paths es. induction claims as [|claim claims IH]; intros paths es; cbn [previous_paths].
  - intros [-> [= ->]]. exists []. split; [by rewrite app_nil_r | constructor].
  - intros (es1 & es2 & x & -> & ->%steps_call & Hs)%steps_bind. destruct x as [e|actual]; [by destruct Hs|].
    destruct (previous_ready claim actual) eqn:Hr; [|by destruct Hs].
    apply IH in Hs as (new & -> & HF). exists (source_path mounts claim actual :: new).
    split; [by rewrite <- app_assoc|]. constructor.
    + exists actual. split; [by left | done].
    + eapply Forall2_impl; [|exact HF]. intros c p (a & ? & ?). exists a. split; [by right | done].
Qed.

Lemma select_previous_inv o server d p digest source artifact paths s :
  select_previous o server d p digest source artifact paths = inr s ->
  observed_current server (current_data (plan_DataIdentity p) paths) = true /\
  exists candidate, RestoreDataIdentity (gr_UID o) = Ok candidate /\ candidate <> plan_DataIdentity p /\
    s = MkRestoreSubject server d p (sort_reference (current_data (plan_DataIdentity p) paths)) (sort_paths paths)
          candidate source artifact digest
          (sort_contracts ((fun path => MkContract (dp_Name path) (dp_MountPath path)) <$> src_Paths source)).
Proof.
  unfold select_previous. destruct (_ && _)%bool; [done|]. destruct (_ && _)%bool; [done|].
  destruct (observed_current _ _) eqn:Ho; cbn [negb]; [|done].
  destruct (RestoreDataIdentity _) as [candidate|]; [|done]. case_bool_decide as Hc; [done|]. intros [= <-].
  split; [done|]. exists candidate. by split_and!.
Qed.

Lemma resolve_target_inv o server source artifact es s : steps (resolve_target o server source artifact) es (inr s) ->
  (rsub_server s = server /\ rsub_source s = source /\ rsub_artifact s = artifact) /\ planned_restore o s /\
  exists paths, Forall2 (fun claim path => path_seen (pathMounts (rsub_definition s)) claim path es)
      (DataClaims (rsub_plan s)) paths /\
    (rsub_previousPaths s = sort_paths paths /\
     observed_current (rsub_server s) (current_data (plan_DataIdentity (rsub_plan s)) paths) = true).
Proof.
  unfold resolve_target. cbv zeta. destruct (catalog_Get _ _) as [d|] eqn:Hd; [|by intros []].
  destruct (restorable d) eqn:Hr; cbn [negb]; [|by intros []].
  destruct (Build _ _ _) as [|p] eqn:Hb; [by intros []|]. destruct (bool_decide _); [by intros []|].
  destruct (SettingsDigest _ _) as [digest|]; [|by intros []].
  destruct (_ || _)%bool; [by intros []|]. destruct (existsb _ _); [by intros []|].
  intros (es1 & es2 & x & -> & Hp & [-> Hs])%steps_bind. destruct x as [paths|]; [|done].
  symmetry in Hs. apply select_previous_inv in Hs as (Ho & candidate & Hc & Hne & ->).
  apply previous_paths_seen in Hp as (new & -> & HF). rewrite app_nil_l, app_nil_r in *.
  unfold planned_restore. cbn [rsub_server rsub_source rsub_artifact rsub_definition rsub_plan rsub_candidateIdentity
    rsub_previous rsub_previousPaths]. split_and!; try done. by exists new.
Qed.

Lemma resolveInitialRestore_resolved o s es : steps (resolveInitialRestore o) es (inr s) -> resolved_initial o s es.
Proof.
  unfold resolveInitialRestore, restore_get. destruct (incomplete_request o); [by intros []|].
  intros (es1 & es2 & x & -> & ->%steps_call & Hs)%steps_bind. destruct x as [e|b]; [by destruct Hs|].
  destruct (usable_backup o b) as [[source artifact]|] eqn:Hu; [|by destruct Hs]. cbn [fmap option_fmap option_map] in Hs. cbv zeta in Hs.
  destruct (_ || _ || _)%bool eqn:Hprov in Hs; [by destruct Hs|].
  destruct (match ArtifactID _ with Ok _ => _ | Err _ => _ end) eqn:Hid in Hs; [by destruct Hs|].
  apply steps_bind in Hs as (es3 & es4 & x & -> & ->%steps_call & Hs). destruct x as [e|server]; [by destruct Hs|].
  destruct (requested_server o server) eqn:Hrs; cbn [negb] in Hs; [|by destruct Hs].
  apply resolve_target_inv in Hs as ((<- & <- & <-) & Hp & paths & HF & Hprev).
  rewrite !orb_false_iff, !negb_false_iff, !bool_decide_eq_true in Hprov.
  assert (server_UID (rsub_server s) = gsr_UID (restore_target o) /\ deleting (gs_meta (rsub_server s)) = false) as Hseen.
  { unfold requested_server in Hrs. rewrite !andb_true_iff, bool_decide_eq_true, negb_true_iff in Hrs. naive_solver. }
  split; [split_and!; try done|].
  - exists b. split; [set_solver|]. split_and!; [done| |apply Hprov].
    destruct (ArtifactID _) as [id|]; [|done]. rewrite orb_false_iff, negb_false_iff, bool_decide_eq_true in Hid.
    by destruct Hid as [-> _].
  - split; [set_solver | done].
  - exists paths. split; [|done]. eapply Forall2_impl; [|exact HF]. intros c q (a & ? & ?). exists a.
    split; [set_solver | done].
Qed.

Lemma recheck_claim_rechecked o claim es : steps (recheck_claim o claim) es None -> claim_rechecked o claim es.
Proof.
  unfold recheck_claim. cbv zeta. destruct (restorePathByName _ _) as [previous|] eqn:Hp; [|by intros []].
  destruct (_ || _)%bool eqn:Hg; [by intros []|]. apply orb_false_iff in Hg as [Hn%negb_false_iff _].
  apply bool_decide_eq_true in Hn. intros (es1 & es2 & x & -> & ->%steps_call & [-> Hs])%steps_bind.
  destruct x as [e|actual]; [done|]. destruct (previous_exact _ _ _) eqn:He; [|done].
  exists previous, actual. split; [by left | done].
Qed.

Lemma recheck_target_inv o server source artifact es s : steps (recheck_target o server source artifact) es (inr s) ->
  (rsub_server s = server /\ rsub_source s = source /\ rsub_artifact s = artifact) /\ planned_restore o s /\
  (forall claim, claim ∈ DataClaims (rsub_plan s) -> claim_rechecked o claim es) /\
  plan_DataIdentity (rsub_plan s) = rs_PreviousDataIdentity (gr_Status o) /\
  rsub_previous s = current_data (rs_PreviousDataIdentity (gr_Status o)) (rs_PreviousData (gr_Status o)).
Proof.
  unfold recheck_target. cbv zeta. destruct (catalog_Get _ _) as [d|] eqn:Hd; [|by intros []].
  destruct (_ || _ || _)%bool eqn:Hr; [by intros []|]. destruct (SettingsDigest _ _) as [digest|]; [|by intros []].
  destruct (negb (bool_decide (digest = _))); [by intros []|]. destruct (Build _ _ _) as [|p] eqn:Hb; [by intros []|].
  destruct (negb _ || negb _)%bool eqn:Hid in |- *; [by intros []|]. destruct (_ && _ || _ && _)%bool in |- *; [by intros []|].
  intros (es1 & es2 & x & -> & Hl & [-> Hs])%steps_bind. destruct x as [issue|]; [done|].
  destruct (RestoreDataIdentity _) as [candidate|] eqn:Hc; [|done]. case_bool_decide as Hne; [done|]. injection Hs as ->.
  rewrite orb_false_iff, !negb_false_iff, !bool_decide_eq_true in Hid. destruct Hid as [Hid _].
  rewrite !orb_false_iff, !negb_false_iff in Hr. destruct Hr as [[Hr _] _].
  unfold planned_restore. cbn [rsub_server rsub_source rsub_artifact rsub_definition rsub_plan rsub_candidateIdentity
    rsub_previous rsub_previousPaths]. split_and!; try done; [|by rewrite <- Hid].
  intros claim Hin. destruct (loop_none_each _ _ _ Hl claim Hin) as (es' & Hsub & Hs').
  apply recheck_claim_rechecked in Hs' as (q & a & ? & ?). exists q, a. split; [set_solver | done].
Qed.

Lemma preparedRestore_prepared o s es : steps (preparedRestore o) es (inr s) -> prepared o s es.
Proof.
  unfold preparedRestore, restore_get. destruct (ds_Source (rdata o)) as [source|] eqn:Hsrc; [|by intros []].
  destruct (ds_Artifact (rdata o)) as [artifact|] eqn:Ha; [|by intros []].
  destruct (_ || _)%bool eqn:Hg; [by intros []|].
  intros (es1 & es2 & x & -> & ->%steps_call & Hs)%steps_bind. destruct x as [e|server]; [by destruct Hs|].
  destruct (_ || _)%bool eqn:Hu in Hs; [by destruct Hs|]. apply orb_false_iff in Hu as [Hu%negb_false_iff Hdel].
  apply bool_decide_eq_true in Hu.
  destruct (owned_generation o server) eqn:Hgen; cbn [negb] in Hs; [|by destruct Hs].
  destruct (owned_intent o server) eqn:Hint; cbn [negb] in Hs; [|by destruct Hs].
  apply recheck_target_inv in Hs as ((<- & <- & <-) & Hp & Hc & Hid & Hprev).
  split; [split; [by left | done]|]. split.
  - intros claim Hin. destruct (Hc claim Hin) as (q & a & ? & ?). exists q, a. split; [by right | done].
  - apply orb_false_iff in Hg as [Hg1%bool_decide_eq_false Hg2%bool_decide_eq_false].
    split_and!; try done. intros E. by rewrite E in Hg2.
Qed.

Lemma reads_preparedRestore o : reads_only (preparedRestore o).
Proof. unfold preparedRestore, recheck_target, recheck_claim, restore_get. cbv zeta. reads_tac. Qed.
Lemma reads_previous_paths mounts claims paths : reads_only (previous_paths mounts claims paths).
Proof.
  revert paths. induction claims as [|claim claims IH]; intros paths; cbn [previous_paths]; unfold reads_only; emits_tac.
  apply IH.
Qed.
Lemma reads_resolveInitialRestore o : reads_only (resolveInitialRestore o).
Proof.
  unfold resolveInitialRestore, resolve_target, restore_get, reads_only. cbv zeta. emits_tac. apply reads_previous_paths.
Qed.
End Resolve.
