(* ===== verification/RestoreVolumes.v ===== *)
(** * Candidate storage is physically distinct ([internal/controller/restore_volume.go])

    [verifyRestoreVolumeIsolation]: every candidate claim is bound to a fresh
    PersistentVolume whose CSI handle backs no claim of the previous world and
    no backup-source claim that still exists.  [isolated] is what an affirmed
    verification has read. *)

From stdpp Require Import base tactics list strings gmap numbers.
From S2P Require Import Prelude ApiTypes DataOperation KubeObjects KubeApi TraceLogic WorkerInput.
Open Scope string_scope.
Open Scope list_scope.

Record restoreVolumeBinding := MkBinding {
  bind_pvName : string;
  bind_fingerprint : string;
  bind_claimCreated : Time;
  bind_pvCreated : Time }.

Definition restoreVolumeSourceFingerprint (pv : PersistentVolume) : result string :=
  match pvol_CSI pv with
  | Some (driver, handle) =>
      if (driver != "") && (handle != "") then Ok ("csi:" +:+ driver +:+ ":" +:+ handle)
      else fail "restore backing volume source is not certified for isolation"
  | None => fail "restore backing volume source is not certified for isolation"
  end.

(** The claim is bound, and is exactly the referenced one. *)
Definition claim_bound (ref : ExactLocalReference) (claim : PersistentVolumeClaim) : bool :=
  (om_UID (pvc_meta claim) == ref_UID ref) && (pvc_Phase claim == "Bound") && (pvc_VolumeName claim != "") &&
  negb (deleting (pvc_meta claim)).
Definition volume_bound_to (namespace : string) (claim : PersistentVolumeClaim) (pv : PersistentVolume) : bool :=
  (pvol_Phase pv == "Bound") && (pvol_ClaimRef pv == Some (namespace, om_Name (pvc_meta claim), om_UID (pvc_meta claim))).

(** What the walk over the previous and then the candidate claims has seen. *)
Record seen_volumes := MkSeen {
  seenClaim : list string;
  seenPV : list string;
  seenSource : list string;
  candidateSource : list string }.

(** A candidate's claim, and its volume, were created for the restore. *)
Definition freshly_provisioned (restoreCreated : Time) (b : restoreVolumeBinding) : bool :=
  negb (IsZero (bind_claimCreated b)) && negb (IsZero (bind_pvCreated b)) &&
  negb (bind_claimCreated b <? restoreCreated)%Z && negb (bind_pvCreated b <? bind_claimCreated b)%Z.

Section Isolation.
Variables (reader : Reader) (namespace : string).

Definition boundRestoreVolumeFingerprint (ref : ExactLocalReference) : prog (result restoreVolumeBinding) :=
  if incomplete_ref ref then Ret (fail "restore volume identity is incomplete")
  else
    claim ← call (ApiGet KPersistentVolumeClaim reader (Key namespace (ref_Name ref)));
    match claim with
    | inl _ => Ret (fail "restore data claim is not exactly bound")
    | inr claim =>
        if negb (claim_bound ref claim) then Ret (fail "restore data claim is not exactly bound")
        else
          pv ← call (ApiGet KPersistentVolume reader (Key "" (pvc_VolumeName claim)));
          Ret (match pv with
               | inl _ => fail "restore backing volume is not bound to its exact claim"
               | inr pv =>
                   if negb (volume_bound_to namespace claim pv)
                   then fail "restore backing volume is not bound to its exact claim"
                   else
                     fingerprint ← restoreVolumeSourceFingerprint pv;
                     Ok (MkBinding (pvc_VolumeName claim) fingerprint (om_CreationTimestamp (pvc_meta claim))
                           (om_CreationTimestamp (pvol_meta pv)))
               end)
    end.

Definition isolate_path (restoreCreated : Time) (is_candidate : bool) (seen : seen_volumes) (path : DataPathIdentity) :
    prog (result seen_volumes) :=
  if bool_decide (claimName path ∈ seenClaim seen) then Ret (fail "restore data sets alias one claim")
  else
    binding ← boundRestoreVolumeFingerprint (dp_ClaimRef path);
    Ret (binding ← binding;
         if is_candidate && negb (freshly_provisioned restoreCreated binding)
         then fail "candidate claim or backing volume predates the restore-owned fresh provisioning"
         else if bool_decide (bind_pvName binding ∈ seenPV seen) then fail "restore data sets alias one PersistentVolume"
         else if bool_decide (bind_fingerprint binding ∈ seenSource seen)
         then fail "restore data sets alias one backing volume source"
         else Ok (MkSeen (claimName path :: seenClaim seen) (bind_pvName binding :: seenPV seen)
                    (bind_fingerprint binding :: seenSource seen)
                    (if is_candidate then bind_fingerprint binding :: candidateSource seen else candidateSource seen))).

(** A claim the backup was taken from: gone, replaced, or on another volume. *)
Definition check_source_path (candidates : list string) (path : DataPathIdentity) : prog (option error) :=
  let ref := dp_ClaimRef path in
  if incomplete_ref ref then Ret (Some (ErrorsNew "backup source volume identity is incomplete"))
  else
    claim ← call (ApiGet KPersistentVolumeClaim reader (Key namespace (ref_Name ref)));
    match claim with
    | inl NotFound => Ret None
    | inl _ => Ret (Some (ErrorsNew "inspect backup source volume failed"))
    | inr claim =>
        if om_UID (pvc_meta claim) != ref_UID ref then Ret None
        else
          binding ← boundRestoreVolumeFingerprint ref;
          Ret (match (binding : result restoreVolumeBinding) with
               | Err e => Some e
               | Ok binding =>
                   if bool_decide (bind_fingerprint binding ∈ candidates)
                   then Some (ErrorsNew "candidate data aliases a still-existing backup source volume") else None
               end)
    end.

Definition verifyRestoreVolumeIsolation (restoreCreated : Time) (previous candidate : list DataPathIdentity)
    (backupSource : list (list DataPathIdentity)) : prog (option error) :=
  if IsZero restoreCreated || (len previous == 0%Z) || (len previous != len candidate)
  then Ret (Some (ErrorsNew "restore volume isolation requires complete data sets"))
  else
    seen ← loop_state (isolate_path restoreCreated false) (MkSeen [] [] [] []) previous;
    match (seen : result seen_volumes) with
    | Err e => Ret (Some e)
    | Ok seen =>
        seen ← loop_state (isolate_path restoreCreated true) seen candidate;
        match (seen : result seen_volumes) with
        | Err e => Ret (Some e)
        | Ok seen =>
            loop (fun sourceSet =>
              if len sourceSet != len previous
              then Ret (Some (ErrorsNew "backup source volume set is incomplete"))
              else loop (check_source_path (candidateSource seen)) sourceSet) backupSource
        end
    end.

(** ** What was read *)

(** The claim is bound to a volume, and the volume is bound back to it. *)
Definition volume_read (ref : ExactLocalReference) (b : restoreVolumeBinding) (es : list event) : Prop :=
  exists claim pv, Ev (ApiGet KPersistentVolumeClaim reader (Key namespace (ref_Name ref))) (inr claim) ∈ es /\
    Ev (ApiGet KPersistentVolume reader (Key "" (pvc_VolumeName claim))) (inr pv) ∈ es /\
    (claim_bound ref claim = true /\ volume_bound_to namespace claim pv = true /\
     restoreVolumeSourceFingerprint pv = Ok (bind_fingerprint b) /\ bind_pvName b = pvc_VolumeName claim /\
     bind_claimCreated b = om_CreationTimestamp (pvc_meta claim) /\
     bind_pvCreated b = om_CreationTimestamp (pvol_meta pv)).
#[export] Instance volume_read_grows ref b : Grows (volume_read ref b).
Proof. unfold volume_read. grows_tac. Qed.
Definition paths_read (paths : list DataPathIdentity) (bindings : list restoreVolumeBinding) (es : list event) : Prop :=
  Forall2 (fun path b => volume_read (dp_ClaimRef path) b es) paths bindings.
#[export] Instance paths_read_grows p b : Grows (paths_read p b).
Proof. unfold paths_read. grows_tac. Qed.
(** A claim the backup was taken from is not behind any of these volumes. *)
Definition source_apart (candidates : list string) (path : DataPathIdentity) (es : list event) : Prop :=
  exists x, Ev (ApiGet KPersistentVolumeClaim reader (Key namespace (claimName path))) x ∈ es /\
    (x = inl NotFound \/
     exists claim, x = inr claim /\
       (om_UID (pvc_meta claim) <> claimUID path \/
        exists b, volume_read (dp_ClaimRef path) b es /\ bind_fingerprint b ∉ candidates)).
#[export] Instance source_apart_grows c p : Grows (source_apart c p).
Proof. unfold source_apart. grows_tac. Qed.

(** The two worlds are on different claims, volumes and handles, the candidate
    was provisioned for the restore, and shares no handle with the source. *)
Definition isolated (created : Time) (previous candidate sources : list DataPathIdentity) (es : list event) : Prop :=
  exists old new, (paths_read previous old es /\ paths_read candidate new es) /\
    (forall path, path ∈ sources -> source_apart (bind_fingerprint <$> new) path es) /\
    (NoDup (claimName <$> previous ++ candidate) /\ NoDup (bind_pvName <$> old ++ new) /\
     NoDup (bind_fingerprint <$> old ++ new) /\ Forall (fun b => freshly_provisioned created b = true) new).
#[export] Instance isolated_grows t p c s : Grows (isolated t p c s).
Proof. unfold isolated. grows_tac. Qed.

Lemma bound_read ref es b : steps (boundRestoreVolumeFingerprint ref) es (Ok b) -> volume_read ref b es.
Proof.
  unfold boundRestoreVolumeFingerprint. destruct (incomplete_ref ref); [by intros []|].
  intros (es1 & es2 & x & -> & ->%steps_call & Hs)%steps_bind. destruct x as [e|claim]; [by destruct Hs|].
  destruct (claim_bound ref claim) eqn:Hc; cbn [negb] in Hs; [|by destruct Hs].
  apply steps_bind in Hs as (es3 & es4 & x & -> & ->%steps_call & [-> Hs]). destruct x as [e|pv]; [done|].
  destruct (volume_bound_to _ _ _) eqn:Hv; cbn [negb] in Hs; [|done].
  destruct (restoreVolumeSourceFingerprint pv) as [f|] eqn:Hf; [|done]. injection Hs as ->.
  exists claim, pv. split_and!; try done; set_solver.
Qed.

Lemma isolate_path_inv created c seen path es seen' : steps (isolate_path created c seen path) es (Ok seen') ->
  exists b, volume_read (dp_ClaimRef path) b es /\ (c = true -> freshly_provisioned created b = true) /\
    claimName path ∉ seenClaim seen /\ bind_pvName b ∉ seenPV seen /\ bind_fingerprint b ∉ seenSource seen /\
    seen' = MkSeen (claimName path :: seenClaim seen) (bind_pvName b :: seenPV seen) (bind_fingerprint b :: seenSource seen)
              (if c then bind_fingerprint b :: candidateSource seen else candidateSource seen).
Proof.
  unfold isolate_path. case_bool_decide as Hn; [by intros []|].
  intros (es1 & es2 & x & -> & Hb & [-> Hs])%steps_bind. rewrite app_nil_r. destruct x as [b|]; [|done].
  cbn [mbind result_bind] in Hs. destruct (_ && _)%bool eqn:Hf; [done|].
  case_bool_decide as Hp; [done|]. case_bool_decide as Hs'; [done|]. injection Hs as ->.
  apply bound_read in Hb. exists b. split_and!; try done. intros ->. by apply negb_false_iff.
Qed.

Lemma isolate_set_inv created c seen paths es seen' :
  steps (loop_state (isolate_path created c) seen paths) es (Ok seen') ->
  exists bs, paths_read paths bs es /\ (c = true -> Forall (fun b => freshly_provisioned created b = true) bs) /\
    fresh claimName (seenClaim seen) paths /\ fresh bind_pvName (seenPV seen) bs /\
    fresh bind_fingerprint (seenSource seen) bs /\
    seen' = MkSeen (reverse (claimName <$> paths) ++ seenClaim seen) (reverse (bind_pvName <$> bs) ++ seenPV seen)
              (reverse (bind_fingerprint <$> bs) ++ seenSource seen)
              (if c then reverse (bind_fingerprint <$> bs) ++ candidateSource seen else candidateSource seen).
Proof.
  revert seen es. induction paths as [|p paths IH]; intros seen es; cbn [loop_state].
  - intros [-> [= ->]]. exists []. unfold fresh. split_and!; try done; try apply NoDup_nil_2; try constructor;
      try (intros x Hx; by apply not_elem_of_nil in Hx). by destruct seen, c.
  - intros (es1 & es2 & x & -> & Hp & Hs)%steps_bind. destruct x as [seen1|]; [|by destruct Hs].
    apply isolate_path_inv in Hp as (b & Hb & Hf & Hc & Hv & Hfp & ->).
    apply IH in Hs as (bs & Hbs & Hfs & Hcs & Hvs & Hfps & ->). cbn [seenClaim seenPV seenSource candidateSource] in *.
    exists (b :: bs). split_and!.
    + constructor; [grow Hb|]. change (paths_read paths bs (es1 ++ es2)). grow Hbs.
    + intros E. constructor; auto.
    + by apply fresh_cons.
    + by apply fresh_cons.
    + by apply fresh_cons.
    + rewrite !fmap_cons, !reverse_cons, <- !app_assoc. by destruct c.
Qed.

Lemma check_source_path_apart candidates path es : steps (check_source_path candidates path) es None ->
  source_apart candidates path es.
Proof.
  unfold check_source_path. destruct (incomplete_ref _); [by intros []|].
  intros (es1 & es2 & x & -> & ->%steps_call & Hs)%steps_bind. exists x. split; [by left|].
  destruct x as [[|m]|claim]; [by left | by destruct Hs|]. right. exists claim. split; [done|].
  case_bool_decide as Hu; cbn [negb] in Hs; [|by left]. right.
  apply steps_bind in Hs as (es3 & es4 & x & -> & Hb & [-> Hs]). destruct x as [b|e]; [|done].
  case_bool_decide as Hf; [done|]. apply bound_read in Hb. exists b. split; [|done].
  eapply grows; [|exact Hb]. set_solver.
Qed.

Lemma fresh_fmap_app {A} (f : A -> string) (l k : list A) :
  fresh f [] l -> fresh f (reverse (f <$> l)) k -> NoDup (f <$> l ++ k).
Proof.
  intros [Hl _] [Hk Hd]. rewrite fmap_app. apply list.NoDup_app. split_and!; [done| |done].
  intros x Hx (y & -> & Hy)%list_elem_of_fmap. apply (Hd y Hy). by apply elem_of_reverse.
Qed.

Lemma verifyRestoreVolumeIsolation_isolated created previous candidate sources es :
  steps (verifyRestoreVolumeIsolation created previous candidate [sources]) es None ->
  isolated created previous candidate sources es.
Proof.
  unfold verifyRestoreVolumeIsolation. destruct (_ || _)%bool; [by intros []|].
  intros (es1 & es2 & x & -> & Hp & Hs)%steps_bind. destruct x as [seen1|]; [|by destruct Hs].
  apply steps_bind in Hs as (es3 & es4 & x & -> & Hc & Hs). destruct x as [seen2|]; [|by destruct Hs].
  apply isolate_set_inv in Hp as (old & Hold & _ & Hc1 & Hv1 & Hf1 & ->).
  apply isolate_set_inv in Hc as (new & Hnew & Hfresh & Hc2 & Hv2 & Hf2 & ->).
  cbn [seenClaim seenPV seenSource candidateSource] in *. rewrite !app_nil_r in *.
  exists old, new. split; [split; [grow Hold | grow Hnew]|]. split.
  - intros path Hin. destruct (loop_none_each _ _ _ Hs sources ltac:(by left)) as (es5 & Hsub & Hs5).
    destruct (negb _); [by destruct Hs5|]. destruct (loop_none_each _ _ _ Hs5 path Hin) as (es6 & Hsub' & Hs6).
    apply check_source_path_apart in Hs6 as (x & Hx & H). exists x. split; [set_solver|].
    destruct H as [?|(claim & -> & H)]; [by left|]. right. exists claim. split; [done|].
    destruct H as [?|(b & Hb & Hn)]; [by left|]. right. exists b. split.
    + eapply grows; [|exact Hb]. set_solver.
    + by rewrite elem_of_reverse in Hn.
  - split_and!; [by apply fresh_fmap_app..|by apply Hfresh].
Qed.

Lemma reads_boundRestoreVolumeFingerprint ref : reads_only (boundRestoreVolumeFingerprint ref).
Proof. unfold boundRestoreVolumeFingerprint. reads_tac. Qed.
Lemma reads_verifyRestoreVolumeIsolation created previous candidate sources :
  reads_only (verifyRestoreVolumeIsolation created previous candidate sources).
Proof.
  pose proof reads_boundRestoreVolumeFingerprint as Hb. unfold reads_only in Hb.
  unfold verifyRestoreVolumeIsolation, isolate_path, check_source_path. reads_tac; apply Hb.
Qed.
End Isolation.

(** Distinct fingerprints are distinct volumes. *)
Lemma fingerprint_volume pv pv' f f' : restoreVolumeSourceFingerprint pv = Ok f ->
  restoreVolumeSourceFingerprint pv' = Ok f' -> f <> f' -> pvol_CSI pv <> pvol_CSI pv'.
Proof. unfold restoreVolumeSourceFingerprint. intros E E' Hne Heq. rewrite Heq in E. congruence. Qed.
