(* ===== verification/RestoreCandidates.v ===== *)
(** * Provisioning the candidate world

    [reconcileRestoreCandidates] of
    [internal/controller/gamerestore_controller.go]: for every claim of the
    plan one fresh claim, under a name derived from the restore's UID and
    labelled with the candidate identity, created at most one per pass, never
    a claim or a volume of the previous world.  [candidates_bound] is what a
    complete pass has read. *)

From Stdlib Require Import Ascii.
From stdpp Require Import base tactics list strings gmap numbers.
From S2P Require Import Prelude GoStrings K8s ApiTypes DataOperation Operations GameDefinition KubeObjects KubePlan KubeApi TraceLogic WorkerInput KubeDestroy OperationFence WorkerPods ServerController KubeRestore BackupController RestoreStatus RestoreSource.
Open Scope string_scope.
Open Scope list_scope.

(** The claims of the previous world: volumes, names and UIDs. *)
Record previous_world := MkPrevious {
  previousVolumes : list string;
  previousNames : list string;
  previousUIDs : list string }.

Definition claim_name_of (claim : PersistentVolumeClaim) : string := om_Name (pvc_meta claim).
Definition claim_uid_of (claim : PersistentVolumeClaim) : string := om_UID (pvc_meta claim).

(** The new claim for a planned one: a copy without identity and owners. *)
Definition candidate_claim (o : GameRestore) (identity name : string) (planned : PersistentVolumeClaim) :
    PersistentVolumeClaim :=
  let m := pvc_meta planned in
  MkPVC (pvc_TypeMeta planned)
    (MkObjectMeta name (om_Namespace m) "" (om_Generation m) "" (om_CreationTimestamp m) (om_DeletionTimestamp m)
       (om_Finalizers m) (<[LabelRestoreUID := gr_UID o]> (<[LabelDataIdentity := identity]> (om_Labels m)))
       (om_Annotations m) [])
    (pvc_AccessModes planned) (pvc_StorageClassName planned) (pvc_StorageRequest planned) ""
    (pvc_Phase planned) (pvc_Capacity planned).

(** The stored claim is the one the restore created for the path. *)
Definition own_candidate (o : GameRestore) (identity : string) (desired actual : PersistentVolumeClaim) : bool :=
  (claim_label actual LabelRestoreUID == gr_UID o) && (claim_label actual LabelDataIdentity == identity) &&
  is_ok (validateExistingDataClaim actual (MkClaimPlan desired (claim_uid_of actual) false)) &&
  (claim_uid_of actual != "").
Definition aliases_previous (world : previous_world) (actual : PersistentVolumeClaim) : bool :=
  bool_decide (claim_uid_of actual ∈ previousUIDs world) ||
  ((pvc_VolumeName actual != "") && bool_decide (pvc_VolumeName actual ∈ previousVolumes world)).
Definition candidate_bound (actual : PersistentVolumeClaim) : bool :=
  (pvc_Phase actual == "Bound") && (pvc_VolumeName actual != "").
(** Once candidates are recorded, they stay the recorded ones. *)
Definition still_recorded (o : GameRestore) (path : string) (actual : PersistentVolumeClaim) : bool :=
  match rs_CandidateData (gr_Status o) with
  | [] => true
  | recorded =>
      match restorePathByName recorded path with
      | Some p => (claimName p == claim_name_of actual) && (claimUID p == claim_uid_of actual)
      | None => false
      end
  end.
(** Every listed claim of the candidate identity is one of the selection. *)
Definition expected_claim (selection : list DataPathIdentity) (claim : PersistentVolumeClaim) : bool :=
  match restorePathByName selection (claim_label claim LabelDataPath) with
  | Some path => (claimName path == claim_name_of claim) && (claimUID path == claim_uid_of claim)
  | None => false
  end.

(** [nil, false, err], [nil, false, nil], or the selection and [ready]. *)
Abbreviation provisioning := (error + option (list DataPathIdentity * bool))%type.

Section Candidates.
Context `{RegexpEngine} `{NameValidation} `{JsonSchema}.
Variable r : GameRestoreReconciler.
Local Abbreviation rd := (directRestoreReader r).

(** [!now.Before(fence.EstablishedAt.Add(restoreProvisioningTimeout))] *)
Definition restoreProvisioningExpired (o : GameRestore) : prog bool :=
  match ds_Fence (rdata o) with
  | None => Ret false
  | Some fence =>
      now ← nowRestore;
      Ret (fence_EstablishedAt fence + restoreProvisioningTimeout <=? now)%Z
  end.

Fixpoint read_previous (o : GameRestore) (paths : list DataPathIdentity) (world : previous_world) :
    prog (option previous_world) :=
  match paths with
  | [] => Ret (Some world)
  | path :: rest =>
      claim ← restore_get r KPersistentVolumeClaim o (claimName path);
      match claim with
      | inl _ => Ret None
      | inr claim =>
          if (claim_uid_of claim != claimUID path) || (pvc_VolumeName claim == "") then Ret None
          else read_previous o rest (MkPrevious (pvc_VolumeName claim :: previousVolumes world)
                 (claim_name_of claim :: previousNames world) (claim_uid_of claim :: previousUIDs world))
      end
  end.

(** What one planned claim comes to: an error, a pass that has to wait, or the
    candidate found, and whether it is bound. *)
Inductive candidate_step := CandidateError (m : string) | CandidateWait | CandidateFound (path : DataPathIdentity) (bound : bool).

Definition check_candidate (o : GameRestore) (s : restoreSubject) (world : previous_world) (desired : PersistentVolumeClaim)
    (path : string) (actual : PersistentVolumeClaim) : candidate_step :=
  if negb (own_candidate o (rsub_candidateIdentity s) desired actual)
  then CandidateError "candidate claim collides with foreign or changed retained data"
  else if (quantity (pvc_StorageRequest actual) <? quantity (pvc_StorageRequest desired))%Z
  then CandidateError "candidate claim is smaller than the certified target path"
  else if aliases_previous world actual then CandidateError "candidate storage aliases previous-world PVC or PV"
  else if negb (still_recorded o path actual)
  then CandidateError "candidate claim changed after its exact identity was recorded"
  else CandidateFound (MkPath path (subjectPathMount (rsub_targetPaths s) path)
         (MkRef None (claim_name_of actual) (claim_uid_of actual))) (candidate_bound actual).

Definition provision_candidate (o : GameRestore) (s : restoreSubject) (world : previous_world) (planned : DataClaimPlan) :
    prog candidate_step :=
  let path := claim_label (Desired planned) LabelDataPath in
  match RestoreCandidateID (gr_UID o) path with
  | Err _ => Ret (CandidateError "derive deterministic restore candidate name failed")
  | Ok name =>
      if bool_decide (name ∈ previousNames world) then Ret (CandidateError "candidate claim name aliases previous world")
      else
        let desired := candidate_claim o (rsub_candidateIdentity s) name (Desired planned) in
        actual ← call (ApiGet KPersistentVolumeClaim rd (key_of (pvc_meta desired)));
        match actual with
        | inl NotFound =>
            if isSome (head (rs_CandidateData (gr_Status o)))
            then Ret (CandidateError "previously recorded candidate claim disappeared")
            else
              expired ← restoreProvisioningExpired o;
              if (expired : bool) then Ret CandidateWait
              else
                e ← call (ApiCreate KPersistentVolumeClaim desired);
                Ret (match (e : apierr + PersistentVolumeClaim) with
                     | inl _ => CandidateError "create isolated restore candidate claim failed"
                     | inr _ => CandidateWait
                     end)
        | inl _ => Ret (CandidateError "inspect restore candidate claim failed")
        | inr actual => Ret (check_candidate o s world desired path actual)
        end
  end.

Fixpoint provision_all (o : GameRestore) (s : restoreSubject) (world : previous_world) (claims : list DataClaimPlan)
    (selection : list DataPathIdentity) (ready : bool) : prog provisioning :=
  match claims with
  | [] => Ret (inr (Some (selection, ready)))
  | planned :: rest =>
      step ← provision_candidate o s world planned;
      match (step : candidate_step) with
      | CandidateError m => Ret (inl (ErrorsNew m))
      | CandidateWait => Ret (inr None)
      | CandidateFound path bound => provision_all o s world rest (selection ++ [path]) (ready && bound)
      end
  end.

(** The selection is the whole candidate identity. *)
Definition complete_identity (s : restoreSubject) (l : list PersistentVolumeClaim) (selection : list DataPathIdentity)
    (ready : bool) : provisioning :=
  if len l != len (DataClaims (rsub_plan s))
  then inl (ErrorsNew "candidate data identity has missing or extra claims")
  else if negb (forallb (expected_claim selection) l)
  then inl (ErrorsNew "candidate data identity contains an unexpected claim")
  else inr (Some (sort_paths selection, ready)).

(** The exact cold target and the verified preflight. *)
Definition candidates_allowed (o : GameRestore) (s : restoreSubject) : bool :=
  match ds_Fence (rdata o) with
  | None => false
  | Some fence =>
      isSome (rs_PreflightVerifiedAt (gr_Status o)) &&
      (gs_DesiredState (gs_Spec (rsub_server s)) == DesiredStateStopped) &&
      (gs_Generation (rsub_server s) == gsr_Generation (fence_GameServer fence))
  end.

Definition reconcileRestoreCandidates (o : GameRestore) (s : restoreSubject) : prog provisioning :=
  if negb (candidates_allowed o s)
  then Ret (inl (ErrorsNew "candidate claims require exact cold target fence and verified preflight"))
  else
    world ← read_previous o (rs_PreviousData (gr_Status o)) (MkPrevious [] [] []);
    match (world : option previous_world) with
    | None => Ret (inl (ErrorsNew "previous-world claim identity changed during candidate provisioning"))
    | Some world =>
        found ← provision_all o s world (DataClaims (rsub_plan s)) [] true;
        match (found : provisioning) with
        | inr (Some (selection, ready)) =>
            claims ← call (ApiList KPersistentVolumeClaim rd (Some (gr_Namespace o))
                       (<[LabelDataIdentity := rsub_candidateIdentity s]> ∅));
            Ret (match claims with
                 | inl _ => inl (ErrorsNew "list complete candidate data identity failed")
                 | inr l => complete_identity s (Items l) selection ready
                 end)
        | other => Ret other
        end
    end.

(** ** What was read *)

(** A claim of the recorded previous world, on its volume. *)
Definition previous_read (o : GameRestore) (path : DataPathIdentity) (volume : string) (es : list event) : Prop :=
  exists claim, Ev (ApiGet KPersistentVolumeClaim rd (Key (gr_Namespace o) (claimName path))) (inr claim) ∈ es /\
    (claim_uid_of claim = claimUID path /\ pvc_VolumeName claim = volume).
#[export] Instance previous_read_grows o p v : Grows (previous_read o p v).
Proof. unfold previous_read. grows_tac. Qed.
Definition previous_known (o : GameRestore) (world : previous_world) (es : list event) : Prop :=
  forall path, path ∈ rs_PreviousData (gr_Status o) ->
    exists volume, previous_read o path volume es /\
      (volume ∈ previousVolumes world /\ claimUID path ∈ previousUIDs world).
#[export] Instance previous_known_grows o w : Grows (previous_known o w).
Proof. unfold previous_known. grows_tac. Qed.

(** The candidate of one planned claim. *)
Definition candidate_read (o : GameRestore) (s : restoreSubject) (planned : DataClaimPlan) (path : DataPathIdentity)
    (es : list event) : Prop :=
  exists name actual,
    Ev (ApiGet KPersistentVolumeClaim rd
          (key_of (pvc_meta (candidate_claim o (rsub_candidateIdentity s) name (Desired planned))))) (inr actual) ∈ es /\
    (RestoreCandidateID (gr_UID o) (dp_Name path) = Ok name /\
     dp_Name path = claim_label (Desired planned) LabelDataPath /\
     dp_ClaimRef path = MkRef None (claim_name_of actual) (claim_uid_of actual) /\
     own_candidate o (rsub_candidateIdentity s) (candidate_claim o (rsub_candidateIdentity s) name (Desired planned)) actual = true /\
     still_recorded o (dp_Name path) actual = true /\
     candidate_bound actual = true) /\
    forall previous, previous ∈ rs_PreviousData (gr_Status o) -> exists volume, previous_read o previous volume es /\
      (claim_uid_of actual <> claimUID previous /\ pvc_VolumeName actual <> volume).
#[export] Instance candidate_read_grows o s p d : Grows (candidate_read o s p d).
Proof. unfold candidate_read. grows_tac. Qed.

(** Every planned claim has its candidate, bound and apart from the previous
    world, and the candidate identity has no other claim. *)
Definition candidates_bound (o : GameRestore) (s : restoreSubject) (paths : list DataPathIdentity) (es : list event) : Prop :=
  exists selection claims,
    Forall2 (fun planned path => candidate_read o s planned path es) (DataClaims (rsub_plan s)) selection /\
    Ev (ApiList KPersistentVolumeClaim rd (Some (gr_Namespace o)) (<[LabelDataIdentity := rsub_candidateIdentity s]> ∅))
       (inr claims) ∈ es /\
    (candidates_allowed o s = true /\ paths = sort_paths selection /\
     forall claim, claim ∈ Items claims -> expected_claim selection claim = true).
#[export] Instance candidates_bound_grows o s p : Grows (candidates_bound o s p).
Proof. unfold candidates_bound. grows_tac. Qed.

Lemma read_previous_keep o paths world es world' : steps (read_previous o paths world) es (Some world') ->
  (forall v, v ∈ previousVolumes world -> v ∈ previousVolumes world') /\
  (forall u, u ∈ previousUIDs world -> u ∈ previousUIDs world').
Proof.
  revert world es. induction paths as [|p paths IH]; intros world es; cbn [read_previous].
  - intros [_ [= ->]]. done.
  - unfold restore_get. intros (es1 & es2 & x & -> & ->%steps_call & Hs)%steps_bind.
    destruct x as [e|claim]; [by destruct Hs|]. destruct (_ || _)%bool; [by destruct Hs|].
    apply IH in Hs as [Hv Hu]. cbn in *. split; intros; [apply Hv | apply Hu]; by right.
Qed.
Lemma read_previous_known o paths world es world' : steps (read_previous o paths world) es (Some world') ->
  forall path, path ∈ paths -> exists volume, previous_read o path volume es /\
    (volume ∈ previousVolumes world' /\ claimUID path ∈ previousUIDs world').
Proof.
  revert world es. induction paths as [|p paths IH]; intros world es; cbn [read_previous].
  - intros _ path Hin. by apply not_elem_of_nil in Hin.
  - unfold restore_get. intros (es1 & es2 & x & -> & ->%steps_call & Hs)%steps_bind path Hin.
    destruct x as [e|claim]; [by destruct Hs|]. destruct (_ || _)%bool eqn:E; [by destruct Hs|].
    apply orb_false_iff in E as [Hu%negb_false_iff _]. apply bool_decide_eq_true in Hu.
    apply elem_of_cons in Hin as [->|Hin].
    + destruct (read_previous_keep _ _ _ _ _ Hs) as [Hv Hus]. exists (pvc_VolumeName claim). split.
      * exists claim. split; [by left | done].
      * split; [apply Hv; by left | apply Hus; rewrite <- Hu; by left].
    + destruct (IH _ _ Hs path Hin) as (v & Hr & ?). exists v. split; [grow Hr | done].
Qed.

Lemma check_candidate_found o s world desired path actual found bound :
  check_candidate o s world desired path actual = CandidateFound found bound ->
  own_candidate o (rsub_candidateIdentity s) desired actual = true /\ aliases_previous world actual = false /\
  still_recorded o path actual = true /\ dp_Name found = path /\
  dp_ClaimRef found = MkRef None (claim_name_of actual) (claim_uid_of actual) /\ bound = candidate_bound actual.
Proof.
  unfold check_candidate. destruct (own_candidate _ _ _ _) eqn:Ho; cbn [negb]; [|done].
  destruct (_ <? _)%Z; [done|]. destruct (aliases_previous _ _) eqn:Ha; [done|].
  destruct (still_recorded _ _ _) eqn:Hr; cbn [negb]; [|done]. by intros [= <- <-].
Qed.

Lemma provision_candidate_read o s world planned es path pre : previous_known o world pre ->
  steps (provision_candidate o s world planned) es (CandidateFound path true) ->
  candidate_read o s planned path (pre ++ es).
Proof.
  intros Hw. unfold provision_candidate. cbv zeta. destruct (RestoreCandidateID _ _) as [name|] eqn:Hid; [|by intros []].
  case_bool_decide; [by intros []|]. intros (es1 & es2 & x & -> & ->%steps_call & Hs)%steps_bind.
  destruct x as [[|m]|actual]; [|by destruct Hs|].
  - exfalso. destruct (isSome _); [by destruct Hs|]. apply steps_bind in Hs as (? & ? & [] & _ & _ & Hs); [by destruct Hs|].
    apply steps_bind in Hs as (? & ? & [] & _ & _ & [_ Hs]); done.
  - destruct Hs as [-> Hs]. symmetry in Hs. apply check_candidate_found in Hs as (Ho & Ha & Hr & Hn & Hc & Hb).
    apply orb_false_iff in Ha as [Ha1%bool_decide_eq_false Ha2]. subst.
    exists name, actual. split; [set_solver|]. split; [by rewrite Hn|].
    intros previous Hin. destruct (Hw previous Hin) as (v & Hv & Hvol & Hu). exists v. split; [grow Hv|].
    split; [intros E; by rewrite E in Ha1|]. intros <-. symmetry in Hb. apply andb_true_iff in Hb as [_ Hb].
    rewrite Hb in Ha2. cbn in Ha2. by apply bool_decide_eq_false in Ha2.
Qed.

Lemma provision_all_read o s world claims selection ready es paths pre : previous_known o world pre ->
  steps (provision_all o s world claims selection ready) es (inr (Some (paths, true))) ->
  ready = true /\ exists new, paths = selection ++ new /\
    Forall2 (fun planned path => candidate_read o s planned path (pre ++ es)) claims new.
Proof.
  revert selection ready es pre. induction claims as [|planned claims IH]; intros selection ready es pre Hw; cbn [provision_all].
  - intros [-> [= -> ->]]. split; [done|]. exists []. split; [by rewrite app_nil_r | constructor].
  - intros (es1 & es2 & x & -> & Hp & Hs)%steps_bind. destruct x as [m| |path bound]; [by destruct Hs..|].
    apply IH with (pre := pre ++ es1) in Hs as (Hr & new & -> & HF); [|grow Hw]. rewrite andb_true_iff in Hr. destruct Hr as [-> ->].
    split; [done|]. exists (path :: new). split; [by rewrite <- app_assoc|]. rewrite <- app_assoc in HF.
    constructor; [|exact HF]. apply (provision_candidate_read _ _ _ _ _ _ _ Hw) in Hp. grow Hp.
Qed.

Lemma reconcileRestoreCandidates_bound o s es paths :
  steps (reconcileRestoreCandidates o s) es (inr (Some (paths, true))) -> candidates_bound o s paths es.
Proof.
  unfold reconcileRestoreCandidates. destruct (candidates_allowed o s) eqn:Hal; cbn [negb]; [|by intros []].
  intros (es1 & es2 & x & -> & Hw & Hs)%steps_bind. destruct x as [world|]; [|by destruct Hs].
  assert (previous_known o world es1) as Hk by (intros path; by apply (read_previous_known _ _ _ _ _ Hw)).
  apply steps_bind in Hs as (es3 & es4 & x & -> & Hp & Hs). destruct x as [e|[[selection ready]|]]; [by destruct Hs| |by destruct Hs].
  apply steps_bind in Hs as (es5 & es6 & x & -> & ->%steps_call & [-> Hs]). destruct x as [e|l]; [done|].
  unfold complete_identity in Hs. destruct (negb _) in Hs; [done|]. destruct (forallb _ _) eqn:Hf; cbn [negb] in Hs; [|done].
  injection Hs as -> <-. apply (provision_all_read _ _ _ _ _ _ _ _ es1 Hk) in Hp as (_ & new & -> & HF).
  exists new, l. rewrite app_nil_l in *. split_and!.
  - eapply Forall2_impl; [|exact HF]. intros d p Hc. grow Hc.
  - set_solver.
  - done.
  - done.
  - rewrite forallb_forall in Hf. intros claim Hin%list_elem_of_In. by apply Hf.
Qed.

End Candidates.
