(* ===== verification/RestoreWorker.v ===== *)
(** * The workers of a restore

    The part of [internal/controller/gamerestore_controller.go] that runs one
    bounded worker for a stage: its input, authority and Job, the gate of its
    Pod, its result, and its removal.

    Parameter: the strict JSON decoding of a worker's termination message
    ([ResultDecoder]). *)

From Stdlib Require Import Ascii.
From stdpp Require Import base tactics list strings gmap numbers.
From S2P Require Import Prelude GoStrings K8s ApiTypes DataOperation Operations GameDefinition KubeObjects KubePlan KubeApi TraceLogic WorkerInput KubeDestroy OperationFence WorkerPods ServerController KubeRestore BackupController RestoreStatus RestoreSource.
Open Scope string_scope.
Open Scope list_scope.

Inductive restoreWorkerOutcome :=
| restoreWorkerPending | restoreWorkerSucceeded (result : Result) | restoreWorkerFailed.

Definition restoreControlledBy (o : GameRestore) (m : ObjectMeta) : bool :=
  controlledBy (om_OwnerReferences m) "GameRestore" (gr_Name o) (gr_UID o).

(** ** The worker's Pods *)

(** A Pod of the stage: by its labels, or by a Job owner of the stage's name. *)
Definition stage_pod (o : GameRestore) (stage : Stage) (pod : Pod) : bool :=
  let m := pod_meta pod in
  (mget (om_Labels m) LabelRestoreUID == gr_UID o) && (mget (om_Labels m) LabelRestoreStage == Stage_string stage) ||
  existsb (fun owner => (own_APIVersion owner == "batch/v1") && (own_Kind owner == "Job") &&
                        (own_Name owner == RestoreResourceName (gr_UID o) stage)) (om_OwnerReferences m).

Definition restorePodIdentityMatches (job : Job) (pod : Pod) : bool :=
  let m := pod_meta pod in
  if (om_UID (job_meta job) == "") || (om_UID m == "") || (om_Namespace m != om_Namespace (job_meta job)) ||
     deleting m || (len (om_OwnerReferences m) != 1%Z) ||
     negb (controlledBy (om_OwnerReferences m) "Job" (om_Name (job_meta job)) (om_UID (job_meta job))) ||
     (om_Labels m != job_TemplateLabels (job_Spec job))
  then false
  else workerPodAnnotationsMatch (om_Annotations m) (job_TemplateAnnotations (job_Spec job))
         AnnotationRestorePodAuthorized.
Definition restorePodSpecMatches (job : Job) (pod : Pod) : bool :=
  (pod_SchedulingGates (pod_Spec pod) == [RestoreSchedulingGate]) &&
  (normalizeBackupPodDefaults (job_TemplateSpec (job_Spec job)) == normalizeBackupPodDefaults (pod_Spec pod)).
Definition restore_authorized_uid (pod : Pod) : string :=
  mget (om_Annotations (pod_meta pod)) AnnotationRestorePodAuthorized.
Definition restore_authorized (pod : Pod) : Pod :=
  MkPod
    (with_annotations (pod_meta pod)
       (<[AnnotationRestorePodAuthorized := om_UID (pod_meta pod)]> (om_Annotations (pod_meta pod))))
    (ungated (pod_Spec pod)) (pod_Phase pod) (pod_InitContainerStatuses pod) (pod_ContainerStatuses pod).

Section Results.
Context `{ResultDecoder}.

Inductive restore_report := ReportPending | ReportInvalid (m : string) | ReportOk (result : Result).

(** The first successful [restore-worker] container decides. *)
Definition restore_success (c : ContainerStatus) : option string :=
  match cs_Terminated c with
  | Some (code, message) => if (cs_Name c == "restore-worker") && (code == 0%Z) then Some message else None
  | None => None
  end.
Definition report_of (job : Job) (pods : list Pod) : restore_report :=
  match pods with
  | [pod] =>
      if negb (restorePodIdentityMatches job pod) || (restore_authorized_uid pod != om_UID (pod_meta pod))
      then ReportInvalid "restore result Pod was not exactly authorized"
      else match head (omap restore_success (pod_ContainerStatuses pod)) with
      | None => ReportPending
      | Some message =>
          match DecodeResult message with
          | Some result => ReportOk result
          | None => ReportInvalid "restore worker result is invalid"
          end
      end
  | _ => ReportPending
  end.

(** The report is the one the input asks for. *)
Definition report_matches (input : Input) (result : Result) : bool :=
  (wr_Stage result == in_Stage input) && (wr_ArtifactID result == art_ID (in_Artifact input)) &&
  (wr_ManifestDigest result == art_ManifestDigest (in_Artifact input)) &&
  (wr_PathCount result == int32 (len (src_Paths (in_Source input)))) &&
  (wr_Version result == ResultVersion) && negb (IsZero (wr_VerifiedAt result)).
End Results.

(** The stored Job is the built one, suspended or running. *)
Definition restore_job_unchanged (o : GameRestore) (desired existing : Job) : bool :=
  restoreControlledBy o (job_meta existing) && (om_Labels (job_meta existing) == om_Labels (job_meta desired)) &&
  (om_Annotations (job_meta existing) == om_Annotations (job_meta desired)) &&
  backupJobSpecMatches (expected_job desired existing) existing.

Section Worker.
Context `{NameValidation} `{TimeText} `{ResultDecoder}.
Variable r : GameRestoreReconciler.
Local Abbreviation rd := (directRestoreReader r).

Definition listRestoreStagePods (o : GameRestore) (stage : Stage) : prog (option (list Pod)) :=
  all ← call (ApiList KPod rd (Some (gr_Namespace o)) ∅);
  Ret (match all with
       | inl _ => None
       | inr l => if RestoreResourceName (gr_UID o) stage == "" then None
                  else Some (List.filter (stage_pod o stage) (Items l))
       end).

(** ** Input, authority and Job *)

Definition reconcileRestoreInput (o : GameRestore) (desired : ConfigMap) : prog (option cerror) :=
  existing ← call (ApiGet KConfigMap rd (key_of (cm_meta desired)));
  match existing with
  | inl NotFound =>
      e ← call (ApiCreate KConfigMap desired);
      Ret (match (e : apierr + ConfigMap) with
           | inl _ => Some (go_error "create immutable restore worker input failed")
           | inr _ => None
           end)
  | inl _ => Ret (Some (go_error "inspect immutable restore worker input failed"))
  | inr existing =>
      Ret (if negb (restoreControlledBy o (cm_meta existing)) ||
              (om_Labels (cm_meta existing) != om_Labels (cm_meta desired)) || (cm_Data existing != cm_Data desired) ||
              (cm_Immutable existing != Some true)
           then Some (go_error "restore worker input collides with a foreign or changed ConfigMap") else None)
  end.

(** One object of [reconcileRestoreAuthority]: whether it was created. *)
Definition ensure_restore_authority {A} (o : GameRestore) (k : kind A) (desired : A) (unchanged : A -> bool)
    (inspect create collides : string) : prog (cerror + bool) :=
  existing ← call (ApiGet k rd (key_of (object_meta k desired)));
  match existing with
  | inl NotFound =>
      e ← call (ApiCreate k desired);
      Ret (match (e : apierr + A) with inl _ => inl (go_error create) | inr _ => inr true end)
  | inl _ => Ret (inl (go_error inspect))
  | inr existing =>
      Ret (if negb (restoreControlledBy o (object_meta k existing)) ||
              (om_Labels (object_meta k existing) != om_Labels (object_meta k desired)) || negb (unchanged existing)
           then inl (go_error collides) else inr false)
  end.
Definition reconcileRestoreAuthority (o : GameRestore) (resources : RestoreResources) : prog (cerror + bool) :=
  bind_error (ensure_restore_authority o KServiceAccount (rk_ServiceAccount resources)
    (fun a => sa_AutomountServiceAccountToken a == Some false)
    "inspect restore ServiceAccount failed" "create restore ServiceAccount failed"
    "restore ServiceAccount collides with foreign or changed authority") (fun c1 =>
  bind_error (ensure_restore_authority o KRole (rk_Role resources)
    (fun a => role_Rules a == role_Rules (rk_Role resources))
    "inspect restore Role failed" "create scoped restore Role failed"
    "restore Role collides with foreign or broadened authority") (fun c2 =>
  bind_error (ensure_restore_authority o KRoleBinding (rk_RoleBinding resources)
    (fun a => (rb_Subjects a == rb_Subjects (rk_RoleBinding resources)) &&
              (rb_RoleRef a == rb_RoleRef (rk_RoleBinding resources)))
    "inspect restore RoleBinding failed" "create scoped restore RoleBinding failed"
    "restore RoleBinding collides with foreign or changed authority") (fun c3 =>
  Ret (inr (c1 || c2 || c3))))).

Definition reconcileRestoreJob (o : GameRestore) (stage : Stage) (desired : Job) : prog (cerror + Job * bool) :=
  existing ← call (ApiGet KJob rd (key_of (job_meta desired)));
  match existing with
  | inl NotFound =>
      pods ← listRestoreStagePods o stage;
      match (pods : option (list Pod)) with
      | None => Ret (inl (go_error "inspect orphaned restore Pods failed"))
      | Some pods =>
          if len pods != 0%Z
          then Ret (inl (go_error "prior restore worker Pod remains; no replacement Job may start"))
          else
            created ← call (ApiCreate KJob desired);
            Ret (match (created : apierr + Job) with
                 | inl _ => inl (go_error "create bounded restore worker Job failed")
                 | inr _ => inr (desired, true)
                 end)
      end
  | inl _ => Ret (inl (go_error "inspect bounded restore Job failed"))
  | inr existing =>
      Ret (if restore_job_unchanged o desired existing then inr (existing, false)
           else inl (go_error "restore worker Job collides with foreign or changed execution spec"))
  end.

(** ** The gate of the worker Pod *)

Definition authorizeRestoreWorkerPod (o : GameRestore) (stage : Stage) (job : Job) : prog (cerror + backupPodState) :=
  pods ← listRestoreStagePods o stage;
  match (pods : option (list Pod)) with
  | None => Ret (inl (go_error "inspect exact restore Pod failed"))
  | Some [] => Ret (inr backupPodPending)
  | Some [pod] =>
      if negb (restorePodIdentityMatches job pod) then Ret (inr backupPodChanged)
      else if restore_authorized_uid pod != "" then
        Ret (inr (if (restore_authorized_uid pod != om_UID (pod_meta pod)) ||
                     (len (pod_SchedulingGates (pod_Spec pod)) != 0%Z)
                  then backupPodChanged else backupPodAuthorized))
      else if negb (pod_unstarted pod) || negb (restorePodSpecMatches job pod) then Ret (inr backupPodChanged)
      else
        e ← call (ApiUpdate KPod (restore_authorized pod));
        Ret (match e with
             | Some _ => inl (go_error "authorize exact gated restore Pod failed")
             | None => inr backupPodPending
             end)
  | Some _ => Ret (inr backupPodOverlap)
  end.

Definition restoreWorkerResult (o : GameRestore) (stage : Stage) (job : Job) : prog restore_report :=
  pods ← listRestoreStagePods o stage;
  Ret (match (pods : option (list Pod)) with
       | None => ReportInvalid "inspect restore result Pod failed"
       | Some pods => report_of job pods
       end).

(** ** One pass over a worker *)

(** Failed once the grace after completion is over. *)
Definition pending_in_grace (job : Job) : prog (cerror + restoreWorkerOutcome) :=
  now ← nowRestore;
  Ret (inr (if restoreWorkerResultGraceExpired job now then restoreWorkerFailed else restoreWorkerPending)).

Definition conclude_worker (o : GameRestore) (input : Input) (job : Job) : prog (cerror + restoreWorkerOutcome) :=
  report ← restoreWorkerResult o (in_Stage input) job;
  match (report : restore_report) with
  | ReportPending => pending_in_grace job
  | ReportInvalid _ => Ret (inr restoreWorkerFailed)
  | ReportOk result =>
      Ret (inr (if report_matches input result then restoreWorkerSucceeded result else restoreWorkerFailed))
  end.

Definition supervise_restore (o : GameRestore) (input : Input) (job : Job) : prog (cerror + restoreWorkerOutcome) :=
  if job_Suspend (job_Spec job) != Some false then
    e ← call (ApiUpdate KJob (set_suspend job false));
    Ret (match e with
         | Some _ => inl (go_error "activate validated restore Job failed")
         | None => inr restoreWorkerPending
         end)
  else if jobFailed job then Ret (inr restoreWorkerFailed)
  else
    podState ← authorizeRestoreWorkerPod o (in_Stage input) job;
    match (podState : cerror + backupPodState) with
    | inl e => Ret (inl e)
    | inr backupPodOverlap | inr backupPodChanged => Ret (inl (go_error
        "restore worker Pod admission or execution identity changed; leave it gated and inspect exact ownership"))
    | inr backupPodPending => pending_in_grace job
    | inr backupPodAuthorized =>
        if negb (jobComplete job) then pending_in_grace job else conclude_worker o input job
    end.

(** The populate Job's UID is recorded while the Job is still suspended. *)
Definition journal_job (o : GameRestore) (job : Job) : prog (cerror + restoreWorkerOutcome) :=
  if (om_UID (job_meta job) == "") || (job_Suspend (job_Spec job) != Some true)
  then Ret (inr restoreWorkerFailed)
  else
    e ← writeRestoreStatus o (restore_phase o) (fun s =>
      Ret (set_rs_Populate s (rs_PopulateAttempts s) (rs_PopulateRetryPending s) (om_UID (job_meta job))));
    Ret (match (e : option cerror) with Some e => inl e | None => inr restoreWorkerPending end).

(** The recorded populate Job must still be the stored one. *)
Definition journaled_job_lost (o : GameRestore) (stage : Stage) : prog (cerror + bool) :=
  if (stage == StagePopulate) && (rs_PopulateJobUID (gr_Status o) != "") then
    existing ← restore_get r KJob o (RestoreResourceName (gr_UID o) stage);
    Ret (match existing with
         | inl NotFound => inr true
         | inl _ => inl (go_error "inspect journaled restore worker Job failed")
         | inr existing => inr (om_UID (job_meta existing) != rs_PopulateJobUID (gr_Status o))
         end)
  else Ret (inr false).

Definition runRestoreWorker (o : GameRestore) (input : Input) (identity : RuntimeIdentity) :
    prog (cerror + restoreWorkerOutcome) :=
  bind_error (journaled_job_lost o (in_Stage input)) (fun lost =>
  if (lost : bool) then Ret (inr restoreWorkerFailed)
  else match BuildRestoreResources (Some o) input (rr_WorkerImage r) identity with
  | Err _ => Ret (inl (go_error "build bounded restore worker failed; inspect controller configuration"))
  | Ok resources =>
      e ← reconcileRestoreInput o (rk_Input resources);
      match (e : option cerror) with
      | Some e => Ret (inl e)
      | None =>
          bind_error (reconcileRestoreAuthority o resources) (fun changed =>
          bind_error (reconcileRestoreJob o (in_Stage input) (rk_Job resources)) (fun '(job, created) =>
          if changed || created then Ret (inr restoreWorkerPending)
          else if in_Stage input == StagePopulate then
            if rs_PopulateJobUID (gr_Status o) == "" then journal_job o job
            else if om_UID (job_meta job) != rs_PopulateJobUID (gr_Status o) then Ret (inr restoreWorkerFailed)
            else supervise_restore o input job
          else supervise_restore o input job))
      end
  end).

(** ** Removing a worker *)

(** One object of the stage's authority: [None] when there is none. *)
Definition delete_stage_object {A} (o : GameRestore) (stage : Stage) (k : kind A) (name inspect foreign remove : string) :
    prog (option (cerror + bool)) :=
  object ← restore_get r k o name;
  match object with
  | inl NotFound => Ret None
  | inl _ => Ret (Some (inl (go_error inspect)))
  | inr object =>
      if negb (restoreControlledBy o (object_meta k object)) ||
         (mget (om_Labels (object_meta k object)) LabelRestoreStage != Stage_string stage)
      then Ret (Some (inl (go_error foreign)))
      else
        e ← call (ApiDelete k object (MkDeleteOptions None None None));
        Ret (Some (match e with
                   | None | Some NotFound => inr true
                   | Some _ => inl (go_error remove)
                   end))
  end.
(** [for _, object := range resources { ... continue ... }; ...] *)
Definition or_next (p : prog (option (cerror + bool))) (k : prog (cerror + bool)) : prog (cerror + bool) :=
  x ← p; match (x : option (cerror + bool)) with Some x => Ret x | None => k end.

Definition deleteRestoreStageAuthorityAndWait (o : GameRestore) (stage : Stage) : prog (cerror + bool) :=
  let name := RestoreResourceName (gr_UID o) stage in
  if name == "" then Ret (inl (go_error "restore stage resource identity is invalid"))
  else
    let authority {A} (k : kind A) := delete_stage_object o stage k (name +:+ "-authority")
      "inspect owned restore worker authority failed" "refuse to delete foreign restore worker authority"
      "remove scoped restore worker authority failed" in
    or_next (authority KRoleBinding) (or_next (authority KRole) (or_next (authority KServiceAccount)
      (or_next (delete_stage_object o stage KConfigMap (name +:+ "-input")
         "inspect owned restore worker input failed" "refuse to delete foreign restore worker input"
         "remove scoped restore worker input failed") (Ret (inr false))))).

Definition deleteRestoreWorkerAndWait (o : GameRestore) (stage : Stage) : prog (cerror + bool) :=
  job ← restore_get r KJob o (RestoreResourceName (gr_UID o) stage);
  match job with
  | inr job =>
      if negb (restoreControlledBy o (job_meta job)) then Ret (inl (go_error "refuse to delete foreign restore Job"))
      else
        e ← call (ApiDelete KJob job (MkDeleteOptions None None (Some "Foreground")));
        Ret (match e with
             | None | Some NotFound => inr true
             | Some _ => inl (go_error "stop owned restore Job failed")
             end)
  | inl NotFound =>
      pods ← listRestoreStagePods o stage;
      match (pods : option (list Pod)) with
      | None => Ret (inl (go_error "verify restore Pod absence failed"))
      | Some pods => if (len pods >? 0)%Z then Ret (inr true) else deleteRestoreStageAuthorityAndWait o stage
      end
  | inl _ => Ret (inl (go_error "inspect owned restore Job failed"))
  end.

Definition deleteAllRestoreWorkers (o : GameRestore) : prog (cerror + bool) :=
  pending ← deleteRestoreWorkerAndWait o StagePreflight;
  match (pending : cerror + bool) with
  | inr false => deleteRestoreWorkerAndWait o StagePopulate
  | other => Ret other
  end.

(** [if pending, err := p; err != nil || pending { return RequeueAfter, err }] *)
Definition unless_worker (p : prog (cerror + bool)) (k : prog outcome) : prog outcome :=
  x ← p;
  match (x : cerror + bool) with
  | inl e => Ret (requeue_after restoreRequeue, Some e)
  | inr true => Ret (requeue_after restoreRequeue, None)
  | inr false => k
  end.
End Worker.
