(* ===== verification/RestoreController.v ===== *)
(** * The restore controller ([internal/controller/gamerestore_controller.go])

    [GameRestoreReconciler], call for call, on top of its parts
    ([RestoreStatus], [RestoreSource], [RestoreVolumes], [RestoreCandidates],
    [RestoreWorker]): it fences both worlds with Leases, stops the server,
    provisions and populates a candidate world beside the previous one,
    selects it only after it was verified, and rolls back to the previous
    world when the candidate does not become ready. *)

From Stdlib Require Import Ascii.
From stdpp Require Import base tactics list strings gmap numbers.
From S2P Require Import Prelude GoStrings K8s ApiTypes DataOperation Operations GameDefinition KubeObjects KubePlan KubeApi TraceLogic WorkerInput KubeDestroy OperationFence WorkerPods SourceClaims ServerController KubeBackup KubeRestore BackupController RestoreStatus RestoreSource RestoreVolumes RestoreCandidates RestoreWorker.
Open Scope string_scope.
Open Scope list_scope.

(** A runtime disposition and whether to wait: [(runtime, pending)]. *)
Abbreviation settlement := (option RuntimeDisposition * bool)%type.

(** ** Leases *)

Definition restore_fence (o : GameRestore) (identity serverName : string) (t : Time) : Lease :=
  MkLease
    (MkObjectMeta (DataOperationLeaseName identity) (gr_Namespace o) "" 0 "" 0 None []
       (<[LabelManagedBy := ManagerName]> (<[LabelDataIdentity := identity]>
         (<[LabelRestoreUID := gr_UID o]> (<[LabelInstance := serverName]> ∅))))
       (<[AnnotationRestoreName := gr_Name o]> ∅) [])
    (Some (gr_UID o)) (Some t).
Definition holds_restore_fence (o : GameRestore) (serverName identity : string) (lease : Lease) : bool :=
  RestoreOperationLeaseMatches (Some lease) (restore_ref o) serverName identity.
Definition with_lease_meta (lease : Lease) (annotations : StringMap) : Lease :=
  MkLease (with_annotations (ls_meta lease) annotations) (ls_HolderIdentity lease) (ls_AcquireTime lease).
(** The annotations that let the server run for the settlement. *)
Definition restore_settlement (identity : string) (state : DesiredState) (generation : Z) (lease : Lease) : StringMap :=
  <[AnnotationRestoreSettlementData := identity]>
    (<[AnnotationRuntimeSettlementGeneration := FormatInt generation]>
      (<[AnnotationRuntimeSettlementState := DesiredState_string state]> (om_Annotations (ls_meta lease)))).
Definition settlement_present (identity : string) (state : DesiredState) (generation : Z) (lease : Lease) : bool :=
  (lease_annotation lease AnnotationRuntimeSettlementState == DesiredState_string state) &&
  (lease_annotation lease AnnotationRuntimeSettlementGeneration == FormatInt generation) &&
  (lease_annotation lease AnnotationRestoreSettlementData == identity).

(** A claim that a data selection still exactly names. *)
Definition selected_claim (identity : string) (path : DataPathIdentity) (claim : PersistentVolumeClaim) : bool :=
  (claim_uid_of claim == claimUID path) && (claim_label claim LabelDataIdentity == identity) &&
  (claim_label claim LabelDataPath == dp_Name path) && (pvc_Phase claim == "Bound") && (pvc_VolumeName claim != "") &&
  negb (deleting (pvc_meta claim)) && (len (om_OwnerReferences (pvc_meta claim)) == 0%Z).

Definition with_active_data (server : GameServer) (d : option RetainedDataReference) : GameServer :=
  let s := gs_Status server in
  MkGameServer (gs_meta server) (gs_Spec server)
    (MkGameServerStatus (gss_ObservedGeneration s) d (gss_ObservedData s) (gss_Phase s) (gss_Conditions s) (gss_Endpoints s)).

Definition settled_phase (state : DesiredState) : GameServerPhase :=
  if state == DesiredStateRunning then PhaseReady else PhaseStopped.
Definition restore_disposition (o : GameRestore) (state : DesiredState) (generation : Z) (t : Time) : RuntimeDisposition :=
  MkDisposition (MkGSRef (gsr_ref (restore_target o)) generation state) (settled_phase state) t.
Definition restore_cold_fence (o : GameRestore) (generation : Z) (t : Time) : ColdDataFence :=
  MkFence (MkGSRef (gsr_ref (restore_target o)) generation DesiredStateStopped) t.

(** The server is at the exact generation, wants the state, and selects nothing
    but the given data. *)
Definition intent_exact (server : GameServer) (selection : option RetainedDataReference) (state : DesiredState)
    (generation : Z) : bool :=
  (gs_Generation server == generation) && (gs_DesiredState (gs_Spec server) == state) &&
  (sameDataSelection (gss_ActiveData (gs_Status server)) selection ||
   negb (isSome (gss_ActiveData (gs_Status server)))).
Definition runtime_observed (server : GameServer) (selection : option RetainedDataReference) (state : DesiredState)
    (generation : Z) : bool :=
  (gss_ObservedGeneration (gs_Status server) == generation) && (gss_Phase (gs_Status server) == settled_phase state) &&
  sameDataSelection (gss_ObservedData (gs_Status server)) selection.
(** The paths of the world a selection names. *)
Definition selected_paths (o : GameRestore) (selection : option RetainedDataReference) : list DataPathIdentity :=
  match selection with
  | Some d => if rdr_Identity d != rs_PreviousDataIdentity (gr_Status o) then rs_CandidateData (gr_Status o)
              else rs_PreviousData (gr_Status o)
  | None => rs_PreviousData (gr_Status o)
  end.

(** The restore owes the server its previous, running state. *)
Definition restores_running (o : GameRestore) : bool :=
  (restore_policy o == RestartRestorePreviousState) && (gsr_DesiredState (restore_target o) == DesiredStateRunning).
(** The candidate did not come up in time: it failed, or the clock ran out. *)
Definition not_previous (server : GameServer) (previous : option RetainedDataReference) : bool :=
  isSome (gss_ActiveData (gs_Status server)) && negb (sameDataSelection (gss_ActiveData (gs_Status server)) previous).

Definition previous_selection (o : GameRestore) : option RetainedDataReference :=
  restoreSelection (rs_PreviousDataIdentity (gr_Status o)) (rs_PreviousData (gr_Status o)).
Definition candidate_selection (o : GameRestore) (identity : string) : option RetainedDataReference :=
  restoreSelection identity (rs_CandidateData (gr_Status o)).
Definition recorded_journal (o : GameRestore) : RestoreRuntimeJournal := journal_of (gr_Status o).

(** ** The reconciler's calls *)

Section Controller.
Context `{RegexpEngine} `{NameValidation} `{JsonSchema} `{TimeText} `{ResultDecoder}.
Variable r : GameRestoreReconciler.
Local Abbreviation rd := (directRestoreReader r).

Definition acquireRestoreLease (o : GameRestore) (identity serverName : string) : prog (option cerror) :=
  if (identity == "") || (serverName == "")
  then Ret (Some (go_error "restore lease requires an exact retained-data identity"))
  else
    existing ← restore_get r KLease o (DataOperationLeaseName identity);
    match existing with
    | inl NotFound =>
        t ← nowRestore;
        e ← call (ApiCreate KLease (restore_fence o identity serverName t));
        Ret (match (e : apierr + Lease) with
             | inr _ => None
             | inl e => if IsAlreadyExists e then Some (FromGo errBackupOperationConflict)
                        else Some (go_error "create retained-data restore lease failed")
             end)
    | inl _ => Ret (Some (go_error "inspect retained-data restore lease failed"))
    | inr lease => Ret (if holds_restore_fence o serverName identity lease then None
                        else Some (FromGo errBackupOperationConflict))
    end.

Definition releaseRestoreLeases (o : GameRestore) : prog (option cerror) :=
  leases ← call (ApiList KLease rd (Some (gr_Namespace o)) (<[LabelRestoreUID := gr_UID o]> ∅));
  match leases with
  | inl _ => Ret (Some (go_error "list retained-data restore leases failed"))
  | inr l =>
      match RestoreDataIdentity (gr_UID o) with
      | Err _ => Ret (Some (go_error "derive candidate restore lease identity failed"))
      | Ok candidateIdentity =>
          loop (fun lease =>
            let identity := lease_label lease LabelDataIdentity in
            if (identity != candidateIdentity) && (identity != rs_PreviousDataIdentity (gr_Status o))
            then Ret (Some (go_error "refuse to release an unrecognized retained-data restore lease"))
            else if negb (holds_restore_fence o (target_name o) identity lease)
            then Ret (Some (go_error "refuse to release a foreign retained-data restore lease"))
            else
              e ← call (ApiDelete KLease lease (MkDeleteOptions None None None));
              Ret (match e with
                   | None | Some NotFound => None
                   | Some _ => Some (go_error "release retained-data restore lease failed")
                   end)) (Items l)
      end
  end.

(** The restore's Lease on one world, or why it is not. *)
Definition own_restore_lease (o : GameRestore) (identity inspect foreign : string) : prog (cerror + Lease) :=
  lease ← restore_get r KLease o (DataOperationLeaseName identity);
  Ret (match lease with
       | inl _ => inl (go_error inspect)
       | inr lease => if holds_restore_fence o (target_name o) identity lease then inr lease else inl (go_error foreign)
       end).
Definition clearRestoreWorkerExecution (o : GameRestore) (identity : string) : prog (option cerror) :=
  lease ← own_restore_lease o identity "inspect restore worker execution lease failed"
    "restore worker execution lease changed ownership";
  match (lease : cerror + Lease) with
  | inl e => Ret (Some e)
  | inr lease =>
      if lease_annotation lease AnnotationWorkerPodUID == "" then Ret None
      else
        e ← call (ApiUpdate KLease (with_lease_meta lease (delete AnnotationWorkerPodUID (om_Annotations (ls_meta lease)))));
        Ret (or_error "clear absent restore worker execution failed" e)
  end.
Definition allowRestoreSettlement (o : GameRestore) (identity : string) (state : DesiredState) (generation : Z) :
    prog (option cerror) :=
  lease ← own_restore_lease o identity "inspect exact restore settlement lease failed"
    "refuse runtime settlement through a foreign restore lease";
  match (lease : cerror + Lease) with
  | inl e => Ret (Some e)
  | inr lease =>
      if settlement_present identity state generation lease then Ret None
      else
        e ← call (ApiUpdate KLease (with_lease_meta lease (restore_settlement identity state generation lease)));
        Ret (or_error "authorize exact restore runtime settlement failed" e)
  end.
Definition ensureRestoreLeases (o : GameRestore) (previousIdentity candidateIdentity : string) : prog (option cerror) :=
  loop (fun identity =>
    lease ← own_restore_lease o identity "exact dual retained-data restore leases are unavailable"
      "exact dual retained-data restore leases are unavailable";
    Ret (match (lease : cerror + Lease) with inl e => Some e | inr _ => None end)) [previousIdentity; candidateIdentity].

(** *** The server and the selected data *)

Definition exactRestoreServer (o : GameRestore) : prog (cerror + GameServer) :=
  server ← restore_get r KGameServer o (target_name o);
  Ret (match server with
       | inl _ => inl (go_error "the exact restore target is unavailable")
       | inr server =>
           if (server_UID server != gsr_UID (restore_target o)) || deleting (gs_meta server)
           then inl (go_error "the exact restore target is unavailable") else inr server
       end).

Definition verifyRestoreDataClaims (o : GameRestore) (paths : list DataPathIdentity) (identity : string) :
    prog (option cerror) :=
  if (len paths == 0%Z) || (identity == "") then Ret (Some (go_error "exact restore data paths are missing"))
  else
    loop (fun path =>
      claim ← restore_get r KPersistentVolumeClaim o (claimName path);
      Ret (match claim with
           | inr claim => if selected_claim identity path claim then None
                          else Some (go_error "an exact restore data claim changed or became unavailable")
           | inl _ => Some (go_error "an exact restore data claim changed or became unavailable")
           end)) paths.

Definition updateRestoreActiveData (server : GameServer) (selected : option RetainedDataReference) : prog (option cerror) :=
  match selected with
  | None => Ret (Some (go_error "refuse incomplete GameServer data selection"))
  | Some d =>
      if (rdr_Identity d == "") || (len (rdr_Claims d) == 0%Z)
      then Ret (Some (go_error "refuse incomplete GameServer data selection"))
      else
        e ← call (ApiUpdateStatus KGameServer (with_active_data server (Some d)));
        Ret (or_error "atomic GameServer selected-data status update failed" e)
  end.

Definition observeRestoreRuntime (o : GameRestore) (server : GameServer) (selection : option RetainedDataReference)
    (state : DesiredState) (generation : Z) : prog (cerror + settlement) :=
  if negb (intent_exact server selection state generation)
  then Ret (inl (go_error "restore-owned runtime intent or data selection changed"))
  else if negb (runtime_observed server selection state generation) then Ret (inr (None, true))
  else
    clear ← (if state == DesiredStateStopped
             then sourceClaimsUnmounted rd (gr_Namespace o) (selected_paths o selection) else Ret (inr true));
    match (clear : cerror + bool) with
    | inl e => Ret (inl e)
    | inr false => Ret (inr (None, true))
    | inr true =>
        now ← nowRestore;
        Ret (inr (Some (restore_disposition o state generation now), false))
    end.

(** [if _, pending, err := observe(...); err != nil || pending { return ... }] *)
Definition settled_or {A} (x : cerror + settlement) (failed : cerror -> A) (waiting : A) (k : option RuntimeDisposition -> A) : A :=
  match x with inl e => failed e | inr (_, true) => waiting | inr (runtime, false) => k runtime end.

(** *** Settling the previous world without an activation *)

Definition record_fence (o : GameRestore) (generation : Z) (s : GameRestoreStatus) : prog GameRestoreStatus :=
  now ← nowRestore;
  Ret (with_data s (set_ds_Fence (rs_DataOperationStatus s) (Some (restore_cold_fence o generation now)))).
(** [return nil, true, r.writeRestoreStatus(...)] *)
Definition write_and_pend (o : GameRestore) (mutate : GameRestoreStatus -> prog GameRestoreStatus) : prog (cerror + settlement) :=
  e ← writeRestoreStatus o (restore_phase o) mutate;
  Ret (match (e : option cerror) with Some e => inl e | None => inr (None, true) end).

(** Before a fence was recorded: nothing to settle, or a fence to record. *)
Definition settle_unfenced (o : GameRestore) : prog (cerror + settlement) :=
  if negb (isSome (ds_Source (rdata o))) then Ret (inr (None, false))
  else
    bind_error (exactRestoreServer o) (fun server =>
    let target := restore_target o in
    if (gs_Generation server == gsr_Generation target) && (gs_DesiredState (gs_Spec server) == gsr_DesiredState target)
    then Ret (inr (None, false))
    else
      let stoppedGeneration := int64 (gsr_Generation target + 1) in
      let previous := previous_selection o in
      if (gsr_DesiredState target != DesiredStateRunning) || negb (isSome previous) ||
         (gs_Generation server != stoppedGeneration) || (gs_DesiredState (gs_Spec server) != DesiredStateStopped) ||
         not_previous server previous
      then Ret (inl (go_error "restore cold-stop intent exists without a safe previous-world fence"))
      else match RestoreDataIdentity (gr_UID o) with
      | Err e => Ret (inl (FromGo e))
      | Ok candidateIdentity =>
          e ← ensureRestoreLeases o (rs_PreviousDataIdentity (gr_Status o)) candidateIdentity;
          match (e : option cerror) with
          | Some e => Ret (inl e)
          | None =>
              x ← observeRestoreRuntime o server previous DesiredStateStopped stoppedGeneration;
              settled_or x (fun e => Ret (inl e)) (Ret (inr (None, true)))
                (fun _ => write_and_pend o (record_fence o stoppedGeneration))
          end
      end).

(** The restart of the previous world, from the fenced generation. *)
Definition restart_previous (o : GameRestore) (server : GameServer) (previous : option RetainedDataReference)
    (fenceGeneration : Z) : prog (cerror + settlement) :=
  let restart := int64 (fenceGeneration + 1) in
  x ← observeRestoreRuntime o server previous DesiredStateStopped fenceGeneration;
  settled_or x (fun e => Ret (inl e)) (Ret (inr (None, true))) (fun _ =>
    if rj_PreviousRecoveryGeneration (recorded_journal o) == 0%Z
    then write_and_pend o (fun s => Ret (journal_recovery s restart))
    else
      e ← allowRestoreSettlement o (rs_PreviousDataIdentity (gr_Status o)) DesiredStateRunning restart;
      match (e : option cerror) with
      | Some e => Ret (inl e)
      | None =>
          e ← call (ApiUpdate KGameServer (with_desired server DesiredStateRunning));
          Ret (match e with
               | Some _ => inl (go_error "restore previous-world restart failed")
               | None => inr (None, true)
               end)
      end).

Definition settle_fenced (o : GameRestore) (fence : ColdDataFence) : prog (cerror + settlement) :=
  let previous := previous_selection o in
  if negb (isSome previous) then Ret (inl (go_error "previous-world selection is missing"))
  else
    e ← verifyRestoreDataClaims o (rs_PreviousData (gr_Status o)) (rs_PreviousDataIdentity (gr_Status o));
    match (e : option cerror) with
    | Some e => Ret (inl e)
    | None =>
        bind_error (exactRestoreServer o) (fun server =>
        let fenceGeneration := gsr_Generation (fence_GameServer fence) in
        let restart := int64 (fenceGeneration + 1) in
        if not_previous server previous then Ret (inl (go_error "previous world is no longer the selected data"))
        else if negb (restores_running o)
        then observeRestoreRuntime o server previous DesiredStateStopped fenceGeneration
        else if (gs_Generation server == fenceGeneration) && (gs_DesiredState (gs_Spec server) == DesiredStateStopped)
        then restart_previous o server previous fenceGeneration
        else if negb (isSome (rs_RuntimeJournal (gr_Status o))) ||
                (rj_PreviousRecoveryGeneration (recorded_journal o) != restart)
        then Ret (inl (go_error "previous-world restart lacks durable generation intent"))
        else observeRestoreRuntime o server previous DesiredStateRunning restart)
    end.

Definition settlePreviousBeforeActivation (o : GameRestore) : prog (cerror + settlement) :=
  match ds_Fence (rdata o) with None => settle_unfenced o | Some fence => settle_fenced o fence end.

(** ** How an operation ends without a candidate *)

(** The mutation of every terminal status. *)
Definition restore_finished (o : GameRestore) (active : option (list DataPathIdentity)) (runtime : option RuntimeDisposition)
    (status : ConditionStatus) (reason message : string) (s : GameRestoreStatus) : prog GameRestoreStatus :=
  now ← nowRestore;
  let s := match active with Some paths => set_rs_Active s paths | None => s end in
  setRestoreCondition o ConditionOperationComplete status reason message
    (with_data s (set_ds_Runtime (rs_DataOperationStatus s) runtime (Some now))).

Definition finishRestoreWithoutActivation (o : GameRestore) (terminal : DataOperationPhase) : prog outcome :=
  unless_worker (deleteAllRestoreWorkers r o)
    (x ← settlePreviousBeforeActivation o;
     settled_or x
       (fun _ => holdRestore o ReasonIdentityMismatch
          "the exact previous-world runtime cannot be settled; keep data operation leases and inspect generation history")
       (Ret (requeue_after restoreRequeue, None))
       (fun runtime =>
          let '(reason, message) :=
            if terminal == DataPhaseCancelled
            then (ReasonOperationCancelled,
                  "cancellation ended before activation; previous data remains selected and runtime is settled")
            else restoreFailureReason o in
          restore_write_requeue o terminal (restore_finished o None runtime ConditionFalse reason message))).

Definition failRestorePreparation (o : GameRestore) (reason message : string) : prog outcome :=
  let record phase := restore_write_return o phase
    (setRestoreCondition o ConditionOperationComplete ConditionFalse reason message) in
  if isSome (rs_ActivationStartedAt (gr_Status o)) then record DataPhaseRollingBack
  else if restore_phase o == DataPhaseRunning then record DataPhaseVerifying
  else if negb (restoreFailureRecorded o) then record (restore_phase o)
  else finishRestoreWithoutActivation o DataPhaseFailed.

(** ** Pending, Blocked: the first resolution *)

Definition record_source (o : GameRestore) (subject : restoreSubject) (s : GameRestoreStatus) : prog GameRestoreStatus :=
  started ← match ds_StartedAt (rs_DataOperationStatus s) with
            | Some t => Ret (Some t)
            | None => t ← nowRestore; Ret (Some t)
            end;
  let d := set_ds_Artifact (set_ds_Source (rs_DataOperationStatus s) started (Some (rsub_source subject)))
             (Some (rsub_artifact subject)) in
  setRestoreCondition o ConditionSourceReady ConditionTrue ReasonOperationAccepted
    "the exact verified backup and target data identities are compatible"
    (set_rs_Previous (with_data s d) (rdr_Identity (rsub_previous subject)) (rsub_previousPaths subject)).
Definition prepareRestore (o : GameRestore) : prog outcome :=
  x ← resolveInitialRestore r o;
  match (x : restoreIssue + restoreSubject) with
  | inl (reason, message) => blockRestore o reason message
  | inr subject => restore_write_return o DataPhasePreparing (record_source o subject)
  end.

(** ** Preparing: preflight, fence, candidates *)

Definition restoreWorkerInput (o : GameRestore) (s : restoreSubject) (stage : Stage) : Input :=
  let populate := stage == StagePopulate in
  MkInput InputVersion stage (restore_ref o) (grs_BackupRef (gr_Spec o)) (restore_target o)
    (DataOperationLeaseName (rsub_candidateIdentity s)) (restore_secret o) (rsub_artifact s) (rsub_source s)
    (gs_Game (gs_Spec (rsub_server s))) (gs_ImageDigest (gs_Spec (rsub_server s))) (rsub_settingsDigest s)
    (rsub_targetPaths s)
    (if populate then rs_PreviousDataIdentity (gr_Status o) else "")
    (if populate then rs_PreviousData (gr_Status o) else [])
    (if populate then rs_CandidateData (gr_Status o) else []).

Definition conflict_or (o : GameRestore) (message : string) (e : cerror) : prog outcome :=
  if errors_Is e errBackupOperationConflict then holdRestore o ReasonOperationConflict message
  else Ret (no_requeue, Some e).

(** The stopped generation was observed with the previous data. *)
Definition target_stopped (o : GameRestore) (s : restoreSubject) : bool :=
  let server := rsub_server s in
  (gs_Generation server == stop_generation o) && (gs_DesiredState (gs_Spec server) == DesiredStateStopped) &&
  (gss_ObservedGeneration (gs_Status server) == stop_generation o) && (gss_Phase (gs_Status server) == PhaseStopped) &&
  sameDataSelection (gss_ObservedData (gs_Status server)) (Some (rsub_previous s)).
Definition fence_cold (o : GameRestore) (s : GameRestoreStatus) : prog GameRestoreStatus :=
  now ← nowRestore;
  setRestoreCondition o ConditionTargetReady ConditionTrue ReasonOperationAccepted
    "the previous world is cold and fully detached"
    (with_data s (set_ds_Fence (rs_DataOperationStatus s) (Some (restore_cold_fence o (stop_generation o) now)))).
Definition ensureRestoreColdFence (o : GameRestore) (s : restoreSubject) : prog outcome :=
  let server := rsub_server s in
  if (gsr_DesiredState (restore_target o) == DesiredStateRunning) &&
     (gs_Generation server == gsr_Generation (restore_target o)) then
    e ← call (ApiUpdate KGameServer (with_desired server DesiredStateStopped));
    Ret (match e with
         | Some _ => (no_requeue, Some (go_error "request exact restore cold stop failed"))
         | None => (requeue_after restoreRequeue, None)
         end)
  else if negb (target_stopped o s)
  then holdRestore o ReasonColdStopPending "waiting for the exact stopped target generation and previous data selection"
  else
    clear ← sourceClaimsUnmounted rd (gr_Namespace o) (rs_PreviousData (gr_Status o));
    match (clear : cerror + bool) with
    | inl e => Ret (no_requeue, Some e)
    | inr false => holdRestore o ReasonColdStopPending "waiting for every previous-world Pod and VolumeAttachment to detach"
    | inr true => restore_write_return o DataPhasePreparing (fence_cold o)
    end.

Definition record_candidates (o : GameRestore) (paths : list DataPathIdentity) (s : GameRestoreStatus) :
    prog GameRestoreStatus :=
  setRestoreCondition o ConditionTargetReady ConditionTrue ReasonOperationAccepted
    "fresh, exact candidate claims are bound and isolated from active data" (set_rs_Candidate s paths).
(** The server is at the fenced generation, stopped. *)
Definition fenced_target (fence : ColdDataFence) (server : GameServer) : bool :=
  (gs_Generation server == gsr_Generation (fence_GameServer fence)) &&
  (gs_DesiredState (gs_Spec server) == DesiredStateStopped).
Definition provision (o : GameRestore) (s : restoreSubject) (fence : ColdDataFence) : prog outcome :=
  if negb (fenced_target fence (rsub_server s))
  then failRestorePreparation o ReasonIdentityMismatch
         "the exact fenced target generation changed; no candidate worker will run"
  else
    x ← reconcileRestoreCandidates r o s;
    match (x : provisioning) with
    | inl _ => failRestorePreparation o ReasonIdentityMismatch
        "candidate storage conflicted with an existing retained claim; no previous-world claim was changed"
    | inr (Some (candidates, true)) => restore_write_return o DataPhaseRunning (record_candidates o candidates)
    | inr _ =>
        expired ← restoreProvisioningExpired o;
        if (expired : bool)
        then failRestorePreparation o ReasonStorageUnavailable
          "candidate storage did not bind within five minutes of the cold fence; inspect storage provisioning, then submit a new restore; previous and pending candidate claims are retained"
        else holdRestore o ReasonColdStopPending "waiting for every new candidate claim to bind before population"
    end.

(** After the preflight was verified. *)
Definition fence_and_provision (o : GameRestore) (s : restoreSubject) : prog outcome :=
  unless_worker (deleteRestoreWorkerAndWait r o StagePreflight)
    (e ← clearRestoreWorkerExecution o (rsub_candidateIdentity s);
     match (e : option cerror) with
     | Some e => Ret (no_requeue, Some e)
     | None =>
         e ← acquireRestoreLease o (rdr_Identity (rsub_previous s)) (server_Name (rsub_server s));
         match (e : option cerror) with
         | Some e => conflict_or o "another data operation owns the active world; wait for its terminal state" e
         | None =>
             match ds_Fence (rdata o) with
             | None => ensureRestoreColdFence o s
             | Some fence => provision o s fence
             end
         end
     end).

Definition record_preflight (o : GameRestore) (result : Result) (s : GameRestoreStatus) : prog GameRestoreStatus :=
  setRestoreCondition o ConditionArtifactReady ConditionTrue ReasonOperationAccepted
    "repository-only preflight verified complete artifact inventory" (set_rs_Preflight s (Some (wr_VerifiedAt result))).
Definition preflight (o : GameRestore) (s : restoreSubject) : prog outcome :=
  x ← runRestoreWorker r o (restoreWorkerInput o s StagePreflight) (def_RuntimeIdentity (rsub_definition s));
  match (x : cerror + restoreWorkerOutcome) with
  | inl e => Ret (no_requeue, Some e)
  | inr restoreWorkerPending => Ret (requeue_after restoreRequeue, None)
  | inr restoreWorkerFailed => failRestorePreparation o ReasonVerificationFailed
      "repository-only preflight could not verify the exact backup; target data was not mutated"
  | inr (restoreWorkerSucceeded result) => restore_write_return o DataPhasePreparing (record_preflight o result)
  end.

Definition reconcileRestorePreflight (o : GameRestore) : prog outcome :=
  if restoreFailureRecorded o then finishRestoreWithoutActivation o DataPhaseFailed
  else
    x ← preparedRestore r o;
    match (x : restoreIssue + restoreSubject) with
    | inl (reason, message) => failRestorePreparation o reason message
    | inr s =>
        e ← acquireRestoreLease o (rsub_candidateIdentity s) (server_Name (rsub_server s));
        match (e : option cerror) with
        | Some e => conflict_or o "the candidate identity is owned by another data operation" e
        | None => if isSome (rs_PreflightVerifiedAt (gr_Status o)) then fence_and_provision o s else preflight o s
        end
    end.

(** ** Running: populating the candidate *)

(** The exact cold target, with the previous world still observed. *)
Definition cold_target (o : GameRestore) (s : restoreSubject) : bool :=
  match ds_Fence (rdata o) with
  | None => false
  | Some fence => fenced_target fence (rsub_server s) &&
      sameDataSelection (gss_ObservedData (gs_Status (rsub_server s))) (Some (rsub_previous s))
  end.
(** The candidates found again are the recorded ones, complete and bound. *)
Definition same_candidates (o : GameRestore) (x : provisioning) : bool :=
  match x with
  | inr (Some (candidates, true)) => sameDataPaths candidates (rs_CandidateData (gr_Status o))
  | _ => false
  end.

Definition retry_populate (o : GameRestore) (s : restoreSubject) : prog outcome :=
  if negb (canRetryRestorePopulate (rs_PopulateAttempts (gr_Status o)))
  then failRestorePreparation o ReasonWorkerFailed "populate retry journal is outside its bounded attempt range"
  else
    unless_worker (deleteRestoreWorkerAndWait r o StagePopulate)
      (e ← clearRestoreWorkerExecution o (rsub_candidateIdentity s);
       match (e : option cerror) with
       | Some e => Ret (no_requeue, Some e)
       | None => restore_write_return o DataPhaseRunning (fun st =>
           setRestoreCondition o ConditionArtifactReady ConditionUnknown ReasonWorkerRetrying
             "the failed worker is absent; retrying the same exact candidate claims with a new bounded Pod"
             (set_rs_Populate st (int32 (rs_PopulateAttempts st + 1)) false ""))
       end).
Definition record_verification (o : GameRestore) (result : Result) (s : GameRestoreStatus) : prog GameRestoreStatus :=
  setRestoreCondition o ConditionVerified ConditionTrue ReasonOperationAccepted
    "fresh candidate claims match the complete verified artifact inventory"
    (set_rs_Verification s (Some (MkCandidateVerification VerificationVerified (wr_ManifestDigest result)
       (wr_PathCount result) (wr_VerifiedAt result)))).
Definition populate_failed (o : GameRestore) : prog outcome :=
  if canRetryRestorePopulate (rs_PopulateAttempts (gr_Status o))
  then restore_write_return o DataPhaseRunning (fun st =>
    setRestoreCondition o ConditionArtifactReady ConditionUnknown ReasonWorkerRetrying
      "candidate worker failed; remove exact Pod before retrying the same retained candidate claims"
      (set_rs_Populate st (rs_PopulateAttempts st) true (rs_PopulateJobUID st)))
  else failRestorePreparation o ReasonVerificationFailed
    "candidate population or verification failed after three serialized attempts; previous world remains selected".

Definition populate (o : GameRestore) (s : restoreSubject) : prog outcome :=
  isolation ← verifyRestoreVolumeIsolation rd (gr_Namespace o) (om_CreationTimestamp (gr_meta o))
                (rs_PreviousData (gr_Status o)) (rs_CandidateData (gr_Status o)) [src_Paths (rsub_source s)];
  match (isolation : option error) with
  | Some _ => failRestorePreparation o ReasonIdentityMismatch
      "candidate storage cannot be proven physically distinct from the previous world"
  | None =>
      x ← runRestoreWorker r o (restoreWorkerInput o s StagePopulate) (def_RuntimeIdentity (rsub_definition s));
      match (x : cerror + restoreWorkerOutcome) with
      | inl e => Ret (no_requeue, Some e)
      | inr restoreWorkerPending => Ret (requeue_after restoreRequeue, None)
      | inr restoreWorkerFailed => populate_failed o
      | inr (restoreWorkerSucceeded result) => restore_write_return o DataPhaseVerifying (record_verification o result)
      end
  end.

Definition reconcileRestorePopulate (o : GameRestore) : prog outcome :=
  if restoreFailureRecorded o then finishRestoreWithoutActivation o DataPhaseFailed
  else
    let changed := failRestorePreparation o ReasonIdentityMismatch
      "the exact cold target or previous world changed before candidate population" in
    x ← preparedRestore r o;
    match (x : restoreIssue + restoreSubject) with
    | inl _ => changed
    | inr s =>
        if negb (cold_target o s) || negb (isSome (rs_PreflightVerifiedAt (gr_Status o))) then changed
        else
          candidates ← reconcileRestoreCandidates r o s;
          if negb (same_candidates o candidates)
          then failRestorePreparation o ReasonIdentityMismatch
                 "fresh candidate claims are no longer complete, bound, and distinct from active data"
          else if rs_PopulateRetryPending (gr_Status o) then retry_populate o s
          else if rs_PopulateAttempts (gr_Status o) == 0%Z
          then restore_write_return o DataPhaseRunning (fun st =>
                 Ret (set_rs_Populate st 1 (rs_PopulateRetryPending st) (rs_PopulateJobUID st)))
          else if (rs_PopulateAttempts (gr_Status o) >? maxRestorePopulateAttempts)%Z
          then failRestorePreparation o ReasonWorkerFailed "populate attempt journal exceeded its certified bound"
          else populate o s
    end.

(** ** Verifying: the last check before activation *)

Definition record_activation (o : GameRestore) (s : GameRestoreStatus) : prog GameRestoreStatus :=
  now ← nowRestore;
  setRestoreCondition o ConditionOperationComplete ConditionUnknown ReasonColdStopPending
    "verified candidate data is ready for one complete controller-owned selection change"
    (set_rs_Activation s (Some now)).
Definition begin_activation (o : GameRestore) : prog outcome :=
  let changed := failRestorePreparation o ReasonIdentityMismatch
    "the previous world or stopped target changed before atomic activation" in
  x ← preparedRestore r o;
  match (x : restoreIssue + restoreSubject) with
  | inl _ => changed
  | inr s =>
      if negb (cold_target o s) then changed
      else
        candidates ← reconcileRestoreCandidates r o s;
        if negb (same_candidates o candidates)
        then failRestorePreparation o ReasonIdentityMismatch "verified candidate claims changed before atomic activation"
        else
          e ← ensureRestoreLeases o (rdr_Identity (rsub_previous s)) (rsub_candidateIdentity s);
          match (e : option cerror) with
          | Some e => Ret (no_requeue, Some e)
          | None => restore_write_return o DataPhaseActivating (record_activation o)
          end
  end.
Definition reconcileRestoreVerification (o : GameRestore) : prog outcome :=
  unless_worker (deleteRestoreWorkerAndWait r o StagePopulate)
    (match RestoreDataIdentity (gr_UID o) with
     | Err e => Ret (no_requeue, Some (FromGo e))
     | Ok candidateIdentity =>
         e ← clearRestoreWorkerExecution o candidateIdentity;
         match (e : option cerror) with
         | Some e => Ret (no_requeue, Some e)
         | None =>
             if negb (isSome (rs_CandidateVerification (gr_Status o))) || restoreFailureRecorded o
             then finishRestoreWithoutActivation o DataPhaseFailed
             else begin_activation o
         end
     end).

(** ** Activating *)

Definition completeRestoreSuccess (o : GameRestore) (server : GameServer) (candidate : option RetainedDataReference)
    (generation : Z) (state : DesiredState) : prog outcome :=
  x ← observeRestoreRuntime o server candidate state generation;
  settled_or x (fun e => Ret (requeue_after restoreRequeue, Some e)) (Ret (requeue_after restoreRequeue, None))
    (fun runtime => restore_write_requeue o DataPhaseSucceeded
       (restore_finished o (Some (rs_CandidateData (gr_Status o))) runtime ConditionTrue ReasonOperationCompleted
          "verified isolated candidate is selected and the exact requested runtime is observed")).

(** [server failed at this generation || activation timed out]: the clock is
    read only when the server did not fail. *)
Definition activation_failed (server : GameServer) (generation : Z) (started : Time) : prog bool :=
  if (gss_ObservedGeneration (gs_Status server) == generation) && (gss_Phase (gs_Status server) == PhaseFailed)
  then Ret true
  else now ← nowRestore; Ret (now - started >? restoreActivationTimeout)%Z.

(** The one change of the selection: previous to candidate, over a cold server. *)
Definition select_candidate (o : GameRestore) (server : GameServer) (candidateIdentity : string) (fenceGeneration : Z) :
    prog outcome :=
  if negb (runtime_observed server (previous_selection o) DesiredStateStopped fenceGeneration)
  then Ret (requeue_after restoreRequeue, None)
  else
    e ← allowRestoreSettlement o candidateIdentity DesiredStateStopped fenceGeneration;
    match (e : option cerror) with
    | Some e => Ret (no_requeue, Some e)
    | None =>
        e ← updateRestoreActiveData server (candidate_selection o candidateIdentity);
        Ret (match (e : option cerror) with Some e => (no_requeue, Some e) | None => (requeue_after restoreRequeue, None) end)
    end.
(** The candidate is selected and the server still stopped. *)
Definition settle_candidate (o : GameRestore) (server : GameServer) (candidate : option RetainedDataReference)
    (fenceGeneration : Z) (started : Time) : prog outcome :=
  let unsettled e :=
    failed ← activation_failed server fenceGeneration started;
    if (failed : bool)
    then failRestorePreparation o ReasonWorkerFailed
           "candidate could not settle while stopped; rolling back previous data selection"
    else Ret (requeue_after restoreRequeue, e) in
  x ← observeRestoreRuntime o server candidate DesiredStateStopped fenceGeneration;
  settled_or x (fun e => unsettled (Some e)) (unsettled None) (fun _ =>
    if negb (restores_running o)
    then completeRestoreSuccess o server candidate fenceGeneration DesiredStateStopped
    else restore_write_return o DataPhaseActivating (fun s => Ret (journal_start s (int64 (fenceGeneration + 1))))).
(** The start of the candidate is journaled. *)
Definition start_candidate (o : GameRestore) (server : GameServer) (candidateIdentity : string)
    (candidate : option RetainedDataReference) (fenceGeneration : Z) (started : Time) : prog outcome :=
  let startGeneration := int64 (fenceGeneration + 1) in
  if (rj_CandidateStartGeneration (recorded_journal o) != startGeneration) ||
     ((gs_Generation server != fenceGeneration) && (gs_Generation server != startGeneration))
  then holdRestore o ReasonIdentityMismatch "candidate start generation changed from durable intent"
  else if gs_Generation server == fenceGeneration then
    if gs_DesiredState (gs_Spec server) != DesiredStateStopped
    then holdRestore o ReasonIdentityMismatch "candidate start found unexpected runtime intent"
    else
      e ← allowRestoreSettlement o candidateIdentity DesiredStateRunning startGeneration;
      match (e : option cerror) with
      | Some e => Ret (no_requeue, Some e)
      | None =>
          e ← call (ApiUpdate KGameServer (with_desired server DesiredStateRunning));
          Ret (match e with
               | Some _ => (no_requeue, Some (go_error "start exact restored candidate failed"))
               | None => (requeue_after restoreRequeue, None)
               end)
      end
  else if gs_DesiredState (gs_Spec server) != DesiredStateRunning
  then holdRestore o ReasonIdentityMismatch "candidate start generation has unexpected desired state"
  else
    x ← observeRestoreRuntime o server candidate DesiredStateRunning startGeneration;
    settled_or x
      (fun _ => holdRestore o ReasonIdentityMismatch "candidate runtime selection changed during readiness")
      (failed ← activation_failed server startGeneration started;
       if (failed : bool)
       then failRestorePreparation o ReasonWorkerFailed
              "restored candidate did not reach exact Ready state; rolling back to previous world"
       else Ret (requeue_after restoreRequeue, None))
      (fun _ => completeRestoreSuccess o server candidate startGeneration DesiredStateRunning).

Definition drive_activation (o : GameRestore) (server : GameServer) (candidateIdentity : string) (fence : ColdDataFence)
    (started : Time) : prog outcome :=
  let fenceGeneration := gsr_Generation (fence_GameServer fence) in
  let candidate := candidate_selection o candidateIdentity in
  let unstarted := rj_CandidateStartGeneration (recorded_journal o) == 0%Z in
  let active := gss_ActiveData (gs_Status server) in
  if unstarted && negb (fenced_target fence server)
  then holdRestore o ReasonIdentityMismatch "target generation changed before candidate start"
  else if unstarted && (negb (isSome active) || sameDataSelection active (previous_selection o))
  then select_candidate o server candidateIdentity fenceGeneration
  else if negb (sameDataSelection active candidate)
  then holdRestore o ReasonIdentityMismatch
         "target selected data is neither the exact previous nor verified candidate set"
  else if unstarted then settle_candidate o server candidate fenceGeneration started
  else start_candidate o server candidateIdentity candidate fenceGeneration started.

(** Both worlds are found exact, and physically apart. *)
Definition verify_worlds (o : GameRestore) (candidateIdentity : string) (source : DataSourceSnapshot) : prog (option string) :=
  let status := gr_Status o in
  e ← verifyRestoreDataClaims o (rs_PreviousData status) (rs_PreviousDataIdentity status);
  if isSome (e : option cerror) then Ret (Some "previous-world claim identity changed during activation")
  else
    e ← verifyRestoreDataClaims o (rs_CandidateData status) candidateIdentity;
    if isSome (e : option cerror) then Ret (Some "candidate claim identity changed during activation")
    else
      e ← verifyRestoreVolumeIsolation rd (gr_Namespace o) (om_CreationTimestamp (gr_meta o)) (rs_PreviousData status)
            (rs_CandidateData status) [src_Paths source];
      Ret (if isSome (e : option error) then Some "candidate storage cannot be proven physically distinct at activation"
           else None).

Definition activate (o : GameRestore) (fence : ColdDataFence) (source : DataSourceSnapshot) (started : Time) : prog outcome :=
  match RestoreDataIdentity (gr_UID o) with
  | Err _ => holdRestore o ReasonIdentityMismatch "candidate identity cannot be derived distinctly"
  | Ok candidateIdentity =>
      if candidateIdentity == rs_PreviousDataIdentity (gr_Status o)
      then holdRestore o ReasonIdentityMismatch "candidate identity cannot be derived distinctly"
      else
        e ← ensureRestoreLeases o (rs_PreviousDataIdentity (gr_Status o)) candidateIdentity;
        match (e : option cerror) with
        | Some e => Ret (no_requeue, Some e)
        | None =>
            changed ← verify_worlds o candidateIdentity source;
            match (changed : option string) with
            | Some message => failRestorePreparation o ReasonIdentityMismatch message
            | None =>
                server ← exactRestoreServer o;
                match (server : cerror + GameServer) with
                | inl _ => holdRestore o ReasonIdentityMismatch "the exact target is unavailable during activation"
                | inr server => drive_activation o server candidateIdentity fence started
                end
            end
        end
  end.
Definition reconcileRestoreActivation (o : GameRestore) : prog outcome :=
  unless_worker (deleteAllRestoreWorkers r o)
    (match ds_Fence (rdata o), ds_Source (rdata o), rs_CandidateVerification (gr_Status o),
           rs_ActivationStartedAt (gr_Status o) with
     | Some fence, Some source, Some _, Some started => activate o fence source started
     | _, _, _, _ => holdRestore o ReasonIdentityMismatch "activation history or verified candidate evidence is missing"
     end).

(** ** Rolling back *)

Definition finishRestoreRollback (o : GameRestore) (server : GameServer) (previous : option RetainedDataReference)
    (generation : Z) (state : DesiredState) : prog outcome :=
  x ← observeRestoreRuntime o server previous state generation;
  settled_or x (fun e => Ret (requeue_after restoreRequeue, Some e)) (Ret (requeue_after restoreRequeue, None))
    (fun runtime =>
       let '(reason, message) := restoreFailureReason o in
       let cancelled := cancel_requested o || (reason == ReasonOperationCancelled) in
       restore_write_requeue o (if cancelled then DataPhaseCancelled else DataPhaseFailed)
         (restore_finished o (Some (rs_PreviousData (gr_Status o))) runtime ConditionFalse
            (if cancelled then ReasonOperationCancelled else reason)
            (if cancelled then "cancellation restored the exact previous world and settled its runtime" else message))).

(** The running candidate is to be stopped. *)
Definition stop_candidate (o : GameRestore) (server : GameServer) (candidateIdentity : string) (stopGeneration : Z) :
    prog outcome :=
  if negb (sameDataSelection (gss_ActiveData (gs_Status server)) (candidate_selection o candidateIdentity))
  then holdRestore o ReasonIdentityMismatch "running candidate no longer has the exact verified selection"
  else
    let stop := rj_RollbackStopGeneration (recorded_journal o) in
    if stop == 0%Z
    then restore_write_return o DataPhaseRollingBack (fun s => Ret (journal_stop s stopGeneration))
    else if stop != stopGeneration
    then holdRestore o ReasonIdentityMismatch "rollback stop generation differs from durable intent"
    else
      e ← allowRestoreSettlement o candidateIdentity DesiredStateStopped stopGeneration;
      match (e : option cerror) with
      | Some e => Ret (no_requeue, Some e)
      | None =>
          e ← call (ApiUpdate KGameServer (with_desired server DesiredStateStopped));
          Ret (match e with
               | Some _ => (no_requeue, Some (go_error "stop failed candidate before rollback failed"))
               | None => (requeue_after restoreRequeue, None)
               end)
      end.
(** The candidate is selected on a stopped server: select the previous world. *)
Definition reselect_previous (o : GameRestore) (server : GameServer) (candidateIdentity : string) (stopGeneration : Z) :
    prog outcome :=
  if negb (sameDataSelection (gss_ActiveData (gs_Status server)) (candidate_selection o candidateIdentity))
  then holdRestore o ReasonIdentityMismatch "rollback target selected an unknown data set"
  else
    clear ← sourceClaimsUnmounted rd (gr_Namespace o) (rs_CandidateData (gr_Status o));
    match (clear : cerror + bool) with
    | inl e => Ret (requeue_after restoreRequeue, Some e)
    | inr false => Ret (requeue_after restoreRequeue, None)
    | inr true =>
        e ← allowRestoreSettlement o (rs_PreviousDataIdentity (gr_Status o)) DesiredStateStopped stopGeneration;
        match (e : option cerror) with
        | Some e => Ret (no_requeue, Some e)
        | None =>
            e ← updateRestoreActiveData server (previous_selection o);
            Ret (match (e : option cerror) with Some e => (no_requeue, Some e) | None => (requeue_after restoreRequeue, None) end)
        end
    end.
(** The generation the previous world restarts at. *)
Definition rollback_restart (o : GameRestore) (fenceGeneration : Z) : Z :=
  int64 (fenceGeneration + (if rj_RollbackStopGeneration (recorded_journal o) == 0%Z then 1 else 3)).
Definition restart_rolled_back (o : GameRestore) (server : GameServer) (fenceGeneration : Z) : prog outcome :=
  let finalGeneration := rollback_restart o fenceGeneration in
  let restart := rj_RollbackRestartGeneration (recorded_journal o) in
  if restart == 0%Z
  then restore_write_return o DataPhaseRollingBack (fun s => Ret (journal_restart s finalGeneration))
  else if restart != finalGeneration
  then holdRestore o ReasonIdentityMismatch "previous restart differs from durable rollback intent"
  else
    e ← allowRestoreSettlement o (rs_PreviousDataIdentity (gr_Status o)) DesiredStateRunning finalGeneration;
    match (e : option cerror) with
    | Some e => Ret (no_requeue, Some e)
    | None =>
        e ← call (ApiUpdate KGameServer (with_desired server DesiredStateRunning));
        Ret (match e with
             | Some _ => (no_requeue, Some (go_error "restart exact previous world after rollback failed"))
             | None => (requeue_after restoreRequeue, None)
             end)
    end.
(** The previous world is selected, or still to be selected, on a cold server. *)
Definition settle_rollback (o : GameRestore) (server : GameServer) (candidateIdentity : string)
    (fenceGeneration stopGeneration : Z) : prog outcome :=
  let previous := previous_selection o in
  if (gs_Generation server != stopGeneration) || (gs_DesiredState (gs_Spec server) != DesiredStateStopped)
  then holdRestore o ReasonIdentityMismatch "rollback target is not at an exact cold generation"
  else if not_previous server previous then reselect_previous o server candidateIdentity stopGeneration
  else
    x ← observeRestoreRuntime o server previous DesiredStateStopped stopGeneration;
    settled_or x (fun e => Ret (requeue_after restoreRequeue, Some e)) (Ret (requeue_after restoreRequeue, None)) (fun _ =>
      if restores_running o then restart_rolled_back o server fenceGeneration
      else finishRestoreRollback o server previous stopGeneration DesiredStateStopped).

(** The previous world was restarted under the journal. *)
Definition rolled_back_running (o : GameRestore) (server : GameServer) : bool :=
  let restart := rj_RollbackRestartGeneration (recorded_journal o) in
  (restart != 0%Z) && (gs_Generation server == restart) && (gs_DesiredState (gs_Spec server) == DesiredStateRunning) &&
  sameDataSelection (gss_ActiveData (gs_Status server)) (previous_selection o).
Definition drive_rollback (o : GameRestore) (server : GameServer) (candidateIdentity : string) (fence : ColdDataFence) :
    prog outcome :=
  let fenceGeneration := gsr_Generation (fence_GameServer fence) in
  let stopGeneration := int64 (fenceGeneration + 2) in
  let desired := gs_DesiredState (gs_Spec server) in
  if rolled_back_running o server
  then finishRestoreRollback o server (previous_selection o) (rj_RollbackRestartGeneration (recorded_journal o))
         DesiredStateRunning
  else if rj_CandidateStartGeneration (recorded_journal o) == 0%Z
  then settle_rollback o server candidateIdentity fenceGeneration fenceGeneration
  else if (gs_Generation server == int64 (fenceGeneration + 1)) && (desired == DesiredStateRunning)
  then stop_candidate o server candidateIdentity stopGeneration
  else if (gs_Generation server == fenceGeneration) && (desired == DesiredStateStopped)
  then settle_rollback o server candidateIdentity fenceGeneration fenceGeneration
  else if (gs_Generation server != stopGeneration) || (desired != DesiredStateStopped) ||
          (rj_RollbackStopGeneration (recorded_journal o) != stopGeneration)
  then holdRestore o ReasonIdentityMismatch "candidate runtime generation escaped the rollback journal"
  else settle_rollback o server candidateIdentity fenceGeneration stopGeneration.

Definition roll_back (o : GameRestore) (fence : ColdDataFence) : prog outcome :=
  match RestoreDataIdentity (gr_UID o) with
  | Err e => Ret (no_requeue, Some (FromGo e))
  | Ok candidateIdentity =>
      e ← ensureRestoreLeases o (rs_PreviousDataIdentity (gr_Status o)) candidateIdentity;
      match (e : option cerror) with
      | Some e => Ret (no_requeue, Some e)
      | None =>
          e ← verifyRestoreDataClaims o (rs_PreviousData (gr_Status o)) (rs_PreviousDataIdentity (gr_Status o));
          match (e : option cerror) with
          | Some _ => holdRestore o ReasonIdentityMismatch
              "previous-world rollback claims are unavailable; keep both leases"
          | None =>
              server ← exactRestoreServer o;
              match (server : cerror + GameServer) with
              | inl _ => holdRestore o ReasonIdentityMismatch "exact target is unavailable for rollback"
              | inr server => drive_rollback o server candidateIdentity fence
              end
          end
      end
  end.
Definition reconcileRestoreRollback (o : GameRestore) : prog outcome :=
  unless_worker (deleteAllRestoreWorkers r o)
    (match ds_Fence (rdata o), rs_ActivationStartedAt (gr_Status o) with
     | Some fence, Some _ => roll_back o fence
     | _, _ => holdRestore o ReasonIdentityMismatch "rollback requires durable fence and activation history"
     end).

(** ** A pass *)

Definition reconcileRestoreCancellation (o : GameRestore) : prog outcome :=
  finishRestoreWithoutActivation o DataPhaseCancelled.

Definition restore_protected (o : GameRestore) : bool :=
  existsb (fun f => f == RestoreFinalizer) (om_Finalizers (gr_meta o)).
Definition record_cancelled (o : GameRestore) (phase : DataOperationPhase) (message : string) : prog outcome :=
  restore_write_return o phase
    (setRestoreCondition o ConditionOperationComplete ConditionFalse ReasonOperationCancelled message).

Definition finalizeRestore (o : GameRestore) : prog outcome :=
  if negb (restore_protected o) then Ret (no_requeue, None)
  else if negb (restoreTerminal (restore_phase o)) then
    if isSome (rs_ActivationStartedAt (gr_Status o)) then
      if restore_phase o != DataPhaseRollingBack
      then record_cancelled o DataPhaseRollingBack
             "deletion is rolling back the exact previous world before removing protection"
      else reconcileRestoreRollback o
    else if restore_phase o != DataPhaseCancelling
    then record_cancelled o DataPhaseCancelling "deletion is stopping restore work and settling the previous world"
    else reconcileRestoreCancellation o
  else
    unless_worker (deleteAllRestoreWorkers r o)
      (e ← releaseRestoreLeases o;
       match (e : option cerror) with
       | Some e => Ret (no_requeue, Some e)
       | None =>
           e ← call (ApiUpdate KGameRestore (with_restore_meta o
                 (with_finalizers (gr_meta o) (List.filter (fun f => f != RestoreFinalizer) (om_Finalizers (gr_meta o))))));
           Ret (no_requeue, or_error "remove GameRestore protection failed" e)
       end).

Definition dispatch_restore (o : GameRestore) : prog outcome :=
  match restore_phase o with
  | DataPhasePending | DataPhaseBlocked => prepareRestore o
  | DataPhasePreparing => reconcileRestorePreflight o
  | DataPhaseRunning => reconcileRestorePopulate o
  | DataPhaseVerifying => reconcileRestoreVerification o
  | DataPhaseActivating => reconcileRestoreActivation o
  | DataPhaseRollingBack => reconcileRestoreRollback o
  | DataPhaseCancelling => reconcileRestoreCancellation o
  | _ => Ret (no_requeue, Some (go_error "GameRestore has an unsupported nonterminal phase"))
  end.

Definition reconcile_restore (o : GameRestore) : prog outcome :=
  if deleting (gr_meta o) then finalizeRestore o
  else if negb (restore_protected o) then
    e ← call (ApiUpdate KGameRestore (with_restore_meta o
          (with_finalizers (gr_meta o) (om_Finalizers (gr_meta o) ++ [RestoreFinalizer]))));
    Ret (match e with
         | Some _ => (no_requeue, Some (go_error "protect GameRestore before external work failed"))
         | None => (requeue, None)
         end)
  else if restoreTerminal (restore_phase o) then
    unless_worker (deleteAllRestoreWorkers r o) (e ← releaseRestoreLeases o; Ret (no_requeue, e))
  else if restore_phase o == DataPhaseUnset
  then restore_write_return o DataPhasePending (setRestoreCondition o ConditionOperationAccepted ConditionTrue
         ReasonOperationAccepted "the immutable restore request was accepted")
  else if cancel_requested o && isSome (rs_ActivationStartedAt (gr_Status o)) &&
          (restore_phase o != DataPhaseRollingBack)
  then record_cancelled o DataPhaseRollingBack "cancellation is restoring the exact previous data selection"
  else if cancel_requested o && negb (isSome (rs_ActivationStartedAt (gr_Status o))) &&
          (restore_phase o != DataPhaseCancelling)
  then record_cancelled o DataPhaseCancelling "cancellation is stopping workers before settling the previous world"
  else dispatch_restore o.

Definition Restore_Reconcile (req : NamespacedName) : prog outcome :=
  o ← call (ApiGet KGameRestore CachedReader req);
  match o with
  | inl NotFound => Ret (no_requeue, None)
  | inl e => Ret (no_requeue, Some (FromApi e))
  | inr o => reconcile_restore o
  end.
End Controller.
