(* ===== verification/RestoreMachine.v ===== *)
(** * The abstract machine of a restore pass

    What a pass of the restore controller must have read before each kind of
    write ([restore_write]), as evidence in the events so far.  [RestoreSafety]
    shows that the controller writes nothing else. *)

From Stdlib Require Import Ascii.
From stdpp Require Import base tactics list strings gmap numbers.
From S2P Require Import Prelude GoStrings K8s ApiTypes DataOperation Operations GameDefinition KubeObjects KubePlan KubeApi TraceLogic WorkerInput KubeDestroy OperationFence WorkerPods SourceClaims ServerController KubeBackup KubeRestore BackupController RestoreStatus RestoreSource RestoreVolumes RestoreCandidates RestoreWorker RestoreController.
Open Scope string_scope.
Open Scope list_scope.

(** The state and generation the previous world, or the candidate started for
    it, must be left in. *)
Definition wanted_restore (o : GameRestore) (fence : ColdDataFence) : DesiredState * Z :=
  let generation := gsr_Generation (fence_GameServer fence) in
  if restores_running o then (DesiredStateRunning, int64 (generation + 1)) else (DesiredStateStopped, generation).

(** The candidate ends stopped at the fenced generation, or running at the
    journaled one. *)
Definition candidate_state (o : GameRestore) (fence : ColdDataFence) (state : DesiredState) (generation : Z) : Prop :=
  let g := gsr_Generation (fence_GameServer fence) in
  (restores_running o = false /\ state = DesiredStateStopped /\ generation = g) \/
  (rj_CandidateStartGeneration (recorded_journal o) = int64 (g + 1) /\
   state = DesiredStateRunning /\ generation = int64 (g + 1)).
(** The rollback ends over the cold previous world, or over the previous world
    running at the journaled generation. *)
Definition rollback_state (o : GameRestore) (fence : ColdDataFence) (state : DesiredState) (generation : Z) : Prop :=
  let g := gsr_Generation (fence_GameServer fence) in
  (restores_running o = false /\ state = DesiredStateStopped /\ (generation = g \/ generation = int64 (g + 2))) \/
  (rj_RollbackRestartGeneration (recorded_journal o) = generation /\ generation <> 0%Z /\
   state = DesiredStateRunning).

(** The kinds of a stage's authority and input. *)
Definition worker_kind {A} (k : kind A) : bool :=
  match k with KRoleBinding | KRole | KServiceAccount | KConfigMap => true | _ => false end.

Section Machine.
Context `{RegexpEngine} `{NameValidation} `{JsonSchema} `{TimeText} `{ResultDecoder}.
Variable r : GameRestoreReconciler.
Local Abbreviation rd := (directRestoreReader r).

(** ** Evidence in the reads of a pass *)

Definition obtained {A} (o : GameRestore) (k : kind A) (name : string) (x : apierr + A) (es : list event) : Prop :=
  Ev (ApiGet k rd (Key (gr_Namespace o) name)) x ∈ es.
#[export] Instance obtained_grows {A} o (k : kind A) n x : Grows (obtained o k n x).
Proof. unfold obtained. grows_tac. Qed.

(** The restore's own Lease on a world, as read. *)
Definition own_lease_read (o : GameRestore) (identity : string) (lease : Lease) (es : list event) : Prop :=
  obtained o KLease (DataOperationLeaseName identity) (inr lease) es /\
  (holds_restore_fence o (target_name o) identity lease = true).
(** A world is fenced by the restore for the server of this name. *)
Definition world_fenced (o : GameRestore) (name identity : string) (es : list event) : Prop :=
  (exists lease, obtained o KLease (DataOperationLeaseName identity) (inr lease) es /\
     (holds_restore_fence o name identity lease = true)) \/
  (exists t lease, Ev (ApiCreate KLease (restore_fence o identity name t)) (inr lease) ∈ es).
(** Both worlds are fenced. *)
Definition both_fenced (o : GameRestore) (name candidateIdentity : string) (es : list event) : Prop :=
  world_fenced o name (rs_PreviousDataIdentity (gr_Status o)) es /\ world_fenced o name candidateIdentity es /\
  (RestoreDataIdentity (gr_UID o) = Ok candidateIdentity).
#[export] Instance own_lease_read_grows o i l : Grows (own_lease_read o i l).
Proof. unfold own_lease_read. grows_tac. Qed.
#[export] Instance world_fenced_grows o n i : Grows (world_fenced o n i).
Proof. unfold world_fenced. grows_tac. Qed.
#[export] Instance both_fenced_grows o n c : Grows (both_fenced o n c).
Proof. unfold both_fenced. grows_tac. Qed.

(** The Pods of a stage, and that nothing of a stage is left. *)
Definition stage_pods (o : GameRestore) (stage : Stage) (pods : list Pod) (es : list event) : Prop :=
  exists l, Ev (ApiList KPod rd (Some (gr_Namespace o)) ∅) (inr l) ∈ es /\
    (pods = List.filter (stage_pod o stage) (Items l)).
Definition stage_absent (o : GameRestore) (stage : Stage) (es : list event) : Prop :=
  let name := RestoreResourceName (gr_UID o) stage in
  obtained o KJob name (inl NotFound) es /\ stage_pods o stage [] es /\
  obtained o KRoleBinding (name +:+ "-authority") (inl NotFound) es /\
  obtained o KRole (name +:+ "-authority") (inl NotFound) es /\
  obtained o KServiceAccount (name +:+ "-authority") (inl NotFound) es /\
  obtained o KConfigMap (name +:+ "-input") (inl NotFound) es.
Definition workers_absent (o : GameRestore) (es : list event) : Prop :=
  stage_absent o StagePreflight es /\ stage_absent o StagePopulate es.
#[export] Instance stage_pods_grows o s p : Grows (stage_pods o s p).
Proof. unfold stage_pods. grows_tac. Qed.
#[export] Instance stage_absent_grows o s : Grows (stage_absent o s).
Proof. unfold stage_absent. grows_tac. Qed.
#[export] Instance workers_absent_grows o : Grows (workers_absent o).
Proof. unfold workers_absent. grows_tac. Qed.

(** The claims of a data set were found to be exactly the recorded ones. *)
Definition claims_exact (o : GameRestore) (paths : list DataPathIdentity) (identity : string) (es : list event) : Prop :=
  (paths <> [] /\ identity <> "") /\
  forall path, path ∈ paths -> exists claim, obtained o KPersistentVolumeClaim (claimName path) (inr claim) es /\
    (selected_claim identity path claim = true).
Definition previous_claims_exact (o : GameRestore) (es : list event) : Prop :=
  claims_exact o (rs_PreviousData (gr_Status o)) (rs_PreviousDataIdentity (gr_Status o)) es.
(** The candidate is on fresh volumes that back neither the previous world nor
    a source claim that still exists. *)
Definition candidate_isolated (o : GameRestore) (source : DataSourceSnapshot) (es : list event) : Prop :=
  isolated rd (gr_Namespace o) (om_CreationTimestamp (gr_meta o)) (rs_PreviousData (gr_Status o))
    (rs_CandidateData (gr_Status o)) (src_Paths source) es.
Definition worlds_exact (o : GameRestore) (candidateIdentity : string) (source : DataSourceSnapshot) (es : list event) : Prop :=
  previous_claims_exact o es /\ claims_exact o (rs_CandidateData (gr_Status o)) candidateIdentity es /\
  candidate_isolated o source es.
#[export] Instance claims_exact_grows o p i : Grows (claims_exact o p i).
Proof. unfold claims_exact. grows_tac. Qed.
#[export] Instance previous_claims_exact_grows o : Grows (previous_claims_exact o).
Proof. unfold previous_claims_exact. grows_tac. Qed.
#[export] Instance candidate_isolated_grows o s : Grows (candidate_isolated o s).
Proof. unfold candidate_isolated. grows_tac. Qed.
#[export] Instance worlds_exact_grows o i s : Grows (worlds_exact o i s).
Proof. unfold worlds_exact. grows_tac. Qed.

(** The server was observed in a state, at a generation, on a selection; when
    it is to be stopped, nothing mounts the selected claims. *)
Definition settled_on (o : GameRestore) (server : GameServer) (selection : option RetainedDataReference)
    (state : DesiredState) (generation : Z) (es : list event) : Prop :=
  target_seen r o server es /\
  (intent_exact server selection state generation = true /\ runtime_observed server selection state generation = true) /\
  (state = DesiredStateStopped -> unmounted rd (gr_Namespace o) (selected_paths o selection) es).
#[export] Instance settled_on_grows o s d st g : Grows (settled_on o s d st g).
Proof. unfold settled_on. grows_tac. Qed.
(** The previous world is cold at a generation. *)
Definition world_cold (o : GameRestore) (generation : Z) (es : list event) : Prop :=
  exists server, target_seen r o server es /\
    (gs_Generation server = generation /\ gs_DesiredState (gs_Spec server) = DesiredStateStopped /\
     runtime_observed server (previous_selection o) DesiredStateStopped generation = true) /\
    unmounted rd (gr_Namespace o) (rs_PreviousData (gr_Status o)) es.
#[export] Instance world_cold_grows o g : Grows (world_cold o g).
Proof. unfold world_cold. grows_tac. Qed.

(** ** A worker at work *)

(** The repository-only stage: the candidate identity is fenced. *)
Definition preflighting (o : GameRestore) (s : restoreSubject) (es : list event) : Prop :=
  prepared r o s es /\ world_fenced o (server_Name (rsub_server s)) (rsub_candidateIdentity s) es /\
  (restore_phase o = DataPhasePreparing /\ rs_PreflightVerifiedAt (gr_Status o) = None).
(** The writing stage: over a cold server, on exactly the recorded candidates,
    isolated from the previous world, within the bound on attempts. *)
Definition populating (o : GameRestore) (s : restoreSubject) (es : list event) : Prop :=
  prepared r o s es /\
  (exists paths, candidates_bound r o s paths es /\ sameDataPaths paths (rs_CandidateData (gr_Status o)) = true) /\
  candidate_isolated o (rsub_source s) es /\
  (restore_phase o = DataPhaseRunning /\ cold_target o s = true /\
   (rs_PopulateAttempts (gr_Status o) <> 0 /\ rs_PopulateAttempts (gr_Status o) <= maxRestorePopulateAttempts)%Z).
Definition at_stage (o : GameRestore) (s : restoreSubject) (stage : Stage) (es : list event) : Prop :=
  ((stage = StagePreflight) /\ preflighting o s es) \/ ((stage = StagePopulate) /\ populating o s es).
#[export] Instance at_stage_grows o s st : Grows (at_stage o s st).
Proof. unfold at_stage, preflighting, populating. grows_tac. Qed.

(** The worker's objects, as the controller builds them. *)
Definition restore_built (o : GameRestore) (s : restoreSubject) (stage : Stage) (resources : RestoreResources) : Prop :=
  BuildRestoreResources (Some o) (restoreWorkerInput o s stage) (rr_WorkerImage r)
    (def_RuntimeIdentity (rsub_definition s)) = Ok resources.
(** The Job as it was read: the built one and, for the writing stage, the very
    Job whose UID was recorded while it was suspended. *)
Definition restore_job_read (o : GameRestore) (stage : Stage) (resources : RestoreResources) (job : Job) (es : list event) :
    Prop :=
  obtained o KJob (RestoreResourceName (gr_UID o) stage) (inr job) es /\
  (restore_job_unchanged o (rk_Job resources) job = true).
Definition job_journaled (o : GameRestore) (stage : Stage) (job : Job) : Prop :=
  stage = StagePopulate ->
  om_UID (job_meta job) = rs_PopulateJobUID (gr_Status o) /\ rs_PopulateJobUID (gr_Status o) <> "".
#[export] Instance restore_job_read_grows o st res j : Grows (restore_job_read o st res j).
Proof. unfold restore_job_read. grows_tac. Qed.

(** A report the controller may record: the only message of the one authorized
    Pod of the complete Job, for this artifact and every path. *)
Definition restore_attested (o : GameRestore) (s : restoreSubject) (stage : Stage) (result : Result) (es : list event) : Prop :=
  exists resources job pods, at_stage o s stage es /\ restore_job_read o stage resources job es /\
    stage_pods o stage pods es /\
    (restore_built o s stage resources /\ job_journaled o stage job /\ jobComplete job = true /\
     report_of job pods = ReportOk result /\ report_matches (restoreWorkerInput o s stage) result = true).
#[export] Instance restore_attested_grows o s st res : Grows (restore_attested o s st res).
Proof. unfold restore_attested. grows_tac. Qed.

(** ** What a status may say *)

Definition rsource_change (o : GameRestore) (s' : GameRestoreStatus) (es : list event) : Prop :=
  (ds_Source (rs_DataOperationStatus s') = ds_Source (rdata o) /\
   ds_Artifact (rs_DataOperationStatus s') = ds_Artifact (rdata o) /\
   rs_PreviousData s' = rs_PreviousData (gr_Status o) /\
   rs_PreviousDataIdentity s' = rs_PreviousDataIdentity (gr_Status o)) \/
  exists s, resolved_initial r o s es /\
    ((restore_phase o = DataPhasePending \/ restore_phase o = DataPhaseBlocked) /\
     ds_Source (rs_DataOperationStatus s') = Some (rsub_source s) /\
     ds_Artifact (rs_DataOperationStatus s') = Some (rsub_artifact s) /\
     rs_PreviousData s' = rsub_previousPaths s /\ rs_PreviousDataIdentity s' = rdr_Identity (rsub_previous s)).
Definition preflight_change (o : GameRestore) (s' : GameRestoreStatus) (es : list event) : Prop :=
  rs_PreflightVerifiedAt s' = rs_PreflightVerifiedAt (gr_Status o) \/
  exists s result, restore_attested o s StagePreflight result es /\
    (rs_PreflightVerifiedAt s' = Some (wr_VerifiedAt result)).
(** A fence is recorded over a cold, detached world that both Leases fence. *)
Definition rfence_change (o : GameRestore) (s' : GameRestoreStatus) (es : list event) : Prop :=
  ds_Fence (rs_DataOperationStatus s') = ds_Fence (rdata o) \/
  exists t name candidateIdentity, both_fenced o name candidateIdentity es /\ world_cold o (stop_generation o) es /\
    (ds_Fence (rdata o) = None /\
     ds_Fence (rs_DataOperationStatus s') = Some (restore_cold_fence o (stop_generation o) t)).
Definition candidate_change (o : GameRestore) (s' : GameRestoreStatus) (es : list event) : Prop :=
  rs_CandidateData s' = rs_CandidateData (gr_Status o) \/
  exists s, prepared r o s es /\ candidates_bound r o s (rs_CandidateData s') es /\
    both_fenced o (server_Name (rsub_server s)) (rsub_candidateIdentity s) es /\
    (restore_phase o = DataPhasePreparing).
Definition verification_change (o : GameRestore) (s' : GameRestoreStatus) (es : list event) : Prop :=
  rs_CandidateVerification s' = rs_CandidateVerification (gr_Status o) \/
  exists s result, restore_attested o s StagePopulate result es /\
    (rs_CandidateVerification s' = Some (MkCandidateVerification VerificationVerified (wr_ManifestDigest result)
       (wr_PathCount result) (wr_VerifiedAt result))).
(** Activation begins with the verified candidate found again, both worlds
    fenced, the server cold and the writing worker gone. *)
Definition activation_change (o : GameRestore) (s' : GameRestoreStatus) (es : list event) : Prop :=
  rs_ActivationStartedAt s' = rs_ActivationStartedAt (gr_Status o) \/
  exists s paths t, prepared r o s es /\ candidates_bound r o s paths es /\
    both_fenced o (target_name o) (rsub_candidateIdentity s) es /\ stage_absent o StagePopulate es /\
    (sameDataPaths paths (rs_CandidateData (gr_Status o)) = true /\ cold_target o s = true /\
     restore_phase o = DataPhaseVerifying /\ isSome (rs_CandidateVerification (gr_Status o)) = true /\
     restoreFailureRecorded o = false /\ rs_ActivationStartedAt s' = Some t).
(** The journal announces a generation before the server is moved to it. *)
Definition journal_change (o : GameRestore) (s' : GameRestoreStatus) (es : list event) : Prop :=
  rs_RuntimeJournal s' = rs_RuntimeJournal (gr_Status o) \/
  exists fence, workers_absent o es /\
    (ds_Fence (rdata o) = Some fence /\
     let g := gsr_Generation (fence_GameServer fence) in
     (rs_RuntimeJournal s' = rs_RuntimeJournal (journal_recovery (gr_Status o) (int64 (g + 1))) /\
      rj_PreviousRecoveryGeneration (recorded_journal o) = 0%Z /\ restores_running o = true) \/
     (rs_RuntimeJournal s' = rs_RuntimeJournal (journal_start (gr_Status o) (int64 (g + 1))) /\
      rj_CandidateStartGeneration (recorded_journal o) = 0%Z /\ restores_running o = true /\
      restore_phase o = DataPhaseActivating) \/
     (rs_RuntimeJournal s' = rs_RuntimeJournal (journal_stop (gr_Status o) (int64 (g + 2))) /\
      rj_RollbackStopGeneration (recorded_journal o) = 0%Z /\ restore_phase o = DataPhaseRollingBack) \/
     (rs_RuntimeJournal s' = rs_RuntimeJournal (journal_restart (gr_Status o) (rollback_restart o g)) /\
      rj_RollbackRestartGeneration (recorded_journal o) = 0%Z /\ restores_running o = true /\
      restore_phase o = DataPhaseRollingBack)).

(** What the previous world was left in, when no candidate was activated. *)
Definition previous_left (o : GameRestore) (runtime : option RuntimeDisposition) (es : list event) : Prop :=
  ((ds_Fence (rdata o) = None /\ runtime = None) /\
     ((ds_Source (rdata o) = None) \/
      exists server, target_seen r o server es /\
      (gs_Generation server = gsr_Generation (restore_target o) /\
       gs_DesiredState (gs_Spec server) = gsr_DesiredState (restore_target o)))) \/
  (exists fence server t, previous_claims_exact o es /\
     settled_on o server (previous_selection o) (wanted_restore o fence).1 (wanted_restore o fence).2 es /\
     (ds_Fence (rdata o) = Some fence /\ not_previous server (previous_selection o) = false /\
      runtime = Some (restore_disposition o (wanted_restore o fence).1 (wanted_restore o fence).2 t))).
(** The candidate is selected and in the state the restore was to leave it in. *)
Definition candidate_served (o : GameRestore) (runtime : option RuntimeDisposition) (es : list event) : Prop :=
  exists fence source candidateIdentity server state generation t,
    both_fenced o (target_name o) candidateIdentity es /\ worlds_exact o candidateIdentity source es /\
    settled_on o server (candidate_selection o candidateIdentity) state generation es /\
    (ds_Fence (rdata o) = Some fence /\ ds_Source (rdata o) = Some source /\
     isSome (rs_CandidateVerification (gr_Status o)) = true /\
     sameDataSelection (gss_ActiveData (gs_Status server)) (candidate_selection o candidateIdentity) = true /\
     candidate_state o fence state generation /\ runtime = Some (restore_disposition o state generation t)).
(** The previous world is selected again, or was never replaced, and is in the
    state and at the generation the rollback ends in. *)
Definition rollback_settled (o : GameRestore) (runtime : option RuntimeDisposition) (es : list event) : Prop :=
  exists fence candidateIdentity server state generation t,
    both_fenced o (target_name o) candidateIdentity es /\ previous_claims_exact o es /\
    settled_on o server (previous_selection o) state generation es /\
    (ds_Fence (rdata o) = Some fence /\ not_previous server (previous_selection o) = false /\
     rollback_state o fence state generation /\ runtime = Some (restore_disposition o state generation t)).

#[export] Instance previous_left_grows o t : Grows (previous_left o t).
Proof. unfold previous_left. grows_tac. Qed.
#[export] Instance candidate_served_grows o t : Grows (candidate_served o t).
Proof. unfold candidate_served. grows_tac. Qed.
#[export] Instance rollback_settled_grows o t : Grows (rollback_settled o t).
Proof. unfold rollback_settled. grows_tac. Qed.

Definition restore_ended (o : GameRestore) (s' : GameRestoreStatus) (es : list event) : Prop :=
  let runtime := ds_Runtime (rs_DataOperationStatus s') in
  let phase := ds_Phase (rs_DataOperationStatus s') in
  workers_absent o es /\
  ((candidate_served o runtime es /\
    (phase = DataPhaseSucceeded /\ restore_phase o = DataPhaseActivating /\ rs_ActiveData s' = rs_CandidateData (gr_Status o))) \/
   (rollback_settled o runtime es /\
    ((phase = DataPhaseFailed \/ phase = DataPhaseCancelled) /\ restore_phase o = DataPhaseRollingBack /\
     rs_ActiveData s' = rs_PreviousData (gr_Status o))) \/
   (previous_left o runtime es /\
    ((phase = DataPhaseFailed \/ phase = DataPhaseCancelled) /\ restore_phase o <> DataPhaseActivating /\
     restore_phase o <> DataPhaseRollingBack /\ rs_ActiveData s' = rs_ActiveData (gr_Status o)))).
Definition restore_ending (o : GameRestore) (s' : GameRestoreStatus) (es : list event) : Prop :=
  (terminal (ds_Phase (rs_DataOperationStatus s')) = false /\
   ds_Runtime (rs_DataOperationStatus s') = ds_Runtime (rdata o) /\ rs_ActiveData s' = rs_ActiveData (gr_Status o)) \/
  restore_ended o s' es.

Definition rchanges (o : GameRestore) (phase : DataOperationPhase) (s' : GameRestoreStatus) (es : list event) : Prop :=
  (ds_Phase (rs_DataOperationStatus s') = phase /\ ds_ObservedGeneration (rs_DataOperationStatus s') = gr_Generation o) /\
  rsource_change o s' es /\ preflight_change o s' es /\ rfence_change o s' es /\ candidate_change o s' es /\
  verification_change o s' es /\ activation_change o s' es /\ journal_change o s' es /\ restore_ending o s' es.
(** Both safety contracts accepted the status, and its conditions are those
    every data operation keeps. *)
Definition raccepted (o : GameRestore) (s' : GameRestoreStatus) : Prop :=
  (ValidateTransition RestoreOperation (restore_phase o) (ds_Phase (rs_DataOperationStatus s')) (verified_restore s') = Ok tt /\
   forall c, c ∈ ds_Conditions (rs_DataOperationStatus s') -> cond_Type c ∈ backupConditionOrder) /\
  ValidateRestoreStatus (Some (with_restore_status o s')) = Ok tt.
#[export] Instance rchanges_grows o phase s' : Grows (rchanges o phase s').
Proof.
  unfold rchanges, rsource_change, preflight_change, rfence_change, candidate_change, verification_change,
    activation_change, journal_change, restore_ending, restore_ended, candidate_served, rollback_settled, previous_left.
  grows_tac.
Qed.

(** ** The moves of the server *)

(** The restore's Lease on a world lets the server run so. *)
Definition rsettlement_allowed (o : GameRestore) (identity : string) (state : DesiredState) (generation : Z)
    (es : list event) : Prop :=
  exists lease, own_lease_read o identity lease es /\
    ((settlement_present identity state generation lease = true) \/
     Ev (ApiUpdate KLease (with_lease_meta lease (restore_settlement identity state generation lease))) None ∈ es).
#[export] Instance rsettlement_allowed_grows o i s g : Grows (rsettlement_allowed o i s g).
Proof. unfold rsettlement_allowed. grows_tac. Qed.

(** The world the move is for, and that its claims were found exact; a rollback
    may stop the candidate whatever became of its claims. *)
Definition settled_world (o : GameRestore) (identity : string) (es : list event) : Prop :=
  ((RestoreDataIdentity (gr_UID o) = Ok identity) /\
   (claims_exact o (rs_CandidateData (gr_Status o)) identity es \/
    (restore_phase o = DataPhaseRollingBack) /\ previous_claims_exact o es)) \/
  ((identity = rs_PreviousDataIdentity (gr_Status o)) /\ previous_claims_exact o es).
#[export] Instance settled_world_grows o i : Grows (settled_world o i).
Proof. unfold settled_world. grows_tac. Qed.

(** A change of the server's intent that the restore may settle: on which
    world, to which state, and the generation it was announced for. *)
Inductive settles_move (o : GameRestore) (fence : ColdDataFence) (server : GameServer) :
    string -> DesiredState -> Z -> Prop :=
| MoveRecover : not_previous server (previous_selection o) = false -> restores_running o = true ->
    gs_Generation server = gsr_Generation (fence_GameServer fence) ->
    gs_DesiredState (gs_Spec server) = DesiredStateStopped ->
    rj_PreviousRecoveryGeneration (recorded_journal o) <> 0%Z ->
    settles_move o fence server (rs_PreviousDataIdentity (gr_Status o)) DesiredStateRunning
      (int64 (gsr_Generation (fence_GameServer fence) + 1))
| MoveStart candidateIdentity : RestoreDataIdentity (gr_UID o) = Ok candidateIdentity ->
    sameDataSelection (gss_ActiveData (gs_Status server)) (candidate_selection o candidateIdentity) = true ->
    gs_Generation server = gsr_Generation (fence_GameServer fence) ->
    gs_DesiredState (gs_Spec server) = DesiredStateStopped ->
    rj_CandidateStartGeneration (recorded_journal o) = int64 (gsr_Generation (fence_GameServer fence) + 1) ->
    restore_phase o = DataPhaseActivating ->
    settles_move o fence server candidateIdentity DesiredStateRunning
      (int64 (gsr_Generation (fence_GameServer fence) + 1))
| MoveStop candidateIdentity : RestoreDataIdentity (gr_UID o) = Ok candidateIdentity ->
    sameDataSelection (gss_ActiveData (gs_Status server)) (candidate_selection o candidateIdentity) = true ->
    gs_Generation server = int64 (gsr_Generation (fence_GameServer fence) + 1) ->
    gs_DesiredState (gs_Spec server) = DesiredStateRunning ->
    rj_RollbackStopGeneration (recorded_journal o) = int64 (gsr_Generation (fence_GameServer fence) + 2) ->
    restore_phase o = DataPhaseRollingBack ->
    settles_move o fence server candidateIdentity DesiredStateStopped
      (int64 (gsr_Generation (fence_GameServer fence) + 2))
| MoveRestart : not_previous server (previous_selection o) = false -> restores_running o = true ->
    gs_DesiredState (gs_Spec server) = DesiredStateStopped ->
    gs_Generation server = gsr_Generation (fence_GameServer fence) \/
    gs_Generation server = int64 (gsr_Generation (fence_GameServer fence) + 2) ->
    rj_RollbackRestartGeneration (recorded_journal o) = rollback_restart o (gsr_Generation (fence_GameServer fence)) ->
    restore_phase o = DataPhaseRollingBack ->
    settles_move o fence server (rs_PreviousDataIdentity (gr_Status o)) DesiredStateRunning
      (rollback_restart o (gsr_Generation (fence_GameServer fence))).

(** ** The machine *)

Inductive restore_write (o : GameRestore) (es : list event) : event -> Prop :=
| RWStatus s' x : rchanges o (ds_Phase (rs_DataOperationStatus s')) s' es -> raccepted o s' ->
    restore_write o es (Ev (ApiUpdateStatus KGameRestore (with_restore_status o s')) x)
| RWProtect x : deleting (gr_meta o) = false ->
    restore_write o es (Ev (ApiUpdate KGameRestore (with_restore_meta o
      (with_finalizers (gr_meta o) (om_Finalizers (gr_meta o) ++ [RestoreFinalizer])))) x)
| RWUnprotect x : deleting (gr_meta o) = true -> restoreTerminal (restore_phase o) = true -> workers_absent o es ->
    restore_write o es (Ev (ApiUpdate KGameRestore (with_restore_meta o
      (with_finalizers (gr_meta o) (List.filter (fun f => f != RestoreFinalizer) (om_Finalizers (gr_meta o)))))) x)
| RWFence s identity t x : prepared r o s es ->
    identity = rsub_candidateIdentity s \/ identity = rs_PreviousDataIdentity (gr_Status o) ->
    obtained o KLease (DataOperationLeaseName identity) (inl NotFound) es ->
    restore_write o es (Ev (ApiCreate KLease (restore_fence o identity (server_Name (rsub_server s)) t)) x)
| RWReleaseLease lease x : restoreTerminal (restore_phase o) = true -> workers_absent o es ->
    holds_restore_fence o (target_name o) (lease_label lease LabelDataIdentity) lease = true ->
    restore_write o es (Ev (ApiDelete KLease lease (MkDeleteOptions None None None)) x)
| RWClearWorker stage identity lease x : own_lease_read o identity lease es -> stage_absent o stage es ->
    restore_write o es (Ev (ApiUpdate KLease
      (with_lease_meta lease (delete AnnotationWorkerPodUID (om_Annotations (ls_meta lease))))) x)
| RWStop s x : prepared r o s es ->
    both_fenced o (server_Name (rsub_server s)) (rsub_candidateIdentity s) es -> stage_absent o StagePreflight es ->
    isSome (rs_PreflightVerifiedAt (gr_Status o)) = true -> ds_Fence (rdata o) = None ->
    gsr_DesiredState (restore_target o) = DesiredStateRunning ->
    gs_Generation (rsub_server s) = gsr_Generation (restore_target o) ->
    restore_write o es (Ev (ApiUpdate KGameServer (with_desired (rsub_server s) DesiredStateStopped)) x)
| RWAllow fence server identity state generation lease x : workers_absent o es ->
    ds_Fence (rdata o) = Some fence -> target_seen r o server es -> settled_world o identity es ->
    own_lease_read o identity lease es ->
    restore_write o es (Ev (ApiUpdate KLease (with_lease_meta lease (restore_settlement identity state generation lease))) x)
| RWMove fence server identity state generation x : workers_absent o es ->
    ds_Fence (rdata o) = Some fence -> target_seen r o server es -> previous_claims_exact o es ->
    settles_move o fence server identity state generation ->
    rsettlement_allowed o identity state generation es ->
    restore_write o es (Ev (ApiUpdate KGameServer (with_desired server state)) x)
| RWSelect fence source candidateIdentity server d x : workers_absent o es ->
    ds_Fence (rdata o) = Some fence -> ds_Source (rdata o) = Some source ->
    isSome (rs_CandidateVerification (gr_Status o)) = true -> isSome (rs_ActivationStartedAt (gr_Status o)) = true ->
    restore_phase o = DataPhaseActivating ->
    both_fenced o (target_name o) candidateIdentity es -> worlds_exact o candidateIdentity source es ->
    candidateIdentity <> rs_PreviousDataIdentity (gr_Status o) ->
    target_seen r o server es -> fenced_target fence server = true ->
    not_previous server (previous_selection o) = false ->
    runtime_observed server (previous_selection o) DesiredStateStopped (gsr_Generation (fence_GameServer fence)) = true ->
    rsettlement_allowed o candidateIdentity DesiredStateStopped (gsr_Generation (fence_GameServer fence)) es ->
    candidate_selection o candidateIdentity = Some d ->
    restore_write o es (Ev (ApiUpdateStatus KGameServer (with_active_data server (Some d))) x)
| RWReselect fence candidateIdentity server d x : workers_absent o es ->
    ds_Fence (rdata o) = Some fence -> isSome (rs_ActivationStartedAt (gr_Status o)) = true ->
    restore_phase o = DataPhaseRollingBack ->
    both_fenced o (target_name o) candidateIdentity es -> previous_claims_exact o es ->
    target_seen r o server es -> gs_DesiredState (gs_Spec server) = DesiredStateStopped ->
    sameDataSelection (gss_ActiveData (gs_Status server)) (candidate_selection o candidateIdentity) = true ->
    unmounted rd (gr_Namespace o) (rs_CandidateData (gr_Status o)) es ->
    rsettlement_allowed o (rs_PreviousDataIdentity (gr_Status o)) DesiredStateStopped (gs_Generation server) es ->
    previous_selection o = Some d ->
    restore_write o es (Ev (ApiUpdateStatus KGameServer (with_active_data server (Some d))) x)
| RWCandidate s planned name x : prepared r o s es -> candidates_allowed o s = true ->
    planned ∈ DataClaims (rsub_plan s) ->
    RestoreCandidateID (gr_UID o) (claim_label (Desired planned) LabelDataPath) = Ok name ->
    rs_CandidateData (gr_Status o) = [] ->
    Ev (ApiGet KPersistentVolumeClaim rd
          (key_of (pvc_meta (candidate_claim o (rsub_candidateIdentity s) name (Desired planned))))) (inl NotFound) ∈ es ->
    restore_write o es (Ev (ApiCreate KPersistentVolumeClaim
      (candidate_claim o (rsub_candidateIdentity s) name (Desired planned))) x)
| RWInput s stage resources x : at_stage o s stage es -> restore_built o s stage resources ->
    restore_write o es (Ev (ApiCreate KConfigMap (rk_Input resources)) x)
| RWServiceAccount s stage resources x : at_stage o s stage es -> restore_built o s stage resources ->
    restore_write o es (Ev (ApiCreate KServiceAccount (rk_ServiceAccount resources)) x)
| RWRole s stage resources x : at_stage o s stage es -> restore_built o s stage resources ->
    restore_write o es (Ev (ApiCreate KRole (rk_Role resources)) x)
| RWRoleBinding s stage resources x : at_stage o s stage es -> restore_built o s stage resources ->
    restore_write o es (Ev (ApiCreate KRoleBinding (rk_RoleBinding resources)) x)
| RWJob s stage resources x : at_stage o s stage es -> restore_built o s stage resources -> stage_pods o stage [] es ->
    restore_write o es (Ev (ApiCreate KJob (rk_Job resources)) x)
| RWActivate s stage resources job x : at_stage o s stage es -> restore_built o s stage resources ->
    restore_job_read o stage resources job es -> job_journaled o stage job ->
    restore_write o es (Ev (ApiUpdate KJob (set_suspend job false)) x)
| RWAuthorize s stage resources job pod x : at_stage o s stage es -> restore_built o s stage resources ->
    restore_job_read o stage resources job es -> job_journaled o stage job -> job_Suspend (job_Spec job) = Some false ->
    stage_pods o stage [pod] es ->
    restorePodIdentityMatches job pod = true -> restorePodSpecMatches job pod = true -> pod_unstarted pod = true ->
    restore_authorized_uid pod = "" ->
    restore_write o es (Ev (ApiUpdate KPod (restore_authorized pod)) x)
| RWDeleteJob stage job x : obtained o KJob (RestoreResourceName (gr_UID o) stage) (inr job) es ->
    restoreControlledBy o (job_meta job) = true ->
    restore_write o es (Ev (ApiDelete KJob job (MkDeleteOptions None None (Some "Foreground"))) x)
| RWDeleteObject {A} (k : kind A) stage name object x :
    (name = RestoreResourceName (gr_UID o) stage +:+ "-authority" \/ name = RestoreResourceName (gr_UID o) stage +:+ "-input") ->
    worker_kind k = true -> obtained o k name (inr object) es -> restoreControlledBy o (object_meta k object) = true ->
    restore_write o es (Ev (ApiDelete k object (MkDeleteOptions None None None)) x).
End Machine.
