(* ===== verification/RestoreEvidence.v ===== *)
(** * The reads of a restore pass give the evidence of its machine

    Each lemma turns an execution of one of the controller's reads into the
    evidence of [RestoreMachine] that the affirmed read leaves behind. *)

From Stdlib Require Import Ascii.
From stdpp Require Import base tactics list strings gmap numbers.
From S2P Require Import Prelude GoStrings K8s ApiTypes DataOperation DataStatus Operations GameDefinition KubeObjects KubePlan KubeApi TraceLogic WorkerInput KubeDestroy OperationFence WorkerPods SourceClaims ServerController KubeBackup KubeRestore BackupController RestoreStatus RestoreSource RestoreVolumes RestoreCandidates RestoreWorker RestoreController RestoreMachine.
Open Scope string_scope.
Open Scope list_scope.

Section Evidence.
Context `{RegexpEngine} `{NameValidation} `{JsonSchema} `{TimeText} `{ResultDecoder}.
Variable r : GameRestoreReconciler.
Local Abbreviation rd := (directRestoreReader r).

(** ** Workers *)

Lemma reads_listRestoreStagePods o stage : reads_only (listRestoreStagePods r o stage).
Proof. unfold listRestoreStagePods. reads_tac. Qed.
Lemma listRestoreStagePods_pods o stage es pods : steps (listRestoreStagePods r o stage) es (Some pods) ->
  stage_pods r o stage pods es.
Proof.
  unfold listRestoreStagePods. intros (es1 & es2 & x & -> & ->%steps_call & [-> Hs])%steps_bind.
  destruct x as [e|l]; [done|]. case_bool_decide; [done|]. injection Hs as ->. exists l. split; [by left | done].
Qed.

Lemma delete_stage_object_absent {A} o stage (k : kind A) name m1 m2 m3 es :
  steps (delete_stage_object r o stage k name m1 m2 m3) es None -> obtained r o k name (inl NotFound) es.
Proof.
  unfold delete_stage_object, restore_get. intros (es1 & es2 & x & -> & ->%steps_call & Hs)%steps_bind.
  destruct x as [[|m]|object]; [by left | by destruct Hs|]. destruct (_ || _)%bool; [by destruct Hs|].
  apply steps_bind in Hs as (es3 & es4 & y & _ & _ & [_ Hs]). by destruct y.
Qed.
Lemma or_next_steps p k es (x : cerror + bool) : steps (or_next p k) es x ->
  (exists y, steps p es (Some y) /\ x = y) \/ exists es1 es2, es = es1 ++ es2 /\ steps p es1 None /\ steps k es2 x.
Proof.
  unfold or_next. intros (es1 & es2 & y & -> & Hp & Hs)%steps_bind. destruct y as [y|].
  - destruct Hs as [-> ->]. left. exists y. by rewrite app_nil_r.
  - right. by exists es1, es2.
Qed.
Lemma delete_stage_object_pending {A} o stage (k : kind A) name m1 m2 m3 es y :
  steps (delete_stage_object r o stage k name m1 m2 m3) es (Some y) -> y <> inr false.
Proof.
  unfold delete_stage_object, restore_get. intros (es1 & es2 & x & -> & _ & Hs)%steps_bind.
  destruct x as [[|m]|object]; [by destruct Hs | by destruct Hs as [_ [= ->]] |].
  destruct (_ || _)%bool; [by destruct Hs as [_ [= ->]]|].
  apply steps_bind in Hs as (es3 & es4 & x & _ & _ & [_ [= ->]]). by destruct x as [[]|].
Qed.

Lemma deleteRestoreWorkerAndWait_absent o stage es :
  steps (deleteRestoreWorkerAndWait r o stage) es (inr false) -> stage_absent r o stage es.
Proof.
  unfold deleteRestoreWorkerAndWait, restore_get. intros (es1 & es2 & x & -> & ->%steps_call & Hs)%steps_bind.
  destruct x as [[|m]|job]; [|by destruct Hs|].
  - apply steps_bind in Hs as (es3 & es4 & pods & -> & Hp & Hs). destruct pods as [pods|]; [|by destruct Hs].
    apply listRestoreStagePods_pods in Hp. destruct (len pods >? 0)%Z eqn:Hl; [by destruct Hs|].
    assert (pods = []) as ->.
    { unfold len in Hl. rewrite Z.gtb_ltb in Hl. apply Z.ltb_ge in Hl. destruct pods; [done | cbn in Hl; lia]. }
    unfold deleteRestoreStageAuthorityAndWait in Hs. cbv zeta in Hs. case_bool_decide; [by destruct Hs|].
    repeat (apply or_next_steps in Hs as [(y & Hs & Hy)|(? & ? & -> & ?%delete_stage_object_absent & Hs)];
      [apply delete_stage_object_pending in Hs; congruence|]).
    unfold obtained in *. split_and!; [unfold obtained; in_trace | grow Hp | unfold obtained; in_trace..].
  - destruct (negb _); [by destruct Hs|]. apply steps_bind in Hs as (es3 & es4 & x & _ & _ & [_ Hs]).
    by destruct x as [[]|].
Qed.
Lemma deleteAllRestoreWorkers_absent o es : steps (deleteAllRestoreWorkers r o) es (inr false) -> workers_absent r o es.
Proof.
  unfold deleteAllRestoreWorkers. intros (es1 & es2 & x & -> & Hp & Hs)%steps_bind. destruct x as [e|[]]; [by destruct Hs..|].
  apply deleteRestoreWorkerAndWait_absent in Hp, Hs. split; [grow Hp | grow Hs].
Qed.

(** ** Leases *)

Lemma reads_own_restore_lease o identity m1 m2 : reads_only (own_restore_lease r o identity m1 m2).
Proof. unfold own_restore_lease, restore_get. reads_tac. Qed.
Lemma own_restore_lease_read o identity m1 m2 es lease :
  steps (own_restore_lease r o identity m1 m2) es (inr lease) -> own_lease_read r o identity lease es.
Proof.
  unfold own_restore_lease, restore_get. intros (es1 & es2 & x & -> & ->%steps_call & [-> Hs])%steps_bind.
  destruct x as [e|l]; [done|]. destruct (holds_restore_fence _ _ _ _) eqn:Hh; [|done]. injection Hs as ->.
  split; [by left | done].
Qed.
Lemma acquireRestoreLease_fenced o identity name es :
  steps (acquireRestoreLease r o identity name) es None -> world_fenced r o name identity es.
Proof.
  unfold acquireRestoreLease, restore_get, nowRestore. destruct (_ || _)%bool; [by intros []|].
  intros (es1 & es2 & x & -> & ->%steps_call & Hs)%steps_bind. destruct x as [[|m]|lease]; [|by destruct Hs|].
  - apply steps_bind in Hs as (es3 & es4 & t & -> & ->%steps_call & Hs).
    apply steps_bind in Hs as (es5 & es6 & x & -> & ->%steps_call & [-> Hs]).
    destruct x as [e|l]; [by destruct (IsAlreadyExists e)|]. right. exists t, l. set_solver.
  - destruct Hs as [-> Hs]. destruct (holds_restore_fence _ _ _ _) eqn:Hh; [|done].
    left. exists lease. split; [by left | done].
Qed.
Lemma reads_ensureRestoreLeases o p c : reads_only (ensureRestoreLeases r o p c).
Proof. unfold ensureRestoreLeases, own_restore_lease, restore_get. reads_tac. Qed.
Lemma ensureRestoreLeases_fenced o candidate es :
  steps (ensureRestoreLeases r o (rs_PreviousDataIdentity (gr_Status o)) candidate) es None ->
  RestoreDataIdentity (gr_UID o) = Ok candidate -> both_fenced r o (target_name o) candidate es.
Proof.
  intros Hs Hc. assert (forall i, i ∈ [rs_PreviousDataIdentity (gr_Status o); candidate] ->
    world_fenced r o (target_name o) i es) as Hw.
  { intros i Hin. destruct (loop_none_each _ _ _ Hs i Hin) as (es' & Hsub & Hs').
    apply steps_bind in Hs' as (es1 & es2 & x & -> & Hl & [-> Hs']). destruct x as [|lease]; [done|].
    apply own_restore_lease_read in Hl as [Ho Hh]. left. exists lease. split; [|done].
    unfold obtained in *. set_solver. }
  split_and!; [apply Hw; by left | apply Hw; by right; left | done].
Qed.
Lemma allowRestoreSettlement_allowed o identity state generation es :
  steps (allowRestoreSettlement r o identity state generation) es None ->
  rsettlement_allowed r o identity state generation es.
Proof.
  unfold allowRestoreSettlement. intros (es1 & es2 & x & -> & Hl & Hs)%steps_bind. destruct x as [e|lease]; [by destruct Hs|].
  apply own_restore_lease_read in Hl. exists lease. destruct (settlement_present _ _ _ _) eqn:E.
  - destruct Hs as [-> _]. split; [grow Hl | by left].
  - apply steps_bind in Hs as (es3 & es4 & x & -> & ->%steps_call & [-> Hs]). destruct x; [done|].
    split; [grow Hl|]. right. set_solver.
Qed.

(** ** The server and the claims *)

Lemma reads_exactRestoreServer o : reads_only (exactRestoreServer r o).
Proof. unfold exactRestoreServer, restore_get. reads_tac. Qed.
Lemma exactRestoreServer_seen o es server : steps (exactRestoreServer r o) es (inr server) -> target_seen r o server es.
Proof.
  unfold exactRestoreServer, restore_get. intros (es1 & es2 & x & -> & ->%steps_call & [-> Hs])%steps_bind.
  destruct x as [e|s]; [done|]. destruct (_ || _)%bool eqn:E; [done|]. injection Hs as ->.
  apply orb_false_iff in E as [E%negb_false_iff Hd]. apply bool_decide_eq_true in E. split; [by left | done].
Qed.
Lemma reads_verifyRestoreDataClaims o paths identity : reads_only (verifyRestoreDataClaims r o paths identity).
Proof. unfold verifyRestoreDataClaims, restore_get. reads_tac. Qed.
Lemma verifyRestoreDataClaims_exact o paths identity es :
  steps (verifyRestoreDataClaims r o paths identity) es None -> claims_exact r o paths identity es.
Proof.
  unfold verifyRestoreDataClaims, restore_get. destruct (_ || _)%bool eqn:E; [by intros []|]. intros Hs.
  apply orb_false_iff in E as [E1%bool_decide_eq_false E2%bool_decide_eq_false].
  split; [split; [intros ->; by apply E1 | done]|]. intros path Hin.
  destruct (loop_none_each _ _ _ Hs path Hin) as (es' & Hsub & (es1 & es2 & x & -> & ->%steps_call & [-> Hs'])%steps_bind).
  destruct x as [e|claim]; [done|]. destruct (selected_claim _ _ _) eqn:Hc; [|done].
  exists claim. split; [|done]. unfold obtained. set_solver.
Qed.

Lemma reads_observeRestoreRuntime o server d state g : reads_only (observeRestoreRuntime r o server d state g).
Proof.
  pose proof (reads_sourceClaimsUnmounted rd (gr_Namespace o)) as Hu. unfold reads_only in Hu.
  unfold observeRestoreRuntime, nowRestore. reads_tac.
Qed.
Lemma observeRestoreRuntime_settled o server d state g es acc runtime :
  target_seen r o server acc -> steps (observeRestoreRuntime r o server d state g) es (inr (runtime, false)) ->
  settled_on r o server d state g (acc ++ es) /\ exists t, runtime = Some (restore_disposition o state g t).
Proof.
  intros Ht. unfold observeRestoreRuntime, nowRestore. destruct (intent_exact _ _ _ _) eqn:Hi; cbn [negb]; [|by intros []].
  destruct (runtime_observed _ _ _ _) eqn:Ho; cbn [negb]; [|by intros []].
  intros (es1 & es2 & x & -> & Hc & Hs)%steps_bind. destruct x as [e|[]]; [by destruct Hs| |by destruct Hs].
  apply steps_bind in Hs as (es3 & es4 & t & -> & ->%steps_call & [-> Hs]). injection Hs as ->.
  split; [|by exists t]. split_and!; [grow Ht | done..|]. intros ->.
  rewrite bool_decide_eq_true_2 in Hc by done. apply sourceClaimsUnmounted_unmounted in Hc. grow Hc.
Qed.

(** The runtime an observation reports is over. *)
Lemma settled_or_steps {A} (x : cerror + settlement) (failed : cerror -> prog A) (waiting : prog A) k es a :
  steps (settled_or x failed waiting k) es a ->
  (exists e, x = inl e /\ steps (failed e) es a) \/ (exists t, x = inr (t, true) /\ steps waiting es a) \/
  exists t, x = inr (t, false) /\ steps (k t) es a.
Proof. destruct x as [e|[t []]]; cbn; eauto 6. Qed.

(** ** The worker's Job *)

Lemma build_keys o input image identity res : BuildRestoreResources (Some o) input image identity = Ok res ->
  key_of (job_meta (rk_Job res)) = Key (gr_Namespace o) (RestoreResourceName (gr_UID o) (in_Stage input)).
Proof. intros (_ & _ & _ & _ & _ & ->)%BuildRestoreResources_inv. reflexivity. Qed.

Lemma reads_read_previous o paths world : reads_only (read_previous r o paths world).
Proof.
  revert world. induction paths as [|p paths IH]; intros world; cbn [read_previous]; unfold restore_get, reads_only; emits_tac.
  apply IH.
Qed.
End Evidence.
