(* ===== verification/RestoreParts.v ===== *)
(** * Every part of a restore pass writes only what the machine allows

    One lemma per part of [RestoreController] and [RestoreWorker], from the
    status writes up to the phases: whatever the API server answers, each write
    is one of [restore_write], with its evidence in the reads before it. *)

From Stdlib Require Import Ascii.
From stdpp Require Import base tactics list strings gmap numbers.
From S2P Require Import Prelude GoStrings K8s ApiTypes DataOperation DataStatus Operations GameDefinition KubeObjects KubePlan KubeApi TraceLogic WorkerInput KubeDestroy OperationFence WorkerPods SourceClaims ServerController KubeBackup KubeRestore BackupController RestoreStatus RestoreSource RestoreVolumes RestoreCandidates RestoreWorker RestoreController RestoreMachine RestoreEvidence.
Open Scope string_scope.
Open Scope list_scope.

Section Parts.
Context `{RegexpEngine} `{NameValidation} `{JsonSchema} `{TimeText} `{ResultDecoder}.
Variable r : GameRestoreReconciler.
Local Abbreviation rd := (directRestoreReader r).
Local Abbreviation ok o acc p := (writes_ok (restore_write r o) acc p).

Lemma ok_restore_reads {A B} o acc (p : prog A) (f : A -> prog B) :
  reads_only p -> (forall es a, steps p es a -> ok o (acc ++ es) (f a)) -> ok o acc (p ≫= f).
Proof. intros Hp Hf. apply writes_bind; [by apply writes_reads | done]. Qed.

(** ** Status writes *)

(** The operation is not over. *)
Definition rlive (o : GameRestore) : Prop := restoreTerminal (restore_phase o) = false.
Lemma rlive_phase o : rlive o -> terminal (restore_phase o) = false.
Proof. unfold rlive, restoreTerminal, terminal. intros E. rewrite !orb_false_iff in *. tauto. Qed.

(** Only the phase, the conditions and the attempts change. *)
Definition rplain (o : GameRestore) (phase : DataOperationPhase) (s' : GameRestoreStatus) : Prop :=
  exists c n p u, s' = with_data (set_rs_Populate (moved o phase) n p u)
    (set_ds_Conditions (rs_DataOperationStatus (moved o phase)) c).

Lemma rchanges_plain o phase s' es : rplain o phase s' -> terminal phase = false -> rchanges r o phase s' es.
Proof.
  intros (c & n & p & u & ->) Ht. split_and!; try done; by left.
Qed.
Lemma rplain_moved o phase : rplain o phase (moved o phase).
Proof.
  exists (ds_Conditions (rdata o)), (rs_PopulateAttempts (gr_Status o)), (rs_PopulateRetryPending (gr_Status o)),
    (rs_PopulateJobUID (gr_Status o)). reflexivity.
Qed.
Lemma rplain_populate o phase s n p u : rplain o phase s -> rplain o phase (set_rs_Populate s n p u).
Proof. intros (c & n' & p' & u' & ->). by exists c, n, p, u. Qed.
Lemma setRestoreCondition_steps o ct st re m s es s' : steps (setRestoreCondition o ct st re m s) es s' ->
  exists c, s' = with_data s (set_ds_Conditions (rs_DataOperationStatus s) c).
Proof.
  unfold setRestoreCondition, nowRestore. intros (es1 & es2 & t & -> & _ & [_ ->])%steps_bind.
  unfold setBackupCondition. eauto.
Qed.
Lemma setRestoreCondition_plain o phase ct st re m s es s' : steps (setRestoreCondition o ct st re m s) es s' ->
  rplain o phase s -> rplain o phase s'.
Proof. intros (c & ->)%setRestoreCondition_steps (c' & n & p & u & ->). by exists c, n, p, u. Qed.
Lemma reads_setRestoreCondition o ct st re m s : reads_only (setRestoreCondition o ct st re m s).
Proof. unfold setRestoreCondition, nowRestore. reads_tac. Qed.

Lemma canonical_known s c : c ∈ ds_Conditions (rs_DataOperationStatus (canonicalizeRestoreConditions s)) ->
  cond_Type c ∈ backupConditionOrder.
Proof.
  cbn [canonicalizeRestoreConditions with_data rs_DataOperationStatus canonicalizeBackupConditions ds_Conditions set_ds_Conditions].
  rewrite list_elem_of_omap. intros (ct & Hct & [_ E]%find_some). apply bool_decide_eq_true in E. by rewrite E.
Qed.
(** A status after the clean-up every write ends with. *)
Lemma rchanges_canonical o phase s' es :
  rchanges r o phase s' es -> rchanges r o phase (canonicalizeRestoreConditions (without_stale_retry phase s')) es.
Proof. intros Hc. exact Hc. Qed.

Lemma ok_writeRestoreStatus o acc phase mutate : reads_only (mutate (moved o phase)) ->
  (forall es s', steps (mutate (moved o phase)) es s' -> rchanges r o phase s' (acc ++ es)) ->
  ok o acc (writeRestoreStatus o phase mutate).
Proof.
  intros Hr Hc. unfold writeRestoreStatus. apply ok_restore_reads; [done|]. intros es s' Hs. specialize (Hc es s' Hs).
  cbv zeta. destruct (ValidateTransition _ _ _ _) as [[]|] eqn:Ht; [|apply writes_ret].
  destruct (ValidateRestoreStatus _) as [[]|] eqn:Hv; [|apply writes_ret].
  case_bool_decide; [apply writes_ret|]. apply writes_last. intros x.
  apply (rchanges_canonical _ _ _ _) in Hc. pose proof (proj1 (proj1 Hc)) as Hp. apply RWStatus.
  - by rewrite Hp.
  - split; [split; [rewrite Hp, <- Ht; reflexivity|apply canonical_known] | done].
Qed.
Lemma ok_restore_write {B} o acc phase mutate (f : option cerror -> B) : reads_only (mutate (moved o phase)) ->
  (forall es s', steps (mutate (moved o phase)) es s' -> rchanges r o phase s' (acc ++ es)) ->
  ok o acc (e ← writeRestoreStatus o phase mutate; Ret (f e)).
Proof. intros Hr Hc. apply writes_bind; [by apply ok_writeRestoreStatus | intros; apply writes_ret]. Qed.

(** A write that sets one condition on a plain change of the status. *)
Lemma ok_plain_restore {B} o acc phase ct st re m g (f : option cerror -> B) : terminal phase = false ->
  (forall s, rplain o phase s -> rplain o phase (g s)) ->
  ok o acc (e ← writeRestoreStatus o phase (fun s => setRestoreCondition o ct st re m (g s)); Ret (f e)).
Proof.
  intros Ht Hg. apply ok_restore_write; [apply reads_setRestoreCondition|]. intros es s' Hs. apply rchanges_plain; [|done].
  eapply setRestoreCondition_plain; [exact Hs|]. apply Hg, rplain_moved.
Qed.
Lemma ok_condition {B} o acc phase ct st re m (f : option cerror -> B) : terminal phase = false ->
  ok o acc (e ← writeRestoreStatus o phase (setRestoreCondition o ct st re m); Ret (f e)).
Proof. intros Ht. exact (ok_plain_restore o acc phase ct st re m (fun s => s) f Ht (fun s Hs => Hs)). Qed.
Lemma ok_plain_populate {B} o acc phase n p u (f : option cerror -> B) : terminal phase = false ->
  ok o acc (e ← writeRestoreStatus o phase (fun s => Ret (set_rs_Populate s (n s) (p s) (u s))); Ret (f e)).
Proof.
  intros Ht. apply ok_restore_write; [apply emits_ret|]. intros es s' [_ ->]. apply rchanges_plain; [|done].
  apply rplain_populate, rplain_moved.
Qed.

Lemma ok_holdRestore o acc reason message : rlive o -> ok o acc (holdRestore o reason message).
Proof. intros Hl. by apply ok_condition, rlive_phase. Qed.
Lemma ok_blockRestore o acc reason message : ok o acc (blockRestore o reason message).
Proof. by apply ok_condition. Qed.
Lemma ok_record_cancelled o acc phase message : terminal phase = false -> ok o acc (record_cancelled o phase message).
Proof. by apply ok_condition. Qed.

(** ** Removing a worker *)

Lemma ok_delete_stage_object {A} o acc stage (k : kind A) name m1 m2 m3 :
  (name = RestoreResourceName (gr_UID o) stage +:+ "-authority" \/ name = RestoreResourceName (gr_UID o) stage +:+ "-input") ->
  worker_kind k = true -> ok o acc (delete_stage_object r o stage k name m1 m2 m3).
Proof.
  intros Hn Hk. unfold delete_stage_object, restore_get. apply writes_get; [done|].
  intros [[|m]|object]; [apply writes_ret..|]. destruct (_ || _)%bool eqn:E; [apply writes_ret|].
  apply orb_false_iff in E as [E%negb_false_iff _]. apply writes_last. intros x.
  apply (RWDeleteObject _ _ _ _ stage name); [done..| |done]. unfold obtained. in_trace.
Qed.
Lemma ok_or_next o acc p k : ok o acc p -> (forall acc', acc ⊆ acc' -> ok o acc' k) -> ok o acc (or_next p k).
Proof.
  intros Hp Hk. unfold or_next. apply writes_bind; [done|]. intros es [x|] _; [apply writes_ret | apply Hk; set_solver].
Qed.
Lemma ok_deleteRestoreWorkerAndWait o acc stage : ok o acc (deleteRestoreWorkerAndWait r o stage).
Proof.
  unfold deleteRestoreWorkerAndWait, restore_get. apply writes_get; [done|]. intros [[|m]|job].
  - apply ok_restore_reads; [apply reads_listRestoreStagePods|]. intros es [pods|] _; [|apply writes_ret].
    destruct (len pods >? 0)%Z; [apply writes_ret|]. unfold deleteRestoreStageAuthorityAndWait. cbv zeta.
    case_bool_decide; [apply writes_ret|].
    repeat (apply ok_or_next; [apply ok_delete_stage_object; [by first [by left | by right]|done]|intros]).
    apply writes_ret.
  - apply writes_ret.
  - destruct (negb _) eqn:E; [apply writes_ret|]. apply negb_false_iff in E. apply writes_last. intros x.
    apply (RWDeleteJob _ _ _ stage); [|done]. unfold obtained. in_trace.
Qed.
Lemma ok_deleteAllRestoreWorkers o acc : ok o acc (deleteAllRestoreWorkers r o).
Proof.
  unfold deleteAllRestoreWorkers. apply writes_bind; [apply ok_deleteRestoreWorkerAndWait|].
  intros es [e|[]] _; [apply writes_ret..|apply ok_deleteRestoreWorkerAndWait].
Qed.

(** What follows a stage's, and every worker's, removal. *)
Lemma ok_unless_stage o acc stage k : (forall es, stage_absent r o stage es -> ok o (acc ++ es) k) ->
  ok o acc (unless_worker (deleteRestoreWorkerAndWait r o stage) k).
Proof.
  intros Hk. unfold unless_worker. apply writes_bind; [apply ok_deleteRestoreWorkerAndWait|].
  intros es [e|[]] Hs; [apply writes_ret..|]. by apply Hk, deleteRestoreWorkerAndWait_absent.
Qed.
Lemma ok_unless_worker o acc k : (forall acc', acc ⊆ acc' -> workers_absent r o acc' -> ok o acc' k) ->
  ok o acc (unless_worker (deleteAllRestoreWorkers r o) k).
Proof.
  intros Hk. unfold unless_worker. apply writes_bind; [apply ok_deleteAllRestoreWorkers|].
  intros es [e|[]] Hs; [apply writes_ret..|]. apply deleteAllRestoreWorkers_absent in Hs.
  apply Hk; [set_solver | grow Hs].
Qed.

(** ** Leases *)

Lemma ok_acquireRestoreLease o s acc identity : prepared r o s acc ->
  identity = rsub_candidateIdentity s \/ identity = rs_PreviousDataIdentity (gr_Status o) ->
  ok o acc (acquireRestoreLease r o identity (server_Name (rsub_server s))).
Proof.
  intros Hp Hi. unfold acquireRestoreLease, restore_get, nowRestore. destruct (_ || _)%bool; [apply writes_ret|].
  apply writes_get; [done|]. intros [[|m]|lease]; [|apply writes_ret..].
  apply writes_get; [done|]. intros t. apply writes_last. intros x. apply (RWFence _ _ _ s); [grow Hp | done|].
  unfold obtained. in_trace.
Qed.
Lemma ok_releaseRestoreLeases o acc : restoreTerminal (restore_phase o) = true -> workers_absent r o acc ->
  ok o acc (releaseRestoreLeases r o).
Proof.
  intros Ht Hw. unfold releaseRestoreLeases. apply writes_get; [done|]. intros [e|l]; [apply writes_ret|].
  destruct (RestoreDataIdentity _); [|apply writes_ret]. apply writes_loop. intros lease acc' _ Hsub. cbv zeta.
  destruct (_ && _)%bool; [apply writes_ret|]. destruct (negb _) eqn:E; [apply writes_ret|]. apply negb_false_iff in E.
  apply writes_last. intros x. apply RWReleaseLease; [done| |done]. eapply grows; [|exact Hw]. set_solver.
Qed.
Lemma ok_clearRestoreWorkerExecution o acc identity stage : stage_absent r o stage acc ->
  ok o acc (clearRestoreWorkerExecution r o identity).
Proof.
  intros Hw. unfold clearRestoreWorkerExecution. apply ok_restore_reads; [apply reads_own_restore_lease|].
  intros es [e|lease] Hl; [apply writes_ret|]. apply own_restore_lease_read in Hl. case_bool_decide; [apply writes_ret|].
  apply writes_last. intros x. apply (RWClearWorker _ _ _ stage identity); [grow Hl | grow Hw].
Qed.

(** The evidence every settlement of the restore rests on. *)
Definition settling (o : GameRestore) (fence : ColdDataFence) (server : GameServer) (es : list event) : Prop :=
  workers_absent r o es /\ target_seen r o server es /\ previous_claims_exact r o es /\ (ds_Fence (rdata o) = Some fence).
#[local] Instance settling_grows o f s : Grows (settling o f s).
Proof. unfold settling. grows_tac. Qed.

Lemma ok_allowRestoreSettlement o acc fence server identity state generation : settling o fence server acc ->
  settled_world r o identity acc -> ok o acc (allowRestoreSettlement r o identity state generation).
Proof.
  intros (Hw & Hs & _ & Hf) Hi. unfold allowRestoreSettlement. apply ok_restore_reads; [apply reads_own_restore_lease|].
  intros es [e|lease] Hl; [apply writes_ret|]. apply own_restore_lease_read in Hl.
  destruct (settlement_present _ _ _ _); [apply writes_ret|].
  apply writes_last. intros x. apply (RWAllow _ _ _ fence server); [grow Hw | done | grow Hs | grow Hi | grow Hl].
Qed.
(** Let the server run so, then move it. *)
Lemma ok_settle_move {A} o acc fence server identity state generation (failed : cerror -> A)
    (f : option apierr -> A) : settling o fence server acc -> settled_world r o identity acc ->
  settles_move o fence server identity state generation ->
  ok o acc (e ← allowRestoreSettlement r o identity state generation;
            match (e : option cerror) with
            | Some e => Ret (failed e)
            | None => e ← call (ApiUpdate KGameServer (with_desired server state)); Ret (f e)
            end).
Proof.
  intros Hset Hi Hm. apply writes_bind; [by eapply ok_allowRestoreSettlement|].
  intros es [e|] Hs; [apply writes_ret|]. apply allowRestoreSettlement_allowed in Hs. apply writes_last. intros x.
  destruct Hset as (Hw & Ht & Hp & Hf).
  apply (RWMove _ _ _ fence server identity state generation); [grow Hw | done | grow Ht | grow Hp | done | grow Hs].
Qed.

(** ** The worker *)

(** The Job a worker pass may act on. *)
Definition worker_job (o : GameRestore) (s : restoreSubject) (stage : Stage) (job : Job) (es : list event) : Prop :=
  at_stage r o s stage es /\ exists resources, restore_job_read r o stage resources job es /\
    (restore_built r o s stage resources /\ job_journaled o stage job).
#[local] Instance worker_job_grows o s st j : Grows (worker_job o s st j).
Proof. unfold worker_job. grows_tac. Qed.

Lemma reads_pending_in_grace job : reads_only (pending_in_grace job).
Proof. unfold pending_in_grace, nowRestore. reads_tac. Qed.
Lemma pending_in_grace_steps job es x : steps (pending_in_grace job) es (inr (restoreWorkerSucceeded x)) -> False.
Proof.
  unfold pending_in_grace, nowRestore. intros (es1 & es2 & t & _ & _ & [_ Hs])%steps_bind.
  destruct (restoreWorkerResultGraceExpired _ _); discriminate.
Qed.
Lemma reads_conclude_worker o input job : reads_only (conclude_worker r o input job).
Proof.
  pose proof (reads_listRestoreStagePods r o (in_Stage input)) as Hl. pose proof (reads_pending_in_grace job) as Hp.
  unfold reads_only in Hl, Hp. unfold conclude_worker, restoreWorkerResult. reads_tac.
Qed.

Lemma ok_authorizeRestoreWorkerPod o s acc stage job : worker_job o s stage job acc ->
  job_Suspend (job_Spec job) = Some false -> ok o acc (authorizeRestoreWorkerPod r o stage job).
Proof.
  intros (Hst & resources & Hj & Hb & Hjn) Hsus. unfold authorizeRestoreWorkerPod.
  apply ok_restore_reads; [apply reads_listRestoreStagePods|]. intros es [pods|] Hl; [|apply writes_ret].
  apply listRestoreStagePods_pods in Hl. destruct pods as [|pod [|]]; [apply writes_ret| |apply writes_ret].
  destruct (restorePodIdentityMatches job pod) eqn:Hid; cbn [negb]; [|apply writes_ret].
  case_bool_decide as Hau; cbn [negb]; [|apply writes_ret].
  destruct (_ || _)%bool eqn:E; [apply writes_ret|]. apply orb_false_iff in E as [Hun%negb_false_iff Hsp%negb_false_iff].
  apply writes_last. intros x.
  apply (RWAuthorize _ _ _ s stage resources job); [grow Hst | done | grow Hj | done | done | grow Hl | done..].
Qed.
Lemma ok_supervise_restore o s acc input job : worker_job o s (in_Stage input) job acc ->
  ok o acc (supervise_restore r o input job).
Proof.
  intros Hj. unfold supervise_restore. case_bool_decide as Hsus; cbn [negb].
  - destruct (jobFailed job); [apply writes_ret|]. apply writes_bind; [by eapply ok_authorizeRestoreWorkerPod|].
    intros es [e|[]] _; try apply writes_ret; try (apply writes_reads, reads_pending_in_grace).
    destruct (negb _); apply writes_reads; [apply reads_pending_in_grace | apply reads_conclude_worker].
  - destruct Hj as (Hst & resources & Hj & Hb & Hjn). apply writes_last. intros x.
    apply (RWActivate _ _ _ s (in_Stage input) resources); [grow Hst | done | grow Hj | done].
Qed.
Lemma supervise_restore_attested o s acc input job es result : input = restoreWorkerInput o s (in_Stage input) ->
  worker_job o s (in_Stage input) job acc ->
  steps (supervise_restore r o input job) es (inr (restoreWorkerSucceeded result)) ->
  restore_attested r o s (in_Stage input) result (acc ++ es).
Proof.
  intros Ein (Hst & resources & Hj & Hb & Hjn). unfold supervise_restore.
  case_bool_decide as Hsus; cbn [negb].
  2: { intros (es1 & es2 & x & -> & _ & [_ Hs])%steps_bind. by destruct x. }
  destruct (jobFailed job); [by intros []|]. intros (es1 & es2 & x & -> & _ & Hs)%steps_bind.
  destruct x as [e|[]]; try (by destruct Hs); try (by apply pending_in_grace_steps in Hs).
  destruct (jobComplete job) eqn:Hc; cbn [negb] in Hs; [|by apply pending_in_grace_steps in Hs].
  unfold conclude_worker, restoreWorkerResult in Hs. apply steps_bind in Hs as (es3 & es4 & report & -> & Hr & Hs).
  apply steps_bind in Hr as (es5 & es6 & pods & -> & Hl & [-> ->]).
  destruct pods as [pods|]; [|by destruct Hs]. apply listRestoreStagePods_pods in Hl.
  destruct (report_of job pods) as [| |result'] eqn:Er; [by apply pending_in_grace_steps in Hs | by destruct Hs |].
  destruct Hs as [-> Hs]. destruct (report_matches input result') eqn:Em; [|done]. injection Hs as ->.
  exists resources, job, pods. split_and!; [grow Hst | grow Hj | grow Hl | done..|by rewrite <- Ein].
Qed.

Lemma ok_journal_job o acc job : rlive o -> ok o acc (journal_job o job).
Proof.
  intros Hl. unfold journal_job. destruct (_ || _)%bool; [apply writes_ret|].
  apply (ok_plain_populate o acc (restore_phase o) rs_PopulateAttempts rs_PopulateRetryPending (fun _ => om_UID (job_meta job))).
  by apply rlive_phase.
Qed.

Lemma ok_reconcileRestoreInput o s stage resources acc : at_stage r o s stage acc -> restore_built r o s stage resources ->
  ok o acc (reconcileRestoreInput r o (rk_Input resources)).
Proof.
  intros Hst Hb. unfold reconcileRestoreInput. apply writes_get; [done|]. intros [[|m]|a]; [|apply writes_ret..].
  apply writes_last. intros x. apply (RWInput _ _ _ s stage); [grow Hst | done].
Qed.
Lemma ok_ensure_restore_authority {A} o acc (k : kind A) desired unchanged m1 m2 m3 :
  (forall acc' x, acc ⊆ acc' -> restore_write r o acc' (Ev (ApiCreate k desired) x)) ->
  ok o acc (ensure_restore_authority r o k desired unchanged m1 m2 m3).
Proof.
  intros Hw. unfold ensure_restore_authority. apply writes_get; [done|]. intros [[|m]|a]; [|apply writes_ret..].
  apply writes_last. intros x. apply Hw. set_solver.
Qed.
Lemma ok_reconcileRestoreAuthority o s stage resources acc : at_stage r o s stage acc ->
  restore_built r o s stage resources -> ok o acc (reconcileRestoreAuthority r o resources).
Proof.
  intros Hst Hb. assert (forall acc', acc ⊆ acc' -> at_stage r o s stage acc') as Hst' by (intros; grow Hst).
  unfold reconcileRestoreAuthority.
  apply writes_bind_error; [apply ok_ensure_restore_authority; intros; eapply RWServiceAccount; [apply Hst' | done]; set_solver|].
  intros es1 c1 _.
  apply writes_bind_error; [apply ok_ensure_restore_authority; intros; eapply RWRole; [apply Hst' | done]; set_solver|].
  intros es2 c2 _.
  apply writes_bind_error; [apply ok_ensure_restore_authority; intros; eapply RWRoleBinding; [apply Hst' | done]; set_solver|].
  intros; apply writes_ret.
Qed.
Lemma ok_reconcileRestoreJob o s stage resources acc : at_stage r o s stage acc -> restore_built r o s stage resources ->
  ok o acc (reconcileRestoreJob r o stage (rk_Job resources)).
Proof.
  intros Hst Hb. unfold reconcileRestoreJob. apply writes_get; [done|]. intros [[|m]|a]; [|apply writes_ret..].
  apply ok_restore_reads; [apply reads_listRestoreStagePods|]. intros es [pods|] Hl; [|apply writes_ret].
  apply listRestoreStagePods_pods in Hl. case_bool_decide as Hn; cbn [negb]; [|apply writes_ret].
  assert (pods = []) as -> by (unfold len in Hn; destruct pods; [done | cbn in Hn; lia]).
  apply writes_last. intros x. apply (RWJob _ _ _ s stage); [grow Hst | done | grow Hl].
Qed.
Lemma reconcileRestoreJob_read o s stage resources es job : restore_built r o s stage resources ->
  steps (reconcileRestoreJob r o stage (rk_Job resources)) es (inr (job, false)) ->
  restore_job_read r o stage resources job es.
Proof.
  intros Hb. unfold reconcileRestoreJob. intros (es1 & es2 & x & -> & ->%steps_call & Hs)%steps_bind.
  destruct x as [[|m]|a]; [|by destruct Hs|].
  - apply steps_bind in Hs as (es3 & es4 & [pods|] & -> & _ & Hs); [|by destruct Hs].
    destruct (negb _); [by destruct Hs|]. apply steps_bind in Hs as (es5 & es6 & y & _ & _ & [_ Hs]). by destruct y.
  - destruct Hs as [-> Hs]. destruct (restore_job_unchanged _ _ _) eqn:E; [|done]. injection Hs as ->. split; [|done].
    apply build_keys in Hb. rewrite Hb. by left.
Qed.

Lemma reads_journaled_job_lost o stage : reads_only (journaled_job_lost r o stage).
Proof. unfold journaled_job_lost, restore_get. reads_tac. Qed.

Lemma ok_runRestoreWorker o s acc stage : rlive o -> at_stage r o s stage acc ->
  ok o acc (runRestoreWorker r o (restoreWorkerInput o s stage) (def_RuntimeIdentity (rsub_definition s))).
Proof.
  intros Hl Hst. unfold runRestoreWorker. apply writes_bind_error; [apply writes_reads, reads_journaled_job_lost|].
  intros es1 lost _. destruct lost; [apply writes_ret|]. destruct (BuildRestoreResources _ _ _ _) as [resources|] eqn:Hb; [|apply writes_ret].
  change (restore_built r o s stage resources) in Hb. cbn [in_Stage restoreWorkerInput].
  assert (forall es', at_stage r o s stage (acc ++ es')) as Hst' by (intros; grow Hst).
  apply writes_bind; [by eapply ok_reconcileRestoreInput|]. intros es2 [e|] _; [apply writes_ret|]. rewrite <- !app_assoc.
  apply writes_bind_error; [by eapply ok_reconcileRestoreAuthority|]. intros es3 changed _. rewrite <- !app_assoc.
  apply writes_bind_error; [by eapply ok_reconcileRestoreJob|]. intros es4 [job created] Hj. rewrite <- !app_assoc.
  destruct (changed || created)%bool eqn:E; [apply writes_ret|]. apply orb_false_iff in E as [-> ->].
  apply (reconcileRestoreJob_read _ _ _ _ _ _ Hb) in Hj.
  assert (job_journaled o stage job -> ok o (acc ++ es1 ++ es2 ++ es3 ++ es4)
    (supervise_restore r o (restoreWorkerInput o s stage) job)) as Hsup.
  { intros Hjn. apply (ok_supervise_restore _ s). split; [apply Hst'|]. exists resources. split; [grow Hj | done]. }
  case_bool_decide as Hpop.
  - case_bool_decide as Hu; [by apply ok_journal_job|]. case_bool_decide as Hu'; cbn [negb]; [|apply writes_ret].
    apply Hsup. intros _. split; [done|]. intros E. by apply Hu.
  - apply Hsup. intros E. by destruct Hpop.
Qed.
Lemma runRestoreWorker_attested o s acc stage es result : at_stage r o s stage acc ->
  steps (runRestoreWorker r o (restoreWorkerInput o s stage) (def_RuntimeIdentity (rsub_definition s))) es
    (inr (restoreWorkerSucceeded result)) ->
  restore_attested r o s stage result (acc ++ es).
Proof.
  intros Hst. unfold runRestoreWorker, bind_error. intros (es1 & es2 & x & -> & _ & Hs)%steps_bind.
  destruct x as [e|[]]; [by destruct Hs..|]. destruct (BuildRestoreResources _ _ _ _) as [resources|] eqn:Hb; [|by destruct Hs].
  change (restore_built r o s stage resources) in Hb. cbn [in_Stage restoreWorkerInput] in Hs.
  apply steps_bind in Hs as (es3 & es4 & x & -> & _ & Hs). destruct x as [e|]; [by destruct Hs|].
  apply steps_bind in Hs as (es5 & es6 & x & -> & _ & Hs). destruct x as [e|changed]; [by destruct Hs|].
  apply steps_bind in Hs as (es7 & es8 & x & -> & Hj & Hs). destruct x as [e|[job created]]; [by destruct Hs|].
  destruct (changed || created)%bool eqn:E; [by destruct Hs|]. apply orb_false_iff in E as [-> ->].
  apply (reconcileRestoreJob_read _ _ _ _ _ _ Hb) in Hj.
  assert (job_journaled o stage job -> steps (supervise_restore r o (restoreWorkerInput o s stage) job) es8
    (inr (restoreWorkerSucceeded result)) -> restore_attested r o s stage result (acc ++ es1 ++ es3 ++ es5 ++ es7 ++ es8)) as Hsup.
  { intros Hjn Hs'. apply (supervise_restore_attested o s (acc ++ es1 ++ es3 ++ es5 ++ es7)) in Hs'; [|done|].
    - rewrite <- !app_assoc in Hs'. exact Hs'.
    - cbn [in_Stage restoreWorkerInput]. split; [grow Hst|]. exists resources. split; [grow Hj | done]. }
  case_bool_decide as Hpop.
  - case_bool_decide as Hu.
    + unfold journal_job in Hs. destruct (_ || _)%bool; [by destruct Hs|].
      apply steps_bind in Hs as (? & ? & y & _ & _ & [_ Hs]). by destruct y.
    + case_bool_decide as Hu'; cbn [negb] in Hs; [|by destruct Hs]. apply Hsup; [|done]. intros _. split; [done|].
      intros E. by apply Hu.
  - apply Hsup; [|done]. intros E. by destruct Hpop.
Qed.
End Parts.
