(* ===== verification/RestorePhases.v ===== *)
(** * Every phase before the activation writes only what the machine allows

    The phases of [RestoreController] before an activation, on the parts of
    [RestoreParts]. *)

From Stdlib Require Import Ascii.
From stdpp Require Import base tactics list strings gmap numbers.
From S2P Require Import Prelude GoStrings K8s ApiTypes DataOperation DataStatus Operations GameDefinition KubeObjects KubePlan KubeApi TraceLogic WorkerInput KubeDestroy OperationFence WorkerPods SourceClaims ServerController KubeBackup KubeRestore BackupController RestoreStatus RestoreSource RestoreVolumes RestoreCandidates RestoreWorker RestoreController RestoreMachine RestoreEvidence RestoreParts.
Open Scope string_scope.
Open Scope list_scope.

Section Phases.
Context `{RegexpEngine} `{NameValidation} `{JsonSchema} `{TimeText} `{ResultDecoder}.
Variable r : GameRestoreReconciler.
Local Abbreviation rd := (directRestoreReader r).
Local Abbreviation ok o acc p := (writes_ok (restore_write r o) acc p).
#[local] Existing Instance settling_grows.

(** ** Observing the runtime *)

Lemma selected_previous o : selected_paths o (previous_selection o) = rs_PreviousData (gr_Status o).
Proof.
  unfold selected_paths, previous_selection, restoreSelection. destruct (_ || _)%bool; [done|].
  cbn [rdr_Identity current_data]. by rewrite bool_decide_eq_true_2.
Qed.

Lemma ok_settled {A} o acc server d state g (failed : cerror -> prog A) waiting k : target_seen r o server acc ->
  (forall acc' e, acc ⊆ acc' -> ok o acc' (failed e)) -> (forall acc', acc ⊆ acc' -> ok o acc' waiting) ->
  (forall acc' t, acc ⊆ acc' -> settled_on r o server d state g acc' ->
     ok o acc' (k (Some (restore_disposition o state g t)))) ->
  ok o acc (x ← observeRestoreRuntime r o server d state g; settled_or x failed waiting k).
Proof.
  intros Ht Hf Hw Hk. apply ok_restore_reads; [apply reads_observeRestoreRuntime|].
  intros es [e|[runtime []]] Hs; [apply Hf; in_trace | apply Hw; in_trace|].
  apply (observeRestoreRuntime_settled _ _ _ _ _ _ _ acc) in Hs as [Hs [t ->]]; [|done].
  apply Hk; [in_trace | done].
Qed.

(** ** Settling the previous world without an activation *)

Lemma ok_record_fence o acc g candidate : rlive o -> both_fenced r o (target_name o) candidate acc ->
  world_cold r o (stop_generation o) acc -> ds_Fence (rdata o) = None -> g = stop_generation o ->
  ok o acc (write_and_pend o (record_fence o g)).
Proof.
  intros Hl Hb Hc Hn ->. apply ok_restore_write; [unfold record_fence, nowRestore; reads_tac|].
  intros es s' (es1 & es2 & t & -> & _ & [-> ->])%steps_bind. split_and!; try done; try (by left).
  - right. exists t, (target_name o), candidate. split_and!; [grow Hb | grow Hc | done..].
  - left. split_and!; [by apply rlive_phase | done..].
Qed.

Lemma world_cold_settled o server g es : settled_on r o server (previous_selection o) DesiredStateStopped g es ->
  world_cold r o g es.
Proof.
  intros (Ht & [Hi Ho] & Hu). unfold intent_exact in Hi. rewrite !andb_true_iff, !bool_decide_eq_true in Hi.
  destruct Hi as [[Hg Hd] _]. exists server. split_and!; [done..|]. rewrite <- selected_previous. by apply Hu.
Qed.

Lemma ok_settle_unfenced o acc : rlive o -> ds_Fence (rdata o) = None -> ok o acc (settle_unfenced r o).
Proof.
  intros Hl Hn. unfold settle_unfenced. destruct (negb _); [apply writes_ret|].
  apply writes_bind_error; [apply writes_reads, reads_exactRestoreServer|]. intros es server Hs.
  apply exactRestoreServer_seen in Hs. cbv zeta. destruct (_ && _)%bool; [apply writes_ret|].
  destruct (_ || _)%bool eqn:E; [apply writes_ret|]. rewrite !orb_false_iff, !negb_false_iff, !bool_decide_eq_true in E.
  destruct E as [[[[Hr _] _] _] _].
  destruct (RestoreDataIdentity _) as [candidate|] eqn:Hc; [|apply writes_ret].
  apply ok_restore_reads; [apply reads_ensureRestoreLeases|]. intros es1 [e|] Hb; [apply writes_ret|].
  apply ensureRestoreLeases_fenced in Hb; [|done].
  apply ok_settled; [grow Hs | intros; apply writes_ret..|]. intros acc' t Hsub Hset.
  assert (int64 (gsr_Generation (restore_target o) + 1) = stop_generation o) as Eg.
  { unfold stop_generation. by rewrite bool_decide_eq_true_2. }
  apply (ok_record_fence _ _ _ candidate); [done| |rewrite <- Eg; by apply world_cold_settled in Hset|done|done].
  eapply grows; [|exact Hb]. set_solver.
Qed.
Lemma settle_unfenced_left o es runtime : ds_Fence (rdata o) = None ->
  steps (settle_unfenced r o) es (inr (runtime, false)) -> previous_left r o runtime es.
Proof.
  intros Hn. unfold settle_unfenced. destruct (ds_Source (rdata o)) as [source|] eqn:Hsrc; cbn [isSome negb].
  2: { intros [-> [= ->]]. left. split; [done | by left]. }
  unfold bind_error. intros (es1 & es2 & x & -> & Hs & Hk)%steps_bind. destruct x as [e|server]; [by destruct Hk|].
  apply exactRestoreServer_seen in Hs. cbv zeta in Hk. destruct (_ && _)%bool eqn:E.
  - destruct Hk as [-> [= ->]]. apply andb_true_iff in E as [E1%bool_decide_eq_true E2%bool_decide_eq_true].
    left. split; [done|]. right. exists server. split; [grow Hs | done].
  - destruct (_ || _)%bool; [by destruct Hk|]. destruct (RestoreDataIdentity _); [|by destruct Hk].
    apply steps_bind in Hk as (es3 & es4 & [e|] & -> & _ & Hk); [by destruct Hk|].
    apply steps_bind in Hk as (es5 & es6 & x & -> & _ & Hk).
    apply settled_or_steps in Hk as [(e & -> & [_ ?])|[(t & -> & [_ ?])|(t & -> & Hk)]]; [done..|].
    unfold write_and_pend in Hk. apply steps_bind in Hk as (es7 & es8 & [e|] & _ & _ & [_ Hk]); done.
Qed.

Lemma ok_restart_previous o acc server fence : rlive o -> settling r o fence server acc ->
  restores_running o = true -> not_previous server (previous_selection o) = false ->
  gs_Generation server = gsr_Generation (fence_GameServer fence) -> gs_DesiredState (gs_Spec server) = DesiredStateStopped ->
  ok o acc (restart_previous r o server (previous_selection o) (gsr_Generation (fence_GameServer fence))).
Proof.
  intros Hl Hset Hr Hn Hg Hd. unfold restart_previous. cbv zeta.
  apply ok_settled; [by destruct Hset as (_ & ? & _) | intros; apply writes_ret..|].
  intros acc' t Hsub _. assert (settling r o fence server acc') as Hset' by grow Hset.
  case_bool_decide as Hj.
  - apply ok_restore_write; [apply emits_ret|]. intros es s' [-> ->]. rewrite app_nil_r.
    split_and!; try done; try (by left).
    + right. exists fence. destruct Hset' as (? & _ & _ & ?). split; [done|]. split; [done|]. by left.
    + left. split_and!; [by apply rlive_phase | done..].
  - eapply (ok_settle_move r o acc' fence server); [done| |by apply MoveRecover].
    right. split; [done | apply Hset'].
Qed.

Lemma ok_settle_fenced o acc fence : rlive o -> workers_absent r o acc -> ds_Fence (rdata o) = Some fence ->
  ok o acc (settle_fenced r o fence).
Proof.
  intros Hl Hw Hf. unfold settle_fenced. cbv zeta. destruct (negb _); [apply writes_ret|].
  apply ok_restore_reads; [apply reads_verifyRestoreDataClaims|]. intros es [e|] Hc; [apply writes_ret|].
  apply verifyRestoreDataClaims_exact in Hc.
  apply writes_bind_error; [apply writes_reads, reads_exactRestoreServer|]. intros es1 server Hs.
  apply exactRestoreServer_seen in Hs. destruct (not_previous _ _) eqn:Hn; [apply writes_ret|].
  destruct (restores_running o) eqn:Hr; cbn [negb]; [|apply writes_reads, reads_observeRestoreRuntime].
  destruct (_ && _)%bool eqn:E.
  - apply andb_true_iff in E as [E1%bool_decide_eq_true E2%bool_decide_eq_true].
    apply ok_restart_previous; try done. split_and!; [grow Hw | grow Hs | grow Hc | done].
  - destruct (_ || _)%bool; [apply writes_ret | apply writes_reads, reads_observeRestoreRuntime].
Qed.
Lemma settle_fenced_left o fence es runtime : ds_Fence (rdata o) = Some fence ->
  steps (settle_fenced r o fence) es (inr (runtime, false)) -> previous_left r o runtime es.
Proof.
  intros Hf. unfold settle_fenced. cbv zeta. destruct (negb _); [by intros []|].
  intros (es1 & es2 & [e|] & -> & Hc & Hk)%steps_bind; [by destruct Hk|].
  apply verifyRestoreDataClaims_exact in Hc. unfold bind_error in Hk.
  apply steps_bind in Hk as (es3 & es4 & [e|server] & -> & Hs & Hk); [by destruct Hk|].
  apply exactRestoreServer_seen in Hs. destruct (not_previous _ _) eqn:Hn; [by destruct Hk|].
  assert (forall state g, wanted_restore o fence = (state, g) ->
    steps (observeRestoreRuntime r o server (previous_selection o) state g) es4 (inr (runtime, false)) ->
    previous_left r o runtime (es1 ++ es3 ++ es4)) as Hleft.
  { intros state g Ew Ho. apply (observeRestoreRuntime_settled _ _ _ _ _ _ _ (es1 ++ es3)) in Ho as [Ho [t ->]]; [|grow Hs].
    rewrite <- app_assoc in Ho. right. exists fence, server, t. rewrite Ew. split_and!; [grow Hc | done..]. }
  unfold wanted_restore in Hleft. destruct (restores_running o); cbn [negb] in Hk; [|by eapply Hleft].
  destruct (_ && _)%bool.
  - unfold restart_previous in Hk. cbv zeta in Hk. apply steps_bind in Hk as (es5 & es6 & x & -> & _ & Hk).
    apply settled_or_steps in Hk as [(e & -> & [_ ?])|[(t & -> & [_ ?])|(t & -> & Hk)]]; [done..|].
    case_bool_decide.
    + apply steps_bind in Hk as (es7 & es8 & [e|] & _ & _ & [_ Hk]); done.
    + apply steps_bind in Hk as (es7 & es8 & [e|] & _ & _ & Hk); [by destruct Hk|].
      apply steps_bind in Hk as (es9 & es10 & x & _ & _ & [_ Hk]). by destruct x.
  - destruct (_ || _)%bool; [by destruct Hk|]. by eapply Hleft.
Qed.

Lemma ok_settlePreviousBeforeActivation o acc : rlive o -> workers_absent r o acc ->
  ok o acc (settlePreviousBeforeActivation r o).
Proof.
  intros Hl Hw. unfold settlePreviousBeforeActivation. destruct (ds_Fence (rdata o)) eqn:Hf.
  - by apply ok_settle_fenced.
  - by apply ok_settle_unfenced.
Qed.
Lemma settlePreviousBeforeActivation_left o es runtime :
  steps (settlePreviousBeforeActivation r o) es (inr (runtime, false)) -> previous_left r o runtime es.
Proof.
  unfold settlePreviousBeforeActivation. destruct (ds_Fence (rdata o)) eqn:Hf.
  - by apply settle_fenced_left.
  - by apply settle_unfenced_left.
Qed.

(** ** How an operation ends *)

Lemma ok_restore_finished {B} o acc phase active runtime st re m (f : option cerror -> B) :
  (forall s' es, ds_Phase (rs_DataOperationStatus s') = phase -> ds_Runtime (rs_DataOperationStatus s') = runtime ->
     rs_ActiveData s' = default (rs_ActiveData (gr_Status o)) active -> acc ⊆ es -> restore_ended r o s' es) ->
  ok o acc (e ← writeRestoreStatus o phase (restore_finished o active runtime st re m); Ret (f e)).
Proof.
  intros He. apply ok_restore_write.
  { unfold restore_finished, setRestoreCondition, nowRestore. reads_tac. }
  intros es s' (es1 & es2 & t & -> & _ & (c & ->)%setRestoreCondition_steps)%steps_bind.
  destruct active as [paths|]; (split_and!; try done; try (by left)); right; (apply He; [done..|in_trace]).
Qed.

(** The phases in which no activation was begun. *)
Definition unactivated (o : GameRestore) : Prop :=
  restore_phase o <> DataPhaseActivating /\ restore_phase o <> DataPhaseRollingBack.

Lemma ok_finishRestoreWithoutActivation o acc phase : rlive o -> unactivated o ->
  phase = DataPhaseFailed \/ phase = DataPhaseCancelled -> ok o acc (finishRestoreWithoutActivation r o phase).
Proof.
  intros Hl [Hu1 Hu2] Hp. unfold finishRestoreWithoutActivation. apply ok_unless_worker. intros acc' _ Hw.
  apply writes_bind; [by apply ok_settlePreviousBeforeActivation|].
  intros es [e|[runtime []]] Hs; cbn [settled_or]; [by apply ok_holdRestore | apply writes_ret|].
  apply settlePreviousBeforeActivation_left in Hs. destruct (if bool_decide _ then _ else _) as [reason message].
  apply ok_restore_finished. intros s' es' <- <- Ha Hsub. split; [eapply grows; [|exact Hw]; set_solver|].
  right. right. split; [|done]. eapply grows; [|exact Hs]. set_solver.
Qed.

Lemma ok_failRestorePreparation o acc reason message : rlive o ->
  unactivated o \/ isSome (rs_ActivationStartedAt (gr_Status o)) = true ->
  ok o acc (failRestorePreparation r o reason message).
Proof.
  intros Hl Hu. unfold failRestorePreparation. cbv zeta. destruct (isSome _) eqn:Ha; [by apply ok_condition|].
  case_bool_decide; [by apply ok_condition|]. destruct (negb _); [by apply ok_condition, rlive_phase|].
  apply ok_finishRestoreWithoutActivation; [done| |by left]. by destruct Hu.
Qed.

(** ** Pending, Blocked *)

Lemma ok_record_source o s acc : resolved_initial r o s acc -> restore_phase o = DataPhasePending \/ restore_phase o = DataPhaseBlocked ->
  ok o acc (restore_write_return o DataPhasePreparing (record_source o s)).
Proof.
  intros Hr Hp. apply ok_restore_write.
  { unfold record_source, setRestoreCondition, nowRestore. reads_tac. }
  intros es s' (es1 & es2 & t & -> & _ & (c & ->)%setRestoreCondition_steps)%steps_bind.
  split_and!; try done; try (by left). right. exists s. split; [grow Hr | done].
Qed.
Lemma ok_prepareRestore o acc : restore_phase o = DataPhasePending \/ restore_phase o = DataPhaseBlocked ->
  ok o acc (prepareRestore r o).
Proof.
  intros Hp. unfold prepareRestore. apply ok_restore_reads; [apply reads_resolveInitialRestore|].
  intros es [[reason message]|s] Hs; [apply ok_blockRestore|]. apply resolveInitialRestore_resolved in Hs.
  apply ok_record_source; [grow Hs | done].
Qed.

(** ** Candidates *)

Lemma reads_restoreProvisioningExpired o : reads_only (restoreProvisioningExpired o).
Proof. unfold restoreProvisioningExpired, nowRestore. reads_tac. Qed.
Lemma ok_provision_candidate o s acc world planned : prepared r o s acc -> candidates_allowed o s = true ->
  planned ∈ DataClaims (rsub_plan s) -> ok o acc (provision_candidate r o s world planned).
Proof.
  intros Hp Hal Hin. unfold provision_candidate. cbv zeta. destruct (RestoreCandidateID _ _) as [name|] eqn:Hn; [|apply writes_ret].
  case_bool_decide; [apply writes_ret|]. apply writes_get; [done|]. intros [[|m]|actual]; [|apply writes_ret..].
  destruct (isSome _) eqn:Hh; [apply writes_ret|]. apply ok_restore_reads; [apply reads_restoreProvisioningExpired|].
  intros es [] _; [apply writes_ret|]. apply writes_last. intros x. apply RWCandidate; [grow Hp | done..| |in_trace].
  by destruct (rs_CandidateData (gr_Status o)).
Qed.
Lemma ok_provision_all o s acc world claims selection ready : prepared r o s acc -> candidates_allowed o s = true ->
  (forall planned, planned ∈ claims -> planned ∈ DataClaims (rsub_plan s)) ->
  ok o acc (provision_all r o s world claims selection ready).
Proof.
  intros Hp Hal. revert acc Hp selection ready. induction claims as [|planned claims IH]; intros acc Hp selection ready Hin;
    cbn [provision_all]; [apply writes_ret|].
  apply writes_bind; [apply ok_provision_candidate; [done..|apply Hin; by left]|].
  intros es [m| |path bound] _; [apply writes_ret..|]. apply IH; [grow Hp|]. intros p Hp'. apply Hin. by right.
Qed.
Lemma ok_reconcileRestoreCandidates o s acc : prepared r o s acc -> ok o acc (reconcileRestoreCandidates r o s).
Proof.
  intros Hp. unfold reconcileRestoreCandidates. destruct (candidates_allowed o s) eqn:Hal; cbn [negb]; [|apply writes_ret].
  apply ok_restore_reads; [apply reads_read_previous|]. intros es [world|] _; [|apply writes_ret].
  apply writes_bind; [apply ok_provision_all; [grow Hp | done..]|].
  intros es1 [e|[[selection ready]|]] _; [apply writes_ret| |apply writes_ret].
  apply writes_get; [done|]. intros; apply writes_ret.
Qed.

(** ** Preparing *)

Lemma prepared_identity o s es : prepared r o s es -> rdr_Identity (rsub_previous s) = rs_PreviousDataIdentity (gr_Status o).
Proof. by intros (_ & _ & _ & _ & _ & _ & -> & _). Qed.
Lemma prepared_candidate o s es : prepared r o s es -> RestoreDataIdentity (gr_UID o) = Ok (rsub_candidateIdentity s).
Proof. by intros (_ & _ & _ & _ & (_ & _ & _ & ? & _) & _). Qed.
Lemma prepared_selection o s es : prepared r o s es -> previous_selection o = Some (rsub_previous s).
Proof.
  intros (_ & _ & _ & _ & _ & _ & -> & [Hi Hd] & _). unfold previous_selection, restoreSelection.
  rewrite bool_decide_eq_false_2 by done. by destruct (rs_PreviousData (gr_Status o)).
Qed.

Lemma preparing_unactivated o : restore_phase o = DataPhasePreparing -> unactivated o.
Proof. unfold unactivated. by intros ->. Qed.
Lemma preparing_live o : restore_phase o = DataPhasePreparing -> rlive o.
Proof. unfold rlive. by intros ->. Qed.

(** The active world is fenced too. *)
Definition fencing (o : GameRestore) (s : restoreSubject) (es : list event) : Prop :=
  prepared r o s es /\ both_fenced r o (server_Name (rsub_server s)) (rsub_candidateIdentity s) es /\
  stage_absent r o StagePreflight es /\
  (restore_phase o = DataPhasePreparing /\ isSome (rs_PreflightVerifiedAt (gr_Status o)) = true).
#[local] Instance fencing_grows o s : Grows (fencing o s).
Proof. unfold fencing. grows_tac. Qed.

Lemma ok_fence_cold o s acc : fencing o s acc -> ds_Fence (rdata o) = None -> target_stopped o s = true ->
  unmounted rd (gr_Namespace o) (rs_PreviousData (gr_Status o)) acc ->
  ok o acc (restore_write_return o DataPhasePreparing (fence_cold o)).
Proof.
  intros (Hp & Hb & _ & _) Hn Hst Hu. apply ok_restore_write.
  { unfold fence_cold, setRestoreCondition, nowRestore. reads_tac. }
  intros es s' (es1 & es2 & t & -> & _ & (c & ->)%setRestoreCondition_steps)%steps_bind.
  split_and!; try done; try (by left). right. exists t, (server_Name (rsub_server s)), (rsub_candidateIdentity s).
  split_and!; [grow Hb| |done..]. exists (rsub_server s). rewrite (prepared_selection _ _ _ Hp).
  unfold target_stopped in Hst. rewrite !andb_true_iff, !bool_decide_eq_true in Hst. destruct Hst as [[[[Hg Hd] Hog] Hph] Hd'].
  split; [destruct Hp as [Hp _]; grow Hp|]. split; [|grow Hu]. split_and!; [done..|].
  unfold runtime_observed. rewrite Hog, Hph, Hd'. by rewrite !bool_decide_eq_true_2.
Qed.
Lemma ok_ensureRestoreColdFence o s acc : fencing o s acc -> ds_Fence (rdata o) = None ->
  ok o acc (ensureRestoreColdFence r o s).
Proof.
  intros Hf Hn. unfold ensureRestoreColdFence. cbv zeta. pose proof Hf as (Hp & Hb & Ha & Hph & Hv). destruct (_ && _)%bool eqn:E.
  - apply andb_true_iff in E as [E1%bool_decide_eq_true E2%bool_decide_eq_true]. apply writes_last. intros x.
    apply (RWStop _ _ _ s); [grow Hp | grow Hb | grow Ha | done..].
  - destruct (target_stopped o s) eqn:Hst; cbn [negb]; [|by apply ok_holdRestore, preparing_live].
    apply ok_restore_reads; [apply reads_sourceClaimsUnmounted|]. intros es [e|[]] Hu; [apply writes_ret| |].
    + apply sourceClaimsUnmounted_unmounted in Hu. apply (ok_fence_cold _ s); [grow Hf | done..|grow Hu].
    + by apply ok_holdRestore, preparing_live.
Qed.
Lemma ok_record_candidates o s acc paths : fencing o s acc -> candidates_bound r o s paths acc ->
  ok o acc (restore_write_return o DataPhaseRunning (record_candidates o paths)).
Proof.
  intros (Hp & Hb & _ & Hph & _) Hc. apply ok_restore_write; [apply reads_setRestoreCondition|].
  intros es s' (c & ->)%setRestoreCondition_steps. split_and!; try done; try (by left).
  right. exists s. split_and!; [grow Hp | grow Hc | grow Hb | done].
Qed.
Lemma ok_provision o s acc fence : fencing o s acc -> ok o acc (provision r o s fence).
Proof.
  intros Hf. pose proof Hf as (Hp & _ & _ & Hph & _). pose proof (preparing_live _ Hph) as Hl.
  assert (unactivated o \/ isSome (rs_ActivationStartedAt (gr_Status o)) = true) as Hu
    by (left; by apply preparing_unactivated).
  unfold provision. destruct (negb _); [by apply ok_failRestorePreparation|].
  apply writes_bind; [by apply ok_reconcileRestoreCandidates|]. intros es x Hs.
  assert (forall es', ok o ((acc ++ es) ++ es') (holdRestore o ReasonColdStopPending
    "waiting for every new candidate claim to bind before population")) as Hold by (intros; by apply ok_holdRestore).
  destruct x as [e|[[paths []]|]]; [by apply ok_failRestorePreparation| | |].
  - apply reconcileRestoreCandidates_bound in Hs. apply (ok_record_candidates _ s); [grow Hf | grow Hs].
  - apply ok_restore_reads; [apply reads_restoreProvisioningExpired|]. intros es' [] _; [by apply ok_failRestorePreparation | apply Hold].
  - apply ok_restore_reads; [apply reads_restoreProvisioningExpired|]. intros es' [] _; [by apply ok_failRestorePreparation | apply Hold].
Qed.

Lemma ok_conflict_or o acc message e : rlive o -> ok o acc (conflict_or o message e).
Proof. intros Hl. unfold conflict_or. destruct (errors_Is _ _); [by apply ok_holdRestore | apply writes_ret]. Qed.

Lemma ok_fence_and_provision o s acc : prepared r o s acc ->
  world_fenced r o (server_Name (rsub_server s)) (rsub_candidateIdentity s) acc -> restore_phase o = DataPhasePreparing ->
  isSome (rs_PreflightVerifiedAt (gr_Status o)) = true -> ok o acc (fence_and_provision r o s).
Proof.
  intros Hp Hc Hph Hv. unfold fence_and_provision. apply ok_unless_stage. intros es Ha.
  assert (prepared r o s (acc ++ es)) as Hp' by grow Hp.
  apply writes_bind; [apply (ok_clearRestoreWorkerExecution r o _ _ StagePreflight); grow Ha|]. intros es1 [e|] _; [apply writes_ret|].
  rewrite (prepared_identity _ _ _ Hp).
  apply writes_bind; [apply ok_acquireRestoreLease; [grow Hp | by right]|].
  intros es2 [e|] Hs; [by apply ok_conflict_or, preparing_live|]. apply acquireRestoreLease_fenced in Hs.
  assert (fencing o s (((acc ++ es) ++ es1) ++ es2)) as Hf.
  { split_and!; [grow Hp| |grow Ha|done..]. split_and!; [grow Hs | grow Hc | by eapply prepared_candidate]. }
  destruct (ds_Fence (rdata o)) eqn:E; [by apply ok_provision | by apply ok_ensureRestoreColdFence].
Qed.

Lemma ok_record_preflight o s acc result : restore_attested r o s StagePreflight result acc ->
  ok o acc (restore_write_return o DataPhasePreparing (record_preflight o result)).
Proof.
  intros Ha. apply ok_restore_write; [apply reads_setRestoreCondition|].
  intros es s' (c & ->)%setRestoreCondition_steps. split_and!; try done; try (by left).
  right. exists s, result. split; [grow Ha | done].
Qed.
Lemma ok_preflight o s acc : preflighting r o s acc -> ok o acc (preflight r o s).
Proof.
  intros Hpre. pose proof Hpre as (_ & _ & Hph & _). assert (at_stage r o s StagePreflight acc) as Hst by by left.
  unfold preflight. apply writes_bind; [apply ok_runRestoreWorker; [by apply preparing_live | done]|].
  intros es [e|[|result|]] Hs; [apply writes_ret | apply writes_ret| |].
  - apply (runRestoreWorker_attested _ _ _ acc) in Hs; [|done]. by apply (ok_record_preflight _ s).
  - apply ok_failRestorePreparation; [by apply preparing_live | left; by apply preparing_unactivated].
Qed.
Lemma ok_reconcileRestorePreflight o acc : restore_phase o = DataPhasePreparing -> ok o acc (reconcileRestorePreflight r o).
Proof.
  intros Hph. pose proof (preparing_live _ Hph) as Hl. pose proof (preparing_unactivated _ Hph) as Hu.
  unfold reconcileRestorePreflight. destruct (restoreFailureRecorded o); [apply ok_finishRestoreWithoutActivation; auto|].
  apply ok_restore_reads; [apply reads_preparedRestore|].
  intros es [[reason message]|s] Hp; [apply ok_failRestorePreparation; auto|]. apply preparedRestore_prepared in Hp.
  assert (prepared r o s (acc ++ es)) as Hp' by grow Hp.
  apply writes_bind; [apply ok_acquireRestoreLease; [done | by left]|].
  intros es1 [e|] Hs; [by apply ok_conflict_or|]. apply acquireRestoreLease_fenced in Hs.
  destruct (isSome (rs_PreflightVerifiedAt _)) eqn:Hv.
  - apply ok_fence_and_provision; [grow Hp' | grow Hs | done..].
  - apply ok_preflight. split_and!; [grow Hp' | grow Hs | done|]. by destruct (rs_PreflightVerifiedAt _).
Qed.

(** ** Running *)

(** The phases the candidate is populated and verified in. *)
Definition at_work (o : GameRestore) : Prop := restore_phase o = DataPhaseRunning \/ restore_phase o = DataPhaseVerifying.
Lemma at_work_live o : at_work o -> rlive o.
Proof. unfold rlive. by intros [-> | ->]. Qed.
Lemma at_work_unactivated o : at_work o -> unactivated o.
Proof. unfold unactivated. by intros [-> | ->]. Qed.
Lemma ok_fail_at_work o acc reason message : at_work o -> ok o acc (failRestorePreparation r o reason message).
Proof. intros Hw. apply ok_failRestorePreparation; [by apply at_work_live | left; by apply at_work_unactivated]. Qed.

Lemma same_candidates_inv o x : same_candidates o x = true ->
  exists paths, x = inr (Some (paths, true)) /\ sameDataPaths paths (rs_CandidateData (gr_Status o)) = true.
Proof. destruct x as [e|[[paths []]|]]; cbn; try done. intros E. by exists paths. Qed.

Lemma ok_retry_populate o s acc : at_work o -> ok o acc (retry_populate r o s).
Proof.
  intros Hw. unfold retry_populate. destruct (negb _); [by apply ok_fail_at_work|]. apply ok_unless_stage.
  intros es Ha. apply writes_bind; [apply (ok_clearRestoreWorkerExecution r o _ _ StagePopulate); grow Ha|].
  intros es1 [e|] _; [apply writes_ret|].
  apply (ok_plain_restore r o _ DataPhaseRunning _ _ _ _ (fun st => set_rs_Populate st (int32 (rs_PopulateAttempts st + 1)) false "")); [done|].
  intros st. apply rplain_populate.
Qed.
Lemma ok_populate_failed o acc : at_work o -> ok o acc (populate_failed r o).
Proof.
  intros Hw. unfold populate_failed. destruct (canRetryRestorePopulate _); [|by apply ok_fail_at_work].
  apply (ok_plain_restore r o _ DataPhaseRunning _ _ _ _ (fun st => set_rs_Populate st (rs_PopulateAttempts st) true (rs_PopulateJobUID st))); [done|].
  intros st. apply rplain_populate.
Qed.
Lemma ok_record_verification o s acc result : restore_attested r o s StagePopulate result acc ->
  ok o acc (restore_write_return o DataPhaseVerifying (record_verification o result)).
Proof.
  intros Ha. apply ok_restore_write; [apply reads_setRestoreCondition|].
  intros es s' (c & ->)%setRestoreCondition_steps. split_and!; try done; try (by left).
  right. exists s, result. split; [grow Ha | done].
Qed.
Lemma ok_populate o s acc : prepared r o s acc ->
  (exists paths, candidates_bound r o s paths acc /\ sameDataPaths paths (rs_CandidateData (gr_Status o)) = true) ->
  restore_phase o = DataPhaseRunning -> cold_target o s = true ->
  (rs_PopulateAttempts (gr_Status o) <> 0)%Z -> (rs_PopulateAttempts (gr_Status o) <= maxRestorePopulateAttempts)%Z ->
  ok o acc (populate r o s).
Proof.
  intros Hp (paths & Hc & Hsame) Hph Hcold Hn0 Hmax. assert (at_work o) as Hw by by left.
  unfold populate. apply ok_restore_reads; [apply reads_verifyRestoreVolumeIsolation|].
  intros es [e|] Hi; [by apply ok_fail_at_work|]. apply verifyRestoreVolumeIsolation_isolated in Hi.
  assert (at_stage r o s StagePopulate (acc ++ es)) as Hst.
  { right. split; [done|]. split_and!; [grow Hp| |unfold candidate_isolated; grow Hi | done..].
    exists paths. split; [grow Hc | done]. }
  apply writes_bind; [apply ok_runRestoreWorker; [by apply at_work_live | done]|].
  intros es1 [e|[|result|]] Hs; [apply writes_ret | apply writes_ret| |by apply ok_populate_failed].
  apply (runRestoreWorker_attested _ _ _ (acc ++ es)) in Hs; [|done]. by apply (ok_record_verification _ s).
Qed.
Lemma ok_reconcileRestorePopulate o acc : restore_phase o = DataPhaseRunning -> ok o acc (reconcileRestorePopulate r o).
Proof.
  intros Hph. assert (at_work o) as Hw by by left. unfold reconcileRestorePopulate.
  destruct (restoreFailureRecorded o).
  { apply ok_finishRestoreWithoutActivation; [by apply at_work_live | by apply at_work_unactivated | by left]. }
  cbv zeta. apply ok_restore_reads; [apply reads_preparedRestore|]. intros es [e|s] Hp; [by apply ok_fail_at_work|].
  apply preparedRestore_prepared in Hp. destruct (_ || _)%bool eqn:Hcold; [by apply ok_fail_at_work|].
  apply orb_false_iff in Hcold as [Hcold%negb_false_iff _].
  apply writes_bind; [apply ok_reconcileRestoreCandidates; grow Hp|]. intros es1 x Hc.
  destruct (same_candidates o x) eqn:Hs; cbn [negb]; [|by apply ok_fail_at_work].
  apply same_candidates_inv in Hs as (paths & -> & Hsame). apply reconcileRestoreCandidates_bound in Hc.
  destruct (rs_PopulateRetryPending _); [by apply ok_retry_populate|].
  case_bool_decide as Hn.
  - by apply (ok_plain_populate r o _ DataPhaseRunning (fun _ => 1%Z) rs_PopulateRetryPending rs_PopulateJobUID).
  - destruct (_ >? _)%Z eqn:Hmax; [by apply ok_fail_at_work|]. rewrite Z.gtb_ltb in Hmax. apply Z.ltb_ge in Hmax.
    apply ok_populate; [grow Hp| |done..]. exists paths. split; [grow Hc | done].
Qed.

(** ** Verifying *)

Lemma ok_record_activation o s acc paths : prepared r o s acc -> candidates_bound r o s paths acc ->
  both_fenced r o (target_name o) (rsub_candidateIdentity s) acc -> stage_absent r o StagePopulate acc ->
  sameDataPaths paths (rs_CandidateData (gr_Status o)) = true -> cold_target o s = true ->
  restore_phase o = DataPhaseVerifying -> isSome (rs_CandidateVerification (gr_Status o)) = true ->
  restoreFailureRecorded o = false -> ok o acc (restore_write_return o DataPhaseActivating (record_activation o)).
Proof.
  intros Hp Hc Hb Ha Hsame Hcold Hph Hv Hf. apply ok_restore_write.
  { unfold record_activation, setRestoreCondition, nowRestore. reads_tac. }
  intros es s' (es1 & es2 & t & -> & _ & (c & ->)%setRestoreCondition_steps)%steps_bind.
  split_and!; try done; try (by left). right. exists s, paths, t.
  split_and!; [grow Hp | grow Hc | grow Hb | grow Ha | done..].
Qed.
Lemma ok_begin_activation o acc : restore_phase o = DataPhaseVerifying -> stage_absent r o StagePopulate acc ->
  isSome (rs_CandidateVerification (gr_Status o)) = true -> restoreFailureRecorded o = false ->
  ok o acc (begin_activation r o).
Proof.
  intros Hph Ha Hv Hf. assert (at_work o) as Hw by by right. unfold begin_activation. cbv zeta.
  apply ok_restore_reads; [apply reads_preparedRestore|]. intros es [e|s] Hp; [by apply ok_fail_at_work|].
  apply preparedRestore_prepared in Hp. destruct (cold_target o s) eqn:Hcold; cbn [negb]; [|by apply ok_fail_at_work].
  apply writes_bind; [apply ok_reconcileRestoreCandidates; grow Hp|]. intros es1 x Hc.
  destruct (same_candidates o x) eqn:Hs; cbn [negb]; [|by apply ok_fail_at_work].
  apply same_candidates_inv in Hs as (paths & -> & Hsame). apply reconcileRestoreCandidates_bound in Hc.
  apply ok_restore_reads; [apply reads_ensureRestoreLeases|]. intros es2 [e|] Hb; [apply writes_ret|].
  rewrite (prepared_identity _ _ _ Hp) in Hb. apply ensureRestoreLeases_fenced in Hb; [|by eapply prepared_candidate].
  apply (ok_record_activation _ s _ paths); [grow Hp | grow Hc | grow Hb | grow Ha | done..].
Qed.
Lemma ok_reconcileRestoreVerification o acc : restore_phase o = DataPhaseVerifying ->
  ok o acc (reconcileRestoreVerification r o).
Proof.
  intros Hph. assert (at_work o) as Hw by by right. unfold reconcileRestoreVerification. apply ok_unless_stage. intros es Ha.
  destruct (RestoreDataIdentity _) as [candidate|]; [|apply writes_ret].
  apply writes_bind; [apply (ok_clearRestoreWorkerExecution r o _ _ StagePopulate); grow Ha|]. intros es1 [e|] _; [apply writes_ret|].
  destruct (_ || _)%bool eqn:E.
  - apply ok_finishRestoreWithoutActivation; [by apply at_work_live | by apply at_work_unactivated | by left].
  - apply orb_false_iff in E as [E%negb_false_iff Hf]. apply ok_begin_activation; [done | grow Ha | done..].
Qed.
End Phases.
