(* ===== verification/RestoreActivation.v ===== *)
(** * Activating, rolling back, and the whole pass

    The phases of [RestoreController] that change which data the server
    selects, and [restore_writes]: every write of a pass is one the machine
    allows, after the read of the restore itself. *)

From Stdlib Require Import Ascii.
From stdpp Require Import base tactics list strings gmap numbers.
From S2P Require Import Prelude GoStrings K8s ApiTypes DataOperation DataStatus Operations GameDefinition KubeObjects KubePlan KubeApi TraceLogic WorkerInput KubeDestroy OperationFence WorkerPods SourceClaims ServerController KubeBackup KubeRestore BackupController RestoreStatus RestoreSource RestoreVolumes RestoreCandidates RestoreWorker RestoreController RestoreMachine RestoreEvidence RestoreParts RestorePhases.
Open Scope string_scope.
Open Scope list_scope.

Section Activation.
Context `{RegexpEngine} `{NameValidation} `{JsonSchema} `{TimeText} `{ResultDecoder}.
Variable r : GameRestoreReconciler.
Local Abbreviation rd := (directRestoreReader r).
Local Abbreviation ok o acc p := (writes_ok (restore_write r o) acc p).
#[local] Existing Instance settling_grows.

(** ** Activating *)

(** What an activation rests on: both worlds fenced, exact and apart, no
    worker left, and the server as it was read. *)
Definition activating (o : GameRestore) (fence : ColdDataFence) (source : DataSourceSnapshot) (candidate : string)
    (server : GameServer) (es : list event) : Prop :=
  settling r o fence server es /\ both_fenced r o (target_name o) candidate es /\ worlds_exact r o candidate source es /\
  ((ds_Source (rdata o) = Some source /\ isSome (rs_CandidateVerification (gr_Status o)) = true) /\
   isSome (rs_ActivationStartedAt (gr_Status o)) = true /\ restore_phase o = DataPhaseActivating /\
   candidate <> rs_PreviousDataIdentity (gr_Status o)).
#[local] Instance activating_grows o f s c v : Grows (activating o f s c v).
Proof. unfold activating. grows_tac. Qed.

Lemma activating_live o fence source candidate server es : activating o fence source candidate server es -> rlive o.
Proof. unfold rlive. by intros (_ & _ & _ & _ & _ & -> & _). Qed.
Lemma activating_world o fence source candidate server es : activating o fence source candidate server es ->
  settled_world r o candidate es.
Proof. intros (_ & (_ & _ & Hc) & (_ & Hx & _) & _). left. split; [done | by left]. Qed.
Lemma ok_fail_activating o acc fence source candidate server reason message :
  activating o fence source candidate server acc -> ok o acc (failRestorePreparation r o reason message).
Proof. intros Ha. apply ok_failRestorePreparation; [by eapply activating_live | right; apply Ha]. Qed.
Lemma ok_hold_activating o acc fence source candidate server reason message :
  activating o fence source candidate server acc -> ok o acc (holdRestore o reason message).
Proof. intros Ha. by eapply ok_holdRestore, activating_live. Qed.

Lemma reads_verify_worlds o candidate source : reads_only (verify_worlds r o candidate source).
Proof.
  pose proof (reads_verifyRestoreDataClaims r o) as Hc.
  pose proof (reads_verifyRestoreVolumeIsolation rd (gr_Namespace o)) as Hv. unfold reads_only in Hc, Hv.
  unfold verify_worlds. reads_tac.
Qed.
Lemma verify_worlds_exact o candidate source es : steps (verify_worlds r o candidate source) es None ->
  worlds_exact r o candidate source es.
Proof.
  unfold verify_worlds. cbv zeta. intros (es1 & es2 & [e|] & -> & Hp & Hk)%steps_bind; cbn [isSome] in Hk; [by destruct Hk|].
  apply steps_bind in Hk as (es3 & es4 & [e|] & -> & Hc & Hk); cbn [isSome] in Hk; [by destruct Hk|].
  apply steps_bind in Hk as (es5 & es6 & [e|] & -> & Hi & [-> Hk]); [done|].
  apply verifyRestoreDataClaims_exact in Hp, Hc. apply verifyRestoreVolumeIsolation_isolated in Hi.
  split_and!; [unfold previous_claims_exact; grow Hp | grow Hc | unfold candidate_isolated; grow Hi].
Qed.

Lemma reads_activation_failed server g started : reads_only (activation_failed server g started).
Proof. unfold activation_failed, nowRestore. reads_tac. Qed.

Lemma ok_updateRestoreActiveData {B} o acc server selected (f : option cerror -> B) :
  (forall d x, selected = Some d -> restore_write r o acc (Ev (ApiUpdateStatus KGameServer (with_active_data server (Some d))) x)) ->
  ok o acc (e ← updateRestoreActiveData server selected; Ret (f e)).
Proof.
  intros Hw. apply writes_bind; [|intros; apply writes_ret]. unfold updateRestoreActiveData.
  destruct selected as [d|]; [|apply writes_ret]. destruct (_ || _)%bool; [apply writes_ret|].
  apply writes_last. intros x. by apply Hw.
Qed.

Lemma ok_select_candidate o acc fence source candidate server : activating o fence source candidate server acc ->
  fenced_target fence server = true -> not_previous server (previous_selection o) = false ->
  ok o acc (select_candidate r o server candidate (gsr_Generation (fence_GameServer fence))).
Proof.
  intros Ha Hf Hn. unfold select_candidate. destruct (runtime_observed _ _ _ _) eqn:Ho; cbn [negb]; [|apply writes_ret].
  apply writes_bind; [eapply ok_allowRestoreSettlement; [apply Ha | by eapply activating_world]|].
  intros es [e|] Hs; [apply writes_ret|]. apply allowRestoreSettlement_allowed in Hs.
  assert (activating o fence source candidate server (acc ++ es))
    as ((Hw & Ht & _ & Hfence) & Hb & Hx & [[Hsrc Hv] [Hst [Hph Hne]]]) by grow Ha.
  apply ok_updateRestoreActiveData. intros d x Hd. eapply RWSelect; try done. grow Hs.
Qed.

Lemma ok_completeRestoreSuccess o acc fence source candidate server g state : activating o fence source candidate server acc ->
  sameDataSelection (gss_ActiveData (gs_Status server)) (candidate_selection o candidate) = true ->
  candidate_state o fence state g ->
  ok o acc (completeRestoreSuccess r o server (candidate_selection o candidate) g state).
Proof.
  intros Ha Hsame Hst. unfold completeRestoreSuccess. apply ok_settled; [apply Ha | intros; apply writes_ret..|].
  intros acc' t Hsub Hs.
  assert (activating o fence source candidate server acc') as Ha' by grow Ha.
  apply ok_restore_finished. intros s' es Hp Hr Hact Hsub'.
  assert (activating o fence source candidate server es)
    as ((Hw & _ & _ & Hf) & Hb & Hx & [[Hsrc Hv] [_ [Hph _]]]) by grow Ha'.
  split; [done|]. left. split; [|done]. rewrite Hr. exists fence, source, candidate, server, state, g, t.
  split_and!; try done. grow Hs.
Qed.

Lemma ok_journal_start o acc fence source candidate server : activating o fence source candidate server acc ->
  rj_CandidateStartGeneration (recorded_journal o) = 0%Z -> restores_running o = true ->
  ok o acc (restore_write_return o DataPhaseActivating (fun s =>
    Ret (journal_start s (int64 (gsr_Generation (fence_GameServer fence) + 1))))).
Proof.
  intros ((Hw & _ & _ & Hf) & _ & _ & [_ [_ [Hph _]]]) Hj Hr. apply ok_restore_write; [apply emits_ret|].
  intros es s' [-> ->]. rewrite app_nil_r. split_and!; try done; try (by left).
  right. exists fence. split; [done|]. split; [done|]. right. left. done.
Qed.
Lemma ok_settle_candidate o acc fence source candidate server started : activating o fence source candidate server acc ->
  sameDataSelection (gss_ActiveData (gs_Status server)) (candidate_selection o candidate) = true ->
  rj_CandidateStartGeneration (recorded_journal o) = 0%Z ->
  ok o acc (settle_candidate r o server (candidate_selection o candidate) (gsr_Generation (fence_GameServer fence)) started).
Proof.
  intros Ha Hsame Hj. unfold settle_candidate. cbv zeta.
  assert (forall acc' e, acc ⊆ acc' -> ok o acc' (failed ← activation_failed server (gsr_Generation (fence_GameServer fence)) started;
    if (failed : bool)
    then failRestorePreparation r o ReasonWorkerFailed "candidate could not settle while stopped; rolling back previous data selection"
    else Ret (requeue_after restoreRequeue, e))) as Hun.
  { intros acc' e Hsub. apply ok_restore_reads; [apply reads_activation_failed|]. intros es [] _; [|apply writes_ret].
    eapply ok_fail_activating. eapply grows; [|exact Ha]. set_solver. }
  apply ok_settled; [apply Ha | intros; by apply Hun..|]. intros acc' t Hsub Hs.
  assert (activating o fence source candidate server acc') as Ha' by grow Ha.
  destruct (restores_running o) eqn:Hr; cbn [negb]; [by eapply ok_journal_start|].
  eapply ok_completeRestoreSuccess; [done..|]. by left.
Qed.
Lemma ok_start_candidate o acc fence source candidate server started : activating o fence source candidate server acc ->
  sameDataSelection (gss_ActiveData (gs_Status server)) (candidate_selection o candidate) = true ->
  ok o acc (start_candidate r o server candidate (candidate_selection o candidate)
              (gsr_Generation (fence_GameServer fence)) started).
Proof.
  intros Ha Hsame. unfold start_candidate. cbv zeta. pose proof Ha as (Hset & (_ & _ & Hc) & _ & [_ [_ [Hph _]]]).
  destruct (_ || _)%bool eqn:E; [by eapply ok_hold_activating|]. apply orb_false_iff in E as [E%negb_false_iff _].
  apply bool_decide_eq_true in E. case_bool_decide as Hg.
  - case_bool_decide as Hd; cbn [negb]; [|by eapply ok_hold_activating].
    eapply (ok_settle_move r o acc fence server); [done | by eapply activating_world | by apply MoveStart].
  - destruct (negb _); [by eapply ok_hold_activating|].
    apply ok_settled; [apply Ha| | |].
    + intros acc' e Hsub. eapply ok_hold_activating. eapply grows; [|exact Ha]. set_solver.
    + intros acc' Hsub. apply ok_restore_reads; [apply reads_activation_failed|]. intros es [] _; [|apply writes_ret].
      eapply ok_fail_activating. eapply grows; [|exact Ha]. set_solver.
    + intros acc' t Hsub _. eapply ok_completeRestoreSuccess; [grow Ha | done | by right].
Qed.

Lemma ok_drive_activation o acc fence source candidate server started : activating o fence source candidate server acc ->
  ok o acc (drive_activation r o server candidate fence started).
Proof.
  intros Ha. unfold drive_activation. cbv zeta.
  destruct (_ && _)%bool eqn:E1; [by eapply ok_hold_activating|].
  destruct (bool_decide (rj_CandidateStartGeneration _ = 0%Z)) eqn:Eu; cbn [andb] in *.
  - apply negb_false_iff in E1. destruct (_ || _)%bool eqn:E2.
    + eapply ok_select_candidate; [done..|]. unfold not_previous.
      destruct (isSome _), (sameDataSelection _ _); done.
    + destruct (sameDataSelection _ (candidate_selection _ _)) eqn:Hs; cbn [negb]; [|by eapply ok_hold_activating].
      apply bool_decide_eq_true in Eu. by eapply ok_settle_candidate.
  - destruct (sameDataSelection _ (candidate_selection _ _)) eqn:Hs; cbn [negb]; [|by eapply ok_hold_activating].
    by eapply ok_start_candidate.
Qed.

Lemma ok_reconcileRestoreActivation o acc : restore_phase o = DataPhaseActivating -> ok o acc (reconcileRestoreActivation r o).
Proof.
  intros Hph. assert (rlive o) as Hl by (unfold rlive; by rewrite Hph).
  unfold reconcileRestoreActivation. apply ok_unless_worker. intros acc' _ Hw.
  destruct (ds_Fence (rdata o)) as [fence|] eqn:Hf; [|by apply ok_holdRestore].
  destruct (ds_Source (rdata o)) as [source|] eqn:Hsrc; [|by apply ok_holdRestore].
  destruct (rs_CandidateVerification (gr_Status o)) eqn:Hv; [|by apply ok_holdRestore].
  destruct (rs_ActivationStartedAt (gr_Status o)) as [started|] eqn:Hst; [|by apply ok_holdRestore].
  unfold activate. destruct (RestoreDataIdentity _) as [candidate|] eqn:Hc; [|by apply ok_holdRestore].
  case_bool_decide as Hne; [by apply ok_holdRestore|].
  apply ok_restore_reads; [apply reads_ensureRestoreLeases|]. intros es [e|] Hb; [apply writes_ret|].
  apply ensureRestoreLeases_fenced in Hb; [|done].
  apply ok_restore_reads; [apply reads_verify_worlds|]. intros es1 [m|] Hx.
  { apply ok_failRestorePreparation; [done | right; by rewrite Hst]. }
  apply verify_worlds_exact in Hx. apply ok_restore_reads; [apply reads_exactRestoreServer|].
  intros es2 [e|server] Hs; [by apply ok_holdRestore|]. apply exactRestoreServer_seen in Hs.
  apply (ok_drive_activation _ _ _ source). split; [split_and!; [grow Hw | grow Hs | destruct Hx as [Hx _]; grow Hx | done]|].
  split_and!; [grow Hb | grow Hx | done | by rewrite Hv | by rewrite Hst | done..].
Qed.

(** ** Rolling back *)

(** What a rollback rests on: both worlds fenced, the previous one exact, no
    worker left, and the server as it was read. *)
Definition rolling (o : GameRestore) (fence : ColdDataFence) (candidate : string) (server : GameServer) (es : list event) : Prop :=
  settling r o fence server es /\ both_fenced r o (target_name o) candidate es /\
  (isSome (rs_ActivationStartedAt (gr_Status o)) = true /\ restore_phase o = DataPhaseRollingBack).
#[local] Instance rolling_grows o f c v : Grows (rolling o f c v).
Proof. unfold rolling. grows_tac. Qed.

Lemma ok_hold_rolling o acc fence candidate server reason message :
  rolling o fence candidate server acc -> ok o acc (holdRestore o reason message).
Proof. intros (_ & _ & _ & Hph). apply ok_holdRestore. unfold rlive. by rewrite Hph. Qed.
Lemma rolling_candidate o fence candidate server es : rolling o fence candidate server es -> settled_world r o candidate es.
Proof. intros ((_ & _ & Hp & _) & (_ & _ & Hc) & _ & Hph). left. split; [done|]. by right. Qed.
Lemma rolling_previous o fence candidate server es : rolling o fence candidate server es ->
  settled_world r o (rs_PreviousDataIdentity (gr_Status o)) es.
Proof. intros ((_ & _ & Hp & _) & _). by right. Qed.

Lemma ok_finishRestoreRollback o acc fence candidate server g state : rolling o fence candidate server acc ->
  not_previous server (previous_selection o) = false -> rollback_state o fence state g ->
  ok o acc (finishRestoreRollback r o server (previous_selection o) g state).
Proof.
  intros Ha Hn Hst. unfold finishRestoreRollback. apply ok_settled; [apply Ha | intros; apply writes_ret..|].
  intros acc' t Hsub Hs. assert (rolling o fence candidate server acc') as Ha' by grow Ha.
  destruct (restoreFailureReason o) as [reason message]. cbv zeta.
  apply ok_restore_finished. intros s' es Hp Hr Hact Hsub'.
  assert (rolling o fence candidate server es) as ((Hw & _ & Hpc & Hf) & Hb & _ & Hph) by grow Ha'.
  split; [done|]. right. left. rewrite Hr, Hp. split.
  - exists fence, candidate, server, state, g, t. split_and!; try done. grow Hs.
  - split_and!; [|done..]. destruct (_ || _)%bool; auto.
Qed.

(** A generation the journal announces during the rollback. *)
Lemma ok_journal_rollback o acc fence candidate server (f : GameRestoreStatus -> GameRestoreStatus) :
  rolling o fence candidate server acc ->
  (forall s, exists j, f s = set_rs_Journal s j) ->
  (rs_RuntimeJournal (f (gr_Status o)) =
     rs_RuntimeJournal (journal_stop (gr_Status o) (int64 (gsr_Generation (fence_GameServer fence) + 2))) /\
   rj_RollbackStopGeneration (recorded_journal o) = 0%Z) \/
  (rs_RuntimeJournal (f (gr_Status o)) =
     rs_RuntimeJournal (journal_restart (gr_Status o) (rollback_restart o (gsr_Generation (fence_GameServer fence)))) /\
   rj_RollbackRestartGeneration (recorded_journal o) = 0%Z /\ restores_running o = true) ->
  rs_RuntimeJournal (f (moved o DataPhaseRollingBack)) = rs_RuntimeJournal (f (gr_Status o)) ->
  ok o acc (restore_write_return o DataPhaseRollingBack (fun s => Ret (f s))).
Proof.
  intros ((Hw & _ & _ & Hf) & _ & _ & Hph) Hfj Hj Hm. apply ok_restore_write; [apply emits_ret|].
  intros es s' [-> ->]. rewrite app_nil_r. destruct (Hfj (moved o DataPhaseRollingBack)) as [j Ej].
  rewrite Ej in *. split_and!; try done; try (by left). right. exists fence. split; [done|]. split; [done|]. rewrite Hm.
  destruct Hj as [[? ?]|[? [? ?]]]; [right; right; by left | by do 3 right].
Qed.

Lemma ok_stop_candidate o acc fence candidate server : rolling o fence candidate server acc ->
  gs_Generation server = int64 (gsr_Generation (fence_GameServer fence) + 1) ->
  gs_DesiredState (gs_Spec server) = DesiredStateRunning ->
  ok o acc (stop_candidate r o server candidate (int64 (gsr_Generation (fence_GameServer fence) + 2))).
Proof.
  intros Ha Hg Hd. unfold stop_candidate. cbv zeta.
  destruct (sameDataSelection _ _) eqn:Hs; cbn [negb]; [|by eapply ok_hold_rolling].
  case_bool_decide as Hj.
  - eapply ok_journal_rollback; [done | intros s; by eexists | by left | done].
  - case_bool_decide as Hj'; cbn [negb]; [|by eapply ok_hold_rolling].
    eapply (ok_settle_move r o acc fence server); [apply Ha | by eapply rolling_candidate|].
    apply MoveStop; try done; apply Ha.
Qed.
Lemma ok_reselect_previous o acc fence candidate server : rolling o fence candidate server acc ->
  gs_DesiredState (gs_Spec server) = DesiredStateStopped ->
  ok o acc (reselect_previous r o server candidate (gs_Generation server)).
Proof.
  intros Ha Hd. unfold reselect_previous.
  destruct (sameDataSelection _ _) eqn:Hs; cbn [negb]; [|by eapply ok_hold_rolling].
  apply ok_restore_reads; [apply reads_sourceClaimsUnmounted|]. intros es [e|[]] Hu; [apply writes_ret| |apply writes_ret].
  apply sourceClaimsUnmounted_unmounted in Hu. assert (rolling o fence candidate server (acc ++ es)) as Ha' by grow Ha.
  apply writes_bind; [eapply ok_allowRestoreSettlement; [apply Ha' | by eapply rolling_previous]|].
  intros es1 [e|] Hal; [apply writes_ret|]. apply allowRestoreSettlement_allowed in Hal.
  assert (rolling o fence candidate server ((acc ++ es) ++ es1)) as ((Hw & Ht & Hp & Hf) & Hb & Hst & Hph) by grow Ha'.
  apply ok_updateRestoreActiveData. intros d x Hsel. eapply RWReselect; try done; [grow Hu | grow Hal].
Qed.
Lemma ok_restart_rolled_back o acc fence candidate server : rolling o fence candidate server acc ->
  not_previous server (previous_selection o) = false -> restores_running o = true ->
  gs_DesiredState (gs_Spec server) = DesiredStateStopped ->
  gs_Generation server = gsr_Generation (fence_GameServer fence) \/
  gs_Generation server = int64 (gsr_Generation (fence_GameServer fence) + 2) ->
  ok o acc (restart_rolled_back r o server (gsr_Generation (fence_GameServer fence))).
Proof.
  intros Ha Hn Hr Hd Hg. unfold restart_rolled_back. cbv zeta. case_bool_decide as Hj.
  - eapply ok_journal_rollback; [done | intros s; by eexists | by right | done].
  - case_bool_decide as Hj'; cbn [negb]; [|by eapply ok_hold_rolling].
    eapply (ok_settle_move r o acc fence server); [apply Ha | by eapply rolling_previous|].
    apply MoveRestart; try done; apply Ha.
Qed.
Lemma ok_settle_rollback o acc fence candidate server g : rolling o fence candidate server acc ->
  g = gsr_Generation (fence_GameServer fence) \/ g = int64 (gsr_Generation (fence_GameServer fence) + 2) ->
  ok o acc (settle_rollback r o server candidate (gsr_Generation (fence_GameServer fence)) g).
Proof.
  intros Ha Hgen. unfold settle_rollback. cbv zeta. destruct (_ || _)%bool eqn:E; [by eapply ok_hold_rolling|].
  apply orb_false_iff in E as [Hg%negb_false_iff Hd%negb_false_iff]. apply bool_decide_eq_true in Hg, Hd.
  destruct (not_previous _ _) eqn:Hn.
  - rewrite <- Hg. by eapply ok_reselect_previous.
  - apply ok_settled; [apply Ha | intros; apply writes_ret..|]. intros acc' t Hsub _.
    assert (rolling o fence candidate server acc') as Ha' by grow Ha.
    destruct (restores_running o) eqn:Hr.
    + eapply ok_restart_rolled_back; try done. by rewrite Hg.
    + eapply ok_finishRestoreRollback; [done..|]. left. done.
Qed.
Lemma ok_drive_rollback o acc fence candidate server : rolling o fence candidate server acc ->
  ok o acc (drive_rollback r o server candidate fence).
Proof.
  intros Ha. unfold drive_rollback. cbv zeta. destruct (rolled_back_running o server) eqn:Hb.
  - unfold rolled_back_running in Hb. cbv zeta in Hb. rewrite !andb_true_iff, negb_true_iff in Hb.
    destruct Hb as [[[Hz%bool_decide_eq_false _] _] Hs]. eapply ok_finishRestoreRollback; [done| |by right].
    unfold not_previous. by rewrite Hs, andb_false_r.
  - case_bool_decide; [apply ok_settle_rollback; auto|].
    destruct (_ && _)%bool eqn:E.
    { apply andb_true_iff in E as [E1%bool_decide_eq_true E2%bool_decide_eq_true]. by eapply ok_stop_candidate. }
    match goal with |- writes_ok _ _ (if ?b then _ else _) => destruct b; [apply ok_settle_rollback; auto|] end.
    match goal with |- writes_ok _ _ (if ?b then _ else _) => destruct b end; [by eapply ok_hold_rolling | apply ok_settle_rollback; auto].
Qed.
Lemma ok_reconcileRestoreRollback o acc : restore_phase o = DataPhaseRollingBack -> ok o acc (reconcileRestoreRollback r o).
Proof.
  intros Hph. assert (rlive o) as Hl by (unfold rlive; by rewrite Hph).
  unfold reconcileRestoreRollback. apply ok_unless_worker. intros acc' _ Hw.
  destruct (ds_Fence (rdata o)) as [fence|] eqn:Hf; [|by apply ok_holdRestore].
  destruct (rs_ActivationStartedAt (gr_Status o)) as [started|] eqn:Hst; [|by apply ok_holdRestore].
  unfold roll_back. destruct (RestoreDataIdentity _) as [candidate|] eqn:Hc; [|apply writes_ret].
  apply ok_restore_reads; [apply reads_ensureRestoreLeases|]. intros es [e|] Hb; [apply writes_ret|].
  apply ensureRestoreLeases_fenced in Hb; [|done].
  apply ok_restore_reads; [apply reads_verifyRestoreDataClaims|]. intros es1 [e|] Hp; [by apply ok_holdRestore|].
  apply verifyRestoreDataClaims_exact in Hp.
  apply ok_restore_reads; [apply reads_exactRestoreServer|].
  intros es2 [e|server] Hs; [by apply ok_holdRestore|]. apply exactRestoreServer_seen in Hs.
  apply ok_drive_rollback. split_and!; [split_and!; [grow Hw | grow Hs | unfold previous_claims_exact; grow Hp | done]|
    grow Hb | by rewrite Hst | done].
Qed.

(** ** A pass *)

Lemma ok_reconcileRestoreCancellation o acc : restore_phase o = DataPhaseCancelling -> ok o acc (reconcileRestoreCancellation r o).
Proof.
  intros Hph. apply ok_finishRestoreWithoutActivation; [|split|by right]; rewrite ?Hph; try done.
  unfold rlive. by rewrite Hph.
Qed.
Lemma ok_finalizeRestore o acc : deleting (gr_meta o) = true -> ok o acc (finalizeRestore r o).
Proof.
  intros Hd. unfold finalizeRestore. destruct (negb (restore_protected o)); [apply writes_ret|].
  destruct (restoreTerminal (restore_phase o)) eqn:Ht; cbn [negb].
  - apply ok_unless_worker. intros acc' _ Hw. apply writes_bind; [by apply ok_releaseRestoreLeases|].
    intros es [e|] _; [apply writes_ret|]. apply writes_last. intros x. apply RWUnprotect; [done..|grow Hw].
  - destruct (isSome _).
    + case_bool_decide as Hp; cbn [negb]; [by apply ok_reconcileRestoreRollback | by apply ok_record_cancelled].
    + case_bool_decide as Hp; cbn [negb]; [by apply ok_reconcileRestoreCancellation | by apply ok_record_cancelled].
Qed.
Lemma ok_dispatch_restore o acc : ok o acc (dispatch_restore r o).
Proof.
  unfold dispatch_restore. destruct (restore_phase o) eqn:Hp; try apply writes_ret.
  all: first [by apply ok_reconcileRestorePreflight | by apply ok_reconcileRestorePopulate
    | by apply ok_reconcileRestoreVerification | by apply ok_reconcileRestoreActivation
    | by apply ok_reconcileRestoreRollback | by apply ok_reconcileRestoreCancellation
    | apply ok_prepareRestore; first [by left | by right]].
Qed.
Lemma ok_reconcile_restore o acc : ok o acc (reconcile_restore r o).
Proof.
  unfold reconcile_restore. destruct (deleting (gr_meta o)) eqn:Hd; [by apply ok_finalizeRestore|].
  destruct (negb (restore_protected o)); [apply writes_last; intros x; by apply RWProtect|].
  destruct (restoreTerminal (restore_phase o)) eqn:Ht.
  { apply ok_unless_worker. intros acc' _ Hw. apply writes_bind; [by apply ok_releaseRestoreLeases | intros; apply writes_ret]. }
  case_bool_decide; [by apply ok_condition|].
  destruct (_ && _ && _)%bool; [by apply ok_record_cancelled|].
  destruct (_ && _ && _)%bool; [by apply ok_record_cancelled | apply ok_dispatch_restore].
Qed.

(** Every write of a pass is one the machine allows on the reads before it. *)
Lemma restore_writes req es out pre e post : steps (Restore_Reconcile r req) es out -> es = pre ++ e :: post ->
  is_write e = true ->
  exists o pre', pre = Ev (ApiGet KGameRestore CachedReader req) (inr o) :: pre' /\ restore_write r o pre' e.
Proof.
  unfold Restore_Reconcile. intros (es1 & es2 & x & -> & ->%steps_call & Hs)%steps_bind E Hw.
  destruct x as [[|m]|o].
  1,2: destruct Hs as [-> _]; destruct pre as [|e0 [|]]; cbn in E; [by injection E as <- _ | discriminate..].
  destruct pre as [|e0 pre]; injection E as E0 E1; subst; [done|]. exists o, pre. split; [done|].
  by apply (ok_reconcile_restore o [] _ _ Hs pre e post).
Qed.
End Activation.
