(* ===== verification/RestoreSafety.v ===== *)
(** * What the restore controller's executions guarantee

    [RestoreMachine.restore_write] is the abstract machine of one restore pass;
    [RestoreActivation.restore_writes] shows that the controller writes nothing
    else.  The theorems here say what follows, for every execution, whatever
    the API server answers and whichever calls fail. *)

From Stdlib Require Import Ascii.
From stdpp Require Import base tactics list strings gmap numbers.
From S2P Require Import Prelude GoStrings Regex K8s ApiTypes DataOperation DataStatus Operations GameDefinition KubeObjects KubePlan KubeApi TraceLogic WorkerInput KubeDestroy OperationFence WorkerPods SourceClaims ServerController KubeBackup KubeRestore BackupController RestoreStatus RestoreSource RestoreVolumes RestoreCandidates RestoreWorker RestoreController RestoreMachine RestoreEvidence RestoreParts RestorePhases RestoreActivation.
Open Scope string_scope.
Open Scope list_scope.

(** ** What an event is *)

Definition as_restore {A} (k : kind A) : A -> option GameRestore :=
  match k in kind T return T -> option GameRestore with KGameRestore => Some | _ => fun _ => None end.
(** The written status of a restore. *)
Definition restore_status (e : event) : option GameRestore :=
  match e with Ev (ApiUpdateStatus k o) _ => as_restore k o | _ => None end.

Section Safety.
Context `{RegexpEngine} `{NameValidation} `{JsonSchema} `{TimeText} `{ResultDecoder}.
Variable r : GameRestoreReconciler.
Local Abbreviation rd := (directRestoreReader r).

Lemma restore_status_write req es out pre e post u : steps (Restore_Reconcile r req) es out -> es = pre ++ e :: post ->
  restore_status e = Some u ->
  exists o pre', pre = Ev (ApiGet KGameRestore CachedReader req) (inr o) :: pre' /\
    u = with_restore_status o (gr_Status u) /\
    rchanges r o (ds_Phase (rs_DataOperationStatus (gr_Status u))) (gr_Status u) pre' /\ raccepted o (gr_Status u).
Proof.
  intros Hs He Hu. assert (is_write e = true) as Hw by (destruct e as [? []]; done).
  destruct (restore_writes r _ _ _ _ _ _ Hs He Hw) as (o & pre' & -> & Hwrite). exists o, pre'. split; [done|].
  destruct Hwrite; try discriminate Hu. injection Hu as <-. by split_and!.
Qed.

(** C10: every write of every pass of the restore controller, whatever the API
    server answers and whichever calls fail, is one that [restore_write]
    allows for the restore it read and for what it read before the write. *)
Theorem Restore_Reconcile_refines req es out pre e post
  (Hs : steps (Restore_Reconcile r req) es out) (He : es = pre ++ e :: post) (Hw : is_write e = true) :
  exists o pre', pre = Ev (ApiGet KGameRestore CachedReader req) (inr o) :: pre' /\ restore_write r o pre' e.
Proof. by eapply restore_writes. Qed.

(** ** The previous world *)

Lemma candidate_claim_identity o identity name planned :
  claim_label (candidate_claim o identity name planned) LabelDataIdentity = identity.
Proof. unfold claim_label, mget, candidate_claim. cbn. by rewrite lookup_insert_ne, lookup_insert_eq. Qed.

(** C12: a restore never changes the world it replaces.  The one write it makes
    to a claim or a volume creates a candidate claim, under the name derived
    from the restore's UID and the path, for an identity of its own, when that
    name was read as absent, no candidate was recorded yet, the preflight was
    verified and the server was stopped at the fenced generation.  No claim is
    updated, expanded or deleted, of either world. *)
Theorem Restore_keeps_previous req es out pre e post
  (Hs : steps (Restore_Reconcile r req) es out) (He : es = pre ++ e :: post) (Hc : claim_touched e = true) :
  exists o pre' s fence planned name x,
    let claim := candidate_claim o (rsub_candidateIdentity s) name (Desired planned) in
    pre = Ev (ApiGet KGameRestore CachedReader req) (inr o) :: pre' /\
    e = Ev (ApiCreate KPersistentVolumeClaim claim) x /\
    prepared r o s pre' /\ planned ∈ DataClaims (rsub_plan s) /\
    RestoreCandidateID (gr_UID o) (claim_label (Desired planned) LabelDataPath) = Ok name /\
    Ev (ApiGet KPersistentVolumeClaim rd (key_of (pvc_meta claim))) (inl NotFound) ∈ pre' /\
    claim_label claim LabelDataIdentity <> rs_PreviousDataIdentity (gr_Status o) /\
    rs_CandidateData (gr_Status o) = [] /\ isSome (rs_PreflightVerifiedAt (gr_Status o)) = true /\
    ds_Fence (rdata o) = Some fence /\ gs_Generation (rsub_server s) = gsr_Generation (fence_GameServer fence) /\
    gs_DesiredState (gs_Spec (rsub_server s)) = DesiredStateStopped.
Proof.
  assert (is_write e = true) as Hw by (destruct e as [? []]; done).
  destruct (restore_writes r _ _ _ _ _ _ Hs He Hw) as (o & pre' & -> & Hwrite).
  destruct Hwrite as [| | | | | | | | | | |s planned name x Hp Hal Hin Hn Hc0 Hg| | | | | | | | |? k ? ? ? ? ? Hk]; try discriminate Hc.
  2: { exfalso. destruct k; discriminate. }
  unfold candidates_allowed in Hal. destruct (ds_Fence (rdata o)) as [fence|] eqn:Hf; [|done].
  rewrite !andb_true_iff, !bool_decide_eq_true in Hal. destruct Hal as [[Hv Hd] Hgen].
  exists o, pre', s, fence, planned, name, x. cbv zeta. rewrite candidate_claim_identity.
  pose proof Hp as (_ & _ & _ & _ & (_ & _ & _ & _ & Hne & _) & <- & _). by split_and!.
Qed.

(** C15: the fence a restore records is true.  It is recorded once, for exactly
    the generation the restore may stop the server at, when both worlds'
    Leases were read as the restore's own or created by it, the server was
    read stopped at that generation with exactly the previous data observed,
    no Pod mounts a previous claim and no previous volume is attached. *)
Theorem Restore_fence_cold req es out pre e post u fence
  (Hs : steps (Restore_Reconcile r req) es out) (He : es = pre ++ e :: post) (Hu : restore_status e = Some u)
  (Hf : ds_Fence (rdata u) = Some fence) :
  exists o pre', pre = Ev (ApiGet KGameRestore CachedReader req) (inr o) :: pre' /\
    (ds_Fence (rdata o) = Some fence \/
     exists t name candidateIdentity, fence = restore_cold_fence o (stop_generation o) t /\ ds_Fence (rdata o) = None /\
       both_fenced r o name candidateIdentity pre' /\ world_cold r o (stop_generation o) pre').
Proof.
  destruct (restore_status_write _ _ _ _ _ _ _ Hs He Hu) as (o & pre' & -> & Eu & Hch & _). exists o, pre'. split; [done|].
  destruct Hch as (_ & _ & _ & [Hk|(t & n & c & ? & ? & ? & Hk)] & _).
  - left. by rewrite <- Hk.
  - right. exists t, n, c. unfold rdata in Hf. rewrite Hk in Hf. injection Hf as <-. done.
Qed.

(** C21: what a restore waits for is never reported.  The reasons of a blocked
    and of a held restore, and the readiness of its target, are set as
    condition TargetReady; but the conditions a restore keeps are listed in the
    order of a backup's, which has no TargetReady, so no status any pass writes
    carries one. *)
Theorem Restore_target_unreported req es out pre e post u c
  (Hs : steps (Restore_Reconcile r req) es out) (He : es = pre ++ e :: post) (Hu : restore_status e = Some u)
  (Hc : c ∈ ds_Conditions (rdata u)) : cond_Type c <> ConditionTargetReady.
Proof.
  destruct (restore_status_write _ _ _ _ _ _ _ Hs He Hu) as (o & pre' & _ & _ & _ & [[_ Hk] _]).
  intros E. apply Hk in Hc. rewrite E in Hc. revert Hc. apply (bool_decide_unpack _). vm_compute. exact I.
Qed.

(** ** The candidate *)

Lemma report_of_ok job pods result : report_of job pods = ReportOk result ->
  exists pod message, pods = [pod] /\ restorePodIdentityMatches job pod = true /\
    restore_authorized_uid pod = om_UID (pod_meta pod) /\
    head (omap restore_success (pod_ContainerStatuses pod)) = Some message /\ DecodeResult message = Some result.
Proof.
  unfold report_of. destruct pods as [|pod [|]]; try done. destruct (_ || _)%bool eqn:E; [done|].
  apply orb_false_iff in E as [E1%negb_false_iff E2%negb_false_iff]. apply bool_decide_eq_true in E2.
  destruct (head _) as [message|] eqn:Eh; [|done]. destruct (DecodeResult message) eqn:Ed; [|done].
  intros [= ->]. by exists pod, message.
Qed.

Lemma restore_reports statuses message : head (omap restore_success statuses) = Some message ->
  exists status, status ∈ statuses /\ cs_Name status = "restore-worker" /\ cs_Terminated status = Some (0%Z, message).
Proof.
  intros Hm%head_Some_elem_of. apply list_elem_of_omap in Hm as (status & Hin & Hs). exists status. split; [done|].
  unfold restore_success in Hs. destruct (cs_Terminated status) as [[code m]|]; [|done].
  destruct (_ && _)%bool eqn:E; [|done]. injection Hs as ->.
  by apply andb_true_iff in E as [?%bool_decide_eq_true ->%bool_decide_eq_true].
Qed.
Lemma restorePodIdentityMatches_exact job pod :
  restorePodIdentityMatches job pod = true -> exact_job_pod AnnotationRestorePodAuthorized job pod.
Proof.
  unfold restorePodIdentityMatches. destruct (_ || _)%bool eqn:E; [done|]. by apply exact_job_pod_intro.
Qed.

(** C16: a candidate is recorded as verified only on the word of the one
    authorized Pod of the journaled Job (live, in its namespace, owned by this
    Job only, by kind, name and UID, with its template's labels), complete,
    whose worker terminated with code 0 and wrote on exactly the
    recorded candidate claims, isolated from the previous world, over a cold
    server; the word is for the recorded artifact, its manifest digest and
    every path of its source. *)
Theorem Restore_candidate_attested req es out pre e post u v
  (Hs : steps (Restore_Reconcile r req) es out) (He : es = pre ++ e :: post) (Hu : restore_status e = Some u)
  (Hv : rs_CandidateVerification (gr_Status u) = Some v) :
  exists o pre', pre = Ev (ApiGet KGameRestore CachedReader req) (inr o) :: pre' /\
    (rs_CandidateVerification (gr_Status o) = Some v \/
     exists s resources job pod message result,
       populating r o s pre' /\ restore_built r o s StagePopulate resources /\
       restore_job_read r o StagePopulate resources job pre' /\ jobComplete job = true /\
       om_UID (job_meta job) = rs_PopulateJobUID (gr_Status o) /\ stage_pods r o StagePopulate [pod] pre' /\
       restorePodIdentityMatches job pod = true /\ restore_authorized_uid pod = om_UID (pod_meta pod) /\
       exact_job_pod AnnotationRestorePodAuthorized job pod /\
       (exists status, status ∈ pod_ContainerStatuses pod /\ cs_Name status = "restore-worker" /\
          cs_Terminated status = Some (0%Z, message)) /\
       head (omap restore_success (pod_ContainerStatuses pod)) = Some message /\ DecodeResult message = Some result /\
       ds_Source (rdata o) = Some (rsub_source s) /\ ds_Artifact (rdata o) = Some (rsub_artifact s) /\
       wr_ArtifactID result = art_ID (rsub_artifact s) /\
       v = MkCandidateVerification VerificationVerified (art_ManifestDigest (rsub_artifact s))
             (int32 (len (src_Paths (rsub_source s)))) (wr_VerifiedAt result)).
Proof.
  destruct (restore_status_write _ _ _ _ _ _ _ Hs He Hu) as (o & pre' & -> & Eu & Hch & _). exists o, pre'. split; [done|].
  destruct Hch as (_ & _ & _ & _ & _ & [Hk|(s & result & Ha & Hk)] & _); [left; by rewrite <- Hk|]. right.
  destruct Ha as (resources & job & pods & [[? _]|[_ Hpop]] & Hj & Hl & Hb & Hjn & Hc & Hr & Hm); [done|].
  apply report_of_ok in Hr as (pod & message & -> & Hid & Hau & Hmsg & Hdec).
  unfold report_matches in Hm. rewrite !andb_true_iff, !bool_decide_eq_true in Hm.
  destruct Hm as [[[[[_ Hm1] Hm2] Hm3] _] _]. cbn [restoreWorkerInput in_Artifact in_Source] in *.
  destruct (Hjn eq_refl) as [Hjuid _]. pose proof Hpop as ((_ & _ & _ & _ & _ & _ & _ & _ & Hsrc & Hart) & _).
  exists s, resources, job, pod, message, result. rewrite Hv, Hm2, Hm3 in Hk. injection Hk as ->.
  split_and!; try done; [by apply restorePodIdentityMatches_exact | by apply restore_reports].
Qed.

(** C13: the server's selection changes in two ways only.  The candidate is
    selected in one write, by an activation that was recorded: the candidate
    was verified, both worlds are fenced by the restore, found exact on claims
    bound to distinct volumes that back no source claim, no worker is left,
    the server was observed stopped at the fenced generation with the previous
    data, and its Lease allows just that state.  The previous world is selected
    again by a rollback, over a stopped server from which every candidate claim
    is detached, with the previous claims found exact. *)
Theorem Restore_selects_verified req es out pre e post server'
  (Hs : steps (Restore_Reconcile r req) es out) (He : es = pre ++ e :: post) (Hu : server_status e = Some server') :
  exists o pre' fence candidateIdentity server d,
    pre = Ev (ApiGet KGameRestore CachedReader req) (inr o) :: pre' /\ server' = with_active_data server (Some d) /\
    workers_absent r o pre' /\ ds_Fence (rdata o) = Some fence /\ isSome (rs_ActivationStartedAt (gr_Status o)) = true /\
    both_fenced r o (target_name o) candidateIdentity pre' /\ target_seen r o server pre' /\
    ((restore_phase o = DataPhaseActivating /\ candidate_selection o candidateIdentity = Some d /\
      exists source, ds_Source (rdata o) = Some source /\ isSome (rs_CandidateVerification (gr_Status o)) = true /\
        worlds_exact r o candidateIdentity source pre' /\ candidateIdentity <> rs_PreviousDataIdentity (gr_Status o) /\
        gs_DesiredState (gs_Spec server) = DesiredStateStopped /\
        gs_Generation server = gsr_Generation (fence_GameServer fence) /\
        runtime_observed server (previous_selection o) DesiredStateStopped (gs_Generation server) = true /\
        rsettlement_allowed r o candidateIdentity DesiredStateStopped (gs_Generation server) pre') \/
     (restore_phase o = DataPhaseRollingBack /\ previous_selection o = Some d /\
        previous_claims_exact r o pre' /\ gs_DesiredState (gs_Spec server) = DesiredStateStopped /\
        sameDataSelection (gss_ActiveData (gs_Status server)) (candidate_selection o candidateIdentity) = true /\
        unmounted rd (gr_Namespace o) (rs_CandidateData (gr_Status o)) pre' /\
        rsettlement_allowed r o (rs_PreviousDataIdentity (gr_Status o)) DesiredStateStopped (gs_Generation server) pre')).
Proof.
  assert (is_write e = true) as Hw by (destruct e as [? []]; done).
  destruct (restore_writes r _ _ _ _ _ _ Hs He Hw) as (o & pre' & -> & Hwrite). exists o, pre'.
  destruct Hwrite as [| | | | | | | |
    |fence source candidate server d x Hwa Hf Hsrc Hv Hst Hph Hb Hx Hne Ht Hcold Hn Ho Hal Hd
    |fence candidate server d x Hwa Hf Hst Hph Hb Hp Ht Hstop Hsame Hun Hal Hd| | | | | | | | | | ]; try discriminate Hu;
    injection Hu as <-; exists fence, candidate, server, d; (split_and!; try done).
  - left. unfold fenced_target in Hcold. rewrite andb_true_iff, !bool_decide_eq_true in Hcold. destruct Hcold as [Hg Hdes].
    split_and!; try done. exists source. rewrite Hg. by split_and!.
  - right. by split_and!.
Qed.

(** ** The server's intent *)

(** The Lease leaves the server controller to run exactly this. *)
Definition admits (o : GameRestore) (identity : string) (state : DesiredState) (generation : Z) (lease : Lease) : Prop :=
  ls_HolderIdentity lease = Some (gr_UID o) /\
  forall server, server_Name server = target_name o -> gs_DesiredState (gs_Spec server) = state ->
    gs_Generation server = generation -> restore_settles server identity lease (gr_UID o) = true.

Lemma settlement_present_admits o identity state generation lease :
  holds_restore_fence o (target_name o) identity lease = true ->
  settlement_present identity state generation lease = true -> admits o identity state generation lease.
Proof.
  intros Hh Hp. unfold settlement_present in Hp. rewrite !andb_true_iff, !bool_decide_eq_true in Hp.
  destruct Hp as [[Hs Hg] Hd]. pose proof Hh as Hm. unfold holds_restore_fence, RestoreOperationLeaseMatches in Hm.
  destruct (_ || _)%bool eqn:E in Hm; [done|]. rewrite !orb_false_iff, !negb_false_iff, !bool_decide_eq_true in E.
  cbn [ref_Name ref_UID restore_ref] in E. destruct_and!. split; [done|].
  intros server Hn Hds Hgen. unfold restore_settles. rewrite Hn, Hds, Hgen, Hs, Hg, Hd.
  match goal with Ha : lease_annotation lease AnnotationRestoreName = _ |- _ => rewrite Ha end.
  unfold holds_restore_fence, restore_ref in Hh. rewrite Hh. by rewrite !bool_decide_eq_true_2.
Qed.
Lemma restore_settlement_get identity state generation lease k :
  k <> AnnotationRestoreSettlementData -> k <> AnnotationRuntimeSettlementGeneration -> k <> AnnotationRuntimeSettlementState ->
  lease_annotation (with_lease_meta lease (restore_settlement identity state generation lease)) k = lease_annotation lease k.
Proof.
  intros Hd Hg Hs. unfold lease_annotation, mget. cbn [ls_meta with_lease_meta with_annotations om_Annotations].
  unfold restore_settlement. by rewrite !lookup_insert_ne.
Qed.
Lemma rsettlement_allowed_admits o identity state generation es : rsettlement_allowed r o identity state generation es ->
  exists lease allowed, own_lease_read r o identity lease es /\
    (allowed = lease \/ Ev (ApiUpdate KLease allowed) None ∈ es) /\ admits o identity state generation allowed.
Proof.
  intros (lease & Hl & Ha). pose proof Hl as [_ Hh]. destruct Ha as [Hp|Hw].
  - exists lease, lease. split_and!; [done | by left | by apply settlement_present_admits].
  - eexists lease, _. split_and!; [done | right; exact Hw |]. apply settlement_present_admits.
    + unfold holds_restore_fence, RestoreOperationLeaseMatches in *. by rewrite restore_settlement_get.
    + unfold settlement_present, lease_annotation, mget, restore_settlement. cbn.
      rewrite !lookup_insert_eq, !(lookup_insert_ne _ AnnotationRestoreSettlementData) by done.
      rewrite !lookup_insert_eq, (lookup_insert_ne _ AnnotationRuntimeSettlementGeneration) by done.
      rewrite lookup_insert_eq. cbn. by rewrite !bool_decide_eq_true_2.
Qed.

(** C19: a restore moves the server's intent in two ways only.  It stops the
    exact requested running generation, once the preflight is verified and
    both worlds are fenced; and it settles it from the fence on as the journal
    announced ([settles_move]): start the candidate, stop a started candidate,
    or restart the previous world, after every worker was observed gone and
    the previous claims were found exact, and under a Lease of its own that
    the server controller takes as leave to run exactly that state at exactly
    that generation. *)
Theorem Restore_moves_server req es out pre e post server'
  (Hs : steps (Restore_Reconcile r req) es out) (He : es = pre ++ e :: post) (Hu : server_updated e = Some server') :
  exists o pre', pre = Ev (ApiGet KGameRestore CachedReader req) (inr o) :: pre' /\
    ((exists s, server' = with_desired (rsub_server s) DesiredStateStopped /\ prepared r o s pre' /\
        both_fenced r o (server_Name (rsub_server s)) (rsub_candidateIdentity s) pre' /\ stage_absent r o StagePreflight pre' /\
        isSome (rs_PreflightVerifiedAt (gr_Status o)) = true /\ ds_Fence (rdata o) = None /\
        gs_Generation (rsub_server s) = gsr_Generation (restore_target o) /\
        gsr_DesiredState (restore_target o) = DesiredStateRunning) \/
     (exists fence server identity state generation lease allowed, server' = with_desired server state /\
        workers_absent r o pre' /\ ds_Fence (rdata o) = Some fence /\ target_seen r o server pre' /\
        previous_claims_exact r o pre' /\ settles_move o fence server identity state generation /\
        own_lease_read r o identity lease pre' /\ (allowed = lease \/ Ev (ApiUpdate KLease allowed) None ∈ pre') /\
        admits o identity state generation allowed)).
Proof.
  assert (is_write e = true) as Hw by (destruct e as [? []]; done).
  destruct (restore_writes r _ _ _ _ _ _ Hs He Hw) as (o & pre' & -> & Hwrite). exists o, pre'. split; [done|].
  destruct Hwrite; try discriminate Hu; injection Hu as <-.
  - left. eexists. split_and!; first [reflexivity | done].
  - right. match goal with Ha : rsettlement_allowed _ _ _ _ _ _ |- _ =>
      destruct (rsettlement_allowed_admits _ _ _ _ _ Ha) as (l & a & ? & ? & ?) end.
    exists fence, server, identity, state, generation, l, a. by split_and!.
Qed.

(** ** How a restore ends *)

(** The recorded data sets do not change once the work is past its start. *)
Lemma rchanges_kept o phase s' es : rchanges r o phase s' es -> restore_phase o <> DataPhasePending ->
  restore_phase o <> DataPhaseBlocked -> restore_phase o <> DataPhasePreparing ->
  ds_Source (rs_DataOperationStatus s') = ds_Source (rdata o) /\ ds_Artifact (rs_DataOperationStatus s') = ds_Artifact (rdata o) /\
  rs_PreviousData s' = rs_PreviousData (gr_Status o) /\ rs_PreviousDataIdentity s' = rs_PreviousDataIdentity (gr_Status o) /\
  rs_CandidateData s' = rs_CandidateData (gr_Status o).
Proof.
  intros (_ & Hsrc & _ & _ & Hc & _) Hn1 Hn2 Hn3.
  destruct Hsrc as [(-> & -> & -> & ->)|(s & _ & [[?|?] _])]; [|done..].
  destruct Hc as [->|(s & _ & _ & _ & ?)]; done.
Qed.
Lemma rchanges_fence o phase s' es fence : rchanges r o phase s' es -> ds_Fence (rdata o) = Some fence ->
  ds_Fence (rs_DataOperationStatus s') = Some fence.
Proof. intros (_ & _ & _ & [->|(t & n & c & _ & _ & Hn & _)] & _) Hf; [done|congruence]. Qed.

(** The accepted runtime of a restore that is to leave its server stopped. *)
Lemma accepted_stopped o fence rt : ValidateRestoreStatus (Some o) = Ok tt -> terminal (restore_phase o) = true ->
  ds_Fence (rdata o) = Some fence -> ds_Runtime (rdata o) = Some rt -> restores_running o = false -> rt_Phase rt = PhaseStopped.
Proof.
  intros Hv Ht Hf Hr Hn. apply ValidateRestoreStatus_runtime in Hv as [_ Hv]. unfold validateRestoreRuntimeStatus in Hv.
  cbv zeta in Hv. destruct (validateRuntimeJournal _) as [[]|] in Hv; [|done]. unfold restore_phase, rdata in *.
  cbn [mbind result_bind] in Hv. rewrite Hf, Ht in Hv. cbn [negb] in Hv.
  unfold restores_running, restore_policy, restore_target in Hn.
  rewrite <- negb_andb, Hn in Hv. cbn [negb] in Hv.
  apply validateRuntimeDisposition_ok in Hv as (rt' & Ert & _ & _ & Hh). rewrite Hr in Ert. injection Ert as <-.
  rewrite Hn in Hh. apply Hh.
Qed.

(** C11: a restore recorded as successful serves what it verified.  The
    candidate set is complete for the source manifest, verified for its
    artifact and disjoint from the previous set, which is still complete; in
    the pass, both worlds were fenced by the restore, found exact on claims
    bound to distinct volumes, the workers were observed gone, and the server
    was read selecting and observing exactly the candidate, in the state and
    at the generation the request asks for. *)
Theorem Restore_success_sound req es out pre e post u
  (Hs : steps (Restore_Reconcile r req) es out) (He : es = pre ++ e :: post) (Hu : restore_status e = Some u)
  (Hp : restore_phase u = DataPhaseSucceeded) :
  exists o pre' source fence candidateIdentity server state generation t,
    pre = Ev (ApiGet KGameRestore CachedReader req) (inr o) :: pre' /\ ActivationEvidence u source /\
    rs_ActiveData (gr_Status u) = rs_CandidateData (gr_Status u) /\ ds_Fence (rdata u) = Some fence /\
    ds_Runtime (rdata u) = Some (restore_disposition o state generation t) /\
    (if restores_running o
     then state = DesiredStateRunning /\ generation = int64 (gsr_Generation (fence_GameServer fence) + 1)
     else state = DesiredStateStopped /\ generation = gsr_Generation (fence_GameServer fence)) /\
    workers_absent r o pre' /\ both_fenced r o (target_name o) candidateIdentity pre' /\
    worlds_exact r o candidateIdentity source pre' /\
    settled_on r o server (candidate_selection o candidateIdentity) state generation pre' /\
    sameDataSelection (gss_ActiveData (gs_Status server)) (candidate_selection o candidateIdentity) = true.
Proof.
  destruct (restore_status_write _ _ _ _ _ _ _ Hs He Hu) as (o & pre' & -> & Eu & Hch & [_ Hv]). rewrite <- Eu in Hv.
  pose proof Hch as (_ & _ & _ & _ & _ & _ & _ & _ & Hend). unfold restore_phase, rdata in Hp.
  destruct Hend as [[Ht _]|[Hw [[Hsv (_ & Hph & Hact)]|[[_ ([?|?] & _)]|[_ ([?|?] & _)]]]]]; [by rewrite Hp in Ht| |congruence..].
  destruct Hsv as (fence & source & candidate & server & state & g & t & Hb & Hx & Hset & Hf & Hsrc & _ & Hsame & Hst & Hr).
  destruct (rchanges_kept _ _ _ _ Hch) as (Esrc & _ & _ & _ & Ec); [by rewrite Hph..|].
  pose proof (rchanges_fence _ _ _ _ _ Hch Hf) as Hf'.
  destruct (ValidateRestoreStatus_activation u Hv (or_intror Hp)) as [_ [source' Hae]%validateActivation_ok].
  assert (source' = source) as -> by (pose proof (ae_source _ _ Hae); congruence).
  exists o, pre', source, fence, candidate, server, state, g, t. split_and!; try done; [by rewrite Ec|].
  destruct Hst as [(Hn & -> & ->)|(_ & -> & ->)]; [by rewrite Hn|].
  destruct (restores_running o) eqn:Hn; [done|]. exfalso.
  assert (rt_Phase (restore_disposition o DesiredStateRunning (int64 (gsr_Generation (fence_GameServer fence) + 1)) t) = PhaseStopped)
    as Hx'; [|discriminate Hx'].
  eapply (accepted_stopped u); [done| |exact Hf'|exact Hr|].
  - unfold restore_phase, rdata. by rewrite Hp.
  - rewrite Eu. exact Hn.
Qed.

(** C14: a restore recorded as failed or cancelled left the previous world.
    Every worker was observed gone, and either no fence was ever recorded and
    the server is as the request found it (or no source was resolved), or the
    previous claims were found exact and the server was read with the previous
    data observed, in the state and at the generation it is recorded in; after
    an activation, that is under the Leases of both worlds, with the previous
    data recorded as active. *)
Theorem Restore_failure_sound req es out pre e post u
  (Hs : steps (Restore_Reconcile r req) es out) (He : es = pre ++ e :: post) (Hu : restore_status e = Some u)
  (Hp : restore_phase u = DataPhaseFailed \/ restore_phase u = DataPhaseCancelled) :
  exists o pre', pre = Ev (ApiGet KGameRestore CachedReader req) (inr o) :: pre' /\ workers_absent r o pre' /\
    ((restore_phase o = DataPhaseRollingBack /\ rs_ActiveData (gr_Status u) = rs_PreviousData (gr_Status u) /\
      rollback_settled r o (ds_Runtime (rdata u)) pre') \/
     (unactivated o /\ rs_ActiveData (gr_Status u) = rs_ActiveData (gr_Status o) /\
      previous_left r o (ds_Runtime (rdata u)) pre')).
Proof.
  destruct (restore_status_write _ _ _ _ _ _ _ Hs He Hu) as (o & pre' & -> & Eu & Hch & _). exists o, pre'. split; [done|].
  pose proof Hch as (_ & _ & _ & _ & _ & _ & _ & _ & Hend). unfold restore_phase, rdata in Hp.
  destruct Hend as [[Ht _]|[Hw Hend]]; [by destruct Hp as [Hp|Hp]; rewrite Hp in Ht|]. split; [done|].
  destruct Hend as [[_ (Hp' & _)]|[[Hr (_ & Hph & Ha)]|[Hl (_ & Hn1 & Hn2 & Ha)]]]; [by destruct Hp; congruence| |by right].
  left. destruct (rchanges_kept _ _ _ _ Hch) as (_ & _ & Ep & _); [by rewrite Hph..|]. by rewrite Ep.
Qed.

(** ** The worker *)

Lemma restore_built_pod o s stage resources job es : restore_built r o s stage resources ->
  restore_job_read r o stage resources job es -> job_Suspend (job_Spec job) = Some false ->
  pod_Volumes (job_TemplateSpec (job_Spec job)) = pod_Volumes (job_TemplateSpec (job_Spec (rk_Job resources))) /\
  Forall2 runs_same (pod_InitContainers (job_TemplateSpec (job_Spec (rk_Job resources))))
    (pod_InitContainers (job_TemplateSpec (job_Spec job))) /\
  Forall2 runs_same (pod_Containers (job_TemplateSpec (job_Spec (rk_Job resources))))
    (pod_Containers (job_TemplateSpec (job_Spec job))).
Proof.
  intros (_ & _ & _ & _ & _ & Ej)%BuildRestoreResources_inv [_ Hu] Hsus. unfold restore_job_unchanged in Hu.
  rewrite !andb_true_iff in Hu. destruct Hu as [_ Hm]. unfold expected_job in Hm. rewrite Hsus, Ej in Hm. cbn in Hm.
  apply stored_job_runs in Hm; [|done]. rewrite Ej. destruct Hm as (? & _ & _ & _ & _ & ? & ? & _). by split_and!.
Qed.

(** C18: no credential reaches a Pod that is not the worker.  A Pod is let past
    its scheduling gate only for the repository-only preflight of a fenced
    candidate identity, or for the population of exactly the recorded
    candidates over a cold server; it is the only Pod of the stage, belongs to
    the stage's Job (for the population, the Job whose UID was recorded while
    it was suspended; it is its only owner, by kind, name and UID, in its
    namespace, and its template's labels), was never scheduled, mounts no claim but, in the
    population, the restore's own candidate claims, none of which is a claim
    of the source or of the previous world, and runs only images pinned by
    digest. *)
Theorem Restore_worker_confined req es out pre e post p
  (Hs : steps (Restore_Reconcile r req) es out) (He : es = pre ++ e :: post) (Hp : pod_updated e = Some p) :
  exists o pre' s stage resources job pod,
    pre = Ev (ApiGet KGameRestore CachedReader req) (inr o) :: pre' /\ p = restore_authorized pod /\
    at_stage r o s stage pre' /\ stage_pods r o stage [pod] pre' /\ restore_job_read r o stage resources job pre' /\
    job_journaled o stage job /\ restorePodIdentityMatches job pod = true /\
    exact_job_pod AnnotationRestorePodAuthorized job pod /\ restore_authorized_uid pod = "" /\
    pod_NodeName (pod_Spec pod) = "" /\ pod_SchedulingGates (pod_Spec pod) = [RestoreSchedulingGate] /\
    (forall v name ro, v ∈ pod_Volumes (pod_Spec p) -> vol_Source v = VolumePersistentVolumeClaim name ro ->
       stage = StagePopulate /\
       exists c, c ∈ rs_CandidateData (gr_Status o) /\ claimName c = name /\
         RestoreCandidateID (gr_UID o) (dp_Name c) = Ok name /\
         forall other, other ∈ src_Paths (rsub_source s) ++ rs_PreviousData (gr_Status o) ->
           claimName other <> name /\ claimUID other <> claimUID c) /\
    (forall image, image ∈ con_Image <$> (pod_InitContainers (pod_Spec p) ++ pod_Containers (pod_Spec p)) ->
       MatchString pinnedWorkerImagePattern image = true).
Proof.
  assert (is_write e = true) as Hw by (destruct e as [? []]; done).
  destruct (restore_writes r _ _ _ _ _ _ Hs He Hw) as (o & pre' & -> & Hwrite).
  destruct Hwrite as [ |  |  |  |  |  |  |  |  |  |  |  |  |  |  |  |  | 
    |s stage resources job pod x Hst Hb Hj Hjn Hsus Hl Hid Hspec Hun Hau| |? k]; try discriminate Hp.
  injection Hp as <-. exists o, pre', s, stage, resources, job, pod.
  unfold restorePodSpecMatches in Hspec. unfold pod_unstarted in Hun.
  rewrite !andb_true_iff in Hun. destruct Hun as [[[Hnode%bool_decide_eq_true _] _] _].
  apply andb_true_iff in Hspec as [Hgate%bool_decide_eq_true Hnorm%bool_decide_eq_true].
  destruct (restore_built_pod _ _ _ _ _ _ Hb Hj Hsus) as (Ev1 & Hi1 & Hc1).
  destruct (normalized_pod _ _ Hnorm) as (Ev2 & _ & _ & Hi2 & Hc2).
  destruct (BuildRestoreResources_confined _ _ _ _ _ Hb) as (Hvol & _ & _ & _ & _ & _ & _ & Him).
  split_and!; try done; [by apply restorePodIdentityMatches_exact|..].
  - cbn [pod_Spec restore_authorized ungated pod_Volumes]. rewrite Ev2, Ev1. intros v name ro Hin Hvs.
    destruct (Hvol v name ro Hin Hvs) as (Hpop & c & Hc & Hn & Hid' & Hal).
    cbn [restoreWorkerInput in_Stage in_CandidatePaths in_Source in_PreviousData] in *. subst stage.
    rewrite bool_decide_eq_true_2 in Hc, Hal by done. split; [done|]. exists c. split_and!; try done.
  - intros image. cbn [pod_Spec restore_authorized ungated pod_InitContainers pod_Containers].
    rewrite fmap_app, (runs_same_image _ _ Hi2), (runs_same_image _ _ Hc2), (runs_same_image _ _ Hi1), (runs_same_image _ _ Hc1),
      <- fmap_app. intros (con & -> & Hcon)%list_elem_of_fmap. by apply Him.
Qed.
End Safety.
