(* ===== verification/RestoreHistory.v ===== *)
(** * Histories of a restore

    A restore over many passes: [restore_history] are the versions a request
    can have, and what a candidate's verification in one of them rests on in
    the passes before.  The last section follows a rollback that cannot end. *)

From Stdlib Require Import Ascii.
From stdpp Require Import base tactics list strings gmap numbers.
From S2P Require Import Prelude GoStrings K8s ApiTypes DataOperation DataStatus Operations GameDefinition KubeObjects KubePlan KubeApi TraceLogic WorkerInput KubeDestroy OperationFence WorkerPods SourceClaims ServerController KubeBackup KubeRestore BackupController RestoreStatus RestoreSource RestoreVolumes RestoreCandidates RestoreWorker RestoreController RestoreMachine RestoreEvidence RestoreParts RestorePhases RestoreActivation RestoreSafety.
Open Scope string_scope.
Open Scope list_scope.

Definition new_restore_status : GameRestoreStatus :=
  MkGameRestoreStatus (MkDataStatus 0 DataPhaseUnset 0 None None [] None None None None)
    0 false "" "" None None None None [] [] [].

(** From the population of the candidate on. *)
Definition late (phase : DataOperationPhase) : bool :=
  match phase with
  | DataPhaseUnset | DataPhasePending | DataPhaseBlocked | DataPhasePreparing => false
  | _ => true
  end.
Lemma late_transition p q verified : ValidateTransition RestoreOperation p q verified = Ok tt -> late p = true -> late q = true.
Proof. destruct p, q, verified; done. Qed.

(** What a restore activates, and what it goes back to. *)
Definition same_worlds (o o' : GameRestore) : Prop :=
  gr_UID o' = gr_UID o /\ rs_CandidateData (gr_Status o') = rs_CandidateData (gr_Status o) /\
  rs_PreviousData (gr_Status o') = rs_PreviousData (gr_Status o) /\
  rs_PreviousDataIdentity (gr_Status o') = rs_PreviousDataIdentity (gr_Status o) /\
  ds_Source (rdata o') = ds_Source (rdata o) /\ ds_Artifact (rdata o') = ds_Artifact (rdata o) /\
  ds_Fence (rdata o') = ds_Fence (rdata o).
#[export] Instance same_worlds_refl : Reflexive same_worlds.
Proof. intros o. by split_and!. Qed.
#[export] Instance same_worlds_trans : Transitive same_worlds.
Proof. unfold same_worlds. intros o1 o2 o3 ? ?. destruct_and!. split_and!; congruence. Qed.

Section History.
Context `{RegexpEngine} `{NameValidation} `{JsonSchema} `{TimeText} `{ResultDecoder}.
Variable r : GameRestoreReconciler.

(** The versions of a request: as created, with metadata or a cancellation
    edited, and as a pass over an earlier version wrote its status. *)
Inductive restore_history : GameRestore -> Prop :=
| RHCreated o : gr_Status o = new_restore_status -> restore_history o
| RHEdited o o' : restore_history o -> gr_UID o' = gr_UID o -> gr_Status o' = gr_Status o -> restore_history o'
| RHPass o pre u x post out : restore_history o ->
    steps (reconcile_restore r o) (pre ++ Ev (ApiUpdateStatus KGameRestore u) x :: post) out -> restore_history u.

Lemma pass_writes o pre u x post out : steps (reconcile_restore r o) (pre ++ Ev (ApiUpdateStatus KGameRestore u) x :: post) out ->
  u = with_restore_status o (gr_Status u) /\
  rchanges r o (ds_Phase (rs_DataOperationStatus (gr_Status u))) (gr_Status u) pre /\ raccepted o (gr_Status u).
Proof.
  intros Hs. pose proof (ok_reconcile_restore r o [] _ _ Hs pre _ post eq_refl eq_refl) as Hw. rewrite app_nil_l in Hw.
  remember (Ev (ApiUpdateStatus KGameRestore u) x) as e eqn:Ee.
  assert (restore_status e = Some u) as Hu by by subst. clear Ee.
  destruct Hw; try discriminate Hu. injection Hu as <-. by split_and!.
Qed.

(** The verification of a candidate, as an earlier pass attested it for the
    worlds recorded now. *)
Definition attested_in_history (o : GameRestore) (v : CandidateDataVerification) : Prop :=
  exists o0 s result pre u x post out, restore_history o0 /\
    steps (reconcile_restore r o0) (pre ++ Ev (ApiUpdateStatus KGameRestore u) x :: post) out /\
    restore_attested r o0 s StagePopulate result pre /\ same_worlds o0 o /\
    v = MkCandidateVerification VerificationVerified (wr_ManifestDigest result) (wr_PathCount result) (wr_VerifiedAt result).

Lemma attested_same o o' v : attested_in_history o v -> same_worlds o o' -> attested_in_history o' v.
Proof.
  intros (o0 & s & result & pre & u & x & post & out & Hh & Hs & Ha & Hw & Hv) Hw'.
  exists o0, s, result, pre, u, x, post, out. split_and!; try done. by etrans.
Qed.

(** What holds of every version. *)
Definition history_inv (o : GameRestore) : Prop :=
  (forall v, rs_CandidateVerification (gr_Status o) = Some v ->
     late (restore_phase o) = true /\ ds_Fence (rdata o) <> None /\ attested_in_history o v) /\
  (rs_ActivationStartedAt (gr_Status o) <> None -> rs_CandidateVerification (gr_Status o) <> None).

Lemma late_phase o : late (restore_phase o) = true ->
  restore_phase o <> DataPhasePending /\ restore_phase o <> DataPhaseBlocked /\ restore_phase o <> DataPhasePreparing.
Proof. intros Hl. split_and!; intros E; by rewrite E in Hl. Qed.

(** A late pass keeps both worlds. *)
Lemma late_pass o u pre : late (restore_phase o) = true -> ds_Fence (rdata o) <> None -> u = with_restore_status o (gr_Status u) ->
  rchanges r o (ds_Phase (rs_DataOperationStatus (gr_Status u))) (gr_Status u) pre -> raccepted o (gr_Status u) ->
  late (restore_phase u) = true /\ ds_Fence (rdata u) <> None /\ same_worlds o u.
Proof.
  intros Hl Hf Eu Hc [[Ht _] _]. destruct (late_phase o Hl) as (? & ? & ?).
  destruct (rchanges_kept r _ _ _ _ Hc) as (E1 & E2 & E3 & E4 & E5); [done..|].
  destruct (ds_Fence (rdata o)) as [fence|] eqn:Ef; [|done]. pose proof (rchanges_fence r _ _ _ _ _ Hc Ef) as Ef'.
  split_and!; [by eapply late_transition|by unfold rdata; rewrite Ef'|].
  split_and!; try done; [by rewrite Eu|by rewrite Ef].
Qed.

Lemma restore_history_invariant o : restore_history o -> history_inv o.
Proof.
  induction 1 as [o Ho | o o' Hh [IHv IHa] Huid Hst | o pre u x post out Hh [IHv IHa] Hs].
  - split; rewrite Ho; done.
  - unfold history_inv, restore_phase, rdata in *. rewrite Hst. split; [|done]. intros v Hv.
    destruct (IHv v Hv) as (? & ? & Ha). split_and!; [done..|]. eapply attested_same; [exact Ha|].
    unfold same_worlds, rdata. by rewrite Hst.
  - destruct (pass_writes _ _ _ _ _ _ Hs) as (Eu & Hc & Hacc).
    pose proof Hc as (_ & _ & _ & _ & _ & Hvc & Hac & _). split.
    + intros v Hv. destruct Hvc as [Hk|(s & result & Hat & Hk)].
      * rewrite Hk in Hv. destruct (IHv v Hv) as (Hl & Hf & Ha).
        destruct (late_pass o u pre) as (? & ? & ?); [done..|]. split_and!; [done..|]. by eapply attested_same.
      * pose proof Hat as (? & ? & ? & [[? _]|[_ Hpop]] & _); [done|]. destruct Hpop as (_ & _ & _ & Hph & Hcold & _).
        unfold cold_target in Hcold. destruct (late_pass o u pre) as (? & ? & ?); try done; [by rewrite Hph|by destruct (ds_Fence (rdata o))|].
        split_and!; [done..|]. rewrite Hv in Hk. injection Hk as ->.
        exists o, s, result, pre, u, x, post, out. by split_and!.
    + intros Hst. destruct Hvc as [->|(s & result & _ & ->)]; [|done].
      destruct Hac as [Hk|(s & paths & t & _ & _ & _ & _ & Hk)].
      * apply IHa. by rewrite <- Hk.
      * destruct Hk as (_ & _ & _ & Hk & _). by destruct (rs_CandidateVerification (gr_Status o)).
Qed.

(** C17: a verification belongs to the worlds it is recorded with.  In every
    version of a request, over any number of passes, edits and failures, the
    recorded verification is the word of a worker that an earlier pass
    attested, for the candidate set, the previous set, the source, the
    artifact and the fence that are recorded now; and an activation that has
    begun rests on such a verification. *)
Theorem restore_history_verified o (Hh : restore_history o) :
  (forall v, rs_CandidateVerification (gr_Status o) = Some v -> attested_in_history o v) /\
  (rs_ActivationStartedAt (gr_Status o) <> None ->
     exists v, rs_CandidateVerification (gr_Status o) = Some v /\ attested_in_history o v).
Proof.
  apply restore_history_invariant in Hh as [Hv Ha]. split; [intros v E; by apply Hv|]. intros Hst. specialize (Ha Hst).
  destruct (rs_CandidateVerification (gr_Status o)) as [v|] eqn:E; [|done]. exists v. split; [done|]. by apply Hv.
Qed.

(** ** A rollback that cannot end *)

(** A write that could move the operation on. *)
Definition operational {A} (k : kind A) : bool :=
  match k with KLease | KGameServer | KGameRestore => true | _ => false end.
Definition moves_on (e : event) : bool :=
  match e with
  | Ev (ApiCreate k _) _ | Ev (ApiUpdate k _) _ | Ev (ApiUpdateStatus k _) _ | Ev (ApiApply k _) _
  | Ev (ApiMergePatch k _ _) _ | Ev (ApiDelete k _ _) _ | Ev (ApiJSONPatch k _ _) _ => operational k
  | _ => false
  end.
(** Nothing but the conditions of the restore's own status. *)
Definition reports (o : GameRestore) (e : event) : Prop :=
  moves_on e = false \/
  exists s' x, e = Ev (ApiUpdateStatus KGameRestore (with_restore_status o s')) x /\ rplain o (restore_phase o) s'.

Lemma reads_report {A} o (p : prog A) : reads_only p -> emits (reports o) p.
Proof.
  intros Hr. eapply emits_weaken; [|exact Hr]. intros e He. left. destruct e as [? q]. by destruct q.
Qed.
Lemma rplain_written o phase s : rplain o phase s -> rplain o phase (canonicalizeRestoreConditions (without_stale_retry phase s)).
Proof.
  intros (c & n & p & u & ->). exists (ds_Conditions (canonicalizeBackupConditions
    (set_ds_Conditions (rs_DataOperationStatus (moved o phase)) c))), n, (restoreRetryPendingForPhase phase p), u. reflexivity.
Qed.
Lemma holdRestore_reports o reason message : emits (reports o) (holdRestore o reason message).
Proof.
  unfold holdRestore, restore_write_wait, writeRestoreStatus. apply emits_bind; [|intros; apply emits_ret].
  unfold setRestoreCondition, nowRestore. intros es out (es1 & es2 & s & -> & Hs & Hk)%steps_bind.
  apply Forall_app. split; [apply steps_bind in Hs as (? & ? & t & -> & ->%steps_call & [-> _]); repeat constructor|].
  apply (setRestoreCondition_plain o (restore_phase o)) in Hs; [|apply rplain_moved].
  cbv zeta in Hk. destruct (ValidateTransition _ _ _ _) as [[]|]; [|by destruct Hk as [-> _]].
  destruct (ValidateRestoreStatus _) as [[]|]; [|by destruct Hk as [-> _]].
  case_bool_decide; [by destruct Hk as [-> _]|].
  apply steps_bind in Hk as (? & ? & x & -> & ->%steps_call & [-> _]). apply Forall_singleton. right.
  eexists _, x. split; [reflexivity|]. by apply rplain_written.
Qed.

Lemma delete_stage_object_reports {A} o stage (k : kind A) name m1 m2 m3 : worker_kind k = true ->
  emits (reports o) (delete_stage_object r o stage k name m1 m2 m3).
Proof. intros Hk. unfold delete_stage_object, restore_get. emits_tac; left; cbn; by destruct k. Qed.
Lemma deleteAllRestoreWorkers_reports o : emits (reports o) (deleteAllRestoreWorkers r o).
Proof.
  assert (forall stage, emits (reports o) (deleteRestoreWorkerAndWait r o stage)) as Hd.
  { intros stage. unfold deleteRestoreWorkerAndWait, deleteRestoreStageAuthorityAndWait, or_next, restore_get, listRestoreStagePods.
    cbv zeta. emits_tac; try (by left); by apply delete_stage_object_reports. }
  unfold deleteAllRestoreWorkers. apply emits_bind; [apply Hd|]. intros [e|[]]; [apply emits_ret..|apply Hd].
Qed.

(** Neither the fenced generation nor a selection of the previous world. *)
Definition astray (fence : ColdDataFence) (server : GameServer) : Prop :=
  gss_ActiveData (gs_Status server) = None /\ gs_Generation server <> gsr_Generation (fence_GameServer fence).

Lemma drive_rollback_astray o server candidate fence : rj_CandidateStartGeneration (recorded_journal o) = 0%Z ->
  astray fence server -> exists reason message, drive_rollback r o server candidate fence = holdRestore o reason message.
Proof.
  intros Hj [Ha Hg]. unfold drive_rollback, rolled_back_running. cbv zeta. rewrite Ha, Hj, andb_false_r.
  rewrite (bool_decide_eq_true_2 (0%Z = 0%Z)) by done. unfold settle_rollback. cbv zeta.
  rewrite (bool_decide_eq_false_2 _ Hg). cbn [negb orb]. by eexists _, _.
Qed.

Lemma reconcile_rolling_back o : restore_phase o = DataPhaseRollingBack -> restore_protected o = true ->
  rs_ActivationStartedAt (gr_Status o) <> None -> reconcile_restore r o = reconcileRestoreRollback r o.
Proof.
  intros Hph Hpr Hst. unfold reconcile_restore, finalizeRestore, dispatch_restore. rewrite Hph, Hpr.
  destruct (rs_ActivationStartedAt _) as [t|]; [|done]. cbn [isSome negb]. destruct (deleting _); [done|].
  by destruct (cancel_requested o).
Qed.

Lemma rollback_astray_reports o fence es out : ds_Fence (rdata o) = Some fence -> rs_ActivationStartedAt (gr_Status o) <> None ->
  rj_CandidateStartGeneration (recorded_journal o) = 0%Z ->
  (forall server, target_seen r o server es -> astray fence server) ->
  steps (reconcileRestoreRollback r o) es out -> Forall (reports o) es.
Proof.
  intros Hf Hst Hj Hserver. unfold reconcileRestoreRollback, unless_worker. rewrite Hf.
  destruct (rs_ActivationStartedAt _) as [t|]; [|done].
  intros (es1 & es2 & x & -> & Hd & Hk)%steps_bind. apply Forall_app. split; [by eapply deleteAllRestoreWorkers_reports|].
  destruct x as [e|[]]; [by destruct Hk as [-> _]..|]. unfold roll_back in Hk.
  destruct (RestoreDataIdentity _) as [candidate|]; [|by destruct Hk as [-> _]].
  apply steps_bind in Hk as (es3 & es4 & [e|] & -> & Hl & Hk); apply Forall_app;
    (split; [by eapply reads_report; [apply reads_ensureRestoreLeases|]|]); [by destruct Hk as [-> _]|].
  apply steps_bind in Hk as (es5 & es6 & [e|] & -> & Hc & Hk); apply Forall_app;
    (split; [by eapply reads_report; [apply reads_verifyRestoreDataClaims|]|]); [by eapply holdRestore_reports|].
  apply steps_bind in Hk as (es7 & es8 & [e|server] & -> & Hs & Hk); apply Forall_app;
    (split; [by eapply reads_report; [apply reads_exactRestoreServer|]|]); [by eapply holdRestore_reports|].
  apply exactRestoreServer_seen in Hs.
  destruct (drive_rollback_astray o server candidate fence Hj) as (reason & message & E); [apply Hserver; grow Hs|].
  rewrite E in Hk. by eapply holdRestore_reports.
Qed.

(** C20: a rollback can end where it cannot finish.  A server that no restore
    served before selects no data set; when a candidate of such a server was
    never selected, the rollback restarts the server, but only takes the
    restart for done when the server selects the previous data set by name.
    Every later pass then moves nothing on: it writes no Lease and no server,
    and at most the restore's own status, with the phase RollingBack, the fence
    and the journal it read. *)
Theorem Restore_rollback_stuck o fence es out
  (Hs : steps (reconcile_restore r o) es out) (Hph : restore_phase o = DataPhaseRollingBack)
  (Hpr : restore_protected o = true) (Hst : rs_ActivationStartedAt (gr_Status o) <> None)
  (Hf : ds_Fence (rdata o) = Some fence) (Hj : rj_CandidateStartGeneration (recorded_journal o) = 0%Z)
  (Hserver : forall server, target_seen r o server es -> astray fence server) :
  forall e, e ∈ es -> moves_on e = true ->
  exists u, restore_status e = Some u /\ restore_phase u = DataPhaseRollingBack /\ ds_Fence (rdata u) = Some fence /\
    rs_ActivationStartedAt (gr_Status u) = rs_ActivationStartedAt (gr_Status o) /\
    rs_RuntimeJournal (gr_Status u) = rs_RuntimeJournal (gr_Status o).
Proof.
  rewrite reconcile_rolling_back in Hs by done. intros e He Hm.
  pose proof (rollback_astray_reports _ _ _ _ Hf Hst Hj Hserver Hs) as Hr. rewrite list.Forall_forall in Hr.
  destruct (Hr e He) as [Hn|(s' & x & -> & c & n & p & u & ->)]; [congruence|].
  eexists. split; [reflexivity|]. by split_and!.
Qed.
End History.
