(* ===== verification/RestoreSamples.v ===== *)
(** * A restore from beginning to end

    One restore of the server of [ServerSamples] from a backup of its own world,
    evaluated pass by pass: each scene is what the cluster holds when a pass
    begins, and its restore is the one the pass before wrote.  The theorems of
    [RestoreSafety] and [RestoreHistory] are instantiated at these passes. *)

From Stdlib Require Import Ascii.
From stdpp Require Import base tactics list strings gmap numbers.
From S2P Require Import Prelude GoStrings Regex Sha256 GoJson GoNet GoNetip K8s ApiTypes DataOperation DataStatus Receipts Operations GameDefinition KubeObjects KubePlan KubeApi TraceLogic WorkerInput OperationDigest KubeDestroy WorkerPods SourceClaims OperationFence ServerStatus RuntimeDrain ServerController ServerSafety ServerSamples KubeBackup KubeRestore BackupController RestoreStatus RestoreSource RestoreVolumes RestoreCandidates RestoreWorker RestoreController RestoreMachine RestoreEvidence RestoreParts RestorePhases RestoreActivation RestoreSafety RestoreHistory.
Open Scope string_scope.
Open Scope list_scope.

(** ** The operation *)

Definition rewind_digest : string := Eval vm_compute in "sha256:" +:+ EncodeToString (Sum256 (chars "worker")).
Definition rewind_manifest : string := Eval vm_compute in "sha256:" +:+ Repeat "a" 64.
Definition rewind_artifact_id : string := Eval vm_compute in match ArtifactID "backup-1" with Ok i => i | Err _ => "" end.
Definition rewind_text : TimeText := fun t => chars (FormatInt t).
(** What the worker of a stage says. *)
Definition rewind_report (stage : Stage) : WorkerInput.Result :=
  MkWorkerResult ResultVersion stage rewind_artifact_id rewind_manifest 1 minute.
Definition rewind_decoder : ResultDecoder := fun m =>
  if m == "preflight" then Some (rewind_report StagePreflight)
  else if m == "populate" then Some (rewind_report StagePopulate) else None.
#[local] Existing Instances sample_engine rfc1123 sample_schemas rewind_text rewind_decoder.
Definition rewinder : GameRestoreReconciler :=
  MkRestoreReconciler true {["factorio" := sample_definition]} ("ghcr.io/gobha-me/worker@" +:+ rewind_digest) "script".
Definition rewind_key : NamespacedName := Key "arcade" "rewind".

Definition rewind_target : ExactGameServerReference := MkGSRef (MkRef None "alpha" "uid-alpha") 3 DesiredStateRunning.
Definition previous_path : DataPathIdentity :=
  MkPath "world" "/factorio" (MkRef None (om_Name (pvc_meta cluster_claim)) (om_UID (pvc_meta cluster_claim))).
Definition previous_world_data : RetainedDataReference := current_data cluster_identity [previous_path].
Definition rewind_source : DataSourceSnapshot := Eval vm_compute in
  MkSource rewind_target "factorio" sample_image_digest
    match SettingsDigest sample_definition "{}" with Ok d => d | Err _ => "" end [previous_path].
Definition rewind_artifact : BackupArtifact :=
  MkArtifact (MkProvenance (MkRef None "nightly" "backup-1") sample_secret) rewind_artifact_id BackupFormatVersion
    rewind_manifest 4096 1 5 (MkVerification VerificationVerified (Some 6%Z)).
Definition rewind_backup : GameBackup :=
  MkGameBackup (MkObjectMeta "nightly" "arcade" "backup-1" 1 "50" 1 None [] ∅ ∅ [])
    (MkGameBackupSpec (MkDataRequest None sample_secret RestartRestorePreviousState false) rewind_target None "Retain")
    (MkDataStatus 1 DataPhaseSucceeded 1 (Some 2%Z) (Some 9%Z) [] (Some rewind_source) None (Some rewind_artifact) None).

Definition rewind (cancel : bool) (status : GameRestoreStatus) : GameRestore :=
  MkGameRestore (MkObjectMeta "rewind" "arcade" "restore-1" 1 "60" 20 None [RestoreFinalizer] ∅ ∅ [])
    (MkGameRestoreSpec (MkDataRequest None sample_secret RestartRestorePreviousState cancel)
       (MkRef None "nightly" "backup-1") rewind_target None) status.

(** ** The cluster of the operation *)

(** The server at a generation, with what it selects and observes. *)
Definition rewind_server (generation : Z) (state : DesiredState) (active observed : option RetainedDataReference)
    (phase : GameServerPhase) : GameServer :=
  let s := cluster_server state in let m := gs_meta s in
  MkGameServer (MkObjectMeta (om_Name m) (om_Namespace m) (om_UID m) generation "80" 10 None [] ∅ ∅ []) (gs_Spec s)
    (MkGameServerStatus generation active observed phase [] []).
Definition before_restore : GameServer :=
  rewind_server 3 DesiredStateRunning None (Some previous_world_data) PhaseReady.
Definition stopped_for_restore : GameServer :=
  rewind_server 4 DesiredStateStopped None (Some previous_world_data) PhaseStopped.

Definition candidate_identity : string := Eval vm_compute in match RestoreDataIdentity "restore-1" with Ok i => i | Err _ => "" end.
Definition candidate_name : string := Eval vm_compute in match RestoreCandidateID "restore-1" "world" with Ok i => i | Err _ => "" end.
Definition bound_candidate : PersistentVolumeClaim := Eval vm_compute in
  let planned := Desired (default (MkClaimPlan cluster_claim "" false) (head (DataClaims (cluster_plan DesiredStateRunning)))) in
  let c := candidate_claim (rewind false new_restore_status) candidate_identity candidate_name planned in
  let m := pvc_meta c in
  MkPVC (pvc_TypeMeta c)
    (MkObjectMeta (om_Name m) (om_Namespace m) "candidate-uid" 1 "81" 30 None [] (om_Labels m) (om_Annotations m) [])
    (pvc_AccessModes c) (pvc_StorageClassName c) (pvc_StorageRequest c) "pv-2" "Bound" (Some 5000%Z).
Definition volume (name handle : string) (created : Time) (claim : PersistentVolumeClaim) : PersistentVolume :=
  MkPV (MkObjectMeta name "" name 1 "82" created None [] ∅ ∅ [])
    (Some ("arcade", om_Name (pvc_meta claim), om_UID (pvc_meta claim))) "Bound" (Some ("csi.example.org", handle)).
Definition candidate_data : RetainedDataReference :=
  current_data candidate_identity
    [MkPath "world" "/factorio" (MkRef None candidate_name "candidate-uid")].

Definition held_lease (identity : string) (annotations : StringMap) : Lease :=
  let l := restore_fence (rewind false new_restore_status) identity "alpha" 21 in
  MkLease (with_annotations (ls_meta l) (map_union annotations (om_Annotations (ls_meta l))))
    (ls_HolderIdentity l) (ls_AcquireTime l).

(** What the cluster holds when a pass begins. *)
Record scene := MkScene {
  sc_restore : GameRestore;
  sc_server : GameServer;
  sc_candidate : bool;
  sc_resources : option RestoreResources;
  sc_job : option Job;
  sc_pods : list Pod }.
Definition found_or_not {A} (o : option A) : apierr + A := match o with Some a => inr a | None => inl NotFound end.
Definition scene_claim (s : scene) (name : string) : apierr + PersistentVolumeClaim :=
  if name == om_Name (pvc_meta cluster_claim) then inr cluster_claim
  else if (name == candidate_name) && sc_candidate s then inr bound_candidate else inl NotFound.
Definition scene_get {A} (s : scene) (name : string) (k : kind A) : apierr + A :=
  match k in kind T return apierr + T with
  | KGameRestore => inr (sc_restore s)
  | KGameBackup => inr rewind_backup
  | KGameServer => inr (sc_server s)
  | KPersistentVolumeClaim => scene_claim s name
  | KPersistentVolume => inr (if name == "pv-1" then volume "pv-1" "handle-1" 1 cluster_claim
                              else volume "pv-2" "handle-2" 31 bound_candidate)
  | KLease => if name == DataOperationLeaseName cluster_identity then inr (held_lease cluster_identity ∅)
              else inr (held_lease candidate_identity ∅)
  | KConfigMap => found_or_not (rk_Input <$> sc_resources s)
  | KServiceAccount => found_or_not (rk_ServiceAccount <$> sc_resources s)
  | KRole => found_or_not (rk_Role <$> sc_resources s)
  | KRoleBinding => found_or_not (rk_RoleBinding <$> sc_resources s)
  | KJob => found_or_not (sc_job s)
  | _ => inl NotFound
  end.
Definition scene_list {A} (s : scene) (k : kind A) : apierr + object_list A :=
  match k in kind T return apierr + object_list T with
  | KPod => inr (MkList (sc_pods s) "" None)
  | KPersistentVolumeClaim => inr (MkList (if sc_candidate s then [bound_candidate] else []) "" None)
  | _ => inr (MkList [] "" None)
  end.
Definition scene_env (s : scene) : environment := fun R _ q =>
  match q in request R return R with
  | ApiGet k _ key => scene_get s (key_Name key) k
  | ApiList k _ _ _ => scene_list s k
  | ApiCreate _ o => inr o
  | ApiApply _ o => inr o
  | ApiUpdate _ _ | ApiUpdateStatus _ _ | ApiMergePatch _ _ _ | ApiDelete _ _ _ => None
  | ApiJSONPatch _ object _ => inr object
  | ClockNow => minute
  | RandRead _ => Some []
  end.

(** The pass over a scene, and the restore it leaves. *)
Definition trace (s : scene) : list event := (run (scene_env s) [] (reconcile_restore rewinder (sc_restore s))).1.
Definition writes_restore (e : event) : bool := match restore_status e with Some _ => true | None => false end.
Definition left_by (s : scene) (t : list event) : GameRestore :=
  default (sc_restore s) (restore_status (found writes_restore t)).
Definition advance (s : scene) : GameRestore := left_by s (trace s).

(** ** The worker of a stage *)

Definition no_resources : RestoreResources :=
  let m := new_meta "" "" ∅ [] in
  MkRestoreResources (MkConfigMap (MkTypeMeta "" "") m ∅ ∅ None) (MkServiceAccount m None) (MkRole m [])
    (MkRoleBinding m [] (MkRoleRef "" "" "")) (sample_job true "").
Definition stage_resources (s : scene) (stage : Stage) : RestoreResources :=
  match (run (scene_env s) [] (preparedRestore rewinder (sc_restore s))).2 with
  | inr subject =>
      match BuildRestoreResources (Some (sc_restore s)) (restoreWorkerInput (sc_restore s) subject stage)
              (rr_WorkerImage rewinder) (def_RuntimeIdentity sample_definition) with
      | Ok resources => resources
      | Err _ => no_resources
      end
  | inl _ => no_resources
  end.
Definition stored_job (resources : RestoreResources) (suspended : bool) (conditions : list JobCondition) : Job :=
  let j := if suspended then rk_Job resources else set_suspend (rk_Job resources) false in let m := job_meta j in
  MkJob (MkObjectMeta (om_Name m) (om_Namespace m) "job-uid" 1 "70" 4 None [] (om_Labels m) (om_Annotations m)
          (om_OwnerReferences m)) (job_Spec j) conditions None.
Definition stage_worker (resources : RestoreResources) (annotations : StringMap) (spec : PodSpec) (phase : string)
    (statuses : list ContainerStatus) : Pod :=
  let j := stored_job resources false [] in
  MkPod (MkObjectMeta "worker" "arcade" "pod-uid" 1 "71" 5 None [] (job_TemplateLabels (job_Spec j))
          (map_union annotations (job_TemplateAnnotations (job_Spec j)))
          [MkOwnerReference "batch/v1" "Job" (om_Name (job_meta j)) "job-uid" (Some true) (Some true)])
    spec phase [] statuses.
Definition gated_worker (resources : RestoreResources) : Pod :=
  stage_worker resources ∅ (job_TemplateSpec (job_Spec (rk_Job resources))) "Pending" [].
Definition finished_worker (resources : RestoreResources) (report : string) : Pod :=
  stage_worker resources {[AnnotationRestorePodAuthorized := "pod-uid"]}
    (ungated (job_TemplateSpec (job_Spec (rk_Job resources)))) "Succeeded"
    [MkContainerStatus "restore-worker" (Some (0%Z, report))].
Definition complete_condition : JobCondition := MkJobCondition "Complete" ConditionTrue 9.
Definition with_worker (s : scene) (stage : Stage) (job : RestoreResources -> Job) (pods : RestoreResources -> list Pod) : scene :=
  let resources := stage_resources s stage in
  MkScene (sc_restore s) (sc_server s) (sc_candidate s) (Some resources) (Some (job resources)) (pods resources).
Definition quiet (restore : GameRestore) (server : GameServer) (candidate : bool) : scene :=
  MkScene restore server candidate None None [].

(** ** The scenes

    Each is evaluated when it is defined, so that what comes after starts from
    its value. *)

Definition scene_created : scene := Eval vm_compute in quiet (rewind false new_restore_status) before_restore false.
Definition scene_pending : scene := Eval vm_compute in quiet (advance scene_created) before_restore false.
Definition scene_preflight : scene := Eval vm_compute in
  with_worker (quiet (advance scene_pending) before_restore false) StagePreflight
    (fun res => stored_job res false [complete_condition]) (fun res => [finished_worker res "preflight"]).
Definition scene_stopping : scene := Eval vm_compute in quiet (advance scene_preflight) before_restore false.
Definition scene_fencing : scene := Eval vm_compute in quiet (advance scene_preflight) stopped_for_restore false.
Definition scene_provisioning : scene := Eval vm_compute in quiet (advance scene_fencing) stopped_for_restore false.
Definition scene_bound : scene := Eval vm_compute in quiet (advance scene_fencing) stopped_for_restore true.
Definition scene_attempt : scene := Eval vm_compute in quiet (advance scene_bound) stopped_for_restore true.
Definition populate_job : scene := Eval vm_compute in quiet (advance scene_attempt) stopped_for_restore true.
Definition scene_journal : scene := Eval vm_compute in
  with_worker populate_job StagePopulate (fun res => stored_job res true []) (fun res => []).
Definition scene_gated : scene := Eval vm_compute in
  with_worker (quiet (advance scene_journal) stopped_for_restore true) StagePopulate
    (fun res => stored_job res false []) (fun res => [gated_worker res]).
Definition scene_populated : scene := Eval vm_compute in
  with_worker (quiet (advance scene_journal) stopped_for_restore true) StagePopulate
    (fun res => stored_job res false [complete_condition]) (fun res => [finished_worker res "populate"]).
Definition scene_verified : scene := Eval vm_compute in quiet (advance scene_populated) stopped_for_restore true.
Definition scene_selecting : scene := Eval vm_compute in quiet (advance scene_verified) stopped_for_restore true.
Definition scene_selected : scene := Eval vm_compute in quiet (advance scene_verified)
  (rewind_server 4 DesiredStateStopped (Some candidate_data) (Some candidate_data) PhaseStopped) true.
Definition scene_starting : scene := Eval vm_compute in quiet (advance scene_selected) (sc_server scene_selected) true.
Definition scene_serving : scene := Eval vm_compute in quiet (advance scene_selected)
  (rewind_server 5 DesiredStateRunning (Some candidate_data) (Some candidate_data) PhaseReady) true.

(** The candidate's claim is lost before it was selected: the restore goes back
    to the previous world, which no restore had selected before. *)
Definition scene_lost : scene := Eval vm_compute in quiet (advance scene_verified) stopped_for_restore false.
Definition scene_back : scene := Eval vm_compute in quiet (advance scene_lost) stopped_for_restore false.
Definition scene_restarting : scene := Eval vm_compute in quiet (advance scene_back) stopped_for_restore false.
Definition scene_stuck : scene := Eval vm_compute in quiet (advance scene_back)
  (rewind_server 5 DesiredStateRunning None (Some previous_world_data) PhaseReady) false.
(** The request is cancelled before the server was stopped. *)
Definition scene_cancelled : scene := Eval vm_compute in quiet (rewind true (gr_Status (advance scene_pending))) before_restore false.
Definition scene_cancelling : scene := Eval vm_compute in quiet (advance scene_cancelled) before_restore false.

Definition phases (s : scene) : DataOperationPhase * DataOperationPhase * nat :=
  let t := trace s in
  (restore_phase (sc_restore s), restore_phase (left_by s t), length (List.filter is_write t)).
Example restore_succeeds :
  phases <$> [scene_created; scene_pending; scene_preflight; scene_stopping; scene_fencing; scene_provisioning; scene_bound;
              scene_attempt; scene_journal; scene_gated; scene_populated; scene_verified; scene_selecting; scene_selected;
              scene_starting; scene_serving] =
  [(DataPhaseUnset, DataPhasePending, 1%nat); (DataPhasePending, DataPhasePreparing, 1%nat);
   (DataPhasePreparing, DataPhasePreparing, 1%nat); (DataPhasePreparing, DataPhasePreparing, 1%nat);
   (DataPhasePreparing, DataPhasePreparing, 1%nat); (DataPhasePreparing, DataPhasePreparing, 1%nat);
   (DataPhasePreparing, DataPhaseRunning, 1%nat); (DataPhaseRunning, DataPhaseRunning, 1%nat);
   (DataPhaseRunning, DataPhaseRunning, 1%nat); (DataPhaseRunning, DataPhaseRunning, 1%nat);
   (DataPhaseRunning, DataPhaseVerifying, 1%nat); (DataPhaseVerifying, DataPhaseActivating, 1%nat);
   (DataPhaseActivating, DataPhaseActivating, 2%nat); (DataPhaseActivating, DataPhaseActivating, 1%nat);
   (DataPhaseActivating, DataPhaseActivating, 2%nat); (DataPhaseActivating, DataPhaseSucceeded, 1%nat)].
Proof. vm_compute. reflexivity. Qed.
Example restore_goes_back :
  phases <$> [scene_lost; scene_back; scene_restarting; scene_stuck; scene_cancelled; scene_cancelling] =
  [(DataPhaseActivating, DataPhaseRollingBack, 1%nat); (DataPhaseRollingBack, DataPhaseRollingBack, 1%nat);
   (DataPhaseRollingBack, DataPhaseRollingBack, 2%nat); (DataPhaseRollingBack, DataPhaseRollingBack, 0%nat);
   (DataPhasePreparing, DataPhaseCancelling, 1%nat); (DataPhaseCancelling, DataPhaseCancelled, 1%nat)].
Proof. vm_compute. reflexivity. Qed.

(** ** The theorems at these passes *)

Abbreviation rewind_reconcile := (Restore_Reconcile rewinder rewind_key).
Abbreviation first_read s := (Ev (ApiGet KGameRestore CachedReader rewind_key) (inr s)).
Definition pass (s : scene) : list event := (run (scene_env s) [] rewind_reconcile).1.
Lemma pass_steps s : steps rewind_reconcile (pass s) (run (scene_env s) [] rewind_reconcile).2.
Proof. apply run_steps. Qed.
Definition writes_server (e : event) : bool := match server_updated e with Some _ => true | None => false end.
Definition selects_data (e : event) : bool := match server_status e with Some _ => true | None => false end.
Definition writes_pod (e : event) : bool := match pod_updated e with Some _ => true | None => false end.
Lemma selects_some e : selects_data e = true -> exists u, server_status e = Some u.
Proof. unfold selects_data. destruct (server_status e); [eauto | done]. Qed.
Lemma writes_server_some e : writes_server e = true -> exists u, server_updated e = Some u.
Proof. unfold writes_server. destruct (server_updated e); [eauto | done]. Qed.
Lemma writes_pod_some e : writes_pod e = true -> exists p, pod_updated e = Some p.
Proof. unfold writes_pod. destruct (pod_updated e); [eauto | done]. Qed.

Lemma Restore_Reconcile_refines_witness :
  exists o pre', before writes_server (pass scene_starting) = first_read o :: pre' /\
    restore_write rewinder o pre' (found writes_server (pass scene_starting)).
Proof.
  assert (located writes_server (pass scene_starting) = true) as L by (vm_compute; reflexivity).
  destruct (locate_split _ _ L) as [E _].
  apply (Restore_Reconcile_refines rewinder rewind_key _ _ _ _ _ (pass_steps _) E). vm_compute. reflexivity.
Defined.

Lemma Restore_keeps_previous_witness :
  exists o pre' s, before claim_touched (pass scene_provisioning) = first_read o :: pre' /\ prepared rewinder o s pre'.
Proof.
  assert (located claim_touched (pass scene_provisioning) = true) as L by (vm_compute; reflexivity).
  destruct (locate_split _ _ L) as [E Hc].
  destruct (Restore_keeps_previous rewinder rewind_key _ _ _ _ _ (pass_steps _) E Hc)
    as (o & pre' & s & _ & _ & _ & _ & Ep & _ & Hp & _).
  exists o, pre', s. exact (conj Ep Hp).
Defined.

Lemma Restore_fence_cold_witness :
  exists u o pre', restore_status (found writes_restore (pass scene_fencing)) = Some u /\
    before writes_restore (pass scene_fencing) = first_read o :: pre'.
Proof.
  assert (located writes_restore (pass scene_fencing) = true) as L by (vm_compute; reflexivity).
  destruct (locate_split _ _ L) as [E _].
  assert (ds_Fence ∘ rdata <$> restore_status (found writes_restore (pass scene_fencing)) =
          Some (Some (restore_cold_fence (sc_restore scene_fencing) 4 minute))) as Hf by (vm_compute; reflexivity).
  destruct (restore_status (found writes_restore (pass scene_fencing))) as [u|] eqn:Eu; [|discriminate Hf]. injection Hf as Hf.
  destruct (Restore_fence_cold rewinder rewind_key _ _ _ _ _ u _ (pass_steps _) E Eu Hf) as (o & pre' & Ep & _).
  exists u, o, pre'. exact (conj eq_refl Ep).
Defined.

Definition rewind_verification : CandidateDataVerification :=
  MkCandidateVerification VerificationVerified rewind_manifest 1 minute.
Lemma Restore_candidate_attested_witness :
  exists u o pre', restore_status (found writes_restore (pass scene_populated)) = Some u /\
    before writes_restore (pass scene_populated) = first_read o :: pre' /\
    rs_CandidateVerification (gr_Status u) = Some rewind_verification.
Proof.
  assert (located writes_restore (pass scene_populated) = true) as L by (vm_compute; reflexivity).
  destruct (locate_split _ _ L) as [E _].
  assert (rs_CandidateVerification ∘ gr_Status <$> restore_status (found writes_restore (pass scene_populated)) =
          Some (Some rewind_verification)) as Hv by (vm_compute; reflexivity).
  destruct (restore_status (found writes_restore (pass scene_populated))) as [u|] eqn:Eu; [|discriminate Hv]. injection Hv as Hv.
  destruct (Restore_candidate_attested rewinder rewind_key _ _ _ _ _ u _ (pass_steps _) E Eu Hv) as (o & pre' & Ep & _).
  exists u, o, pre'. exact (conj eq_refl (conj Ep Hv)).
Defined.

Lemma Restore_selects_verified_witness :
  exists u o pre', server_status (found selects_data (pass scene_selecting)) = Some u /\
    before selects_data (pass scene_selecting) = first_read o :: pre' /\ workers_absent rewinder o pre'.
Proof.
  assert (located selects_data (pass scene_selecting) = true) as L by (vm_compute; reflexivity).
  destruct (locate_split _ _ L) as [E Hw]. destruct (selects_some _ Hw) as [u Eu].
  destruct (Restore_selects_verified rewinder rewind_key _ _ _ _ _ u (pass_steps _) E Eu)
    as (o & pre' & _ & _ & _ & _ & Ep & _ & Ha & _).
  exists u, o, pre'. exact (conj Eu (conj Ep Ha)).
Defined.

Lemma Restore_moves_server_witness :
  exists u o pre', server_updated (found writes_server (pass scene_starting)) = Some u /\
    before writes_server (pass scene_starting) = first_read o :: pre'.
Proof.
  assert (located writes_server (pass scene_starting) = true) as L by (vm_compute; reflexivity).
  destruct (locate_split _ _ L) as [E Hw]. destruct (writes_server_some _ Hw) as [u Eu].
  destruct (Restore_moves_server rewinder rewind_key _ _ _ _ _ u (pass_steps _) E Eu) as (o & pre' & Ep & _).
  exists u, o, pre'. exact (conj Eu Ep).
Defined.

Lemma Restore_success_sound_witness :
  exists u o pre', restore_status (found writes_restore (pass scene_serving)) = Some u /\
    before writes_restore (pass scene_serving) = first_read o :: pre' /\
    rs_ActiveData (gr_Status u) = rs_CandidateData (gr_Status u).
Proof.
  assert (located writes_restore (pass scene_serving) = true) as L by (vm_compute; reflexivity).
  destruct (locate_split _ _ L) as [E _].
  assert (restore_phase <$> restore_status (found writes_restore (pass scene_serving)) = Some DataPhaseSucceeded) as Hp
    by (vm_compute; reflexivity).
  destruct (restore_status (found writes_restore (pass scene_serving))) as [u|] eqn:Eu; [|discriminate Hp]. injection Hp as Hp.
  destruct (Restore_success_sound rewinder rewind_key _ _ _ _ _ u (pass_steps _) E Eu Hp)
    as (o & pre' & _ & _ & _ & _ & _ & _ & _ & Ep & _ & Ha & _).
  exists u, o, pre'. exact (conj eq_refl (conj Ep Ha)).
Defined.

Lemma Restore_failure_sound_witness :
  exists u o pre', restore_status (found writes_restore (pass scene_cancelling)) = Some u /\
    before writes_restore (pass scene_cancelling) = first_read o :: pre' /\ workers_absent rewinder o pre'.
Proof.
  assert (located writes_restore (pass scene_cancelling) = true) as L by (vm_compute; reflexivity).
  destruct (locate_split _ _ L) as [E _].
  assert (restore_phase <$> restore_status (found writes_restore (pass scene_cancelling)) = Some DataPhaseCancelled) as Hp
    by (vm_compute; reflexivity).
  destruct (restore_status (found writes_restore (pass scene_cancelling))) as [u|] eqn:Eu; [|discriminate Hp]. injection Hp as Hp.
  destruct (Restore_failure_sound rewinder rewind_key _ _ _ _ _ u (pass_steps _) E Eu (or_intror Hp)) as (o & pre' & Ep & Hw & _).
  exists u, o, pre'. exact (conj eq_refl (conj Ep Hw)).
Defined.

Lemma Restore_worker_confined_witness :
  exists p o pre' s stage, pod_updated (found writes_pod (pass scene_gated)) = Some p /\
    before writes_pod (pass scene_gated) = first_read o :: pre' /\ at_stage rewinder o s stage pre'.
Proof.
  assert (located writes_pod (pass scene_gated) = true) as L by (vm_compute; reflexivity).
  destruct (locate_split _ _ L) as [E Hp]. destruct (writes_pod_some _ Hp) as [p Eu].
  destruct (Restore_worker_confined rewinder rewind_key _ _ _ _ _ p (pass_steps _) E Eu)
    as (o & pre' & s & stage & _ & _ & _ & Ep & _ & Hst & _).
  exists p, o, pre', s, stage. exact (conj Eu (conj Ep Hst)).
Defined.

(** The story is a history: each scene begins with the restore that the pass
    over the scene before it left. *)
#[local] Instance restore_eq_dec : EqDecision GameRestore.
Proof. solve_decision. Defined.
Definition leads_to (s s' : scene) : bool :=
  let t := trace s in located writes_restore t && bool_decide (left_by s t = sc_restore s').
Lemma history_leads s s' : restore_history rewinder (sc_restore s) -> leads_to s s' = true ->
  restore_history rewinder (sc_restore s').
Proof.
  unfold leads_to. cbv zeta. intros Hh [L E']%andb_prop. apply bool_decide_eq_true in E' as <-.
  destruct (locate_split _ _ L) as [E Hw]. unfold left_by.
  assert (steps (reconcile_restore rewinder (sc_restore s)) (trace s)
    (run (scene_env s) [] (reconcile_restore rewinder (sc_restore s))).2) as Hs by apply run_steps.
  rewrite E in Hs. unfold writes_restore in Hw at 1.
  destruct (found writes_restore (trace s)) as [R q x]. destruct q as [| | | |A k u| | | | | |]; try discriminate Hw.
  destruct k; try discriminate Hw. cbn [restore_status as_restore default]. by eapply RHPass.
Qed.
Lemma last_cons_last {A} (x d : A) l : List.last (x :: l) d = List.last l x.
Proof. revert x d. induction l as [|y l IH]; intros x d; [done|]. change (List.last (y :: l) d = List.last (y :: l) x). by rewrite !IH. Qed.
Fixpoint story (s : scene) (rest : list scene) : bool :=
  match rest with [] => true | s' :: rest => leads_to s s' && story s' rest end.
Lemma story_history s rest : restore_history rewinder (sc_restore s) -> story s rest = true ->
  restore_history rewinder (sc_restore (List.last rest s)).
Proof.
  revert s. induction rest as [|s' rest IH]; intros s Hh Hs; [done|]. cbn [story] in Hs.
  apply andb_prop in Hs as [Hl Hs]. rewrite last_cons_last. apply IH; [|done]. by eapply history_leads.
Qed.

Lemma restore_history_verified_witness :
  attested_in_history rewinder (sc_restore scene_verified) rewind_verification.
Proof.
  assert (story scene_created [scene_pending; scene_preflight; scene_fencing; scene_bound; scene_attempt; scene_journal;
                               scene_populated; scene_verified] = true) as E by (vm_compute; reflexivity).
  apply (proj1 (restore_history_verified rewinder _
    (story_history scene_created _ (RHCreated rewinder (sc_restore scene_created) eq_refl) E))).
  vm_compute. reflexivity.
Defined.

Definition as_server_read {A} (k : kind A) : apierr + A -> option GameServer :=
  match k in kind T return apierr + T -> option GameServer with
  | KGameServer => fun x => match x with inr server => Some server | inl _ => None end
  | _ => fun _ => None
  end.
Definition server_read_in (e : event) : option GameServer :=
  match e with
  | Ev q x => match q in request R return R -> option GameServer with
              | ApiGet k _ _ => as_server_read k
              | _ => fun _ => None
              end x
  end.
Definition reads_astray (e : event) : bool :=
  match server_read_in e with
  | Some server => negb (isSome (gss_ActiveData (gs_Status server))) && (gs_Generation server != 4%Z)
  | None => true
  end.
Definition stuck_fence : ColdDataFence := default (MkFence rewind_target 0) (ds_Fence (rdata (sc_restore scene_stuck))).
Lemma reads_astray_astray fence reader key server : gsr_Generation (fence_GameServer fence) = 4%Z ->
  reads_astray (Ev (ApiGet KGameServer reader key) (inr server)) = true -> astray fence server.
Proof.
  unfold reads_astray. cbn [server_read_in as_server_read]. intros Ef [Ha Hg]%andb_prop.
  split; [by destruct (gss_ActiveData (gs_Status server))|]. rewrite Ef. by apply negb_true_iff, bool_decide_eq_false in Hg.
Qed.
Lemma Restore_rollback_stuck_witness :
  Forall (fun e => moves_on e = true -> exists u, restore_status e = Some u /\ restore_phase u = DataPhaseRollingBack)
    (trace scene_stuck).
Proof.
  assert (forallb reads_astray (trace scene_stuck) = true) as Ha by (vm_compute; reflexivity).
  apply list.Forall_forall. intros e He Hm.
  assert (ds_Fence (rdata (sc_restore scene_stuck)) = Some stuck_fence) as Hf by (vm_compute; reflexivity).
  assert (rs_ActivationStartedAt (gr_Status (sc_restore scene_stuck)) <> None) as Hst by (vm_compute; discriminate).
  assert (forall server, target_seen rewinder (sc_restore scene_stuck) server (trace scene_stuck) -> astray stuck_fence server)
    as Hserver.
  { intros server [Hin _]. rewrite forallb_forall in Ha. apply list_elem_of_In in Hin.
    refine (reads_astray_astray _ _ _ _ _ (Ha _ Hin)). vm_compute. reflexivity. }
  destruct (Restore_rollback_stuck rewinder (sc_restore scene_stuck) stuck_fence (trace scene_stuck) _
    (run_steps _ _ _) ltac:(vm_compute; reflexivity) ltac:(vm_compute; reflexivity) Hst Hf ltac:(vm_compute; reflexivity)
    Hserver e He Hm) as (u & Eu & Hp & _).
  exists u. exact (conj Eu Hp).
Defined.

Lemma Restore_target_unreported_witness :
  exists u c, restore_status (found writes_restore (pass scene_populated)) = Some u /\ c ∈ ds_Conditions (rdata u) /\
    cond_Type c <> ConditionTargetReady.
Proof.
  assert (located writes_restore (pass scene_populated) = true) as L by (vm_compute; reflexivity).
  destruct (locate_split _ _ L) as [E _].
  assert (cond_Type <$> (restore_status (found writes_restore (pass scene_populated)) ≫= fun u => head (ds_Conditions (rdata u)))
          = Some "Accepted") as Hc by (vm_compute; reflexivity).
  destruct (restore_status (found writes_restore (pass scene_populated))) as [u|] eqn:Eu; [|discriminate Hc].
  destruct (ds_Conditions (rdata u)) as [|c l] eqn:Ec; [cbn in Hc; rewrite Ec in Hc; discriminate Hc|].
  assert (c ∈ ds_Conditions (rdata u)) as Hin by (rewrite Ec; left).
  exists u, c. refine (conj eq_refl (conj Hin _)).
  exact (Restore_target_unreported rewinder rewind_key _ _ _ _ _ u c (pass_steps _) E Eu Hin).
Defined.
