(* ===== verification/OperationStatus.v ===== *)
(** * The receipt controller: its journal ([internal/controller/arcadeoperation_controller.go])

    [ArcadeOperationReconciler]'s errors, reads and status writes: an
    [operationIssue] carries a bounded code and ends the receipt, any other
    error is an API ambiguity that only asks for another pass, and every write
    of the journal goes through [operationStatus]. *)

From Stdlib Require Import Ascii.
From stdpp Require Import base tactics list strings gmap numbers.
From S2P Require Import Prelude GoStrings K8s ApiTypes GameDefinition KubeObjects KubePlan KubeApi OperationFence.
Open Scope string_scope.
Open Scope list_scope.

Definition operationRequeue : Z := second.
Definition operationRetry : ctrl_Result := requeue_after operationRequeue.

Record ArcadeOperationReconciler := MkOperationReconciler {
  opr_has_APIReader : bool;
  opr_Catalog : option Catalog;
  (* the script embedded in the binary, for [platformkube.Build] *)
  opr_materializeConfigurationScript : string }.

(** ** Errors *)

(** [*operationIssue], any other error, or a nil dereference. *)
Inductive operr := Issue (code : string) | Failure (e : cerror) | NilPanic.
Definition operationError {A} (code : string) : operr + A := inl (Issue code).
Definition go_failure (m : string) : operr := Failure (go_error m).
Definition api_failure (e : apierr) : operr := Failure (FromApi e).

Abbreviation op A := (prog (operr + A)%type).
Definition op_bind {A B} (p : op A) (k : A -> op B) : op B :=
  x ← p; match x with inl e => Ret (inl e) | inr a => k a end.
Definition yields {A} (a : A) : op A := Ret (inr a).
Definition refuse {A} (code : string) : op A := Ret (operationError code).
(** [*p] and [p.f] of a pointer [p]. *)
Definition deref {A} (p : option A) : op A :=
  Ret (match p with Some a => inr a | None => inl NilPanic end).
(** A call whose only result is an error. *)
Definition checked (p : prog (option cerror)) : op unit :=
  e ← p; Ret (match e with Some e => inl (Failure e) | None => inr tt end).
(** [if err != nil { return code }] *)
Definition or_issue {A} (code : string) (x : result A) : op A :=
  match x with Ok a => yields a | Err _ => refuse code end.

Declare Scope operation_scope.
Delimit Scope operation_scope with operation.
Notation "x ⇐ p ; k" := (op_bind p (fun x => k))
  (at level 20, p at level 100, k at level 200, only parsing) : operation_scope.
Open Scope operation_scope.

(** [if b { return operationError(code) }] *)
Definition reject (b : bool) (code : string) : op unit := if b then refuse code else yields tt.

Definition operationFailure (code : string) : OperationFailure :=
  let in_codes l := bool_decide (code ∈ l) in
  let '(message, action) :=
    let action := "Inspect the receipt and current exact target, then submit a new idempotency key after correction." in
    if in_codes ["invalid_request"; "receipt_invalid"]
    then ("The receipt does not satisfy the supported lifecycle request contract.", action)
    else if in_codes ["target_changed"; "child_changed"]
    then ("The exact target or operation child changed; no replacement was adopted.", action)
    else if code == "operation_conflict"
    then ("Another exact operation owns the retained-world fence.",
          "Wait for the existing data operation to settle, then submit a new receipt.")
    else if code == "invalid_reference"
    then ("Exact retained-world or verified-backup evidence is unavailable.",
          "Reattach the exact retained world and create a fresh leave-stopped verified backup before destruction.")
    else if code == "secret_unavailable"
    then ("The named immutable repository Secret metadata is unavailable.",
          "Create a valid immutable repository Secret and submit a new receipt.")
    else if in_codes ["validation_failed"; "unsupported"]
    then ("The server intent does not satisfy its installed adapter contract.", action)
    else if code == "api_unavailable"
    then ("The recorded server intent has not reached its requested observed runtime state.",
          "Inspect server readiness and Kubernetes availability; the applied intent may still converge and waiting does not cancel it.")
    else if code == "verification_failed"
    then ("The native operation refused repository or data verification.", action)
    else if code == "worker_failed"
    then ("The native operation failed; the translator did not alter world data.", action)
    else if code == "too_late"
    then ("Cancellation or confirmation is no longer applicable to this destroy.", action)
    else if code == "confirmation_expired"
    then ("The exact destroy preview challenge has expired.",
          "Cancel the old preview and request a new preview before confirming.")
    else ("The operation could not safely finish.", action) in
  MkOperationFailure code false message action.
Definition retryable (f : OperationFailure) : OperationFailure :=
  MkOperationFailure (of_Code f) true (of_Message f) (of_SuggestedAction f).
Definition progress_failure (code : string) : OperationFailure :=
  MkOperationFailure code true (of_Message (operationFailure code))
    "Continue observing this receipt and inspect its exact server or native operation; admitted work remains active and waiting does not cancel it.".

(** ** The status *)

Definition with_receipt_status (o : ArcadeOperation) (s : ArcadeOperationStatus) : ArcadeOperation :=
  MkArcadeOperation (ao_meta o) (ao_Spec o) s.
Definition with_receipt_meta (o : ArcadeOperation) (m : ObjectMeta) : ArcadeOperation :=
  MkArcadeOperation m (ao_Spec o) (ao_Status o).

Section Setters.
Variable s : ArcadeOperationStatus.
Definition set_aost_begun (generation : Z) (phase : ArcadeOperationPhase) (started : option Time) :=
  MkOperationStatus generation phase started (aost_CompletedAt s) (aost_Plan s) (aost_Child s) (aost_Transitions s)
    (aost_RetainedWorld s) (aost_DestroyPreview s) (aost_Failure s) (aost_Conditions s).
Definition set_aost_CompletedAt (t : Time) :=
  MkOperationStatus (aost_ObservedGeneration s) (aost_Phase s) (aost_StartedAt s) (Some t) (aost_Plan s) (aost_Child s)
    (aost_Transitions s) (aost_RetainedWorld s) (aost_DestroyPreview s) (aost_Failure s) (aost_Conditions s).
Definition set_aost_Failure (f : option OperationFailure) :=
  MkOperationStatus (aost_ObservedGeneration s) (aost_Phase s) (aost_StartedAt s) (aost_CompletedAt s) (aost_Plan s)
    (aost_Child s) (aost_Transitions s) (aost_RetainedWorld s) (aost_DestroyPreview s) f (aost_Conditions s).
Definition set_aost_DestroyPreview (p : option GameDestroyPreview) :=
  MkOperationStatus (aost_ObservedGeneration s) (aost_Phase s) (aost_StartedAt s) (aost_CompletedAt s) (aost_Plan s)
    (aost_Child s) (aost_Transitions s) (aost_RetainedWorld s) p (aost_Failure s) (aost_Conditions s).
Definition set_aost_Plan (p : OperationPlan) (world : option OperationRetainedWorld) :=
  MkOperationStatus (aost_ObservedGeneration s) (aost_Phase s) (aost_StartedAt s) (aost_CompletedAt s) (Some p)
    (aost_Child s) (aost_Transitions s) world (aost_DestroyPreview s) (aost_Failure s) (aost_Conditions s).
Definition set_aost_Child (c : OperationChildReference) :=
  MkOperationStatus (aost_ObservedGeneration s) (aost_Phase s) (aost_StartedAt s) (aost_CompletedAt s) (aost_Plan s)
    (Some c) (aost_Transitions s) (aost_RetainedWorld s) (aost_DestroyPreview s) (aost_Failure s) (aost_Conditions s).
Definition add_aost_Transition (t : OperationServerTransition) :=
  MkOperationStatus (aost_ObservedGeneration s) (aost_Phase s) (aost_StartedAt s) (aost_CompletedAt s) (aost_Plan s)
    (aost_Child s) (aost_Transitions s ++ [t]) (aost_RetainedWorld s) (aost_DestroyPreview s) (aost_Failure s)
    (aost_Conditions s).
End Setters.

(** What a terminal write adds. *)
Definition settled (phase : ArcadeOperationPhase) (t : Time) (s : ArcadeOperationStatus) : ArcadeOperationStatus :=
  let s := set_aost_CompletedAt s t in
  if phase != OperationPhaseFailed then set_aost_Failure s None else s.

(** [r.now()], from the clock of the process or the one it was given. *)
Definition operation_now : prog Time := call ClockNow.

Definition operationStatus (o : ArcadeOperation) (phase : ArcadeOperationPhase)
    (modify : ArcadeOperationStatus -> ArcadeOperationStatus) : prog (option cerror) :=
  let s := ao_Status o in
  startedAt ← match aost_StartedAt s with Some t => Ret (Some t) | None => t ← operation_now; Ret (Some t) end;
  let s := modify (set_aost_begun s (om_Generation (ao_meta o)) phase startedAt) in
  s ← (if operationTerminal phase then t ← operation_now; Ret (settled phase t s) else Ret s);
  e ← call (ApiUpdateStatus KArcadeOperation (with_receipt_status o s));
  Ret (match e with Some _ => Some (go_error "persist operation journal failed") | None => None end).

Definition operationProgressGuidance (o : ArcadeOperation) (code : string) : prog (option cerror) :=
  let failure := progress_failure code in
  let write := operationStatus o (ao_Phase o) (fun s => set_aost_Failure s (Some failure)) in
  match aost_Failure (ao_Status o) with
  | Some f => if (of_Code f == of_Code failure) && of_Retryable f then Ret None else write
  | None => write
  end.

Definition failOperation (o : ArcadeOperation) (code : string) : prog outcome :=
  e ← operationStatus o OperationPhaseFailed (fun s => set_aost_Failure s (Some (operationFailure code)));
  Ret (operationRetry, e).

Definition nil_panic : cerror :=
  go_error "panic: runtime error: invalid memory address or nil pointer dereference".

(** API ambiguity is not a failed operation. *)
Definition operationResultError (o : ArcadeOperation) (e : operr) : prog outcome :=
  match e with
  | Issue code => failOperation o code
  | Failure _ =>
      Ret (operationRetry, Some (go_error "operation reconciliation is awaiting Kubernetes API availability"))
  | NilPanic => Ret (no_requeue, Some nil_panic)
  end.

(** ** Time *)

(** [t.Sub(u)], saturated to the range of a [time.Duration]. *)
Definition Time_Sub (t u : Time) : Z := Z.max (- 2 ^ 63) (Z.min (2 ^ 63 - 1) (t - u)).
(** [o.Status.StartedAt != nil && r.now().Time.Sub(o.Status.StartedAt.Time) > 15*time.Minute] *)
Definition operationObservationSlow (o : ArcadeOperation) : prog bool :=
  match aost_StartedAt (ao_Status o) with
  | None => Ret false
  | Some started => t ← operation_now; Ret (15 * minute <? Time_Sub t started)%Z
  end.

(** ** Reads *)

Section Reads.
Variable r : ArcadeOperationReconciler.
Definition operation_reader : Reader := if opr_has_APIReader r then UncachedReader else CachedReader.
Definition operation_get {A} (k : kind A) (namespace name : string) : prog (apierr + A) :=
  call (ApiGet k operation_reader (Key namespace name)).
(** Only an authoritative NotFound becomes a missing reference. *)
Definition operationReference {A} (k : kind A) (namespace name missingCode : string) : op A :=
  x ← operation_get k namespace name;
  Ret (match x with
       | inl NotFound => inl (Issue missingCode)
       | inl e => inl (api_failure e)
       | inr a => inr a
       end).
End Reads.
