(* ===== verification/OperationPlanning.v ===== *)
(** * The receipt controller: planning ([arcadeoperation_controller.go], [arcadeoperation_data.go])

    What a receipt freezes before it acts: the exact server and data it names,
    the intent its server is to have, the retained world a decommission
    leaves, and the verified backup a restore or a destruction relies on.
    Planning reads and never writes. *)

From Stdlib Require Import Ascii.
From stdpp Require Import base tactics list strings gmap numbers.
From S2P Require Import Prelude GoStrings K8s ApiTypes Receipts Operations GameDefinition KubeObjects KubePlan KubeApi WorkerInput OperationDigest KubeDestroy WorkerPods OperationFence ServerStatus ServerController OperationStatus.
Open Scope string_scope.
Open Scope list_scope.
Open Scope operation_scope.

Definition ao_Namespace (o : ArcadeOperation) : string := om_Namespace (ao_meta o).
Definition ao_Request (o : ArcadeOperation) : OperationRequest := aos_Request (ao_Spec o).
Definition ao_Action (o : ArcadeOperation) : ArcadeOperationAction := aos_Action (ao_Spec o).

Definition empty_plan : OperationPlan := MkOperationPlan None None None None None None.
Definition with_plan_Data (p : OperationPlan) (d : RetainedDataReference) : OperationPlan :=
  MkOperationPlan (op_Server p) (op_ServerIntent p) (Some d) (op_RepositorySecretRef p) (op_BackupRef p) (op_DestroyRef p).
Definition with_plan_Server (p : OperationPlan) (s : ExactGameServerReference) : OperationPlan :=
  MkOperationPlan (Some s) (op_ServerIntent p) (op_Data p) (op_RepositorySecretRef p) (op_BackupRef p) (op_DestroyRef p).
Definition with_plan_Intent (p : OperationPlan) (i : OperationServerIntent) : OperationPlan :=
  MkOperationPlan (op_Server p) (Some i) (op_Data p) (op_RepositorySecretRef p) (op_BackupRef p) (op_DestroyRef p).
Definition with_plan_Secret (p : OperationPlan) (s : ExactSecretReference) : OperationPlan :=
  MkOperationPlan (op_Server p) (op_ServerIntent p) (op_Data p) (Some s) (op_BackupRef p) (op_DestroyRef p).
Definition with_plan_Backup (p : OperationPlan) (b : ExactLocalReference) (s : ExactSecretReference) : OperationPlan :=
  MkOperationPlan (op_Server p) (op_ServerIntent p) (op_Data p) (Some s) (Some b) (op_DestroyRef p).
Definition with_plan_Destroy (p : OperationPlan) (d : ExactLocalReference) : OperationPlan :=
  MkOperationPlan (op_Server p) (op_ServerIntent p) (op_Data p) (op_RepositorySecretRef p) (op_BackupRef p) (Some d).

Definition with_Reattach (s : StorageSpec) (d : option RetainedDataReference) : StorageSpec :=
  MkStorage (st_Size s) (st_StorageClassName s) d.
Definition with_Compute (i : GameServerSpec) (c : ComputeSpec) : GameServerSpec :=
  MkGameServerSpec (gs_Game i) (gs_ImageDigest i) (gs_DesiredState i) c (gs_Storage i) (gs_Settings i).
Definition with_Storage (i : GameServerSpec) (s : StorageSpec) : GameServerSpec :=
  MkGameServerSpec (gs_Game i) (gs_ImageDigest i) (gs_DesiredState i) (gs_Compute i) s (gs_Settings i).
Definition with_Settings (i : GameServerSpec) (s : string) : GameServerSpec :=
  MkGameServerSpec (gs_Game i) (gs_ImageDigest i) (gs_DesiredState i) (gs_Compute i) (gs_Storage i) s.
Definition with_ImageDigest (i : GameServerSpec) (d : string) : GameServerSpec :=
  MkGameServerSpec (gs_Game i) d (gs_DesiredState i) (gs_Compute i) (gs_Storage i) (gs_Settings i).
Definition with_Spec (s : GameServer) (i : GameServerSpec) : GameServer := MkGameServer (gs_meta s) i (gs_Status s).

Definition operationExactServer (server : GameServer) (reference : option ExactGameServerReference) : bool :=
  match reference with
  | None => false
  | Some ref =>
      (ref_Namespace (gsr_ref ref) == None) && negb (deleting (gs_meta server)) && (server_UID server == gsr_UID ref) &&
      (server_Name server == gsr_Name ref) && (gs_Generation server == gsr_Generation ref) &&
      (gs_DesiredState (gs_Spec server) == gsr_DesiredState ref)
  end.

Section Planning.
Context `{RegexpEngine} `{NameValidation} `{JsonSchema} `{QuantityText} `{FindConditions}.
Variable r : ArcadeOperationReconciler.

Definition operationRuntimeObserved (server : GameServer) (desired : DesiredState)
    (data : option RetainedDataReference) : bool :=
  let s := gs_Status server in
  if (gss_ObservedGeneration s != gs_Generation server) || (gs_DesiredState (gs_Spec server) != desired) ||
     negb (sameDataSelection data (gss_ObservedData s))
  then false
  else if desired == DesiredStateStopped then gss_Phase s == PhaseStopped
  else
    match FindStatusCondition (gss_Conditions s) ConditionReady with
    | None => false
    | Some ready => (gss_Phase s == PhaseReady) && (cond_Status ready == ConditionTrue) &&
                    (cond_ObservedGeneration ready == gs_Generation server)
    end.

(** *** The installed adapter *)

Definition installed (gameID : string) : op GameDefinition :=
  match opr_Catalog r with
  | None => refuse "unsupported"
  | Some catalog => or_issue "unsupported" (catalog_Get catalog gameID)
  end.

(** An image's provenance, checked against its adapter: the tag its version
    resolves to, or the digest that was named. *)
Definition provenance_holds (definition : GameDefinition) (image : OperationImageInput) : bool :=
  let resolution := ii_Resolution image in
  if ii_Version image != "" then
    match ResolveVersionTag definition (ii_Version image) with
    | Err _ => false
    | Ok tag => (tag == ir_Tag resolution) && (ir_ResolverVersion resolution == "registry-v1")
    end
  else (ir_Tag resolution == "") && (ir_ResolverVersion resolution == "digest-v1") &&
       (ii_Digest image == ir_Digest resolution).

Definition validateOperationImage (gameID : string) (image : option OperationImageInput) : op unit :=
  match opr_Catalog r, image with
  | Some catalog, Some image =>
      definition ⇐ or_issue "unsupported" (catalog_Get catalog gameID);
      reject ((ir_Repository (ii_Resolution image) != def_ImageRepository definition) ||
              negb (provenance_holds definition image)) "validation_failed"
  | _, _ => refuse "unsupported"
  end.

(** [validateOperationIntent(server) == nil]; its errors are not told apart. *)
Definition intent_valid (server : GameServer) : bool :=
  match opr_Catalog r with
  | None => false
  | Some catalog =>
      match catalog_Get catalog (gs_Game (gs_Spec server)) with
      | Err _ => false
      | Ok definition => match Build (opr_materializeConfigurationScript r) server definition with
                         | inl _ => false | inr _ => true end
      end
  end.
(** Validate the intent on [server] and freeze it. *)
Definition frozen_intent (server : GameServer) : op OperationServerIntent :=
  _ ⇐ reject (negb (intent_valid server)) "validation_failed";
  or_issue "validation_failed" (ServerIntent (gs_Spec server)).

(** *** The claims of a live server *)

Definition operation_claim (data : RetainedDataReference) (claim : DataClaimPlan) :
    op RetainedDataReference :=
  let key := claim_key claim in
  pvc ⇐ operationReference r KPersistentVolumeClaim (key_Namespace key) (key_Name key) "invalid_reference";
  let m := pvc_meta pvc in
  _ ⇐ reject ((om_UID m == "") || negb (is_ok (validateExistingDataClaim pvc claim)) || (pvc_Phase pvc != "Bound") ||
              (pvc_VolumeName pvc == "")) "invalid_reference";
  yields (MkDataRef (rdr_Identity data)
            (rdr_Claims data ++ [MkClaimRef (claim_label (Desired claim) LabelDataPath)
                                   (MkRef None (om_Name m) (om_UID m))])).
Fixpoint operation_claims (data : RetainedDataReference) (claims : list DataClaimPlan) :
    op RetainedDataReference :=
  match claims with
  | [] => yields data
  | claim :: rest => data ⇐ operation_claim data claim; operation_claims data rest
  end.

Definition operationServerData (server : GameServer) : op RetainedDataReference :=
  definition ⇐ installed (gs_Game (gs_Spec server));
  match Build (opr_materializeConfigurationScript r) server definition with
  | inl _ => refuse "validation_failed"
  | inr plan =>
      data ⇐ operation_claims (MkDataRef (plan_DataIdentity plan) []) (DataClaims plan);
      let s := gs_Status server in
      _ ⇐ reject (present (gss_ActiveData s) &&
                  (negb (sameDataSelection (Some data) (gss_ActiveData s)) ||
                   negb (sameDataSelection (Some data) (gss_ObservedData s)))) "target_changed";
      yields data
  end.

(** *** A retained world, by the receipt that left it *)

Definition retainedOperationWorld (namespace : string) (selector : option OperationRetainedWorldSelector) :
    op OperationRetainedWorld :=
  match selector with
  | None => refuse "invalid_reference"
  | Some selector =>
      let ref := rw_DecommissionOperationRef selector in
      _ ⇐ reject (ref_Namespace ref != None) "invalid_reference";
      prior ⇐ operationReference r KArcadeOperation namespace (ref_Name ref) "invalid_reference";
      _ ⇐ reject ((ao_UID prior != ref_UID ref) || (ao_Action prior != OperationServerDecommission) ||
                  (ao_Phase prior != OperationPhaseSucceeded)) "invalid_reference";
      match aost_RetainedWorld (ao_Status prior) with
      | None => refuse "invalid_reference"
      | Some world =>
          digest ⇐ or_issue "invalid_reference" (RetainedSnapshotDigest (orw_Target world));
          _ ⇐ reject ((digest != rw_SnapshotDigest selector) || (digest != orw_SnapshotDigest world)) "invalid_reference";
          yields world
      end
  end.

(** *** A verified backup *)

Definition zero_time (t : option Time) : bool := match t with None => true | Some t => IsZero t end.
Definition backup_evidence (backup : GameBackup) (ref : ExactLocalReference) (artifact : BackupArtifact)
    (source : DataSourceSnapshot) : bool :=
  (gb_UID backup == ref_UID ref) && negb (deleting (gb_meta backup)) &&
  (ds_ObservedGeneration (gb_Status backup) == gb_Generation backup) &&
  (ds_Phase (gb_Status backup) == DataPhaseSucceeded) &&
  (av_Result (art_Verification artifact) == VerificationVerified) &&
  negb (zero_time (av_VerifiedAt (art_Verification artifact))) &&
  (art_PathCount artifact == int32 (len (src_Paths source))) &&
  (ap_BackupRef (art_Provenance artifact) == ref) &&
  (ap_RepositorySecretRef (art_Provenance artifact) == dor_RepositorySecretRef (gbs_Request (gb_Spec backup))).

(** A destruction needs a backup that left its server stopped. *)
Definition left_stopped (backup : GameBackup) (server : ExactGameServerReference) : bool :=
  (dor_RestartPolicy (gbs_Request (gb_Spec backup)) == RestartLeaveStopped) &&
  match ds_Runtime (gb_Status backup) with
  | None => false
  | Some runtime => (rt_Phase runtime == PhaseStopped) &&
                    (gsr_DesiredState (rt_GameServer runtime) == DesiredStateStopped)
  end &&
  (gsr_UID (gbs_Source (gb_Spec backup)) == gsr_UID server) &&
  (gsr_Name (gbs_Source (gb_Spec backup)) == gsr_Name server).

Definition snapshot_data (identity : string) (source : DataSourceSnapshot) : RetainedDataReference :=
  MkDataRef identity ((fun path => MkClaimRef (dp_Name path) (dp_ClaimRef path)) <$> src_Paths source).

Definition marked_cold (pvc : PersistentVolumeClaim) (identity : string) (claim : RetainedDataClaimReference)
    (backupUID : string) : bool :=
  (om_UID (pvc_meta pvc) == ref_UID (rdc_ClaimRef claim)) && negb (deleting (pvc_meta pvc)) &&
  (claim_label pvc LabelDataIdentity == identity) && (claim_label pvc LabelDataPath == rdc_Path claim) &&
  (mget (om_Annotations (pvc_meta pvc)) AnnotationColdBackupUID == backupUID).

Fixpoint cold_claims (namespace identity backupUID : string) (claims : list RetainedDataClaimReference) : op unit :=
  match claims with
  | [] => yields tt
  | claim :: rest =>
      pvc ⇐ operationReference r KPersistentVolumeClaim namespace (ref_Name (rdc_ClaimRef claim)) "invalid_reference";
      _ ⇐ reject (negb (marked_cold pvc identity claim backupUID)) "invalid_reference";
      cold_claims namespace identity backupUID rest
  end.

Definition destroyable (o : ArcadeOperation) (plan : OperationPlan) (backup : GameBackup)
    (source : DataSourceSnapshot) (ref : ExactLocalReference) : op unit :=
  match op_Server plan, op_Data plan with
  | Some server, Some data =>
      _ ⇐ reject (negb (left_stopped backup server)) "invalid_reference";
      _ ⇐ reject (negb (sameDataSelection (Some (snapshot_data (rdr_Identity data) source)) (Some data))) "invalid_reference";
      cold_claims (ao_Namespace o) (rdr_Identity data) (ref_UID ref) (rdr_Claims data)
  | _, _ => refuse "invalid_reference"
  end.

Definition planOperationBackup (o : ArcadeOperation) (plan : OperationPlan) (ref : ExactLocalReference) :
    op OperationPlan :=
  _ ⇐ reject (ref_Namespace ref != None) "invalid_reference";
  backup ⇐ operationReference r KGameBackup (ao_Namespace o) (ref_Name ref) "invalid_reference";
  match ds_Artifact (gb_Status backup), ds_Source (gb_Status backup) with
  | Some artifact, Some source =>
      _ ⇐ reject (negb (backup_evidence backup ref artifact source)) "invalid_reference";
      _ ⇐ (if ao_Action o == OperationWorldDestroyPreview then destroyable o plan backup source ref else yields tt);
      yields (with_plan_Backup plan ref (ap_RepositorySecretRef (art_Provenance artifact)))
  | _, _ => refuse "invalid_reference"
  end.

(** *** The parent of a destroy command *)

(** The receipt that previewed the destruction, at the generation the command
    was given for, with the native child it recorded. *)
Definition previewed_by (parent : ArcadeOperation) (command : OperationDestroyCommand) (generation : Z) : bool :=
  (ao_UID parent == ref_UID (dc_ParentOperationRef command)) && (om_Generation (ao_meta parent) == generation) &&
  (ao_Action parent == OperationWorldDestroyPreview) && present (aost_Plan (ao_Status parent)) &&
  match aost_Child (ao_Status parent) with
  | None => false
  | Some child =>
      (och_Kind child == "GameDestroy") && (ref_Name (och_ref child) == ref_Name (dc_DestroyRef command)) &&
      (ref_UID (och_ref child) == ref_UID (dc_DestroyRef command))
  end.

Definition destroy_label (d : GameDestroy) (k : string) : string := mget (om_Labels (gd_meta d)) k.
Definition destroy_annotation (d : GameDestroy) (k : string) : string := mget (om_Annotations (gd_meta d)) k.

(** The native destroy is the parent's, for the world and backup it froze. *)
Definition destroys_for (destroy : GameDestroy) (parent : ArcadeOperation) (plan : OperationPlan)
    (command : OperationDestroyCommand) : bool :=
  (om_UID (gd_meta destroy) == ref_UID (dc_DestroyRef command)) && negb (deleting (gd_meta destroy)) &&
  (destroy_label destroy operationReceiptUIDLabel == ao_UID parent) &&
  (destroy_annotation destroy operationReceiptNameAnnotation == ao_Name parent) &&
  (gd_Mode (gd_Spec destroy) == DestroyModeVerifiedBackup) &&
  match aost_RetainedWorld (ao_Status parent) with
  | None => false
  | Some world => gd_Target (gd_Spec destroy) == orw_Target world
  end &&
  (gd_BackupRef (gd_Spec destroy) == op_BackupRef plan) &&
  (gd_RepositorySecretRef (gd_Spec destroy) == op_RepositorySecretRef plan).

Definition operationDestroyCommandObjects (o : ArcadeOperation) : op (ArcadeOperation * OperationPlan * GameDestroy) :=
  precondition ⇐ or_issue "invalid_request" (ParsePrecondition (rq_Precondition (ao_Request o)));
  _ ⇐ reject (pc_Kind precondition != "operation") "invalid_request";
  match rq_DestroyCommand (ao_Request o) with
  | None => refuse "invalid_reference"
  | Some command =>
      _ ⇐ reject ((ref_Namespace (dc_ParentOperationRef command) != None) ||
                  (ref_Namespace (dc_DestroyRef command) != None)) "invalid_reference";
      parent ⇐ operationReference r KArcadeOperation (ao_Namespace o) (ref_Name (dc_ParentOperationRef command))
                 "invalid_reference";
      _ ⇐ reject (negb (previewed_by parent command (pc_Generation precondition))) "invalid_reference";
      plan ⇐ deref (aost_Plan (ao_Status parent));
      destroy ⇐ operationReference r KGameDestroy (ao_Namespace o) (ref_Name (dc_DestroyRef command)) "invalid_reference";
      _ ⇐ reject (negb (destroys_for destroy parent plan command)) "child_changed";
      yields (parent, plan, destroy)
  end.

Definition planned_world : Type := OperationPlan * option OperationRetainedWorld.

Definition planDestroyCommand (o : ArcadeOperation) : op planned_world :=
  objects ⇐ operationDestroyCommandObjects o;
  let '(_, plan, destroy) := objects in
  command ⇐ deref (rq_DestroyCommand (ao_Request o));
  _ ⇐ reject (gd_Mode (gd_Spec destroy) != DestroyModeVerifiedBackup) "invalid_reference";
  yields (with_plan_Destroy plan (dc_DestroyRef command), None).

(** *** planOperation, by the shape of the request *)

Definition created_intent (create : OperationCreateInput) (image : OperationImageInput) :
    GameServerSpec :=
  MkGameServerSpec (ci_Game create) (ir_Digest (ii_Resolution image)) (ci_DesiredState create) (ci_Compute create)
    (ci_Storage create) (ci_SettingsJSON create).
(** The server a receipt would create, with the receipt's UID in place of its own. *)
Definition candidate_server (o : ArcadeOperation) (intent : GameServerSpec) : GameServer :=
  MkGameServer
    (MkObjectMeta (rq_ServerName (ao_Request o)) (ao_Namespace o) (ao_UID o) 0 "" 0 None [] ∅ ∅ [])
    intent (MkGameServerStatus 0 None None PhaseUnset [] []).

Definition planCreate (o : ArcadeOperation) : op planned_world :=
  create ⇐ deref (rq_Create (ao_Request o));
  _ ⇐ reject (present (st_Reattach (ci_Storage create))) "invalid_request";
  image ⇐ deref (rq_Image (ao_Request o));
  let intent := created_intent create image in
  _ ⇐ validateOperationImage (gs_Game intent) (Some image);
  planned ⇐ match ci_RetainedWorld create with
            | None => yields (empty_plan, intent)
            | Some selector =>
                world ⇐ retainedOperationWorld (ao_Namespace o) (Some selector);
                _ ⇐ reject (dt_Game (orw_Target world) != gs_Game intent) "invalid_reference";
                let data := dt_Data (orw_Target world) in
                yields (with_plan_Data empty_plan data, with_Storage intent (with_Reattach (gs_Storage intent) (Some data)))
            end;
  let '(plan, intent) := planned in
  frozen ⇐ frozen_intent (candidate_server o intent);
  yields (with_plan_Intent plan frozen, None).

Definition planRetainedDestroy (o : ArcadeOperation) (destroy : OperationDestroyInput) : op planned_world :=
  world ⇐ retainedOperationWorld (ao_Namespace o) (di_RetainedWorld destroy);
  let target := orw_Target world in
  let plan := with_plan_Server (with_plan_Data empty_plan (dt_Data target))
                (MkGSRef (dt_GameServer target) 1 DesiredStateStopped) in
  plan ⇐ planOperationBackup o plan (di_BackupRef destroy);
  yields (plan, Some world).

Definition configured (intent : GameServerSpec) (input : OperationConfigureInput) : op GameServerSpec :=
  let intent := match cf_Compute input with Some compute => with_Compute intent compute | None => intent end in
  intent ⇐ match cf_Storage input with
           | None => yields intent
           | Some storage =>
               _ ⇐ reject (present (st_Reattach storage)) "invalid_request";
               yields (with_Storage intent (with_Reattach storage (st_Reattach (gs_Storage intent))))
           end;
  yields (match cf_SettingsJSON input with Some settings => with_Settings intent settings | None => intent end).

(** What the action makes of the server's current specification. *)
Definition planned_intent (o : ArcadeOperation) (server : GameServer) (data : RetainedDataReference) :
    op GameServerSpec :=
  let intent := gs_Spec server in
  match ao_Action o with
  | OperationServerStart => yields (with_desired_state intent DesiredStateRunning)
  | OperationServerStop | OperationServerDecommission => yields (with_desired_state intent DesiredStateStopped)
  | OperationServerRestart =>
      _ ⇐ reject ((gs_DesiredState intent != DesiredStateRunning) ||
                  negb (operationRuntimeObserved server DesiredStateRunning (Some data))) "target_changed";
      yields intent
  | OperationServerConfigure => input ⇐ deref (rq_Configure (ao_Request o)); configured intent input
  | OperationServerUpdate =>
      _ ⇐ validateOperationImage (gs_Game intent) (rq_Image (ao_Request o));
      image ⇐ deref (rq_Image (ao_Request o));
      yields (with_ImageDigest intent (ir_Digest (ii_Resolution image)))
  | _ => yields intent
  end.

(** The world a decommission or a destruction of a live server concerns. *)
Definition retained_snapshot (server : GameServer) (data : RetainedDataReference) : op OperationRetainedWorld :=
  let target := MkDestroyTarget (MkRef None (server_Name server) (server_UID server)) (gs_Game (gs_Spec server)) data in
  digest ⇐ or_issue "invalid_reference" (RetainedSnapshotDigest target);
  yields (MkRetainedWorld target digest).

Definition plan_secret (o : ArcadeOperation) (plan : OperationPlan) (input : OperationBackupInput) : op OperationPlan :=
  secret ⇐ operationReference r KSecretMetadata (ao_Namespace o) (bi_RepositorySecretName input) "secret_unavailable";
  _ ⇐ reject ((om_UID secret == "") || (om_ResourceVersion secret == "") || deleting secret) "secret_unavailable";
  yields (with_plan_Secret plan (MkSecretRef (MkRef None (om_Name secret) (om_UID secret)) (om_ResourceVersion secret))).

Definition plan_evidence (o : ArcadeOperation) (plan : OperationPlan) : op OperationPlan :=
  match ao_Action o with
  | OperationWorldBackup => input ⇐ deref (rq_Backup (ao_Request o)); plan_secret o plan input
  | OperationWorldRestore => input ⇐ deref (rq_Restore (ao_Request o)); planOperationBackup o plan (ri_BackupRef input)
  | OperationWorldDestroyPreview =>
      input ⇐ deref (rq_Destroy (ao_Request o)); planOperationBackup o plan (di_BackupRef input)
  | _ => yields plan
  end.

Definition retains (action : ArcadeOperationAction) : bool :=
  (action == OperationServerDecommission) || (action == OperationWorldDestroyPreview).

Definition planTarget (o : ArcadeOperation) : op planned_world :=
  match rq_Target (ao_Request o) with
  | None => refuse "invalid_reference"
  | Some target =>
      server ⇐ operationReference r KGameServer (ao_Namespace o) (gsr_Name target) "invalid_reference";
      _ ⇐ reject (negb (operationExactServer server (Some target))) "target_changed";
      data ⇐ operationServerData server;
      let plan := with_plan_Data (with_plan_Server empty_plan target) data in
      intent ⇐ planned_intent o server data;
      plan ⇐ (if operationServerAction (ao_Action o)
              then frozen ⇐ frozen_intent (with_Spec server intent); yields (with_plan_Intent plan frozen)
              else yields plan);
      world ⇐ (if retains (ao_Action o)
               then world ⇐ retained_snapshot server data; yields (Some world)
               else yields None);
      plan ⇐ plan_evidence o plan;
      yields (plan, world)
  end.

Definition planOperation (o : ArcadeOperation) : op planned_world :=
  if present (rq_DestroyCommand (ao_Request o)) then planDestroyCommand o
  else match ao_Action o with
  | OperationServerCreate => planCreate o
  | OperationWorldDestroyPreview =>
      destroy ⇐ deref (rq_Destroy (ao_Request o));
      if present (di_RetainedWorld destroy) then planRetainedDestroy o destroy else planTarget o
  | _ => planTarget o
  end.
End Planning.
