(* ===== verification/OperationServer.v ===== *)
(** * The receipt controller: servers ([internal/controller/arcadeoperation_server.go])

    A receipt changes a server in journaled steps: it takes the world's fence,
    records the step with the digest of the specification it will write, and
    only then writes the specification, its marks and nothing else, in one
    patch that tests the server's UID and resource version. *)

From Stdlib Require Import Ascii.
From stdpp Require Import base tactics list strings gmap numbers.
From S2P Require Import Prelude GoStrings K8s ApiTypes DataOperation Receipts Operations GameDefinition KubeObjects KubePlan KubeApi WorkerInput OperationDigest KubeDestroy KubeBackup KubeRestore WorkerPods OperationFence ServerStatus ServerController RestoreStatus DestroyController OperationStatus OperationPlanning.
Open Scope string_scope.
Open Scope list_scope.
Open Scope operation_scope.

(** [errors.New] for a fence that its terminal owner has yet to release. *)
Definition cleanup_pending : operr := go_failure "exact terminal operation fence cleanup is pending".

(** A call that returns the error of the API. *)
Definition api_call (q : request (option apierr)) : op unit :=
  e ← call q; Ret (match e with Some e => inl (api_failure e) | None => inr tt end).
Definition api_create {A} (k : kind A) (object : A) : op unit :=
  e ← call (ApiCreate k object); Ret (match e with inl e => inl (api_failure e) | inr _ => inr tt end).

Definition exact_delete (m : ObjectMeta) : DeleteOptions :=
  MkDeleteOptions (Some (om_UID m)) (Some (om_ResourceVersion m)) None.

(** ** Patches

    The values patched are texts, maps of texts, booleans and specifications
    whose settings are canonical JSON, which [json.Marshal] always encodes. *)

Definition test_patch (path value : string) : operationJSONPatch := MkJSONPatch "test" path (PatchText value).
Definition exact_patches (m : ObjectMeta) (patches : list operationJSONPatch) : list operationJSONPatch :=
  test_patch "/metadata/uid" (om_UID m) :: test_patch "/metadata/resourceVersion" (om_ResourceVersion m) :: patches.
(** [r.Patch] leaves in [object] what the API server answered. *)
Definition patchOperationObject {A} (k : kind A) (object : A) (patches : list operationJSONPatch) : op A :=
  x ← call (ApiJSONPatch k object (exact_patches (object_meta k object) patches));
  Ret (match x with inl e => inl (api_failure e) | inr object => inr object end).

Definition marked_labels (o : ArcadeOperation) (labels : StringMap) : StringMap :=
  <[operationReceiptUIDLabel := ao_UID o]> labels.
Definition marked_annotations (o : ArcadeOperation) (step digest : string) (annotations : StringMap) : StringMap :=
  <[operationSpecDigestAnnotation := digest]> (<[operationStepAnnotation := step]>
    (<[operationReceiptNameAnnotation := ao_Name o]> annotations)).
Definition transition_patches (o : ArcadeOperation) (server : GameServer) (transition : OperationServerTransition)
    (intent : GameServerSpec) : list operationJSONPatch :=
  [MkJSONPatch "add" "/metadata/labels" (PatchMap (marked_labels o (om_Labels (gs_meta server))));
   MkJSONPatch "add" "/metadata/annotations"
     (PatchMap (marked_annotations o (ost_Step transition) (ost_SpecDigest transition) (om_Annotations (gs_meta server))));
   MkJSONPatch "replace" "/spec" (PatchServerSpec intent)].

(** ** The fence of a receipt *)

Definition operationLeaseCoordinates (o : ArcadeOperation) : string * string * option error :=
  match aost_Plan (ao_Status o) with
  | None => ("", "", None)
  | Some plan =>
      if negb (operationServerAction (ao_Action o)) then ("", "", None)
      else
        let name := match op_Server plan with Some server => gsr_Name server | None => "" end in
        let identity := match op_Data plan with Some data => rdr_Identity data | None => "" end in
        if ao_Action o == OperationServerCreate then
          match aost_Child (ao_Status o) with
          | Some child =>
              if (identity == "") && (och_Kind child == "GameServer") then
                match DataIdentity (ref_UID (och_ref child)) with
                | Ok identity => (rq_ServerName (ao_Request o), identity, None)
                | Err e => (rq_ServerName (ao_Request o), "", Some e)
                end
              else (rq_ServerName (ao_Request o), identity, None)
          | None => (rq_ServerName (ao_Request o), identity, None)
          end
        else (name, identity, None)
  end.

Definition receipt_lease (o : ArcadeOperation) (name identity : string) (t : Time) : Lease :=
  MkLease
    (MkObjectMeta (DataOperationLeaseName identity) (ao_Namespace o) "" 0 "" 0 None []
       (<[LabelManagedBy := ManagerName]> (<[LabelInstance := name]> (<[LabelDataIdentity := identity]>
         (<[operationReceiptUIDLabel := ao_UID o]> ∅))))
       (<[operationReceiptNameAnnotation := ao_Name o]> ∅) [])
    (Some (ao_UID o)) (Some t).

Section Servers.
Context `{RegexpEngine} `{NameValidation} `{JsonSchema} `{QuantityText} `{FindConditions}.
Variable r : ArcadeOperationReconciler.

(** *** Whose fence it is *)

(** The owner a foreign Lease names: absent, unreadable, or found. *)
Definition fence_owner {A} (k : kind A) (lease : Lease) (ownerName : string) : op (option A) :=
  if ownerName == "" then yields None
  else
    x ← operation_get r k (om_Namespace (ls_meta lease)) ownerName;
    Ret (match x with inl NotFound => inr None | inl e => inl (api_failure e) | inr a => inr (Some a) end).

Definition receipt_settles (lease : Lease) (name identity : string) (owner : ArcadeOperation) : operr + bool :=
  match operationLeaseCoordinates owner with
  | (_, _, Some e) => inl (Failure (FromGo e))
  | (ownerName, ownerIdentity, None) =>
      inr (operationTerminal (ao_Phase owner) && containsOperationFinalizer owner && (ownerName == name) &&
           (ownerIdentity == identity) && operationLeaseMatches (Some lease) owner name identity)
  end.
Definition backup_settles (lease : Lease) (name : string) (owner : GameBackup) : bool :=
  (ds_ObservedGeneration (gb_Status owner) == gb_Generation owner) && restoreTerminal (ds_Phase (gb_Status owner)) &&
  bool_decide (BackupFinalizer ∈ om_Finalizers (gb_meta owner)) &&
  BackupOperationLeaseMatches (Some lease) (MkRef None (gb_Name owner) (gb_UID owner)) (gsr_Name (gbs_Source (gb_Spec owner))) &&
  (gsr_Name (gbs_Source (gb_Spec owner)) == name).
Definition restore_settled (lease : Lease) (name identity : string) (owner : GameRestore) : operr + bool :=
  match RestoreDataIdentity (gr_UID owner) with
  | Err e => inl (Failure (FromGo e))
  | Ok candidate =>
      let s := rs_DataOperationStatus (gr_Status owner) in
      inr (((identity == candidate) || (identity == rs_PreviousDataIdentity (gr_Status owner))) &&
           (ds_ObservedGeneration s == gr_Generation owner) && restoreTerminal (ds_Phase s) &&
           bool_decide (RestoreFinalizer ∈ om_Finalizers (gr_meta owner)) &&
           (gsr_Name (grs_Target (gr_Spec owner)) == name) &&
           RestoreOperationLeaseMatches (Some lease) (MkRef None (om_Name (gr_meta owner)) (gr_UID owner)) name identity)
  end.
Definition destroy_settles (lease : Lease) (name identity : string) (owner : GameDestroy) : bool :=
  (gds_ObservedGeneration (gd_Status owner) == om_Generation (gd_meta owner)) &&
  destroyTerminal (gds_Phase (gd_Status owner)) && bool_decide (DestroyFinalizer ∈ om_Finalizers (gd_meta owner)) &&
  (rdr_Identity (dt_Data (gd_Target (gd_Spec owner))) == identity) &&
  (ref_Name (dt_GameServer (gd_Target (gd_Spec owner))) == name) &&
  DestroyOperationLeaseMatches (Some lease) (MkRef None (om_Name (gd_meta owner)) (om_UID (gd_meta owner))) name identity.

Definition if_found {A} (p : op (option A)) (f : A -> operr + bool) : op bool :=
  owner ⇐ p; Ret (match owner with None => inr false | Some owner => f owner end).

(** Only an exact terminal owner still holding this fence makes its cleanup
    pending; a malformed or active fence is a conflict. *)
Definition operationFenceCleanupPending (lease : Lease) (name identity : string) : op bool :=
  let m := ls_meta lease in
  if (om_UID m == "") || (om_Namespace m == "") || (om_Name m != DataOperationLeaseName identity) ||
     (lease_label lease LabelDataIdentity != identity)
  then yields false
  else if lease_label lease operationReceiptUIDLabel != ""
  then if_found (fence_owner KArcadeOperation lease (lease_annotation lease operationReceiptNameAnnotation))
         (receipt_settles lease name identity)
  else if lease_label lease LabelBackupUID != ""
  then if_found (fence_owner KGameBackup lease (lease_annotation lease AnnotationBackupName))
         (fun owner => inr (backup_settles lease name owner))
  else if lease_label lease LabelRestoreUID != ""
  then if_found (fence_owner KGameRestore lease (lease_annotation lease AnnotationRestoreName))
         (restore_settled lease name identity)
  else if lease_label lease LabelDestroyUID != ""
  then if_found (fence_owner KGameDestroy lease (lease_annotation lease AnnotationDestroyName))
         (fun owner => inr (destroy_settles lease name identity owner))
  else yields false.

Definition acquireOperationLease (o : ArcadeOperation) (name identity : string) : op unit :=
  existing ← operation_get r KLease (ao_Namespace o) (DataOperationLeaseName identity);
  match existing with
  | inl NotFound => t ← operation_now; api_create KLease (receipt_lease o name identity t)
  | inl e => Ret (inl (api_failure e))
  | inr lease =>
      if operationLeaseMatches (Some lease) o name identity then yields tt
      else
        pending ⇐ operationFenceCleanupPending lease name identity;
        if (pending : bool) then Ret (inl cleanup_pending) else refuse "operation_conflict"
  end.

Definition fence_ours (o : ArcadeOperation) (lease : Lease) : bool :=
  (lease_label lease operationReceiptUIDLabel == ao_UID o) || (ls_HolderIdentity lease == Some (ao_UID o)).
Definition releaseOperationLease (o : ArcadeOperation) : op unit :=
  match operationLeaseCoordinates o with
  | (_, _, Some e) => Ret (inl (Failure (FromGo e)))
  | (name, identity, None) =>
      if (name == "") || (identity == "") then yields tt
      else
        existing ← operation_get r KLease (ao_Namespace o) (DataOperationLeaseName identity);
        match existing with
        | inl NotFound => yields tt
        | inl e => Ret (inl (api_failure e))
        | inr lease =>
            if operationLeaseMatches (Some lease) o name identity then
              e ← call (ApiDelete KLease lease (exact_delete (ls_meta lease)));
              Ret (match e with Some NotFound | None => inr tt | Some e => inl (api_failure e) end)
            else if fence_ours o lease then Ret (inl (go_failure "operation fence ownership changed"))
            else yields tt
        end
  end.

(** *** Journaled steps *)

Definition journaled (server : GameServer) (step digest : string) (intent : GameServerSpec) (t : Time) :
    OperationServerTransition :=
  let to := if operationSpecsEqual (gs_Spec server) intent then gs_Generation server else int64 (gs_Generation server + 1) in
  MkTransition step (gs_Generation server) to (gs_DesiredState intent) digest t.

Definition journalOperationTransition (o : ArcadeOperation) (server : GameServer) (step : string)
    (intent : GameServerSpec) : op unit :=
  digest ⇐ or_issue "receipt_invalid" (SpecDigest intent);
  t ← operation_now;
  checked (operationStatus o OperationPhaseRunning
             (fun s => add_aost_Transition s (journaled server step digest intent t))).

(** After a completed Stop, Start can only follow that exact attributable
    step; any other step starts from the planned server. *)
Definition step_allowed (o : ArcadeOperation) (server : GameServer) (transition : OperationServerTransition)
    (intent : GameServerSpec) (planned : ExactGameServerReference) (data : option RetainedDataReference) : bool :=
  if ost_Step transition == "Start" then
    match operationTransition o "Stop" with
    | None => false
    | Some stop =>
        operationTransitionApplied o server stop (with_desired_state intent DesiredStateStopped) &&
        operationRuntimeObserved server DesiredStateStopped data
    end
  else (gs_Generation server == gsr_Generation planned) &&
       (gs_DesiredState (gs_Spec server) == gsr_DesiredState planned).

Definition intent_journaled (transition : OperationServerTransition) (intent : GameServerSpec) : bool :=
  match SpecDigest intent with
  | Err _ => false
  | Ok want => (want == ost_SpecDigest transition) && (ost_DesiredState transition == gs_DesiredState intent)
  end.

(** Returns the server as it is afterwards. *)
Definition applyOperationTransition (o : ArcadeOperation) (server : GameServer) (transition : OperationServerTransition)
    (intent : GameServerSpec) (planned : ExactGameServerReference) (data : option RetainedDataReference) : op GameServer :=
  _ ⇐ reject (negb (intent_journaled transition intent)) "receipt_invalid";
  if operationTransitionApplied o server transition intent then yields server
  else
    _ ⇐ reject ((gs_Generation server != ost_FromGeneration transition) ||
                negb (step_allowed o server transition intent planned data)) "target_changed";
    patchOperationObject KGameServer server (transition_patches o server transition intent).

(** A server that is not there yet: guidance once it failed or is slow. *)
Definition await_runtime (o : ArcadeOperation) (server : GameServer) : op unit :=
  slow ← (if gss_Phase (gs_Status server) == PhaseFailed then Ret true else operationObservationSlow o);
  if (slow : bool) then checked (operationProgressGuidance o "api_unavailable") else yields tt.

(** *** Creation *)

Definition created_by (o : ArcadeOperation) (digest : string) (intent : GameServerSpec) : GameServer :=
  MkGameServer
    (MkObjectMeta (rq_ServerName (ao_Request o)) (ao_Namespace o) "" 0 "" 0 None []
       (<[operationReceiptUIDLabel := ao_UID o]> ∅)
       (<[operationReceiptNameAnnotation := ao_Name o]> (<[operationStepAnnotation := "Create"]>
         (<[operationSpecDigestAnnotation := digest]> ∅))) [])
    intent (MkGameServerStatus 0 None None PhaseUnset [] []).

Definition first_generation (o : ArcadeOperation) (server : GameServer) (digest : string) (intent : GameServerSpec) :
    bool :=
  (server_UID server != "") && (len (om_OwnerReferences (gs_meta server)) == 0%Z) && negb (deleting (gs_meta server)) &&
  (gs_Generation server == 1%Z) && (server_label server operationReceiptUIDLabel == ao_UID o) &&
  (server_annotation server operationReceiptNameAnnotation == ao_Name o) &&
  (server_annotation server operationStepAnnotation == "Create") &&
  (server_annotation server operationSpecDigestAnnotation == digest) && operationSpecsEqual (gs_Spec server) intent.

Definition recorded_child (child : OperationChildReference) (kind : string) (m : ObjectMeta) : bool :=
  (och_Kind child == kind) && (ref_Name (och_ref child) == om_Name m) && (ref_UID (och_ref child) == om_UID m).
Definition child_reference (kind : string) (m : ObjectMeta) : OperationChildReference :=
  MkChildReference kind (MkRef None (om_Name m) (om_UID m)) (om_Generation m).

Definition observe_created (o : ArcadeOperation) (plan : OperationPlan) (server : GameServer) (intent : GameServerSpec)
    (identity : string) : op unit :=
  data ← operationServerData r server;
  match data with
  | inl (Issue code) => if code == "invalid_reference" then await_runtime o server else refuse code
  | inl e => Ret (inl e)
  | inr data =>
      _ ⇐ reject ((rdr_Identity data != identity) ||
                  match op_Data plan with Some planned => negb (sameDataSelection (Some data) (Some planned)) | None => false end)
            "target_changed";
      if operationRuntimeObserved server (gs_DesiredState intent) (Some data)
      then checked (operationStatus o OperationPhaseSucceeded id)
      else await_runtime o server
  end.

Definition follow_created (o : ArcadeOperation) (plan : OperationPlan) (server : GameServer) (intent : GameServerSpec) :
    op unit :=
  match aost_Child (ao_Status o) with
  | None => checked (operationStatus o OperationPhaseRunning
                       (fun s => set_aost_Child s (child_reference "GameServer" (gs_meta server))))
  | Some child =>
      _ ⇐ reject (negb (recorded_child child "GameServer" (gs_meta server)) ||
                  (och_Generation child != gs_Generation server)) "child_changed";
      own ⇐ or_issue "receipt_invalid" (DataIdentity (server_UID server));
      let identity := match op_Data plan with Some data => rdr_Identity data | None => own end in
      _ ⇐ acquireOperationLease o (server_Name server) identity;
      observe_created o plan server intent identity
  end.

Definition reconcileOperationCreate (o : ArcadeOperation) (plan : OperationPlan) (frozen : OperationServerIntent) :
    op unit :=
  intent ⇐ or_issue "receipt_invalid" (ServerSpec frozen);
  digest ⇐ or_issue "receipt_invalid" (SpecDigest intent);
  let name := rq_ServerName (ao_Request o) in
  existing ← operation_get r KGameServer (ao_Namespace o) name;
  match existing with
  | inl NotFound =>
      _ ⇐ reject (present (aost_Child (ao_Status o))) "child_changed";
      _ ⇐ match op_Data plan with
          | Some data => acquireOperationLease o name (rdr_Identity data)
          | None => yields tt
          end;
      api_create KGameServer (created_by o digest intent)
  | inl e => Ret (inl (api_failure e))
  | inr server =>
      _ ⇐ reject (negb (first_generation o server digest intent)) "child_changed";
      follow_created o plan server intent
  end.

(** *** An existing server *)

(** A decommission whose server was stopped: its deletion may be under way. *)
Definition retired (o : ArcadeOperation) : bool :=
  (ao_Action o == OperationServerDecommission) && present (aost_RetainedWorld (ao_Status o)) &&
  (0 <? len (aost_Transitions (ao_Status o)))%Z.

(** The step to take, with the specification it writes. *)
Definition stops_first (action : ArcadeOperationAction) : bool :=
  (action == OperationServerRestart) || (action == OperationServerDecommission).
Definition next_step (o : ArcadeOperation) (intent : GameServerSpec) : string * GameServerSpec :=
  if (ao_Action o == OperationServerRestart) && present (operationTransition o "Start")
  then ("Start", with_desired_state intent DesiredStateRunning)
  else if stops_first (ao_Action o) then ("Stop", with_desired_state intent DesiredStateStopped)
  else ("Apply", intent).

Definition settle_step (o : ArcadeOperation) (server : GameServer) (step : string) (intent : GameServerSpec) : op unit :=
  if (ao_Action o == OperationServerRestart) && (step == "Stop")
  then journalOperationTransition o server "Start" (with_desired_state intent DesiredStateRunning)
  else if ao_Action o == OperationServerDecommission then
    _ ⇐ reject (negb (present (aost_RetainedWorld (ao_Status o)))) "receipt_invalid";
    api_call (ApiDelete KGameServer server (exact_delete (gs_meta server)))
  else checked (operationStatus o OperationPhaseSucceeded id).

Definition take_step (o : ArcadeOperation) (server : GameServer) (planned : ExactGameServerReference)
    (data : option RetainedDataReference) (step : string) (intent : GameServerSpec) : op unit :=
  match operationTransition o step with
  | None =>
      _ ⇐ reject (negb (operationExactServer server (Some planned))) "target_changed";
      journalOperationTransition o server step intent
  | Some transition =>
      server ⇐ applyOperationTransition o server transition intent planned data;
      if negb (operationTransitionApplied o server transition intent) then yields tt
      else if negb (operationRuntimeObserved server (gs_DesiredState intent) data) then await_runtime o server
      else settle_step o server step intent
  end.

Definition change_server (o : ArcadeOperation) (server : GameServer) (planned : ExactGameServerReference)
    (plannedData : RetainedDataReference) (frozen : OperationServerIntent) : op unit :=
  data ⇐ operationServerData r server;
  _ ⇐ reject (negb (sameDataSelection (Some data) (Some plannedData))) "target_changed";
  _ ⇐ acquireOperationLease o (server_Name server) (rdr_Identity data);
  intent ⇐ or_issue "receipt_invalid" (ServerSpec frozen);
  let '(step, intent) := next_step o intent in
  take_step o server planned (Some plannedData) step intent.

Definition reconcileOperationServer (o : ArcadeOperation) (plan : OperationPlan) : op unit :=
  match op_ServerIntent plan with
  | None => refuse "receipt_invalid"
  | Some frozen =>
      if ao_Action o == OperationServerCreate then reconcileOperationCreate o plan frozen
      else match op_Server plan, op_Data plan with
      | Some planned, Some data =>
          existing ← operation_get r KGameServer (ao_Namespace o) (gsr_Name planned);
          let gone := match existing with
                      | inl e => IsNotFound e
                      | inr server => server_UID server != gsr_UID planned
                      end in
          if retired o && gone then checked (operationStatus o OperationPhaseSucceeded id)
          else match existing with
          | inl NotFound => refuse "target_changed"
          | inl e => Ret (inl (api_failure e))
          | inr server =>
              _ ⇐ reject (server_UID server != gsr_UID planned) "target_changed";
              if deleting (gs_meta server)
              then if retired o then yields tt else refuse "target_changed"
              else change_server o server planned data frozen
          end
      | _, _ => refuse "receipt_invalid"
      end
  end.
End Servers.
