(* ===== verification/OperationData.v ===== *)
(** * The receipt controller: data operations ([internal/controller/arcadeoperation_data.go])

    A receipt for a backup, a restore or the preview of a destruction creates
    one native resource under a name derived from its own UID, never owns it
    and never adopts another, and mirrors what that resource reports.  A
    confirmation or a cancellation changes an existing [GameDestroy] by one
    patch that tests its UID and resource version.

    [r.Get] of a native child fills a copy of the child the receipt wants;
    the object the code then looks at is the one that copy became, and it is
    what a read answers here. *)

From Stdlib Require Import Ascii.
From stdpp Require Import base tactics list strings gmap numbers.
From S2P Require Import Prelude GoStrings K8s ApiTypes DataOperation Receipts Operations GameDefinition KubeObjects KubePlan KubeApi WorkerInput OperationDigest KubeDestroy WorkerPods OperationFence ServerStatus ServerController DestroyController OperationStatus OperationPlanning OperationServer.
Open Scope string_scope.
Open Scope list_scope.
Open Scope operation_scope.

Definition operationConfirmAnnotation := "arcade.gobha.me/operation-confirm-uid".
Definition operationCancelAnnotation := "arcade.gobha.me/operation-cancel-uid".

(** ** The native child *)

(** A [client.Object] that is one of the three native resources. *)
Inductive native_child :=
| ChildBackup (b : GameBackup) | ChildRestore (g : GameRestore) | ChildDestroy (d : GameDestroy).
Definition child_meta (c : native_child) : ObjectMeta :=
  match c with ChildBackup b => gb_meta b | ChildRestore g => gr_meta g | ChildDestroy d => gd_meta d end.
Definition operationChildKind (c : native_child) : string :=
  match c with ChildBackup _ => "GameBackup" | ChildRestore _ => "GameRestore" | ChildDestroy _ => "GameDestroy" end.

Definition native_meta (o : ArcadeOperation) (kind : string) : ObjectMeta :=
  MkObjectMeta (ChildName (ao_UID o) kind) (ao_Namespace o) "" 0 "" 0 None []
    (<[operationReceiptUIDLabel := ao_UID o]> ∅) (<[operationReceiptNameAnnotation := ao_Name o]> ∅) [].
Definition new_data_request (secret : ExactSecretReference) (policy : RestartPolicy) : DataOperationRequest :=
  MkDataRequest None secret policy false.
Definition new_data_status : DataOperationStatus := MkDataStatus 0 DataPhaseUnset 0 None None [] None None None None.
Definition new_destroy_status : GameDestroyStatus := MkGameDestroyStatus 0 DestroyPhaseUnset None None [] None None [].

Definition wanted_backup (o : ArcadeOperation) (server : ExactGameServerReference) (data : RetainedDataReference)
    (secret : ExactSecretReference) (policy : RestartPolicy) : GameBackup :=
  MkGameBackup (native_meta o "GameBackup")
    (MkGameBackupSpec (new_data_request secret policy) server (Some data) "Retain") new_data_status.
Definition wanted_restore (o : ArcadeOperation) (server : ExactGameServerReference) (data : RetainedDataReference)
    (secret : ExactSecretReference) (backup : ExactLocalReference) (policy : RestartPolicy) : GameRestore :=
  MkGameRestore (native_meta o "GameRestore")
    (MkGameRestoreSpec (new_data_request secret policy) backup server (Some data))
    (MkGameRestoreStatus new_data_status 0 false "" "" None None None None [] [] []).
Definition wanted_destroy (o : ArcadeOperation) (world : OperationRetainedWorld) (secret : ExactSecretReference)
    (backup : ExactLocalReference) : GameDestroy :=
  MkGameDestroy (native_meta o "GameDestroy")
    (MkGameDestroySpec (orw_Target world) DestroyModeVerifiedBackup (Some backup) (Some secret) "" "" false)
    new_destroy_status.

Definition wanted_child (o : ArcadeOperation) (plan : OperationPlan) : op native_child :=
  match op_Server plan, op_Data plan, op_RepositorySecretRef plan with
  | Some server, Some data, Some secret =>
      match ao_Action o with
      | OperationWorldBackup =>
          input ⇐ deref (rq_Backup (ao_Request o));
          yields (ChildBackup (wanted_backup o server data secret (bi_RestartPolicy input)))
      | OperationWorldRestore =>
          match op_BackupRef plan with
          | None => refuse "receipt_invalid"
          | Some backup =>
              input ⇐ deref (rq_Restore (ao_Request o));
              yields (ChildRestore (wanted_restore o server data secret backup (ri_RestartPolicy input)))
          end
      | OperationWorldDestroyPreview =>
          match op_BackupRef plan, aost_RetainedWorld (ao_Status o) with
          | Some backup, Some world => yields (ChildDestroy (wanted_destroy o world secret backup))
          | _, _ => refuse "receipt_invalid"
          end
      | _ => refuse "invalid_request"
      end
  | _, _, _ => refuse "receipt_invalid"
  end.

(** [equality.Semantic.DeepEqual] of the specifications; a destroy is compared
    before it was confirmed or cancelled. *)
Definition unconfirmed (s : GameDestroySpec) : GameDestroySpec :=
  MkGameDestroySpec (gd_Target s) (gd_Mode s) (gd_BackupRef s) (gd_RepositorySecretRef s) (gd_UnsafeReason s) "" false.
Definition operationChildSpecMatches (want got : native_child) : bool :=
  match want, got with
  | ChildBackup expected, ChildBackup actual => gb_Spec expected == gb_Spec actual
  | ChildRestore expected, ChildRestore actual => gr_Spec expected == gr_Spec actual
  | ChildDestroy expected, ChildDestroy actual => gd_Spec expected == unconfirmed (gd_Spec actual)
  | _, _ => false
  end.

Section Data.
Context `{RegexpEngine} `{NameValidation} `{JsonSchema} `{QuantityText} `{FindConditions}.
Variable r : ArcadeOperationReconciler.

Definition get_as {A} (k : kind A) (into : A -> native_child) (m : ObjectMeta) : prog (apierr + native_child) :=
  x ← operation_get r k (om_Namespace m) (om_Name m);
  Ret (match x with inl e => inl e | inr a => inr (into a) end).
(** A typed read or creation: the kind is the wanted child's. *)
Definition read_child (want : native_child) : prog (apierr + native_child) :=
  match want with
  | ChildBackup b => get_as KGameBackup ChildBackup (gb_meta b)
  | ChildRestore g => get_as KGameRestore ChildRestore (gr_meta g)
  | ChildDestroy d => get_as KGameDestroy ChildDestroy (gd_meta d)
  end.
Definition create_child (want : native_child) : op unit :=
  match want with
  | ChildBackup b => api_create KGameBackup b
  | ChildRestore g => api_create KGameRestore g
  | ChildDestroy d => api_create KGameDestroy d
  end.

Definition child_ours (o : ArcadeOperation) (want actual : native_child) : bool :=
  let m := child_meta actual in
  (om_UID m != "") && (len (om_OwnerReferences m) == 0%Z) && negb (deleting m) &&
  (mget (om_Labels m) operationReceiptUIDLabel == ao_UID o) &&
  (mget (om_Annotations m) operationReceiptNameAnnotation == ao_Name o) && operationChildSpecMatches want actual.

(** *** Mirrors *)

Definition blocked_code (conditions : list Condition) : string :=
  fold_left (fun code c =>
    let code := if cond_Reason c == ReasonOperationConflict then "operation_conflict" else code in
    if cond_Reason c == ReasonSecretUnavailable then "secret_unavailable" else code)
    conditions "invalid_reference".
Definition refused_verification (conditions : list Condition) : bool :=
  match FindStatusCondition conditions ConditionOperationComplete with
  | Some complete => cond_Reason complete == ReasonVerificationFailed
  | None => false
  end.

Definition mirror_phase (o : ArcadeOperation) (phase : ArcadeOperationPhase) : op unit :=
  if (ao_Phase o == phase) && (aost_Failure (ao_Status o) == None) then yields tt
  else checked (operationStatus o phase (fun s => set_aost_Failure s None)).

Definition mirrorDataOperation (o : ArcadeOperation) (status : DataOperationStatus) (generation : Z) : op unit :=
  if ds_ObservedGeneration status != generation then
    quiet ← (if (ds_ObservedGeneration status == 0%Z) && (ds_Phase status == DataPhaseUnset)
             then slow ← operationObservationSlow o; Ret (negb slow)
             else Ret false);
    if (quiet : bool) then yields tt else checked (operationProgressGuidance o "api_unavailable")
  else
    match ds_Phase status with
    | DataPhaseBlocked => checked (operationProgressGuidance o (blocked_code (ds_Conditions status)))
    | DataPhaseSucceeded => mirror_phase o OperationPhaseSucceeded
    | DataPhaseCancelled => mirror_phase o OperationPhaseCancelled
    | DataPhaseFailed =>
        refuse (if refused_verification (ds_Conditions status) then "verification_failed" else "worker_failed")
    | DataPhaseVerifying => mirror_phase o OperationPhaseVerifying
    | _ => mirror_phase o OperationPhaseRunning
    end.

Definition destroy_phase (phase : GameDestroyPhase) : ArcadeOperationPhase :=
  match phase with
  | DestroyPhasePreview => OperationPhaseAwaitingConfirmation
  | DestroyPhaseVerifying => OperationPhaseVerifying
  | DestroyPhaseDeleting => OperationPhaseDeleting
  | DestroyPhaseSucceeded => OperationPhaseSucceeded
  | DestroyPhaseCancelled => OperationPhaseCancelled
  | _ => OperationPhaseRunning
  end.
(** A running receipt that shows no preview. *)
Definition unpreviewed (o : ArcadeOperation) : bool :=
  (ao_Phase o == OperationPhaseRunning) && (aost_DestroyPreview (ao_Status o) == None).
Definition guided (o : ArcadeOperation) : bool :=
  match aost_Failure (ao_Status o) with Some f => (of_Code f == "api_unavailable") && of_Retryable f | None => false end.
Definition mirror_write (o : ArcadeOperation) (phase : ArcadeOperationPhase) (preview : option GameDestroyPreview)
    (failure : option OperationFailure) : op unit :=
  checked (operationStatus o phase (fun s => set_aost_Failure (set_aost_DestroyPreview s preview) failure)).

Definition mirrorDestroyOperation (o : ArcadeOperation) (destroy : GameDestroy) : op unit :=
  let status := gd_Status destroy in
  if gds_ObservedGeneration status != om_Generation (gd_meta destroy) then
    quiet ← (if (gds_ObservedGeneration status == 0%Z) && (gds_Phase status == DestroyPhaseUnset)
             then slow ← operationObservationSlow o; Ret (negb slow)
             else Ret false);
    if (quiet : bool) then
      if unpreviewed o && (aost_Failure (ao_Status o) == None) then yields tt
      else mirror_write o OperationPhaseRunning None None
    else if unpreviewed o && guided o then yields tt
    else mirror_write o OperationPhaseRunning None (Some (retryable (operationFailure "api_unavailable")))
  else if gds_Phase status == DestroyPhaseFailed then
    refuse (if refused_verification (gds_Conditions status) then "verification_failed" else "invalid_reference")
  else
    let phase := destroy_phase (gds_Phase status) in
    if (ao_Phase o == phase) && (aost_Failure (ao_Status o) == None) &&
       (aost_DestroyPreview (ao_Status o) == gds_Preview status)
    then yields tt
    else mirror_write o phase (gds_Preview status) None.

Definition mirror_child (o : ArcadeOperation) (actual : native_child) : op unit :=
  match actual with
  | ChildBackup b => mirrorDataOperation o (gb_Status b) (gb_Generation b)
  | ChildRestore g => mirrorDataOperation o (rs_DataOperationStatus (gr_Status g)) (gr_Generation g)
  | ChildDestroy d => mirrorDestroyOperation o d
  end.

(** *** Confirmation and cancellation *)

Definition confirm_patches (o : ArcadeOperation) (destroy : GameDestroy) (challenge : string) : list operationJSONPatch :=
  [MkJSONPatch "add" "/metadata/annotations"
     (PatchMap (<[operationConfirmAnnotation := ao_UID o]> (om_Annotations (gd_meta destroy))));
   MkJSONPatch "add" "/spec/confirmationChallenge" (PatchText challenge)].
Definition cancel_patches (o : ArcadeOperation) (destroy : GameDestroy) : list operationJSONPatch :=
  [MkJSONPatch "add" "/metadata/annotations"
     (PatchMap (<[operationCancelAnnotation := ao_UID o]> (om_Annotations (gd_meta destroy))));
   MkJSONPatch "add" "/spec/cancelRequested" (PatchBool true)].

Definition destroy_begun (destroy : GameDestroy) : bool := (0 <? len (gds_DeletionJournal (gd_Status destroy)))%Z.

Definition cancel_destroy (o : ArcadeOperation) (destroy : GameDestroy) : op unit :=
  let phase := gds_Phase (gd_Status destroy) in
  if gd_CancelRequested (gd_Spec destroy) && (destroy_annotation destroy operationCancelAnnotation == ao_UID o) then
    if phase == DestroyPhaseCancelled then checked (operationStatus o OperationPhaseSucceeded id)
    else reject (destroy_begun destroy || destroyTerminal phase) "too_late"
  else
    _ ⇐ reject (destroyTerminal phase || (phase == DestroyPhaseDeleting) || destroy_begun destroy ||
                gd_CancelRequested (gd_Spec destroy)) "too_late";
    _ ⇐ patchOperationObject KGameDestroy destroy (cancel_patches o destroy); yields tt.

Definition confirm_destroy (o : ArcadeOperation) (destroy : GameDestroy) (command : OperationDestroyCommand) : op unit :=
  let phase := gds_Phase (gd_Status destroy) in
  if (gd_ConfirmationChallenge (gd_Spec destroy) == dc_Challenge command) &&
     (destroy_annotation destroy operationConfirmAnnotation == ao_UID o) then
    _ ⇐ reject ((phase == DestroyPhaseFailed) || (phase == DestroyPhaseCancelled)) "too_late";
    checked (operationStatus o OperationPhaseSucceeded id)
  else
    _ ⇐ reject (gd_CancelRequested (gd_Spec destroy) || destroyTerminal phase || (phase != DestroyPhasePreview) ||
                destroy_begun destroy || (gd_ConfirmationChallenge (gd_Spec destroy) != "")) "too_late";
    match gds_Preview (gd_Status destroy) with
    | None => refuse "invalid_request"
    | Some preview =>
        _ ⇐ reject (dc_Challenge command != pv_Challenge preview) "invalid_request";
        now ← operation_now;
        _ ⇐ reject (negb (now <? pv_ExpiresAt preview)%Z) "confirmation_expired";
        _ ⇐ patchOperationObject KGameDestroy destroy (confirm_patches o destroy (dc_Challenge command)); yields tt
    end.

Definition reconcileDestroyCommand (o : ArcadeOperation) (plan : OperationPlan) : op unit :=
  objects ⇐ operationDestroyCommandObjects r o;
  let '(_, _, destroy) := objects in
  command ⇐ deref (rq_DestroyCommand (ao_Request o));
  _ ⇐ reject (op_DestroyRef plan != Some (dc_DestroyRef command)) "receipt_invalid";
  match aost_Child (ao_Status o) with
  | None => checked (operationStatus o OperationPhaseRunning
              (fun s => set_aost_Child s (MkChildReference "GameDestroy" (dc_DestroyRef command) (om_Generation (gd_meta destroy)))))
  | Some child =>
      _ ⇐ reject (negb (recorded_child child "GameDestroy" (gd_meta destroy))) "child_changed";
      if gds_ObservedGeneration (gd_Status destroy) != om_Generation (gd_meta destroy)
      then checked (operationProgressGuidance o "api_unavailable")
      else if ao_Action o == OperationWorldDestroyCancel then cancel_destroy o destroy
      else if ao_Action o != OperationWorldDestroyConfirm then refuse "invalid_request"
      else confirm_destroy o destroy command
  end.

(** *** reconcileOperationData *)

Definition child_changed (child : OperationChildReference) (kind : string) (actual : native_child) : bool :=
  let m := child_meta actual in
  negb (recorded_child child kind m) || ((kind != "GameDestroy") && (och_Generation child != om_Generation m)) ||
  (om_Generation m <? och_Generation child)%Z.

Definition follow_child (o : ArcadeOperation) (want actual : native_child) : op unit :=
  _ ⇐ reject (negb (child_ours o want actual)) "child_changed";
  match aost_Child (ao_Status o) with
  | None =>
      _ ⇐ reject (om_Generation (child_meta actual) != 1%Z) "child_changed";
      checked (operationStatus o OperationPhaseRunning
                 (fun s => set_aost_Child s (child_reference (operationChildKind want) (child_meta actual))))
  | Some child =>
      _ ⇐ reject (child_changed child (operationChildKind want) actual) "child_changed";
      mirror_child o actual
  end.

Definition reconcileOperationData (o : ArcadeOperation) (plan : OperationPlan) : op unit :=
  if present (rq_DestroyCommand (ao_Request o)) then reconcileDestroyCommand o plan
  else
    want ⇐ wanted_child o plan;
    existing ← read_child want;
    match existing with
    | inl NotFound =>
        _ ⇐ reject (present (aost_Child (ao_Status o))) "child_changed";
        create_child want
    | inl e => Ret (inl (api_failure e))
    | inr actual => follow_child o want actual
    end.
End Data.
