(* ===== verification/OperationController.v ===== *)
(** * The receipt controller: one pass ([arcadeoperation_controller.go], [Reconcile])

    A pass releases the fence of a receipt that ended or is deleted, accepts a
    valid one, protects it with a finalizer, freezes its plan, and then drives
    its server or its native child by one write at a time. *)

From Stdlib Require Import Ascii.
From stdpp Require Import base tactics list strings gmap numbers.
From S2P Require Import Prelude GoStrings K8s ApiTypes DataOperation Receipts Operations GameDefinition KubeObjects KubePlan KubeApi WorkerInput OperationDigest KubeDestroy WorkerPods OperationFence ServerStatus ServerController OperationStatus OperationPlanning OperationServer OperationData.
Open Scope string_scope.
Open Scope list_scope.
Open Scope operation_scope.

Section Controller.
Context `{RegexpEngine} `{NameValidation} `{JsonSchema} `{QuantityText} `{FindConditions}.
Variable r : ArcadeOperationReconciler.

Definition removeOperationFinalizer (o : ArcadeOperation) : prog (option cerror) :=
  if negb (containsOperationFinalizer o) then Ret None
  else
    let m := ao_meta o in
    e ← call (ApiUpdate KArcadeOperation (with_receipt_meta o
          (with_finalizers m (List.filter (fun f => f != operationFinalizer) (om_Finalizers m)))));
    Ret (match e with Some _ => Some (go_error "release operation finalizer failed") | None => None end).

Definition conclude (o : ArcadeOperation) : prog outcome :=
  released ← releaseOperationLease r o;
  match released with
  | inl _ => Ret (operationRetry, Some (go_error "release exact operation fence failed"))
  | inr _ => e ← removeOperationFinalizer o; Ret (no_requeue, e)
  end.

Definition protect (o : ArcadeOperation) : prog outcome :=
  let m := ao_meta o in
  e ← call (ApiUpdate KArcadeOperation (with_receipt_meta o (with_finalizers m (om_Finalizers m ++ [operationFinalizer]))));
  Ret (operationRetry, match e with Some _ => Some (go_error "protect operation fence failed") | None => None end).

Definition freeze_plan (o : ArcadeOperation) : prog outcome :=
  planned ← planOperation r o;
  match planned with
  | inl e => operationResultError o e
  | inr (plan, retained) =>
      e ← operationStatus o OperationPhasePlanning (fun s => set_aost_Plan s plan retained);
      Ret (operationRetry, e)
  end.

Definition drive (o : ArcadeOperation) (plan : OperationPlan) : prog outcome :=
  x ← (if operationServerAction (ao_Action o) then reconcileOperationServer r o plan
       else reconcileOperationData r o plan);
  match x with
  | inl e => operationResultError o e
  | inr _ => Ret (operationRetry, None)
  end.

Definition request_refused (o : ArcadeOperation) : bool :=
  (ao_UID o == "") || (aos_Version (ao_Spec o) != "v1") || negb (is_ok (ValidateRequest (ao_Action o) (ao_Request o))).

Definition reconcile_operation (o : ArcadeOperation) : prog outcome :=
  if deleting (ao_meta o) || operationTerminal (ao_Phase o) then conclude o
  else if request_refused o then failOperation o "invalid_request"
  else if ao_Phase o == OperationPhaseUnset then
    e ← operationStatus o OperationPhaseAccepted id; Ret (operationRetry, e)
  else if operationServerAction (ao_Action o) && negb (containsOperationFinalizer o) then protect o
  else match aost_Plan (ao_Status o) with
  | None => freeze_plan o
  | Some plan => drive o plan
  end.

Definition Operation_Reconcile (req : NamespacedName) : prog outcome :=
  o ← call (ApiGet KArcadeOperation (operation_reader r) req);
  match o with
  | inl NotFound => Ret (no_requeue, None)
  | inl e => Ret (no_requeue, Some (FromApi e))
  | inr o => reconcile_operation o
  end.
End Controller.
