(* ===== verification/OperationMachine.v ===== *)
(** * The receipt controller as an abstract machine

    [op_write o es e] says when a pass over the receipt [o], after the events
    [es], may make the write [e]: what it read, what the receipt had frozen
    and what it journals.  [journal] lists the changes of the journal with
    their evidence.  [OperationParts] proves that the controller refines this
    machine, and [OperationSafety] reads its properties off it. *)

From Stdlib Require Import Ascii.
From stdpp Require Import base tactics list strings gmap numbers.
From S2P Require Import Prelude GoStrings K8s ApiTypes DataOperation Receipts Operations GameDefinition KubeObjects KubePlan KubeApi TraceLogic WorkerInput OperationDigest KubeDestroy WorkerPods OperationFence ServerStatus ServerController DestroyController OperationStatus OperationPlanning OperationServer OperationData OperationController.
Open Scope string_scope.
Open Scope list_scope.
Open Scope operation_scope.

(** ** Executions of the error monad *)

Lemma steps_op_bind {A B} (p : op A) (k : A -> op B) es b : steps (op_bind p k) es (inr b) ->
  exists es1 es2 a, es = es1 ++ es2 /\ steps p es1 (inr a) /\ steps (k a) es2 (inr b).
Proof.
  unfold op_bind. intros (es1 & es2 & [e|a] & -> & H1 & H2)%steps_bind; [by destruct H2|]. by exists es1, es2, a.
Qed.
Lemma steps_reject b code es : steps (reject b code) es (inr tt) -> es = [] /\ b = false.
Proof. unfold reject. destruct b; intros [-> E]; [discriminate E | done]. Qed.
Lemma steps_or_issue {A} code (x : result A) es a : steps (or_issue code x) es (inr a) -> es = [] /\ x = Ok a.
Proof. unfold or_issue. destruct x; intros [-> E]; [by injection E as -> | discriminate E]. Qed.
Lemma steps_deref {A} (x : option A) es a : steps (deref x) es (inr a) -> es = [] /\ x = Some a.
Proof. unfold deref. destruct x; intros [-> E]; [by injection E as -> | discriminate E]. Qed.
Lemma steps_checked p es : steps (checked p) es (inr tt) -> steps p es None.
Proof.
  unfold checked. intros (es1 & es2 & [e|] & -> & H1 & [-> E])%steps_bind; [discriminate E|]. by rewrite app_nil_r.
Qed.

(** [op_walk] opens a successful execution of the error monad. *)
Ltac op_walk_step H :=
  match type of H with
  | steps (op_bind (reject _ _) _) _ (inr _) =>
      let E := fresh "Hok" in apply steps_op_bind in H; destruct H as (? & ? & [] & -> & E & H);
      apply steps_reject in E; destruct E as [-> E]
  | steps (op_bind (or_issue _ _) _) _ (inr _) =>
      let E := fresh "Hok" in apply steps_op_bind in H; destruct H as (? & ? & ? & -> & E & H);
      apply steps_or_issue in E; destruct E as [-> E]
  | steps (op_bind (deref _) _) _ (inr _) =>
      let E := fresh "Hok" in apply steps_op_bind in H; destruct H as (? & ? & ? & -> & E & H);
      apply steps_deref in E; destruct E as [-> E]
  | steps (op_bind _ _) _ (inr _) =>
      let E := fresh "Hrun" in apply steps_op_bind in H; destruct H as (? & ? & ? & -> & E & H)
  | steps (yields _) _ _ => destruct H as [-> H]
  | steps (refuse _) _ (inr _) => destruct H as [_ H]; discriminate H
  | steps (Ret _) _ _ => destruct H as [-> H]
  end.
Ltac op_walk H := repeat (op_walk_step H; simplify_eq).

(** [op_reads] proves that a program of the error monad only reads. *)
Lemma emits_op_bind {A B} P (p : op A) (k : A -> op B) :
  emits P p -> (forall a, emits P (k a)) -> emits P (op_bind p k).
Proof. intros Hp Hk. apply emits_bind; [done|]. intros [e|a]; [apply emits_ret | apply Hk]. Qed.
Ltac op_emits_step :=
  match goal with
  | |- emits _ (op_bind _ _) => apply emits_op_bind; [|intros ?]
  | |- emits _ (yields _) => apply emits_ret
  | |- emits _ (refuse _) => apply emits_ret
  | |- emits _ (reject ?b _) => unfold reject; destruct b
  | |- emits _ (or_issue _ ?x) => unfold or_issue; destruct x
  | |- emits _ (deref _) => apply emits_ret
  | |- emits _ (operationReference _ _ _ _ _) => unfold operationReference, operation_get
  | |- emits _ (operation_get _ _ _ _) => unfold operation_get
  | |- emits _ operation_now => unfold operation_now
  | |- emits _ (let '(_, _) := ?x in _) => destruct x
  | |- _ => emits_step
  end.
Ltac op_reads := unfold reads_only; repeat op_emits_step; try done.

(** ** Changes of the journal *)

Inductive change :=
| CNone | CFailure (f : option OperationFailure) | CPlan (plan : OperationPlan) (world : option OperationRetainedWorld)
| CChild (child : OperationChildReference) | CStep (t : OperationServerTransition)
| CMirror (preview : option GameDestroyPreview) (f : option OperationFailure).
Definition apply_change (c : change) (s : ArcadeOperationStatus) : ArcadeOperationStatus :=
  match c with
  | CNone => s
  | CFailure f => set_aost_Failure s f
  | CPlan plan world => set_aost_Plan s plan world
  | CChild child => set_aost_Child s child
  | CStep t => add_aost_Transition s t
  | CMirror preview f => set_aost_Failure (set_aost_DestroyPreview s preview) f
  end.

(** The codes of [OperationFailure] (its [Enum] in [arcadeoperation_types.go]). *)
Definition failure_codes : list string :=
  ["invalid_request"; "target_changed"; "operation_conflict"; "invalid_reference"; "secret_unavailable"; "unsupported";
   "image_unavailable"; "validation_failed"; "worker_failed"; "verification_failed"; "too_late";
   "confirmation_expired"; "child_changed"; "api_unavailable"; "receipt_invalid"].

(** The specification a step writes, of the frozen one. *)
Definition step_intent (step : string) (spec : GameServerSpec) : GameServerSpec :=
  if step == "Stop" then with_desired_state spec DesiredStateStopped
  else if step == "Start" then with_desired_state spec DesiredStateRunning
  else spec.
(** The steps of an action. *)
Definition step_of (action : ArcadeOperationAction) (step : string) : Prop :=
  match action with
  | OperationServerRestart => step = "Stop" \/ step = "Start"
  | OperationServerDecommission => step = "Stop"
  | _ => step = "Apply"
  end.

Lemma next_step_of o spec step intent : next_step o spec = (step, intent) ->
  step_of (ao_Action o) step /\ intent = step_intent step spec.
Proof.
  unfold next_step, stops_first. intros E.
  destruct (ao_Action o); eval_bools; try destruct (present _); injection E as <- <-; cbn; auto.
Qed.

Section Machine.
Context `{RegexpEngine} `{NameValidation} `{JsonSchema} `{QuantityText} `{FindConditions}.
Variable r : ArcadeOperationReconciler.
Variable o : ArcadeOperation.
Local Abbreviation s := (ao_Status o).

Definition live : Prop := deleting (ao_meta o) = false /\ operationTerminal (ao_Phase o) = false.

(** *** Evidence *)

Definition answered {A} (k : kind A) (name : string) (x : apierr + A) (es : list event) : Prop :=
  Ev (ApiGet k (operation_reader r) (Key (ao_Namespace o) name)) x ∈ es.
#[export] Instance answered_grows {A} (k : kind A) n x : Grows (answered k n x).
Proof. unfold answered. grows_tac. Qed.

(** [p] returned [a] on calls that are on record. *)
Definition returned {A} (p : prog A) (a : A) (es : list event) : Prop := exists es', es' ⊆ es /\ steps p es' a.
#[export] Instance returned_grows {A} (p : prog A) a : Grows (returned p a).
Proof. intros es es' Hs (x & Hx & H'). exists x. split; [by transitivity es | done]. Qed.

(** The receipt holds the fence of a world. *)
Definition fenced (name identity : string) (es : list event) : Prop :=
  (exists lease, answered KLease (DataOperationLeaseName identity) (inr lease) es /\
     (operationLeaseMatches (Some lease) o name identity = true)) \/
  (exists t lease, answered KLease (DataOperationLeaseName identity) (inl NotFound) es /\
     (Ev (ApiCreate KLease (receipt_lease o name identity t)) (inr lease) ∈ es)).
#[export] Instance fenced_grows n i : Grows (fenced n i).
Proof. unfold fenced. grows_tac. Qed.

(** A server that is still the planned one, over the planned claims. *)
Definition same_target (plan : OperationPlan) (planned : ExactGameServerReference) (data found : RetainedDataReference)
    (server : GameServer) (es : list event) : Prop :=
  op_Server plan = Some planned /\ op_Data plan = Some data /\
  server_UID server = gsr_UID planned /\ deleting (gs_meta server) = false /\
  sameDataSelection (Some found) (Some data) = true /\
  answered KGameServer (gsr_Name planned) (inr server) es /\ returned (operationServerData r server) (inr found) es.
#[export] Instance same_target_grows p q d f v : Grows (same_target p q d f v).
Proof. unfold same_target. grows_tac. Qed.

(** The planned server, under the fence. *)
Definition held_server (plan : OperationPlan) (planned : ExactGameServerReference) (data : RetainedDataReference)
    (server : GameServer) (es : list event) : Prop :=
  exists found, same_target plan planned data found server es /\ fenced (server_Name server) (rdr_Identity found) es.
#[export] Instance held_server_grows p q d v : Grows (held_server p q d v).
Proof. unfold held_server. grows_tac. Qed.

(** The planned server, under the fence, as it was read or as the API answered
    the patch of this receipt that followed. *)
Definition current_server (plan : OperationPlan) (planned : ExactGameServerReference) (data : RetainedDataReference)
    (server : GameServer) (es : list event) : Prop :=
  held_server plan planned data server es \/
  exists read t intent, held_server plan planned data read es /\
    (Ev (ApiJSONPatch KGameServer read (exact_patches (gs_meta read) (transition_patches o read t intent))) (inr server)
       ∈ es).
#[export] Instance current_server_grows p q d v : Grows (current_server p q d v).
Proof. unfold current_server. grows_tac. Qed.

(** A step and the specification the plan froze for it. *)
Definition frozen_step (plan : OperationPlan) (step : string) (intent : GameServerSpec) : Prop :=
  operationServerAction (ao_Action o) = true /\ ao_Action o <> OperationServerCreate /\ step_of (ao_Action o) step /\
  exists frozen spec, op_ServerIntent plan = Some frozen /\ ServerSpec frozen = Ok spec /\ intent = step_intent step spec.

(** The step that was taken before this one may be journaled. *)
Definition step_ready (server : GameServer) (planned : ExactGameServerReference) (data : RetainedDataReference)
    (step : string) (spec : GameServerSpec) : Prop :=
  (step <> "Start" /\ operationExactServer server (Some planned) = true) \/
  (step = "Start" /\ exists stop, operationTransition o "Stop" = Some stop /\
     operationTransitionApplied o server stop (step_intent "Stop" spec) = true /\
     operationRuntimeObserved server DesiredStateStopped (Some data) = true).

(** A server the receipt created, at its first generation. *)
Definition created_as (plan : OperationPlan) (server : GameServer) (intent : GameServerSpec) (es : list event) : Prop :=
  ao_Action o = OperationServerCreate /\
  (exists frozen digest, op_ServerIntent plan = Some frozen /\ ServerSpec frozen = Ok intent /\
     SpecDigest intent = Ok digest /\ first_generation o server digest intent = true) /\
  answered KGameServer (rq_ServerName (ao_Request o)) (inr server) es.
#[export] Instance created_as_grows p v i : Grows (created_as p v i).
Proof. unfold created_as. grows_tac. Qed.
Definition own_identity (plan : OperationPlan) (server : GameServer) (identity : string) : Prop :=
  match op_Data plan with
  | Some data => identity = rdr_Identity data
  | None => DataIdentity (server_UID server) = Ok identity
  end.

(** A native child that answers to the receipt. *)
Definition native (plan : OperationPlan) (want actual : native_child) (es : list event) : Prop :=
  (operationServerAction (ao_Action o) = false /\ child_ours o want actual = true) /\
  returned (wanted_child o plan) (inr want) es /\ returned (read_child r want) (inr actual) es.
#[export] Instance native_grows p w a : Grows (native p w a).
Proof. unfold native. grows_tac. Qed.
Definition followed (plan : OperationPlan) (actual : native_child) (es : list event) : Prop :=
  exists want, native plan want actual es /\
    (exists child, aost_Child s = Some child /\ child_changed child (operationChildKind want) actual = false).
#[export] Instance followed_grows p a : Grows (followed p a).
Proof. unfold followed. grows_tac. Qed.

(** The destruction that a command is about. *)
Definition commanded (plan : OperationPlan) (command : OperationDestroyCommand) (destroy : GameDestroy) (es : list event) :
    Prop :=
  rq_DestroyCommand (ao_Request o) = Some command /\ op_DestroyRef plan = Some (dc_DestroyRef command) /\
  exists parent frozen, returned (operationDestroyCommandObjects r o) (inr (parent, frozen, destroy)) es.
#[export] Instance commanded_grows p c d : Grows (commanded p c d).
Proof. unfold commanded. grows_tac. Qed.

Definition mirrors_data (phase : DataOperationPhase) : ArcadeOperationPhase :=
  match phase with
  | DataPhaseSucceeded => OperationPhaseSucceeded
  | DataPhaseCancelled => OperationPhaseCancelled
  | DataPhaseVerifying => OperationPhaseVerifying
  | _ => OperationPhaseRunning
  end.
Definition data_status (c : native_child) : option (DataOperationStatus * Z) :=
  match c with
  | ChildBackup b => Some (gb_Status b, gb_Generation b)
  | ChildRestore g => Some (rs_DataOperationStatus (gr_Status g), gr_Generation g)
  | ChildDestroy _ => None
  end.

(** *** What makes a receipt succeed by its own reading *)

Inductive succeeded (plan : OperationPlan) (es : list event) : Prop :=
| SCreated server intent identity data : created_as plan server intent es -> own_identity plan server identity ->
    fenced (server_Name server) identity es -> returned (operationServerData r server) (inr data) es ->
    rdr_Identity data = identity -> operationRuntimeObserved server (gs_DesiredState intent) (Some data) = true ->
    succeeded plan es
| SApplied planned data server step intent t : current_server plan planned data server es -> frozen_step plan step intent ->
    ao_Action o <> OperationServerDecommission -> (ao_Action o = OperationServerRestart -> step = "Start") ->
    operationTransition o step = Some t -> operationTransitionApplied o server t intent = true ->
    operationRuntimeObserved server (gs_DesiredState intent) (Some data) = true -> succeeded plan es
| SRetired planned : retired o = true -> op_Server plan = Some planned ->
    (answered KGameServer (gsr_Name planned) (inl NotFound) es \/
     exists server, answered KGameServer (gsr_Name planned) (inr server) es /\ server_UID server <> gsr_UID planned) ->
    succeeded plan es
| SConfirmed command destroy : ao_Action o = OperationWorldDestroyConfirm -> commanded plan command destroy es ->
    gd_ConfirmationChallenge (gd_Spec destroy) = dc_Challenge command ->
    destroy_annotation destroy operationConfirmAnnotation = ao_UID o ->
    gds_Phase (gd_Status destroy) <> DestroyPhaseFailed -> gds_Phase (gd_Status destroy) <> DestroyPhaseCancelled ->
    succeeded plan es
| SCancelled command destroy : ao_Action o = OperationWorldDestroyCancel -> commanded plan command destroy es ->
    gd_CancelRequested (gd_Spec destroy) = true -> destroy_annotation destroy operationCancelAnnotation = ao_UID o ->
    gds_Phase (gd_Status destroy) = DestroyPhaseCancelled -> succeeded plan es.

(** *** The journal *)

Inductive journal (es : list event) : ArcadeOperationPhase -> change -> Prop :=
| JAccept : ao_Phase o = OperationPhaseUnset -> journal es OperationPhaseAccepted CNone
| JFail code : code ∈ failure_codes -> journal es OperationPhaseFailed (CFailure (Some (operationFailure code)))
| JGuide code : code ∈ failure_codes -> journal es (ao_Phase o) (CFailure (Some (progress_failure code)))
| JPlan plan world : aost_Plan s = None -> returned (planOperation r o) (inr (plan, world)) es ->
    journal es OperationPhasePlanning (CPlan plan world)
| JCreated plan server intent : aost_Plan s = Some plan -> aost_Child s = None -> created_as plan server intent es ->
    journal es OperationPhaseRunning (CChild (child_reference "GameServer" (gs_meta server)))
| JNative plan want actual : aost_Plan s = Some plan -> aost_Child s = None -> native plan want actual es ->
    om_Generation (child_meta actual) = 1%Z ->
    journal es OperationPhaseRunning (CChild (child_reference (operationChildKind want) (child_meta actual)))
| JCommand plan command destroy : aost_Plan s = Some plan -> aost_Child s = None -> commanded plan command destroy es ->
    journal es OperationPhaseRunning
      (CChild (MkChildReference "GameDestroy" (dc_DestroyRef command) (om_Generation (gd_meta destroy))))
| JStep plan planned data server step spec digest t : aost_Plan s = Some plan ->
    current_server plan planned data server es -> frozen_step plan step (step_intent step spec) ->
    operationTransition o step = None -> step_ready server planned data step spec ->
    SpecDigest (step_intent step spec) = Ok digest ->
    journal es OperationPhaseRunning (CStep (journaled server step digest (step_intent step spec) t))
| JMirror plan actual st generation : aost_Plan s = Some plan -> followed plan actual es ->
    data_status actual = Some (st, generation) -> ds_ObservedGeneration st = generation ->
    ds_Phase st <> DataPhaseFailed -> journal es (mirrors_data (ds_Phase st)) (CFailure None)
| JDestroy plan destroy : aost_Plan s = Some plan -> followed plan (ChildDestroy destroy) es ->
    gds_ObservedGeneration (gd_Status destroy) = om_Generation (gd_meta destroy) ->
    journal es (destroy_phase (gds_Phase (gd_Status destroy))) (CMirror (gds_Preview (gd_Status destroy)) None)
| JUnseen plan destroy failure : aost_Plan s = Some plan -> followed plan (ChildDestroy destroy) es ->
    (failure = None \/ failure = Some (retryable (operationFailure "api_unavailable"))) ->
    journal es OperationPhaseRunning (CMirror None failure)
| JSucceed plan : aost_Plan s = Some plan -> succeeded plan es -> journal es OperationPhaseSucceeded CNone.

Definition written_status (phase : ArcadeOperationPhase) (started : option Time) (c : change) (completed : Time) :
    ArcadeOperationStatus :=
  let s' := apply_change c (set_aost_begun s (om_Generation (ao_meta o)) phase started) in
  if operationTerminal phase then settled phase completed s' else s'.

(** *** Writes *)

(** The receipt's fence is gone, or it never had one. *)
Definition unfenced (es : list event) : Prop :=
  exists name identity, operationLeaseCoordinates o = (name, identity, None) /\
    (name = "" \/ identity = "" \/
     answered KLease (DataOperationLeaseName identity) (inl NotFound) es \/
     (exists lease, answered KLease (DataOperationLeaseName identity) (inr lease) es /\
        (fence_ours o lease = false \/
         exists x, Ev (ApiDelete KLease lease (exact_delete (ls_meta lease))) x ∈ es /\ (x = None \/ x = Some NotFound)))).

(** The world a receipt may fence. *)
Definition world_of (plan : OperationPlan) (name identity : string) (es : list event) : Prop :=
  (exists data, op_Data plan = Some data /\ identity = rdr_Identity data) \/
  (exists server intent, created_as plan server intent es /\ name = server_Name server /\
     DataIdentity (server_UID server) = Ok identity).

#[export] Instance world_of_grows p n i : Grows (world_of p n i).
Proof. unfold world_of. grows_tac. Qed.

Definition creates (want : native_child) (e : event) : Prop :=
  match want with
  | ChildBackup b => exists x, e = Ev (ApiCreate KGameBackup b) x
  | ChildRestore g => exists x, e = Ev (ApiCreate KGameRestore g) x
  | ChildDestroy d => exists x, e = Ev (ApiCreate KGameDestroy d) x
  end.

Inductive op_write (es : list event) : event -> Prop :=
| OWJournal phase c started completed x : live -> journal es phase c ->
    op_write es (Ev (ApiUpdateStatus KArcadeOperation (with_receipt_status o (written_status phase started c completed))) x)
| OWProtect x : live ->
    op_write es (Ev (ApiUpdate KArcadeOperation (with_receipt_meta o
      (with_finalizers (ao_meta o) (om_Finalizers (ao_meta o) ++ [operationFinalizer])))) x)
| OWUnprotect x : ~ live -> unfenced es ->
    op_write es (Ev (ApiUpdate KArcadeOperation (with_receipt_meta o
      (with_finalizers (ao_meta o) (List.filter (fun f => f != operationFinalizer) (om_Finalizers (ao_meta o)))))) x)
| OWRelease name identity lease x : ~ live -> operationLeaseCoordinates o = (name, identity, None) ->
    answered KLease (DataOperationLeaseName identity) (inr lease) es ->
    operationLeaseMatches (Some lease) o name identity = true ->
    op_write es (Ev (ApiDelete KLease lease (exact_delete (ls_meta lease))) x)
| OWFence plan name identity t x : live -> aost_Plan s = Some plan -> containsOperationFinalizer o = true ->
    answered KLease (DataOperationLeaseName identity) (inl NotFound) es -> world_of plan name identity es ->
    op_write es (Ev (ApiCreate KLease (receipt_lease o name identity t)) x)
| OWCreate plan frozen intent digest x : live -> aost_Plan s = Some plan -> ao_Action o = OperationServerCreate ->
    aost_Child s = None -> op_ServerIntent plan = Some frozen -> ServerSpec frozen = Ok intent ->
    SpecDigest intent = Ok digest -> answered KGameServer (rq_ServerName (ao_Request o)) (inl NotFound) es ->
    (forall data, op_Data plan = Some data -> fenced (rq_ServerName (ao_Request o)) (rdr_Identity data) es) ->
    op_write es (Ev (ApiCreate KGameServer (created_by o digest intent)) x)
| OWNative plan want e : live -> aost_Plan s = Some plan -> operationServerAction (ao_Action o) = false ->
    aost_Child s = None -> returned (wanted_child o plan) (inr want) es ->
    returned (read_child r want) (inl NotFound) es -> creates want e -> op_write es e
| OWPatch plan planned data server t intent x : live -> aost_Plan s = Some plan ->
    containsOperationFinalizer o = true -> held_server plan planned data server es ->
    frozen_step plan (ost_Step t) intent -> operationTransition o (ost_Step t) = Some t ->
    intent_journaled t intent = true -> operationTransitionApplied o server t intent = false ->
    gs_Generation server = ost_FromGeneration t -> step_allowed o server t intent planned (Some data) = true ->
    op_write es (Ev (ApiJSONPatch KGameServer server
      (exact_patches (gs_meta server) (transition_patches o server t intent))) x)
| OWDelete plan planned data server t intent world x : live -> aost_Plan s = Some plan ->
    ao_Action o = OperationServerDecommission -> current_server plan planned data server es ->
    frozen_step plan "Stop" intent -> operationTransition o "Stop" = Some t ->
    operationTransitionApplied o server t intent = true ->
    operationRuntimeObserved server DesiredStateStopped (Some data) = true -> aost_RetainedWorld s = Some world ->
    op_write es (Ev (ApiDelete KGameServer server (exact_delete (gs_meta server))) x)
| OWConfirm plan command destroy preview now x : live -> aost_Plan s = Some plan ->
    ao_Action o = OperationWorldDestroyConfirm -> commanded plan command destroy es ->
    gds_ObservedGeneration (gd_Status destroy) = om_Generation (gd_meta destroy) ->
    gds_Phase (gd_Status destroy) = DestroyPhasePreview -> destroy_begun destroy = false ->
    gd_CancelRequested (gd_Spec destroy) = false -> gd_ConfirmationChallenge (gd_Spec destroy) = "" ->
    gds_Preview (gd_Status destroy) = Some preview -> dc_Challenge command = pv_Challenge preview ->
    Ev ClockNow now ∈ es -> (now < pv_ExpiresAt preview)%Z ->
    op_write es (Ev (ApiJSONPatch KGameDestroy destroy
      (exact_patches (gd_meta destroy) (confirm_patches o destroy (dc_Challenge command)))) x)
| OWCancel plan command destroy x : live -> aost_Plan s = Some plan ->
    ao_Action o = OperationWorldDestroyCancel -> commanded plan command destroy es ->
    gds_ObservedGeneration (gd_Status destroy) = om_Generation (gd_meta destroy) ->
    destroyTerminal (gds_Phase (gd_Status destroy)) = false -> gds_Phase (gd_Status destroy) <> DestroyPhaseDeleting ->
    destroy_begun destroy = false -> gd_CancelRequested (gd_Spec destroy) = false ->
    op_write es (Ev (ApiJSONPatch KGameDestroy destroy (exact_patches (gd_meta destroy) (cancel_patches o destroy))) x).
End Machine.
