(* ===== verification/OperationParts.v ===== *)
(** * The receipt controller refines its machine

    Part by part, every write of a pass is one that [op_write] allows at the
    events before it. *)

From Stdlib Require Import Ascii.
From stdpp Require Import base tactics list strings gmap numbers.
From S2P Require Import Prelude GoStrings K8s ApiTypes DataOperation Receipts Operations GameDefinition KubeObjects KubePlan KubeApi TraceLogic WorkerInput OperationDigest KubeDestroy WorkerPods OperationFence ServerStatus ServerController DestroyController OperationStatus OperationPlanning OperationServer OperationData OperationController OperationMachine.
Open Scope string_scope.
Open Scope list_scope.
Open Scope operation_scope.

(** ** Rules of the error monad *)

Section Rules.
Context (W : list event -> event -> Prop).
Lemma writes_op_bind {A B} acc (p : op A) (k : A -> op B) : writes_ok W acc p ->
  (forall es a, steps p es (inr a) -> writes_ok W (acc ++ es) (k a)) -> writes_ok W acc (op_bind p k).
Proof.
  intros Hp Hk. apply writes_bind; [done|]. intros es [e|a] Hs; [apply writes_ret | by apply Hk].
Qed.
(** A part that only reads, with what it returned on record. *)
Lemma writes_op_reads {A B} acc (p : op A) (k : A -> op B) : reads_only p ->
  (forall es a, steps p es (inr a) -> writes_ok W (acc ++ es) (k a)) -> writes_ok W acc (op_bind p k).
Proof. intros Hp. apply writes_op_bind, writes_reads, Hp. Qed.
Lemma writes_reject {B} acc b code (k : unit -> op B) : (b = false -> writes_ok W acc (k tt)) ->
  writes_ok W acc (op_bind (reject b code) k).
Proof.
  intros Hk. apply writes_op_reads; [op_reads|]. intros es [] [-> Hb]%steps_reject. rewrite app_nil_r. by apply Hk.
Qed.
Lemma writes_or_issue {A B} acc code (x : result A) (k : A -> op B) : (forall a, x = Ok a -> writes_ok W acc (k a)) ->
  writes_ok W acc (op_bind (or_issue code x) k).
Proof.
  intros Hk. apply writes_op_reads; [op_reads|]. intros es a [-> Hx]%steps_or_issue. rewrite app_nil_r. by apply Hk.
Qed.
Lemma writes_deref {A B} acc (x : option A) (k : A -> op B) : (forall a, x = Some a -> writes_ok W acc (k a)) ->
  writes_ok W acc (op_bind (deref x) k).
Proof.
  intros Hk. apply writes_op_reads; [op_reads|]. intros es a [-> Hx]%steps_deref. rewrite app_nil_r. by apply Hk.
Qed.
Lemma writes_checked acc p : writes_ok W acc p -> writes_ok W acc (checked p).
Proof. intros Hp. apply writes_bind; [done|]. intros es [e|] _; apply writes_ret. Qed.
Lemma writes_api_call acc q : (forall x, W acc (Ev q x)) -> writes_ok W acc (api_call q).
Proof. apply writes_last. Qed.
Lemma writes_patch {A} acc (k : kind A) object patches :
  (forall x, W acc (Ev (ApiJSONPatch k object (exact_patches (object_meta k object) patches)) x)) ->
  writes_ok W acc (patchOperationObject k object patches).
Proof. apply writes_last. Qed.
Lemma writes_api_create {A} acc (k : kind A) object : (forall x, W acc (Ev (ApiCreate k object) x)) ->
  writes_ok W acc (api_create k object).
Proof. apply writes_last. Qed.
End Rules.

(** ** The codes of issues *)

(** Every issue a program ends with has a code of the schema. *)
Definition coded {A} (p : op A) : Prop := forall es c, steps p es (inl (Issue c)) -> c ∈ failure_codes.
Definition code_ok (c : string) : bool := bool_decide (c ∈ failure_codes).

Lemma coded_ret {A} (x : operr + A) : (forall c, x = inl (Issue c) -> c ∈ failure_codes) -> coded (Ret x).
Proof. intros Hx es c [_ E]. by apply Hx. Qed.
Lemma coded_refuse {A} c : code_ok c = true -> coded (refuse c : op A).
Proof. intros Hc. apply coded_ret. intros c' [= <-]. by apply bool_decide_eq_true in Hc. Qed.
Lemma coded_reject b c : code_ok c = true -> coded (reject b c).
Proof. intros Hc. unfold reject. destruct b; [by apply coded_refuse | by apply coded_ret]. Qed.
Lemma coded_or_issue {A} c (x : result A) : code_ok c = true -> coded (or_issue c x).
Proof. intros Hc. unfold or_issue. destruct x; [by apply coded_ret | by apply coded_refuse]. Qed.
Lemma coded_deref {A} (x : option A) : coded (deref x).
Proof. apply coded_ret. by destruct x. Qed.
Lemma coded_op_bind {A B} (p : op A) (k : A -> op B) : coded p -> (forall a, coded (k a)) -> coded (op_bind p k).
Proof.
  intros Hp Hk es c (es1 & es2 & [e|a] & -> & H1 & H2)%steps_bind; [|by eapply Hk].
  destruct H2 as [_ [= <-]]. by eapply Hp.
Qed.
Lemma coded_bind {A B} (p : prog A) (k : A -> op B) : (forall es a, steps p es a -> coded (k a)) -> coded (p ≫= k).
Proof. intros Hk es c (es1 & es2 & a & -> & H1 & H2)%steps_bind. by eapply Hk. Qed.
Lemma coded_checked p : coded (checked p).
Proof. apply coded_bind. intros es [e|] _; by apply coded_ret. Qed.
Lemma coded_api_call q : coded (api_call q).
Proof. apply coded_bind. intros es [e|] _; by apply coded_ret. Qed.
Lemma coded_api_create {A} (k : kind A) object : coded (api_create k object).
Proof. apply coded_bind. intros es [e|] _; by apply coded_ret. Qed.
Lemma coded_patch {A} (k : kind A) object patches : coded (patchOperationObject k object patches).
Proof. apply coded_bind. intros es [e|a] _; by apply coded_ret. Qed.
Lemma coded_reference r {A} (k : kind A) namespace name c : code_ok c = true ->
  coded (operationReference r k namespace name c).
Proof.
  intros Hc. apply coded_bind. intros es [[|m]|a] _; apply coded_ret; [|done..]. intros c' [= <-].
  by apply bool_decide_eq_true in Hc.
Qed.
Lemma blocked_code_ok conditions : code_ok (blocked_code conditions) = true.
Proof.
  unfold blocked_code. assert (code_ok "invalid_reference" = true) as Hc by done. revert Hc.
  generalize "invalid_reference". induction conditions as [|c conditions IH]; intros code Hc; [done|].
  cbn [fold_left]. apply IH. by repeat case_match.
Qed.
Ltac coded_step :=
  match goal with
  | |- coded (op_bind _ _) => apply coded_op_bind; [|intros ?]
  | |- coded (refuse _) => by apply coded_refuse
  | |- coded (reject _ _) => by apply coded_reject
  | |- coded (or_issue _ _) => by apply coded_or_issue
  | |- coded (deref _) => apply coded_deref
  | |- coded (yields _) => by apply coded_ret
  | |- coded (checked _) => apply coded_checked
  | |- coded (api_call _) => apply coded_api_call
  | |- coded (api_create _ _) => apply coded_api_create
  | |- coded (patchOperationObject _ _ _) => apply coded_patch
  | |- coded (operationReference _ _ _ _ _) => by apply coded_reference
  | |- coded (Ret (inl (Failure _))) => by apply coded_ret
  | |- coded (Ret (inl (api_failure _))) => by apply coded_ret
  | |- coded (Ret (inl cleanup_pending)) => by apply coded_ret
  | |- coded (_ ≫= _) => apply coded_bind; intros ? ? ?
  | |- coded (let '(_, _) := ?x in _) => destruct x
  | |- coded (if ?b then _ else _) => destruct b
  | |- coded (match ?x with _ => _ end) => destruct x
  end.
Ltac codes := repeat (cbv zeta; coded_step); try done.

Section Codes.
Context `{RegexpEngine} `{NameValidation} `{JsonSchema} `{QuantityText} `{FindConditions}.
Variable r : ArcadeOperationReconciler.
Variable o : ArcadeOperation.

Lemma coded_operation_claims data claims : coded (operation_claims r data claims).
Proof.
  revert data. induction claims as [|claim claims IH]; intros data; cbn [operation_claims]; [codes|].
  apply coded_op_bind; [|intros ?; apply IH]. unfold operation_claim. codes.
Qed.
Lemma coded_operationServerData server : coded (operationServerData r server).
Proof. unfold operationServerData, installed. codes. apply coded_operation_claims. Qed.
Lemma coded_validateOperationImage game image : coded (validateOperationImage r game image).
Proof. unfold validateOperationImage. codes. Qed.
Lemma coded_retained namespace selector : coded (retainedOperationWorld r namespace selector).
Proof. unfold retainedOperationWorld. codes. Qed.
Lemma coded_cold_claims ns i u claims : coded (cold_claims r ns i u claims).
Proof. induction claims as [|claim claims IH]; cbn [cold_claims]; codes. Qed.
Lemma coded_planOperationBackup plan ref : coded (planOperationBackup r o plan ref).
Proof. unfold planOperationBackup, destroyable. codes; apply coded_cold_claims. Qed.
Lemma coded_commandObjects : coded (operationDestroyCommandObjects r o).
Proof. unfold operationDestroyCommandObjects. codes. Qed.
Lemma coded_planTarget : coded (planTarget r o).
Proof.
  unfold planTarget, retained_snapshot, planned_intent, configured, frozen_intent, plan_evidence, plan_secret. codes;
    first [apply coded_operationServerData | apply coded_validateOperationImage | apply coded_planOperationBackup].
Qed.
Lemma coded_planOperation : coded (planOperation r o).
Proof.
  unfold planOperation, planDestroyCommand, planCreate, planRetainedDestroy, frozen_intent. codes;
    first [apply coded_commandObjects | apply coded_planTarget | apply coded_retained
      | apply coded_validateOperationImage | apply coded_planOperationBackup].
Qed.
Lemma coded_acquire name identity : coded (acquireOperationLease r o name identity).
Proof.
  unfold acquireOperationLease. codes. unfold operationFenceCleanupPending, if_found, fence_owner. codes;
    apply coded_ret; intros c; try (by case_match); unfold receipt_settles, restore_settled; repeat case_match; done.
Qed.
Lemma coded_observe_created plan server intent identity : coded (observe_created r o plan server intent identity).
Proof.
  unfold observe_created. apply coded_bind. intros es [[c| |]|data] Hs; [|by apply coded_ret..|].
  - pose proof (coded_operationServerData server _ _ Hs) as Hc. unfold await_runtime.
    destruct (c == "invalid_reference"); codes. apply coded_refuse. by apply bool_decide_eq_true.
  - unfold await_runtime. codes.
Qed.
Lemma coded_server plan : coded (reconcileOperationServer r o plan).
Proof.
  unfold reconcileOperationServer, reconcileOperationCreate, follow_created, change_server, take_step,
    applyOperationTransition, settle_step, journalOperationTransition, await_runtime. codes;
    first [apply coded_acquire | apply coded_operationServerData | apply coded_observe_created].
Qed.
Lemma coded_data plan : coded (reconcileOperationData r o plan).
Proof.
  unfold reconcileOperationData, reconcileDestroyCommand, cancel_destroy, confirm_destroy, wanted_child, create_child,
    follow_child, mirror_child, mirrorDataOperation, mirrorDestroyOperation, mirror_phase, mirror_write. codes;
    first [apply coded_commandObjects | apply coded_refuse; first [apply blocked_code_ok | by case_match]].
Qed.
End Codes.

Section Parts.
Context `{RegexpEngine} `{NameValidation} `{JsonSchema} `{QuantityText} `{FindConditions}.
Variable r : ArcadeOperationReconciler.
Variable o : ArcadeOperation.
Local Abbreviation ok := (writes_ok (op_write r o)).
Local Abbreviation s := (ao_Status o).

(** ** Parts that only read *)

Lemma reads_now : reads_only operation_now.
Proof. op_reads. Qed.
Lemma reads_slow : reads_only (operationObservationSlow o).
Proof. unfold operationObservationSlow. op_reads. Qed.
Lemma reads_operation_claims data claims : reads_only (operation_claims r data claims).
Proof.
  revert data. induction claims as [|claim claims IH]; intros data; cbn [operation_claims]; [op_reads|].
  apply emits_op_bind; [|intros ?; apply IH]. unfold operation_claim. cbv zeta. op_reads.
Qed.
Lemma reads_operationServerData server : reads_only (operationServerData r server).
Proof.
  unfold operationServerData, installed. cbv zeta. op_reads; apply reads_operation_claims.
Qed.
Lemma reads_retained namespace selector : reads_only (retainedOperationWorld r namespace selector).
Proof. unfold retainedOperationWorld. cbv zeta. op_reads. Qed.
Lemma reads_cold_claims ns i u claims : reads_only (cold_claims r ns i u claims).
Proof.
  induction claims as [|claim claims IH]; cbn [cold_claims]; [op_reads|].
  unfold reads_only in *. repeat op_emits_step; try done.
Qed.
Lemma reads_planOperationBackup plan ref : reads_only (planOperationBackup r o plan ref).
Proof.
  unfold planOperationBackup. op_reads; unfold destroyable; op_reads; apply reads_cold_claims.
Qed.
Lemma reads_commandObjects : reads_only (operationDestroyCommandObjects r o).
Proof. unfold operationDestroyCommandObjects. op_reads. Qed.
Lemma reads_validateOperationImage game image : reads_only (validateOperationImage r game image).
Proof. unfold validateOperationImage. op_reads. Qed.
Lemma reads_frozen_intent server : reads_only (frozen_intent r server).
Proof. unfold frozen_intent. op_reads. Qed.
Lemma reads_planned_intent server data : reads_only (planned_intent r o server data).
Proof.
  unfold planned_intent, configured. cbv zeta. op_reads; apply reads_validateOperationImage.
Qed.
Lemma reads_plan_evidence plan : reads_only (plan_evidence r o plan).
Proof.
  unfold plan_evidence, plan_secret. cbv zeta. op_reads; apply reads_planOperationBackup.
Qed.
Lemma reads_planTarget : reads_only (planTarget r o).
Proof.
  unfold planTarget, retained_snapshot. cbv zeta.
  op_reads; first [apply reads_operationServerData | apply reads_planned_intent | apply reads_frozen_intent
    | apply reads_plan_evidence].
Qed.
Lemma reads_planOperation : reads_only (planOperation r o).
Proof.
  unfold planOperation, planDestroyCommand, planCreate, planRetainedDestroy. cbv zeta.
  op_reads; first [apply reads_commandObjects | apply reads_planTarget | apply reads_retained
    | apply reads_frozen_intent | apply reads_validateOperationImage | apply reads_planOperationBackup].
Qed.
Lemma reads_fence_owner {A} (k : kind A) lease name : reads_only (fence_owner r k lease name).
Proof. unfold fence_owner. op_reads. Qed.
Lemma reads_cleanup_pending lease name identity : reads_only (operationFenceCleanupPending r lease name identity).
Proof. unfold operationFenceCleanupPending, if_found. cbv zeta. op_reads; apply reads_fence_owner. Qed.
Lemma reads_read_child want : reads_only (read_child r want).
Proof. unfold read_child, get_as. op_reads. Qed.
Lemma reads_wanted_child plan : reads_only (wanted_child o plan).
Proof. unfold wanted_child. op_reads. Qed.

(** ** The journal *)

Ltac grown := first [eassumption | eapply grows; eassumption].
#[local] Instance succeeded_grows plan : Grows (succeeded r o plan).
Proof.
  intros es es' Hs Hj. destruct Hj as [| |planned Hr Hp Ha| |];
    [eapply SCreated | eapply SApplied | eapply SRetired | eapply SConfirmed | eapply SCancelled]; try grown.
  destruct Ha as [Ha|(v & Ha & ?)]; [left | right; exists v; split; [|done]]; grown.
Qed.
Lemma journal_grows phase c : Grows (fun es => journal r o es phase c).
Proof.
  intros es es' Hs Hj. destruct Hj; [eapply JAccept | eapply JFail | eapply JGuide | eapply JPlan | eapply JCreated
    | eapply JNative | eapply JCommand | eapply JStep | eapply JMirror | eapply JDestroy | eapply JUnseen
    | eapply JSucceed]; grown.
Qed.

Hypothesis Hlive : live o.

Lemma ok_operation_status acc phase c : journal r o acc phase c -> ok acc (operationStatus o phase (apply_change c)).
Proof.
  intros Hj. unfold operationStatus. cbv zeta.
  apply writes_bind; [apply writes_reads; case_match; op_reads|]. intros es1 started _.
  assert (journal r o (acc ++ es1) phase c) as Hj1 by (eapply journal_grows; [|exact Hj]; set_solver).
  unfold settled. destruct (operationTerminal phase) eqn:Ht.
  - apply writes_bind; [apply writes_reads; op_reads|]. intros es2 s2 Hs2.
    apply steps_bind in Hs2 as (es3 & es4 & t & -> & _ & [-> ->]). apply writes_last. intros x.
    assert (journal r o (acc ++ es1 ++ es3 ++ []) phase c) as Hj2 by (eapply journal_grows; [|exact Hj]; set_solver).
    rewrite <- !app_assoc. pose proof (OWJournal r o _ _ _ started t x Hlive Hj2) as Hw.
    unfold written_status in Hw. by rewrite Ht in Hw.
  - apply writes_bind; [apply writes_ret|]. intros es2 s2 [-> ->]. apply writes_last. intros x.
    rewrite app_nil_r. pose proof (OWJournal r o _ _ _ started 0%Z x Hlive Hj1) as Hw.
    unfold written_status in Hw. by rewrite Ht in Hw.
Qed.
Lemma ok_checked_status acc phase c : journal r o acc phase c -> ok acc (checked (operationStatus o phase (apply_change c))).
Proof. intros Hj. by apply writes_checked, ok_operation_status. Qed.
Lemma ok_guidance acc code : code_ok code = true -> ok acc (operationProgressGuidance o code).
Proof.
  intros Hc%bool_decide_eq_true. unfold operationProgressGuidance. cbv zeta.
  assert (ok acc (operationStatus o (ao_Phase o) (fun s => set_aost_Failure s (Some (progress_failure code))))) as Hw
    by (apply (ok_operation_status _ _ (CFailure (Some (progress_failure code)))); by apply JGuide).
  destruct (aost_Failure s); [case_match; [apply writes_ret|]|]; exact Hw.
Qed.
Lemma ok_fail acc code : code ∈ failure_codes -> ok acc (failOperation o code).
Proof.
  intros Hc. unfold failOperation. apply writes_bind; [|intros; apply writes_ret].
  apply (ok_operation_status _ _ (CFailure (Some (operationFailure code)))). by apply JFail.
Qed.
Lemma ok_result_error {A} acc (p : op A) es e : coded p -> steps p es (inl e) -> ok acc (operationResultError o e).
Proof. intros Hp Hs. destruct e; [apply ok_fail; by eapply Hp | apply writes_ret..]. Qed.
Lemma ok_await acc server : ok acc (await_runtime o server).
Proof.
  unfold await_runtime. apply writes_bind; [apply writes_reads; case_match; [op_reads | apply reads_slow]|].
  intros es [] _; [by apply writes_checked, ok_guidance | apply writes_ret].
Qed.

(** ** The fence *)

Variable plan : OperationPlan.
Hypothesis Hplan : aost_Plan s = Some plan.
Hypothesis Hfin : operationServerAction (ao_Action o) = true -> containsOperationFinalizer o = true.

Lemma ok_acquire acc name identity : operationServerAction (ao_Action o) = true -> world_of r o plan name identity acc ->
  ok acc (acquireOperationLease r o name identity).
Proof.
  intros Ha Hw. unfold acquireOperationLease, operation_get. apply writes_get; [done|]. intros [[|m]|lease].
  - apply writes_bind; [apply writes_reads, reads_now|]. intros es t _. apply writes_api_create. intros x.
    apply (OWFence _ _ _ plan name identity); [done|done|by apply Hfin| |].
    + unfold answered. in_trace.
    + eapply world_of_grows; [|exact Hw]. in_trace.
  - apply writes_ret.
  - destruct (operationLeaseMatches _ _ _ _); [apply writes_ret|].
    apply writes_op_reads; [apply reads_cleanup_pending|]. intros es [] _; apply writes_ret.
Qed.
Lemma acquire_fenced name identity es : steps (acquireOperationLease r o name identity) es (inr tt) ->
  fenced r o name identity es.
Proof.
  unfold acquireOperationLease, operation_get. intros (es1 & es2 & x & -> & ->%steps_call & Hs)%steps_bind.
  destruct x as [[|m]|lease].
  - apply steps_bind in Hs as (es3 & es4 & t & -> & _ & Hs). unfold api_create in Hs.
    apply steps_bind in Hs as (es5 & es6 & [e|lease] & -> & ->%steps_call & [-> E]); [discriminate E|].
    right. exists t, lease. unfold answered. split; in_trace.
  - destruct Hs as [_ E]. discriminate E.
  - destruct (operationLeaseMatches _ _ _ _) eqn:Hm.
    + left. exists lease. unfold answered. split; [in_trace | done].
    + apply steps_op_bind in Hs as (es3 & es4 & [] & -> & _ & Hs); destruct Hs as [_ E]; discriminate E.
Qed.

(** ** Servers *)

Lemma selection_identity a b : sameDataSelection (Some a) (Some b) = true -> rdr_Identity a = rdr_Identity b.
Proof.
  unfold sameDataSelection. destruct (_ || _ || _ || _)%bool eqn:E; [done|]. intros _.
  rewrite !orb_false_iff, !negb_false_iff, !bool_decide_eq_true in E. by destruct E as [[[_ ?] _] _].
Qed.

Lemma ok_journal acc planned data server step spec : current_server r o plan planned data server acc ->
  frozen_step o plan step (step_intent step spec) -> operationTransition o step = None ->
  step_ready o server planned data step spec ->
  ok acc (journalOperationTransition o server step (step_intent step spec)).
Proof.
  intros Hh Hf Hn Hr. unfold journalOperationTransition. apply writes_or_issue. intros digest Hd.
  apply writes_bind; [apply writes_reads, reads_now|]. intros es t _.
  apply writes_checked.
  change (fun s => add_aost_Transition s ?t) with (apply_change (CStep t)). apply ok_operation_status.
  eapply JStep; [done| |done..]. eapply grows; [|exact Hh]. in_trace.
Qed.

Lemma ok_apply acc planned data server t intent : held_server r o plan planned data server acc ->
  frozen_step o plan (ost_Step t) intent -> operationTransition o (ost_Step t) = Some t ->
  ok acc (applyOperationTransition o server t intent planned (Some data)).
Proof.
  intros Hh Hf Ht. unfold applyOperationTransition. apply writes_reject. intros Hi%negb_false_iff.
  destruct (operationTransitionApplied _ _ _ _) eqn:Ha; [apply writes_ret|]. apply writes_reject.
  intros [Hg%negb_false_iff%bool_decide_eq_true Hs%negb_false_iff]%orb_false_iff. apply writes_patch. intros x.
  eapply OWPatch; eauto. by apply Hfin, Hf.
Qed.
Lemma apply_current planned data server t intent acc es server' : held_server r o plan planned data server acc ->
  steps (applyOperationTransition o server t intent planned (Some data)) es (inr server') ->
  current_server r o plan planned data server' (acc ++ es).
Proof.
  intros Hh. unfold applyOperationTransition. intros (es1 & es2 & [] & -> & [-> _]%steps_reject & Hs)%steps_op_bind.
  destruct (operationTransitionApplied _ _ _ _).
  - destruct Hs as [-> E]. injection E as ->. left. eapply grows; [|exact Hh]. in_trace.
  - apply steps_op_bind in Hs as (es3 & es4 & [] & -> & [-> _]%steps_reject & Hs).
    unfold patchOperationObject in Hs. apply steps_bind in Hs as (es5 & es6 & [e|server''] & -> & ->%steps_call & [-> E]);
      [discriminate E|]. injection E as ->. right. exists server, t, intent.
    split; [eapply grows; [|exact Hh]; in_trace | in_trace].
Qed.

Lemma ok_settle_step acc planned data server t step spec : current_server r o plan planned data server acc ->
  frozen_step o plan step (step_intent step spec) -> frozen_step o plan "Start" (step_intent "Start" spec) \/
    ao_Action o <> OperationServerRestart ->
  (step = "Stop" -> ao_Action o = OperationServerRestart -> operationTransition o "Start" = None) ->
  operationTransition o step = Some t -> operationTransitionApplied o server t (step_intent step spec) = true ->
  operationRuntimeObserved server (gs_DesiredState (step_intent step spec)) (Some data) = true ->
  ok acc (settle_step o server step (step_intent step spec)).
Proof.
  intros Hh Hf Hs Hn Ht Ha Hobs. unfold settle_step. pose proof Hf as (_ & Hc & Hstep & _).
  destruct (ao_Action o == OperationServerRestart) eqn:Er; [apply bool_decide_eq_true in Er|]; cbn [andb].
  - destruct (step == "Stop") eqn:Es; [apply bool_decide_eq_true in Es as ->|].
    + change (with_desired_state (step_intent "Stop" spec) DesiredStateRunning) with (step_intent "Start" spec).
      eapply ok_journal; [done| |by apply Hn|right; by eauto]. by destruct Hs.
    + rewrite (bool_decide_eq_false_2 (ao_Action o = OperationServerDecommission)) by congruence.
      apply bool_decide_eq_false in Es. rewrite Er in Hstep. destruct Hstep as [|Hstep]; [done|].
      apply (ok_checked_status _ _ CNone), (JSucceed _ _ _ plan); [done|].
      eapply SApplied; [exact Hh|exact Hf|congruence|done..].
  - apply bool_decide_eq_false in Er.
    destruct (ao_Action o == OperationServerDecommission) eqn:Ed; [apply bool_decide_eq_true in Ed|].
    + apply writes_reject. intros Hw%negb_false_iff. destruct (aost_RetainedWorld s) as [world|] eqn:Ew; [|done].
      rewrite Ed in Hstep. cbn in Hstep. subst step. apply writes_api_call. intros x. by eapply OWDelete.
    + apply bool_decide_eq_false in Ed. apply (ok_checked_status _ _ CNone), (JSucceed _ _ _ plan); [done|].
      by eapply SApplied.
Qed.

Lemma next_step_restart spec step intent : next_step o spec = (step, intent) -> step = "Stop" ->
  ao_Action o = OperationServerRestart -> operationTransition o "Start" = None.
Proof.
  unfold next_step. intros E -> Ha. rewrite Ha in E. eval_bools. destruct (operationTransition o "Start"); [discriminate E | done].
Qed.

Lemma ok_take_step acc planned data server frozen spec : held_server r o plan planned data server acc ->
  operationServerAction (ao_Action o) = true -> ao_Action o <> OperationServerCreate ->
  op_ServerIntent plan = Some frozen -> ServerSpec frozen = Ok spec ->
  ok acc (let '(step, intent) := next_step o spec in take_step o server planned (Some data) step intent).
Proof.
  intros Hh Hact Hc Hfr Hsp. destruct (next_step o spec) as [step intent] eqn:En.
  pose proof (next_step_restart _ _ _ En) as Hrestart. destruct (next_step_of _ _ _ _ En) as [Hstep ->].
  assert (frozen_step o plan step (step_intent step spec)) as Hf by (split; [done|]; split; [done|]; split; [done|]; eauto).
  unfold take_step. destruct (operationTransition o step) as [t|] eqn:Et.
  - assert (ost_Step t = step) as Es by (apply find_some in Et as [_ E]; by apply bool_decide_eq_true in E).
    apply writes_op_bind; [apply ok_apply; rewrite ?Es; done|]. intros es server' Hrun.
    pose proof (apply_current _ _ _ _ _ _ _ _ Hh Hrun) as Hh'.
    destruct (operationTransitionApplied o server' t _) eqn:Ha; cbn [negb]; [|apply writes_ret].
    destruct (operationRuntimeObserved _ _ _) eqn:Ho; cbn [negb]; [|apply ok_await].
    eapply ok_settle_step; [done..| |done|done|done|done].
    destruct (decide (ao_Action o = OperationServerRestart)) as [Ea|]; [left | by right].
    split; [done|]. split; [done|]. split; [rewrite Ea; by right|]. by exists frozen, spec.
  - apply writes_reject. intros He%negb_false_iff. eapply ok_journal; [by left|done..|].
    destruct (decide (step = "Start")) as [->|]; [|by left]. exfalso.
    revert En Et. unfold next_step, stops_first. clear. destruct (_ && present _)%bool eqn:Ep.
    + intros _ Et. rewrite Et, andb_false_r in Ep. done.
    + case_match; intros [=].
Qed.

Lemma ok_change_server acc planned data server frozen : answered r o KGameServer (gsr_Name planned) (inr server) acc ->
  op_Server plan = Some planned -> op_Data plan = Some data -> server_UID server = gsr_UID planned ->
  deleting (gs_meta server) = false -> operationServerAction (ao_Action o) = true ->
  ao_Action o <> OperationServerCreate -> op_ServerIntent plan = Some frozen -> ok acc (change_server r o server planned data frozen).
Proof.
  intros Hg Hps Hpd Hu Hdel Hact Hc Hfr. unfold change_server.
  apply writes_op_reads; [apply reads_operationServerData|]. intros es found Hrun. apply writes_reject.
  intros Hsame%negb_false_iff. pose proof (selection_identity _ _ Hsame) as Hid.
  assert (same_target r o plan planned data found server (acc ++ es)) as Hst.
  { unfold same_target, answered in *. split_and!; [done..|in_trace|]. exists es. split; [in_trace | done]. }
  apply writes_op_bind; [apply ok_acquire; [done|]; left; eauto|]. intros es2 [] Hl%acquire_fenced.
  apply writes_or_issue. intros spec Hsp. eapply ok_take_step; [|done..].
  exists found. split; [eapply grows; [|exact Hst]; in_trace | eapply grows; [|exact Hl]; in_trace].
Qed.

(** ** Creation *)

Lemma ok_observe_created acc server intent identity : created_as r o plan server intent acc ->
  own_identity plan server identity -> fenced r o (server_Name server) identity acc ->
  ok acc (observe_created r o plan server intent identity).
Proof.
  intros Hcr Hid Hl. unfold observe_created. apply writes_bind; [apply writes_reads, reads_operationServerData|].
  intros es [[code|e|]|data] Hrun.
  - destruct (code == "invalid_reference"); [apply ok_await | apply writes_ret].
  - apply writes_ret.
  - apply writes_ret.
  - apply writes_reject. intros [Hi%negb_false_iff%bool_decide_eq_true _]%orb_false_iff.
    destruct (operationRuntimeObserved _ _ _) eqn:Ho; [|apply ok_await].
    apply (ok_checked_status _ _ CNone), (JSucceed _ _ _ plan); [done|].
    eapply (SCreated _ _ _ _ server intent identity data); [eapply grows; [|exact Hcr]; in_trace|done| | |done..].
    + eapply grows; [|exact Hl]. in_trace.
    + exists es. split; [in_trace | done].
Qed.
Lemma ok_follow_created acc server intent : created_as r o plan server intent acc ->
  ok acc (follow_created r o plan server intent).
Proof.
  intros Hcr. unfold follow_created. destruct (aost_Child s) as [child|] eqn:Ec.
  - apply writes_reject. intros _. apply writes_or_issue. intros own Hown. cbv zeta.
    assert (own_identity plan server (match op_Data plan with Some data => rdr_Identity data | None => own end)) as Hid
      by (unfold own_identity; by destruct (op_Data plan)).
    apply writes_op_bind.
    + apply ok_acquire; [by destruct Hcr as [-> _]|]. unfold world_of. destruct (op_Data plan) as [data|]; [left; eauto | right; eauto 6].
    + intros es [] Hl%acquire_fenced. apply ok_observe_created; [|done|].
      * eapply grows; [|exact Hcr]. in_trace.
      * eapply grows; [|exact Hl]. in_trace.
  - by eapply (ok_checked_status _ _ (CChild _)), JCreated.
Qed.
Lemma ok_create acc frozen : ao_Action o = OperationServerCreate -> op_ServerIntent plan = Some frozen ->
  ok acc (reconcileOperationCreate r o plan frozen).
Proof.
  intros Ha Hfr. unfold reconcileOperationCreate. apply writes_or_issue. intros intent Hi. apply writes_or_issue.
  intros digest Hd. cbv zeta. unfold operation_get. apply writes_get; [done|]. intros [[|m]|server].
  - apply writes_reject. intros Hch. destruct (aost_Child s) eqn:Ec; [done|]. apply writes_op_bind.
    + destruct (op_Data plan) as [data|] eqn:Ed; [|apply writes_ret]. apply ok_acquire; [by rewrite Ha|]. left. eauto.
    + intros es [] Hl. apply writes_api_create. intros x. eapply OWCreate; eauto.
      * unfold answered. in_trace.
      * intros data Ed. rewrite Ed in Hl. apply acquire_fenced in Hl. eapply grows; [|exact Hl]. in_trace.
  - apply writes_ret.
  - apply writes_reject. intros Hf%negb_false_iff. apply ok_follow_created. split; [done|]. split; [by eauto 8|].
    unfold answered. in_trace.
Qed.

Lemma ok_server acc : operationServerAction (ao_Action o) = true -> ok acc (reconcileOperationServer r o plan).
Proof.
  intros Hact. unfold reconcileOperationServer. destruct (op_ServerIntent plan) as [frozen|] eqn:Ei; [|apply writes_ret].
  destruct (ao_Action o == OperationServerCreate) eqn:Ea.
  { apply bool_decide_eq_true in Ea. by apply ok_create. }
  apply bool_decide_eq_false in Ea. destruct (op_Server plan) as [planned|] eqn:Eps; [|apply writes_ret].
  destruct (op_Data plan) as [data|] eqn:Epd; [|apply writes_ret]. unfold operation_get. apply writes_get; [done|].
  intros existing. cbv zeta. destruct (retired o && _)%bool eqn:Eg.
  - apply andb_prop in Eg as [Hr Hg]. apply (ok_checked_status _ _ CNone), (JSucceed _ _ _ plan); [done|].
    eapply SRetired; [done..|]. unfold answered. destruct existing as [[|m]|server]; [left; in_trace|done|].
    right. exists server. apply negb_true_iff, bool_decide_eq_false in Hg. split; [in_trace | done].
  - destruct existing as [[|m]|server]; [apply writes_ret..|]. apply writes_reject.
    intros Hu%negb_false_iff%bool_decide_eq_true. destruct (deleting (gs_meta server)) eqn:Hdel.
    + destruct (retired o); apply writes_ret.
    + eapply ok_change_server; [|done..]. unfold answered. in_trace.
Qed.

(** ** Native children *)

Lemma ok_mirror_phase acc actual st generation : followed r o plan actual acc ->
  data_status actual = Some (st, generation) -> ds_ObservedGeneration st = generation -> ds_Phase st <> DataPhaseFailed ->
  ok acc (mirror_phase o (mirrors_data (ds_Phase st))).
Proof.
  intros Hf Hs Hg Hp. unfold mirror_phase. case_match; [apply writes_ret|].
  by eapply (ok_checked_status _ _ (CFailure None)), JMirror.
Qed.
Lemma ok_mirror_data acc actual st generation : followed r o plan actual acc ->
  data_status actual = Some (st, generation) -> ok acc (mirrorDataOperation o st generation).
Proof.
  intros Hf Hs. unfold mirrorDataOperation. destruct (ds_ObservedGeneration st != generation) eqn:Eg.
  - apply writes_bind; [apply writes_reads; case_match; op_reads; apply reads_slow|].
    intros es [] _; [apply writes_ret | by apply writes_checked, ok_guidance].
  - apply negb_false_iff, bool_decide_eq_true in Eg. pose proof (ok_mirror_phase acc _ _ _ Hf Hs Eg) as Hm.
    destruct (ds_Phase st); try (apply Hm; done); [apply writes_checked, ok_guidance, blocked_code_ok | apply writes_ret].
Qed.
Lemma ok_mirror_destroy acc destroy : followed r o plan (ChildDestroy destroy) acc ->
  ok acc (mirrorDestroyOperation o destroy).
Proof.
  intros Hf. unfold mirrorDestroyOperation. cbv zeta. destruct (_ != _) eqn:Eg.
  - apply writes_bind; [apply writes_reads; case_match; op_reads; apply reads_slow|]. intros es quiet _.
    assert (forall failure, failure = None \/ failure = Some (retryable (operationFailure "api_unavailable")) ->
      ok (acc ++ es) (mirror_write o OperationPhaseRunning None failure)) as Hw.
    { intros failure Hfa. eapply (ok_checked_status _ _ (CMirror None failure)), JUnseen; [done| |done]. eapply grows; [|exact Hf]. in_trace. }
    destruct quiet; case_match; first [apply writes_ret | apply Hw; auto].
  - apply negb_false_iff, bool_decide_eq_true in Eg. case_match; [apply writes_ret|]. case_match; [apply writes_ret|].
    by eapply (ok_checked_status _ _ (CMirror _ None)), JDestroy.
Qed.
Lemma ok_follow_child acc want actual : native r o plan want actual acc -> ok acc (follow_child o want actual).
Proof.
  intros Hn. unfold follow_child. apply writes_reject. intros _. destruct (aost_Child s) as [child|] eqn:Ec.
  - apply writes_reject. intros Hch.
    assert (followed r o plan actual acc) as Hf by (exists want; split; [done|]; by exists child).
    unfold mirror_child. destruct actual; [by eapply ok_mirror_data..|by apply ok_mirror_destroy].
  - apply writes_reject. intros Hg%negb_false_iff%bool_decide_eq_true. by eapply (ok_checked_status _ _ (CChild _)), JNative.
Qed.

(** ** Destroy commands *)

Lemma ok_cancel_destroy acc command destroy : ao_Action o = OperationWorldDestroyCancel -> commanded r o plan command destroy acc ->
  gds_ObservedGeneration (gd_Status destroy) = om_Generation (gd_meta destroy) -> ok acc (cancel_destroy o destroy).
Proof.
  intros Ha Hc Hg. unfold cancel_destroy. cbv zeta. destruct (gd_CancelRequested _ && _)%bool eqn:Em.
  - apply andb_prop in Em as [Em Hm%bool_decide_eq_true]. case_match eqn:Ep; [|unfold reject; case_match; apply writes_ret].
    apply bool_decide_eq_true in Ep. apply (ok_checked_status _ _ CNone), (JSucceed _ _ _ plan); [done|].
    by eapply SCancelled.
  - apply writes_reject. rewrite !orb_false_iff, bool_decide_eq_false. intros [[[Ht Hd] Hb] Hr].
    apply writes_op_bind; [apply writes_patch; intros x; by eapply OWCancel | intros; apply writes_ret].
Qed.
Lemma ok_confirm acc command destroy : ao_Action o = OperationWorldDestroyConfirm -> commanded r o plan command destroy acc ->
  gds_ObservedGeneration (gd_Status destroy) = om_Generation (gd_meta destroy) -> ok acc (confirm_destroy o destroy command).
Proof.
  intros Ha Hc Hg. unfold confirm_destroy. cbv zeta. destruct (_ && _)%bool eqn:Em.
  - apply andb_prop in Em as [Em%bool_decide_eq_true Hm%bool_decide_eq_true]. apply writes_reject.
    rewrite orb_false_iff, !bool_decide_eq_false. intros [Hf Hn].
    apply (ok_checked_status _ _ CNone), (JSucceed _ _ _ plan); [done|]. by eapply SConfirmed.
  - apply writes_reject. rewrite !orb_false_iff, !negb_false_iff, !bool_decide_eq_true. intros [[[[Hr _] Hp] Hb] Hch].
    destruct (gds_Preview (gd_Status destroy)) as [preview|] eqn:Epv; [|apply writes_ret]. apply writes_reject.
    intros Hq%negb_false_iff%bool_decide_eq_true. apply writes_bind; [apply writes_reads, reads_now|].
    intros es now Hnow%steps_call. apply writes_reject. intros Hlt%negb_false_iff%Z.ltb_lt.
    apply writes_op_bind; [|intros; apply writes_ret]. apply writes_patch. intros x. subst es.
    eapply OWConfirm; eauto; [|in_trace]. eapply grows; [|exact Hc]. in_trace.
Qed.
Lemma ok_command acc : ok acc (reconcileDestroyCommand r o plan).
Proof.
  unfold reconcileDestroyCommand. apply writes_op_reads; [apply reads_commandObjects|].
  intros es [[parent frozen] destroy] Hs. apply writes_deref. intros command Hc. apply writes_reject.
  intros Hd%negb_false_iff%bool_decide_eq_true.
  assert (commanded r o plan command destroy (acc ++ es)) as Hco.
  { split; [done|]. split; [done|]. exists parent, frozen, es. split; [in_trace | done]. }
  destruct (aost_Child s) as [child|] eqn:Ec; [|by eapply (ok_checked_status _ _ (CChild _)), JCommand].
  apply writes_reject. intros _. destruct (_ != _) eqn:Eg; [by apply writes_checked, ok_guidance|].
  apply negb_false_iff, bool_decide_eq_true in Eg. case_match eqn:E1; [apply bool_decide_eq_true in E1; by eapply ok_cancel_destroy|].
  case_match eqn:E2; [apply writes_ret|]. apply negb_false_iff, bool_decide_eq_true in E2. by apply ok_confirm.
Qed.

Lemma ok_data acc : operationServerAction (ao_Action o) = false -> ok acc (reconcileOperationData r o plan).
Proof.
  intros Ha. unfold reconcileOperationData. case_match; [apply ok_command|].
  apply writes_op_reads; [apply reads_wanted_child|]. intros es want Hw. apply writes_bind; [apply writes_reads, reads_read_child|].
  assert (forall es2, returned (wanted_child o plan) (inr want) ((acc ++ es) ++ es2)) as Hwant
    by (intros es2; exists es; split; [in_trace | done]).
  intros es2 [[|m]|actual] Hr.
  - apply writes_reject. intros Hch. destruct (aost_Child s) eqn:Ec; [done|].
    assert (returned (read_child r want) (inl NotFound) ((acc ++ es) ++ es2)) as Hmiss by (exists es2; split; [in_trace | done]).
    unfold create_child. destruct want; apply writes_api_create; intros x; (eapply OWNative; [done..|apply Hwant|exact Hmiss|by exists x]).
  - apply writes_ret.
  - destruct (child_ours o want actual) eqn:Eo.
    + apply ok_follow_child. split; [done|]. split; [apply Hwant|]. exists es2. split; [in_trace | done].
    + unfold follow_child. rewrite Eo. apply writes_ret.
Qed.
Lemma ok_drive acc : ok acc (drive r o plan).
Proof.
  unfold drive. apply writes_bind.
  - case_eq (operationServerAction (ao_Action o)); intros Ea; [by apply ok_server | by apply ok_data].
  - intros es [e|] Hs; [|apply writes_ret]. revert Hs.
    case (operationServerAction (ao_Action o)); intros Hs; eapply ok_result_error; [apply coded_server|done|apply coded_data|done].
Qed.
End Parts.
