(* ===== verification/OperationSafety.v ===== *)
(** * What a pass of the receipt controller can do

    The refinement of the machine by [Reconcile], and what follows for the
    dangerous writes: a server is patched, created or deleted only under the
    world's fence and exactly as the receipt froze it, a native child is
    created once and unowned, a destruction is confirmed only against the
    preview it names, and a receipt that ended only cleans up after itself. *)

From Stdlib Require Import Ascii.
From stdpp Require Import base tactics list strings gmap numbers.
From S2P Require Import Prelude GoStrings K8s ApiTypes DataOperation Receipts Operations GameDefinition KubeObjects KubePlan KubeApi TraceLogic WorkerInput OperationDigest KubeDestroy WorkerPods OperationFence ServerStatus ServerController DestroyController OperationStatus OperationPlanning OperationServer OperationData OperationController OperationMachine OperationParts.
Open Scope string_scope.
Open Scope list_scope.
Open Scope operation_scope.

(** ** Reading events *)

Definition as_operation {A} (k : kind A) : A -> option ArcadeOperation :=
  match k in kind T return T -> option ArcadeOperation with KArcadeOperation => Some | _ => fun _ => None end.
Definition as_destroy_object {A} (k : kind A) : A -> option GameDestroy :=
  match k in kind T return T -> option GameDestroy with KGameDestroy => Some | _ => fun _ => None end.
Definition as_fence {A} (k : kind A) : A -> option Lease :=
  match k in kind T return T -> option Lease with KLease => Some | _ => fun _ => None end.
Definition receipt_status (e : event) : option ArcadeOperation :=
  match e with Ev (ApiUpdateStatus k u) _ => as_operation k u | _ => None end.
Definition server_patch (e : event) : option (GameServer * list operationJSONPatch) :=
  match e with
  | Ev (ApiJSONPatch k v patches) _ => match as_gameserver k v with Some v => Some (v, patches) | None => None end
  | _ => None
  end.
Definition destroy_patch (e : event) : option (GameDestroy * list operationJSONPatch) :=
  match e with
  | Ev (ApiJSONPatch k d patches) _ => match as_destroy_object k d with Some d => Some (d, patches) | None => None end
  | _ => None
  end.
Definition server_deletion (e : event) : option (GameServer * DeleteOptions) :=
  match e with
  | Ev (ApiDelete k v options) _ => match as_gameserver k v with Some v => Some (v, options) | None => None end
  | _ => None
  end.
Definition fence_deletion (e : event) : option (Lease * DeleteOptions) :=
  match e with
  | Ev (ApiDelete k l options) _ => match as_fence k l with Some l => Some (l, options) | None => None end
  | _ => None
  end.
Definition created_meta (e : event) : option ObjectMeta :=
  match e with Ev (ApiCreate k a) _ => Some (object_meta k a) | _ => None end.

(** The kinds a receipt may write: receipts, fences, servers and native
    operations, never a workload, a claim or a Secret. *)
Definition receipt_kind {A} (k : kind A) : bool :=
  match k with
  | KArcadeOperation | KLease | KGameServer | KGameBackup | KGameRestore | KGameDestroy => true
  | _ => false
  end.
Definition receipt_write (e : event) : bool :=
  match e with
  | Ev (ApiCreate k _) _ | Ev (ApiUpdate k _) _ | Ev (ApiUpdateStatus k _) _ | Ev (ApiApply k _) _
  | Ev (ApiMergePatch k _ _) _ | Ev (ApiDelete k _ _) _ | Ev (ApiJSONPatch k _ _) _ => receipt_kind k
  | _ => true
  end.

Section Safety.
Context `{RegexpEngine} `{NameValidation} `{JsonSchema} `{QuantityText} `{FindConditions}.
Variable r : ArcadeOperationReconciler.

(** ** Refinement *)

Lemma release_unfenced o es : ~ live o -> steps (releaseOperationLease r o) es (inr tt) -> unfenced r o es.
Proof.
  intros Hl. unfold releaseOperationLease. destruct (operationLeaseCoordinates o) as [[name identity] [e|]] eqn:Ec.
  { intros [_ E]. discriminate E. }
  intros Hs. exists name, identity. split; [done|]. destruct (_ || _)%bool eqn:En.
  { apply orb_true_iff in En as [En%bool_decide_eq_true|En%bool_decide_eq_true]; auto. }
  right; right. unfold operation_get in Hs. apply steps_bind in Hs as (es1 & es2 & x & -> & ->%steps_call & Hs).
  destruct x as [[|m]|lease]; [left; unfold answered; in_trace|destruct Hs as [_ E]; discriminate E|].
  right. exists lease. split; [unfold answered; in_trace|]. destruct (operationLeaseMatches _ _ _ _).
  - right. apply steps_bind in Hs as (es3 & es4 & x & -> & ->%steps_call & [-> E]). exists x.
    split; [in_trace|]. destruct x as [[|]|]; [by right|discriminate E|by left].
  - left. destruct (fence_ours o lease); [|done]. destruct Hs as [_ E]. discriminate E.
Qed.

Lemma ok_release o acc : ~ live o -> writes_ok (op_write r o) acc (releaseOperationLease r o).
Proof.
  intros Hl. unfold releaseOperationLease. destruct (operationLeaseCoordinates o) as [[name identity] [e|]] eqn:Ec; [apply writes_ret|].
  destruct (_ || _)%bool; [apply writes_ret|]. unfold operation_get. apply writes_get; [done|].
  intros [[|m]|lease]; [apply writes_ret..|]. destruct (operationLeaseMatches _ _ _ _) eqn:Hm.
  - apply writes_last. intros x. eapply OWRelease; [done..| |done]. unfold answered. in_trace.
  - destruct (fence_ours o lease); apply writes_ret.
Qed.

Lemma ok_conclude o acc : ~ live o -> writes_ok (op_write r o) acc (conclude r o).
Proof.
  intros Hl. unfold conclude. apply writes_bind; [by apply ok_release|]. intros es [e|[]] Hs; [apply writes_ret|].
  apply writes_bind; [|intros; apply writes_ret]. unfold removeOperationFinalizer. case_match; [apply writes_ret|]. cbv zeta.
  apply writes_last. intros x. apply OWUnprotect; [done|]. apply release_unfenced in Hs as (n & i & Ec & Hu); [|done].
  exists n, i. split; [done|]. destruct Hu as [|[|[Hn|(lease & Ha & Hd)]]]; [by left|by right; left|right; right; left|right; right; right].
  - eapply grows; [|exact Hn]. in_trace.
  - exists lease. split; [eapply grows; [|exact Ha]; in_trace|]. destruct Hd as [|(y & Hy & ?)]; [by left|].
    right. exists y. split; [in_trace | done].
Qed.

Lemma ok_reconcile_operation o acc : writes_ok (op_write r o) acc (reconcile_operation r o).
Proof.
  unfold reconcile_operation. destruct (deleting (ao_meta o) || operationTerminal (ao_Phase o))%bool eqn:El.
  { apply ok_conclude. intros [Hd Ht]. rewrite Hd, Ht in El. done. }
  apply orb_false_iff in El. assert (live o) as Hl by exact El.
  destruct (request_refused o). { apply ok_fail; [done|]. by apply (bool_decide_eq_true _). }
  destruct (ao_Phase o == OperationPhaseUnset) eqn:Ep.
  { apply bool_decide_eq_true in Ep. apply writes_bind; [|intros; apply writes_ret].
    by apply (ok_operation_status r o Hl acc _ CNone), JAccept. }
  destruct (_ && _)%bool eqn:Ef; [unfold protect; cbv zeta; apply writes_last; intros x; by apply OWProtect|].
  assert (operationServerAction (ao_Action o) = true -> containsOperationFinalizer o = true) as Hfin
    by (intros Ha; rewrite Ha in Ef; by apply negb_false_iff in Ef).
  destruct (aost_Plan (ao_Status o)) as [plan|] eqn:Epl; [by apply ok_drive|].
  unfold freeze_plan. apply writes_bind; [apply writes_reads, reads_planOperation|]. intros es [e|[plan world]] Hs.
  - by eapply ok_result_error; [|apply coded_planOperation|].
  - apply writes_bind; [|intros; apply writes_ret]. apply (ok_operation_status r o Hl _ _ (CPlan plan world)), JPlan; [done|].
    exists es. split; [in_trace | done].
Qed.

(** One pass over a receipt refines the abstract machine [op_write]:
    every write it makes, whatever the API server answers, is one the machine
    allows at the reads and writes before it — a change of the journal with
    its evidence, the finalizer, the receipt's own fence, the server it
    creates, the patch of a journaled step, the deletion that ends a
    decommission, its native child, or the confirmation or cancellation of
    the destruction it names. *)
Theorem operation_pass_refines o es out pre e post (Hs : steps (reconcile_operation r o) es out)
  (E : es = pre ++ e :: post) (Hw : is_write e = true) : op_write r o pre e.
Proof. by apply (ok_reconcile_operation o [] es out Hs pre e post). Qed.

(** ** Patches of a server *)

Lemma intent_journaled_digest t intent : intent_journaled t intent = true ->
  SpecDigest intent = Ok (ost_SpecDigest t) /\ ost_DesiredState t = gs_DesiredState intent.
Proof. unfold intent_journaled. destruct (SpecDigest intent); [|done]. intros Hj. bool_prop. split; congruence. Qed.

(** A server is patched only as journaled.  Whenever a pass
    patches a server, the receipt is live, protected by its finalizer and planned, the server was read in
    this pass with the planned UID and the planned claims, the receipt holds
    the Lease of its world, the step is in the journal with the digest of the
    specification written, that specification is the frozen intent in the
    step's desired state, the server is at the generation the step starts
    from, and the patch begins with tests of the UID and resource version
    read.  A Start further requires the Stop of the same receipt to be applied
    to this server and observed stopped. *)
Theorem operation_patches_journaled o es out pre e post server patches (Hs : steps (reconcile_operation r o) es out)
  (E : es = pre ++ e :: post) (Hp : server_patch e = Some (server, patches)) :
  live o /\ containsOperationFinalizer o = true /\
  exists plan planned data t intent, aost_Plan (ao_Status o) = Some plan /\
    held_server r o plan planned data server pre /\ operationTransition o (ost_Step t) = Some t /\
    frozen_step o plan (ost_Step t) intent /\ SpecDigest intent = Ok (ost_SpecDigest t) /\
    ost_DesiredState t = gs_DesiredState intent /\ gs_Generation server = ost_FromGeneration t /\
    patches = test_patch "/metadata/uid" (server_UID server) ::
              test_patch "/metadata/resourceVersion" (om_ResourceVersion (gs_meta server)) ::
              transition_patches o server t intent /\
    (ost_Step t = "Start" -> exists stop, operationTransition o "Stop" = Some stop /\
       operationTransitionApplied o server stop (with_desired_state intent DesiredStateStopped) = true /\
       operationRuntimeObserved server DesiredStateStopped (Some data) = true).
Proof.
  assert (is_write e = true) as Hw by (destruct e as [R q x]; by destruct q).
  pose proof (ok_reconcile_operation o [] es out Hs pre e post E Hw) as Ho.
  destruct Ho as [| | | | | |plan want e Hl Hpl Ha Hc Hwant Hm Hcr|plan planned data v t intent x Hl Hpl Hfin Hh Hf Ht Hj Ha Hg Hst| | |];
    try discriminate Hp.
  - destruct want; destruct Hcr as [y ->]; discriminate Hp.
  - injection Hp as <- <-. split; [done|]. split; [done|]. destruct (intent_journaled_digest _ _ Hj) as [Hd Hds].
    exists plan, planned, data, t, intent. split_and!; try done. intros Es. unfold step_allowed in Hst.
    rewrite Es in Hst. eval_bools. destruct (operationTransition o "Stop") as [stop|]; [|done].
    apply andb_prop in Hst as [Hs1 Hs2]. by exists stop.
Qed.

(** ** Deletions *)

Lemma next_deletion o pre e : op_write r o pre e -> forall server options, server_deletion e = Some (server, options) ->
  exists plan planned data t intent world, live o /\ aost_Plan (ao_Status o) = Some plan /\
    ao_Action o = OperationServerDecommission /\ current_server r o plan planned data server pre /\
    frozen_step o plan "Stop" intent /\ operationTransition o "Stop" = Some t /\
    operationTransitionApplied o server t intent = true /\
    operationRuntimeObserved server DesiredStateStopped (Some data) = true /\
    aost_RetainedWorld (ao_Status o) = Some world /\ options = exact_delete (gs_meta server).
Proof.
  intros Ho server options Hd. destruct Ho as [| | | | | |plan want e Hl Hpl Ha Hc Hwant Hm Hcr| |plan planned data v t intent world x| |];
    try discriminate Hd.
  - destruct want; destruct Hcr as [y ->]; discriminate Hd.
  - injection Hd as <- <-. exists plan, planned, data, t, intent, world. split_and!; done.
Qed.

(** A server is deleted only to end its decommission.  The
    receipt is a live decommission that recorded the retained world, the
    server was read in this pass with the planned UID over the planned
    claims, under the receipt's Lease (or is the API's answer to the patch of
    that server, which tests its UID and resource version), its specification is the journaled
    Stop of this receipt, it was observed stopped at that generation with the
    planned data, and the deletion names its UID and resource version.  No
    claim is ever deleted. *)
Theorem operation_deletes_retired o es out pre e post server options (Hs : steps (reconcile_operation r o) es out)
  (E : es = pre ++ e :: post) (Hd : server_deletion e = Some (server, options)) :
  live o /\ ao_Action o = OperationServerDecommission /\ aost_RetainedWorld (ao_Status o) <> None /\
  options = MkDeleteOptions (Some (server_UID server)) (Some (om_ResourceVersion (gs_meta server))) None /\
  exists plan planned data t intent, aost_Plan (ao_Status o) = Some plan /\
    current_server r o plan planned data server pre /\ frozen_step o plan "Stop" intent /\
    t ∈ aost_Transitions (ao_Status o) /\ ost_Step t = "Stop" /\
    attributed server o intent /\ gs_Generation server = ost_ToGeneration t /\
    gs_DesiredState (gs_Spec server) = ost_DesiredState t /\
    gss_Phase (gs_Status server) = PhaseStopped /\ gss_ObservedGeneration (gs_Status server) = gs_Generation server /\
    sameDataSelection (Some data) (gss_ObservedData (gs_Status server)) = true.
Proof.
  assert (is_write e = true) as Hw by (destruct e as [R q x]; by destruct q).
  destruct (next_deletion o pre e (ok_reconcile_operation o [] es out Hs pre e post E Hw) _ _ Hd)
    as (plan & planned & data & t & intent & world & Hl & Hpl & Ha & Hh & Hf & Ht & Happ & Hobs & Hworld & ->).
  split_and!; [done|done|by rewrite Hworld|done|].
  destruct (operationTransitionApplied_attributed _ _ _ _ Happ) as (Hat & Hgen & Hst).
  apply find_some in Ht as [Ht Hn]. apply list_elem_of_In in Ht. apply bool_decide_eq_true in Hn.
  unfold operationRuntimeObserved in Hobs. destruct (_ || _ || _)%bool eqn:Hg; [done|]. eval_bools.
  apply bool_decide_eq_true in Hobs.
  apply orb_false_iff in Hg as [[Hg1 Hg2]%orb_false_iff Hg3].
  apply negb_false_iff in Hg1, Hg3. apply bool_decide_eq_true in Hg1.
  exists plan, planned, data, t, intent. split_and!; done.
Qed.

(** ** Creations *)

Lemma wanted_child_meta o plan want es : steps (wanted_child o plan) es (inr want) ->
  child_meta want = native_meta o (operationChildKind want).
Proof.
  unfold wanted_child. intros Hs. destruct (op_Server plan), (op_Data plan), (op_RepositorySecretRef plan);
    try (destruct Hs as [_ E]; discriminate E). destruct (ao_Action o); try (destruct Hs as [_ E]; discriminate E).
  - by op_walk Hs.
  - destruct (op_BackupRef plan); [|destruct Hs as [_ E]; discriminate E]. by op_walk Hs.
  - destruct (op_BackupRef plan), (aost_RetainedWorld (ao_Status o)); destruct Hs as [_ E]; try discriminate E. by injection E as ->.
Qed.
Lemma creates_meta want e : creates want e -> created_meta e = Some (child_meta want).
Proof. destruct want; by intros [x ->]. Qed.

(** A new object that answers to the receipt: its marks, and no owner. *)
Definition receipt_object (o : ArcadeOperation) (name : string) (m : ObjectMeta) : Prop :=
  om_Name m = name /\ om_Namespace m = ao_Namespace o /\ om_OwnerReferences m = [] /\ om_Finalizers m = [] /\
  mget (om_Labels m) operationReceiptUIDLabel = ao_UID o /\
  mget (om_Annotations m) operationReceiptNameAnnotation = ao_Name o.

(** What a receipt creates.  Every object a pass creates carries
    the receipt's UID and name and no owner reference, so that deleting the
    receipt deletes nothing else.  It is the Lease of a world the plan names
    or of the server it created, which did not exist, taken only once the receipt
    is protected by its finalizer; or, while no child is
    recorded, the server of a creation, which did not exist under the
    requested name and whose retained world is fenced if it has one; or the
    one native child, under the name derived from the receipt's UID. *)
Theorem operation_creates_exact o es out pre e post m (Hs : steps (reconcile_operation r o) es out)
  (E : es = pre ++ e :: post) (Hc : created_meta e = Some m) :
  live o /\ exists plan, aost_Plan (ao_Status o) = Some plan /\
    ((exists name identity, containsOperationFinalizer o = true /\ receipt_object o (DataOperationLeaseName identity) m /\ world_of r o plan name identity pre /\
        answered r o KLease (DataOperationLeaseName identity) (inl NotFound) pre) \/
     (receipt_object o (rq_ServerName (ao_Request o)) m /\ ao_Action o = OperationServerCreate /\
        aost_Child (ao_Status o) = None /\ answered r o KGameServer (rq_ServerName (ao_Request o)) (inl NotFound) pre /\
        (forall data, op_Data plan = Some data -> fenced r o (rq_ServerName (ao_Request o)) (rdr_Identity data) pre)) \/
     (exists want, receipt_object o (ChildName (ao_UID o) (operationChildKind want)) m /\
        operationServerAction (ao_Action o) = false /\ aost_Child (ao_Status o) = None /\
        returned (wanted_child o plan) (inr want) pre /\ returned (read_child r want) (inl NotFound) pre)).
Proof.
  assert (is_write e = true) as Hw by (destruct e as [R q x]; by destruct q).
  destruct (ok_reconcile_operation o [] es out Hs pre e post E Hw) as
    [| | | |plan name identity t x Hl Hpl Hfin Hn Hwo|plan frozen intent digest x Hl Hpl Ha Hch Hfr Hi Hd Hn Hfe
    |plan want e Hl Hpl Ha Hch Hwant Hm Hcr| | | |]; try discriminate Hc.
  - injection Hc as <-. split; [done|]. exists plan. split; [done|]. left. exists name, identity. split_and!; [done| |done..].
    unfold receipt_object, mget. cbn. by simpl_map.
  - injection Hc as <-. split; [done|]. exists plan. split; [done|]. right; left. split_and!; [|done..].
    unfold receipt_object, mget. cbn. by simpl_map.
  - rewrite (creates_meta _ _ Hcr) in Hc. injection Hc as <-. split; [done|]. exists plan. split; [done|].
    right; right. exists want. split_and!; [|done..]. destruct Hwant as (es' & _ & Hwant).
    rewrite (wanted_child_meta _ _ _ _ Hwant). unfold receipt_object, mget. cbn. by simpl_map.
Qed.

(** ** Destructions *)

(** A destruction is confirmed exactly.  A pass patches a
    [GameDestroy] only for a live confirmation or cancellation that names it:
    the destroy was read in this pass with the UID the command names, marked
    by and specified for the receipt that previewed it, observed at its
    generation, with no deletion begun and not cancelled.  A confirmation
    further needs it in preview, unconfirmed, and writes exactly the
    challenge of that preview, read before it expired.  The patch begins with
    tests of the UID and resource version read. *)
Theorem operation_confirms_preview o es out pre e post destroy patches (Hs : steps (reconcile_operation r o) es out)
  (E : es = pre ++ e :: post) (Hp : destroy_patch e = Some (destroy, patches)) :
  live o /\ exists plan command, aost_Plan (ao_Status o) = Some plan /\ commanded r o plan command destroy pre /\
    gds_ObservedGeneration (gd_Status destroy) = om_Generation (gd_meta destroy) /\
    gds_DeletionJournal (gd_Status destroy) = [] /\ gd_CancelRequested (gd_Spec destroy) = false /\
    ((ao_Action o = OperationWorldDestroyCancel /\ destroyTerminal (gds_Phase (gd_Status destroy)) = false /\
      patches = exact_patches (gd_meta destroy) (cancel_patches o destroy)) \/
     (ao_Action o = OperationWorldDestroyConfirm /\ gds_Phase (gd_Status destroy) = DestroyPhasePreview /\
      gd_ConfirmationChallenge (gd_Spec destroy) = "" /\
      exists preview now, gds_Preview (gd_Status destroy) = Some preview /\ Ev ClockNow now ∈ pre /\
        (now < pv_ExpiresAt preview)%Z /\
        patches = exact_patches (gd_meta destroy) (confirm_patches o destroy (pv_Challenge preview)))).
Proof.
  assert (is_write e = true) as Hw by (destruct e as [R q x]; by destruct q).
  assert (destroy_begun destroy = false -> gds_DeletionJournal (gd_Status destroy) = []) as Hj.
  { unfold destroy_begun. destruct (gds_DeletionJournal (gd_Status destroy)); [done|].
    intros Hb%Z.ltb_ge. unfold len in Hb. cbn [length] in Hb. lia. }
  destruct (ok_reconcile_operation o [] es out Hs pre e post E Hw) as
    [| | | | | |plan want e Hl Hpl Ha Hch Hwant Hm Hcr| | |plan command d preview now x|plan command d x]; try discriminate Hp.
  - destruct want; destruct Hcr as [y ->]; discriminate Hp.
  - injection Hp as <- <-. split; [done|]. exists plan, command. split_and!; try done; [by apply Hj|]. right.
    split_and!; [done..|]. exists preview, now. split_and!; try done. congruence.
  - injection Hp as <- <-. split; [done|]. exists plan, command. split_and!; try done; [by apply Hj|]. by left.
Qed.

(** ** Receipts that ended *)

(** A receipt that ended, or is being deleted, only cleans up
    after itself: every write of a pass over it is the deletion of its own
    Lease, under the Lease's UID and resource version and only when every
    mark of the Lease is the receipt's, or the removal of its own finalizer
    once that fence is gone or foreign.  It writes no status. *)
Theorem operation_ended_cleanup o es out pre e post (Hend : deleting (ao_meta o) = true \/ operationTerminal (ao_Phase o) = true)
  (Hs : steps (reconcile_operation r o) es out) (E : es = pre ++ e :: post) (Hw : is_write e = true) :
  (exists name identity lease x, e = Ev (ApiDelete KLease lease (exact_delete (ls_meta lease))) x /\
     operationLeaseCoordinates o = (name, identity, None) /\
     answered r o KLease (DataOperationLeaseName identity) (inr lease) pre /\
     operationLeaseMatches (Some lease) o name identity = true) \/
  (exists u x, e = Ev (ApiUpdate KArcadeOperation u) x /\ unfenced r o pre /\ ao_Spec u = ao_Spec o /\
     ao_Status u = ao_Status o /\
     om_Finalizers (ao_meta u) = List.filter (fun f => f != operationFinalizer) (om_Finalizers (ao_meta o))).
Proof.
  assert (~ live o) as Hn by (intros [Hd Ht]; destruct Hend; congruence).
  destruct (ok_reconcile_operation o [] es out Hs pre e post E Hw) as
    [? ? ? ? ? Hl|? Hl|x _ Hu|name identity lease x _ Hc Ha Hm|? ? ? ? ? Hl|? ? ? ? ? Hl|? ? ? Hl|? ? ? ? ? ? ? Hl
    |? ? ? ? ? ? ? ? Hl|? ? ? ? ? ? Hl|? ? ? ? Hl]; try done.
  - right. by eexists _, x.
  - left. by exists name, identity, lease, x.
Qed.

(** A receipt reaches nothing but receipts, fences, servers and
    native operations: whatever the API answers, no request of a pass creates,
    updates, patches or deletes a claim, a volume, a Secret, a workload, a Job
    or a worker's authority. *)
Theorem operation_keeps_data o es out e (Hs : steps (reconcile_operation r o) es out) (He : e ∈ es) :
  receipt_write e = true /\ claim_touched e = false.
Proof.
  apply list_elem_of_split in He as (pre & post & E). destruct (is_write e) eqn:Hw.
  - destruct (ok_reconcile_operation o [] es out Hs pre e post E Hw) as [| | | | | |plan want e Hl Hpl Ha Hc Hwant Hm Hcr| | | |];
      try done. destruct want; by destruct Hcr as [y ->].
  - destruct e as [R q x]. by destruct q.
Qed.
End Safety.
