(* ===== verification/OperationHistory.v ===== *)
(** * Receipts over many passes

    [receipt_history] are the versions a receipt goes through: it is admitted
    without a status, its metadata may be edited, and each pass writes the
    status.  Over every history the journal holds exactly the steps of its
    action in order, each with the digest of the frozen intent, and every
    status the controller writes satisfies the rules of
    [api/v1alpha1/arcadeoperation_types.go] on updates, enumerations, texts of
    failures and recorded steps.  The rules on its plan, its preview, its
    conditions, the digest of its retained world, child references and the
    least generations are not covered. *)

From Stdlib Require Import Ascii.
From stdpp Require Import base tactics list strings gmap numbers.
From S2P Require Import Prelude GoStrings Regex Sha256 K8s ApiTypes DataOperation Receipts Operations GameDefinition KubeObjects KubePlan KubeApi TraceLogic WorkerInput OperationDigest KubeDestroy WorkerPods OperationFence ServerStatus ServerController DestroyController OperationStatus OperationPlanning OperationServer OperationData OperationController OperationMachine OperationParts OperationSafety.
Open Scope string_scope.
Open Scope list_scope.

#[local] Instance receipt_status_eq_dec : EqDecision ArcadeOperationStatus.
Proof. solve_decision. Defined.

(** ** The schema of a status *)

(** The rules on one status: the enumerations, the bounds of the texts, the
    digests and the list of steps with its key and its [MaxItems]. *)
Definition phase_listed (p : ArcadeOperationPhase) : bool :=
  match p with OperationPhaseOther _ => false | _ => true end.
Definition text_bounded (t : string) : bool := (1 <=? slen t)%Z && (slen t <=? 512)%Z.
Definition failure_valid (f : OperationFailure) : bool :=
  bool_decide (of_Code f ∈ failure_codes) && text_bounded (of_Message f) && text_bounded (of_SuggestedAction f).
Definition child_valid (c : OperationChildReference) : bool :=
  bool_decide (och_Kind c ∈ ["GameServer"; "GameBackup"; "GameRestore"; "GameDestroy"]).
Definition transition_valid (t : OperationServerTransition) : bool :=
  bool_decide (ost_Step t ∈ ["Apply"; "Stop"; "Start"]) && MatchString digestPattern (ost_SpecDigest t).
Definition receipt_status_valid (s : ArcadeOperationStatus) : bool :=
  phase_listed (aost_Phase s) && optionally failure_valid (aost_Failure s) && optionally child_valid (aost_Child s) &&
  forallb transition_valid (aost_Transitions s) && (len (aost_Transitions s) <=? 3)%Z &&
  bool_decide (NoDup (ost_Step <$> aost_Transitions s)).

(** The rules on an update of the status. *)
Definition unchanged {A} `{EqDecision A} (old new : option A) : bool := (old == None) || (new == old).
Definition receipt_update_valid (old new : ArcadeOperationStatus) : bool :=
  unchanged (aost_Plan old) (aost_Plan new) && unchanged (aost_Child old) (aost_Child new) &&
  unchanged (aost_RetainedWorld old) (aost_RetainedWorld new) &&
  forallb (fun e => existsb (fun e' => e' == e) (aost_Transitions new)) (aost_Transitions old) &&
  (negb (operationTerminal (aost_Phase old)) || (new == old)).

(** ** Histories *)

Definition new_receipt_status : ArcadeOperationStatus :=
  MkOperationStatus 0 OperationPhaseUnset None None None None [] None None None [].

Section History.
Context `{RegexpEngine} `{NameValidation} `{JsonSchema} `{QuantityText} `{FindConditions}.
Variable r : ArcadeOperationReconciler.

Inductive receipt_history : ArcadeOperation -> Prop :=
| RcCreated o : ao_Status o = new_receipt_status -> receipt_history o
| RcEdited o o' : receipt_history o -> ao_Spec o' = ao_Spec o -> ao_Status o' = ao_Status o -> receipt_history o'
| RcPass o es out pre e post u : receipt_history o -> steps (reconcile_operation r o) es out -> es = pre ++ e :: post ->
    receipt_status e = Some u -> receipt_history u.

(** ** The invariant *)

(** The steps of an action in the order they are journaled. *)
Definition step_order (action : ArcadeOperationAction) : list string :=
  match action with
  | OperationServerRestart => ["Stop"; "Start"]
  | OperationServerDecommission => ["Stop"]
  | _ => ["Apply"]
  end.
Definition step_exact (o : ArcadeOperation) (plan : OperationPlan) (t : OperationServerTransition) : Prop :=
  exists intent, frozen_step o plan (ost_Step t) intent /\ SpecDigest intent = Ok (ost_SpecDigest t) /\
    ost_DesiredState t = gs_DesiredState intent /\
    (ost_ToGeneration t = ost_FromGeneration t \/ ost_ToGeneration t = int64 (ost_FromGeneration t + 1)).
Definition journal_exact (o : ArcadeOperation) : Prop :=
  let s := ao_Status o in
  (ost_Step <$> aost_Transitions s) `prefix_of` step_order (ao_Action o) /\
  match aost_Plan s with
  | None => aost_Transitions s = [] /\ aost_Child s = None /\ aost_RetainedWorld s = None
  | Some plan => Forall (step_exact o plan) (aost_Transitions s)
  end.

Lemma step_order_of action step : step_of action step <-> step ∈ step_order action.
Proof. destruct action; cbn; rewrite ?elem_of_cons, elem_of_nil; tauto. Qed.
Lemma step_order_NoDup action : NoDup (step_order action).
Proof. destruct action; apply (bool_decide_eq_true_1 (NoDup _)); vm_compute; reflexivity. Qed.
Lemma prefix_NoDup {A} (l k : list A) : l `prefix_of` k -> NoDup k -> NoDup l.
Proof. intros [x ->] Hn. by apply list.NoDup_app in Hn as [? _]. Qed.

Lemma operationTransition_None o step : operationTransition o step = None ->
  step ∉ ost_Step <$> aost_Transitions (ao_Status o).
Proof.
  unfold operationTransition. intros Hn (t & -> & Ht%list_elem_of_In)%list_elem_of_fmap.
  apply (find_none _ _ Hn) in Ht. by apply bool_decide_eq_false in Ht.
Qed.

(** A new step continues the order. *)
Lemma next_step_prefix o action server planned data step spec : step_of action step ->
  operationTransition o step = None -> step_ready o server planned data step spec ->
  (ost_Step <$> aost_Transitions (ao_Status o)) `prefix_of` step_order action ->
  (ost_Step <$> aost_Transitions (ao_Status o)) ++ [step] `prefix_of` step_order action.
Proof.
  intros Hs Hn%operationTransition_None Hr [k Hk].
  assert (step = "Start" -> "Stop" ∈ ost_Step <$> aost_Transitions (ao_Status o)) as Hstop.
  { destruct Hr as [[? _]|(_ & stop & Ht & _)]; [done|]. intros _. apply find_some in Ht as [Ht E].
    apply bool_decide_eq_true in E. rewrite <- E. apply list_elem_of_fmap_2, list_elem_of_In, Ht. }
  revert Hk Hn Hstop. generalize (ost_Step <$> aost_Transitions (ao_Status o)) as l. intros l Hk Hn Hstop.
  destruct action; cbn in Hs, Hk |- *;
    (destruct l as [|x1 [|x2 [|x3 l]]]; cbn in Hk; simplify_eq; try (exfalso; set_solver));
    try by exists []. all: destruct Hs as [-> | ->]; first [by exists [] | by exists ["Start"] | exfalso; set_solver].
Qed.

Lemma journal_exact_edit o o' : journal_exact o -> ao_Spec o' = ao_Spec o -> ao_Status o' = ao_Status o ->
  journal_exact o'.
Proof.
  unfold journal_exact, step_exact, frozen_step, ao_Action. cbv zeta. intros Hj -> ->. exact Hj.
Qed.

(** ** What a write of the journal changes *)

Section Written.
Variable o : ArcadeOperation.
Variables (phase : ArcadeOperationPhase) (started : option Time) (c : change) (completed : Time).
Local Abbreviation s' := (written_status o phase started c completed).
Lemma written_Phase : aost_Phase s' = phase.
Proof. unfold written_status, settled. destruct (operationTerminal phase); [case_match|]; by destruct c. Qed.
Lemma written_Plan : aost_Plan s' = match c with CPlan plan _ => Some plan | _ => aost_Plan (ao_Status o) end.
Proof. unfold written_status, settled. destruct (operationTerminal phase); [case_match|]; by destruct c. Qed.
Lemma written_Child : aost_Child s' = match c with CChild child => Some child | _ => aost_Child (ao_Status o) end.
Proof. unfold written_status, settled. destruct (operationTerminal phase); [case_match|]; by destruct c. Qed.
Lemma written_RetainedWorld :
  aost_RetainedWorld s' = match c with CPlan _ world => world | _ => aost_RetainedWorld (ao_Status o) end.
Proof. unfold written_status, settled. destruct (operationTerminal phase); [case_match|]; by destruct c. Qed.
Lemma written_Transitions :
  aost_Transitions s' = aost_Transitions (ao_Status o) ++ match c with CStep t => [t] | _ => [] end.
Proof.
  unfold written_status, settled. destruct (operationTerminal phase); [case_match|]; destruct c; cbn; by rewrite ?app_nil_r.
Qed.
Lemma written_Failure : aost_Failure s' = None \/
  aost_Failure s' = match c with CFailure f | CMirror _ f => f | _ => aost_Failure (ao_Status o) end.
Proof. unfold written_status, settled. destruct (operationTerminal phase); [case_match|]; destruct c; cbn; auto. Qed.
End Written.

(** ** The invariant is kept *)

Lemma journaled_exact o plan server step spec digest t : frozen_step o plan step (step_intent step spec) ->
  SpecDigest (step_intent step spec) = Ok digest ->
  step_exact o plan (journaled server step digest (step_intent step spec) t).
Proof.
  intros Hf Hd. exists (step_intent step spec). split_and!; [done..|]. cbn. destruct (operationSpecsEqual _ _); auto.
Qed.

Lemma journal_exact_kept o es phase started c completed : journal_exact o -> journal r o es phase c ->
  journal_exact (with_receipt_status o (written_status o phase started c completed)).
Proof.
  unfold journal_exact. cbn [ao_Status with_receipt_status]. cbv zeta.
  rewrite written_Plan, written_Child, written_RetainedWorld, written_Transitions. change (ao_Action (with_receipt_status o _)) with (ao_Action o).
  intros [Hp Hm] Hj. destruct Hj as [|code Hc|code Hc|plan world Hn Hr|plan server intent Hpl|plan want actual Hpl
    |plan command destroy Hpl|plan planned data server step spec digest t Hpl Hh Hf Hn Hr Hd|plan actual st g Hpl|plan destroy Hpl
    |plan destroy failure Hpl|plan Hpl]; rewrite ?app_nil_r; try (rewrite Hpl in Hm |- * ); try (split; [exact Hp | exact Hm]).
  - split; [exact Hp|]. rewrite Hn in Hm. destruct Hm as (-> & _ & _). constructor.
  - split.
    + rewrite fmap_app. cbn [fmap list_fmap journaled ost_Step]. by eapply next_step_prefix; [apply Hf|..].
    + apply Forall_app. split; [exact Hm|]. constructor; [|constructor]. by apply journaled_exact.
Qed.

(** ** The schema *)

Lemma hashBytes_digest l : MatchString digestPattern (hashBytes l) = true.
Proof.
  assert (forall c, (negb (is_hex c) || is_hex_char c)%bool = true) as Hhex by (apply byte_forall; vm_compute; reflexivity).
  apply MatchString_lang. unfold hashBytes, digestPattern. rewrite chars_app. apply lang_cat; [by apply lang_lit|].
  unfold EncodeToString. rewrite chars_unchars. apply (lang_class_times is_hex_char 64). split.
  - by rewrite length_hex_chars, length_Sum256.
  - eapply Forall_impl; [|apply hex_chars_is_hex]. intros x Hx. specialize (Hhex x). by rewrite Hx in Hhex.
Qed.
Lemma SpecDigest_digest spec d : SpecDigest spec = Ok d -> MatchString digestPattern d = true.
Proof. unfold SpecDigest. intros Hd. ok_inv. subst d. apply hashBytes_digest. Qed.

Lemma failures_valid code : code ∈ failure_codes ->
  failure_valid (operationFailure code) = true /\ failure_valid (progress_failure code) = true.
Proof.
  assert (forallb (fun code => failure_valid (operationFailure code) && failure_valid (progress_failure code)) failure_codes = true)
    as Hall by (vm_compute; reflexivity).
  intros Hc. rewrite forallb_forall in Hall. by apply andb_prop, Hall, list_elem_of_In.
Qed.
Lemma step_listed o plan step intent : frozen_step o plan step intent -> bool_decide (step ∈ ["Apply"; "Stop"; "Start"]) = true.
Proof.
  intros (_ & _ & Hs & _). apply bool_decide_eq_true. unfold step_of in Hs.
  destruct (ao_Action o); destruct_or?; subst step; set_solver.
Qed.
Lemma step_exact_valid o plan t : step_exact o plan t -> transition_valid t = true.
Proof.
  intros (intent & Hf & Hd & _). unfold transition_valid. apply andb_true_iff. split.
  - by eapply step_listed.
  - by eapply SpecDigest_digest.
Qed.

(** The parts of the schema that do not follow from [journal_exact]. *)
Definition shown_valid (s : ArcadeOperationStatus) : bool :=
  phase_listed (aost_Phase s) && optionally failure_valid (aost_Failure s) && optionally child_valid (aost_Child s).

Lemma journal_phase o es phase c : journal r o es phase c -> phase_listed (ao_Phase o) = true -> phase_listed phase = true.
Proof.
  intros Hj Ho. destruct Hj; try done; [by destruct (ds_Phase st) | by destruct (gds_Phase (gd_Status destroy))].
Qed.
Lemma journal_failure o es phase c : journal r o es phase c -> optionally failure_valid (aost_Failure (ao_Status o)) = true ->
  optionally failure_valid (match c with CFailure f | CMirror _ f => f | _ => aost_Failure (ao_Status o) end) = true.
Proof.
  intros Hj Ho. destruct Hj as [|code Hc|code Hc| | | | | | | |plan destroy failure _ _ [-> | ->]|]; try done.
  - apply (failures_valid _ Hc).
  - apply (failures_valid _ Hc).
Qed.
Lemma journal_child o es phase c : journal r o es phase c -> optionally child_valid (aost_Child (ao_Status o)) = true ->
  optionally child_valid (match c with CChild child => Some child | _ => aost_Child (ao_Status o) end) = true.
Proof. intros Hj Ho. destruct Hj as [| | | | |plan want actual| | | | | |]; try done. by destruct want. Qed.

Lemma shown_kept o es phase started c completed : shown_valid (ao_Status o) = true -> journal r o es phase c ->
  shown_valid (written_status o phase started c completed) = true.
Proof.
  unfold shown_valid. intros [[Hp Hf]%andb_prop Hc]%andb_prop Hj. rewrite written_Phase, written_Child.
  rewrite (journal_phase _ _ _ _ Hj Hp), (journal_child _ _ _ _ Hj Hc). cbn [andb]. rewrite andb_true_r.
  destruct (written_Failure o phase started c completed) as [-> | ->]; [done | by eapply journal_failure].
Qed.

Lemma journal_exact_valid o : journal_exact o -> shown_valid (ao_Status o) = true -> receipt_status_valid (ao_Status o) = true.
Proof.
  intros [Hp Hm] Hs. unfold receipt_status_valid. unfold shown_valid in Hs. rewrite Hs. cbn [andb].
  rewrite !andb_true_iff, bool_decide_eq_true, Z.leb_le. split_and!.
  - apply forallb_forall. intros t Ht%list_elem_of_In. destruct (aost_Plan (ao_Status o)) as [plan|].
    + rewrite list.Forall_forall in Hm. eapply step_exact_valid, Hm, Ht.
    + destruct Hm as (Hm & _). rewrite Hm in Ht. by apply not_elem_of_nil in Ht.
  - apply prefix_length in Hp. rewrite length_fmap in Hp. unfold len.
    destruct (ao_Action o); cbn [step_order length] in Hp; lia.
  - eapply prefix_NoDup; [exact Hp | apply step_order_NoDup].
Qed.

Lemma kept_entries l k : forallb (fun e => existsb (fun e' : OperationServerTransition => e' == e) (l ++ k)) l = true.
Proof.
  apply forallb_forall. intros e He. apply existsb_exists. exists e. split; [apply in_app_iff; by left|]. by apply bool_decide_eq_true.
Qed.
Lemma journal_update_valid o es phase started c completed : live o -> journal_exact o -> journal r o es phase c ->
  receipt_update_valid (ao_Status o) (written_status o phase started c completed) = true.
Proof.
  intros [_ Hl] [_ Hm] Hj. unfold receipt_update_valid, unchanged. fold (ao_Phase o). rewrite Hl.
  rewrite written_Plan, written_Child, written_RetainedWorld, written_Transitions, kept_entries.
  rewrite !andb_true_iff, !orb_true_iff, !bool_decide_eq_true.
  destruct Hj as [| | |plan world Hn|plan server intent _ Hc|plan want actual _ Hc|plan command destroy _ Hc| | | | |];
    split_and!; auto. rewrite Hn in Hm. left. apply Hm.
Qed.

(** ** Theorems *)

Definition receipt_ok (o : ArcadeOperation) : Prop := journal_exact o /\ shown_valid (ao_Status o) = true.
Lemma status_written o es out pre e post u : steps (reconcile_operation r o) es out -> es = pre ++ e :: post ->
  receipt_status e = Some u -> live o /\ exists phase started c completed, journal r o pre phase c /\
    u = with_receipt_status o (written_status o phase started c completed).
Proof.
  intros Hs E Hu. assert (is_write e = true) as Hw by (destruct e as [R q x]; by destruct q).
  destruct (ok_reconcile_operation r o [] es out Hs pre e post E Hw) as
    [phase c started completed x Hl Hj| | | | | |plan want e Hl Hpl Ha Hch Hwant Hm Hcr| | | |]; try discriminate Hu.
  - injection Hu as <-. split; [done|]. by exists phase, started, c, completed.
  - destruct want; destruct Hcr as [y ->]; discriminate Hu.
Qed.
Lemma receipt_history_ok o : receipt_history o -> receipt_ok o.
Proof.
  intros Hh. induction Hh as [o E|o o' _ [IHj IHs] Esp Est|o es out pre e post u _ [IHj IHs] Hs E Hu].
  - unfold receipt_ok, journal_exact. rewrite E. cbn. split; [|done]. split; [apply prefix_nil | done].
  - split; [by eapply journal_exact_edit|]. by rewrite Est.
  - destruct (status_written _ _ _ _ _ _ _ Hs E Hu) as (Hl & phase & started & c & completed & Hj & ->).
    split; [by eapply journal_exact_kept | by eapply shown_kept].
Qed.

(** The journal of a receipt is exact over every history.  However
    many passes ran and whatever the API answered, the steps it holds are the
    steps of its action in their order, each at most once, none before the
    plan; each carries the digest of the specification the plan froze for it
    and that specification's desired state; and it moves the server by one
    generation or none. *)
Theorem receipt_journal_exact o (Hh : receipt_history o) :
  let s := ao_Status o in
  (ost_Step <$> aost_Transitions s) `prefix_of` step_order (ao_Action o) /\
  (aost_Plan s = None -> aost_Transitions s = [] /\ aost_Child s = None /\ aost_RetainedWorld s = None) /\
  forall t plan, t ∈ aost_Transitions s -> aost_Plan s = Some plan ->
    exists intent, frozen_step o plan (ost_Step t) intent /\ SpecDigest intent = Ok (ost_SpecDigest t) /\
      ost_DesiredState t = gs_DesiredState intent /\
      (ost_ToGeneration t = ost_FromGeneration t \/ ost_ToGeneration t = int64 (ost_FromGeneration t + 1)).
Proof.
  destruct (receipt_history_ok o Hh) as [[Hp Hm] _]. cbv zeta. split; [exact Hp|]. split.
  - intros Hn. by rewrite Hn in Hm.
  - intros t plan Ht Hpl. rewrite Hpl in Hm. rewrite list.Forall_forall in Hm. by apply Hm.
Qed.

(** Every status the receipt controller writes satisfies
    [receipt_status_valid] and [receipt_update_valid].  Over every history, the plan, the child, the
    retained world and the recorded steps are kept once they are set, a
    terminal status is never rewritten, the phase, the step names, the child's
    kind and the failure's code are listed ones, steps are unique and at most
    three, their digests are SHA-256 digests and the texts of a failure are of
    1 to 512 bytes. *)
Theorem receipt_status_conforms o es out pre e post u (Hh : receipt_history o)
  (Hs : steps (reconcile_operation r o) es out) (E : es = pre ++ e :: post) (Hu : receipt_status e = Some u) :
  receipt_update_valid (ao_Status o) (ao_Status u) = true /\ receipt_status_valid (ao_Status u) = true.
Proof.
  destruct (receipt_history_ok o Hh) as [Hj1 Hj2].
  destruct (status_written _ _ _ _ _ _ _ Hs E Hu) as (Hl & phase & started & c & completed & Hj & ->).
  split; [by eapply journal_update_valid|]. cbn [ao_Status with_receipt_status].
  apply (journal_exact_valid (with_receipt_status o (written_status o phase started c completed))).
  - by eapply journal_exact_kept.
  - by eapply shown_kept.
Qed.

End History.
